(* ===== verification/_CoqProject ===== *)
-Q . S2P
RTThread.v
Prelude.v
Bytes.v
Ringbuffer.v
ListModel.v
Kernel.v
Kservice.v
KMemory.v
KString.v
KPrintf.v
KPrintfSpec.v
Scheduler.v
Object.v
TimerCore.v
ThreadCore.v
Timer.v
Invariant.v
Preemption.v
Registry.v
Deadlines.v
Thread.v
Idle.v
IpcList.v
ThreadSpec.v
Tick.v
Semaphore.v
System.v
Mutex.v
Event.v
Mailbox.v
Chains.v
MessageQueue.v
Mem.v
MemSpec.v
MemSafety.v
MemRealloc.v
KHeap.v
RingbufferHeap.v
Device.v
DeviceSpec.v
Mempool.v
MempoolSpec.v
SpiFlash.v
SpiFlashSpec.v
FlashChipModel.v
Jsmn.v
JsmnReference.v
JsmnRefine.v
JsmnSpec.v
JsmnTree.v
JsmnUtil.v
JsmnAccess.v
JsmnClient.v
FinshVm.v
FinshVmSpec.v
Finsh.v
FinshHeap.v
FinshNode.v
FinshCompile.v
FinshCompileSpec.v
FinshExpr.v
FinshCorrect.v
FinshToken.v
FinshParser.v
FinshParse.v
FinshGrammar.v
FinshLex.v
FinshShell.v
Msh.v
Shell.v
FinshLine.v
ShellSpec.v
MshSpec.v
Boot.v
Examples.v
HeapExamples.v
JsmnExamples.v
FinshExamples.v
KExamples.v
