(* ===== verification/RTThread.v ===== *)
(** * A verification development for the RT-Thread firmware of an STM32F407 board

    The repository is a firmware: the RT-Thread kernel (under
    [src/rt-thread/src], its headers under [src/rt-thread/include], its
    Cortex-M4 port under [src/rt-thread/libcpu/arm/cortex-m4]), configured by
    [src/rtconfig.h], the device framework and drivers, the shell on the console
    (finsh, under [src/rt-thread/components/finsh]), and the application
    (under [src/applications]). This development models the kernel, the
    services above it, the console and the device framework, the shell with its
    expression language, and two parts of the application, the serial flash
    driver and the JSON client, as executable functions over explicit state,
    translated function by function under the names of the code, and proves what
    each of them promises. The constants of the configuration and the fixed-width
    integer types are at the end of this file.

    ** How the code is represented

    - Code that changes state is a function in the state-and-fault monad of
      [Prelude]: [ST S A] takes a state to a state and a result, or to a
      [fault]: a failed [RT_ASSERT] (whose handler spins for ever), the use of
      a pointer to nothing, the linking of a list node that is linked already,
      an endless loop, an access outside a buffer, a division by zero. A
      theorem that an operation returns [Ok] therefore excludes all of these.
    - [kstate] ([Kernel]) holds the globals of the kernel: the scheduler's
      variables, the tick, the object headers, threads, timers and IPC objects
      by their addresses, and the intrusive lists. The rings of [rt_list_t]
      are duplicate-free lists named by their heads ([ListModel]): unlinking a
      node finds the list it is in, as in C. A header and the structure that
      embeds it share the address, and the timer of a thread is named by its
      thread ([thread_timer]).
    - A call that may suspend its thread ends with an [outcome]: [Done] with
      the result, or [Wait] with the locals it keeps; the function with the
      suffix [_resumed] is the code after [rt_schedule()] returns to it.
    - Interrupts are masked by [PRIMASK]; the code between
      [rt_hw_interrupt_disable] and [rt_hw_interrupt_enable] is one step, and
      tick interrupts ([rt_tick_increase]) happen between calls. A message is
      copied by [rt_mq_send] and [rt_mq_recv] with interrupts enabled; the
      copy is taken as one step with the rest of the call.
    - Machine integers are [Z] with the wrap-around written out ([u8], [u16],
      [u32], [s16], [s32]).
    - Loops that follow links take fuel. The number of list nodes bounds
      [rt_timer_check] and the wait-list loops, and their theorems give the
      bound; the walks of the allocator get [walk_fuel], one more than the
      bytes of the heap, which no walk over its blocks can use up, and are
      proved never to run out. A scan of a string gets one step more than the
      bytes of the memory ([scan_fuel]): a longer one leaves the memory, which
      is the fault [FBounds]. A format is read with one step more than its
      characters. The loops of the JSON parser are bounded by the text. The
      virtual machine of the shell gets 128 rounds, the bytes of its text: every
      operation moves on ([finsh_vm_run_ends]). The compiler's walks get
      [node_fuel], one more than the nodes of the table; those of the shell's
      heap [heap_fuel], one more than the headers it has room for; the loops of
      its parser two steps more than the characters of the line ([char_fuel]),
      its recursion twice that ([depth_fuel]); those over the line of the editor
      two more than the bytes of its buffer ([line_fuel]). The theorems on the
      parser, the editor and the commands show that these do not run out.
    - Routines on bytes ([KMemory], [KString], [KPrintf]) work on one array of
      bytes, in which an address is an index: what they read and write beyond
      the operands is visible in it. The tokens of the JSON parser are a second
      array, and the pointer to one is its index. The expression shell has one
      memory, in which an address is an index: what its programs read and write,
      the values of its variables and its heap are there, at the addresses of
      the class [FinshLayout]. A node is its index in the table of nodes. The
      line of the editor is a memory of its own.
    - Functions the shell calls are parameters: [Syscalls] gives the effect on
      memory and the result of one called by a program, [Commands] what a
      command does with its arguments.
    - [char] is unsigned and [long] has 32 bits, as on the target. Where the
      language leaves a signed overflow open, it wraps, the counters of the
      padding of [rt_vsnprintf] included; a shift by less than 0
      or more than 31 and a division by zero are faults.

    ** Files

    - [Prelude]: the monad, faults, weakest preconditions, bits and words.
      [Bytes]: arrays of bytes, [memcpy]. [ListModel]: [rt_list_t]
      ([rtservice.h]). [Chains]: null-terminated singly linked lists.
    - [Kernel]: the data ([rtdef.h]), its accessors, interrupt masking, the
      assertions of [rtdebug.h].
    - [Kservice]: find-first-set by instruction and by table, [rt_strncpy],
      [rt_strncmp] ([kservice.c], [cpuport.c]). Of [kservice.c] also:
      [KMemory], the memory routines ([rt_memset] to [rt_memcmp], with their
      loops over words); [KString], the string routines; [KPrintf],
      [rt_vsnprintf] with its helpers, and [KPrintfSpec], the text it writes;
      [KHeap], [rt_strdup] and the aligned blocks; [Scheduler] ends with [errno].
    - [Device]: the device framework ([device.c]) and the console
      ([rt_kprintf], [rt_kputs], [rt_console_set_device], [rt_show_version]);
      the driver is a parameter, the class [DeviceDriver], each function of
      which sees the structure of its device and leaves it as it likes: the
      serial driver clears the activated flag when it closes ([serial.c]).
      [DeviceSpec]: what they promise, to a driver that obeys the class
      [DriverLaws] where an invariant depends on it; [KExamples]: drivers that
      do, and the theorems on the kernel services at work.
    - [Scheduler]: [scheduler.c], [irq.c], the switch request and the PendSV
      handler of [context_gcc.S]. [Object]: [object.c]. [TimerCore] and
      [Timer]: [timer.c]. [ThreadCore] and [Thread]: [thread.c] and
      [clock.c]. [Idle]: [idle.c].
    - [Invariant]: [wf], the invariant that ties lists, bitmap, thread states,
      headers and timers together, and that the core operations keep it;
      [wf_check] decides it on concrete states.
    - [IpcList], [Semaphore], [Mutex], [Event], [Mailbox], [MessageQueue]:
      [ipc.c].
    - [Mempool], [MempoolSpec]: [mempool.c].
    - [Mem]: [mem.c]. [MemSpec]: the heap as a sequence of
      blocks and the scans over it; [MemSafety], [MemRealloc]: what the
      allocator promises.
    - [Ringbuffer], [RingbufferHeap]: [ringbuffer.c].
    - [SpiFlash]: the driver of the serial flash ([src/applications/spi_flash]);
      the chip is a parameter, [FlashChip], whose data sheet [SpiFlashSpec]
      states as the laws of [NorFlash]; [FlashChipModel] is a chip that obeys
      them.
    - [Jsmn]: the JSON parser ([src/applications/json_deal/jsmn.c]).
      [JsmnReference]: a reference lexer and a builder of tokens; [JsmnRefine]:
      [jsmn_parse] computes it; [JsmnSpec]: safety, what is kept, the counting
      mode; [JsmnTree]: documents as trees, their text and their tokens.
      [JsmnUtil]: the accessors ([jsmn_util.c]) and the client ([json_deal_cmd]
      of [usart_net.c]); [JsmnAccess], [JsmnClient]: what these do on documents;
      [JsmnExamples].
    - The expression shell, whose lines are statements of a small C:
      [FinshToken]: [finsh_token.c]. [FinshParser]: [finsh_parser.c] and
      [finsh_init.c]; it makes nodes ([FinshNode]: [finsh_node.c]) from names
      looked up among variables and symbols ([Finsh]: [finsh_var.c],
      [finsh_error.c], the data of [finsh.h]), and strings in a heap of 128 bytes
      ([FinshHeap]: [finsh_heap.c]). [FinshCompile]: [finsh_compiler.c], from
      nodes to code; [FinshVm]: [finsh_vm.c], [finsh_ops.c], which runs it.
    - What these promise, from the machine up: [FinshVmSpec], its steps and its
      end; [FinshCompileSpec]: the compiler on trees of nodes; [FinshExpr]:
      expressions, their types, meaning and code; [FinshCorrect]: the code of an
      expression does what it means; [FinshParse], [FinshGrammar]: expressions as
      they are written, their tokens, and the parser on those; [FinshLex]: the
      tokens of a text; [FinshLine]: a line from its text to what is printed.
    - The shell around them: [FinshShell], its state and [cmd.c]; [Msh], the
      command mode ([msh.c]); [Shell], the line editor and the turn of the thread
      ([shell.c]). [ShellSpec]: the editor refines a text with a cursor;
      [MshSpec]: what a command line does; [FinshExamples]: a shell with symbols,
      and odd lines.
    - [System]: threads that make calls and tick interrupts in any order, as a
      step relation.
    - [Boot]: start-up ([components.c]) and a small running system, on which
      [Examples] and [HeapExamples] apply the theorems.
    - [Preemption], [Registry], [Deadlines], [ThreadSpec], [Tick]: theorems
      about the scheduler, the registry, the timers, the threads and the tick.

    ** What is shown

    - Scheduling: [rt_schedule] elects the first thread of the highest ready
      priority and never faults in a well-formed state; switch requests merge
      correctly before PendSV runs; nested critical sections hold it back;
      yielding is round robin; the table-driven [__rt_ffs] agrees with the
      instruction.
    - Time: the timer list stays sorted by deadlines modulo 2^32; a check
      ends, expires exactly the due timers, whatever they are, and restarts the
      periodic ones; a timed wait ends at its tick.
    - IPC: each operation refines an abstract object (counting semaphore,
      owner and recursion with priority inheritance, set of bits, bounded
      queue of mails, bounded queue of messages over a pool of nodes), on
      every branch: success, refusal, waiting, waking.
    - Memory: [rt_malloc] returns aligned memory of its own; [rt_free] gives
      exactly it back; [rt_realloc] keeps the content, or frees the block for
      the size 0; every request is answered; pools hand out and take back their
      blocks, whose chain and count agree; a ring buffer of at least four bytes
      is a bounded queue of bytes under all calls, but for the forced put that
      empties it.
    - Flash: [W25QXX_Write] makes a memory of the chip that keeps every byte it
      was not told to write, and [W25QXX_Read] returns what was written; all
      loops end, the polling ones within [chip_polls] reads.
    - Services: [rt_memmove] is a copy whatever the overlap; [rt_vsnprintf]
      writes as much of the text of its format as fits and ends it with a NUL,
      within the size given, for all widths and precisions; a number printed in decimal reads back.
    - Devices: the reference counts, flags and the console keep an invariant
      under every operation; as many closes as opens leave a device without
      users, closed by its driver once, and as the driver leaves it;
      [rt_kprintf] hands the console its text in one write.
    - JSON: on every text and every array of tokens, [jsmn_parse] stays inside
      both and returns what the reference parser does; on the text of a
      document it returns its tokens; [json_deal_cmd] never reads outside the
      frame, and prints the values a document gives to its two keys.
    - Shell: the parser makes the nodes of the statements a text spells, by
      precedence and association, in any layout; on typed statements the code
      the compiler writes does to memory what they mean and leaves the value of
      the last at the bottom of the stack, or has exactly their fault; so
      [finsh_run_line] prints that value when it has four bytes, and the value of
      a lone character or variable; in other cases a narrow value is printed with
      bytes left over in its slot. Code that does not fit the text segment
      is written behind it. The machine always ends. The line editor does what
      its keys say to a text with a cursor; [msh_exec] gives the function of a
      command exactly the arguments the line spells, or says that there is none.
    - The kernel as a whole: [system_safe], an invariant of every reachable state by
      induction on the steps.
    - Behaviour that is not what the comments or the names promise is stated
      as the code has it: see [rt_ringbuffer_put_force_spec],
      [ringbuffer_is_bounded_queue], [small_ringbuffer_overruns],
      [zero_period_never_ends] (of a timer check), [rt_realloc_spec] (a size that
      wraps to 0 frees the block),
      [rt_malloc_wraps], [rt_malloc_spec] (a last free block of exactly the
      size is refused), [rt_mp_init_spec], [rt_mp_alloc_spec],
      [rt_device_destroy_never_returns] (its assertion cannot hold),
      [failed_close_blocks_device], [rt_kprintf_spec] (a longer text than the
      buffer passes a NUL to the console too),
      [rt_console_set_device_not_found], [rt_strnlen_reads_past],
      [octal_prints_hexadecimal] and [precision_zero_prints_nothing], and, of the
      shell, the second half of [FinshExamples]: a narrow value printed with
      bytes of an earlier one, a text segment that overflows, a
      declaration that drops the rest of the line, parentheses that do not group,
      casts without effect, a full line that overruns.

    ** What is not modelled, and why

    - Hooks ([rt_*_sethook]): nothing in the firmware sets one. The idle hooks
      are modelled; the callbacks of timers and idle hooks are a parameter
      ([External]). The theorem on [rt_timer_check] takes callbacks of timers to
      return and to leave threads and timers alone ([callback_law]).
    - The board initialisation and its console set-up; the saving and
      restoring of registers in the switch handler (only the switch request and
      which threads are saved and restored), stack contents (only the guard word
      and the stack pointer). [Boot] does not call the banner; [rt_show_version]
      is modelled in [Device].
    - The addresses that objects allocated on the heap get are arguments of
      [rt_object_allocate], [rt_thread_create] and [rt_mp_create]; the
      allocator is modelled apart from them. A caller that would wait for
      another one to leave the heap faults with [FBlocked].
    - Skip lists have one level, as configured ([RT_TIMER_SKIP_LIST_LEVEL]).
    - [System] has the calls on semaphores, yielding, sleeping and the tick; the
      other IPC objects are proved call by call.
    - The commands of the application ([main.c]) and the driver of its Wi-Fi
      module ([atk_net.c]), which print and call drivers; the board's drivers,
      the other components of the distribution (file system, network stack) and
      the vendor's libraries.
    - Of the shell: waiting for characters and the choice of the device, its
      password (not configured), the start of its thread, the commands that list
      the objects of the kernel ([cmd.c]), which print their fields, and the
      functions that append symbols with memory of the kernel's allocator. What
      is printed is the sequence of calls on [rt_kprintf], format and arguments.
      The statements of the theorems leave out strings, casts and declarations,
      which the definitions have. *)

From Stdlib Require Import ZArith Lia.

#[local] Open Scope Z_scope.

(** ** Machine words (the target is a 32-bit Cortex-M4) *)

(** Wrap-around of the fixed-width integer types of [rtdef.h]. *)
Definition u8 (x : Z) : Z := x mod 2 ^ 8.
Definition u16 (x : Z) : Z := x mod 2 ^ 16.
Definition u32 (x : Z) : Z := x mod 2 ^ 32.
Definition s16 (x : Z) : Z := (x + 2 ^ 15) mod 2 ^ 16 - 2 ^ 15.
Definition s32 (x : Z) : Z := (x + 2 ^ 31) mod 2 ^ 32 - 2 ^ 31.

(** ** The configuration: [rtconfig.h] and the constants of [rtdef.h] *)

Definition RT_NULL : Z := 0.
Definition RT_NAME_MAX : Z := 8.
Definition RT_ALIGN_SIZE : Z := 4.
Definition RT_THREAD_PRIORITY_MAX : Z := 32.
Definition RT_TICK_PER_SECOND : Z := 1000.
Definition RT_TICK_MAX : Z := 4294967295.
Definition RT_SEM_VALUE_MAX : Z := 65535.
Definition RT_MUTEX_VALUE_MAX : Z := 65535.
Definition RT_MUTEX_HOLD_MAX : Z := 255.
Definition RT_MB_ENTRY_MAX : Z := 65535.
Definition RT_MQ_ENTRY_MAX : Z := 65535.

Definition RT_EOK : Z := 0.
Definition RT_ERROR : Z := 1.
Definition RT_ETIMEOUT : Z := 2.
Definition RT_EFULL : Z := 3.
Definition RT_EEMPTY : Z := 4.
Definition RT_ENOMEM : Z := 5.
Definition RT_ENOSYS : Z := 6.
Definition RT_EBUSY : Z := 7.
Definition RT_EIO : Z := 8.
Definition RT_EINTR : Z := 9.
Definition RT_EINVAL : Z := 10.

Definition RT_Object_Class_Null : Z := 0.
Definition RT_Object_Class_Thread : Z := 1.
Definition RT_Object_Class_Semaphore : Z := 2.
Definition RT_Object_Class_Mutex : Z := 3.
Definition RT_Object_Class_Event : Z := 4.
Definition RT_Object_Class_MailBox : Z := 5.
Definition RT_Object_Class_MessageQueue : Z := 6.
Definition RT_Object_Class_MemHeap : Z := 7.
Definition RT_Object_Class_MemPool : Z := 8.
Definition RT_Object_Class_Device : Z := 9.
Definition RT_Object_Class_Timer : Z := 10.
Definition RT_Object_Class_Module : Z := 11.
Definition RT_Object_Class_Unknown : Z := 12.
Definition RT_Object_Class_Static : Z := 128.

Definition RT_TIMER_FLAG_DEACTIVATED : Z := 0.
Definition RT_TIMER_FLAG_ACTIVATED : Z := 1.
Definition RT_TIMER_FLAG_ONE_SHOT : Z := 0.
Definition RT_TIMER_FLAG_PERIODIC : Z := 2.
Definition RT_TIMER_FLAG_HARD_TIMER : Z := 0.
Definition RT_TIMER_FLAG_SOFT_TIMER : Z := 4.

Definition RT_THREAD_INIT : Z := 0.
Definition RT_THREAD_READY : Z := 1.
Definition RT_THREAD_SUSPEND : Z := 2.
Definition RT_THREAD_CLOSE : Z := 4.
Definition RT_THREAD_STAT_MASK : Z := 15.

Definition RT_IPC_FLAG_FIFO : Z := 0.
Definition RT_IPC_FLAG_PRIO : Z := 1.
Definition RT_IPC_CMD_RESET : Z := 1.
Definition RT_WAITING_FOREVER : Z := -1.
Definition RT_WAITING_NO : Z := 0.

Definition RT_EVENT_FLAG_AND : Z := 1.
Definition RT_EVENT_FLAG_OR : Z := 2.
Definition RT_EVENT_FLAG_CLEAR : Z := 4.

(** [RT_ALIGN] and [RT_ALIGN_DOWN] on [rt_size_t] (32-bit unsigned). *)
Definition RT_ALIGN (size align : Z) : Z :=
  Z.land (u32 (size + align - 1)) (u32 (Z.lnot (align - 1))).
Definition RT_ALIGN_DOWN (size align : Z) : Z :=
  Z.land (u32 size) (u32 (Z.lnot (align - 1))).
