(* ===== verification/Prelude.v ===== *)
(** * Prelude: the state-and-fault monad, flags, and list lemmas shared by all components *)

From Stdlib Require Import ZArith Lia.
From stdpp Require Import base gmap list fin_maps countable.
From S2P Require Import RTThread.

#[global] Open Scope Z_scope.

(** Hints of the development: list stores, well-formedness of states. *)
Create HintDb kernel.

Notation ptr := Z (only parsing).

(** ** Faults

    [FAssert]: an [RT_ASSERT] fails; [rt_assert_handler] then spins for ever.
    [FNull]: a pointer that designates no live object is dereferenced.
    [FLinked]: a list node that is already linked is linked again, which
    corrupts both rings in C.
    [FHang]: the code enters an endless loop.
    [FBounds]: bytes outside a buffer are read or written.
    [FDivide]: a division by zero. [FShift]: a shift by a count that is
    negative or not less than the width, which C leaves undefined.
    [FBlocked]: a call would suspend where the model has no continuation. *)
Inductive fault : Set :=
  | FAssert
  | FNull
  | FLinked
  | FHang
  | FBounds
  | FDivide
  | FShift
  | FBlocked.

Inductive res (S A : Type) : Type :=
  | Ok (s : S) (a : A)
  | Err (f : fault).
Arguments Ok {S A} _ _.
Arguments Err {S A} _.

Definition ST (S A : Type) : Type := S → res S A.

#[global] Instance ST_ret {S} : MRet (ST S) := λ A a s, Ok s a.
#[global] Instance ST_bind {S} : MBind (ST S) := λ A B f m s,
  match m s with Ok s' a => f a s' | Err e => Err e end.

Definition fail {S A} (e : fault) : ST S A := λ _, Err e.
Definition get {S} : ST S S := λ s, Ok s s.
Definition gets {S A} (f : S → A) : ST S A := λ s, Ok s (f s).
Definition modify {S} (f : S → S) : ST S unit := λ s, Ok (f s) tt.
(** [RT_ASSERT(b)] with [RT_DEBUG] on. *)
Definition rt_assert {S} (b : bool) : ST S unit :=
  if b then mret () else fail FAssert.
Definition from_option_or {S A} (e : fault) (o : option A) : ST S A :=
  match o with Some a => mret a | None => fail e end.
Definition when {S} (b : bool) (m : ST S unit) : ST S unit :=
  if b then m else mret ().

(** Weakest precondition: the call returns (no fault) and its result and
    final state satisfy [Q]. *)
Definition wp {S A} (m : ST S A) (Q : A → S → Prop) (s : S) : Prop :=
  match m s with Ok s' a => Q a s' | Err _ => False end.

Section wp.
Context {S : Type}.

Lemma wp_ret {A} (a : A) Q (s : S) : Q a s → wp (mret a) Q s.
Proof. done. Qed.

Lemma wp_bind {A B} (m : ST S A) (f : A → ST S B) Q s :
  wp m (λ a s', wp (f a) Q s') s → wp (m ≫= f) Q s.
Proof. unfold wp, mbind, ST_bind. by destruct (m s). Qed.

Lemma wp_mono {A} (m : ST S A) (P Q : A → S → Prop) s :
  wp m P s → (∀ a s', P a s' → Q a s') → wp m Q s.
Proof. unfold wp. destruct (m s); eauto. Qed.

Lemma wp_elim {A} (m : ST S A) Q s :
  wp m Q s → ∃ s' a, m s = Ok s' a ∧ Q a s'.
Proof. unfold wp. destruct (m s); [eauto|done]. Qed.

Lemma wp_intro {A} (m : ST S A) Q s s' a :
  m s = Ok s' a → Q a s' → wp m Q s.
Proof. unfold wp. by intros ->. Qed.

Lemma bind_ok {A B} (m : ST S A) (f : A → ST S B) s s' a :
  m s = Ok s' a → (m ≫= f) s = f a s'.
Proof. unfold mbind, ST_bind. by intros ->. Qed.
Lemma bind_assoc {A B C} (m : ST S A) (f : A → ST S B) (g : B → ST S C) s :
  ((m ≫= f) ≫= g) s = (m ≫= λ a, f a ≫= g) s.
Proof. unfold mbind, ST_bind. by destruct (m s). Qed.
Lemma some_bind {A B} e (a : A) (f : A → ST S B) s : (from_option_or e (Some a) ≫= f) s = f a s.
Proof. done. Qed.
Lemma get_bind {B} (f : S → ST S B) s : (get ≫= f) s = f s s.
Proof. done. Qed.
Lemma bind_err {A B} (m : ST S A) (f : A → ST S B) s e : m s = Err e → (m ≫= f) s = Err e.
Proof. unfold mbind, ST_bind. by intros ->. Qed.
End wp.

(** ** Flags and bits *)

Lemma filter_id {A} (P : A → Prop) `{∀ x, Decision (P x)} (l : list A) :
  (∀ x, x ∈ l → P x) → filter P l = l.
Proof.
  induction l as [|x l IH]; intros HP; [done|]. rewrite filter_cons, decide_True by (apply HP; by left).
  f_equal. apply IH. intros. apply HP. by right.
Qed.

(** The C test [flags & mask]. *)
Definition flag_on (flags mask : Z) : bool := negb (Z.land flags mask =? 0).

Lemma land_pow2 f k : 0 ≤ k → Z.land f (2 ^ k) = if Z.testbit f k then 2 ^ k else 0.
Proof.
  intros Hk. apply Z.bits_inj'. intros n Hn. rewrite Z.land_spec, Z.pow2_bits_eqb by done.
  destruct (Z.eqb_spec k n) as [<-|].
  - destruct (Z.testbit f k); rewrite ?Z.bits_0, ?andb_false_l; [|done].
    by rewrite Z.pow2_bits_true.
  - rewrite andb_false_r. destruct (Z.testbit f k); [|by rewrite Z.bits_0].
    by rewrite Z.pow2_bits_false.
Qed.

Lemma flag_on_pow2 f k : 0 ≤ k → flag_on f (2 ^ k) = Z.testbit f k.
Proof.
  intros Hk. unfold flag_on. rewrite land_pow2 by done.
  destruct (Z.testbit f k); [|done]. apply negb_true_iff, Z.eqb_neq.
  pose proof (Z.pow_pos_nonneg 2 k). lia.
Qed.
Lemma flag_on_1 f : flag_on f 1 = Z.testbit f 0. Proof. by apply (flag_on_pow2 f 0). Qed.
Lemma flag_on_2 f : flag_on f 2 = Z.testbit f 1. Proof. by apply (flag_on_pow2 f 1). Qed.
Lemma flag_on_4 f : flag_on f 4 = Z.testbit f 2. Proof. by apply (flag_on_pow2 f 2). Qed.

Lemma testbit_clear f k n : 0 ≤ k → 0 ≤ n →
  Z.testbit (Z.land f (Z.lnot (2 ^ k))) n = Z.testbit f n && negb (k =? n).
Proof. intros. by rewrite Z.land_spec, Z.lnot_spec, Z.pow2_bits_eqb. Qed.
Lemma testbit_set f k n : 0 ≤ k →
  Z.testbit (Z.lor f (2 ^ k)) n = Z.testbit f n || (k =? n).
Proof. intros. by rewrite Z.lor_spec, Z.pow2_bits_eqb. Qed.

(** [1 << p] on 32 bits. *)
Lemma u32_shiftl1 p : 0 ≤ p < 32 → u32 (Z.shiftl 1 p) = 2 ^ p.
Proof.
  intros. rewrite Z.shiftl_1_l. unfold u32. apply Z.mod_small.
  split; [apply Z.pow_nonneg; lia|]. apply Z.pow_lt_mono_r; lia.
Qed.

(** A nonnegative word whose high bits are clear is bounded. *)
Lemma bits_lt_pow2 x n :
  0 ≤ n → 0 ≤ x → (∀ k, n ≤ k → Z.testbit x k = false) → x < 2 ^ n.
Proof.
  intros Hn H0 Hx. assert (x = x mod 2 ^ n) as ->; [|by apply Z.mod_pos_bound, Z.pow_pos_nonneg].
  apply Z.bits_inj'. intros k Hk. destruct (Z.ltb_spec k n).
  - by rewrite Z.mod_pow2_bits_low.
  - rewrite Z.mod_pow2_bits_high by done. auto.
Qed.
Lemma bits_high x n k : 0 ≤ x < 2 ^ n → 0 ≤ n ≤ k → Z.testbit x k = false.
Proof.
  intros Hx Hk. rewrite <- (Z.mod_small x (2 ^ n)) by done. by apply Z.mod_pow2_bits_high.
Qed.

(** Clearing the two low bits of a word, as [RT_ALIGN] and [RT_ALIGN_DOWN] do. *)
Lemma land_align4 x : 0 ≤ x < 2 ^ 32 → Z.land x (u32 (Z.lnot (4 - 1))) = x - x mod 4.
Proof.
  intros Hx. change (u32 (Z.lnot (4 - 1))) with (Z.shiftl (Z.ones 30) 2).
  replace (x - x mod 4) with (Z.shiftl (Z.shiftr x 2) 2).
  2:{ rewrite Z.shiftl_mul_pow2, Z.shiftr_div_pow2 by lia.
      change (2 ^ 2) with 4. pose proof (Z.div_mod x 4). lia. }
  apply Z.bits_inj'. intros k Hk. rewrite Z.land_spec, !Z.shiftl_spec by done.
  destruct (Z.ltb_spec k 2).
  - rewrite !(Z.testbit_neg_r _ (k - 2)) by lia. apply andb_false_r.
  - rewrite Z.shiftr_spec by lia. replace (k - 2 + 2) with k by lia.
    destruct (Z.ltb_spec (k - 2) 30).
    + rewrite Z.ones_spec_low by lia. apply andb_true_r.
    + rewrite (bits_high x 32) by lia. done.
Qed.
Lemma u32_range x : 0 ≤ u32 x < 2 ^ 32.
Proof. apply Z.mod_pos_bound. lia. Qed.
Lemma u32_small x : 0 ≤ x < 2 ^ 32 → u32 x = x.
Proof. apply Z.mod_small. Qed.
Lemma s32_small x : - 2 ^ 31 ≤ x < 2 ^ 31 → s32 x = x.
Proof. intros. unfold s32. rewrite Z.mod_small by lia. lia. Qed.
Lemma u32_s32 n : u32 (s32 n) = u32 n.
Proof.
  unfold u32, s32. rewrite Zminus_mod, Z.mod_mod, <- Zminus_mod by lia. f_equal. lia.
Qed.
Lemma s32_u32 n : s32 (u32 n) = s32 n.
Proof. unfold u32, s32. by rewrite Zplus_mod_idemp_l. Qed.
Lemma u32_u32 n : u32 (u32 n) = u32 n.
Proof. apply Z.mod_mod. lia. Qed.
Lemma u16_small x : 0 ≤ x < 65536 → u16 x = x.
Proof. apply Z.mod_small. Qed.

(** [RT_ALIGN(size, 4)] rounds up, short of the end of the address space. *)
Lemma RT_ALIGN_up size : 0 ≤ size ≤ 2 ^ 32 - 4 →
  size ≤ RT_ALIGN size RT_ALIGN_SIZE < size + 4 ∧ RT_ALIGN size RT_ALIGN_SIZE mod 4 = 0.
Proof.
  intros Hs. unfold RT_ALIGN, RT_ALIGN_SIZE. rewrite land_align4 by apply u32_range.
  rewrite u32_small by lia. pose proof (Z.mod_pos_bound (size + 4 - 1) 4).
  split; [lia|]. rewrite Zminus_mod, Z.mod_mod, Z.sub_diag by lia. done.
Qed.
(** Past it, it wraps to zero. *)
Lemma RT_ALIGN_wraps size : 2 ^ 32 - 4 < size < 2 ^ 32 → RT_ALIGN size RT_ALIGN_SIZE = 0.
Proof.
  intros Hs. assert (size = 2 ^ 32 - 3 ∨ size = 2 ^ 32 - 2 ∨ size = 2 ^ 32 - 1) as [-> | [-> | ->]] by lia; done.
Qed.

(** ** Blocking calls

    A call that may suspend its thread either returns ([Done]) or reaches the
    [rt_schedule()] after which it waits ([Wait], with the local variables it
    still needs); a separate definition is the code that runs once the thread
    is scheduled again. *)
Inductive outcome (A C : Type) : Type :=
  | Done (a : A)
  | Wait (c : C).
Arguments Done {A C} _.
Arguments Wait {A C} _.
