(* ===== verification/Bytes.v ===== *)
(** * Byte buffers

    A buffer in memory is the list of its bytes; offsets and lengths are C
    integers. [rd] and [wr] are the two halves of a [memcpy]: they give
    nothing when the range leaves the buffer. *)

From Stdlib Require Import String Ascii ZArith Lia.
From stdpp Require Import base list list_numbers.
From S2P Require Import RTThread.
From S2P Require Import Prelude.

Definition zlen {A} (l : list A) : Z := Z.of_nat (length l).
(** The bytes of a string literal, its NUL apart. *)
Definition chars (s : string) : list Z := (λ a, Z.of_N (N_of_ascii a)) <$> list_ascii_of_string s.
Definition byte (l : list Z) (i : Z) : Z := nth (Z.to_nat i) l 0.
Definition slice {A} (l : list A) (off n : Z) : list A :=
  take (Z.to_nat n) (drop (Z.to_nat off) l).
Definition splice {A} (l : list A) (off : Z) (bs : list A) : list A :=
  take (Z.to_nat off) l ++ bs ++ drop (Z.to_nat (off + zlen bs)) l.
Definition rd {A} (l : list A) (off n : Z) : option (list A) :=
  if (0 <=? off) && (0 <=? n) && (off + n <=? zlen l) then Some (slice l off n) else None.
Definition wr {A} (l : list A) (off : Z) (bs : list A) : option (list A) :=
  if (0 <=? off) && (off + zlen bs <=? zlen l) then Some (splice l off bs) else None.

(** [memcpy(&dst[doff], &src[soff], n)]: the new content of [dst]. *)
Definition memcpy {S} (dst : list Z) (doff : Z) (src : list Z) (soff n : Z) : ST S (list Z) :=
  bs ← from_option_or FBounds (rd src soff n);
  from_option_or FBounds (wr dst doff bs).

Section lengths.
Context {A : Type}.
Implicit Types l : list A.

Lemma zlen_app l k : zlen (l ++ k) = zlen l + zlen k.
Proof. unfold zlen. rewrite length_app. lia. Qed.
Lemma zlen_nil : zlen (@nil A) = 0.
Proof. done. Qed.
Lemma zlen_cons x l : zlen (x :: l) = 1 + zlen l.
Proof. unfold zlen. simpl. lia. Qed.
Lemma zlen_nonneg l : 0 ≤ zlen l.
Proof. unfold zlen. lia. Qed.
Lemma zlen_take n l : 0 ≤ n ≤ zlen l → zlen (take (Z.to_nat n) l) = n.
Proof. unfold zlen. intros. rewrite length_take. lia. Qed.
Lemma zlen_drop n l : 0 ≤ n ≤ zlen l → zlen (drop (Z.to_nat n) l) = zlen l - n.
Proof. unfold zlen. intros. rewrite length_drop. lia. Qed.
Lemma zlen_slice l off n : 0 ≤ off → 0 ≤ n → off + n ≤ zlen l → zlen (slice l off n) = n.
Proof.
  intros. unfold slice. rewrite zlen_take; [done|]. rewrite zlen_drop; lia.
Qed.
Lemma zlen_splice l off bs :
  0 ≤ off → off + zlen bs ≤ zlen l → zlen (splice l off bs) = zlen l.
Proof.
  intros. pose proof (zlen_nonneg bs). unfold splice.
  rewrite !zlen_app, zlen_take, zlen_drop; lia.
Qed.
Lemma rd_ok l off n : 0 ≤ off → 0 ≤ n → off + n ≤ zlen l → rd l off n = Some (slice l off n).
Proof. intros. unfold rd. by rewrite !(proj2 (Z.leb_le _ _)) by lia. Qed.
Lemma wr_ok l off bs : 0 ≤ off → off + zlen bs ≤ zlen l → wr l off bs = Some (splice l off bs).
Proof. intros. unfold wr. by rewrite !(proj2 (Z.leb_le _ _)) by lia. Qed.
End lengths.

(** ** The byte at an index *)

Lemma byte_app l k i : 0 ≤ i →
  byte (l ++ k) i = if i <? zlen l then byte l i else byte k (i - zlen l).
Proof.
  intros. unfold byte, zlen. destruct (Z.ltb_spec i (Z.of_nat (length l))).
  - apply app_nth1. lia.
  - rewrite app_nth2 by lia. f_equal. lia.
Qed.
Lemma byte_take n l i : 0 ≤ i < n → byte (take (Z.to_nat n) l) i = byte l i.
Proof.
  intros. unfold byte. rewrite !nth_lookup, lookup_take_lt; [done|lia].
Qed.
Lemma byte_drop n l i : 0 ≤ n → 0 ≤ i → byte (drop (Z.to_nat n) l) i = byte l (n + i).
Proof.
  intros. unfold byte. rewrite !nth_lookup, lookup_drop. do 2 f_equal. lia.
Qed.
Lemma byte_slice l off n i : 0 ≤ off → 0 ≤ i < n → byte (slice l off n) i = byte l (off + i).
Proof. intros. unfold slice. rewrite byte_take, byte_drop by lia. done. Qed.
Lemma byte_splice l off bs i :
  0 ≤ off → off + zlen bs ≤ zlen l → 0 ≤ i →
  byte (splice l off bs) i =
    if (off <=? i) && (i <? off + zlen bs) then byte bs (i - off) else byte l i.
Proof.
  intros. pose proof (zlen_nonneg bs). unfold splice. rewrite !byte_app by (rewrite ?zlen_take; lia).
  rewrite zlen_take by lia.
  destruct (Z.ltb_spec i off); destruct (Z.leb_spec off i); try lia; simpl.
  - by rewrite byte_take by lia.
  - rewrite byte_app by lia.
    destruct (Z.ltb_spec (i - off) (zlen bs)); destruct (Z.ltb_spec i (off + zlen bs));
      try done; try lia.
    rewrite byte_drop by lia. f_equal. lia.
Qed.
Lemma byte_eq l k :
  zlen l = zlen k → (∀ i, 0 ≤ i < zlen l → byte l i = byte k i) → l = k.
Proof.
  unfold zlen, byte. intros Hl H. apply (nth_ext _ _ 0 0); [lia|].
  intros n Hn. specialize (H (Z.of_nat n)). rewrite Nat2Z.id in H. apply H. lia.
Qed.
Lemma byte_map_seqZ (f : Z → Z) a n i :
  0 ≤ i < n → byte (f <$> seqZ a n) i = f (a + i).
Proof.
  intros. unfold byte. rewrite nth_lookup, list_lookup_fmap, lookup_seqZ_lt by lia.
  simpl. f_equal. lia.
Qed.
Lemma zlen_map_seqZ {B} (f : Z → B) a n : 0 ≤ n → zlen (f <$> seqZ a n) = n.
Proof. intros. unfold zlen. rewrite length_fmap, length_seqZ. lia. Qed.

Lemma memcpy_ok {S} (s : S) dst doff src soff n :
  0 ≤ doff → 0 ≤ soff → 0 ≤ n → doff + n ≤ zlen dst → soff + n ≤ zlen src →
  memcpy dst doff src soff n s = Ok s (splice dst doff (slice src soff n)).
Proof.
  intros. unfold memcpy. rewrite rd_ok by lia.
  change (from_option_or FBounds (wr dst doff (slice src soff n)) s =
    Ok s (splice dst doff (slice src soff n))).
  rewrite wr_ok by (rewrite ?zlen_slice; lia). done.
Qed.

Lemma slice_splice_same (l bs : list Z) off :
  0 ≤ off → off + zlen bs ≤ zlen l → slice (splice l off bs) off (zlen bs) = bs.
Proof.
  intros H0 Hl. pose proof (zlen_nonneg bs).
  assert (zlen (slice (splice l off bs) off (zlen bs)) = zlen bs) as Hz
    by (apply zlen_slice; rewrite ?zlen_splice; lia).
  apply byte_eq; [done|]. intros i Hi. rewrite Hz in Hi. rewrite byte_slice by lia.
  rewrite byte_splice by lia.
  rewrite (proj2 (Z.leb_le off _)), (proj2 (Z.ltb_lt _ _)) by lia. simpl. f_equal. lia.
Qed.
Lemma slice_splice_other (l bs : list Z) off a n :
  0 ≤ off → off + zlen bs ≤ zlen l → 0 ≤ a → 0 ≤ n → a + n ≤ zlen l →
  a + n ≤ off ∨ off + zlen bs ≤ a → slice (splice l off bs) a n = slice l a n.
Proof.
  intros H0 Hl Ha Hn Han Hd. pose proof (zlen_nonneg bs).
  assert (zlen (slice (splice l off bs) a n) = n) as Hz
    by (apply zlen_slice; rewrite ?zlen_splice; lia).
  apply byte_eq; [rewrite Hz, zlen_slice; lia|]. intros i Hi. rewrite Hz in Hi.
  rewrite !byte_slice, byte_splice by lia.
  destruct (Z.leb_spec off (a + i)), (Z.ltb_spec (a + i) (off + zlen bs)); simpl; try done; lia.
Qed.
Lemma slice_slice {A} (l : list A) a n b m :
  0 ≤ a → 0 ≤ b → 0 ≤ m → b + m ≤ n → slice (slice l a n) b m = slice l (a + b) m.
Proof.
  intros. unfold slice. replace (Z.to_nat n) with (Z.to_nat b + Z.to_nat (n - b))%nat by lia.
  rewrite <- take_drop_commute, drop_drop, take_take.
  rewrite Nat.min_l by lia. do 2 f_equal; lia.
Qed.
Lemma slice_replicate (c n : Z) : 0 ≤ n → slice (replicate (Z.to_nat n) c) 0 n = replicate (Z.to_nat n) c.
Proof. intros. unfold slice. rewrite drop_0, take_ge; [done|]. rewrite length_replicate. lia. Qed.
Lemma splice_nil {A} (l : list A) off : 0 ≤ off → splice l off [] = l.
Proof.
  intros. unfold splice. rewrite zlen_nil, Z.add_0_r. simpl. apply take_drop.
Qed.
Lemma slice_split (l : list Z) a n k :
  0 ≤ a → 0 ≤ k ≤ n → a + n ≤ zlen l → slice l a n = slice l a k ++ slice l (a + k) (n - k).
Proof.
  intros. apply byte_eq; [rewrite zlen_app, !zlen_slice; lia|]. rewrite zlen_slice by lia.
  intros i Hi. rewrite byte_app, zlen_slice by lia. destruct (Z.ltb_spec i k);
    rewrite !byte_slice by lia; [done|f_equal; lia].
Qed.
Lemma splice_splice_app (m xs ys : list Z) a :
  0 ≤ a → a + zlen xs + zlen ys ≤ zlen m →
  splice (splice m a xs) (a + zlen xs) ys = splice m a (xs ++ ys).
Proof.
  intros. pose proof (zlen_nonneg xs). pose proof (zlen_nonneg ys).
  apply byte_eq; [rewrite !zlen_splice; rewrite ?zlen_splice, ?zlen_app; lia|].
  rewrite zlen_splice by (rewrite ?zlen_splice; lia). rewrite zlen_splice by lia. intros i Hi.
  rewrite !byte_splice by (rewrite ?zlen_splice, ?zlen_app; lia). rewrite zlen_app.
  destruct (Z.leb_spec a i); simpl.
  - destruct (Z.ltb_spec i (a + (zlen xs + zlen ys))).
    + rewrite byte_app by lia. destruct (Z.ltb_spec (i - a) (zlen xs)).
      * rewrite (proj2 (Z.leb_gt (a + zlen xs) i)) by lia. simpl.
        by rewrite (proj2 (Z.ltb_lt i (a + zlen xs))) by lia.
      * rewrite (proj2 (Z.leb_le (a + zlen xs) i)), (proj2 (Z.ltb_lt i (a + zlen xs + zlen ys))) by lia.
        simpl. f_equal. lia.
    + rewrite (proj2 (Z.ltb_ge i (a + zlen xs + zlen ys))), (proj2 (Z.ltb_ge i (a + zlen xs))) by lia.
      by rewrite andb_false_r.
  - rewrite (proj2 (Z.leb_gt (a + zlen xs) i)) by lia. done.
Qed.
Lemma zlen_replicate {A} n (x : A) : 0 ≤ n → zlen (replicate (Z.to_nat n) x) = n.
Proof. intros. unfold zlen. rewrite length_replicate. lia. Qed.
Lemma zlen_rev {A} (l : list A) : zlen (rev l) = zlen l.
Proof. unfold zlen. by rewrite length_rev. Qed.
