(* ===== verification/Ringbuffer.v ===== *)
(** * The ring buffer of the device drivers ([components/drivers/src/ringbuffer.c]) *)

From Stdlib Require Import ZArith Lia.
From stdpp Require Import base list list_numbers.
From S2P Require Import RTThread.
From S2P Require Import Prelude.
From S2P Require Import Bytes.

(** ** Data *)

(** [buffer_ptr] is the content of the memory the pointer designates; the
    mirrors are one-bit fields, the indices fifteen-bit fields. *)
Record rt_ringbuffer : Set := mk_ringbuffer {
  rb_buffer_ptr : list Z;
  rb_read_mirror : Z;
  rb_read_index : Z;
  rb_write_mirror : Z;
  rb_write_index : Z;
  rb_buffer_size : Z }.

Inductive rt_ringbuffer_state : Set :=
  | RT_RINGBUFFER_EMPTY
  | RT_RINGBUFFER_FULL
  | RT_RINGBUFFER_HALFFULL.
#[global] Instance rt_ringbuffer_state_eq_dec : EqDecision rt_ringbuffer_state.
Proof. solve_decision. Defined.

(** Stores into the bit fields. *)
Definition bit1 (x : Z) : Z := x mod 2.
Definition bits15 (x : Z) : Z := x mod 2 ^ 15.

Notation RB := (ST rt_ringbuffer) (only parsing).

Definition set_buffer (b : list Z) : RB unit := modify (λ rb,
  mk_ringbuffer b (rb_read_mirror rb) (rb_read_index rb)
    (rb_write_mirror rb) (rb_write_index rb) (rb_buffer_size rb)).
Definition set_read_mirror (x : Z) : RB unit := modify (λ rb,
  mk_ringbuffer (rb_buffer_ptr rb) (bit1 x) (rb_read_index rb)
    (rb_write_mirror rb) (rb_write_index rb) (rb_buffer_size rb)).
Definition set_read_index (x : Z) : RB unit := modify (λ rb,
  mk_ringbuffer (rb_buffer_ptr rb) (rb_read_mirror rb) (bits15 x)
    (rb_write_mirror rb) (rb_write_index rb) (rb_buffer_size rb)).
Definition set_write_mirror (x : Z) : RB unit := modify (λ rb,
  mk_ringbuffer (rb_buffer_ptr rb) (rb_read_mirror rb) (rb_read_index rb)
    (bit1 x) (rb_write_index rb) (rb_buffer_size rb)).
Definition set_write_index (x : Z) : RB unit := modify (λ rb,
  mk_ringbuffer (rb_buffer_ptr rb) (rb_read_mirror rb) (rb_read_index rb)
    (rb_write_mirror rb) (bits15 x) (rb_buffer_size rb)).

(** ** Operations *)

Definition rt_ringbuffer_status (rb : rt_ringbuffer) : rt_ringbuffer_state :=
  if rb_read_index rb =? rb_write_index rb then
    if rb_read_mirror rb =? rb_write_mirror rb then RT_RINGBUFFER_EMPTY
    else RT_RINGBUFFER_FULL
  else RT_RINGBUFFER_HALFFULL.

Definition rt_ringbuffer_init (pool : list Z) (size : Z) : RB unit :=
  rt_assert (0 <? size);;
  set_read_index 0;; set_read_mirror 0;;
  set_write_index 0;; set_write_mirror 0;;
  modify (λ rb, mk_ringbuffer pool (rb_read_mirror rb) (rb_read_index rb)
    (rb_write_mirror rb) (rb_write_index rb) (s16 (RT_ALIGN_DOWN size RT_ALIGN_SIZE))).

Definition rt_ringbuffer_data_len (rb : rt_ringbuffer) : Z :=
  match rt_ringbuffer_status rb with
  | RT_RINGBUFFER_EMPTY => 0
  | RT_RINGBUFFER_FULL => u32 (rb_buffer_size rb)
  | RT_RINGBUFFER_HALFFULL =>
      if rb_read_index rb <? rb_write_index rb then
        u32 (rb_write_index rb - rb_read_index rb)
      else u32 (rb_buffer_size rb - (rb_read_index rb - rb_write_index rb))
  end.

Definition rt_ringbuffer_space_len (rb : rt_ringbuffer) : Z :=
  u32 (rb_buffer_size rb - rt_ringbuffer_data_len rb).

Definition rt_ringbuffer_get_size (rb : rt_ringbuffer) : Z := u16 (rb_buffer_size rb).

(** The block copied at the write index, in one piece or over the end; the
    index of [rt_ringbuffer_put] and [rt_ringbuffer_put_force] after it. *)
Definition rt_ringbuffer_put (ptr : list Z) (length : Z) : RB Z :=
  rb ← get;
  let size := u16 (rt_ringbuffer_space_len rb) in
  if size =? 0 then mret 0
  else
    let length := if size <? length then size else length in
    if length <? rb_buffer_size rb - rb_write_index rb then
      b ← memcpy (rb_buffer_ptr rb) (rb_write_index rb) ptr 0 length;
      set_buffer b;;
      set_write_index (rb_write_index rb + length);;
      mret length
    else
      b ← memcpy (rb_buffer_ptr rb) (rb_write_index rb) ptr 0
            (rb_buffer_size rb - rb_write_index rb);
      b ← memcpy b 0 ptr (rb_buffer_size rb - rb_write_index rb)
            (length - (rb_buffer_size rb - rb_write_index rb));
      set_buffer b;;
      set_write_mirror (Z.lnot (rb_write_mirror rb));;
      set_write_index (length - (rb_buffer_size rb - rb_write_index rb));;
      mret length.

Definition rt_ringbuffer_put_force (ptr : list Z) (length : Z) : RB Z :=
  rb ← get;
  let space_length := u16 (rt_ringbuffer_space_len rb) in
  let over := rb_buffer_size rb <? length in
  let ptr := if over then drop (Z.to_nat (length - rb_buffer_size rb)) ptr else ptr in
  let length := if over then u16 (rb_buffer_size rb) else length in
  if length <? rb_buffer_size rb - rb_write_index rb then
    b ← memcpy (rb_buffer_ptr rb) (rb_write_index rb) ptr 0 length;
    set_buffer b;;
    set_write_index (rb_write_index rb + length);;
    rb' ← get;
    when (space_length <? length) (set_read_index (rb_write_index rb'));;
    mret length
  else
    b ← memcpy (rb_buffer_ptr rb) (rb_write_index rb) ptr 0
          (rb_buffer_size rb - rb_write_index rb);
    b ← memcpy b 0 ptr (rb_buffer_size rb - rb_write_index rb)
          (length - (rb_buffer_size rb - rb_write_index rb));
    set_buffer b;;
    set_write_mirror (Z.lnot (rb_write_mirror rb));;
    set_write_index (length - (rb_buffer_size rb - rb_write_index rb));;
    rb' ← get;
    when (space_length <? length)
      (set_read_mirror (Z.lnot (rb_read_mirror rb'));;
       set_read_index (rb_write_index rb'));;
    mret length.

(** [ptr] is the caller's buffer; its new content is returned with the length. *)
Definition rt_ringbuffer_get (ptr : list Z) (length : Z) : RB (Z * list Z) :=
  rb ← get;
  let size := rt_ringbuffer_data_len rb in
  if size =? 0 then mret (0, ptr)
  else
    let length := if size <? length then u16 size else length in
    if length <? rb_buffer_size rb - rb_read_index rb then
      p ← memcpy ptr 0 (rb_buffer_ptr rb) (rb_read_index rb) length;
      set_read_index (rb_read_index rb + length);;
      mret (length, p)
    else
      p ← memcpy ptr 0 (rb_buffer_ptr rb) (rb_read_index rb)
            (rb_buffer_size rb - rb_read_index rb);
      p ← memcpy p (rb_buffer_size rb - rb_read_index rb) (rb_buffer_ptr rb) 0
            (length - (rb_buffer_size rb - rb_read_index rb));
      set_read_mirror (Z.lnot (rb_read_mirror rb));;
      set_read_index (length - (rb_buffer_size rb - rb_read_index rb));;
      mret (length, p).

(** The pointer is returned as an offset into the buffer, [None] for null. *)
Definition rt_ringbuffer_peak : RB (Z * option Z) :=
  rb ← get;
  let size := rt_ringbuffer_data_len rb in
  if size =? 0 then mret (0, None)
  else
    let ptr := Some (rb_read_index rb) in
    if size <? u32 (rb_buffer_size rb - rb_read_index rb) then
      set_read_index (rb_read_index rb + size);;
      mret (size, ptr)
    else
      let size := u32 (rb_buffer_size rb - rb_read_index rb) in
      set_read_mirror (Z.lnot (rb_read_mirror rb));;
      set_read_index 0;;
      mret (size, ptr).

(** [rb->buffer_ptr[i] = ch] and the read of [rb->buffer_ptr[i]]. *)
Definition store_char (i ch : Z) : RB unit :=
  rb ← get;
  b ← from_option_or FBounds (wr (rb_buffer_ptr rb) i [ch]);
  set_buffer b.
Definition load_char (i : Z) : RB Z :=
  rb ← get;
  bs ← from_option_or FBounds (rd (rb_buffer_ptr rb) i 1);
  mret (byte bs 0).

Definition rt_ringbuffer_putchar (ch : Z) : RB Z :=
  rb ← get;
  if rt_ringbuffer_space_len rb =? 0 then mret 0
  else
    store_char (rb_write_index rb) ch;;
    (if rb_write_index rb =? rb_buffer_size rb - 1 then
       set_write_mirror (Z.lnot (rb_write_mirror rb));;
       set_write_index 0
     else set_write_index (rb_write_index rb + 1));;
    mret 1.

Definition rt_ringbuffer_putchar_force (ch : Z) : RB Z :=
  rb ← get;
  let old_state := rt_ringbuffer_status rb in
  store_char (rb_write_index rb) ch;;
  (if rb_write_index rb =? rb_buffer_size rb - 1 then
     set_write_mirror (Z.lnot (rb_write_mirror rb));;
     set_write_index 0;;
     rb' ← get;
     when (bool_decide (old_state = RT_RINGBUFFER_FULL))
       (set_read_mirror (Z.lnot (rb_read_mirror rb'));;
        set_read_index (rb_write_index rb'))
   else
     set_write_index (rb_write_index rb + 1);;
     rb' ← get;
     when (bool_decide (old_state = RT_RINGBUFFER_FULL))
       (set_read_index (rb_write_index rb')));;
  mret 1.

(** [None] when nothing is stored at [ch]. *)
Definition rt_ringbuffer_getchar : RB (Z * option Z) :=
  rb ← get;
  if rt_ringbuffer_data_len rb =? 0 then mret (0, None)
  else
    ch ← load_char (rb_read_index rb);
    (if rb_read_index rb =? rb_buffer_size rb - 1 then
       set_read_mirror (Z.lnot (rb_read_mirror rb));;
       set_read_index 0
     else set_read_index (rb_read_index rb + 1));;
    mret (1, Some ch).

Definition rt_ringbuffer_reset : RB unit :=
  set_read_mirror 0;; set_read_index 0;;
  set_write_mirror 0;; set_write_index 0.

(** ** The queue a ring buffer represents *)

(** An index that has moved by less than the size, on the ring. *)
Definition wrap (n x : Z) : Z := if x <? n then x else x - n.

(** The number of stored bytes, by the side of the mirror each index is on. *)
Definition rb_len (rb : rt_ringbuffer) : Z :=
  if rb_read_mirror rb =? rb_write_mirror rb then rb_write_index rb - rb_read_index rb
  else rb_buffer_size rb - (rb_read_index rb - rb_write_index rb).
Definition rb_space (rb : rt_ringbuffer) : Z := rb_buffer_size rb - rb_len rb.

(** The stored bytes, oldest first. *)
Definition rb_contents (rb : rt_ringbuffer) : list Z :=
  (λ k, byte (rb_buffer_ptr rb) (wrap (rb_buffer_size rb) (rb_read_index rb + k)))
    <$> seqZ 0 (rb_len rb).

Record rb_ok (rb : rt_ringbuffer) : Prop := {
  rbo_size : 0 < rb_buffer_size rb < 2 ^ 15;
  rbo_buffer : rb_buffer_size rb ≤ zlen (rb_buffer_ptr rb);
  rbo_read : 0 ≤ rb_read_index rb < rb_buffer_size rb;
  rbo_write : 0 ≤ rb_write_index rb < rb_buffer_size rb;
  rbo_rm : rb_read_mirror rb = 0 ∨ rb_read_mirror rb = 1;
  rbo_wm : rb_write_mirror rb = 0 ∨ rb_write_mirror rb = 1;
  rbo_order :
    (rb_read_mirror rb = rb_write_mirror rb ∧ rb_read_index rb ≤ rb_write_index rb) ∨
    (rb_read_mirror rb ≠ rb_write_mirror rb ∧ rb_write_index rb ≤ rb_read_index rb) }.

(** An index of mirror [m] and offset [i] moved by [n] on a ring of [size]. *)
Definition adv_mirror (size m i n : Z) : Z := if n <? size - i then m else 1 - m.
Definition adv_index (size i n : Z) : Z := if n <? size - i then i + n else n - (size - i).

Definition put_buffer (rb : rt_ringbuffer) (data : list Z) (n : Z) : list Z :=
  let b := rb_buffer_ptr rb in let w := rb_write_index rb in let size := rb_buffer_size rb in
  if n <? size - w then splice b w (slice data 0 n)
  else splice (splice b w (slice data 0 (size - w))) 0 (slice data (size - w) (n - (size - w))).

Definition rb_written (rb : rt_ringbuffer) (data : list Z) (n : Z) : rt_ringbuffer :=
  mk_ringbuffer (put_buffer rb data n) (rb_read_mirror rb) (rb_read_index rb)
    (adv_mirror (rb_buffer_size rb) (rb_write_mirror rb) (rb_write_index rb) n)
    (adv_index (rb_buffer_size rb) (rb_write_index rb) n) (rb_buffer_size rb).
Definition rb_consumed (rb : rt_ringbuffer) (n : Z) : rt_ringbuffer :=
  mk_ringbuffer (rb_buffer_ptr rb)
    (adv_mirror (rb_buffer_size rb) (rb_read_mirror rb) (rb_read_index rb) n)
    (adv_index (rb_buffer_size rb) (rb_read_index rb) n)
    (rb_write_mirror rb) (rb_write_index rb) (rb_buffer_size rb).

(** Splits every comparison in the goal and the hypotheses, keeping the facts. *)
Ltac zcases :=
  repeat match goal with
  | |- context [?a <? ?b] => destruct (Z.ltb_spec a b)
  | |- context [?a <=? ?b] => destruct (Z.leb_spec a b)
  | |- context [?a =? ?b] => destruct (Z.eqb_spec a b)
  | H : context [?a <? ?b] |- _ => destruct (Z.ltb_spec a b)
  | H : context [?a <=? ?b] |- _ => destruct (Z.leb_spec a b)
  | H : context [?a =? ?b] |- _ => destruct (Z.eqb_spec a b)
  end.

Section ringbuffer.
Context (rb : rt_ringbuffer) (Hok : rb_ok rb).

Lemma rb_len_bounds : 0 ≤ rb_len rb ≤ rb_buffer_size rb.
Proof. destruct Hok. unfold rb_len. zcases; lia. Qed.

Lemma rt_ringbuffer_data_len_eq : rt_ringbuffer_data_len rb = rb_len rb.
Proof.
  destruct Hok. unfold rt_ringbuffer_data_len, rt_ringbuffer_status, rb_len, u32.
  zcases; rewrite ?Z.mod_small by lia; lia.
Qed.

Lemma rt_ringbuffer_space_len_eq : rt_ringbuffer_space_len rb = rb_space rb.
Proof.
  pose proof rb_len_bounds. destruct Hok. unfold rt_ringbuffer_space_len, rb_space.
  rewrite rt_ringbuffer_data_len_eq. unfold u32. rewrite Z.mod_small; lia.
Qed.

Lemma rb_contents_len : zlen (rb_contents rb) = rb_len rb.
Proof. pose proof rb_len_bounds. unfold rb_contents. rewrite zlen_map_seqZ; lia. Qed.

Lemma rb_contents_byte k : 0 ≤ k < rb_len rb →
  byte (rb_contents rb) k =
    byte (rb_buffer_ptr rb) (wrap (rb_buffer_size rb) (rb_read_index rb + k)).
Proof. intros. unfold rb_contents. by rewrite byte_map_seqZ. Qed.

(** The buffer after a copy of [n] bytes at the write index. *)
Lemma zlen_put_buffer data n : 0 ≤ n ≤ rb_buffer_size rb → n ≤ zlen data →
  zlen (put_buffer rb data n) = zlen (rb_buffer_ptr rb).
Proof.
  intros. destruct Hok. unfold put_buffer. zcases.
  - rewrite zlen_splice; rewrite ?zlen_slice; lia.
  - rewrite !zlen_splice; rewrite ?zlen_splice; rewrite ?zlen_slice; lia.
Qed.

Lemma byte_put_buffer data n i :
  0 ≤ n ≤ rb_buffer_size rb → n ≤ zlen data → 0 ≤ i < rb_buffer_size rb →
  let j := if i <? rb_write_index rb then i - rb_write_index rb + rb_buffer_size rb
           else i - rb_write_index rb in
  byte (put_buffer rb data n) i = if j <? n then byte data j else byte (rb_buffer_ptr rb) i.
Proof.
  intros Hn Hd Hi j. destruct Hok. unfold put_buffer.
  destruct (Z.ltb_spec n (rb_buffer_size rb - rb_write_index rb)).
  - rewrite byte_splice by (rewrite ?zlen_slice; lia). rewrite zlen_slice by lia.
    subst j. zcases; simpl; try lia; try done. by rewrite byte_slice by lia.
  - rewrite byte_splice by (rewrite ?zlen_splice; rewrite ?zlen_slice; lia).
    rewrite zlen_slice by lia. rewrite byte_splice by (rewrite ?zlen_slice; lia).
    rewrite zlen_slice by lia.
    subst j. zcases; simpl; try lia; try done; rewrite byte_slice by lia; f_equal; lia.
Qed.

(** ** Moving the two ends *)

Lemma rb_written_ok data n :
  0 ≤ n ≤ rb_space rb → n ≤ zlen data → rb_ok (rb_written rb data n).
Proof.
  intros Hn Hd. pose proof rb_len_bounds.
  assert (zlen (put_buffer rb data n) = zlen (rb_buffer_ptr rb)) as Hz
    by (apply zlen_put_buffer; unfold rb_space in *; lia).
  unfold rb_space, rb_len in *. destruct Hok.
  constructor; simpl; unfold adv_mirror, adv_index; rewrite ?Hz; zcases; lia.
Qed.

Lemma rb_written_len data n :
  0 ≤ n ≤ rb_space rb → rb_len (rb_written rb data n) = rb_len rb + n.
Proof.
  unfold rb_space, rb_len. destruct Hok. simpl. unfold adv_mirror, adv_index. intros. zcases; lia.
Qed.

Lemma rb_consumed_ok n : 0 ≤ n ≤ rb_len rb → rb_ok (rb_consumed rb n).
Proof.
  intros Hn. unfold rb_len in *. destruct Hok.
  constructor; simpl; unfold adv_mirror, adv_index; zcases; lia.
Qed.

Lemma rb_consumed_len n : 0 ≤ n ≤ rb_len rb → rb_len (rb_consumed rb n) = rb_len rb - n.
Proof.
  unfold rb_len. destruct Hok. simpl. unfold adv_mirror, adv_index. intros. zcases; lia.
Qed.
End ringbuffer.

(** Appending and removing are what they should be on the represented queue. *)
Lemma rb_written_contents rb data n :
  rb_ok rb → 0 ≤ n ≤ rb_space rb → n ≤ zlen data →
  rb_contents (rb_written rb data n) = rb_contents rb ++ take (Z.to_nat n) data.
Proof.
  intros Hok Hn Hd. pose proof (rb_len_bounds rb Hok). pose proof (rb_written_len rb Hok data n Hn) as Hl.
  pose proof (rb_written_ok rb Hok data n Hn Hd) as Hok'.
  apply byte_eq; rewrite rb_contents_len, Hl by done.
  { rewrite zlen_app, rb_contents_len, zlen_take by (done || lia). done. }
  intros i Hi. rewrite rb_contents_byte, byte_app, rb_contents_len by (done || lia).
  simpl. destruct (Z.ltb_spec i (rb_len rb)).
  - rewrite rb_contents_byte by (done || lia). unfold rb_space, rb_len in *. destruct Hok.
    rewrite byte_put_buffer by (done || (unfold wrap; zcases; lia)).
    unfold wrap. zcases; try lia; done.
  - rewrite byte_take by lia. unfold rb_space, rb_len in *. destruct Hok.
    rewrite byte_put_buffer by (done || (unfold wrap; zcases; lia)).
    unfold wrap. zcases; try lia; f_equal; lia.
Qed.

Lemma rb_consumed_contents rb n :
  rb_ok rb → 0 ≤ n ≤ rb_len rb →
  rb_contents (rb_consumed rb n) = drop (Z.to_nat n) (rb_contents rb).
Proof.
  intros Hok Hn. pose proof (rb_consumed_ok rb Hok n Hn) as Hok'.
  pose proof (rb_consumed_len rb Hok n Hn) as Hl.
  apply byte_eq; rewrite rb_contents_len, Hl by done.
  { rewrite zlen_drop, rb_contents_len by (rewrite ?rb_contents_len; done || lia). done. }
  intros i Hi. rewrite rb_contents_byte, byte_drop, rb_contents_byte by (done || lia).
  simpl. f_equal. unfold rb_len, adv_index, wrap in *. destruct Hok. zcases; lia.
Qed.

(** ** The operations compute these moves *)

Lemma bit1_lnot m : m = 0 ∨ m = 1 → bit1 (Z.lnot m) = 1 - m.
Proof. by intros [-> | ->]. Qed.
Lemma bits15_small x : 0 ≤ x < 2 ^ 15 → bits15 x = x.
Proof. apply Z.mod_small. Qed.

Lemma rb_written_0 rb data : rb_ok rb → rb_written rb data 0 = rb.
Proof.
  intros [? _ _ ? _ _ _]. unfold rb_written, put_buffer, adv_mirror, adv_index.
  rewrite (proj2 (Z.ltb_lt 0 _)) by lia. change (slice data 0 0) with (@nil Z).
  rewrite splice_nil, Z.add_0_r by lia. by destruct rb.
Qed.

(** One step of an operation: a copy, or an assignment. *)
Ltac rbcopy := erewrite bind_ok by (apply memcpy_ok; rewrite ?zlen_splice, ?zlen_slice; rewrite ?zlen_slice; lia).
Ltac rbsimpl := unfold set_buffer, set_write_mirror, set_write_index, set_read_mirror,
  set_read_index, modify, mbind, ST_bind, mret, ST_ret, when, get; simpl.

Lemma rt_ringbuffer_put_ok rb data length :
  rb_ok rb → 0 ≤ length < 2 ^ 16 → length ≤ zlen data →
  rt_ringbuffer_put data length rb =
    Ok (rb_written rb data (Z.min length (rb_space rb))) (Z.min length (rb_space rb)).
Proof.
  intros Hok Hl Hd. pose proof (rb_len_bounds rb Hok). pose proof (rbo_size _ Hok).
  assert (0 ≤ rb_space rb < 2 ^ 15) by (unfold rb_space; lia).
  unfold rt_ringbuffer_put. erewrite bind_ok by reflexivity; cbv beta zeta.
  rewrite rt_ringbuffer_space_len_eq, u16_small by (done || lia).
  destruct (Z.eqb_spec (rb_space rb) 0) as [E|Hne].
  { rewrite E, Z.min_r by lia. by rewrite rb_written_0. }
  assert ((if rb_space rb <? length then rb_space rb else length) = Z.min length (rb_space rb))
    as -> by (zcases; lia).
  set (n := Z.min length (rb_space rb)). assert (0 ≤ n ≤ rb_space rb ∧ n ≤ length) by lia.
  pose proof Hok as [? ? ? ? ? ? ?].
  unfold rb_written, put_buffer, adv_mirror, adv_index. clearbody n.
  destruct (Z.ltb_spec n (rb_buffer_size rb - rb_write_index rb)).
  - rbcopy. rbsimpl. by rewrite bits15_small by lia.
  - assert (n ≤ rb_buffer_size rb) by (unfold rb_space in *; lia).
    rbcopy. rbcopy. rbsimpl. by rewrite bits15_small, bit1_lnot by lia.
Qed.

(** The destination after a copy of the [n] oldest bytes to its start. *)
Definition received (rb : rt_ringbuffer) (dst : list Z) (n : Z) : list Z :=
  take (Z.to_nat n) (rb_contents rb) ++ drop (Z.to_nat n) dst.

Lemma received_one rb dst n :
  rb_ok rb → 0 ≤ n ≤ rb_len rb → n ≤ zlen dst → n < rb_buffer_size rb - rb_read_index rb →
  splice dst 0 (slice (rb_buffer_ptr rb) (rb_read_index rb) n) = received rb dst n.
Proof.
  intros Hok Hn Hd Hr. unfold received. pose proof Hok as [? ? ? ? _ _ _].
  pose proof (rb_contents_len rb Hok) as Hc.
  apply byte_eq; rewrite zlen_splice by (rewrite ?zlen_slice; lia).
  { rewrite zlen_app, zlen_take, zlen_drop; lia. }
  intros i Hi. rewrite byte_splice, byte_app by (rewrite ?zlen_slice; lia).
  rewrite zlen_slice, zlen_take by lia.
  destruct (Z.ltb_spec i n); zcases; simpl; try lia.
  - rewrite byte_slice, byte_take, rb_contents_byte by (done || lia).
    f_equal. unfold wrap. zcases; lia.
  - rewrite byte_drop by lia. f_equal. lia.
Qed.

Lemma received_two rb dst n :
  rb_ok rb → 0 ≤ n ≤ rb_len rb → n ≤ zlen dst → rb_buffer_size rb - rb_read_index rb ≤ n →
  splice (splice dst 0 (slice (rb_buffer_ptr rb) (rb_read_index rb)
                          (rb_buffer_size rb - rb_read_index rb)))
    (rb_buffer_size rb - rb_read_index rb)
    (slice (rb_buffer_ptr rb) 0 (n - (rb_buffer_size rb - rb_read_index rb)))
  = received rb dst n.
Proof.
  intros Hok Hn Hd Hr. unfold received. pose proof Hok as [? ? ? ? _ _ _].
  pose proof (rb_contents_len rb Hok) as Hc. pose proof (rb_len_bounds rb Hok).
  apply byte_eq; rewrite !zlen_splice by (rewrite ?zlen_splice; rewrite ?zlen_slice; lia).
  { rewrite zlen_app, zlen_take, zlen_drop; lia. }
  intros i Hi. rewrite byte_splice, byte_app by (rewrite ?zlen_splice; rewrite ?zlen_slice; lia).
  rewrite zlen_slice, zlen_take by lia. rewrite byte_splice, zlen_slice by (rewrite ?zlen_slice; lia).
  destruct (Z.ltb_spec i n).
  - rewrite byte_take, rb_contents_byte by (done || lia).
    zcases; simpl; try lia; rewrite byte_slice by lia; f_equal; unfold wrap; zcases; lia.
  - rewrite byte_drop by lia. zcases; simpl; try lia. f_equal. lia.
Qed.

Lemma rb_consumed_0 rb : rb_ok rb → rb_consumed rb 0 = rb.
Proof.
  intros [? _ ? _ _ _ _]. unfold rb_consumed, adv_mirror, adv_index.
  rewrite (proj2 (Z.ltb_lt 0 _)) by lia. rewrite Z.add_0_r. by destruct rb.
Qed.

Lemma rt_ringbuffer_get_ok rb dst length :
  rb_ok rb → 0 ≤ length < 2 ^ 16 → length ≤ zlen dst →
  let n := Z.min length (rb_len rb) in
  rt_ringbuffer_get dst length rb = Ok (rb_consumed rb n) (n, received rb dst n).
Proof.
  intros Hok Hl Hd n. pose proof (rb_len_bounds rb Hok). pose proof (rbo_size _ Hok).
  unfold rt_ringbuffer_get. erewrite bind_ok by reflexivity; cbv beta zeta.
  rewrite rt_ringbuffer_data_len_eq by done.
  destruct (Z.eqb_spec (rb_len rb) 0) as [E|Hne].
  { subst n. rewrite E, Z.min_r by lia. by rewrite rb_consumed_0. }
  assert ((if rb_len rb <? length then u16 (rb_len rb) else length) = n) as ->.
  { subst n. rewrite u16_small by lia. zcases; lia. }
  assert (0 ≤ n ≤ rb_len rb ∧ n ≤ length) by lia. clearbody n.
  pose proof Hok as [? ? ? ? ? ? ?].
  unfold rb_consumed, adv_mirror, adv_index.
  destruct (Z.ltb_spec n (rb_buffer_size rb - rb_read_index rb)).
  - rbcopy. rbsimpl. rewrite bits15_small by lia. by rewrite received_one by (done || lia).
  - rbcopy. rbcopy. rbsimpl. rewrite bits15_small, bit1_lnot by lia.
    by rewrite received_two by (done || lia).
Qed.

(** One character is a block of length one. *)
Lemma rt_ringbuffer_putchar_ok rb ch :
  rb_ok rb →
  rt_ringbuffer_putchar ch rb =
    Ok (rb_written rb [ch] (Z.min 1 (rb_space rb))) (Z.min 1 (rb_space rb)).
Proof.
  intros Hok. pose proof (rb_len_bounds rb Hok). pose proof Hok as [? ? ? ? ? ? ?].
  unfold rt_ringbuffer_putchar. erewrite bind_ok by reflexivity; cbv beta zeta.
  rewrite rt_ringbuffer_space_len_eq by done.
  destruct (Z.eqb_spec (rb_space rb) 0) as [E|Hne].
  { rewrite E, Z.min_r by lia. by rewrite rb_written_0. }
  rewrite Z.min_l by (unfold rb_space in *; lia).
  unfold store_char. rbsimpl. rewrite wr_ok by (rewrite ?zlen_cons, ?zlen_nil; lia). simpl.
  unfold rb_written, put_buffer, adv_mirror, adv_index.
  destruct (Z.eqb_spec (rb_write_index rb) (rb_buffer_size rb - 1)) as [E|]; simpl.
  - rewrite (proj2 (Z.ltb_ge 1 _)) by lia. rewrite bit1_lnot by lia.
    replace (rb_buffer_size rb - rb_write_index rb) with 1 by lia.
    change (slice [ch] 1 (1 - 1)) with (@nil Z). by rewrite (splice_nil _ 0) by lia.
  - rewrite (proj2 (Z.ltb_lt 1 _)) by lia. rewrite bits15_small by lia. done.
Qed.

Lemma rt_ringbuffer_getchar_ok rb :
  rb_ok rb →
  rt_ringbuffer_getchar rb =
    Ok (rb_consumed rb (Z.min 1 (rb_len rb))) (Z.min 1 (rb_len rb), head (rb_contents rb)).
Proof.
  intros Hok. pose proof (rb_len_bounds rb Hok). pose proof Hok as [? ? ? ? ? ? ?].
  pose proof (rb_contents_len rb Hok) as Hc.
  unfold rt_ringbuffer_getchar. erewrite bind_ok by reflexivity; cbv beta zeta.
  rewrite rt_ringbuffer_data_len_eq by done.
  destruct (Z.eqb_spec (rb_len rb) 0) as [E|Hne].
  { rewrite E, Z.min_r by lia. rewrite rb_consumed_0 by done.
    destruct (rb_contents rb); [done|]. rewrite zlen_cons in Hc.
    pose proof (zlen_nonneg l). lia. }
  rewrite Z.min_l by lia.
  unfold load_char. rbsimpl. rewrite rd_ok by lia. simpl.
  assert (Some (byte (slice (rb_buffer_ptr rb) (rb_read_index rb) 1) 0) = head (rb_contents rb)) as ->.
  { pose proof (rb_contents_byte rb 0) as Hb. rewrite byte_slice by lia.
    destruct (rb_contents rb) as [|c l]; [rewrite zlen_nil in Hc; lia|]. simpl. f_equal.
    change (byte (c :: l) 0) with c in *. rewrite Hb by lia. f_equal. unfold wrap. zcases; lia. }
  unfold rb_consumed, adv_mirror, adv_index.
  destruct (Z.eqb_spec (rb_read_index rb) (rb_buffer_size rb - 1)) as [E|]; simpl.
  - rewrite (proj2 (Z.ltb_ge 1 _)) by lia. rewrite bit1_lnot by lia.
    rewrite (bits15_small 0) by lia. do 2 f_equal. lia.
  - rewrite (proj2 (Z.ltb_lt 1 _)) by lia. rewrite bits15_small by lia. done.
Qed.

(** [rt_ringbuffer_peak] gives the stored bytes up to the end of the memory
    block, in place, and consumes them. *)
Lemma rt_ringbuffer_peak_ok rb :
  rb_ok rb →
  let n := Z.min (rb_len rb) (rb_buffer_size rb - rb_read_index rb) in
  rt_ringbuffer_peak rb =
    Ok (rb_consumed rb n)
      (n, if rb_len rb =? 0 then None else Some (rb_read_index rb)) ∧
  take (Z.to_nat n) (rb_contents rb) = slice (rb_buffer_ptr rb) (rb_read_index rb) n.
Proof.
  intros Hok n. pose proof (rb_len_bounds rb Hok). pose proof Hok as [? ? ? ? ? ? ?].
  pose proof (rb_contents_len rb Hok) as Hc. split.
  - unfold rt_ringbuffer_peak. erewrite bind_ok by reflexivity; cbv beta zeta.
    rewrite rt_ringbuffer_data_len_eq by done.
    destruct (Z.eqb_spec (rb_len rb) 0) as [E|Hne].
    { subst n. rewrite E, Z.min_l by lia. by rewrite rb_consumed_0. }
    subst n. unfold rb_consumed, adv_mirror, adv_index, u32. rewrite !Z.mod_small by lia.
    zcases; try lia; rbsimpl.
    + rewrite bits15_small by lia. by rewrite Z.min_l by lia.
    + rewrite bit1_lnot by lia. rewrite Z.min_r, (bits15_small 0) by lia.
      do 2 f_equal. lia.
  - apply byte_eq; rewrite zlen_take by lia.
    { rewrite zlen_slice; lia. }
    intros i Hi. rewrite byte_take, byte_slice, rb_contents_byte by (done || lia).
    f_equal. unfold wrap. zcases; lia.
Qed.

(** ** The forced variants *)

(** [n] bytes written over the oldest ones: the buffer ends up full. *)
Definition rb_forced (rb : rt_ringbuffer) (data : list Z) (n : Z) : rt_ringbuffer :=
  let rb' := rb_written rb data n in
  mk_ringbuffer (rb_buffer_ptr rb') (1 - rb_write_mirror rb') (rb_write_index rb')
    (rb_write_mirror rb') (rb_write_index rb') (rb_buffer_size rb').

Lemma rb_forced_ok rb data n :
  rb_ok rb → rb_space rb < n ≤ rb_buffer_size rb → n ≤ zlen data → rb_ok (rb_forced rb data n).
Proof.
  intros Hok Hn Hd. pose proof (rb_len_bounds rb Hok).
  assert (zlen (put_buffer rb data n) = zlen (rb_buffer_ptr rb)) as Hz
    by (apply zlen_put_buffer; [done|unfold rb_space in *; lia|done]).
  unfold rb_space, rb_len in *. destruct Hok.
  constructor; simpl; unfold adv_mirror, adv_index; rewrite ?Hz; zcases; lia.
Qed.

Lemma rb_forced_len rb data n :
  rb_ok rb → rb_len (rb_forced rb data n) = rb_buffer_size rb.
Proof.
  intros Hok. destruct Hok. unfold rb_len. simpl. unfold adv_mirror. zcases; lia.
Qed.

(** The last [size] bytes of what was stored and what is put remain. *)
Lemma rb_forced_contents rb data n :
  rb_ok rb → rb_space rb < n ≤ rb_buffer_size rb → n ≤ zlen data →
  rb_contents (rb_forced rb data n) =
    drop (Z.to_nat (n - rb_space rb)) (rb_contents rb) ++ take (Z.to_nat n) data.
Proof.
  intros Hok Hn Hd. pose proof (rb_len_bounds rb Hok). pose proof (rb_contents_len rb Hok) as Hc.
  pose proof (rb_forced_len rb data n Hok) as Hl.
  pose proof (rb_forced_ok rb data n Hok Hn Hd) as Hok'.
  assert (rb_space rb = rb_buffer_size rb - rb_len rb) as Hs by done.
  apply byte_eq; rewrite rb_contents_len, Hl by done.
  { rewrite zlen_app, zlen_drop, zlen_take by lia. lia. }
  intros i Hi. rewrite rb_contents_byte, byte_app, zlen_drop by (done || lia).
  simpl. rewrite byte_put_buffer; [|done|lia|done|].
  2:{ destruct Hok. unfold wrap, adv_index. zcases; lia. }
  destruct (Z.ltb_spec i (zlen (rb_contents rb) - (n - rb_space rb))).
  - rewrite byte_drop, rb_contents_byte by (done || lia).
    rewrite Hc, Hs in *. unfold rb_len in *. destruct Hok.
    unfold wrap, adv_index. zcases; try lia; f_equal; lia.
  - rewrite byte_take by lia.
    rewrite Hc, Hs in *. unfold rb_len in *. destruct Hok.
    unfold wrap, adv_index. zcases; try lia; f_equal; lia.
Qed.

Lemma rt_ringbuffer_putchar_force_ok rb ch :
  rb_ok rb →
  rt_ringbuffer_putchar_force ch rb =
    Ok (if rb_space rb =? 0 then rb_forced rb [ch] 1 else rb_written rb [ch] 1) 1.
Proof.
  intros Hok. pose proof (rb_len_bounds rb Hok). pose proof Hok as [? ? ? ? ? ? ?].
  assert (bool_decide (rt_ringbuffer_status rb = RT_RINGBUFFER_FULL) = (rb_space rb =? 0)) as Hst.
  { unfold rt_ringbuffer_status, rb_space, rb_len in *. zcases; try lia; reflexivity. }
  unfold rt_ringbuffer_putchar_force. erewrite bind_ok by reflexivity; cbv beta zeta.
  rewrite Hst. unfold store_char. rbsimpl. rewrite wr_ok by (rewrite ?zlen_cons, ?zlen_nil; lia).
  assert (rb_space rb = 0 → rb_read_mirror rb = 1 - rb_write_mirror rb) as Hfull
    by (unfold rb_space, rb_len in *; zcases; lia).
  simpl. unfold rb_forced, rb_written, put_buffer, adv_mirror, adv_index. simpl. clear Hst.
  destruct (Z.eqb_spec (rb_write_index rb) (rb_buffer_size rb - 1)) as [E|Hne].
  - rewrite (proj2 (Z.ltb_ge 1 _)) by lia.
    replace (rb_buffer_size rb - rb_write_index rb) with 1 by lia.
    change (slice [ch] 1 (1 - 1)) with (@nil Z). rewrite (splice_nil _ 0) by lia.
    change (slice [ch] 0 1) with [ch].
    rewrite (bit1_lnot (rb_write_mirror rb)) by lia. rbsimpl.
    destruct (Z.eqb_spec (rb_space rb) 0) as [Hs|Hs]; simpl; [|done].
    rewrite (bit1_lnot (rb_read_mirror rb)) by lia. rewrite Hfull by done. done.
  - rewrite (proj2 (Z.ltb_lt 1 _)) by lia. rewrite (bits15_small (_ + 1)) by lia.
    change (slice [ch] 0 1) with [ch]. rbsimpl.
    destruct (Z.eqb_spec (rb_space rb) 0) as [Hs|Hs]; simpl; [|done].
    rewrite bits15_small by lia. rewrite Hfull by done. done.
Qed.

(** The defect of [rt_ringbuffer_put_force]: both ends pass to the other side
    of the mirror although only the write end wraps. *)
Definition rb_lost (rb : rt_ringbuffer) (data : list Z) (n : Z) : rt_ringbuffer :=
  let rb' := rb_forced rb data n in
  mk_ringbuffer (rb_buffer_ptr rb') (rb_write_mirror rb') (rb_read_index rb')
    (rb_write_mirror rb') (rb_write_index rb') (rb_buffer_size rb').

Lemma rb_lost_ok rb data n :
  rb_ok rb → rb_space rb < n ≤ rb_buffer_size rb → n ≤ zlen data →
  rb_ok (rb_lost rb data n) ∧ rb_contents (rb_lost rb data n) = [].
Proof.
  intros Hok Hn Hd. pose proof (rb_forced_ok rb data n Hok Hn Hd) as Hf. split.
  - destruct Hf. simpl in *. constructor; simpl; try done; left; split; done || lia.
  - unfold rb_contents. assert (rb_len (rb_lost rb data n) = 0) as ->; [|done].
    unfold rb_len. simpl. rewrite Z.eqb_refl. lia.
Qed.

Lemma rt_ringbuffer_put_force_ok rb data length :
  rb_ok rb → 0 ≤ length < 2 ^ 16 → length ≤ zlen data →
  let size := rb_buffer_size rb in
  let n := Z.min length size in
  let kept := drop (Z.to_nat (length - n)) data in
  rt_ringbuffer_put_force data length rb =
    Ok (if rb_space rb <? n then
          if rb_read_mirror rb =? rb_write_mirror rb then rb_lost rb kept n
          else rb_forced rb kept n
        else rb_written rb kept n) n.
Proof.
  intros Hok Hl Hd size n kept. subst size. pose proof (rb_len_bounds rb Hok).
  assert (0 ≤ rb_space rb ≤ rb_buffer_size rb) as Hsp by (unfold rb_space; lia).
  pose proof Hok as [? ? ? ? ? ? ?].
  unfold rt_ringbuffer_put_force. erewrite bind_ok by reflexivity; cbv beta zeta.
  rewrite rt_ringbuffer_space_len_eq, (u16_small (rb_space rb)) by (done || lia).
  assert ((if rb_buffer_size rb <? length then drop (Z.to_nat (length - rb_buffer_size rb)) data
           else data) = kept) as ->.
  { subst kept n. zcases; [by rewrite Z.min_r by lia|].
    rewrite Z.min_l, Z.sub_diag by lia. done. }
  assert ((if rb_buffer_size rb <? length then u16 (rb_buffer_size rb) else length) = n) as ->.
  { subst n. rewrite u16_small by lia. zcases; lia. }
  assert (n ≤ zlen kept) by (subst kept n; rewrite zlen_drop by lia; lia).
  assert (0 ≤ n ≤ rb_buffer_size rb) by lia. clearbody kept n.
  unfold rb_lost, rb_forced, rb_written, put_buffer, adv_mirror, adv_index. simpl.
  destruct (Z.ltb_spec n (rb_buffer_size rb - rb_write_index rb)) as [Hw|Hw].
  - assert (rb_space rb < n → rb_read_mirror rb = 1 - rb_write_mirror rb)
      as Hm by (unfold rb_space, rb_len in *; zcases; lia).
    rbcopy. rbsimpl. destruct (Z.ltb_spec (rb_space rb) n) as [Hs|Hs]; simpl.
    + rewrite !bits15_small by (rewrite ?bits15_small; lia). specialize (Hm Hs).
      rewrite (proj2 (Z.eqb_neq _ _)) by lia. by rewrite Hm.
    + by rewrite bits15_small by lia.
  - rbcopy. rbcopy. rbsimpl. rewrite (bit1_lnot (rb_write_mirror rb)) by lia.
    destruct (Z.ltb_spec (rb_space rb) n) as [Hs|Hs]; simpl.
    + rewrite (bit1_lnot (rb_read_mirror rb)) by lia.
      rewrite !bits15_small by (rewrite ?bits15_small; lia).
      destruct (Z.eqb_spec (rb_read_mirror rb) (rb_write_mirror rb)) as [E|E].
      * by rewrite E.
      * do 2 f_equal. lia.
    + by rewrite bits15_small by lia.
Qed.

(** ** The bounded queue of bytes *)

(** The last [n] elements. *)
Definition last_bytes (n : Z) (q : list Z) : list Z := drop (Z.to_nat (zlen q - n)) q.

Lemma last_bytes_small n q : zlen q ≤ n → last_bytes n q = q.
Proof. unfold last_bytes. intros. by replace (Z.to_nat (zlen q - n)) with 0%nat by lia. Qed.

Lemma forced_is_last q data length size :
  0 ≤ length ≤ zlen data → zlen q ≤ size →
  let n := Z.min length size in
  drop (Z.to_nat (n - (size - zlen q))) q
    ++ take (Z.to_nat n) (drop (Z.to_nat (length - n)) data)
  = last_bytes size (q ++ take (Z.to_nat length) data).
Proof.
  intros Hl Hq n. pose proof (zlen_nonneg q). unfold last_bytes.
  rewrite zlen_app, zlen_take, drop_app by lia.
  assert (∀ k : Z, (Z.to_nat k - List.length q)%nat = Z.to_nat (k - zlen q)) as Hk
    by (unfold zlen; lia).
  rewrite Hk. f_equal.
  - destruct (Z.le_gt_cases length size).
    + subst n. rewrite Z.min_l by lia. do 2 f_equal. lia.
    + subst n. rewrite Z.min_r by lia.
      rewrite !drop_ge; [done|unfold zlen in *; lia|unfold zlen in *; lia].
  - subst n. destruct (Z.le_gt_cases length size).
    + rewrite Z.min_l, Z.sub_diag by lia. replace (zlen q + length - size - zlen q) with (length - size) by lia.
      replace (Z.to_nat (length - size)) with 0%nat by lia. done.
    + rewrite Z.min_r by lia. rewrite take_drop_commute. do 2 f_equal; [lia|f_equal; lia].
Qed.

Lemma rt_ringbuffer_init_ok pool size rb :
  4 ≤ size < 2 ^ 15 → size ≤ zlen pool →
  rt_ringbuffer_init pool size rb = Ok (mk_ringbuffer pool 0 0 0 0 (size - size mod 4)) tt.
Proof.
  intros Hs Hp. unfold rt_ringbuffer_init. rewrite (proj2 (Z.ltb_lt 0 size)) by lia.
  unfold rt_assert. rbsimpl. do 2 f_equal.
  unfold RT_ALIGN_DOWN, RT_ALIGN_SIZE. rewrite land_align4 by apply u32_range.
  rewrite u32_small by lia.
  pose proof (Z.mod_pos_bound size 4). unfold s16. rewrite Z.mod_small by lia. lia.
Qed.

Lemma rb_init_ok pool size :
  4 ≤ size < 2 ^ 15 → size ≤ zlen pool →
  rb_ok (mk_ringbuffer pool 0 0 0 0 (size - size mod 4)) ∧
  rb_contents (mk_ringbuffer pool 0 0 0 0 (size - size mod 4)) = [].
Proof.
  intros Hs Hp. pose proof (Z.mod_pos_bound size 4). split; [|done].
  constructor; simpl; lia.
Qed.

(** [rt_ringbuffer_put_force] writes the last [size] bytes of the block
    and keeps the last [size] bytes of everything, except in one case: when
    the data did not wrap (same mirror) and the block overwrites some of it,
    both mirrors flip and the buffer comes out empty, the block included. *)
Theorem rt_ringbuffer_put_force_spec rb data length :
  rb_ok rb → 0 ≤ length < 2 ^ 16 → length ≤ zlen data →
  let size := rb_buffer_size rb in
  let n := Z.min length size in
  ∃ rb', rt_ringbuffer_put_force data length rb = Ok rb' n ∧ rb_ok rb' ∧
    rb_contents rb' =
      if (rb_space rb <? n) && (rb_read_mirror rb =? rb_write_mirror rb) then []
      else last_bytes size (rb_contents rb ++ take (Z.to_nat length) data).
Proof.
  intros Hok Hl Hd size n. subst size. pose proof (rb_len_bounds rb Hok).
  pose proof (rb_contents_len rb Hok) as Hz. pose proof (rbo_size _ Hok).
  rewrite rt_ringbuffer_put_force_ok by done. fold n. eexists. split; [done|].
  set (kept := drop (Z.to_nat (length - n)) data).
  assert (n ≤ zlen kept) by (subst kept n; rewrite zlen_drop by lia; lia).
  assert (rb_space rb = rb_buffer_size rb - zlen (rb_contents rb)) as Hsp by (by rewrite Hz).
  rewrite <- (forced_is_last (rb_contents rb) data length) by lia. fold n. fold kept.
  rewrite <- Hsp.
  destruct (Z.ltb_spec (rb_space rb) n) as [Hs|Hs]; simpl.
  - destruct (Z.eqb_spec (rb_read_mirror rb) (rb_write_mirror rb)).
    + apply rb_lost_ok; done || lia.
    + split; [apply rb_forced_ok; done || lia|].
      by rewrite rb_forced_contents by (done || lia).
  - split; [apply rb_written_ok; done || lia|].
    rewrite rb_written_contents by (done || lia).
    by replace (Z.to_nat (n - rb_space rb)) with 0%nat by lia.
Qed.

(** Indices on the ring are positions modulo the size. *)
Lemma adv_index_mod size i n : 0 ≤ i < size → 0 ≤ n ≤ size → adv_index size i n = (i + n) mod size.
Proof.
  intros. unfold adv_index. zcases; [by rewrite Z.mod_small by lia|].
  apply (Z.mod_unique_pos _ _ 1); lia.
Qed.

Lemma write_index_mod rb : rb_ok rb →
  rb_write_index rb = (rb_read_index rb + rb_len rb) mod rb_buffer_size rb.
Proof.
  intros Hok. destruct Hok. unfold rb_len.
  zcases; [rewrite Z.mod_small by lia; lia|]. apply (Z.mod_unique_pos _ _ 1); lia.
Qed.

(** The mirrors agree as long as the stored bytes stop short of the end of
    the memory block. *)
Lemma same_mirror rb : rb_ok rb →
  (rb_read_mirror rb =? rb_write_mirror rb) = (rb_read_index rb + rb_len rb <? rb_buffer_size rb).
Proof. intros Hok. destruct Hok. unfold rb_len. zcases; lia. Qed.

(** The calls of a client, and their results as the client sees them: the
    returned length, then the bytes received, those of [rt_ringbuffer_peak]
    being read through the pointer it returns. *)
Inductive rb_call : Set :=
  | CPut (data : list Z)
  | CPutForce (data : list Z)
  | CGet (length : Z)
  | CPeak
  | CPutchar (ch : Z)
  | CPutcharForce (ch : Z)
  | CGetchar
  | CReset
  | CDataLen
  | CSpaceLen
  | CGetSize.

Definition rb_call_ok (c : rb_call) : Prop :=
  match c with
  | CPut data | CPutForce data => zlen data < 2 ^ 16
  | CGet length => 0 ≤ length < 2 ^ 16
  | _ => True
  end.

Definition rb_exec (c : rb_call) : RB (Z * list Z) :=
  match c with
  | CPut data => n ← rt_ringbuffer_put data (zlen data); mret (n, [])
  | CPutForce data => n ← rt_ringbuffer_put_force data (zlen data); mret (n, [])
  | CGet length =>
      r ← rt_ringbuffer_get (replicate (Z.to_nat length) 0) length;
      mret (r.1, take (Z.to_nat r.1) r.2)
  | CPeak =>
      r ← rt_ringbuffer_peak;
      rb ← get;
      mret (r.1, match r.2 with Some p => slice (rb_buffer_ptr rb) p r.1 | None => [] end)
  | CPutchar ch => n ← rt_ringbuffer_putchar ch; mret (n, [])
  | CPutcharForce ch => n ← rt_ringbuffer_putchar_force ch; mret (n, [])
  | CGetchar => r ← rt_ringbuffer_getchar; mret (r.1, option_list r.2)
  | CReset => rt_ringbuffer_reset;; mret (0, [])
  | CDataLen => rb ← get; mret (rt_ringbuffer_data_len rb, [])
  | CSpaceLen => rb ← get; mret (rt_ringbuffer_space_len rb, [])
  | CGetSize => rb ← get; mret (rt_ringbuffer_get_size rb, [])
  end.

(** The specification: a queue [q] of at most [size] bytes, and the position
    [r] of its first byte in the memory block, on which two calls depend.
    [rt_ringbuffer_peak] takes only the bytes that are contiguous in memory,
    and [rt_ringbuffer_put_force] drops the whole queue, the new bytes
    included, when it overwrites a queue that stops short of the end of the
    block. *)
Definition queue_exec (size : Z) (c : rb_call) (s : Z * list Z) : (Z * list Z) * (Z * list Z) :=
  let '(r, q) := s in
  let space := size - zlen q in
  let taken n := (((r + n) mod size, drop (Z.to_nat n) q), (n, take (Z.to_nat n) q)) in
  match c with
  | CPut data => let n := Z.min (zlen data) space in ((r, q ++ take (Z.to_nat n) data), (n, []))
  | CPutForce data =>
      let n := Z.min (zlen data) size in
      if n <=? space then ((r, last_bytes size (q ++ data)), (n, []))
      else (((r + zlen q + n) mod size,
             if r + zlen q <? size then [] else last_bytes size (q ++ data)), (n, []))
  | CGet length => taken (Z.min length (zlen q))
  | CPeak => taken (Z.min (zlen q) (size - r))
  | CPutchar ch => if zlen q <? size then ((r, q ++ [ch]), (1, [])) else ((r, q), (0, []))
  | CPutcharForce ch =>
      ((if zlen q <? size then r else (r + 1) mod size, last_bytes size (q ++ [ch])), (1, []))
  | CGetchar => taken (Z.min 1 (zlen q))
  | CReset => ((0, []), (0, []))
  | CDataLen => ((r, q), (zlen q, []))
  | CSpaceLen => ((r, q), (space, []))
  | CGetSize => ((r, q), (size, []))
  end.

Fixpoint rb_run (cs : list rb_call) : RB (list (Z * list Z)) :=
  match cs with
  | [] => mret []
  | c :: cs' => r ← rb_exec c; rs ← rb_run cs'; mret (r :: rs)
  end.
Fixpoint queue_run (size : Z) (cs : list rb_call) (s : Z * list Z) :
    (Z * list Z) * list (Z * list Z) :=
  match cs with
  | [] => (s, [])
  | c :: cs' =>
      let '(s1, r) := queue_exec size c s in
      let '(s2, rs) := queue_run size cs' s1 in (s2, r :: rs)
  end.

Lemma queue_run_cons size c cs s :
  queue_run size (c :: cs) s =
    let s1 := queue_exec size c s in let s2 := queue_run size cs s1.1 in (s2.1, s1.2 :: s2.2).
Proof.
  change (queue_run size (c :: cs) s) with
    (let '(s1, r) := queue_exec size c s in let '(s2, rs) := queue_run size cs s1 in (s2, r :: rs)).
  destruct (queue_exec size c s) as [s1 r]. cbn. by destruct (queue_run size cs s1).
Qed.

(** The position and the queue a ring buffer stands for. *)
Definition rb_queue (rb : rt_ringbuffer) : Z * list Z := (rb_read_index rb, rb_contents rb).

(** The buffer stays well formed, and stands for the queue [s]. *)
Definition rb_stands (rb : rt_ringbuffer) (s : Z * list Z) (rb' : rt_ringbuffer) : Prop :=
  rb_ok rb' ∧ rb_buffer_size rb' = rb_buffer_size rb ∧ rb_queue rb' = s.

(** ** Each call on the queue *)

Section calls.
Context (rb : rt_ringbuffer) (Hok : rb_ok rb).

Lemma rb_space_eq : rb_space rb = rb_buffer_size rb - zlen (rb_contents rb).
Proof. by rewrite rb_contents_len. Qed.

(** [n] bytes taken from the front. *)
Lemma consumed_stands n : 0 ≤ n ≤ rb_len rb →
  rb_stands rb ((rb_read_index rb + n) mod rb_buffer_size rb, drop (Z.to_nat n) (rb_contents rb))
    (rb_consumed rb n).
Proof.
  intros Hn. pose proof (rb_len_bounds rb Hok). pose proof (rbo_read _ Hok).
  split; [by apply rb_consumed_ok|]. split; [done|]. unfold rb_queue.
  rewrite rb_consumed_contents by done. simpl. by rewrite adv_index_mod by lia.
Qed.

(** [n] bytes added at the end, where they fit. *)
Lemma written_stands data n : 0 ≤ n ≤ rb_space rb → n ≤ zlen data →
  rb_stands rb (rb_read_index rb, rb_contents rb ++ take (Z.to_nat n) data) (rb_written rb data n).
Proof.
  intros Hn Hd. split; [by apply rb_written_ok|]. split; [done|].
  unfold rb_queue. by rewrite rb_written_contents.
Qed.

(** The write index after [n] more bytes. *)
Lemma write_end n : 0 ≤ n ≤ rb_buffer_size rb →
  adv_index (rb_buffer_size rb) (rb_write_index rb) n =
    (rb_read_index rb + rb_len rb + n) mod rb_buffer_size rb.
Proof.
  intros Hn. pose proof (rbo_size _ Hok). pose proof (rbo_write _ Hok).
  rewrite adv_index_mod, write_index_mod, Z.add_mod_idemp_l by (done || lia). done.
Qed.

Lemma put_force_stands data : zlen data < 2 ^ 16 →
  ∃ rb', rt_ringbuffer_put_force data (zlen data) rb =
      Ok rb' (Z.min (zlen data) (rb_buffer_size rb)) ∧
    rb_stands rb (queue_exec (rb_buffer_size rb) (CPutForce data) (rb_queue rb)).1 rb'.
Proof.
  intros Hd. pose proof (zlen_nonneg data). pose proof (rbo_size _ Hok).
  destruct (rt_ringbuffer_put_force_spec rb data (zlen data) Hok) as (rb' & E & Hok' & Hc); [lia..|].
  exists rb'. split; [done|]. split; [done|].
  rewrite rt_ringbuffer_put_force_ok in E by (done || lia). injection E as E. simpl.
  rewrite <- rb_space_eq, rb_contents_len, <- same_mirror by done.
  rewrite take_ge in Hc by (unfold zlen; lia).
  set (n := Z.min (zlen data) (rb_buffer_size rb)) in *. set (kept := drop _ data) in *.
  unfold rb_queue. rewrite Hc. clear Hc.
  destruct (Z.ltb_spec (rb_space rb) n) as [Hs|Hs].
  - rewrite (proj2 (Z.leb_gt _ _)) by lia. rewrite <- write_end by (subst n; lia).
    by destruct (_ =? _); subst rb'.
  - rewrite (proj2 (Z.leb_le _ _)) by lia. by subst rb'.
Qed.

Lemma putchar_force_stands ch :
  ∃ rb', rt_ringbuffer_putchar_force ch rb = Ok rb' 1 ∧
    rb_stands rb (queue_exec (rb_buffer_size rb) (CPutcharForce ch) (rb_queue rb)).1 rb'.
Proof.
  pose proof (rb_len_bounds rb Hok). pose proof (rb_contents_len rb Hok) as Hz.
  pose proof (rbo_size _ Hok). pose proof rb_space_eq as Hsp. simpl. rewrite Hz.
  eexists. split; [by apply rt_ringbuffer_putchar_force_ok|].
  assert (zlen [ch] = 1) as H1 by done.
  destruct (Z.eqb_spec (rb_space rb) 0) as [E|E].
  - rewrite (proj2 (Z.ltb_ge _ _)) by (unfold rb_space in *; lia).
    split; [apply rb_forced_ok; rewrite ?H1; done || lia|]. split; [done|]. unfold rb_queue.
    rewrite rb_forced_contents by (rewrite ?H1; done || lia). simpl. f_equal.
    + rewrite write_end by lia.
      replace (rb_read_index rb + rb_len rb + 1) with (rb_read_index rb + 1 + 1 * rb_buffer_size rb)
        by (unfold rb_space in *; lia). by rewrite Z_mod_plus_full.
    + unfold last_bytes. rewrite zlen_app, H1.
      rewrite drop_app_le by (unfold zlen in *; lia). do 2 f_equal. lia.
  - rewrite (proj2 (Z.ltb_lt _ _)) by (unfold rb_space in *; lia).
    rewrite last_bytes_small by (rewrite zlen_app, H1; lia).
    apply (written_stands [ch] 1); rewrite ?H1; lia.
Qed.

(** One call: its result is the queue's, and the buffer stands for the queue
    after it. *)
Lemma rb_exec_refines c : rb_call_ok c →
  ∃ rb', rb_exec c rb = Ok rb' (queue_exec (rb_buffer_size rb) c (rb_queue rb)).2 ∧
    rb_stands rb (queue_exec (rb_buffer_size rb) c (rb_queue rb)).1 rb'.
Proof.
  intros Hc. pose proof (rb_len_bounds rb Hok) as Hl. pose proof (rb_contents_len rb Hok) as Hz.
  pose proof rb_space_eq as Hsp. pose proof Hok as [? ? ? ? ? ? ?].
  assert (rb_stands rb (rb_queue rb) rb) as Hsame by done.
  destruct c as [data|data|length| |ch|ch| | | | |].
  - simpl. pose proof (zlen_nonneg data). rewrite <- Hsp.
    erewrite bind_ok by (apply rt_ringbuffer_put_ok; done || lia).
    eexists. split; [done|]. apply written_stands; unfold rb_space; lia.
  - destruct (put_force_stands data Hc) as (rb' & E & Hst). exists rb'. split; [|done].
    simpl. erewrite bind_ok by exact E. by case_match.
  - simpl in *. erewrite bind_ok.
    2:{ apply rt_ringbuffer_get_ok; [done|done|]. unfold zlen. rewrite length_replicate. lia. }
    rewrite Hz. eexists. split; [|apply consumed_stands; lia].
    unfold received. cbn. rewrite take_app_le.
    + by rewrite take_take, Nat.min_id.
    + rewrite length_take. unfold zlen in Hz. lia.
  - simpl. destruct (rt_ringbuffer_peak_ok rb Hok) as [E Hbytes].
    erewrite bind_ok by exact E. rewrite Hz.
    eexists. split; [|apply consumed_stands; lia]. cbn. rewrite Hbytes.
    destruct (Z.eqb_spec (rb_len rb) 0) as [->|]; [|done]. by rewrite Z.min_l by lia.
  - simpl. erewrite bind_ok by (by apply rt_ringbuffer_putchar_ok). rewrite Hz.
    assert (zlen [ch] = 1) as H1 by done.
    destruct (Z.ltb_spec (rb_len rb) (rb_buffer_size rb)).
    + rewrite Z.min_l by (unfold rb_space; lia). eexists. split; [done|].
      apply (written_stands [ch] 1); rewrite ?H1; unfold rb_space; lia.
    + rewrite Z.min_r by (unfold rb_space; lia). replace (rb_space rb) with 0 by (unfold rb_space; lia).
      rewrite rb_written_0 by done. by exists rb.
  - destruct (putchar_force_stands ch) as (rb' & E & Hst). exists rb'. split; [|done].
    simpl. by erewrite bind_ok by exact E.
  - simpl. erewrite bind_ok by (by apply rt_ringbuffer_getchar_ok). rewrite Hz.
    eexists. split; [|apply consumed_stands; lia]. rewrite <- Hz.
    destruct (rb_contents rb); [done|]. rewrite zlen_cons.
    pose proof (zlen_nonneg l). by rewrite Z.min_l by lia.
  - exists (mk_ringbuffer (rb_buffer_ptr rb) 0 0 0 0 (rb_buffer_size rb)).
    split; [done|]. split; [|done]. constructor; simpl; lia.
  - exists rb. split; [|done]. simpl. erewrite bind_ok by reflexivity.
    by rewrite rt_ringbuffer_data_len_eq, Hz by done.
  - exists rb. split; [|done]. simpl. erewrite bind_ok by reflexivity.
    by rewrite rt_ringbuffer_space_len_eq, <- Hsp by done.
  - exists rb. split; [|done]. simpl. erewrite bind_ok by reflexivity.
    unfold rt_ringbuffer_get_size. by rewrite u16_small by lia.
Qed.
End calls.

(** C39: what a ring buffer does, for any sequence of the calls of
    ringbuffer.c and its header on a buffer initialised with a block of
    [size] bytes, [size] being of 16 signed bits and at least 4: no call
    faults, every returned length and every received byte is the one that
    [queue_exec] gives, and the bytes left are that queue's. [queue_exec] is a
    first-in first-out queue bounded by [size] rounded down to a multiple of
    four: a put keeps the first bytes that fit, a forced put the last ones.
    Two calls also depend on where the queue lies in the block:
    [rt_ringbuffer_peak] takes, in place, only the bytes before the end of the
    block, and [rt_ringbuffer_put_force] is not a queue operation when it
    overwrites a queue that stops short of that end, the buffer then coming
    out empty. With [size] 1 to 3, which [rt_ringbuffer_init] accepts too, the
    rounded size is 0 and nothing of this holds. *)
Theorem ringbuffer_is_bounded_queue pool size cs rb0 :
  4 ≤ size < 2 ^ 15 → size ≤ zlen pool → Forall rb_call_ok cs →
  ∃ rb', (rt_ringbuffer_init pool size;; rb_run cs) rb0 =
      Ok rb' (queue_run (size - size mod 4) cs (0, [])).2 ∧
    rb_ok rb' ∧ rb_queue rb' = (queue_run (size - size mod 4) cs (0, [])).1.
Proof.
  intros Hs Hp Hcs. erewrite bind_ok by (by apply rt_ringbuffer_init_ok).
  destruct (rb_init_ok pool size Hs Hp) as [Hok Hq]. revert Hok Hq.
  set (rb := mk_ringbuffer _ _ _ _ _ _). intros Hok Hq.
  replace (size - size mod 4) with (rb_buffer_size rb) by done.
  assert (rb_queue rb = (0, [])) as <- by (unfold rb_queue; by rewrite Hq). clear Hq.
  clearbody rb. induction Hcs as [|c cs Hc Hcs IH] in rb, Hok |- *; [by exists rb|].
  destruct (rb_exec_refines rb Hok c Hc) as (rb1 & E1 & Hok1 & Hsz & Hq1).
  destruct (IH rb1 Hok1) as (rb2 & E2 & Hok2 & Hq2). rewrite Hsz, Hq1 in *.
  exists rb2. rewrite queue_run_cons. cbn [rb_run].
  erewrite bind_ok by exact E1. by erewrite bind_ok by exact E2.
Qed.
