(* ===== verification/ListModel.v ===== *)
(** * Kernel lists ([rtservice.h])

    [Module Store] is the abstract view the other components use: a store
    maps each list head to the sequence of nodes on its ring, and
    [rt_list_remove] takes a node off whatever ring it is on. *)

From Stdlib Require Import ZArith Lia.
From stdpp Require Import base gmap list fin_maps countable.
From S2P Require Import RTThread.
From S2P Require Import Prelude.

Module Store.
Section store.
Context {H : Type} `{Countable H}.
Implicit Types (S : gmap H (list ptr)) (h : H) (n : ptr) (l : list ptr).

Definition nodes S h : list ptr := default [] (S !! h).

(** The node is on no ring. *)
Definition unlinked S n : Prop := map_Forall (λ _ l, n ∉ l) S.
#[global] Instance unlinked_dec S n : Decision (unlinked S n).
Proof. unfold unlinked. apply _. Defined.

Definition init h S : gmap H (list ptr) := <[h := []]> S.
Definition isempty h S : bool := match nodes S h with [] => true | _ => false end.
Definition remove n S : gmap H (list ptr) := filter (λ m, m ≠ n) <$> S.

(** [rt_list_insert_after(head, n)] and [rt_list_insert_before(head, n)]. *)
Definition push_front h n S : gmap H (list ptr) := <[h := n :: nodes S h]> S.
Definition push_back h n S : gmap H (list ptr) := <[h := nodes S h ++ [n]]> S.

(** [rt_list_insert_before(m, n)] where [m] is a node of the ring of [h]. *)
Fixpoint insert_before_in (m n : ptr) l : list ptr :=
  match l with
  | [] => []
  | x :: l' => if decide (x = m) then n :: x :: l' else x :: insert_before_in m n l'
  end.
Definition insert_before h m n S : gmap H (list ptr) :=
  <[h := insert_before_in m n (nodes S h)]> S.

(** [rt_list_insert_after(m, n)] where [m] is a node of the ring of [h]. *)
Fixpoint insert_after_in (m n : ptr) l : list ptr :=
  match l with
  | [] => []
  | x :: l' => if decide (x = m) then x :: n :: l' else x :: insert_after_in m n l'
  end.
Definition insert_after h m n S : gmap H (list ptr) :=
  <[h := insert_after_in m n (nodes S h)]> S.

(** [n->next != n->prev]: the ring of [n] holds another node besides its head. *)
Definition has_peer n S : bool :=
  bool_decide (¬ map_Forall (λ _ l, ¬ (n ∈ l ∧ (1 < length l)%nat)) S).

(** ** Well-formed stores: rings are duplicate-free and disjoint *)

Record wf S : Prop := {
  wf_nodup : ∀ h, NoDup (nodes S h);
  wf_disjoint : ∀ h1 h2 n, n ∈ nodes S h1 → n ∈ nodes S h2 → h1 = h2
}.

Lemma nodes_lookup S h l : S !! h = Some l → nodes S h = l.
Proof. unfold nodes. by intros ->. Qed.

Lemma elem_of_nodes S h n : n ∈ nodes S h ↔ ∃ l, S !! h = Some l ∧ n ∈ l.
Proof.
  unfold nodes. destruct (S !! h) as [l|]; simpl; [naive_solver|].
  split; [intros []%not_elem_of_nil|naive_solver].
Qed.

Lemma unlinked_nodes S n : unlinked S n ↔ ∀ h, n ∉ nodes S h.
Proof.
  unfold unlinked, map_Forall. split.
  - intros Hn h (l & ? & ?)%elem_of_nodes. by eapply Hn.
  - intros Hn h l Hl Hin. apply (Hn h), elem_of_nodes. eauto.
Qed.

Lemma nodes_insert S h l : nodes (<[h := l]> S) h = l.
Proof. unfold nodes. by rewrite lookup_insert_eq. Qed.
Lemma nodes_insert_ne S h h' l : h ≠ h' → nodes (<[h := l]> S) h' = nodes S h'.
Proof. intros. unfold nodes. by rewrite lookup_insert_ne. Qed.

Lemma nodes_remove S n h : nodes (remove n S) h = filter (λ m, m ≠ n) (nodes S h).
Proof. unfold nodes, remove. rewrite lookup_fmap. by destruct (S !! h). Qed.

Lemma elem_of_remove S n m h : m ∈ nodes (remove n S) h ↔ m ∈ nodes S h ∧ m ≠ n.
Proof. rewrite nodes_remove, list_elem_of_filter. naive_solver. Qed.

Lemma nodes_push_back S h n h' :
  nodes (push_back h n S) h' = if decide (h = h') then nodes S h ++ [n] else nodes S h'.
Proof. unfold push_back. case_decide; subst; auto using nodes_insert, nodes_insert_ne. Qed.

Lemma nodes_push_front S h n h' :
  nodes (push_front h n S) h' = if decide (h = h') then n :: nodes S h else nodes S h'.
Proof. unfold push_front. case_decide; subst; auto using nodes_insert, nodes_insert_ne. Qed.

Lemma nodes_init S h h' :
  nodes (init h S) h' = if decide (h = h') then [] else nodes S h'.
Proof. unfold init. case_decide; subst; auto using nodes_insert, nodes_insert_ne. Qed.

Lemma insert_before_in_perm m n l : m ∈ l → insert_before_in m n l ≡ₚ n :: l.
Proof.
  induction l as [|x l IH]; simpl; [intros []%not_elem_of_nil|].
  intros Hm. case_decide; [done|]. rewrite IH; [constructor|set_solver].
Qed.
Lemma insert_after_in_perm m n l : m ∈ l → insert_after_in m n l ≡ₚ n :: l.
Proof.
  induction l as [|x l IH]; simpl; [intros []%not_elem_of_nil|].
  intros Hm. case_decide; [constructor|]. rewrite IH; [constructor|set_solver].
Qed.

Lemma isempty_spec S h : isempty h S = true ↔ nodes S h = [].
Proof. unfold isempty. by destruct (nodes S h). Qed.
Lemma isempty_false S h : isempty h S = false ↔ nodes S h ≠ [].
Proof. unfold isempty. by destruct (nodes S h). Qed.

Lemma remove_unlinked S n : unlinked (remove n S) n.
Proof. apply unlinked_nodes. intros h [_ ?]%elem_of_remove. done. Qed.

Lemma nodes_remove_id S n h : n ∉ nodes S h → nodes (remove n S) h = nodes S h.
Proof.
  intros Hn. rewrite nodes_remove. induction (nodes S h) as [|x l IH]; [done|].
  apply not_elem_of_cons in Hn as [? ?].
  rewrite filter_cons, decide_True by done. f_equal. auto.
Qed.

(** The head of a ring is removed without reordering the others. *)
Lemma nodes_remove_head S n h l : wf S → nodes S h = n :: l → nodes (remove n S) h = l.
Proof.
  intros Hwf Hl. pose proof (wf_nodup _ Hwf h) as Hnd. rewrite Hl in Hnd.
  apply NoDup_cons_1_1 in Hnd as Hn.
  rewrite nodes_remove, Hl, filter_cons, decide_False by naive_solver.
  clear Hl Hnd. induction l as [|x l IH]; [done|].
  apply not_elem_of_cons in Hn as [? ?].
  rewrite filter_cons, decide_True by done. f_equal. auto.
Qed.

Lemma wf_remove S n : wf S → wf (remove n S).
Proof.
  intros [Hnd Hd]. split.
  - intros h. rewrite nodes_remove. apply list.NoDup_filter, Hnd.
  - intros h1 h2 m [? _]%elem_of_remove [? _]%elem_of_remove. eauto.
Qed.

(** Every insertion adds one unlinked node to one ring. *)
Lemma wf_insert S h n l :
  wf S → unlinked S n → l ≡ₚ n :: nodes S h → wf (<[h := l]> S).
Proof.
  intros [Hnd Hd] Hu Hl. rewrite unlinked_nodes in Hu. split.
  - intros h'. destruct (decide (h = h')) as [<-|].
    + rewrite nodes_insert, Hl. constructor; auto.
    + rewrite nodes_insert_ne; auto.
  - intros h1 h2 m.
    destruct (decide (h = h1)) as [<-|], (decide (h = h2)) as [<-|]; [done|..];
      rewrite ?nodes_insert, ?nodes_insert_ne, ?Hl, ?elem_of_cons by done;
      naive_solver.
Qed.

Lemma wf_init S h : wf S → wf (init h S).
Proof.
  intros [Hnd Hd]. split.
  - intros h'. rewrite nodes_init. case_decide; [constructor|auto].
  - intros h1 h2 m. rewrite !nodes_init. repeat case_decide; subst; set_solver.
Qed.

Lemma wf_push_back S h n : wf S → unlinked S n → wf (push_back h n S).
Proof. intros. eapply wf_insert; eauto. by rewrite Permutation_app_comm. Qed.
Lemma wf_push_front S h n : wf S → unlinked S n → wf (push_front h n S).
Proof. intros. eapply wf_insert; eauto. Qed.

Lemma elem_of_push_back S h n h' m :
  m ∈ nodes (push_back h n S) h' ↔ (m = n ∧ h = h') ∨ m ∈ nodes S h'.
Proof. rewrite nodes_push_back. case_decide; subst; set_solver. Qed.
Lemma elem_of_push_front S h n h' m :
  m ∈ nodes (push_front h n S) h' ↔ (m = n ∧ h = h') ∨ m ∈ nodes S h'.
Proof. rewrite nodes_push_front. case_decide; subst; set_solver. Qed.
End store.
End Store.

#[export] Hint Resolve Store.wf_remove Store.remove_unlinked Store.wf_init
  Store.wf_push_back Store.wf_push_front : kernel.
