(* ===== verification/Kernel.v ===== *)
(** * Kernel state: the structures of [rtdef.h] and the globals of the kernel sources

    One [kstate] holds every global the modelled kernel files share. Objects
    live at integer addresses ([ptr], [RT_NULL] is 0); each C struct is a
    record kept in a finite map from its address. The header
    [struct rt_object] of an object is kept apart in [k_objects] because the
    C code casts every object to it; [set_<field>] writes one field. *)

From Stdlib Require Import ZArith Lia.
From stdpp Require Import base gmap list fin_maps countable.
From S2P Require Import RTThread.
From S2P Require Import Prelude.
From S2P Require Import ListModel.

(** ** List heads

    An [rt_list_t] head is named by what it belongs to; a node is named by
    the object that embeds it (the [tlist] of a thread, the [row[0]] of a
    timer, the [list] of an object header). *)

Inductive thead : Set :=
  | HReady (prio : Z)      (** [rt_thread_priority_table[prio]] *)
  | HSuspend (obj : ptr)   (** [suspend_thread] of the IPC object at [obj] *)
  | HSender (obj : ptr)    (** [suspend_sender_thread] of a mailbox or queue *)
  | HDefunct.              (** [rt_thread_defunct] *)

Inductive tmhead : Set :=
  | THard        (** [rt_timer_list[0]] *)
  | TSoft        (** [rt_soft_timer_list[0]] *)
  | TLocalHard   (** the local [list] of [rt_timer_check] *)
  | TLocalSoft.  (** the local [list] of [rt_soft_timer_check] *)

#[export] Instance thead_eq_dec : EqDecision thead.
Proof. solve_decision. Defined.
#[export] Instance tmhead_eq_dec : EqDecision tmhead.
Proof. solve_decision. Defined.

#[export] Instance thead_countable : Countable thead.
Proof.
  refine (inj_countable'
    (λ h, match h with
          | HReady p => inl (inl p) | HSuspend o => inl (inr o)
          | HSender o => inr (inl o) | HDefunct => inr (inr tt) end)
    (λ x, match x with
          | inl (inl p) => HReady p | inl (inr o) => HSuspend o
          | inr (inl o) => HSender o | inr (inr tt) => HDefunct end) _).
  by intros [].
Defined.

#[export] Instance tmhead_countable : Countable tmhead.
Proof.
  refine (inj_countable'
    (λ h, match h with THard => 0 | TSoft => 1 | TLocalHard => 2 | TLocalSoft => 3 end)
    (λ x, match x with 0 => THard | 1 => TSoft | 2 => TLocalHard | _ => TLocalSoft end) _).
  by intros [].
Defined.

(** ** Structures *)

(** [struct rt_object]: the header of every kernel object. *)
Record rt_object : Set := mk_object {
  obj_name : list Z;
  obj_type : Z;
  obj_flag : Z;
}.
Definition set_obj_name (v : list Z) (r : rt_object) : rt_object :=
  mk_object v (obj_type r) (obj_flag r).
Definition set_obj_type (v : Z) (r : rt_object) : rt_object :=
  mk_object (obj_name r) v (obj_flag r).
Definition set_obj_flag (v : Z) (r : rt_object) : rt_object :=
  mk_object (obj_name r) (obj_type r) v.

(** The [timeout_func] of a timer: the kernel's own [rt_thread_timeout] or a
    function of the application, named by its address. *)
Inductive timeout_fn : Set :=
  | TF_thread_timeout
  | TF_user (f : Z).

(** [struct rt_thread] ([name], [type] and [flags] are the header in
    [k_objects], the embedded [thread_timer] is the timer at
    [thread_timer t]). [th_stack_guard] is the byte at [stack_addr], which
    the scheduler's stack check reads. *)
Record rt_thread : Set := mk_thread {
  th_entry : ptr;
  th_parameter : Z;
  th_stack_addr : Z;
  th_stack_size : Z;
  th_stack_guard : Z;
  th_sp : Z;
  th_error : Z;
  th_stat : Z;
  th_current_priority : Z;
  th_init_priority : Z;
  th_number_mask : Z;
  th_event_set : Z;
  th_event_info : Z;
  th_init_tick : Z;
  th_remaining_tick : Z;
  th_cleanup : Z;
  th_user_data : Z;
}.
Definition set_th_entry (v : ptr) (r : rt_thread) : rt_thread :=
  mk_thread v (th_parameter r) (th_stack_addr r) (th_stack_size r) (th_stack_guard r) (th_sp r) (th_error r) (th_stat r) (th_current_priority r) (th_init_priority r) (th_number_mask r) (th_event_set r) (th_event_info r) (th_init_tick r) (th_remaining_tick r) (th_cleanup r) (th_user_data r).
Definition set_th_parameter (v : Z) (r : rt_thread) : rt_thread :=
  mk_thread (th_entry r) v (th_stack_addr r) (th_stack_size r) (th_stack_guard r) (th_sp r) (th_error r) (th_stat r) (th_current_priority r) (th_init_priority r) (th_number_mask r) (th_event_set r) (th_event_info r) (th_init_tick r) (th_remaining_tick r) (th_cleanup r) (th_user_data r).
Definition set_th_stack_addr (v : Z) (r : rt_thread) : rt_thread :=
  mk_thread (th_entry r) (th_parameter r) v (th_stack_size r) (th_stack_guard r) (th_sp r) (th_error r) (th_stat r) (th_current_priority r) (th_init_priority r) (th_number_mask r) (th_event_set r) (th_event_info r) (th_init_tick r) (th_remaining_tick r) (th_cleanup r) (th_user_data r).
Definition set_th_stack_size (v : Z) (r : rt_thread) : rt_thread :=
  mk_thread (th_entry r) (th_parameter r) (th_stack_addr r) v (th_stack_guard r) (th_sp r) (th_error r) (th_stat r) (th_current_priority r) (th_init_priority r) (th_number_mask r) (th_event_set r) (th_event_info r) (th_init_tick r) (th_remaining_tick r) (th_cleanup r) (th_user_data r).
Definition set_th_stack_guard (v : Z) (r : rt_thread) : rt_thread :=
  mk_thread (th_entry r) (th_parameter r) (th_stack_addr r) (th_stack_size r) v (th_sp r) (th_error r) (th_stat r) (th_current_priority r) (th_init_priority r) (th_number_mask r) (th_event_set r) (th_event_info r) (th_init_tick r) (th_remaining_tick r) (th_cleanup r) (th_user_data r).
Definition set_th_sp (v : Z) (r : rt_thread) : rt_thread :=
  mk_thread (th_entry r) (th_parameter r) (th_stack_addr r) (th_stack_size r) (th_stack_guard r) v (th_error r) (th_stat r) (th_current_priority r) (th_init_priority r) (th_number_mask r) (th_event_set r) (th_event_info r) (th_init_tick r) (th_remaining_tick r) (th_cleanup r) (th_user_data r).
Definition set_th_error (v : Z) (r : rt_thread) : rt_thread :=
  mk_thread (th_entry r) (th_parameter r) (th_stack_addr r) (th_stack_size r) (th_stack_guard r) (th_sp r) v (th_stat r) (th_current_priority r) (th_init_priority r) (th_number_mask r) (th_event_set r) (th_event_info r) (th_init_tick r) (th_remaining_tick r) (th_cleanup r) (th_user_data r).
Definition set_th_stat (v : Z) (r : rt_thread) : rt_thread :=
  mk_thread (th_entry r) (th_parameter r) (th_stack_addr r) (th_stack_size r) (th_stack_guard r) (th_sp r) (th_error r) v (th_current_priority r) (th_init_priority r) (th_number_mask r) (th_event_set r) (th_event_info r) (th_init_tick r) (th_remaining_tick r) (th_cleanup r) (th_user_data r).
Definition set_th_current_priority (v : Z) (r : rt_thread) : rt_thread :=
  mk_thread (th_entry r) (th_parameter r) (th_stack_addr r) (th_stack_size r) (th_stack_guard r) (th_sp r) (th_error r) (th_stat r) v (th_init_priority r) (th_number_mask r) (th_event_set r) (th_event_info r) (th_init_tick r) (th_remaining_tick r) (th_cleanup r) (th_user_data r).
Definition set_th_init_priority (v : Z) (r : rt_thread) : rt_thread :=
  mk_thread (th_entry r) (th_parameter r) (th_stack_addr r) (th_stack_size r) (th_stack_guard r) (th_sp r) (th_error r) (th_stat r) (th_current_priority r) v (th_number_mask r) (th_event_set r) (th_event_info r) (th_init_tick r) (th_remaining_tick r) (th_cleanup r) (th_user_data r).
Definition set_th_number_mask (v : Z) (r : rt_thread) : rt_thread :=
  mk_thread (th_entry r) (th_parameter r) (th_stack_addr r) (th_stack_size r) (th_stack_guard r) (th_sp r) (th_error r) (th_stat r) (th_current_priority r) (th_init_priority r) v (th_event_set r) (th_event_info r) (th_init_tick r) (th_remaining_tick r) (th_cleanup r) (th_user_data r).
Definition set_th_event_set (v : Z) (r : rt_thread) : rt_thread :=
  mk_thread (th_entry r) (th_parameter r) (th_stack_addr r) (th_stack_size r) (th_stack_guard r) (th_sp r) (th_error r) (th_stat r) (th_current_priority r) (th_init_priority r) (th_number_mask r) v (th_event_info r) (th_init_tick r) (th_remaining_tick r) (th_cleanup r) (th_user_data r).
Definition set_th_event_info (v : Z) (r : rt_thread) : rt_thread :=
  mk_thread (th_entry r) (th_parameter r) (th_stack_addr r) (th_stack_size r) (th_stack_guard r) (th_sp r) (th_error r) (th_stat r) (th_current_priority r) (th_init_priority r) (th_number_mask r) (th_event_set r) v (th_init_tick r) (th_remaining_tick r) (th_cleanup r) (th_user_data r).
Definition set_th_init_tick (v : Z) (r : rt_thread) : rt_thread :=
  mk_thread (th_entry r) (th_parameter r) (th_stack_addr r) (th_stack_size r) (th_stack_guard r) (th_sp r) (th_error r) (th_stat r) (th_current_priority r) (th_init_priority r) (th_number_mask r) (th_event_set r) (th_event_info r) v (th_remaining_tick r) (th_cleanup r) (th_user_data r).
Definition set_th_remaining_tick (v : Z) (r : rt_thread) : rt_thread :=
  mk_thread (th_entry r) (th_parameter r) (th_stack_addr r) (th_stack_size r) (th_stack_guard r) (th_sp r) (th_error r) (th_stat r) (th_current_priority r) (th_init_priority r) (th_number_mask r) (th_event_set r) (th_event_info r) (th_init_tick r) v (th_cleanup r) (th_user_data r).
Definition set_th_cleanup (v : Z) (r : rt_thread) : rt_thread :=
  mk_thread (th_entry r) (th_parameter r) (th_stack_addr r) (th_stack_size r) (th_stack_guard r) (th_sp r) (th_error r) (th_stat r) (th_current_priority r) (th_init_priority r) (th_number_mask r) (th_event_set r) (th_event_info r) (th_init_tick r) (th_remaining_tick r) v (th_user_data r).
Definition set_th_user_data (v : Z) (r : rt_thread) : rt_thread :=
  mk_thread (th_entry r) (th_parameter r) (th_stack_addr r) (th_stack_size r) (th_stack_guard r) (th_sp r) (th_error r) (th_stat r) (th_current_priority r) (th_init_priority r) (th_number_mask r) (th_event_set r) (th_event_info r) (th_init_tick r) (th_remaining_tick r) (th_cleanup r) v.

(** [struct rt_timer]. *)
Record rt_timer : Set := mk_timer {
  tm_timeout_func : timeout_fn;
  tm_parameter : Z;
  tm_init_tick : Z;
  tm_timeout_tick : Z;
}.
Definition set_tm_timeout_func (v : timeout_fn) (r : rt_timer) : rt_timer :=
  mk_timer v (tm_parameter r) (tm_init_tick r) (tm_timeout_tick r).
Definition set_tm_parameter (v : Z) (r : rt_timer) : rt_timer :=
  mk_timer (tm_timeout_func r) v (tm_init_tick r) (tm_timeout_tick r).
Definition set_tm_init_tick (v : Z) (r : rt_timer) : rt_timer :=
  mk_timer (tm_timeout_func r) (tm_parameter r) v (tm_timeout_tick r).
Definition set_tm_timeout_tick (v : Z) (r : rt_timer) : rt_timer :=
  mk_timer (tm_timeout_func r) (tm_parameter r) (tm_init_tick r) v.

(** [struct rt_mutex]. *)
Record rt_mutex : Set := mk_mutex {
  mu_value : Z;
  mu_original_priority : Z;
  mu_hold : Z;
  mu_owner : ptr;
}.
Definition set_mu_value (v : Z) (r : rt_mutex) : rt_mutex :=
  mk_mutex v (mu_original_priority r) (mu_hold r) (mu_owner r).
Definition set_mu_original_priority (v : Z) (r : rt_mutex) : rt_mutex :=
  mk_mutex (mu_value r) v (mu_hold r) (mu_owner r).
Definition set_mu_hold (v : Z) (r : rt_mutex) : rt_mutex :=
  mk_mutex (mu_value r) (mu_original_priority r) v (mu_owner r).
Definition set_mu_owner (v : ptr) (r : rt_mutex) : rt_mutex :=
  mk_mutex (mu_value r) (mu_original_priority r) (mu_hold r) v.

(** [struct rt_mailbox]; [mb_msg_pool] is the array [msg_pool] points to. *)
Record rt_mailbox : Set := mk_mailbox {
  mb_msg_pool : list Z;
  mb_size : Z;
  mb_entry : Z;
  mb_in_offset : Z;
  mb_out_offset : Z;
}.
Definition set_mb_msg_pool (v : list Z) (r : rt_mailbox) : rt_mailbox :=
  mk_mailbox v (mb_size r) (mb_entry r) (mb_in_offset r) (mb_out_offset r).
Definition set_mb_size (v : Z) (r : rt_mailbox) : rt_mailbox :=
  mk_mailbox (mb_msg_pool r) v (mb_entry r) (mb_in_offset r) (mb_out_offset r).
Definition set_mb_entry (v : Z) (r : rt_mailbox) : rt_mailbox :=
  mk_mailbox (mb_msg_pool r) (mb_size r) v (mb_in_offset r) (mb_out_offset r).
Definition set_mb_in_offset (v : Z) (r : rt_mailbox) : rt_mailbox :=
  mk_mailbox (mb_msg_pool r) (mb_size r) (mb_entry r) v (mb_out_offset r).
Definition set_mb_out_offset (v : Z) (r : rt_mailbox) : rt_mailbox :=
  mk_mailbox (mb_msg_pool r) (mb_size r) (mb_entry r) (mb_in_offset r) v.

(** [struct rt_messagequeue]; [mq_next] and [mq_data] are the [next] field
    and the payload bytes of the [struct rt_mq_message] at each address of
    the pool. *)
Record rt_messagequeue : Set := mk_messagequeue {
  mq_msg_pool : ptr;
  mq_msg_size : Z;
  mq_max_msgs : Z;
  mq_entry : Z;
  mq_head : ptr;
  mq_tail : ptr;
  mq_free : ptr;
  mq_next : gmap ptr ptr;
  mq_data : gmap ptr (list Z);
}.
Definition set_mq_msg_pool (v : ptr) (r : rt_messagequeue) : rt_messagequeue :=
  mk_messagequeue v (mq_msg_size r) (mq_max_msgs r) (mq_entry r) (mq_head r) (mq_tail r) (mq_free r) (mq_next r) (mq_data r).
Definition set_mq_msg_size (v : Z) (r : rt_messagequeue) : rt_messagequeue :=
  mk_messagequeue (mq_msg_pool r) v (mq_max_msgs r) (mq_entry r) (mq_head r) (mq_tail r) (mq_free r) (mq_next r) (mq_data r).
Definition set_mq_max_msgs (v : Z) (r : rt_messagequeue) : rt_messagequeue :=
  mk_messagequeue (mq_msg_pool r) (mq_msg_size r) v (mq_entry r) (mq_head r) (mq_tail r) (mq_free r) (mq_next r) (mq_data r).
Definition set_mq_entry (v : Z) (r : rt_messagequeue) : rt_messagequeue :=
  mk_messagequeue (mq_msg_pool r) (mq_msg_size r) (mq_max_msgs r) v (mq_head r) (mq_tail r) (mq_free r) (mq_next r) (mq_data r).
Definition set_mq_head (v : ptr) (r : rt_messagequeue) : rt_messagequeue :=
  mk_messagequeue (mq_msg_pool r) (mq_msg_size r) (mq_max_msgs r) (mq_entry r) v (mq_tail r) (mq_free r) (mq_next r) (mq_data r).
Definition set_mq_tail (v : ptr) (r : rt_messagequeue) : rt_messagequeue :=
  mk_messagequeue (mq_msg_pool r) (mq_msg_size r) (mq_max_msgs r) (mq_entry r) (mq_head r) v (mq_free r) (mq_next r) (mq_data r).
Definition set_mq_free (v : ptr) (r : rt_messagequeue) : rt_messagequeue :=
  mk_messagequeue (mq_msg_pool r) (mq_msg_size r) (mq_max_msgs r) (mq_entry r) (mq_head r) (mq_tail r) v (mq_next r) (mq_data r).
Definition set_mq_next (v : gmap ptr ptr) (r : rt_messagequeue) : rt_messagequeue :=
  mk_messagequeue (mq_msg_pool r) (mq_msg_size r) (mq_max_msgs r) (mq_entry r) (mq_head r) (mq_tail r) (mq_free r) v (mq_data r).
Definition set_mq_data (v : gmap ptr (list Z)) (r : rt_messagequeue) : rt_messagequeue :=
  mk_messagequeue (mq_msg_pool r) (mq_msg_size r) (mq_max_msgs r) (mq_entry r) (mq_head r) (mq_tail r) (mq_free r) (mq_next r) v.

(** [&thread->thread_timer]: the offset of the field on the target. *)
Definition thread_timer (t : ptr) : ptr := t + 76.

(** ** The globals *)
#[projections(primitive)] Record kstate : Set := mk_kstate {
  k_primask : Z;
  k_interrupt_nest : Z;
  k_lock_nest : Z;
  k_current : ptr;
  k_current_priority : Z;
  k_group : Z;
  k_switch_flag : Z;
  k_switch_from : ptr;
  k_switch_to : ptr;
  k_tick : Z;
  k_objects : gmap ptr rt_object;
  k_containers : gmap Z (list ptr);
  k_threads : gmap ptr rt_thread;
  k_tlists : gmap thead (list ptr);
  k_timers : gmap ptr rt_timer;
  k_tmlists : gmap tmhead (list ptr);
  k_soft_timer_status : Z;
  k_random_nr : Z;
  k_sems : gmap ptr Z;
  k_mutexes : gmap ptr rt_mutex;
  k_events : gmap ptr Z;
  k_mailboxes : gmap ptr rt_mailbox;
  k_mqs : gmap ptr rt_messagequeue;
  k_errno : Z;
  k_idle : ptr;
  k_timer_thread : ptr;
  k_idle_hooks : list Z;
}.
Definition set_k_primask (v : Z) (r : kstate) : kstate :=
  mk_kstate v (k_interrupt_nest r) (k_lock_nest r) (k_current r) (k_current_priority r) (k_group r) (k_switch_flag r) (k_switch_from r) (k_switch_to r) (k_tick r) (k_objects r) (k_containers r) (k_threads r) (k_tlists r) (k_timers r) (k_tmlists r) (k_soft_timer_status r) (k_random_nr r) (k_sems r) (k_mutexes r) (k_events r) (k_mailboxes r) (k_mqs r) (k_errno r) (k_idle r) (k_timer_thread r) (k_idle_hooks r).
Definition set_k_interrupt_nest (v : Z) (r : kstate) : kstate :=
  mk_kstate (k_primask r) v (k_lock_nest r) (k_current r) (k_current_priority r) (k_group r) (k_switch_flag r) (k_switch_from r) (k_switch_to r) (k_tick r) (k_objects r) (k_containers r) (k_threads r) (k_tlists r) (k_timers r) (k_tmlists r) (k_soft_timer_status r) (k_random_nr r) (k_sems r) (k_mutexes r) (k_events r) (k_mailboxes r) (k_mqs r) (k_errno r) (k_idle r) (k_timer_thread r) (k_idle_hooks r).
Definition set_k_lock_nest (v : Z) (r : kstate) : kstate :=
  mk_kstate (k_primask r) (k_interrupt_nest r) v (k_current r) (k_current_priority r) (k_group r) (k_switch_flag r) (k_switch_from r) (k_switch_to r) (k_tick r) (k_objects r) (k_containers r) (k_threads r) (k_tlists r) (k_timers r) (k_tmlists r) (k_soft_timer_status r) (k_random_nr r) (k_sems r) (k_mutexes r) (k_events r) (k_mailboxes r) (k_mqs r) (k_errno r) (k_idle r) (k_timer_thread r) (k_idle_hooks r).
Definition set_k_current (v : ptr) (r : kstate) : kstate :=
  mk_kstate (k_primask r) (k_interrupt_nest r) (k_lock_nest r) v (k_current_priority r) (k_group r) (k_switch_flag r) (k_switch_from r) (k_switch_to r) (k_tick r) (k_objects r) (k_containers r) (k_threads r) (k_tlists r) (k_timers r) (k_tmlists r) (k_soft_timer_status r) (k_random_nr r) (k_sems r) (k_mutexes r) (k_events r) (k_mailboxes r) (k_mqs r) (k_errno r) (k_idle r) (k_timer_thread r) (k_idle_hooks r).
Definition set_k_current_priority (v : Z) (r : kstate) : kstate :=
  mk_kstate (k_primask r) (k_interrupt_nest r) (k_lock_nest r) (k_current r) v (k_group r) (k_switch_flag r) (k_switch_from r) (k_switch_to r) (k_tick r) (k_objects r) (k_containers r) (k_threads r) (k_tlists r) (k_timers r) (k_tmlists r) (k_soft_timer_status r) (k_random_nr r) (k_sems r) (k_mutexes r) (k_events r) (k_mailboxes r) (k_mqs r) (k_errno r) (k_idle r) (k_timer_thread r) (k_idle_hooks r).
Definition set_k_group (v : Z) (r : kstate) : kstate :=
  mk_kstate (k_primask r) (k_interrupt_nest r) (k_lock_nest r) (k_current r) (k_current_priority r) v (k_switch_flag r) (k_switch_from r) (k_switch_to r) (k_tick r) (k_objects r) (k_containers r) (k_threads r) (k_tlists r) (k_timers r) (k_tmlists r) (k_soft_timer_status r) (k_random_nr r) (k_sems r) (k_mutexes r) (k_events r) (k_mailboxes r) (k_mqs r) (k_errno r) (k_idle r) (k_timer_thread r) (k_idle_hooks r).
Definition set_k_switch_flag (v : Z) (r : kstate) : kstate :=
  mk_kstate (k_primask r) (k_interrupt_nest r) (k_lock_nest r) (k_current r) (k_current_priority r) (k_group r) v (k_switch_from r) (k_switch_to r) (k_tick r) (k_objects r) (k_containers r) (k_threads r) (k_tlists r) (k_timers r) (k_tmlists r) (k_soft_timer_status r) (k_random_nr r) (k_sems r) (k_mutexes r) (k_events r) (k_mailboxes r) (k_mqs r) (k_errno r) (k_idle r) (k_timer_thread r) (k_idle_hooks r).
Definition set_k_switch_from (v : ptr) (r : kstate) : kstate :=
  mk_kstate (k_primask r) (k_interrupt_nest r) (k_lock_nest r) (k_current r) (k_current_priority r) (k_group r) (k_switch_flag r) v (k_switch_to r) (k_tick r) (k_objects r) (k_containers r) (k_threads r) (k_tlists r) (k_timers r) (k_tmlists r) (k_soft_timer_status r) (k_random_nr r) (k_sems r) (k_mutexes r) (k_events r) (k_mailboxes r) (k_mqs r) (k_errno r) (k_idle r) (k_timer_thread r) (k_idle_hooks r).
Definition set_k_switch_to (v : ptr) (r : kstate) : kstate :=
  mk_kstate (k_primask r) (k_interrupt_nest r) (k_lock_nest r) (k_current r) (k_current_priority r) (k_group r) (k_switch_flag r) (k_switch_from r) v (k_tick r) (k_objects r) (k_containers r) (k_threads r) (k_tlists r) (k_timers r) (k_tmlists r) (k_soft_timer_status r) (k_random_nr r) (k_sems r) (k_mutexes r) (k_events r) (k_mailboxes r) (k_mqs r) (k_errno r) (k_idle r) (k_timer_thread r) (k_idle_hooks r).
Definition set_k_tick (v : Z) (r : kstate) : kstate :=
  mk_kstate (k_primask r) (k_interrupt_nest r) (k_lock_nest r) (k_current r) (k_current_priority r) (k_group r) (k_switch_flag r) (k_switch_from r) (k_switch_to r) v (k_objects r) (k_containers r) (k_threads r) (k_tlists r) (k_timers r) (k_tmlists r) (k_soft_timer_status r) (k_random_nr r) (k_sems r) (k_mutexes r) (k_events r) (k_mailboxes r) (k_mqs r) (k_errno r) (k_idle r) (k_timer_thread r) (k_idle_hooks r).
Definition set_k_objects (v : gmap ptr rt_object) (r : kstate) : kstate :=
  mk_kstate (k_primask r) (k_interrupt_nest r) (k_lock_nest r) (k_current r) (k_current_priority r) (k_group r) (k_switch_flag r) (k_switch_from r) (k_switch_to r) (k_tick r) v (k_containers r) (k_threads r) (k_tlists r) (k_timers r) (k_tmlists r) (k_soft_timer_status r) (k_random_nr r) (k_sems r) (k_mutexes r) (k_events r) (k_mailboxes r) (k_mqs r) (k_errno r) (k_idle r) (k_timer_thread r) (k_idle_hooks r).
Definition set_k_containers (v : gmap Z (list ptr)) (r : kstate) : kstate :=
  mk_kstate (k_primask r) (k_interrupt_nest r) (k_lock_nest r) (k_current r) (k_current_priority r) (k_group r) (k_switch_flag r) (k_switch_from r) (k_switch_to r) (k_tick r) (k_objects r) v (k_threads r) (k_tlists r) (k_timers r) (k_tmlists r) (k_soft_timer_status r) (k_random_nr r) (k_sems r) (k_mutexes r) (k_events r) (k_mailboxes r) (k_mqs r) (k_errno r) (k_idle r) (k_timer_thread r) (k_idle_hooks r).
Definition set_k_threads (v : gmap ptr rt_thread) (r : kstate) : kstate :=
  mk_kstate (k_primask r) (k_interrupt_nest r) (k_lock_nest r) (k_current r) (k_current_priority r) (k_group r) (k_switch_flag r) (k_switch_from r) (k_switch_to r) (k_tick r) (k_objects r) (k_containers r) v (k_tlists r) (k_timers r) (k_tmlists r) (k_soft_timer_status r) (k_random_nr r) (k_sems r) (k_mutexes r) (k_events r) (k_mailboxes r) (k_mqs r) (k_errno r) (k_idle r) (k_timer_thread r) (k_idle_hooks r).
Definition set_k_tlists (v : gmap thead (list ptr)) (r : kstate) : kstate :=
  mk_kstate (k_primask r) (k_interrupt_nest r) (k_lock_nest r) (k_current r) (k_current_priority r) (k_group r) (k_switch_flag r) (k_switch_from r) (k_switch_to r) (k_tick r) (k_objects r) (k_containers r) (k_threads r) v (k_timers r) (k_tmlists r) (k_soft_timer_status r) (k_random_nr r) (k_sems r) (k_mutexes r) (k_events r) (k_mailboxes r) (k_mqs r) (k_errno r) (k_idle r) (k_timer_thread r) (k_idle_hooks r).
Definition set_k_timers (v : gmap ptr rt_timer) (r : kstate) : kstate :=
  mk_kstate (k_primask r) (k_interrupt_nest r) (k_lock_nest r) (k_current r) (k_current_priority r) (k_group r) (k_switch_flag r) (k_switch_from r) (k_switch_to r) (k_tick r) (k_objects r) (k_containers r) (k_threads r) (k_tlists r) v (k_tmlists r) (k_soft_timer_status r) (k_random_nr r) (k_sems r) (k_mutexes r) (k_events r) (k_mailboxes r) (k_mqs r) (k_errno r) (k_idle r) (k_timer_thread r) (k_idle_hooks r).
Definition set_k_tmlists (v : gmap tmhead (list ptr)) (r : kstate) : kstate :=
  mk_kstate (k_primask r) (k_interrupt_nest r) (k_lock_nest r) (k_current r) (k_current_priority r) (k_group r) (k_switch_flag r) (k_switch_from r) (k_switch_to r) (k_tick r) (k_objects r) (k_containers r) (k_threads r) (k_tlists r) (k_timers r) v (k_soft_timer_status r) (k_random_nr r) (k_sems r) (k_mutexes r) (k_events r) (k_mailboxes r) (k_mqs r) (k_errno r) (k_idle r) (k_timer_thread r) (k_idle_hooks r).
Definition set_k_soft_timer_status (v : Z) (r : kstate) : kstate :=
  mk_kstate (k_primask r) (k_interrupt_nest r) (k_lock_nest r) (k_current r) (k_current_priority r) (k_group r) (k_switch_flag r) (k_switch_from r) (k_switch_to r) (k_tick r) (k_objects r) (k_containers r) (k_threads r) (k_tlists r) (k_timers r) (k_tmlists r) v (k_random_nr r) (k_sems r) (k_mutexes r) (k_events r) (k_mailboxes r) (k_mqs r) (k_errno r) (k_idle r) (k_timer_thread r) (k_idle_hooks r).
Definition set_k_random_nr (v : Z) (r : kstate) : kstate :=
  mk_kstate (k_primask r) (k_interrupt_nest r) (k_lock_nest r) (k_current r) (k_current_priority r) (k_group r) (k_switch_flag r) (k_switch_from r) (k_switch_to r) (k_tick r) (k_objects r) (k_containers r) (k_threads r) (k_tlists r) (k_timers r) (k_tmlists r) (k_soft_timer_status r) v (k_sems r) (k_mutexes r) (k_events r) (k_mailboxes r) (k_mqs r) (k_errno r) (k_idle r) (k_timer_thread r) (k_idle_hooks r).
Definition set_k_sems (v : gmap ptr Z) (r : kstate) : kstate :=
  mk_kstate (k_primask r) (k_interrupt_nest r) (k_lock_nest r) (k_current r) (k_current_priority r) (k_group r) (k_switch_flag r) (k_switch_from r) (k_switch_to r) (k_tick r) (k_objects r) (k_containers r) (k_threads r) (k_tlists r) (k_timers r) (k_tmlists r) (k_soft_timer_status r) (k_random_nr r) v (k_mutexes r) (k_events r) (k_mailboxes r) (k_mqs r) (k_errno r) (k_idle r) (k_timer_thread r) (k_idle_hooks r).
Definition set_k_mutexes (v : gmap ptr rt_mutex) (r : kstate) : kstate :=
  mk_kstate (k_primask r) (k_interrupt_nest r) (k_lock_nest r) (k_current r) (k_current_priority r) (k_group r) (k_switch_flag r) (k_switch_from r) (k_switch_to r) (k_tick r) (k_objects r) (k_containers r) (k_threads r) (k_tlists r) (k_timers r) (k_tmlists r) (k_soft_timer_status r) (k_random_nr r) (k_sems r) v (k_events r) (k_mailboxes r) (k_mqs r) (k_errno r) (k_idle r) (k_timer_thread r) (k_idle_hooks r).
Definition set_k_events (v : gmap ptr Z) (r : kstate) : kstate :=
  mk_kstate (k_primask r) (k_interrupt_nest r) (k_lock_nest r) (k_current r) (k_current_priority r) (k_group r) (k_switch_flag r) (k_switch_from r) (k_switch_to r) (k_tick r) (k_objects r) (k_containers r) (k_threads r) (k_tlists r) (k_timers r) (k_tmlists r) (k_soft_timer_status r) (k_random_nr r) (k_sems r) (k_mutexes r) v (k_mailboxes r) (k_mqs r) (k_errno r) (k_idle r) (k_timer_thread r) (k_idle_hooks r).
Definition set_k_mailboxes (v : gmap ptr rt_mailbox) (r : kstate) : kstate :=
  mk_kstate (k_primask r) (k_interrupt_nest r) (k_lock_nest r) (k_current r) (k_current_priority r) (k_group r) (k_switch_flag r) (k_switch_from r) (k_switch_to r) (k_tick r) (k_objects r) (k_containers r) (k_threads r) (k_tlists r) (k_timers r) (k_tmlists r) (k_soft_timer_status r) (k_random_nr r) (k_sems r) (k_mutexes r) (k_events r) v (k_mqs r) (k_errno r) (k_idle r) (k_timer_thread r) (k_idle_hooks r).
Definition set_k_mqs (v : gmap ptr rt_messagequeue) (r : kstate) : kstate :=
  mk_kstate (k_primask r) (k_interrupt_nest r) (k_lock_nest r) (k_current r) (k_current_priority r) (k_group r) (k_switch_flag r) (k_switch_from r) (k_switch_to r) (k_tick r) (k_objects r) (k_containers r) (k_threads r) (k_tlists r) (k_timers r) (k_tmlists r) (k_soft_timer_status r) (k_random_nr r) (k_sems r) (k_mutexes r) (k_events r) (k_mailboxes r) v (k_errno r) (k_idle r) (k_timer_thread r) (k_idle_hooks r).
Definition set_k_errno (v : Z) (r : kstate) : kstate :=
  mk_kstate (k_primask r) (k_interrupt_nest r) (k_lock_nest r) (k_current r) (k_current_priority r) (k_group r) (k_switch_flag r) (k_switch_from r) (k_switch_to r) (k_tick r) (k_objects r) (k_containers r) (k_threads r) (k_tlists r) (k_timers r) (k_tmlists r) (k_soft_timer_status r) (k_random_nr r) (k_sems r) (k_mutexes r) (k_events r) (k_mailboxes r) (k_mqs r) v (k_idle r) (k_timer_thread r) (k_idle_hooks r).
Definition set_k_idle (v : ptr) (r : kstate) : kstate :=
  mk_kstate (k_primask r) (k_interrupt_nest r) (k_lock_nest r) (k_current r) (k_current_priority r) (k_group r) (k_switch_flag r) (k_switch_from r) (k_switch_to r) (k_tick r) (k_objects r) (k_containers r) (k_threads r) (k_tlists r) (k_timers r) (k_tmlists r) (k_soft_timer_status r) (k_random_nr r) (k_sems r) (k_mutexes r) (k_events r) (k_mailboxes r) (k_mqs r) (k_errno r) v (k_timer_thread r) (k_idle_hooks r).
Definition set_k_timer_thread (v : ptr) (r : kstate) : kstate :=
  mk_kstate (k_primask r) (k_interrupt_nest r) (k_lock_nest r) (k_current r) (k_current_priority r) (k_group r) (k_switch_flag r) (k_switch_from r) (k_switch_to r) (k_tick r) (k_objects r) (k_containers r) (k_threads r) (k_tlists r) (k_timers r) (k_tmlists r) (k_soft_timer_status r) (k_random_nr r) (k_sems r) (k_mutexes r) (k_events r) (k_mailboxes r) (k_mqs r) (k_errno r) (k_idle r) v (k_idle_hooks r).
Definition set_k_idle_hooks (v : list Z) (r : kstate) : kstate :=
  mk_kstate (k_primask r) (k_interrupt_nest r) (k_lock_nest r) (k_current r) (k_current_priority r) (k_group r) (k_switch_flag r) (k_switch_from r) (k_switch_to r) (k_tick r) (k_objects r) (k_containers r) (k_threads r) (k_tlists r) (k_timers r) (k_tmlists r) (k_soft_timer_status r) (k_random_nr r) (k_sems r) (k_mutexes r) (k_events r) (k_mailboxes r) (k_mqs r) (k_errno r) (k_idle r) (k_timer_thread r) v.

Notation K := (ST kstate) (only parsing).

(** ** Access to objects; a missing object is a fault *)

Definition get_object (o : ptr) : K rt_object :=
  λ s, from_option_or FNull (k_objects s !! o) s.
Definition upd_object (o : ptr) (f : rt_object → rt_object) : K unit :=
  x ← get_object o; modify (λ s, set_k_objects (<[o := f x]> (k_objects s)) s).
Definition get_thread (t : ptr) : K rt_thread :=
  λ s, from_option_or FNull (k_threads s !! t) s.
Definition upd_thread (t : ptr) (f : rt_thread → rt_thread) : K unit :=
  x ← get_thread t; modify (λ s, set_k_threads (<[t := f x]> (k_threads s)) s).
Definition get_timer (t : ptr) : K rt_timer :=
  λ s, from_option_or FNull (k_timers s !! t) s.
Definition upd_timer (t : ptr) (f : rt_timer → rt_timer) : K unit :=
  x ← get_timer t; modify (λ s, set_k_timers (<[t := f x]> (k_timers s)) s).
Definition get_sem (o : ptr) : K Z :=
  λ s, from_option_or FNull (k_sems s !! o) s.
Definition put_sem (o : ptr) (v : Z) : K unit :=
  modify (λ s, set_k_sems (<[o := v]> (k_sems s)) s).
Definition get_mutex (o : ptr) : K rt_mutex :=
  λ s, from_option_or FNull (k_mutexes s !! o) s.
Definition upd_mutex (o : ptr) (f : rt_mutex → rt_mutex) : K unit :=
  x ← get_mutex o; modify (λ s, set_k_mutexes (<[o := f x]> (k_mutexes s)) s).
Definition get_event (o : ptr) : K Z :=
  λ s, from_option_or FNull (k_events s !! o) s.
Definition put_event (o : ptr) (v : Z) : K unit :=
  modify (λ s, set_k_events (<[o := v]> (k_events s)) s).
Definition get_mailbox (o : ptr) : K rt_mailbox :=
  λ s, from_option_or FNull (k_mailboxes s !! o) s.
Definition upd_mailbox (o : ptr) (f : rt_mailbox → rt_mailbox) : K unit :=
  x ← get_mailbox o; modify (λ s, set_k_mailboxes (<[o := f x]> (k_mailboxes s)) s).
Definition get_mq (o : ptr) : K rt_messagequeue :=
  λ s, from_option_or FNull (k_mqs s !! o) s.
Definition upd_mq (o : ptr) (f : rt_messagequeue → rt_messagequeue) : K unit :=
  x ← get_mq o; modify (λ s, set_k_mqs (<[o := f x]> (k_mqs s)) s).

(** ** Interrupt masking: [PRIMASK] of the Cortex-M4 *)

Definition rt_hw_interrupt_disable : K Z :=
  level ← gets k_primask; modify (set_k_primask 1);; mret level.
Definition rt_hw_interrupt_enable (level : Z) : K unit :=
  modify (set_k_primask level).

Definition rt_thread_self : K ptr := gets k_current.
Definition rt_tick_get : K Z := gets k_tick.

(** The assertions of [rtdebug.h] on the calling context. *)
Definition RT_DEBUG_NOT_IN_INTERRUPT : K unit :=
  level ← rt_hw_interrupt_disable;
  nest ← gets k_interrupt_nest;
  rt_assert (nest =? 0);;
  rt_hw_interrupt_enable level.
Definition RT_DEBUG_IN_THREAD_CONTEXT : K unit :=
  level ← rt_hw_interrupt_disable;
  self ← rt_thread_self;
  rt_assert (negb (self =? RT_NULL));;
  RT_DEBUG_NOT_IN_INTERRUPT;;
  rt_hw_interrupt_enable level.

(** ** List operations on the two families of lists of the state *)

Definition tlist_isempty (h : thead) : K bool :=
  gets (λ s, Store.isempty h (k_tlists s)).
Definition tlist_first (h : thead) : K ptr :=
  λ s, from_option_or FNull (head (Store.nodes (k_tlists s) h)) s.
Definition tlist_init (h : thead) : K unit :=
  modify (λ s, set_k_tlists (Store.init h (k_tlists s)) s).
Definition tlist_remove (t : ptr) : K unit :=
  modify (λ s, set_k_tlists (Store.remove t (k_tlists s)) s).
Definition tlist_link (t : ptr)
    (f : gmap thead (list ptr) → gmap thead (list ptr)) : K unit :=
  S ← gets k_tlists;
  if decide (Store.unlinked S t) then modify (set_k_tlists (f S)) else fail FLinked.
Definition tlist_push_back (h : thead) (t : ptr) : K unit :=
  tlist_link t (Store.push_back h t).
Definition tlist_push_front (h : thead) (t : ptr) : K unit :=
  tlist_link t (Store.push_front h t).
Definition tlist_insert_before (h : thead) (m t : ptr) : K unit :=
  tlist_link t (Store.insert_before h m t).

Definition tmlist_isempty (h : tmhead) : K bool :=
  gets (λ s, Store.isempty h (k_tmlists s)).
Definition tmlist_first (h : tmhead) : K ptr :=
  λ s, from_option_or FNull (head (Store.nodes (k_tmlists s) h)) s.
Definition tmlist_init (h : tmhead) : K unit :=
  modify (λ s, set_k_tmlists (Store.init h (k_tmlists s)) s).
Definition tmlist_remove (t : ptr) : K unit :=
  modify (λ s, set_k_tmlists (Store.remove t (k_tmlists s)) s).
Definition tmlist_link (t : ptr)
    (f : gmap tmhead (list ptr) → gmap tmhead (list ptr)) : K unit :=
  S ← gets k_tmlists;
  if decide (Store.unlinked S t) then modify (set_k_tmlists (f S)) else fail FLinked.

(** ** Symbolic execution

    One equation [m s = Ok s' a] per primitive; [kstep] runs the first call
    of a sequence with the equation that applies to it. *)

Lemma get_object_ok s o x : k_objects s !! o = Some x → get_object o s = Ok s x.
Proof. unfold get_object. by intros ->. Qed.
Lemma get_thread_ok s t x : k_threads s !! t = Some x → get_thread t s = Ok s x.
Proof. unfold get_thread. by intros ->. Qed.
Lemma get_timer_ok s t x : k_timers s !! t = Some x → get_timer t s = Ok s x.
Proof. unfold get_timer. by intros ->. Qed.
Lemma get_sem_ok s o x : k_sems s !! o = Some x → get_sem o s = Ok s x.
Proof. unfold get_sem. by intros ->. Qed.
Lemma get_mutex_ok s o x : k_mutexes s !! o = Some x → get_mutex o s = Ok s x.
Proof. unfold get_mutex. by intros ->. Qed.
Lemma get_event_ok s o x : k_events s !! o = Some x → get_event o s = Ok s x.
Proof. unfold get_event. by intros ->. Qed.
Lemma get_mailbox_ok s o x : k_mailboxes s !! o = Some x → get_mailbox o s = Ok s x.
Proof. unfold get_mailbox. by intros ->. Qed.
Lemma get_mq_ok s o x : k_mqs s !! o = Some x → get_mq o s = Ok s x.
Proof. unfold get_mq. by intros ->. Qed.

Definition put_object (o : ptr) (x : rt_object) (s : kstate) : kstate :=
  set_k_objects (<[o := x]> (k_objects s)) s.
Definition put_thread (t : ptr) (x : rt_thread) (s : kstate) : kstate :=
  set_k_threads (<[t := x]> (k_threads s)) s.
Definition put_timer (t : ptr) (x : rt_timer) (s : kstate) : kstate :=
  set_k_timers (<[t := x]> (k_timers s)) s.
Definition put_mutex (o : ptr) (x : rt_mutex) (s : kstate) : kstate :=
  set_k_mutexes (<[o := x]> (k_mutexes s)) s.
Definition put_mailbox (o : ptr) (x : rt_mailbox) (s : kstate) : kstate :=
  set_k_mailboxes (<[o := x]> (k_mailboxes s)) s.
Definition put_mq (o : ptr) (x : rt_messagequeue) (s : kstate) : kstate :=
  set_k_mqs (<[o := x]> (k_mqs s)) s.

Lemma upd_object_ok s o f x :
  k_objects s !! o = Some x → upd_object o f s = Ok (put_object o (f x) s) tt.
Proof. intros Hx. unfold upd_object. by rewrite (bind_ok _ _ _ _ _ (get_object_ok _ _ _ Hx)). Qed.
Lemma upd_thread_ok s t f x :
  k_threads s !! t = Some x → upd_thread t f s = Ok (put_thread t (f x) s) tt.
Proof. intros Hx. unfold upd_thread. by rewrite (bind_ok _ _ _ _ _ (get_thread_ok _ _ _ Hx)). Qed.
Lemma upd_timer_ok s t f x :
  k_timers s !! t = Some x → upd_timer t f s = Ok (put_timer t (f x) s) tt.
Proof. intros Hx. unfold upd_timer. by rewrite (bind_ok _ _ _ _ _ (get_timer_ok _ _ _ Hx)). Qed.
Lemma upd_mutex_ok s o f x :
  k_mutexes s !! o = Some x → upd_mutex o f s = Ok (put_mutex o (f x) s) tt.
Proof. intros Hx. unfold upd_mutex. by rewrite (bind_ok _ _ _ _ _ (get_mutex_ok _ _ _ Hx)). Qed.
Lemma upd_mailbox_ok s o f x :
  k_mailboxes s !! o = Some x → upd_mailbox o f s = Ok (put_mailbox o (f x) s) tt.
Proof. intros Hx. unfold upd_mailbox. by rewrite (bind_ok _ _ _ _ _ (get_mailbox_ok _ _ _ Hx)). Qed.
Lemma upd_mq_ok s o f x :
  k_mqs s !! o = Some x → upd_mq o f s = Ok (put_mq o (f x) s) tt.
Proof. intros Hx. unfold upd_mq. by rewrite (bind_ok _ _ _ _ _ (get_mq_ok _ _ _ Hx)). Qed.

Lemma rt_assert_ok {S} (s : S) b : b = true → rt_assert b s = Ok s tt.
Proof. by intros ->. Qed.
Lemma when_true {S} (b : bool) (m : ST S unit) s : b = true → when b m s = m s.
Proof. by intros ->. Qed.
Lemma when_false {S} (b : bool) (m : ST S unit) s : b = false → when b m s = Ok s tt.
Proof. by intros ->. Qed.

Lemma tlist_link_ok s t f :
  Store.unlinked (k_tlists s) t →
  tlist_link t f s = Ok (set_k_tlists (f (k_tlists s)) s) tt.
Proof. intros Hu. unfold tlist_link, gets, mbind, ST_bind. by rewrite decide_True. Qed.
Lemma tmlist_link_ok s t f :
  Store.unlinked (k_tmlists s) t →
  tmlist_link t f s = Ok (set_k_tmlists (f (k_tmlists s)) s) tt.
Proof. intros Hu. unfold tmlist_link, gets, mbind, ST_bind. by rewrite decide_True. Qed.
Lemma tlist_first_ok s h t l :
  Store.nodes (k_tlists s) h = t :: l → tlist_first h s = Ok s t.
Proof. intros Hl. unfold tlist_first. by rewrite Hl. Qed.
Lemma tmlist_first_ok s h t l :
  Store.nodes (k_tmlists s) h = t :: l → tmlist_first h s = Ok s t.
Proof. intros Hl. unfold tmlist_first. by rewrite Hl. Qed.

(** Equations of composite calls, for [kstep]. *)
Create HintDb krun.

(** Solves [m !! k = Some ?x] for maps just written. *)
Ltac klookup :=
  cbn -[lookup insert Z.add];
  first [ rewrite lookup_insert_eq; reflexivity
        | eassumption
        | rewrite lookup_insert_ne by (done || lia); klookup ].

Ltac krun :=
  lazymatch goal with
  | |- get_object _ _ = _ => apply get_object_ok; klookup
  | |- get_thread _ _ = _ => apply get_thread_ok; klookup
  | |- get_timer _ _ = _ => apply get_timer_ok; klookup
  | |- get_sem _ _ = _ => apply get_sem_ok; klookup
  | |- get_mutex _ _ = _ => apply get_mutex_ok; klookup
  | |- get_event _ _ = _ => apply get_event_ok; klookup
  | |- get_mailbox _ _ = _ => apply get_mailbox_ok; klookup
  | |- get_mq _ _ = _ => apply get_mq_ok; klookup
  | |- upd_object _ _ _ = _ => apply upd_object_ok; klookup
  | |- upd_thread _ _ _ = _ => apply upd_thread_ok; klookup
  | |- upd_timer _ _ _ = _ => apply upd_timer_ok; klookup
  | |- upd_mutex _ _ _ = _ => apply upd_mutex_ok; klookup
  | |- upd_mailbox _ _ _ = _ => apply upd_mailbox_ok; klookup
  | |- upd_mq _ _ _ = _ => apply upd_mq_ok; klookup
  | |- rt_assert _ _ = _ => apply rt_assert_ok; solve [reflexivity | eauto with krun]
  | |- rt_hw_interrupt_disable _ = _ => reflexivity
  | |- rt_hw_interrupt_enable _ _ = _ => reflexivity
  | |- modify _ _ = _ => reflexivity
  | |- gets _ _ = _ => reflexivity
  | |- mret _ _ = _ => reflexivity
  | |- rt_thread_self _ = _ => reflexivity
  | |- rt_tick_get _ = _ => reflexivity
  | |- tlist_isempty _ _ = _ => reflexivity
  | |- tmlist_isempty _ _ = _ => reflexivity
  | |- tlist_remove _ _ = _ => reflexivity
  | |- tmlist_remove _ _ = _ => reflexivity
  | |- tlist_init _ _ = _ => reflexivity
  | |- tmlist_init _ _ = _ => reflexivity
  | |- put_sem _ _ _ = _ => reflexivity
  | |- put_event _ _ _ = _ => reflexivity
  | |- _ => solve [eauto with krun]
  end.

Lemma wp_step {S A B} (m : ST S A) (f : A → ST S B) Q s s' a :
  m s = Ok s' a → wp (f a) Q s' → wp (m ≫= f) Q s.
Proof. intros Hm. unfold wp, mbind, ST_bind. by rewrite Hm. Qed.

Ltac kstep :=
  lazymatch goal with
  | |- (?m ≫= ?f) ?s = _ =>
      erewrite (bind_ok m f s); [|solve [krun]]; cbv beta
  | |- wp (?m ≫= ?f) _ ?s =>
      eapply (wp_step m f); [solve [krun]|]; cbv beta
  end.
Ltac ksteps := repeat kstep.

