(* ===== verification/Kservice.v ===== *)
(** * Kernel service routines ([kservice.c], [cpuport.c]): find-first-set and C strings

    Strings are modelled as the bytes a pointer can reach up to, and not
    including, the terminating NUL; reading past them yields that NUL. *)

From Stdlib Require Import ZArith Lia.
From stdpp Require Import base list.
From S2P Require Import RTThread.
From S2P Require Import Prelude.

(** ** Find first set *)

(** [__builtin_ffs] on a 32-bit value: one plus the index of the least
    significant set bit, or zero. *)
Fixpoint ffs_from (n : nat) (i value : Z) : Z :=
  match n with
  | O => 0
  | S n' => if Z.testbit value i then i + 1 else ffs_from n' (i + 1) value
  end.
Definition __rt_ffs (value : Z) : Z := ffs_from 32 0 value.

(** The table and the routine of [kservice.c], used on CPUs without one. *)
Definition lowest_bit_bitmap : list Z :=
  [ 0; 0; 1; 0; 2; 0; 1; 0; 3; 0; 1; 0; 2; 0; 1; 0;
    4; 0; 1; 0; 2; 0; 1; 0; 3; 0; 1; 0; 2; 0; 1; 0;
    5; 0; 1; 0; 2; 0; 1; 0; 3; 0; 1; 0; 2; 0; 1; 0;
    4; 0; 1; 0; 2; 0; 1; 0; 3; 0; 1; 0; 2; 0; 1; 0;
    6; 0; 1; 0; 2; 0; 1; 0; 3; 0; 1; 0; 2; 0; 1; 0;
    4; 0; 1; 0; 2; 0; 1; 0; 3; 0; 1; 0; 2; 0; 1; 0;
    5; 0; 1; 0; 2; 0; 1; 0; 3; 0; 1; 0; 2; 0; 1; 0;
    4; 0; 1; 0; 2; 0; 1; 0; 3; 0; 1; 0; 2; 0; 1; 0;
    7; 0; 1; 0; 2; 0; 1; 0; 3; 0; 1; 0; 2; 0; 1; 0;
    4; 0; 1; 0; 2; 0; 1; 0; 3; 0; 1; 0; 2; 0; 1; 0;
    5; 0; 1; 0; 2; 0; 1; 0; 3; 0; 1; 0; 2; 0; 1; 0;
    4; 0; 1; 0; 2; 0; 1; 0; 3; 0; 1; 0; 2; 0; 1; 0;
    6; 0; 1; 0; 2; 0; 1; 0; 3; 0; 1; 0; 2; 0; 1; 0;
    4; 0; 1; 0; 2; 0; 1; 0; 3; 0; 1; 0; 2; 0; 1; 0;
    5; 0; 1; 0; 2; 0; 1; 0; 3; 0; 1; 0; 2; 0; 1; 0;
    4; 0; 1; 0; 2; 0; 1; 0; 3; 0; 1; 0; 2; 0; 1; 0 ].
Definition bitmap_at (i : Z) : Z := nth (Z.to_nat i) lowest_bit_bitmap 0.
Definition rt_ffs_table (value : Z) : Z :=
  if value =? 0 then 0
  else if negb (Z.land value 255 =? 0) then bitmap_at (Z.land value 255) + 1
  else if negb (Z.land value 65280 =? 0) then
    bitmap_at (Z.shiftr (Z.land value 65280) 8) + 9
  else if negb (Z.land value 16711680 =? 0) then
    bitmap_at (Z.shiftr (Z.land value 16711680) 16) + 17
  else bitmap_at (Z.shiftr (Z.land value 4278190080) 24) + 25.

(** ** Strings *)

(** The [n] bytes [rt_strncpy] stores at [dst]: the bytes of [src] up to its
    NUL, then NULs. *)
Fixpoint strncpy_bytes (src : list Z) (n : nat) : list Z :=
  match n with
  | O => []
  | S n' =>
      match src with
      | [] => 0 :: replicate n' 0
      | c :: src' =>
          if c =? 0 then 0 :: replicate n' 0 else c :: strncpy_bytes src' n'
      end
  end.
Definition rt_strncpy (dst src : list Z) (n : Z) : list Z :=
  strncpy_bytes src (Z.to_nat n) ++ drop (Z.to_nat n) dst.

(** A byte difference stored in the [signed char __res]. *)
Definition s8 (x : Z) : Z := (x + 128) mod 256 - 128.

Definition char_at (s : list Z) : Z := match s with [] => 0 | c :: _ => c end.

Fixpoint strncmp_loop (count : nat) (cs ct : list Z) (res : Z) : Z :=
  match count with
  | O => res
  | S count' =>
      let res' := s8 (char_at cs - char_at ct) in
      if negb (res' =? 0) || (char_at cs =? 0) then res'
      else strncmp_loop count' (tail cs) (tail ct) res'
  end.
Definition rt_strncmp (cs ct : list Z) (count : Z) : Z :=
  strncmp_loop (Z.to_nat count) cs ct 0.

(** ** Correctness of find-first-set *)

(** [r] is one plus the index of the least significant set bit of [value]. *)
Definition is_ffs (value r : Z) : Prop :=
  (r = 0 ∧ ∀ j, 0 ≤ j < 32 → Z.testbit value j = false) ∨
  (1 ≤ r ≤ 32 ∧ Z.testbit value (r - 1) = true ∧
   ∀ j, 0 ≤ j < r - 1 → Z.testbit value j = false).

Lemma is_ffs_unique value r1 r2 : is_ffs value r1 → is_ffs value r2 → r1 = r2.
Proof.
  intros [[-> H1]|(? & H1 & L1)] [[-> H2]|(? & H2 & L2)]; [done|..].
  - rewrite H1 in H2; [done|lia].
  - rewrite H2 in H1; [done|lia].
  - destruct (Z.lt_trichotomy r1 r2) as [?|[?|?]]; [|done|].
    + rewrite L2 in H1; [done|lia].
    + rewrite L1 in H2; [done|lia].
Qed.

Lemma ffs_from_spec n i value :
  (ffs_from n i value = 0 ∧ ∀ j, i ≤ j < i + Z.of_nat n → Z.testbit value j = false) ∨
  (i + 1 ≤ ffs_from n i value ≤ i + Z.of_nat n ∧
   Z.testbit value (ffs_from n i value - 1) = true ∧
   ∀ j, i ≤ j < ffs_from n i value - 1 → Z.testbit value j = false).
Proof.
  revert i. induction n as [|n IH]; intros i; simpl; [left; split; [done|lia]|].
  destruct (Z.testbit value i) eqn:Hi.
  { right. replace (i + 1 - 1) with i by lia. split; [lia|]. split; [done|]. lia. }
  assert (Hstep : ∀ j, i ≤ j → j = i ∨ i + 1 ≤ j) by lia.
  destruct (IH (i + 1)) as [[H0 Hj]|(? & ? & Hj)]; [left|right].
  - split; [done|]. intros j Hij. destruct (Hstep j) as [->| ]; [lia|done|apply Hj; lia].
  - split; [lia|]. split; [done|].
    intros j Hij. destruct (Hstep j) as [->| ]; [lia|done|apply Hj; lia].
Qed.

Lemma rt_ffs_spec value : is_ffs value (__rt_ffs value).
Proof.
  destruct (ffs_from_spec 32 0 value) as [[H0 Hj]|(? & ? & Hj)].
  - left. split; [done|]. intros. apply Hj. lia.
  - right. split; [unfold __rt_ffs; lia|]. done.
Qed.

(** Every entry of the table, by evaluation. *)
Lemma bitmap_spec b : 0 < b < 256 → bitmap_at b + 1 = __rt_ffs b.
Proof.
  intros Hb.
  assert (Hall : forallb (λ n, bitmap_at (Z.of_nat n) + 1 =? __rt_ffs (Z.of_nat n))
                   (seq 1 255) = true) by (vm_compute; reflexivity).
  rewrite forallb_forall in Hall. specialize (Hall (Z.to_nat b)).
  rewrite Z2Nat.id, Z.eqb_eq in Hall by lia. apply Hall, in_seq. lia.
Qed.

(** The byte of [value] at bit [8 * k], as the C code extracts it. *)
Lemma byte_testbit value k j :
  0 ≤ k → 0 ≤ j →
  Z.testbit (Z.shiftr (Z.land value (Z.shiftl 255 k)) k) j
  = Z.testbit value (j + k) && (j <? 8).
Proof.
  intros. rewrite Z.shiftr_spec, Z.land_spec, Z.shiftl_spec by lia. f_equal.
  replace (j + k - k) with j by lia. change 255 with (Z.ones 8).
  destruct (Z.ltb_spec j 8); [apply Z.ones_spec_low|apply Z.ones_spec_high]; lia.
Qed.

Lemma byte_bound value k :
  0 ≤ value → 0 ≤ k → 0 ≤ Z.shiftr (Z.land value (Z.shiftl 255 k)) k < 256.
Proof.
  intros. split; [apply Z.shiftr_nonneg, Z.land_nonneg; auto|].
  rewrite Z.shiftr_land, Z.shiftr_shiftl_l, Z.sub_diag, Z.shiftl_0_r by lia.
  change 255 with (Z.ones 8). rewrite Z.land_ones by lia.
  apply Z.mod_pos_bound. lia.
Qed.

Lemma byte_zero value k :
  0 ≤ k → Z.land value (Z.shiftl 255 k) = 0 →
  ∀ j, k ≤ j < k + 8 → Z.testbit value j = false.
Proof.
  intros Hk H0 j Hj. pose proof (byte_testbit value k (j - k)) as Hb.
  rewrite H0, Z.shiftr_0_l, Z.bits_0 in Hb.
  rewrite (proj2 (Z.ltb_lt (j - k) 8)), andb_true_r in Hb by lia.
  replace (j - k + k) with j in Hb by lia. symmetry. apply Hb; lia.
Qed.

Lemma byte_ffs value k :
  0 ≤ value → 0 ≤ k ≤ 24 → Z.land value (Z.shiftl 255 k) ≠ 0 →
  (∀ j, 0 ≤ j < k → Z.testbit value j = false) →
  is_ffs value (bitmap_at (Z.shiftr (Z.land value (Z.shiftl 255 k)) k) + 1 + k).
Proof.
  intros Hv Hk Hnz Hlow.
  pose proof (byte_bound value k Hv) as Hb.
  set (b := Z.shiftr (Z.land value (Z.shiftl 255 k)) k) in *.
  assert (b ≠ 0).
  { intros Hb0. apply Hnz. apply Z.bits_inj'. intros n Hn. rewrite Z.bits_0.
    destruct (Z.ltb_spec n k) as [Hlt|Hge].
    - rewrite Z.land_spec, Hlow by lia. done.
    - pose proof (Z.shiftr_spec (Z.land value (Z.shiftl 255 k)) k (n - k)) as Hs.
      fold b in Hs. rewrite Hb0, Z.bits_0 in Hs.
      replace (n - k + k) with n in Hs by lia. rewrite Hs by lia. done. }
  rewrite bitmap_spec by lia.
  destruct (rt_ffs_spec b) as [[_ H0]|(Hr & Ht & Hl)].
  { exfalso. assert (b = 0) as ->; [|done]. apply Z.bits_inj'. intros n Hn.
    rewrite Z.bits_0. destruct (Z.ltb_spec n 32); [apply H0; lia|].
    unfold b. rewrite byte_testbit by lia.
    rewrite (proj2 (Z.ltb_ge n 8)) by lia. apply andb_false_r. }
  right. set (r := __rt_ffs b) in *. unfold b in Ht, Hl.
  rewrite byte_testbit in Ht by lia. apply andb_true_iff in Ht as [Ht Hr8].
  apply Z.ltb_lt in Hr8. split; [lia|]. split; [rewrite <- Ht; f_equal; lia|].
  intros j Hj. destruct (Z.ltb_spec j k); [apply Hlow; lia|].
  pose proof (Hl (j - k)) as Hjk. rewrite byte_testbit in Hjk by lia.
  rewrite (proj2 (Z.ltb_lt (j - k) 8)), andb_true_r in Hjk by lia.
  replace (j - k + k) with j in Hjk by lia. apply Hjk. lia.
Qed.

(** The table lookup of [kservice.c] computes find-first-set on every 32-bit
    value, like the compiler built-in the Cortex-M port uses. *)
Theorem rt_ffs_table_correct value :
  0 ≤ value < 2 ^ 32 → rt_ffs_table value = __rt_ffs value.
Proof.
  intros Hv. apply (is_ffs_unique value); [|apply rt_ffs_spec].
  unfold rt_ffs_table.
  destruct (Z.eqb_spec value 0) as [->|Hv0].
  { left. split; [done|]. intros. apply Z.bits_0. }
  change 65280 with (Z.shiftl 255 8). change 16711680 with (Z.shiftl 255 16).
  change 4278190080 with (Z.shiftl 255 24).
  assert (L0 : ∀ j, 0 ≤ j < 0 → Z.testbit value j = false) by lia.
  destruct (Z.eqb_spec (Z.land value 255) 0) as [H0|H0]; simpl.
  2:{ pose proof (byte_ffs value 0) as Hb.
      rewrite Z.shiftr_0_r, Z.shiftl_0_r, Z.add_0_r in Hb. apply Hb; lia || done. }
  pose proof (byte_zero value 0) as Hz0. rewrite Z.shiftl_0_r in Hz0.
  assert (L1 : ∀ j, 0 ≤ j < 8 → Z.testbit value j = false) by (intros; apply Hz0; lia).
  destruct (Z.eqb_spec (Z.land value (Z.shiftl 255 8)) 0) as [H1|H1]; simpl.
  2:{ pose proof (byte_ffs value 8) as Hb. rewrite <- Z.add_assoc in Hb.
      apply Hb; lia || done. }
  assert (L2 : ∀ j, 0 ≤ j < 16 → Z.testbit value j = false).
  { intros j Hj. destruct (Z.ltb_spec j 8); [auto with lia|].
    apply (byte_zero value 8); lia. }
  destruct (Z.eqb_spec (Z.land value (Z.shiftl 255 16)) 0) as [H2|H2]; simpl.
  2:{ pose proof (byte_ffs value 16) as Hb. rewrite <- Z.add_assoc in Hb.
      apply Hb; lia || done. }
  assert (L3 : ∀ j, 0 ≤ j < 24 → Z.testbit value j = false).
  { intros j Hj. destruct (Z.ltb_spec j 16); [auto with lia|].
    apply (byte_zero value 16); lia. }
  pose proof (byte_ffs value 24) as Hb. rewrite <- Z.add_assoc in Hb.
  apply Hb; try lia; [|done]. intros H3. apply Hv0.
  apply Z.bits_inj'. intros n Hn. rewrite Z.bits_0.
  destruct (Z.ltb_spec n 24); [auto with lia|].
  destruct (Z.ltb_spec n 32); [apply (byte_zero value 24); lia|].
  rewrite <- (Z.mod_small value (2 ^ 32)) by lia.
  apply Z.mod_pow2_bits_high. lia.
Qed.
Example rt_ffs_table_correct_witness :
  0 ≤ 2684354560 < 2 ^ 32 ∧ rt_ffs_table 2684354560 = __rt_ffs 2684354560.
Proof. split; [lia|]. apply (rt_ffs_table_correct 2684354560). lia. Defined.
