(* ===== verification/KMemory.v ===== *)
(** * The memory routines of [kservice.c]

    Memory is the list of its bytes, an address the index of a byte. Words are
    four bytes, least significant first, and are only accessed at addresses that
    are multiples of four, as the processor and the code require. *)

From Stdlib Require Import ZArith Lia.
From stdpp Require Import base list.
From S2P Require Import RTThread.
From S2P Require Import Prelude.
From S2P Require Import Bytes.

Notation B := (ST (list Z)) (only parsing).

(** ** Accesses *)

Definition store_bytes (a : Z) (bs : list Z) : B unit :=
  m ← get;
  m' ← from_option_or FBounds (wr m a bs);
  modify (λ _, m').
Definition store8 (a v : Z) : B unit := store_bytes a [u8 v].
Definition load8 (a : Z) : B Z :=
  m ← get;
  bs ← from_option_or FBounds (rd m a 1);
  mret (nth 0 bs 0).

Definition le32 (w : Z) : list Z :=
  [u8 w; u8 (Z.shiftr w 8); u8 (Z.shiftr w 16); u8 (Z.shiftr w 24)].
Definition of_le32 (bs : list Z) : Z :=
  nth 0 bs 0 + Z.shiftl (nth 1 bs 0) 8 + Z.shiftl (nth 2 bs 0) 16 + Z.shiftl (nth 3 bs 0) 24.
Definition store32 (a w : Z) : B unit :=
  if a mod 4 =? 0 then store_bytes a (le32 w) else fail FBounds.
Definition load32 (a : Z) : B Z :=
  if a mod 4 =? 0 then
    m ← get;
    bs ← from_option_or FBounds (rd m a 4);
    mret (of_le32 bs)
  else fail FBounds.

(** ** [rt_memset] *)

Definition LBLOCKSIZE : Z := 4.

(** [while (count >= LBLOCKSIZE * 4)]: the address and the count left. *)
Fixpoint set_blocks (fuel : nat) (buffer a count : Z) : B (Z * Z) :=
  match fuel with
  | O => fail FHang
  | S fuel' =>
      if LBLOCKSIZE * 4 <=? count then
        store32 a buffer;;
        store32 (a + 4) buffer;;
        store32 (a + 8) buffer;;
        store32 (a + 12) buffer;;
        set_blocks fuel' buffer (a + 16) (count - 4 * LBLOCKSIZE)
      else mret (a, count)
  end.
(** [while (count >= LBLOCKSIZE)] *)
Fixpoint set_words (fuel : nat) (buffer a count : Z) : B (Z * Z) :=
  match fuel with
  | O => fail FHang
  | S fuel' =>
      if LBLOCKSIZE <=? count then
        store32 a buffer;;
        set_words fuel' buffer (a + 4) (count - LBLOCKSIZE)
      else mret (a, count)
  end.
(** [while (count--)] *)
Fixpoint set_bytes (n : nat) (d a : Z) : B unit :=
  match n with
  | O => mret ()
  | S n' => store8 a d;; set_bytes n' d (a + 1)
  end.

Definition rt_memset (s c count : Z) : B Z :=
  let d := Z.land c 255 in
  let fuel := S (Z.to_nat count) in
  r ← (if negb (count <? LBLOCKSIZE) && (Z.land s (LBLOCKSIZE - 1) =? 0) then
         let buffer := Z.lor (u32 (Z.shiftl d 8)) d in
         let buffer := Z.lor buffer (u32 (Z.shiftl buffer 16)) in
         r ← set_blocks fuel buffer s count;
         let '(a, count) := r in
         set_words fuel buffer a count
       else mret (s, count));
  let '(m, count) := r in
  set_bytes (Z.to_nat count) d m;;
  mret s.

(** ** [rt_memcpy]

    [int len] is compared with [sizeof] values, hence as an unsigned number. *)

Definition BIGBLOCKSIZE : Z := 16.

Definition copy_word (dst src : Z) : B unit := w ← load32 src; store32 dst w.
Definition copy_byte (dst src : Z) : B unit := b ← load8 src; store8 dst b.

Fixpoint copy_blocks (fuel : nat) (dst src len : Z) : B (Z * Z * Z) :=
  match fuel with
  | O => fail FHang
  | S fuel' =>
      if BIGBLOCKSIZE <=? u32 len then
        copy_word dst src;;
        copy_word (dst + 4) (src + 4);;
        copy_word (dst + 8) (src + 8);;
        copy_word (dst + 12) (src + 12);;
        copy_blocks fuel' (dst + 16) (src + 16) (s32 (u32 len - BIGBLOCKSIZE))
      else mret (dst, src, len)
  end.
Fixpoint copy_words (fuel : nat) (dst src len : Z) : B (Z * Z * Z) :=
  match fuel with
  | O => fail FHang
  | S fuel' =>
      if LBLOCKSIZE <=? u32 len then
        copy_word dst src;;
        copy_words fuel' (dst + 4) (src + 4) (s32 (u32 len - LBLOCKSIZE))
      else mret (dst, src, len)
  end.
Fixpoint copy_bytes_up (n : nat) (dst src : Z) : B unit :=
  match n with
  | O => mret ()
  | S n' => copy_byte dst src;; copy_bytes_up n' (dst + 1) (src + 1)
  end.

Definition rt_memcpy (dst src count : Z) : B Z :=
  let len := s32 count in
  let fuel := S (Z.to_nat (u32 len)) in
  r ← (if negb (u32 len <? BIGBLOCKSIZE) && (Z.lor (Z.land src 3) (Z.land dst 3) =? 0) then
         r ← copy_blocks fuel dst src len;
         let '(d, s, len) := r in
         copy_words fuel d s len
       else mret (dst, src, len));
  let '(d, s, len) := r in
  copy_bytes_up (Z.to_nat len) d s;;
  mret dst.

(** ** [rt_memmove] *)

(** [while (n--) *(--tmp) = *(--s)] *)
Fixpoint copy_bytes_down (n : nat) (tmp s : Z) : B unit :=
  match n with
  | O => mret ()
  | S n' => copy_byte (tmp - 1) (s - 1);; copy_bytes_down n' (tmp - 1) (s - 1)
  end.

Definition rt_memmove (dest src n : Z) : B Z :=
  (if (src <? dest) && (dest <? src + n) then copy_bytes_down (Z.to_nat n) (dest + n) (src + n)
   else copy_bytes_up (Z.to_nat n) dest src);;
  mret dest.

(** ** [rt_memcmp] *)

Fixpoint rt_memcmp_loop (n : nat) (su1 su2 : Z) : B Z :=
  match n with
  | O => mret 0
  | S n' =>
      b1 ← load8 su1;
      b2 ← load8 su2;
      if negb (b1 - b2 =? 0) then mret (b1 - b2) else rt_memcmp_loop n' (su1 + 1) (su2 + 1)
  end.
Definition rt_memcmp (cs ct count : Z) : B Z := rt_memcmp_loop (Z.to_nat count) cs ct.

(** ** Lemmas on accesses *)

Lemma store_bytes_ok (m : list Z) a bs : 0 ≤ a → a + zlen bs ≤ zlen m →
  store_bytes a bs m = Ok (splice m a bs) tt.
Proof. intros. unfold store_bytes, get, mbind, ST_bind. by rewrite wr_ok. Qed.

Lemma rd_bind {A} (m : list Z) a n (f : list Z → B A) : 0 ≤ a → 0 ≤ n → a + n ≤ zlen m →
  (m ← get; bs ← from_option_or FBounds (rd m a n); f bs) m = f (slice m a n) m.
Proof. intros. unfold get, mbind, ST_bind. by rewrite rd_ok. Qed.

Lemma load8_ok (m : list Z) a : 0 ≤ a < zlen m → load8 a m = Ok m (byte m a).
Proof.
  intros. unfold load8. rewrite rd_bind by lia. unfold mret, ST_ret. f_equal.
  change (nth 0 (slice m a 1) 0) with (byte (slice m a 1) 0). rewrite byte_slice by lia. f_equal. lia.
Qed.

Lemma zlen_le32 w : zlen (le32 w) = 4.
Proof. done. Qed.

(** ** [rt_memset] fills *)

Section fill.
Context (m : list Z) (s d total : Z).
Hypothesis s_nonneg : 0 ≤ s.
Hypothesis fits : s + total ≤ zlen m.

(** The first [k] bytes have been written. *)
Definition filled (k : Z) : list Z := splice m s (replicate (Z.to_nat k) d).

Lemma zlen_filled k : 0 ≤ k ≤ total → zlen (filled k) = zlen m.
Proof. intros. unfold filled. apply zlen_splice; [done|]. rewrite zlen_replicate; lia. Qed.

Lemma fill_more k n : 0 ≤ k → 0 ≤ n → k + n ≤ total →
  store_bytes (s + k) (replicate (Z.to_nat n) d) (filled k) = Ok (filled (k + n)) tt.
Proof.
  intros. rewrite store_bytes_ok by (rewrite ?zlen_filled, ?zlen_replicate; lia). f_equal. unfold filled.
  replace (s + k) with (s + zlen (replicate (Z.to_nat k) d)) by (rewrite zlen_replicate; lia).
  rewrite splice_splice_app by (rewrite ?zlen_replicate; lia).
  by rewrite <- replicate_add, Z2Nat.inj_add by lia.
Qed.

Lemma fill_word k buffer : le32 buffer = replicate 4 d →
  0 ≤ k → k + 4 ≤ total → (s + k) mod 4 = 0 →
  store32 (s + k) buffer (filled k) = Ok (filled (k + 4)) tt.
Proof.
  intros Hb ?? Ha. unfold store32. rewrite (proj2 (Z.eqb_eq _ _) Ha), Hb. by apply (fill_more k 4).
Qed.

Lemma set_words_ok fuel buffer k : le32 buffer = replicate 4 d →
  0 ≤ k ≤ total → total - k < Z.of_nat fuel → (s + k) mod 4 = 0 →
  ∃ k', set_words fuel buffer (s + k) (total - k) (filled k) = Ok (filled k') (s + k', total - k') ∧
    k ≤ k' ≤ total.
Proof.
  intros Hb. revert k. induction fuel as [|fuel IH]; intros k Hk Hf Ha; [lia|]. simpl.
  destruct (Z.leb_spec LBLOCKSIZE (total - k)) as [Hle|]; [|exists k; split; [done|lia]].
  unfold LBLOCKSIZE in *. rewrite (bind_ok _ _ _ _ _ (fill_word k buffer Hb ltac:(lia) ltac:(lia) Ha)).
  replace (s + k + 4) with (s + (k + 4)) by lia. replace (total - k - 4) with (total - (k + 4)) by lia.
  destruct (IH (k + 4)) as (k' & -> & ?); [lia|lia| |by exists k'; split; [done|lia]].
  replace (s + (k + 4)) with (s + k + 1 * 4) by lia. by rewrite Z.mod_add.
Qed.

Lemma set_blocks_ok fuel buffer k : le32 buffer = replicate 4 d →
  0 ≤ k ≤ total → total - k < Z.of_nat fuel → (s + k) mod 4 = 0 →
  ∃ k', set_blocks fuel buffer (s + k) (total - k) (filled k) = Ok (filled k') (s + k', total - k') ∧
    k ≤ k' ≤ total ∧ (s + k') mod 4 = 0.
Proof.
  intros Hb. revert k. induction fuel as [|fuel IH]; intros k Hk Hf Ha; [lia|]. simpl set_blocks.
  destruct (Z.leb_spec (LBLOCKSIZE * 4) (total - k)) as [Hle|]; [|exists k; split; [done|lia]].
  unfold LBLOCKSIZE in *.
  assert (Hmod : ∀ j, (s + (k + j * 4)) mod 4 = 0).
  { intros j. replace (s + (k + j * 4)) with (s + k + j * 4) by lia. by rewrite Z.mod_add. }
  rewrite (bind_ok _ _ _ _ _ (fill_word k buffer Hb ltac:(lia) ltac:(lia) Ha)).
  replace (s + k + 4) with (s + (k + 4)) by lia. replace (s + k + 8) with (s + (k + 8)) by lia.
  replace (s + k + 12) with (s + (k + 12)) by lia. replace (s + k + 16) with (s + (k + 16)) by lia.
  rewrite (bind_ok _ _ _ _ _ (fill_word (k + 4) buffer Hb ltac:(lia) ltac:(lia) (Hmod 1))).
  replace (k + 4 + 4) with (k + 8) by lia.
  rewrite (bind_ok _ _ _ _ _ (fill_word (k + 8) buffer Hb ltac:(lia) ltac:(lia) (Hmod 2))).
  replace (k + 8 + 4) with (k + 12) by lia.
  rewrite (bind_ok _ _ _ _ _ (fill_word (k + 12) buffer Hb ltac:(lia) ltac:(lia) (Hmod 3))).
  replace (k + 12 + 4) with (k + 16) by lia. replace (total - k - 4 * 4) with (total - (k + 16)) by lia.
  destruct (IH (k + 16)) as (k' & -> & ? & ?); [lia|lia|exact (Hmod 4)|exists k'; split; [done|lia]].
Qed.

Lemma set_bytes_ok n k : u8 d = d → 0 ≤ k → k + Z.of_nat n = total →
  set_bytes n d (s + k) (filled k) = Ok (filled total) tt.
Proof.
  intros Hd. revert k. induction n as [|n IH]; intros k ??.
  { simpl. replace k with total by lia. done. }
  simpl. unfold store8. rewrite Hd. change [d] with (replicate (Z.to_nat 1) d).
  rewrite (bind_ok _ _ _ _ _ (fill_more k 1 ltac:(lia) ltac:(lia) ltac:(lia))).
  replace (s + k + 1) with (s + (k + 1)) by lia. apply IH; lia.
Qed.
End fill.

(** The word built from a byte holds it four times: every byte, by evaluation. *)
Definition memset_buffer (d : Z) : Z :=
  let buffer := Z.lor (u32 (Z.shiftl d 8)) d in
  Z.lor buffer (u32 (Z.shiftl buffer 16)).
Lemma buffer_bytes d : 0 ≤ d < 256 → le32 (memset_buffer d) = replicate 4 d.
Proof.
  intros Hd.
  assert (forallb (λ n : nat, bool_decide (le32 (memset_buffer (Z.of_nat n)) = replicate 4 (Z.of_nat n)))
    (seq 0 256) = true) as H by (vm_compute; reflexivity).
  rewrite forallb_forall in H. specialize (H (Z.to_nat d) ltac:(apply in_seq; lia)).
  rewrite Z2Nat.id in H by lia. by apply bool_decide_eq_true in H.
Qed.

Lemma land_byte c : Z.land c 255 = u8 c.
Proof. change 255 with (Z.ones 8). by rewrite Z.land_ones. Qed.
Lemma land_3 a : Z.land a 3 = a mod 4.
Proof. change 3 with (Z.ones 2). by rewrite Z.land_ones. Qed.
Lemma filled_0 m s d : 0 ≤ s → filled m s d 0 = m.
Proof. intros. unfold filled. simpl. by apply splice_nil. Qed.

Lemma rt_memset_ok m s c count :
  0 ≤ s → 0 ≤ count → s + count ≤ zlen m →
  rt_memset s c count m = Ok (splice m s (replicate (Z.to_nat count) (u8 c))) s.
Proof.
  intros Hs Hc Hfit. unfold rt_memset. rewrite land_byte.
  pose proof (Z.mod_pos_bound c (2 ^ 8) eq_refl) as Hd. change (c mod 2 ^ 8) with (u8 c) in Hd.
  assert (u8 (u8 c) = u8 c) as Hdd by (apply Z.mod_small; lia). set (d := u8 c) in *. clearbody d.
  set (wide := if _ && _ then _ else _).
  assert (∃ k, wide m = Ok (filled m s d k) (s + k, count - k) ∧ 0 ≤ k ≤ count) as (k & Hw & Hk).
  { unfold wide. destruct (negb _ && _) eqn:Hwide;
      [|exists 0; rewrite filled_0, Z.add_0_r, Z.sub_0_r by lia; split; [done|lia]].
    apply andb_prop in Hwide as [_ Ha]. apply Z.eqb_eq in Ha.
    change (Z.land s (LBLOCKSIZE - 1)) with (Z.land s 3) in Ha. rewrite land_3 in Ha.
    change (Z.lor _ _) with (memset_buffer d). pose proof (buffer_bytes d ltac:(lia)) as Hb.
    destruct (set_blocks_ok m s d count Hs Hfit (S (Z.to_nat count)) _ 0 Hb) as (k & Hset & ? & Hm);
      [lia|lia|by rewrite Z.add_0_r|].
    rewrite Z.add_0_r, Z.sub_0_r, filled_0 in Hset by lia. rewrite (bind_ok _ _ _ _ _ Hset). cbv iota beta.
    destruct (set_words_ok m s d count Hs Hfit (S (Z.to_nat count)) _ k Hb) as (k' & -> & ?);
      [lia|lia|done|]. exists k'. split; [done|lia]. }
  rewrite (bind_ok _ _ _ _ _ Hw). cbv iota beta.
  by rewrite (bind_ok _ _ _ _ _ (set_bytes_ok m s d count Hs Hfit (Z.to_nat (count - k)) k
    Hdd ltac:(lia) ltac:(lia))).
Qed.
(** [rt_memset] fills exactly the [count] bytes at [s] with the low byte of its
    value, whatever the alignment and the length, by words or by bytes; it
    changes nothing else and returns [s]. *)
Theorem rt_memset_spec m s c count :
  0 ≤ s → 0 ≤ count → s + count ≤ zlen m →
  rt_memset s c count m = Ok (splice m s (replicate (Z.to_nat count) (u8 c))) s.
Proof. apply rt_memset_ok. Qed.

(** ** Copies *)

Definition is_byte (b : Z) : Prop := 0 ≤ b < 256.

Lemma le32_of_le32 b0 b1 b2 b3 : is_byte b0 → is_byte b1 → is_byte b2 → is_byte b3 →
  le32 (of_le32 [b0; b1; b2; b3]) = [b0; b1; b2; b3].
Proof.
  unfold is_byte. intros. unfold le32, of_le32, u8. simpl nth.
  rewrite !Z.shiftl_mul_pow2, !Z.shiftr_div_pow2 by lia.
  repeat f_equal; Z.to_euclidean_division_equations; lia.
Qed.
Lemma le32_of_slice m a : Forall is_byte m → 0 ≤ a → a + 4 ≤ zlen m →
  le32 (of_le32 (slice m a 4)) = slice m a 4.
Proof.
  intros Hm Ha Hl. assert (Forall is_byte (slice m a 4)) as Hf by (by apply Forall_take, Forall_drop).
  assert (zlen (slice m a 4) = 4) as Hz by (apply zlen_slice; lia).
  destruct (slice m a 4) as [|b0 [|b1 [|b2 [|b3 [|]]]]]; try (exfalso; unfold zlen in Hz; simpl in Hz; lia).
  rewrite !Forall_cons in Hf. destruct Hf as (? & ? & ? & ? & _). by apply le32_of_le32.
Qed.
Lemma splice_slice_byte m a b : 0 ≤ a → a + zlen b ≤ zlen m → Forall is_byte m → Forall is_byte b →
  Forall is_byte (splice m a b).
Proof.
  intros. unfold splice. rewrite !Forall_app. split_and!; [by apply Forall_take|done|by apply Forall_drop].
Qed.

Section copy.
Context (m : list Z) (dst src total : Z).
Hypothesis bytes : Forall is_byte m.
Hypothesis dst_in : 0 ≤ dst ∧ dst + total ≤ zlen m.
Hypothesis src_in : 0 ≤ src ∧ src + total ≤ zlen m.
(** The copy may go forward: the destination does not start inside the source. *)
Hypothesis forward : dst ≤ src ∨ src + total ≤ dst.

(** The first [k] bytes have been copied. *)
Definition copied (k : Z) : list Z := splice m dst (slice m src k).

Lemma zlen_copied k : 0 ≤ k ≤ total → zlen (copied k) = zlen m.
Proof. intros. unfold copied. apply zlen_splice; [lia|]. rewrite zlen_slice; lia. Qed.
Lemma bytes_copied k : 0 ≤ k ≤ total → Forall is_byte (copied k).
Proof.
  intros. apply splice_slice_byte; [lia|rewrite zlen_slice; lia|done|by apply Forall_take, Forall_drop].
Qed.
(** What is left to copy has not been overwritten. *)
Lemma source_kept k n : 0 ≤ k → 0 ≤ n → k + n ≤ total →
  slice (copied k) (src + k) n = slice m (src + k) n.
Proof. intros. apply slice_splice_other; rewrite ?zlen_slice; lia. Qed.
Lemma copy_more k n : 0 ≤ k → 0 ≤ n → k + n ≤ total →
  store_bytes (dst + k) (slice m (src + k) n) (copied k) = Ok (copied (k + n)) tt.
Proof.
  intros. rewrite store_bytes_ok by (rewrite ?zlen_copied, ?zlen_slice; lia). f_equal. unfold copied.
  replace (dst + k) with (dst + zlen (slice m src k)) by (rewrite zlen_slice; lia).
  rewrite splice_splice_app by (rewrite ?zlen_slice; lia).
  rewrite (slice_split m src (k + n) k) by lia. do 3 f_equal. lia.
Qed.

Lemma copy_byte_ok k : 0 ≤ k < total →
  copy_byte (dst + k) (src + k) (copied k) = Ok (copied (k + 1)) tt.
Proof.
  intros. unfold copy_byte.
  rewrite (bind_ok _ _ _ _ _ (load8_ok (copied k) (src + k) ltac:(rewrite zlen_copied; lia))).
  unfold store8. rewrite <- (copy_more k 1) by lia. f_equal.
  assert (slice m (src + k) 1 = [byte (slice m (src + k) 1) 0]) as ->.
  { assert (zlen (slice m (src + k) 1) = 1) as Hz by (apply zlen_slice; lia).
    destruct (slice m (src + k) 1) as [|b [|]]; unfold zlen in Hz; simpl in Hz; by try lia. }
  f_equal. rewrite <- source_kept, byte_slice, Z.add_0_r by lia. apply Z.mod_small.
  pose proof (bytes_copied k ltac:(lia)) as Hf. rewrite List.Forall_forall in Hf. apply Hf.
  apply nth_In. pose proof (zlen_copied k ltac:(lia)). unfold zlen in *. lia.
Qed.
Lemma copy_word_ok k : 0 ≤ k → k + 4 ≤ total → (dst + k) mod 4 = 0 → (src + k) mod 4 = 0 →
  copy_word (dst + k) (src + k) (copied k) = Ok (copied (k + 4)) tt.
Proof.
  intros ?? Hd Hs. unfold copy_word, load32, store32.
  rewrite (proj2 (Z.eqb_eq _ _) Hd), (proj2 (Z.eqb_eq _ _) Hs).
  assert (∀ f : Z → B unit, (w ← (m0 ← get; bs ← from_option_or FBounds (rd m0 (src + k) 4); mret (of_le32 bs)); f w)
    (copied k) = f (of_le32 (slice m (src + k) 4)) (copied k)) as ->.
  { intros f. unfold get, mbind, ST_bind. rewrite rd_ok by (rewrite ?zlen_copied; lia). simpl.
    by rewrite source_kept by lia. }
  rewrite le32_of_slice by (done || lia). by apply copy_more.
Qed.

Lemma copy_up_ok n k : 0 ≤ k → k + Z.of_nat n = total →
  copy_bytes_up n (dst + k) (src + k) (copied k) = Ok (copied total) tt.
Proof.
  revert k. induction n as [|n IH]; intros k ??; [simpl; by replace k with total by lia|].
  simpl. rewrite (bind_ok _ _ _ _ _ (copy_byte_ok k ltac:(lia))), <- !Z.add_assoc. apply IH; lia.
Qed.

(** Both pointers are aligned [k] bytes into the copy. *)
Definition aligned (k : Z) : Prop := (dst + k) mod 4 = 0 ∧ (src + k) mod 4 = 0.
Lemma aligned_more k j : aligned k → aligned (k + j * 4).
Proof. unfold aligned. intros [??]. by rewrite !Z.add_assoc, !Z.mod_add. Qed.
Lemma copy_word_at k j : aligned k → 0 ≤ k → 0 ≤ j → k + j * 4 + 4 ≤ total →
  copy_word (dst + k + j * 4) (src + k + j * 4) (copied (k + j * 4)) = Ok (copied (k + j * 4 + 4)) tt.
Proof.
  intros [??]%(aligned_more k j) ???. rewrite <- !Z.add_assoc. rewrite (Z.add_assoc k).
  by apply copy_word_ok; try lia.
Qed.

Lemma copy_words_ok fuel k : total < 2 ^ 31 → aligned k →
  0 ≤ k ≤ total → total - k < Z.of_nat fuel →
  ∃ k', copy_words fuel (dst + k) (src + k) (total - k) (copied k) =
    Ok (copied k') (dst + k', src + k', total - k') ∧ k ≤ k' ≤ total.
Proof.
  intros Hsmall. revert k. induction fuel as [|fuel IH]; intros k Ha Hk Hf; [lia|]. simpl.
  rewrite u32_small by lia.
  destruct (Z.leb_spec LBLOCKSIZE (total - k)) as [Hle|]; [|exists k; split; [done|lia]].
  unfold LBLOCKSIZE in *. rewrite s32_small by lia.
  pose proof (copy_word_at k 0 Ha) as Hw. rewrite Z.mul_0_l, !Z.add_0_r in Hw.
  rewrite (bind_ok _ _ _ _ _ (Hw ltac:(lia) ltac:(lia) ltac:(lia))), <- !Z.add_assoc.
  replace (total - k - 4) with (total - (k + 4)) by lia.
  destruct (IH (k + 4) (aligned_more k 1 Ha)) as (k' & -> & ?); [lia|lia|exists k'; split; [done|lia]].
Qed.

Lemma copy_blocks_ok fuel k : total < 2 ^ 31 → aligned k →
  0 ≤ k ≤ total → total - k < Z.of_nat fuel →
  ∃ k', copy_blocks fuel (dst + k) (src + k) (total - k) (copied k) =
    Ok (copied k') (dst + k', src + k', total - k') ∧ k ≤ k' ≤ total ∧ aligned k'.
Proof.
  intros Hsmall. revert k. induction fuel as [|fuel IH]; intros k Ha Hk Hf; [lia|]. simpl.
  rewrite u32_small by lia.
  destruct (Z.leb_spec BIGBLOCKSIZE (total - k)) as [Hle|]; [|exists k; split; [done|by split; [lia|]]].
  unfold BIGBLOCKSIZE in *. rewrite s32_small by lia.
  pose proof (copy_word_at k 0 Ha ltac:(lia) ltac:(lia) ltac:(lia)) as H0.
  rewrite Z.mul_0_l, !Z.add_0_r in H0. rewrite (bind_ok _ _ _ _ _ H0).
  rewrite (bind_ok _ _ _ _ _ (copy_word_at k 1 Ha ltac:(lia) ltac:(lia) ltac:(lia))).
  replace (k + 1 * 4 + 4) with (k + 2 * 4) by lia.
  rewrite (bind_ok _ _ _ _ _ (copy_word_at k 2 Ha ltac:(lia) ltac:(lia) ltac:(lia))).
  replace (k + 2 * 4 + 4) with (k + 3 * 4) by lia.
  rewrite (bind_ok _ _ _ _ _ (copy_word_at k 3 Ha ltac:(lia) ltac:(lia) ltac:(lia))), <- !Z.add_assoc.
  replace (total - k - 16) with (total - (k + 16)) by lia.
  destruct (IH (k + 16) (aligned_more k 4 Ha)) as (k' & Hr & ? & ?); [lia|lia|].
  exists k'. by split; [|split; [lia|]].
Qed.
End copy.

Lemma copied_0 m dst src : 0 ≤ dst → copied m dst src 0 = m.
Proof. intros. by apply splice_nil. Qed.
Lemma lor_0 a b : Z.lor a b = 0 → a = 0 ∧ b = 0.
Proof. apply Z.lor_eq_0_iff. Qed.

Lemma rt_memcpy_ok m dst src count :
  Forall is_byte m → 0 ≤ dst → 0 ≤ src → 0 ≤ count < 2 ^ 31 →
  dst + count ≤ zlen m → src + count ≤ zlen m → dst ≤ src ∨ src + count ≤ dst →
  rt_memcpy dst src count m = Ok (splice m dst (slice m src count)) dst.
Proof.
  intros Hb Hd Hs Hc Hdf Hsf Hfw. unfold rt_memcpy. rewrite s32_small, u32_small by lia.
  set (wide := if _ && _ then _ else _).
  assert (∃ k, wide m = Ok (copied m dst src k) (dst + k, src + k, count - k) ∧ 0 ≤ k ≤ count)
    as (k & Hw & Hk).
  { unfold wide. destruct (negb _ && _) eqn:Hwide;
      [|exists 0; rewrite copied_0, !Z.add_0_r, Z.sub_0_r by lia; split; [done|lia]].
    apply andb_prop in Hwide as [_ Ha]. apply Z.eqb_eq, lor_0 in Ha as [Has Had]. rewrite land_3 in Has, Had.
    destruct (copy_blocks_ok m dst src count Hb (conj Hd Hdf) (conj Hs Hsf) Hfw (S (Z.to_nat count)) 0)
      as (k & Hcp & ? & Ha); [lia|by split; rewrite Z.add_0_r|lia|lia|].
    rewrite !Z.add_0_r, Z.sub_0_r, copied_0 in Hcp by lia. rewrite (bind_ok _ _ _ _ _ Hcp). cbv iota beta.
    destruct (copy_words_ok m dst src count Hb (conj Hd Hdf) (conj Hs Hsf) Hfw (S (Z.to_nat count)) k)
      as (k' & -> & ?); [lia|done|lia|lia|]. exists k'. split; [done|lia]. }
  rewrite (bind_ok _ _ _ _ _ Hw). cbv iota beta.
  by rewrite (bind_ok _ _ _ _ _ (copy_up_ok m dst src count Hb (conj Hd Hdf) (conj Hs Hsf) Hfw
    (Z.to_nat (count - k)) k ltac:(lia) ltac:(lia))).
Qed.
(** [rt_memcpy] moves the [count] bytes at [src] to [dst], by blocks of
    four words, by words or by bytes as the alignment allows, also when the
    areas overlap as long as [dst] does not lie inside the source. *)
Theorem rt_memcpy_spec m dst src count :
  Forall is_byte m → 0 ≤ dst → 0 ≤ src → 0 ≤ count < 2 ^ 31 →
  dst + count ≤ zlen m → src + count ≤ zlen m → dst ≤ src ∨ src + count ≤ dst →
  rt_memcpy dst src count m = Ok (splice m dst (slice m src count)) dst.
Proof. apply rt_memcpy_ok. Qed.

Lemma splice_splice_before (m xs ys : list Z) a :
  0 ≤ a → a + zlen xs + zlen ys ≤ zlen m →
  splice (splice m (a + zlen xs) ys) a xs = splice m a (xs ++ ys).
Proof.
  intros. pose proof (zlen_nonneg xs). pose proof (zlen_nonneg ys).
  apply byte_eq; [rewrite !zlen_splice; rewrite ?zlen_splice, ?zlen_app; lia|].
  rewrite zlen_splice by (rewrite ?zlen_splice; lia). rewrite zlen_splice by lia. intros i Hi.
  rewrite !byte_splice by (rewrite ?zlen_splice, ?zlen_app; lia). rewrite zlen_app.
  destruct (Z.leb_spec a i), (Z.leb_spec (a + zlen xs) i), (Z.ltb_spec i (a + zlen xs)),
    (Z.ltb_spec i (a + zlen xs + zlen ys)), (Z.ltb_spec i (a + (zlen xs + zlen ys)));
    simpl; try lia; try done; rewrite byte_app by lia.
  all: destruct (Z.ltb_spec (i - a) (zlen xs)); try lia; f_equal; lia.
Qed.

Section copy_down.
Context (m : list Z) (dst src total : Z).
Hypothesis bytes : Forall is_byte m.
Hypothesis dst_in : 0 ≤ dst ∧ dst + total ≤ zlen m.
Hypothesis src_in : 0 ≤ src ∧ src + total ≤ zlen m.
Hypothesis backward : src < dst.

(** The last bytes, from offset [k] on, have been copied. *)
Definition copied_from (k : Z) : list Z := splice m (dst + k) (slice m (src + k) (total - k)).

Lemma zlen_copied_from k : 0 ≤ k ≤ total → zlen (copied_from k) = zlen m.
Proof. intros. unfold copied_from. apply zlen_splice; [lia|]. rewrite zlen_slice; lia. Qed.

Lemma copy_byte_down_ok k : 0 < k ≤ total →
  copy_byte (dst + k - 1) (src + k - 1) (copied_from k) = Ok (copied_from (k - 1)) tt.
Proof.
  intros. unfold copy_byte.
  rewrite (bind_ok _ _ _ _ _ (load8_ok (copied_from k) (src + k - 1) ltac:(rewrite zlen_copied_from; lia))).
  assert (byte (copied_from k) (src + k - 1) = byte m (src + k - 1)) as ->.
  { unfold copied_from. rewrite byte_splice by (rewrite ?zlen_slice; lia).
    by rewrite (proj2 (Z.leb_gt (dst + k) _)) by lia. }
  assert (is_byte (byte m (src + k - 1))) as Hb.
  { rewrite List.Forall_forall in bytes. apply bytes, nth_In. unfold zlen in *. lia. }
  unfold store8. replace (u8 (byte m (src + k - 1))) with (byte m (src + k - 1))
    by (symmetry; by apply Z.mod_small).
  set (b := [byte m (src + k - 1)]). assert (zlen b = 1) as Hz by done.
  rewrite store_bytes_ok by (rewrite ?zlen_copied_from; lia). f_equal. unfold copied_from.
  replace (dst + k) with (dst + k - 1 + zlen b) at 1 by lia.
  rewrite splice_splice_before by (rewrite ?zlen_slice; lia).
  f_equal; [lia|]. rewrite (slice_split m (src + (k - 1)) (total - (k - 1)) 1) by lia.
  f_equal; [|f_equal; lia].
  apply byte_eq; [by rewrite zlen_slice by lia|]. intros i Hi.
  rewrite byte_slice by lia. replace i with 0 by lia. unfold b. cbn. f_equal. lia.
Qed.

Lemma copy_bytes_down_ok n k : k = Z.of_nat n → k ≤ total →
  copy_bytes_down n (dst + k) (src + k) (copied_from k) = Ok (copied_from 0) tt.
Proof.
  revert k. induction n as [|n IH]; intros k Hk ?; [simpl; by replace k with 0 by lia|].
  simpl. rewrite (bind_ok _ _ _ _ _ (copy_byte_down_ok k ltac:(lia))).
  rewrite <- !Z.add_sub_assoc. apply IH; lia.
Qed.
End copy_down.

Lemma rt_memmove_ok m dest src n :
  Forall is_byte m → 0 ≤ dest → 0 ≤ src → 0 ≤ n → dest + n ≤ zlen m → src + n ≤ zlen m →
  rt_memmove dest src n m = Ok (splice m dest (slice m src n)) dest.
Proof.
  intros Hb Hd Hs Hn Hdf Hsf. unfold rt_memmove.
  destruct (Z.ltb_spec src dest) as [Hlt|Hge]; simpl; [destruct (Z.ltb_spec dest (src + n))|].
  - pose proof (copy_bytes_down_ok m dest src n Hb (conj Hd Hdf) (conj Hs Hsf) Hlt (Z.to_nat n) n
      ltac:(lia) ltac:(lia)) as Hc.
    assert (copied_from m dest src n n = m) as E by (unfold copied_from; rewrite Z.sub_diag; apply splice_nil; lia).
    rewrite E in Hc. rewrite (bind_ok _ _ _ _ _ Hc). unfold copied_from. by rewrite !Z.add_0_r, Z.sub_0_r.
  - pose proof (copy_up_ok m dest src n Hb (conj Hd Hdf) (conj Hs Hsf) ltac:(lia) (Z.to_nat n) 0
      ltac:(lia) ltac:(lia)) as Hc.
    rewrite copied_0, !Z.add_0_r in Hc by lia. by rewrite (bind_ok _ _ _ _ _ Hc).
  - pose proof (copy_up_ok m dest src n Hb (conj Hd Hdf) (conj Hs Hsf) ltac:(lia) (Z.to_nat n) 0
      ltac:(lia) ltac:(lia)) as Hc.
    rewrite copied_0, !Z.add_0_r in Hc by lia. by rewrite (bind_ok _ _ _ _ _ Hc).
Qed.
(** [rt_memmove] moves the [n] bytes at [src] to [dest] whatever the overlap
    of the two areas: the destination ends with what the source held before. *)
Theorem rt_memmove_spec m dest src n :
  Forall is_byte m → 0 ≤ dest → 0 ≤ src → 0 ≤ n → dest + n ≤ zlen m → src + n ≤ zlen m →
  rt_memmove dest src n m = Ok (splice m dest (slice m src n)) dest.
Proof. apply rt_memmove_ok. Qed.

(** ** Comparison *)

Lemma rt_memcmp_loop_ok m n a b :
  0 ≤ a → 0 ≤ b → a + Z.of_nat n ≤ zlen m → b + Z.of_nat n ≤ zlen m →
  ∃ r, rt_memcmp_loop n a b m = Ok m r ∧
    ((r = 0 ∧ ∀ i, 0 ≤ i < Z.of_nat n → byte m (a + i) = byte m (b + i)) ∨
     (∃ i, 0 ≤ i < Z.of_nat n ∧ (∀ j, 0 ≤ j < i → byte m (a + j) = byte m (b + j)) ∧
       r = byte m (a + i) - byte m (b + i) ∧ r ≠ 0)).
Proof.
  revert a b. induction n as [|n IH]; intros a b Ha Hb Hla Hlb.
  { exists 0. split; [done|]. left. split; [done|lia]. }
  simpl. rewrite (bind_ok _ _ _ _ _ (load8_ok m a ltac:(lia))), (bind_ok _ _ _ _ _ (load8_ok m b ltac:(lia))).
  destruct (Z.eqb_spec (byte m a - byte m b) 0) as [Heq|Hne]; simpl.
  - assert (Hfirst : ∀ j k, (∀ i, 0 ≤ i < k → byte m (a + 1 + i) = byte m (b + 1 + i)) →
      0 ≤ j < k + 1 → byte m (a + j) = byte m (b + j)).
    { intros j k Hk Hj. destruct (Z.eqb_spec j 0) as [->|]; [rewrite !Z.add_0_r; lia|].
      specialize (Hk (j - 1)). replace (a + 1 + (j - 1)) with (a + j) in Hk by lia.
      replace (b + 1 + (j - 1)) with (b + j) in Hk by lia. apply Hk. lia. }
    destruct (IH (a + 1) (b + 1)) as (r & Hr & [[-> Hall]|(i & Hi & Hbefore & -> & Hn)]); try lia.
    + exists 0. split; [exact Hr|]. left. split; [done|]. intros. apply (Hfirst i (Z.of_nat n)); [done|lia].
    + eexists. split; [exact Hr|]. right. exists (i + 1).
      replace (a + (i + 1)) with (a + 1 + i) by lia. replace (b + (i + 1)) with (b + 1 + i) by lia.
      split_and!; [lia|lia| |done|done]. intros j Hj. apply (Hfirst j i); [done|lia].
  - eexists. split; [done|]. right. exists 0. rewrite !Z.add_0_r. split_and!; [lia|lia|lia|done|done].
Qed.

Lemma rt_memcmp_ok m cs ct count :
  0 ≤ cs → 0 ≤ ct → 0 ≤ count → cs + count ≤ zlen m → ct + count ≤ zlen m →
  ∃ r, rt_memcmp cs ct count m = Ok m r ∧
    ((r = 0 ∧ slice m cs count = slice m ct count) ∨
     (∃ i, 0 ≤ i < count ∧ slice m cs i = slice m ct i ∧
       r = byte m (cs + i) - byte m (ct + i) ∧ r ≠ 0)).
Proof.
  intros Hs Ht Hc Hls Hlt.
  assert (Heq : ∀ k, 0 ≤ k ≤ count → (∀ j, 0 ≤ j < k → byte m (cs + j) = byte m (ct + j)) →
    slice m cs k = slice m ct k).
  { intros k Hk Hj. apply byte_eq; [rewrite !zlen_slice; lia|]. rewrite zlen_slice by lia. intros i Hi.
    rewrite !byte_slice by lia. by apply Hj. }
  destruct (rt_memcmp_loop_ok m (Z.to_nat count) cs ct) as (r & Hr & Hcase); try lia.
  exists r. split; [done|]. destruct Hcase as [[-> Hall]|(i & Hi & Hb & -> & Hn)].
  - left. split; [done|]. apply Heq; [lia|]. intros. apply Hall. lia.
  - right. exists i. split_and!; [lia|lia| |done|done]. apply Heq; [lia|done].
Qed.
(** [rt_memcmp] gives zero when the two areas hold the same bytes, and the
    difference of the bytes at the first place where they differ otherwise; it
    reads nothing beyond the areas and changes nothing. *)
Theorem rt_memcmp_spec m cs ct count :
  0 ≤ cs → 0 ≤ ct → 0 ≤ count → cs + count ≤ zlen m → ct + count ≤ zlen m →
  ∃ r, rt_memcmp cs ct count m = Ok m r ∧
    ((r = 0 ∧ slice m cs count = slice m ct count) ∨
     (∃ i, 0 ≤ i < count ∧ slice m cs i = slice m ct i ∧
       r = byte m (cs + i) - byte m (ct + i) ∧ r ≠ 0)).
Proof. apply rt_memcmp_ok. Qed.
