(* ===== verification/KString.v ===== *)
(** * The string routines of [kservice.c]

    Strings in the memory of [KMemory]: a pointer is an index, a string runs up
    to its NUL. [char] is unsigned on the target. *)

From Stdlib Require Import ZArith Lia.
From stdpp Require Import base list.
From S2P Require Import RTThread.
From S2P Require Import Prelude.
From S2P Require Import Bytes.
From S2P Require Import KMemory.

Notation B := (ST (list Z)) (only parsing).

(** ** The routines

    The loops stop at a NUL or fault at the end of the memory: its length plus
    one is fuel enough. *)

Definition scan_fuel : B nat := m ← get; mret (S (length m)).

Fixpoint strlen_loop (fuel : nat) (s sc : Z) : B Z :=
  match fuel with
  | O => fail FHang
  | S fuel' =>
      c ← load8 sc;
      if negb (c =? 0) then strlen_loop fuel' s (sc + 1) else mret (sc - s)
  end.
Definition rt_strlen (s : Z) : B Z := fuel ← scan_fuel; strlen_loop fuel s s.

Fixpoint strnlen_loop (fuel : nat) (s maxlen sc : Z) : B Z :=
  match fuel with
  | O => fail FHang
  | S fuel' =>
      c ← load8 sc;
      if negb (c =? 0) && (u32 (sc - s) <? maxlen) then strnlen_loop fuel' s maxlen (sc + 1)
      else mret (sc - s)
  end.
Definition rt_strnlen (s maxlen : Z) : B Z := fuel ← scan_fuel; strnlen_loop fuel s maxlen s.

(** [*cs && *cs == *ct] *)
Definition strcmp_test (cs ct : Z) : B bool :=
  c ← load8 cs;
  if c =? 0 then mret false else c ← load8 cs; t ← load8 ct; mret (c =? t).
Fixpoint strcmp_loop (fuel : nat) (cs ct : Z) : B Z :=
  match fuel with
  | O => fail FHang
  | S fuel' =>
      go ← strcmp_test cs ct;
      if (go : bool) then strcmp_loop fuel' (cs + 1) (ct + 1)
      else c ← load8 cs; t ← load8 ct; mret (c - t)
  end.
Definition rt_strcmp (cs ct : Z) : B Z := fuel ← scan_fuel; strcmp_loop fuel cs ct.

(** [if (ca >= 'A' && ca <= 'Z') ca += 'a' - 'A'] *)
Definition to_lower (c : Z) : Z := if (65 <=? c) && (c <=? 90) then c + (97 - 65) else c.
Fixpoint strcasecmp_loop (fuel : nat) (a b : Z) : B Z :=
  match fuel with
  | O => fail FHang
  | S fuel' =>
      ca ← load8 a;
      cb ← load8 b;
      let ca := to_lower (Z.land ca 255) in
      let cb := to_lower (Z.land cb 255) in
      if (ca =? cb) && negb (ca =? 0) then strcasecmp_loop fuel' (a + 1) (b + 1)
      else mret (ca - cb)
  end.
Definition rt_strcasecmp (a b : Z) : B Z := fuel ← scan_fuel; strcasecmp_loop fuel a b.

(** [None] is [RT_NULL]. *)
Fixpoint strstr_loop (fuel : nat) (s1 s2 l1 l2 : Z) : B (option Z) :=
  match fuel with
  | O => fail FHang
  | S fuel' =>
      if l2 <=? l1 then
        r ← rt_memcmp s1 s2 l2;
        if r =? 0 then mret (Some s1) else strstr_loop fuel' (s1 + 1) s2 (l1 - 1) l2
      else mret None
  end.
Definition rt_strstr (s1 s2 : Z) : B (option Z) :=
  n2 ← rt_strlen s2;
  let l2 := s32 n2 in
  if l2 =? 0 then mret (Some s1)
  else n1 ← rt_strlen s1; let l1 := s32 n1 in strstr_loop (S (Z.to_nat l1)) s1 s2 l1 l2.

(** ** Strings in memory *)

(** The string [s] stands at [a]. *)
Inductive cstr (m : list Z) : Z → list Z → Prop :=
  | cstr_nil a : 0 ≤ a < zlen m → byte m a = 0 → cstr m a []
  | cstr_cons a c s : 0 ≤ a < zlen m → byte m a = c → c ≠ 0 → cstr m (a + 1) s → cstr m a (c :: s).

Lemma cstr_inside m a s : cstr m a s → 0 ≤ a ∧ a + zlen s < zlen m.
Proof.
  induction 1; [change (zlen (@nil Z)) with 0; lia|rewrite zlen_cons; lia].
Qed.
Lemma cstr_zlen m a s : cstr m a s → zlen s < zlen m.
Proof. intros H. destruct (cstr_inside _ _ _ H). lia. Qed.
Lemma cstr_load m a s : cstr m a s → load8 a m = Ok m (hd 0 s).
Proof. destruct 1 as [a ? <-|a c s ? <-]; by apply load8_ok. Qed.
Lemma cstr_slice m a s : cstr m a s → slice m a (zlen s) = s.
Proof.
  induction 1 as [|a c s Ha Hc Hn Hs IH]; [done|].
  destruct (cstr_inside _ _ _ Hs). pose proof (zlen_nonneg s).
  rewrite (slice_split m a _ 1), zlen_cons by (rewrite ?zlen_cons; lia).
  replace (1 + zlen s - 1) with (zlen s) by lia. rewrite IH.
  change (c :: s) with ([c] ++ s). f_equal.
  apply byte_eq; [by rewrite zlen_slice by lia|]. rewrite zlen_slice by lia. intros i Hi.
  rewrite byte_slice by lia. replace i with 0 by lia. rewrite Z.add_0_r. apply Hc.
Qed.
Lemma cstr_byte m a s : Forall is_byte m → cstr m a s → Forall is_byte s.
Proof. intros Hm Hs. rewrite <- (cstr_slice _ _ _ Hs). by apply Forall_take, Forall_drop. Qed.

(** One step of a loop on strings. *)
Ltac sload H := rewrite (bind_ok _ _ _ _ _ (cstr_load _ _ _ H)); simpl.

(** ** Lengths *)

Lemma strlen_loop_ok m s fuel a str : cstr m a str → zlen str < Z.of_nat fuel →
  strlen_loop fuel s a m = Ok m (a + zlen str - s).
Proof.
  intros H. revert fuel. induction H as [a ? Hz|a c str ? Hc Hn Hs IH]; intros fuel Hf;
    (destruct fuel as [|fuel]; [unfold zlen in Hf; simpl in Hf; lia|]); simpl;
    rewrite (bind_ok _ _ _ _ _ (load8_ok m a ltac:(lia))).
  - rewrite Hz. simpl. change (zlen (@nil Z)) with 0. by rewrite Z.add_0_r.
  - rewrite Hc. rewrite zlen_cons in *. destruct (Z.eqb_spec c 0); simpl; [done|].
    rewrite IH by lia. f_equal. lia.
Qed.
Lemma rt_strlen_ok m a s : cstr m a s → rt_strlen a m = Ok m (zlen s).
Proof.
  intros H. unfold rt_strlen, scan_fuel, get, mbind, ST_bind, mret, ST_ret.
  pose proof (cstr_zlen _ _ _ H). rewrite (strlen_loop_ok m a _ a s H) by (unfold zlen in *; lia).
  f_equal. lia.
Qed.

Lemma strnlen_loop_ok m s maxlen fuel a str : cstr m a str → zlen str < Z.of_nat fuel →
  s ≤ a → a + zlen str - s < 2 ^ 32 → a - s ≤ maxlen →
  strnlen_loop fuel s maxlen a m = Ok m (Z.min (a + zlen str - s) maxlen).
Proof.
  intros H. revert fuel. induction H as [a ? Hz|a c str ? Hc Hn Hs IH]; intros fuel Hf Ha Hb Hm;
    (destruct fuel as [|fuel]; [unfold zlen in Hf; simpl in Hf; lia|]); simpl;
    rewrite (bind_ok _ _ _ _ _ (load8_ok m a ltac:(lia))).
  - rewrite Hz. simpl. change (zlen (@nil Z)) with 0 in *. by rewrite Z.add_0_r, Z.min_l by lia.
  - rewrite Hc. rewrite zlen_cons in *. pose proof (zlen_nonneg str).
    rewrite u32_small by lia. destruct (Z.eqb_spec c 0); simpl; [done|].
    destruct (Z.ltb_spec (a - s) maxlen); [rewrite IH by lia|unfold mret, ST_ret]; f_equal; lia.
Qed.

(** [rt_strlen] gives the length of a string, and [rt_strnlen] that length
    cut at its bound. *)
Theorem rt_strnlen_spec m a s maxlen : cstr m a s → zlen m < 2 ^ 32 → 0 ≤ maxlen →
  rt_strlen a m = Ok m (zlen s) ∧ rt_strnlen a maxlen m = Ok m (Z.min (zlen s) maxlen).
Proof.
  intros H Hm ?. split; [by apply rt_strlen_ok|].
  unfold rt_strnlen, scan_fuel, get, mbind, ST_bind, mret, ST_ret.
  pose proof (cstr_zlen _ _ _ H). pose proof (cstr_inside _ _ _ H).
  rewrite (strnlen_loop_ok m a maxlen _ a s H) by (unfold zlen in *; lia). f_equal. lia.
Qed.

Lemma strnlen_runs_off m fuel a : (∀ i, 0 ≤ i < zlen m → byte m i ≠ 0) → zlen m < 2 ^ 32 →
  0 ≤ a ≤ zlen m → zlen m - a < Z.of_nat fuel → strnlen_loop fuel 0 (zlen m) a m = Err FBounds.
Proof.
  intros Hnz Hm. revert a. induction fuel as [|fuel IH]; intros a Ha Hf; [lia|]. simpl.
  destruct (Z.eqb_spec a (zlen m)) as [->|].
  - assert (load8 (zlen m) m = Err FBounds) as E; [|unfold mbind, ST_bind; by rewrite E].
    unfold load8, rd, get, mbind, ST_bind. rewrite (proj2 (Z.leb_gt (zlen m + 1) _)) by lia.
    by rewrite andb_false_r.
  - rewrite (bind_ok _ _ _ _ _ (load8_ok m a ltac:(lia))), u32_small by lia.
    destruct (Z.eqb_spec (byte m a) 0) as [E|]; [by apply Hnz in E; [|lia]|].
    rewrite (proj2 (Z.ltb_lt _ _)) by lia. simpl. apply IH; lia.
Qed.
(** On an area of [maxlen] bytes with no NUL, [rt_strnlen] reads the byte after
    the area before it looks at its bound. *)
Theorem rt_strnlen_reads_past m : (∀ i, 0 ≤ i < zlen m → byte m i ≠ 0) → zlen m < 2 ^ 32 →
  rt_strnlen 0 (zlen m) m = Err FBounds.
Proof.
  intros. unfold rt_strnlen, scan_fuel, get, mbind, ST_bind, mret, ST_ret.
  apply strnlen_runs_off; [done|done|unfold zlen; lia..].
Qed.

(** ** Comparisons *)

(** The difference of the characters, seen through [f], at the first place
    where the strings differ; the shorter one ends with a NUL. *)
Fixpoint str_diff (f : Z → Z) (s t : list Z) : Z :=
  match s, t with
  | [], _ => f 0 - f (hd 0 t)
  | x :: s', [] => f x - f 0
  | x :: s', y :: t' => if f x =? f y then str_diff f s' t' else f x - f y
  end.

Lemma str_diff_0 f s t : (∀ x, f x = 0 ↔ x = 0) → Forall (λ x, x ≠ 0) s → Forall (λ x, x ≠ 0) t →
  str_diff f s t = 0 ↔ f <$> s = f <$> t.
Proof.
  intros Hf Hs. revert t. pose proof (proj2 (Hf 0) eq_refl) as Hf0.
  assert (Hne : ∀ x, x ≠ 0 → f x ≠ 0) by (intros x Hx Hx0; by apply Hx, Hf).
  induction Hs as [|x s Hx Hs IH]; intros t Ht; destruct Ht as [|y t Hy Ht]; simpl.
  - split; [done|lia].
  - apply Hne in Hy. split; [lia|done].
  - apply Hne in Hx. split; [lia|done].
  - destruct (Z.eqb_spec (f x) (f y)) as [E|E].
    + destruct (IH t Ht) as [I1 I2]. split; [intros ?; f_equal; auto|intros [= _ ?]; auto].
    + split; [lia|congruence].
Qed.
Lemma cstr_nonzero m a s : cstr m a s → Forall (λ x, x ≠ 0) s.
Proof. induction 1; by constructor. Qed.

Lemma strcmp_loop_ok m a s b t fuel : cstr m a s → cstr m b t → zlen s < Z.of_nat fuel →
  strcmp_loop fuel a b m = Ok m (str_diff id s t).
Proof.
  intros Hs. revert b t fuel. induction Hs as [a Ha Hz|a c s Ha Hc Hn Hs IH]; intros b t fuel Ht Hf;
    (destruct fuel as [|fuel]; [unfold zlen in Hf; simpl in Hf; lia|]); simpl.
  - assert (strcmp_test a b m = Ok m false) as E.
    { unfold strcmp_test. rewrite (bind_ok _ _ _ _ _ (load8_ok m a Ha)). by rewrite Hz. }
    rewrite (bind_ok _ _ _ _ _ E), (bind_ok _ _ _ _ _ (load8_ok m a Ha)). sload Ht. by rewrite Hz.
  - rewrite zlen_cons in Hf. pose proof (zlen_nonneg s).
    assert (strcmp_test a b m = Ok m (c =? hd 0 t)) as E.
    { unfold strcmp_test. rewrite (bind_ok _ _ _ _ _ (load8_ok m a Ha)), Hc.
      destruct (Z.eqb_spec c 0); [done|]. rewrite (bind_ok _ _ _ _ _ (load8_ok m a Ha)), Hc. by sload Ht. }
    rewrite (bind_ok _ _ _ _ _ E). destruct Ht as [b Hb Hz|b c' t Hb Hc' Hn' Ht]; simpl.
    + rewrite (proj2 (Z.eqb_neq c 0)) by done.
      rewrite (bind_ok _ _ _ _ _ (load8_ok m a Ha)), (bind_ok _ _ _ _ _ (load8_ok m b Hb)).
      by rewrite Hz, Hc.
    + destruct (Z.eqb_spec c c') as [E'|E']; [by apply IH; [|lia]|].
      rewrite (bind_ok _ _ _ _ _ (load8_ok m a Ha)), (bind_ok _ _ _ _ _ (load8_ok m b Hb)).
      by rewrite Hc, Hc'.
Qed.

(** [rt_strcmp] gives the difference of the first characters that differ, and
    zero exactly for equal strings. *)
Theorem rt_strcmp_spec m a s b t : cstr m a s → cstr m b t →
  rt_strcmp a b m = Ok m (str_diff id s t) ∧ (str_diff id s t = 0 ↔ s = t).
Proof.
  intros Hs Ht. split.
  - unfold rt_strcmp, scan_fuel, get, mbind, ST_bind, mret, ST_ret.
    pose proof (cstr_zlen _ _ _ Hs). apply strcmp_loop_ok; [done|done|unfold zlen in *; lia].
  - rewrite str_diff_0; [by rewrite !list_fmap_id|done|by eapply cstr_nonzero..].
Qed.

Lemma to_lower_0 x : 0 ≤ x → to_lower x = 0 ↔ x = 0.
Proof.
  intros. unfold to_lower. destruct (Z.leb_spec 65 x), (Z.leb_spec x 90); simpl; split; lia.
Qed.
(** The character as [rt_strcasecmp] sees it. *)
Definition folded (c : Z) : Z := to_lower (Z.land c 255).
Lemma folded_byte c : is_byte c → folded c = to_lower c.
Proof. intros. unfold folded. rewrite land_byte. f_equal. by apply Z.mod_small. Qed.

Lemma strcasecmp_loop_ok m a s b t fuel : Forall is_byte m → cstr m a s → cstr m b t →
  zlen s < Z.of_nat fuel → strcasecmp_loop fuel a b m = Ok m (str_diff to_lower s t).
Proof.
  intros Hm Hs. revert b t fuel.
  induction Hs as [a Ha Hz|a c s Ha Hc Hn Hs IH]; intros b t fuel Ht Hf;
    (destruct fuel as [|fuel]; [unfold zlen in Hf; simpl in Hf; lia|]); simpl;
    pose proof (cstr_byte _ _ _ Hm Ht) as Hbt;
    rewrite (bind_ok _ _ _ _ _ (load8_ok m a Ha)); sload Ht.
  - assert (is_byte (hd 0 t)) as Hy by (destruct Hbt; simpl; [by unfold is_byte|done]).
    rewrite Hz. change (to_lower (Z.land 0 255)) with 0. change (to_lower (Z.land (hd 0 t) 255)) with (folded (hd 0 t)).
    rewrite folded_byte by done. change (to_lower 0) with 0. change (0 =? 0) with true.
    by rewrite andb_false_r.
  - assert (is_byte c) as Hx.
    { rewrite <- Hc. rewrite List.Forall_forall in Hm. apply Hm, nth_In. unfold zlen in *. lia. }
    rewrite zlen_cons in Hf. pose proof (zlen_nonneg s).
    rewrite Hc. change (to_lower (Z.land c 255)) with (folded c).
    change (to_lower (Z.land (hd 0 t) 255)) with (folded (hd 0 t)). rewrite (folded_byte c) by done.
    assert (to_lower c ≠ 0) as Hc0 by (rewrite to_lower_0; [done|unfold is_byte in Hx; lia]).
    rewrite (proj2 (Z.eqb_neq _ 0) Hc0), andb_true_r.
    destruct Ht as [b Hb Hz|b c' t Hb Hc' Hn' Ht]; simpl.
    + change (folded 0) with (to_lower 0). by rewrite (proj2 (Z.eqb_neq _ _)).
    + inversion_clear Hbt. rewrite folded_byte by done.
      destruct (Z.eqb_spec (to_lower c) (to_lower c')) as [E'|E']; [by apply IH; [|lia]|done].
Qed.

(** [rt_strcasecmp] compares the strings as if in lower case: zero exactly
    when they agree up to the case of their letters. *)
Theorem rt_strcasecmp_spec m a s b t : Forall is_byte m → cstr m a s → cstr m b t →
  rt_strcasecmp a b m = Ok m (str_diff to_lower s t) ∧
  (str_diff to_lower s t = 0 ↔ to_lower <$> s = to_lower <$> t).
Proof.
  intros Hm Hs Ht. split.
  - unfold rt_strcasecmp, scan_fuel, get, mbind, ST_bind, mret, ST_ret.
    pose proof (cstr_zlen _ _ _ Hs). apply strcasecmp_loop_ok; [done|done|done|unfold zlen in *; lia].
  - apply str_diff_0; [|by eapply cstr_nonzero..]. intros x. unfold to_lower.
    destruct (Z.leb_spec 65 x), (Z.leb_spec x 90); simpl; split; lia.
Qed.

(** ** Search *)

(** [t] occurs in [s] at offset [i]. *)
Definition occurs_at (s t : list Z) (i : Z) : Prop :=
  0 ≤ i ∧ i + zlen t ≤ zlen s ∧ slice s i (zlen t) = t.

Lemma cstr_sub m a s i n : cstr m a s → 0 ≤ i → 0 ≤ n → i + n ≤ zlen s →
  slice m (a + i) n = slice s i n.
Proof.
  intros Hs ???. pose proof (cstr_inside _ _ _ Hs).
  assert (slice s i n = slice (slice m a (zlen s)) i n) as -> by (by rewrite (cstr_slice _ _ _ Hs)).
  by rewrite slice_slice by lia.
Qed.

Lemma strstr_loop_ok m a s b t fuel i : cstr m a s → cstr m b t → 0 < zlen t → 0 ≤ i ≤ zlen s →
  (∀ j, j < i → ¬ occurs_at s t j) → zlen s - i < Z.of_nat fuel →
  ∃ r, strstr_loop fuel (a + i) b (zlen s - i) (zlen t) m = Ok m r ∧
    match r with
    | Some p => occurs_at s t (p - a) ∧ ∀ j, j < p - a → ¬ occurs_at s t j
    | None => ∀ j, ¬ occurs_at s t j
    end.
Proof.
  intros Hs Ht Hpos. pose proof (cstr_inside _ _ _ Hs). pose proof (cstr_inside _ _ _ Ht).
  revert i. induction fuel as [|fuel IH]; intros i Hi Hno Hf; [lia|]. simpl.
  destruct (Z.leb_spec (zlen t) (zlen s - i)).
  2:{ exists None. split; [done|]. intros j Hj. apply (Hno j); [|done]. destruct Hj as (? & ? & _). lia. }
  destruct (rt_memcmp_ok m (a + i) b (zlen t)) as (r & E & Hr); [lia..|]. rewrite (bind_ok _ _ _ _ _ E).
  rewrite (cstr_sub m a s), (cstr_slice m b t) in Hr by (done || lia).
  destruct (Z.eqb_spec r 0) as [->|Hn].
  - exists (Some (a + i)). split; [done|]. replace (a + i - a) with i by lia. split; [|done].
    split; [lia|]. split; [lia|]. by destruct Hr as [[_ ?]|(? & _ & _ & _ & ?)].
  - replace (zlen s - i - 1) with (zlen s - (i + 1)) by lia. rewrite <- Z.add_assoc.
    apply IH; [lia| |lia]. intros j Hj. destruct (Z.eq_dec j i) as [->|]; [|apply Hno; lia].
    intros (_ & _ & Heq). destruct Hr as [[? _]|(k & Hk & _ & -> & _)]; [done|]. apply Hn.
    rewrite <- (byte_slice m (a + i) (zlen t) k), <- (byte_slice m b (zlen t) k) by lia.
    rewrite (cstr_sub m a s), (cstr_slice m b t), Heq by (done || lia). lia.
Qed.

(** [rt_strstr] finds the first occurrence of a string in another, and gives
    [RT_NULL] exactly when there is none. *)
Theorem rt_strstr_spec m a s b t : cstr m a s → cstr m b t → zlen m < 2 ^ 31 →
  ∃ r, rt_strstr a b m = Ok m r ∧
    match r with
    | Some p => occurs_at s t (p - a) ∧ ∀ j, j < p - a → ¬ occurs_at s t j
    | None => ∀ j, ¬ occurs_at s t j
    end.
Proof.
  intros Hs Ht Hm. unfold rt_strstr. rewrite (bind_ok _ _ _ _ _ (rt_strlen_ok _ _ _ Ht)).
  pose proof (zlen_nonneg s). pose proof (zlen_nonneg t).
  pose proof (cstr_zlen _ _ _ Hs). pose proof (cstr_zlen _ _ _ Ht). rewrite !s32_small by lia.
  destruct (Z.eqb_spec (zlen t) 0) as [E|E].
  - exists (Some a). split; [done|]. rewrite Z.sub_diag. unfold occurs_at. rewrite E.
    split; [|intros j Hj (? & _); lia]. split; [lia|]. split; [lia|].
    unfold zlen in E. by destruct t.
  - rewrite (bind_ok _ _ _ _ _ (rt_strlen_ok _ _ _ Hs)), s32_small by lia.
    pose proof (strstr_loop_ok m a s b t (S (Z.to_nat (zlen s))) 0 Hs Ht) as Hl.
    rewrite Z.add_0_r, Z.sub_0_r in Hl. apply Hl; [lia|lia| |lia]. intros j Hj (? & _). lia.
Qed.
