(* ===== verification/KPrintf.v ===== *)
(** * Formatted output of [kservice.c]: [rt_vsnprintf] and its helpers

    The output area lies in the memory of [KMemory]; a format is the list of its
    characters up to the NUL, as literals are; the variable arguments are a
    list. Configured: [RT_PRINTF_PRECISION]; not configured:
    [RT_PRINTF_LONGLONG], [RT_PRINTF_SPECIAL]. *)

From Stdlib Require Import ZArith Lia.
From stdpp Require Import base list.
From S2P Require Import RTThread.
From S2P Require Import Prelude.
From S2P Require Import Bytes.
From S2P Require Import KMemory.

Notation B := (ST (list Z)) (only parsing).

(** An argument: a word, or a pointer to a string ([None] is [RT_NULL]). Taking
    an argument of the wrong kind, or one too many, is undefined. *)
Inductive arg : Type :=
  | AInt (w : Z)
  | AStr (s : option (list Z)).
Definition va_word (args : list arg) : option (Z * list arg) :=
  match args with AInt w :: args' => Some (w, args') | _ => None end.
Definition va_string (args : list arg) : option (option (list Z) * list arg) :=
  match args with AStr s :: args' => Some (s, args') | _ => None end.

(** The character at a format pointer. *)
Definition cur (fmt : list Z) : Z := hd 0 fmt.

(** ** Numbers *)

Definition _ISDIGIT (c : Z) : bool := u32 (c - 48) <? 10.

(** The digit and the number left. *)
Definition divide (n base : Z) : Z * Z :=
  if base =? 10 then (u32 n mod 10, s32 (u32 n / 10)) else (u32 n mod 16, s32 (u32 n / 16)).

Fixpoint skip_atoi (i : Z) (s : list Z) : Z * list Z :=
  match s with
  | c :: s' => if _ISDIGIT c then skip_atoi (s32 (i * 10 + c - 48)) s' else (i, s)
  | [] => (i, s)
  end.

Definition ZEROPAD : Z := 1.
Definition SIGN : Z := 2.
Definition PLUS : Z := 4.
Definition SPACE : Z := 8.
Definition LEFT : Z := 16.
Definition SPECIAL : Z := 32.
Definition LARGE : Z := 64.

Definition has (flags f : Z) : bool := negb (Z.land flags f =? 0).

Definition small_digits : list Z := [48; 49; 50; 51; 52; 53; 54; 55; 56; 57; 97; 98; 99; 100; 101; 102].
Definition large_digits : list Z := [48; 49; 50; 51; 52; 53; 54; 55; 56; 57; 65; 66; 67; 68; 69; 70].

(** [if (buf < end) *buf = c; ++buf;] *)
Definition put (end_ c buf : Z) : B Z :=
  when (buf <? end_) (store8 buf c);; mret (u32 (buf + 1)).
Fixpoint put_times (n : nat) (end_ c buf : Z) : B Z :=
  match n with
  | O => mret buf
  | S n' => buf ← put end_ c buf; put_times n' end_ c buf
  end.
(** [while (size-- > 0)], and the size it leaves: [-1], or one less than a size
    that was not positive, which wraps below the least [int]. *)
Definition put_while (size end_ c buf : Z) : B Z := put_times (Z.to_nat size) end_ c buf.
Definition size_after (size : Z) : Z := s32 (Z.min size 0 - 1).

Definition TMP_SIZE : Z := 16.
(** [while (num != 0) tmp[i++] = digits[divide(&num, base)]] *)
Fixpoint tmp_digits (fuel : nat) (num base : Z) (digits tmp : list Z) : B (list Z) :=
  match fuel with
  | O => fail FHang
  | S fuel' =>
      if num =? 0 then mret tmp
      else
        let '(r, num') := divide num base in
        if zlen tmp <? TMP_SIZE then tmp_digits fuel' num' base digits (tmp ++ [byte digits r])
        else fail FBounds
  end.
(** [while (i-- > 0 && precision_bak != 0)]: the digits, last one first. *)
Fixpoint put_tmp (i : nat) (tmp : list Z) (precision_bak end_ buf : Z) : B Z :=
  match i with
  | O => mret buf
  | S i' =>
      if negb (precision_bak =? 0) then
        buf ← put end_ (byte tmp (Z.of_nat i')) buf; put_tmp i' tmp precision_bak end_ buf
      else mret buf
  end.

Definition print_number (end_ num base s precision type_ buf : Z) : B Z :=
  let precision_bak := precision in
  let size := s in
  let digits := if has type_ LARGE then large_digits else small_digits in
  let type_ := if has type_ LEFT then Z.land type_ (Z.lnot ZEROPAD) else type_ in
  let c := if has type_ ZEROPAD then 48 else 32 in
  let '(sign, num) :=
    if has type_ SIGN then
      if num <? 0 then (45, s32 (- num))
      else if has type_ PLUS then (43, num)
      else if has type_ SPACE then (32, num) else (0, num)
    else (0, num) in
  tmp ← (if num =? 0 then mret [48] else tmp_digits 64 num base digits []);
  let i := zlen tmp in
  let precision := if precision <? i then i else precision in
  let size := s32 (size - precision) in
  r ← (if negb (has type_ ZEROPAD || has type_ LEFT) then
         let size := if negb (sign =? 0) && (0 <? size) then s32 (size - 1) else size in
         buf ← put_while size end_ 32 buf;
         mret (buf, size_after size)
       else mret (buf, size));
  let '(buf, size) := r in
  r ← (if negb (sign =? 0) then buf ← put end_ sign buf; mret (buf, s32 (size - 1)) else mret (buf, size));
  let '(buf, size) := r in
  r ← (if negb (has type_ LEFT) then
         buf ← put_while size end_ c buf; mret (buf, size_after size)
       else mret (buf, size));
  let '(buf, size) := r in
  buf ← put_while (precision - i) end_ 48 buf;
  buf ← put_tmp (Z.to_nat i) tmp precision_bak end_ buf;
  put_while size end_ 32 buf.

(** ** Directives *)

(** The flag loop; [fmt] is the pointer after [++fmt]. *)
Fixpoint scan_flags (flags : Z) (fmt : list Z) : Z * list Z :=
  match fmt with
  | c :: fmt' =>
      if c =? 45 then scan_flags (Z.lor flags LEFT) fmt'
      else if c =? 43 then scan_flags (Z.lor flags PLUS) fmt'
      else if c =? 32 then scan_flags (Z.lor flags SPACE) fmt'
      else if c =? 35 then scan_flags (Z.lor flags SPECIAL) fmt'
      else if c =? 48 then scan_flags (Z.lor flags ZEROPAD) fmt'
      else (flags, fmt)
  | [] => (flags, fmt)
  end.

(** The field width, the flags, and what is left of the format and the arguments. *)
Definition scan_width (flags : Z) (fmt : list Z) (args : list arg) : option (Z * Z * list Z * list arg) :=
  if _ISDIGIT (cur fmt) then
    let '(field_width, fmt) := skip_atoi 0 fmt in Some (field_width, flags, fmt, args)
  else if cur fmt =? 42 then
    '(w, args) ← va_word args;
    let field_width := s32 w in
    if field_width <? 0 then Some (s32 (- field_width), Z.lor flags LEFT, tail fmt, args)
    else Some (field_width, flags, tail fmt, args)
  else Some (-1, flags, fmt, args).

Definition scan_precision (fmt : list Z) (args : list arg) : option (Z * list Z * list arg) :=
  if cur fmt =? 46 then
    let fmt := tail fmt in
    '(precision, fmt, args) ←
      (if _ISDIGIT (cur fmt) then
         let '(precision, fmt) := skip_atoi 0 fmt in Some (precision, fmt, args)
       else if cur fmt =? 42 then '(w, args) ← va_word args; Some (s32 w, tail fmt, args)
       else Some (-1, fmt, args));
    Some (if precision <? 0 then 0 else precision, fmt, args)
  else Some (-1, fmt, args).

Definition scan_qualifier (fmt : list Z) : Z * list Z :=
  if (cur fmt =? 104) || (cur fmt =? 108) then (cur fmt, tail fmt) else (0, fmt).

(** A directive up to its conversion character. *)
Record directive : Type := mk_directive {
  d_flags : Z;
  d_width : Z;
  d_precision : Z;
  d_qualifier : Z;
  d_conversion : Z }.

Definition scan_directive (fmt : list Z) (args : list arg) : option (directive * list Z * list arg) :=
  let '(flags, fmt) := scan_flags 0 fmt in
  '(field_width, flags, fmt, args) ← scan_width flags fmt args;
  '(precision, fmt, args) ← scan_precision fmt args;
  let '(qualifier, fmt) := scan_qualifier fmt in
  Some (mk_directive flags field_width precision qualifier (cur fmt), tail fmt, args).

(** ** Conversions *)

(** [case 'c']; [while (--field_width > 0)] runs as often as the width it first
    tests says, and leaves 0, or that width when it is not positive. *)
Definition print_char (end_ flags field_width c str : Z) : B Z :=
  r ← (if negb (has flags LEFT) then
         let field_width := s32 (field_width - 1) in
         str ← put_while field_width end_ 32 str;
         mret (str, Z.min field_width 0)
       else mret (str, field_width));
  let '(str, field_width) := r in
  str ← put end_ (u8 c) str;
  put_while (s32 (field_width - 1)) end_ 32 str.

Fixpoint put_string (s : list Z) (end_ str : Z) : B Z :=
  match s with
  | [] => mret str
  | c :: s' => str ← put end_ c str; put_string s' end_ str
  end.

(** ["(NULL)"] *)
Definition NULL_text : list Z := [40; 78; 85; 76; 76; 41].

(** [case 's']; [while (len < field_width--)] leaves one less than the length, or
    than a width that was not above it. *)
Definition print_string (end_ flags field_width precision : Z) (s : option (list Z)) (str : Z) : B Z :=
  let s := match s with Some s => s | None => NULL_text end in
  let len := s32 (zlen s) in
  let len := if (0 <? precision) && (precision <? len) then precision else len in
  r ← (if negb (has flags LEFT) then
         str ← put_while (field_width - len) end_ 32 str;
         mret (str, s32 (Z.min field_width len - 1))
       else mret (str, field_width));
  let '(str, field_width) := r in
  str ← put_string (take (Z.to_nat len) s) end_ str;
  put_while (field_width - len) end_ 32 str.

(** The base and the flags an integer conversion selects. *)
Definition integer_base (conversion flags : Z) : option (Z * Z) :=
  if conversion =? 111 then Some (8, flags)
  else if conversion =? 88 then Some (16, Z.lor flags LARGE)
  else if conversion =? 120 then Some (16, flags)
  else if (conversion =? 100) || (conversion =? 105) then Some (10, Z.lor flags SIGN)
  else if conversion =? 117 then Some (10, flags)
  else None.

(** The value of the argument, [num], for a qualifier. *)
Definition integer_value (qualifier flags w : Z) : Z :=
  if qualifier =? 108 then
    let num := u32 w in if has flags SIGN then u32 (s32 num) else num
  else if qualifier =? 104 then
    let num := u16 (s32 w) in if has flags SIGN then u32 (s16 num) else num
  else
    let num := u32 w in if has flags SIGN then u32 (s32 num) else num.

Definition va_arg {A} (o : option A) : B A := from_option_or FNull o.

(** The body of the [switch]. *)
Definition convert (end_ : Z) (d : directive) (args : list arg) (str : Z) : B (Z * list arg) :=
  let flags := d_flags d in
  let c := d_conversion d in
  if c =? 99 then
    '(w, args) ← va_arg (va_word args);
    str ← print_char end_ flags (d_width d) w str;
    mret (str, args)
  else if c =? 115 then
    '(s, args) ← va_arg (va_string args);
    str ← print_string end_ flags (d_width d) (d_precision d) s str;
    mret (str, args)
  else if c =? 112 then
    let '(field_width, flags) :=
      if d_width d =? -1 then (2 * 4, Z.lor flags ZEROPAD) else (d_width d, flags) in
    '(w, args) ← va_arg (va_word args);
    str ← print_number end_ (s32 w) 16 field_width (d_precision d) flags str;
    mret (str, args)
  else if c =? 37 then str ← put end_ 37 str; mret (str, args)
  else
    match integer_base c flags with
    | Some (base, flags) =>
        '(w, args) ← va_arg (va_word args);
        let num := integer_value (d_qualifier d) flags w in
        str ← print_number end_ (s32 num) base (d_width d) (d_precision d) flags str;
        mret (str, args)
    | None =>
        str ← put end_ 37 str;
        str ← (if negb (c =? 0) then put end_ c str else mret str);
        mret (str, args)
    end.

(** [for (; *fmt; ++fmt)]; at the end of the format [--fmt] undoes [++fmt]. *)
Fixpoint format_loop (fuel : nat) (end_ : Z) (fmt : list Z) (args : list arg) (str : Z) : B Z :=
  match fuel with
  | O => fail FHang
  | S fuel' =>
      match fmt with
      | [] => mret str
      | c :: fmt' =>
          if negb (c =? 37) then str ← put end_ c str; format_loop fuel' end_ fmt' args str
          else
            '(d, fmt', args) ← va_arg (scan_directive fmt' args);
            r ← convert end_ d args str;
            let '(str, args) := r in
            format_loop fuel' end_ fmt' args str
      end
  end.

Definition rt_vsnprintf (buf size : Z) (fmt : list Z) (args : list arg) : B Z :=
  let str := buf in
  let end_ := u32 (buf + size) in
  let '(end_, size) := if end_ <? buf then (2 ^ 32 - 1, 2 ^ 32 - 1 - buf) else (end_, size) in
  str ← format_loop (S (length fmt)) end_ fmt args str;
  (if 0 <? size then if str <? end_ then store8 str 0 else store8 (end_ - 1) 0 else mret ());;
  mret (s32 (str - buf)).

(** The functions with "..." collect their arguments and call the one above. *)
Definition rt_snprintf (buf size : Z) (fmt : list Z) (args : list arg) : B Z :=
  rt_vsnprintf buf size fmt args.
Definition rt_vsprintf (buf : Z) (fmt : list Z) (args : list arg) : B Z :=
  rt_vsnprintf buf (2 ^ 32 - 1) fmt args.
Definition rt_sprintf (buf : Z) (fmt : list Z) (args : list arg) : B Z := rt_vsprintf buf fmt args.
