(* ===== verification/KPrintfSpec.v ===== *)
(** * What the formatted output routines write

    [format_text] is the text of a format and its arguments; [rt_vsnprintf]
    writes as much of it as fits, and a NUL. *)

From Stdlib Require Import ZArith Lia.
From stdpp Require Import base list.
From S2P Require Import RTThread.
From S2P Require Import Prelude.
From S2P Require Import Bytes.
From S2P Require Import KMemory.
From S2P Require Import KPrintf.

Notation B := (ST (list Z)) (only parsing).

(** ** The text of a format *)

Definition times (n c : Z) : list Z := replicate (Z.to_nat n) c.

(** The numeral of [n] in base [b], with the given digits: most significant first. *)
Fixpoint numeral_from (fuel : nat) (b : Z) (digits : list Z) (n : Z) : list Z :=
  match fuel with
  | O => []
  | S fuel' =>
      if n =? 0 then [] else numeral_from fuel' b digits (n / b) ++ [byte digits (n mod b)]
  end.
Definition numeral (b : Z) (digits : list Z) (n : Z) : list Z :=
  if n =? 0 then [48] else numeral_from 32 b digits n.

(** The counter of the last padding loop is where the one before left it, below
    zero; only from the least [int] does one more step down come out positive. *)
Definition behind (n : Z) : list Z := if n =? - 2 ^ 31 then times (2 ^ 31 - 1) 32 else [].

(** A number: sign, digits, and padding on the left, on the right, or with
    zeros between the sign and the digits. [room] is the width the digits leave,
    an [int]. *)
Definition number_text (num base width precision flags : Z) : list Z :=
  let negative := has flags SIGN && (num <? 0) in
  let sign :=
    if negative then [45]
    else if has flags SIGN && has flags PLUS then [43]
    else if has flags SIGN && has flags SPACE then [32] else [] in
  let digits := if has flags LARGE then large_digits else small_digits in
  let ds := numeral (if base =? 10 then 10 else 16) digits (if negative then - num else u32 num) in
  let body := times (precision - zlen ds) 48 ++ (if precision =? 0 then [] else ds) in
  let room := s32 (width - Z.max precision (zlen ds)) in
  let pad := s32 (room - zlen sign) in
  if has flags LEFT then sign ++ body ++ times pad 32
  else if has flags ZEROPAD then sign ++ times pad 48 ++ body ++ behind pad
  else if 0 <? room then times pad 32 ++ sign ++ body
  else let pad := s32 (room - 1 - zlen sign) in sign ++ times pad 32 ++ body ++ behind pad.

Definition char_text (flags width c : Z) : list Z :=
  let pad := s32 (width - 1) in
  if has flags LEFT then u8 c :: times pad 32 else times pad 32 ++ [u8 c] ++ behind pad.

(** A string, cut to its precision; the counter of the last padding loop starts
    one below the length or the width, and is above it only where that wraps. *)
Definition string_text (flags width precision : Z) (s : option (list Z)) : list Z :=
  let s := match s with Some s => s | None => NULL_text end in
  let len := s32 (zlen s) in
  let len := if (0 <? precision) && (precision <? len) then precision else len in
  let shown := take (Z.to_nat len) s in
  if has flags LEFT then shown ++ times (width - len) 32
  else times (width - len) 32 ++ shown ++ times (s32 (Z.min width len - 1) - len) 32.

Definition convert_text (d : directive) (args : list arg) : option (list Z * list arg) :=
  let flags := d_flags d in
  let c := d_conversion d in
  if c =? 99 then
    '(w, args) ← va_word args; Some (char_text flags (d_width d) w, args)
  else if c =? 115 then
    '(s, args) ← va_string args; Some (string_text flags (d_width d) (d_precision d) s, args)
  else if c =? 112 then
    '(w, args) ← va_word args;
    Some (number_text (s32 w) 16 (if d_width d =? -1 then 8 else d_width d) (d_precision d)
            (if d_width d =? -1 then Z.lor flags ZEROPAD else flags), args)
  else if c =? 37 then Some ([37], args)
  else
    match integer_base c flags with
    | Some (base, flags) =>
        '(w, args) ← va_word args;
        Some (number_text (s32 (integer_value (d_qualifier d) flags w)) base (d_width d) (d_precision d) flags, args)
    | None => Some (37 :: (if c =? 0 then [] else [c]), args)
    end.

Fixpoint text_from (fuel : nat) (fmt : list Z) (args : list arg) : option (list Z) :=
  match fuel with
  | O => None
  | S fuel' =>
      match fmt with
      | [] => Some []
      | c :: fmt' =>
          if negb (c =? 37) then cons c <$> text_from fuel' fmt' args
          else
            '(d, fmt', args) ← scan_directive fmt' args;
            '(out, args) ← convert_text d args;
            app out <$> text_from fuel' fmt' args
      end
  end.
Definition format_text (fmt : list Z) (args : list arg) : option (list Z) :=
  text_from (S (length fmt)) fmt args.

(** ** Writers *)

(** The memory after the characters [out] went to [str], as far as [end_]. *)
Definition written (end_ str : Z) (out : list Z) (m : list Z) : list Z :=
  splice m str (take (Z.to_nat (end_ - str)) out).

Lemma zlen_take_min {A} (l : list A) n : 0 ≤ n → zlen (take (Z.to_nat n) l) = Z.min n (zlen l).
Proof. intros. unfold zlen. rewrite length_take. lia. Qed.
Lemma zlen_written end_ str out m : 0 ≤ str → end_ ≤ zlen m → str ≤ zlen m → zlen (written end_ str out m) = zlen m.
Proof.
  intros. unfold written. apply zlen_splice; [done|]. destruct (Z.leb_spec 0 (end_ - str)).
  - rewrite zlen_take_min; lia.
  - replace (Z.to_nat (end_ - str)) with O by lia. change (zlen (take 0 out)) with 0. lia.
Qed.
Lemma written_nil end_ str m : 0 ≤ str → written end_ str [] m = m.
Proof. intros. unfold written. rewrite take_nil. by apply splice_nil. Qed.
Lemma written_past end_ str out m : 0 ≤ str → end_ ≤ str → written end_ str out m = m.
Proof.
  intros. unfold written. replace (Z.to_nat (end_ - str)) with O by lia. simpl. by apply splice_nil.
Qed.
Lemma zlen_written_le end_ str out m : 0 ≤ str → end_ ≤ zlen m → zlen (written end_ str out m) = zlen m.
Proof.
  intros. destruct (Z.leb_spec str (zlen m)); [by apply zlen_written|]. by rewrite written_past by lia.
Qed.
Lemma emitted_app end_ str a b m : 0 ≤ str → end_ ≤ zlen m →
  written end_ (str + zlen a) b (written end_ str a m) = written end_ str (a ++ b) m.
Proof.
  intros. destruct (Z.leb_spec end_ (str + zlen a)) as [Hfull|Hroom].
  - rewrite (written_past end_ (str + zlen a)) by (pose proof (zlen_nonneg a); lia).
    unfold written. rewrite take_app_le; [done|]. unfold zlen in *. lia.
  - pose proof (zlen_nonneg a). unfold written.
    rewrite (take_ge a) by (unfold zlen in *; lia).
    rewrite splice_splice_app by (rewrite ?zlen_take_min; lia). f_equal.
    rewrite take_app_ge by (unfold zlen in *; lia). do 2 f_equal. unfold zlen. lia.
Qed.

(** [f] writes [out] from its pointer on, whatever is there, and returns the
    pointer behind it, when the address space goes that far. *)
Definition emits (end_ : Z) (f : Z → B Z) (out : list Z) : Prop :=
  ∀ str m, 0 ≤ str → end_ ≤ zlen m → str + zlen out < 2 ^ 32 → f str m = Ok (written end_ str out m) (str + zlen out).

Lemma emits_ret end_ : emits end_ (λ str, mret str) [].
Proof. intros str m ???. rewrite written_nil by done. change (zlen (@nil Z)) with 0. by rewrite Z.add_0_r. Qed.
Lemma emits_bind end_ f g a b : emits end_ f a → emits end_ g b →
  emits end_ (λ str, str ← f str; g str) (a ++ b).
Proof.
  intros Hf Hg str m ?? Hlt. rewrite zlen_app in Hlt. pose proof (zlen_nonneg a). pose proof (zlen_nonneg b).
  rewrite (bind_ok _ _ _ _ _ (Hf str m ltac:(lia) ltac:(lia) ltac:(lia))).
  rewrite Hg by (rewrite ?zlen_written_le; lia). rewrite emitted_app, zlen_app by lia. f_equal. lia.
Qed.
Lemma emits_put end_ c : is_byte c → emits end_ (put end_ c) [c].
Proof.
  intros Hc str m ?? Hlt. unfold put, when, written. change (zlen [c]) with 1 in *. rewrite u32_small by lia.
  destruct (Z.ltb_spec str end_).
  - unfold store8. assert (zlen [u8 c] = 1) as Hz by done.
    rewrite (bind_ok _ _ _ _ _ (store_bytes_ok m str [u8 c] ltac:(lia) ltac:(lia))).
    unfold mret, ST_ret. f_equal. rewrite take_ge by (simpl; lia). do 2 f_equal. by apply Z.mod_small.
  - replace (Z.to_nat (end_ - str)) with O by lia. simpl. by rewrite splice_nil by lia.
Qed.
Lemma emits_ext end_ f g out : (∀ str m, f str m = g str m) → emits end_ g out → emits end_ f out.
Proof. intros E H str m ???. rewrite E. by apply H. Qed.

Lemma emits_eq end_ f a b : a = b → emits end_ f a → emits end_ f b.
Proof. by intros ->. Qed.

Lemma emits_put_times end_ n c : is_byte c → emits end_ (put_times n end_ c) (replicate n c).
Proof.
  intros Hc. induction n as [|n IH]; [apply emits_ret|].
  apply (emits_bind end_ (put end_ c) (put_times n end_ c) [c]); [by apply emits_put|done].
Qed.
Lemma emits_put_while end_ n c : is_byte c → emits end_ (put_while n end_ c) (times n c).
Proof. apply emits_put_times. Qed.
Lemma emits_string end_ s : Forall is_byte s → emits end_ (put_string s end_) s.
Proof.
  induction 1 as [|c s Hc Hs IH]; [apply emits_ret|].
  by apply (emits_bind end_ (put end_ c) (put_string s end_) [c]); [apply emits_put|].
Qed.

(** ** Digits *)

(** The base [divide] works in. *)
Definition dbase (base : Z) : Z := if base =? 10 then 10 else 16.
Lemma dbase_ge base : 10 ≤ dbase base ≤ 16.
Proof. unfold dbase. destruct (base =? 10); lia. Qed.
Lemma divide_eq n base : divide n base = (u32 n mod dbase base, s32 (u32 n / dbase base)).
Proof. unfold divide, dbase. by destruct (base =? 10). Qed.

Lemma numeral_from_fuel b digits k1 k2 n : 1 < b → 0 ≤ n → n < b ^ Z.of_nat k1 → n < b ^ Z.of_nat k2 →
  numeral_from k1 b digits n = numeral_from k2 b digits n.
Proof.
  intros Hb. revert k2 n. induction k1 as [|k1 IH]; intros [|k2] n Hn H1 H2; simpl.
  - done.
  - destruct (Z.eqb_spec n 0); [done|]. simpl in H1. lia.
  - destruct (Z.eqb_spec n 0); [done|]. simpl in H2. lia.
  - destruct (Z.eqb_spec n 0); [done|]. f_equal.
    rewrite Nat2Z.inj_succ, Z.pow_succ_r in H1, H2 by lia.
    apply IH; [by apply Z.div_pos; lia|by apply Z.div_lt_upper_bound; lia..].
Qed.

Lemma tmp_digits_ok k fuel n base digits tmp m :
  (k < fuel)%nat → 0 ≤ n < 2 ^ 32 → n < dbase base ^ Z.of_nat k → zlen tmp + Z.of_nat k ≤ TMP_SIZE →
  tmp_digits fuel (s32 n) base digits tmp m = Ok m (tmp ++ rev (numeral_from k (dbase base) digits n)).
Proof.
  pose proof (dbase_ge base) as Hb. revert fuel n tmp. induction k as [|k IH]; intros fuel n tmp Hf Hn Hk Ht;
    (destruct fuel as [|fuel]; [lia|]); simpl.
  - simpl in Hk. replace n with 0 by lia. simpl. by rewrite app_nil_r.
  - destruct (Z.eqb_spec n 0) as [->|]; [simpl; by rewrite app_nil_r|].
    rewrite (proj2 (Z.eqb_neq (s32 n) 0)) by (intros E; pose proof (u32_s32 n) as E2; rewrite E in E2;
      change (u32 0) with 0 in E2; rewrite u32_small in E2; lia).
    rewrite divide_eq, u32_s32, u32_small by lia.
    rewrite (proj2 (Z.ltb_lt (zlen tmp) TMP_SIZE)) by lia.
    rewrite Nat2Z.inj_succ, Z.pow_succ_r in Hk by lia.
    assert (0 ≤ n / dbase base < 2 ^ 32).
    { split; [apply Z.div_pos; lia|]. apply Z.div_lt_upper_bound; nia. }
    rewrite IH; [|lia|done|apply Z.div_lt_upper_bound; lia|rewrite zlen_app; change (zlen [_]) with 1; lia].
    by rewrite rev_app_distr, <- app_assoc.
Qed.

(** The digits the code collects are the numeral, backwards. *)
Lemma number_digits_ok n base digits m : 0 ≤ n < 2 ^ 32 →
  (if s32 n =? 0 then mret [48] else tmp_digits 64 (s32 n) base digits []) m =
    Ok m (rev (numeral (dbase base) digits n)).
Proof.
  intros Hn. unfold numeral. destruct (Z.eqb_spec n 0) as [->|]; [done|].
  rewrite (proj2 (Z.eqb_neq (s32 n) 0)) by (intros E; pose proof (u32_s32 n) as E2; rewrite E in E2;
      change (u32 0) with 0 in E2; rewrite u32_small in E2; lia).
  pose proof (dbase_ge base). assert (n < dbase base ^ Z.of_nat 10).
  { apply Z.lt_le_trans with (10 ^ 10); [lia|]. apply Z.pow_le_mono_l. lia. }
  rewrite (tmp_digits_ok 10); [|lia|done|exact H0|change (zlen []) with 0; unfold TMP_SIZE; lia].
  rewrite app_nil_l. apply (f_equal (λ x, Ok m (rev x))). apply numeral_from_fuel; [lia|lia|exact H0|].
  apply Z.lt_le_trans with (10 ^ 32); [lia|]. apply Z.pow_le_mono_l. lia.
Qed.

Lemma digit_byte large b n : 1 < b ≤ 16 →
  is_byte (byte (if large : bool then large_digits else small_digits) (n mod b)).
Proof.
  intros Hb. pose proof (Z.mod_pos_bound n b). set (i := n mod b) in *. clearbody i.
  assert (i ∈ seqZ 0 16) as Hi by (apply elem_of_seqZ; lia). revert Hi. unfold is_byte, byte.
  assert (Forall (λ i, 0 ≤ nth (Z.to_nat i) (if large then large_digits else small_digits) 0 < 256) (seqZ 0 16)) as HF.
  { destruct large; vm_compute; repeat constructor; done. }
  rewrite Forall_forall in HF. apply HF.
Qed.
Lemma numeral_bytes large b n : 1 < b ≤ 16 →
  Forall is_byte (numeral b (if large : bool then large_digits else small_digits) n).
Proof.
  intros Hb. unfold numeral. destruct (n =? 0); [by constructor|]. generalize 32%nat as k.
  intros k. revert n. induction k as [|k IH]; intros n; simpl; [constructor|].
  destruct (n =? 0); [constructor|]. apply Forall_app. split; [apply IH|]. constructor; [|constructor].
  by apply digit_byte.
Qed.

Lemma put_tmp_emits end_ tmp p : p ≠ 0 → Forall is_byte tmp →
  emits end_ (put_tmp (length tmp) tmp p end_) (rev tmp).
Proof.
  intros Hp Hb. cut (∀ n, (n ≤ length tmp)%nat → emits end_ (put_tmp n tmp p end_) (rev (take n tmp))).
  { intros H. specialize (H (length tmp) ltac:(lia)). by rewrite take_ge in H. }
  induction n as [|n IH]; intros Hn; [apply emits_ret|].
  destruct (lookup_lt_is_Some_2 tmp n) as [c Hc]; [lia|].
  erewrite take_S_r by done. rewrite rev_app_distr. simpl.
  rewrite (proj2 (Z.eqb_neq p 0)) by done. simpl.
  assert (byte tmp (Z.of_nat n) = c) as ->.
  { unfold byte. rewrite Nat2Z.id, nth_lookup, Hc. done. }
  apply (emits_bind end_ (put end_ c) (put_tmp n tmp p end_) [c]); [|apply IH; lia].
  apply emits_put. eapply Forall_lookup_1; done.
Qed.

(** ** Numbers *)

(** [f] writes [out] and returns the pointer behind it, with [k]. *)
Definition emits_with {A} (end_ : Z) (f : Z → B (Z * A)) (k : A) (out : list Z) : Prop :=
  ∀ str m, 0 ≤ str → end_ ≤ zlen m → str + zlen out < 2 ^ 32 →
    f str m = Ok (written end_ str out m) (str + zlen out, k).

Lemma emits_with_ret {A} end_ (k : A) : emits_with end_ (λ str, mret (str, k)) k [].
Proof. intros str m ???. rewrite written_nil by done. change (zlen (@nil Z)) with 0. by rewrite Z.add_0_r. Qed.
Lemma emits_with_map {A} end_ f (k : A) out : emits end_ f out →
  emits_with end_ (λ str, str ← f str; mret (str, k)) k out.
Proof. intros Hf str m ???. by rewrite (bind_ok _ _ _ _ _ (Hf str m ltac:(done) ltac:(done) ltac:(done))). Qed.
Lemma emits_with_bind {A} end_ (f : Z → B (Z * A)) (g : A → Z → B Z) (k : A) a b :
  emits_with end_ f k a → emits end_ (g k) b →
  emits end_ (λ str, r ← f str; let '(str, k) := r in g k str) (a ++ b).
Proof.
  intros Hf Hg str m ?? Hlt. rewrite zlen_app in Hlt. pose proof (zlen_nonneg a). pose proof (zlen_nonneg b).
  rewrite (bind_ok _ _ _ _ _ (Hf str m ltac:(lia) ltac:(lia) ltac:(lia))).
  rewrite Hg by (rewrite ?zlen_written_le; lia). rewrite emitted_app, zlen_app by lia. f_equal. lia.
Qed.
Lemma emits_read {A} end_ (t : B A) v (g : A → Z → B Z) out :
  (∀ m, t m = Ok m v) → emits end_ (g v) out → emits end_ (λ str, x ← t; g x str) out.
Proof. intros Ht Hg str m ???. rewrite (bind_ok _ _ _ _ _ (Ht m)). by apply Hg. Qed.

Lemma times_nil n c : n ≤ 0 → times n c = [].
Proof. intros. unfold times. by replace (Z.to_nat n) with O by lia. Qed.

Lemma s32_range x : - 2 ^ 31 ≤ s32 x < 2 ^ 31.
Proof. unfold s32. pose proof (Z.mod_pos_bound (x + 2 ^ 31) (2 ^ 32)). lia. Qed.
Lemma s32_sub_s32 x n : s32 (s32 x - n) = s32 (x - n).
Proof.
  unfold s32. f_equal. replace ((x + 2 ^ 31) mod 2 ^ 32 - 2 ^ 31 - n + 2 ^ 31) with ((x + 2 ^ 31) mod 2 ^ 32 - n) by lia.
  rewrite Zminus_mod_idemp_l. f_equal. lia.
Qed.

Lemma size_after_sub k n : s32 (size_after k - n) = s32 (Z.min k 0 - 1 - n).
Proof. apply s32_sub_s32. Qed.

(** What the last padding loop adds. *)
Lemma times_after k : - 2 ^ 31 ≤ k → times (size_after k) 32 = behind k.
Proof.
  intros. unfold size_after, behind. destruct (Z.eqb_spec k (- 2 ^ 31)) as [->|]; [done|].
  apply times_nil. rewrite s32_small; lia.
Qed.
Lemma behind_nil k : k ≠ - 2 ^ 31 → behind k = [].
Proof. intros. unfold behind. by rewrite (proj2 (Z.eqb_neq _ _)). Qed.

(** [print_number] once the flags, the sign and the digits are known. *)
Definition print_parts (end_ : Z) (left zero : bool) (sign : Z) (tmp : list Z) (s precision_bak buf : Z) : B Z :=
  let i := zlen tmp in
  let precision := if precision_bak <? i then i else precision_bak in
  let size := s32 (s - precision) in
  r ← (if negb (zero || left) then
         let size := if negb (sign =? 0) && (0 <? size) then s32 (size - 1) else size in
         buf ← put_while size end_ 32 buf;
         mret (buf, size_after size)
       else mret (buf, size));
  let '(buf, size) := r in
  r ← (if negb (sign =? 0) then buf ← put end_ sign buf; mret (buf, s32 (size - 1)) else mret (buf, size));
  let '(buf, size) := r in
  r ← (if negb left then
         buf ← put_while size end_ (if zero then 48 else 32) buf; mret (buf, size_after size)
       else mret (buf, size));
  let '(buf, size) := r in
  buf ← put_while (precision - i) end_ 48 buf;
  buf ← put_tmp (Z.to_nat i) tmp precision_bak end_ buf;
  put_while size end_ 32 buf.

Definition parts_text (left zero : bool) (sign ds : list Z) (width precision : Z) : list Z :=
  let body := times (precision - zlen ds) 48 ++ (if precision =? 0 then [] else ds) in
  let room := s32 (width - Z.max precision (zlen ds)) in
  let pad := s32 (room - zlen sign) in
  if left then sign ++ body ++ times pad 32
  else if zero then sign ++ times pad 48 ++ body ++ behind pad
  else if 0 <? room then times pad 32 ++ sign ++ body
  else let pad := s32 (room - 1 - zlen sign) in sign ++ times pad 32 ++ body ++ behind pad.

Definition sign_text (sign : Z) : list Z := if sign =? 0 then [] else [sign].

Lemma put_tmp_all end_ tmp p : Forall is_byte tmp →
  emits end_ (put_tmp (Z.to_nat (zlen tmp)) tmp p end_) (if p =? 0 then [] else rev tmp).
Proof.
  intros Hb. unfold zlen. rewrite Nat2Z.id. destruct (Z.eqb_spec p 0) as [->|]; [|by apply put_tmp_emits].
  destruct tmp; apply emits_ret.
Qed.

Lemma print_parts_emits end_ left zero sign tmp s p :
  is_byte sign → Forall is_byte tmp → (zero && left) = false →
  emits end_ (print_parts end_ left zero sign tmp s p) (parts_text left zero (sign_text sign) (rev tmp) s p).
Proof.
  intros Hs Ht Hzl. pose proof (zlen_nonneg tmp).
  assert (zlen (rev tmp) = zlen tmp) as Hr by (unfold zlen; by rewrite length_rev).
  assert (is_byte 32 ∧ is_byte 48) as [H32 H48] by (unfold is_byte; lia).
  set (P := Z.max p (zlen tmp)).
  assert ((if p <? zlen tmp then zlen tmp else p) = P) as HP by (unfold P; destruct (Z.ltb_spec p (zlen tmp)); lia).
  set (sg := sign_text sign). set (n := zlen sg).
  assert (n = if negb (sign =? 0) then 1 else 0) as Hn by (unfold n, sg, sign_text; by destruct (sign =? 0)).
  set (body := times (p - zlen tmp) 48 ++ (if p =? 0 then [] else rev tmp)).
  assert (Hsign : ∀ k, - 2 ^ 31 ≤ k < 2 ^ 31 → emits_with end_ (λ buf, if negb (sign =? 0) then
    buf ← put end_ sign buf; mret (buf, s32 (k - 1)) else mret (buf, k)) (s32 (k - n)) sg).
  { intros k Hk. rewrite Hn. unfold sg, sign_text. destruct (sign =? 0); cbn [negb].
    - rewrite Z.sub_0_r, s32_small by lia. apply emits_with_ret.
    - apply emits_with_map, emits_put, Hs. }
  assert (Hbody : ∀ k, emits end_ (λ buf, buf ← put_while (P - zlen tmp) end_ 48 buf;
    buf ← put_tmp (Z.to_nat (zlen tmp)) tmp p end_ buf; put_while k end_ 32 buf) (body ++ times k 32)).
  { intros k. unfold body. rewrite <- app_assoc.
    assert (times (p - zlen tmp) 48 = times (P - zlen tmp) 48) as ->.
    { unfold P. destruct (Z.leb_spec (zlen tmp) p); [by rewrite Z.max_l by lia|]. rewrite !times_nil by lia. done. }
    apply (emits_bind end_ (put_while _ end_ 48)); [by apply emits_put_while|].
    apply (emits_bind end_ (put_tmp _ tmp p end_)); [by apply put_tmp_all|by apply emits_put_while]. }
  assert (Hpad : ∀ k c, is_byte c → emits_with end_ (λ buf, buf ← put_while k end_ c buf; mret (buf, size_after k))
    (size_after k) (times k c)) by (intros; by apply emits_with_map, emits_put_while).
  assert (Hrest : ∀ k, - 2 ^ 31 ≤ k < 2 ^ 31 → emits end_
    (λ buf, r ← (if negb left then
         buf ← put_while k end_ (if zero then 48 else 32) buf; mret (buf, size_after k) else mret (buf, k));
       let '(buf, size) := r in
       buf ← put_while (P - zlen tmp) end_ 48 buf;
       buf ← put_tmp (Z.to_nat (zlen tmp)) tmp p end_ buf; put_while size end_ 32 buf)
    (if left then body ++ times k 32 else times k (if zero then 48 else 32) ++ body ++ behind k)).
  { intros k Hk. destruct left; cbn [negb].
    - apply (emits_with_bind end_ (λ buf, mret (buf, k)) _ k [] _ (emits_with_ret _ _)), Hbody.
    - rewrite <- (times_after k) by lia.
      apply (emits_with_bind _ _ _ _ _ _ (Hpad k (if zero then 48 else 32) ltac:(by destruct zero))), Hbody. }
  unfold print_parts, parts_text. cbv zeta. rewrite HP, Hr. fold n P body.
  pose proof (s32_range (s - P)) as Hroom. set (room := s32 (s - P)) in *. clearbody room.
  pose proof (s32_range (room - n)) as Hpadr.
  destruct left, zero; try done; cbn [orb negb] in *.
  - exact (emits_with_bind _ _ _ _ _ _ (emits_with_ret _ _)
      (emits_with_bind _ _ _ _ _ _ (Hsign _ Hroom) (Hrest _ Hpadr))).
  - exact (emits_with_bind _ _ _ _ _ _ (emits_with_ret _ _)
      (emits_with_bind _ _ _ _ _ _ (Hsign _ Hroom) (Hrest _ Hpadr))).
  - set (k := if negb (sign =? 0) && (0 <? room) then s32 (room - 1) else room).
    eapply emits_eq; [|exact (emits_with_bind _ _ _ _ _ _ (Hpad k 32 H32) (emits_with_bind _ _ _ _ _ _
      (Hsign (size_after k) (s32_range (Z.min k 0 - 1))) (Hrest _ (s32_range (size_after k - n)))))].
    rewrite size_after_sub. unfold k. destruct (Z.ltb_spec 0 room) as [Hr0|Hr0].
    + rewrite andb_true_r. assert ((if negb (sign =? 0) then s32 (room - 1) else room) = room - n) as ->.
      { rewrite Hn. destruct (sign =? 0); simpl; [lia|]. rewrite s32_small; lia. }
      assert (0 ≤ n ≤ 1) by (rewrite Hn; destruct (sign =? 0); simpl; lia).
      rewrite Z.min_r, !s32_small by lia.
      rewrite (times_nil (0 - 1 - n)), behind_nil, app_nil_r by lia. done.
    + rewrite andb_false_r, Z.min_l, (times_nil room) by lia. done.
Qed.

Lemma has_mask flags k f : has (Z.land flags k) f = negb (Z.land flags (Z.land k f) =? 0).
Proof. unfold has. by rewrite Z.land_assoc. Qed.

(** The sign character and the magnitude. *)
Definition number_sign (num flags : Z) : Z :=
  if has flags SIGN then
    if num <? 0 then 45 else if has flags PLUS then 43 else if has flags SPACE then 32 else 0
  else 0.
Definition number_size (num flags : Z) : Z :=
  if has flags SIGN && (num <? 0) then - num else u32 num.

Lemma print_number_parts end_ num base s precision flags buf m : - 2 ^ 31 ≤ num < 2 ^ 31 →
  print_number end_ num base s precision flags buf m =
    print_parts end_ (has flags LEFT) (has flags ZEROPAD && negb (has flags LEFT)) (number_sign num flags)
      (rev (numeral (dbase base) (if has flags LARGE then large_digits else small_digits) (number_size num flags)))
      s precision buf m.
Proof.
  intros Hnum. unfold print_number. set (digits := if has flags LARGE then _ else _).
  set (ty := if has flags LEFT then Z.land flags (Z.lnot ZEROPAD) else flags).
  assert (has ty LEFT = has flags LEFT ∧ has ty SIGN = has flags SIGN ∧ has ty PLUS = has flags PLUS ∧
    has ty SPACE = has flags SPACE ∧ has ty ZEROPAD = has flags ZEROPAD && negb (has flags LEFT))
    as (HL & HS & HP & Hsp & HZ).
  { unfold ty. destruct (has flags LEFT) eqn:E; [|by rewrite andb_true_r].
    rewrite !has_mask. rewrite andb_false_r. split_and!; try done. change (Z.land (Z.lnot ZEROPAD) ZEROPAD) with 0.
    by rewrite Z.land_0_r. }
  cbv zeta. rewrite HL, HS, HP, Hsp, HZ.
  assert (Hsize : 0 ≤ number_size num flags < 2 ^ 32).
  { unfold number_size. destruct (has flags SIGN), (Z.ltb_spec num 0); simpl; try apply u32_range. lia. }
  assert (Htmp : ∀ (g : list Z → B Z), (tmp ← (if s32 (number_size num flags) =? 0 then mret [48]
      else tmp_digits 64 (s32 (number_size num flags)) base digits []); g tmp) m =
    g (rev (numeral (dbase base) digits (number_size num flags))) m).
  { intros g. by rewrite (bind_ok _ _ _ _ _ (number_digits_ok _ base digits m Hsize)). }
  assert (Hs32 : s32 (u32 num) = num) by (by rewrite s32_u32, s32_small).
  unfold number_sign. unfold number_size in Htmp at 1 2.
  destruct (has flags SIGN), (Z.ltb_spec num 0); cbn [andb] in Htmp; rewrite ?Hs32 in Htmp;
    [|destruct (has flags PLUS), (has flags SPACE)|..]; cbv iota beta; rewrite Htmp; reflexivity.
Qed.

Lemma number_text_parts num base width precision flags :
  number_text num base width precision flags =
    parts_text (has flags LEFT) (has flags ZEROPAD && negb (has flags LEFT)) (sign_text (number_sign num flags))
      (numeral (dbase base) (if has flags LARGE then large_digits else small_digits) (number_size num flags))
      width precision.
Proof.
  unfold number_text, parts_text, number_size, number_sign, sign_text, dbase.
  destruct (has flags LEFT), (has flags ZEROPAD), (has flags SIGN), (num <? 0), (has flags PLUS), (has flags SPACE);
    reflexivity.
Qed.

Lemma print_number_emits end_ num base s precision flags : - 2 ^ 31 ≤ num < 2 ^ 31 →
  emits end_ (print_number end_ num base s precision flags) (number_text num base s precision flags).
Proof.
  intros Hnum. apply (emits_ext _ _ (λ buf, print_parts end_ (has flags LEFT) (has flags ZEROPAD && negb (has flags LEFT))
    (number_sign num flags) (rev (numeral (dbase base) (if has flags LARGE then large_digits else small_digits)
      (number_size num flags))) s precision buf)); [intros; by apply print_number_parts|].
  rewrite number_text_parts.
  set (d := numeral _ _ _).
  match goal with |- emits _ _ (parts_text ?l ?z (sign_text ?sg) _ _ _) =>
    pose proof (print_parts_emits end_ l z sg (rev d) s precision) as Hp end.
  rewrite rev_involutive in Hp. apply Hp.
  - unfold number_sign, is_byte. repeat case_match; lia.
  - apply Forall_rev. pose proof (dbase_ge base). apply numeral_bytes. lia.
  - destruct (has flags LEFT); [by rewrite !andb_false_r|apply andb_false_r].
Qed.

(** ** Characters and strings *)

Lemma print_char_emits end_ flags width c : emits end_ (print_char end_ flags width c) (char_text flags width c).
Proof.
  assert (is_byte 32) as H32 by (unfold is_byte; lia).
  assert (is_byte (u8 c)) as Hc by (pose proof (Z.mod_pos_bound c (2 ^ 8) eq_refl); by unfold is_byte, u8).
  set (rest := λ k str, str ← put end_ (u8 c) str; put_while (s32 (k - 1)) end_ 32 str).
  assert (Hend : ∀ k, emits end_ (rest k) ([u8 c] ++ times (s32 (k - 1)) 32))
    by (intros; apply (emits_bind end_ (put end_ (u8 c))); [by apply emits_put|by apply emits_put_while]).
  unfold print_char, char_text. destruct (has flags LEFT); cbn [negb].
  - exact (emits_with_bind _ _ rest _ _ _ (emits_with_ret _ _) (Hend width)).
  - rewrite <- times_after by apply s32_range. set (pad := s32 (width - 1)).
    exact (emits_with_bind _ _ rest _ _ _ (emits_with_map _ _ (Z.min pad 0) _
      (emits_put_while end_ pad 32 H32)) (Hend (Z.min pad 0))).
Qed.

(** The least [int] as a width, which ["*"] negates to itself and left-justifies:
    the counter wraps, and the field is as wide as an [int] can say. *)
Example least_width_pads c : char_text LEFT (- 2 ^ 31) c = u8 c :: times (2 ^ 31 - 1) 32.
Proof. reflexivity. Qed.

Lemma NULL_text_bytes : Forall is_byte NULL_text.
Proof. repeat constructor; done. Qed.

Lemma print_string_emits end_ flags width precision s :
  (∀ t, s = Some t → Forall is_byte t) →
  emits end_ (print_string end_ flags width precision s) (string_text flags width precision s).
Proof.
  intros Hs. assert (is_byte 32) as H32 by (unfold is_byte; lia).
  unfold print_string, string_text. set (t := match s with Some s => s | None => NULL_text end).
  assert (Forall is_byte t) as Ht by (unfold t; destruct s; [by apply Hs|apply NULL_text_bytes]).
  clearbody t. cbv zeta. set (len := if (0 <? precision) && _ then _ else _). set (shown := take (Z.to_nat len) t).
  assert (Forall is_byte shown) as Hb by (by apply Forall_take).
  set (rest := λ k str, str ← put_string shown end_ str; put_while (k - len) end_ 32 str).
  assert (Hend : ∀ k, emits end_ (rest k) (shown ++ times (k - len) 32))
    by (intros; apply (emits_bind end_ (put_string shown end_)); [by apply emits_string|by apply emits_put_while]).
  destruct (has flags LEFT); cbn [negb].
  - exact (emits_with_bind _ _ rest _ _ _ (emits_with_ret _ _) (Hend width)).
  - exact (emits_with_bind _ _ rest _ _ _ (emits_with_map _ _ (s32 (Z.min width len - 1)) _
      (emits_put_while end_ (width - len) 32 H32)) (Hend _)).
Qed.

(** ** Directives and formats *)

(** An argument whose characters are bytes. *)
Definition arg_ok (a : arg) : Prop := match a with AStr (Some s) => Forall is_byte s | _ => True end.

Lemma va_word_inv args w args' : va_word args = Some (w, args') → args = AInt w :: args'.
Proof. destruct args as [|[?|?] ?]; simpl; congruence. Qed.
Lemma va_string_inv args s args' : va_string args = Some (s, args') → args = AStr s :: args'.
Proof. destruct args as [|[?|?] ?]; simpl; congruence. Qed.

Lemma convert_emits end_ d args out args' :
  is_byte (d_conversion d) → Forall arg_ok args → convert_text d args = Some (out, args') →
  emits_with end_ (convert end_ d args) args' out ∧ Forall arg_ok args'.
Proof.
  intros Hc Ha. unfold convert_text, convert. set (c := d_conversion d) in *.
  assert (is_byte 37) as H37 by (unfold is_byte; lia).
  destruct (c =? 99).
  { destruct (va_word args) as [[w args1]|] eqn:E; simpl; intros [= <- <-]. apply va_word_inv in E as ->.
    inversion_clear Ha. split; [|done]. apply emits_with_map, print_char_emits. }
  destruct (c =? 115).
  { destruct (va_string args) as [[s args1]|] eqn:E; simpl; intros [= <- <-]. apply va_string_inv in E as ->.
    inversion_clear Ha as [|?? Hs]. split; [|done]. apply emits_with_map, print_string_emits. by intros t ->. }
  destruct (c =? 112).
  { destruct (va_word args) as [[w args1]|] eqn:E; simpl; intros [= <- <-]. apply va_word_inv in E as ->.
    inversion_clear Ha. split; [|done].
    destruct (d_width d =? -1); apply emits_with_map, print_number_emits, s32_range. }
  destruct (c =? 37).
  { intros [= <- <-]. split; [|done]. by apply emits_with_map, emits_put. }
  destruct (integer_base c (d_flags d)) as [[base flags]|].
  { destruct (va_word args) as [[w args1]|] eqn:E; simpl; intros [= <- <-]. apply va_word_inv in E as ->.
    inversion_clear Ha. split; [|done]. apply emits_with_map, print_number_emits, s32_range. }
  intros [= <- <-]. split; [|done].
  assert (emits end_ (λ str, if negb (c =? 0) then put end_ c str else mret str) (if c =? 0 then [] else [c])) as Hl
    by (destruct (c =? 0); [apply emits_ret|by apply emits_put]).
  pose proof (emits_bind end_ (put end_ 37) _ [37] _ (emits_put _ _ H37) Hl) as Hb.
  intros str m Hstr Hm Hlt. specialize (Hb str m Hstr Hm Hlt). unfold mbind, ST_bind in *.
  destruct (put end_ 37 str m); [|done]. by rewrite Hb.
Qed.

Lemma scan_flags_suffix flags fmt fl fmt' : scan_flags flags fmt = (fl, fmt') → fmt' `suffix_of` fmt.
Proof.
  revert flags. induction fmt as [|c fmt IH]; simpl; intros flags; [by intros [= _ <-]|].
  repeat case_match; intros H'; try (by apply suffix_cons_r; eapply IH); by injection H' as <- <-.
Qed.
Lemma skip_atoi_suffix i s v s' : skip_atoi i s = (v, s') → s' `suffix_of` s.
Proof.
  revert i. induction s as [|c s IH]; simpl; intros i; [by intros [= _ <-]|].
  destruct (_ISDIGIT c); [intros; by eapply suffix_cons_r, IH|by intros [= _ <-]].
Qed.
Lemma tail_suffix (s : list Z) : tail s `suffix_of` s.
Proof. destruct s; [done|by apply suffix_cons_r]. Qed.
Lemma va_word_suffix args w args' : va_word args = Some (w, args') → args' `suffix_of` args.
Proof. intros ->%va_word_inv. by apply suffix_cons_r. Qed.

Lemma scan_width_suffix flags fmt args w fl fmt' args' :
  scan_width flags fmt args = Some (w, fl, fmt', args') → fmt' `suffix_of` fmt ∧ args' `suffix_of` args.
Proof.
  unfold scan_width. destruct (_ISDIGIT (cur fmt)).
  { destruct (skip_atoi 0 fmt) as [v f] eqn:E. intros [= _ _ <- <-]. apply skip_atoi_suffix in E. done. }
  destruct (cur fmt =? 42); [|by intros [= _ _ <- <-]].
  destruct (va_word args) as [[v a]|] eqn:E; simpl; [|done]. apply va_word_suffix in E.
  destruct (s32 v <? 0); intros [= _ _ <- <-]; (split; [apply tail_suffix|done]).
Qed.
Lemma scan_precision_suffix fmt args p fmt' args' :
  scan_precision fmt args = Some (p, fmt', args') → fmt' `suffix_of` fmt ∧ args' `suffix_of` args.
Proof.
  unfold scan_precision. destruct (cur fmt =? 46); [|by intros [= _ <- <-]].
  pose proof (tail_suffix fmt) as Ht. destruct (_ISDIGIT (cur (tail fmt))).
  { destruct (skip_atoi 0 (tail fmt)) as [v f] eqn:E. simpl. intros [= _ <- <-]. apply skip_atoi_suffix in E.
    split; [by etrans|done]. }
  destruct (cur (tail fmt) =? 42); simpl; [|by intros [= _ <- <-]].
  destruct (va_word args) as [[v a]|] eqn:E; simpl; [|done]. apply va_word_suffix in E.
  intros [= _ <- <-]. split; [etrans; [apply tail_suffix|done]|done].
Qed.
Lemma scan_qualifier_suffix fmt q fmt' : scan_qualifier fmt = (q, fmt') → fmt' `suffix_of` fmt.
Proof. unfold scan_qualifier. case_match; intros [= _ <-]; [apply tail_suffix|done]. Qed.

(** What a directive leaves are ends of the format and of the arguments. *)
Lemma scan_directive_suffix fmt args d fmt' args' :
  scan_directive fmt args = Some (d, fmt', args') →
  ∃ f, f `suffix_of` fmt ∧ d_conversion d = cur f ∧ fmt' = tail f ∧ args' `suffix_of` args.
Proof.
  unfold scan_directive. destruct (scan_flags 0 fmt) as [fl f1] eqn:E1. apply scan_flags_suffix in E1.
  destruct (scan_width fl f1 args) as [[[[w fl2] f2] a2]|] eqn:E2; simpl; [|done]. apply scan_width_suffix in E2 as [F2 A2].
  destruct (scan_precision f2 a2) as [[[p f3] a3]|] eqn:E3; simpl; [|done]. apply scan_precision_suffix in E3 as [F3 A3].
  destruct (scan_qualifier f3) as [q f4] eqn:E4. apply scan_qualifier_suffix in E4.
  intros [= <- <- <-]. exists f4. split; [by transitivity f3; [|transitivity f2; [|transitivity f1]]|]. split; [done|]. split; [done|]. by transitivity a2.
Qed.

Lemma Forall_suffix {A} (P : A → Prop) l k : l `suffix_of` k → Forall P k → Forall P l.
Proof. by intros [h ->] [_ ?]%Forall_app. Qed.

Lemma format_loop_emits end_ fuel fmt args out :
  Forall is_byte fmt → Forall arg_ok args → text_from fuel fmt args = Some out →
  emits end_ (format_loop fuel end_ fmt args) out.
Proof.
  revert fmt args out. induction fuel as [|fuel IH]; intros fmt args out Hf Ha; [done|]. simpl.
  destruct fmt as [|c fmt]; [intros [= <-]; apply emits_ret|]. inversion_clear Hf as [|?? Hc Hfmt].
  destruct (c =? 37); simpl.
  - destruct (scan_directive fmt args) as [[[d f] a]|] eqn:Es; simpl; [|done].
    destruct (scan_directive_suffix _ _ _ _ _ Es) as (f0 & Hf0 & Hd & -> & Ha0).
    assert (Forall is_byte f0) as Hb0 by (by eapply Forall_suffix).
    destruct (convert_text d a) as [[o a']|] eqn:Ec; simpl; [|done].
    destruct (convert_emits end_ d a o a') as [He Ha']; [|by eapply Forall_suffix|done|].
    { rewrite Hd. destruct Hb0; [by unfold is_byte|done]. }
    destruct (text_from fuel (tail f0) a') as [o'|] eqn:Et; simpl; intros [= <-].
    apply (emits_with_bind end_ (convert end_ d a) (λ a' str, format_loop fuel end_ (tail f0) a' str) a' o o' He).
    apply IH; [|done|done]. eapply Forall_suffix; [apply tail_suffix|done].
  - destruct (text_from fuel fmt args) as [o'|] eqn:Et; simpl; intros [= <-].
    apply (emits_bind end_ (put end_ c) (format_loop fuel end_ fmt args) [c]); [by apply emits_put|by apply IH].
Qed.

(** ** [rt_vsnprintf] *)

Lemma splice_over (l a b : list Z) p : 0 ≤ p → p + zlen a ≤ zlen l → zlen a = zlen b →
  splice (splice l p a) p b = splice l p b.
Proof.
  intros ?? E. pose proof (zlen_nonneg a). apply byte_eq; [rewrite !zlen_splice; rewrite ?zlen_splice; lia|].
  intros i _. destruct (Z.leb_spec 0 i) as [Hi|Hi].
  - rewrite !byte_splice by (rewrite ?zlen_splice; lia). rewrite E. by destruct (_ && _).
  - unfold byte. replace (Z.to_nat i) with (Z.to_nat 0) by lia. fold (byte (splice (splice l p a) p b) 0).
    fold (byte (splice l p b) 0). rewrite !byte_splice by (rewrite ?zlen_splice; lia). rewrite E. by destruct (_ && _).
Qed.

(** What [rt_vsnprintf] leaves in an area of [size] bytes. *)
Definition truncated (size : Z) (out : list Z) : list Z := take (Z.to_nat (size - 1)) out ++ [0].

Lemma zlen_truncated size out : 1 ≤ size → zlen (truncated size out) = Z.min size (zlen out + 1).
Proof. intros. unfold truncated. rewrite zlen_app, zlen_take_min by lia. change (zlen [0]) with 1. lia. Qed.

Lemma terminate_ok m buf size out : 0 ≤ buf → 0 < size → buf + size ≤ zlen m →
  (if buf + zlen out <? buf + size then store8 (buf + zlen out) 0 else store8 (buf + size - 1) 0)
    (written (buf + size) buf out m) = Ok (splice m buf (truncated size out)) tt.
Proof.
  intros. pose proof (zlen_nonneg out). unfold store8. change [u8 0] with [0]. assert (zlen [0] = 1) as Hz0 by done.
  destruct (Z.ltb_spec (buf + zlen out) (buf + size)) as [Hlt|Hge];
    rewrite store_bytes_ok by (rewrite ?zlen_written; lia); f_equal; unfold written, truncated;
    replace (buf + size - buf) with size by lia.
  - rewrite !(take_ge out) by (unfold zlen in *; lia). by rewrite splice_splice_app by lia.
  - set (xs := take (Z.to_nat (size - 1)) out).
    assert (∃ x, take (Z.to_nat size) out = xs ++ [x]) as [x ->].
    { replace (Z.to_nat size) with (S (Z.to_nat (size - 1))) by lia.
      destruct (lookup_lt_is_Some_2 out (Z.to_nat (size - 1))) as [x Hx]; [unfold zlen in *; lia|].
      exists x. by erewrite take_S_r. }
    assert (zlen xs = size - 1) as Hxs by (unfold xs; rewrite zlen_take_min; lia).
    assert (zlen [x] = 1) as Hx by done.
    replace (buf + size - 1) with (buf + zlen xs) by lia.
    rewrite <- !(splice_splice_app m xs) by lia. apply splice_over; rewrite ?zlen_splice; lia.
Qed.

Lemma rt_vsnprintf_ok m buf size fmt args out :
  Forall is_byte fmt → Forall arg_ok args → format_text fmt args = Some out →
  0 ≤ buf → 0 ≤ size → buf + size ≤ zlen m → zlen m < 2 ^ 32 → buf + zlen out < 2 ^ 32 →
  rt_vsnprintf buf size fmt args m =
    Ok (if size =? 0 then m else splice m buf (truncated size out)) (s32 (zlen out)).
Proof.
  intros Hf Ha Ht Hb Hs Hfit Hm Hout. unfold rt_vsnprintf. rewrite u32_small by lia.
  rewrite (proj2 (Z.ltb_ge (buf + size) buf)) by lia.
  rewrite (bind_ok _ _ _ _ _ (format_loop_emits (buf + size) _ fmt args out Hf Ha Ht buf m Hb Hfit Hout)).
  pose proof (zlen_nonneg out). replace (buf + zlen out - buf) with (zlen out) by lia.
  destruct (Z.eqb_spec size 0) as [->|].
  - rewrite written_past by lia. done.
  - rewrite (proj2 (Z.ltb_lt 0 size)) by lia.
    by rewrite (bind_ok _ _ _ _ _ (terminate_ok m buf size out Hb ltac:(lia) Hfit)).
Qed.

(** C27: [rt_vsnprintf] leaves in its area the first [size - 1] characters of the
    formatted text and a NUL behind them, writes nothing outside the area,
    and nothing at all when the area is empty; it returns the length of the
    whole text as an [int], so that for a text below 2^31 characters a result of
    [size] or more tells of the truncation. The widths and precisions are any
    [int]s, also those the padding counters wrap for; the text, as far as it is
    counted, stays inside the address space ([buf + zlen out < 2 ^ 32]). *)
Theorem rt_vsnprintf_spec m buf size fmt args out :
  Forall is_byte fmt → Forall arg_ok args → format_text fmt args = Some out →
  0 ≤ buf → 0 ≤ size → buf + size ≤ zlen m → zlen m < 2 ^ 32 → buf + zlen out < 2 ^ 32 →
  rt_vsnprintf buf size fmt args m =
    Ok (if size =? 0 then m else splice m buf (truncated size out)) (s32 (zlen out)).
Proof. apply rt_vsnprintf_ok. Qed.

(** ** Numerals *)

(** The value of a decimal digit character. *)
Definition digit_value (c : Z) : Z := c - 48.
Fixpoint decimal_value (acc : Z) (s : list Z) : Z :=
  match s with [] => acc | c :: s' => decimal_value (acc * 10 + digit_value c) s' end.

Lemma decimal_digit n : byte small_digits (n mod 10) = 48 + n mod 10.
Proof.
  pose proof (Z.mod_pos_bound n 10 eq_refl) as Hi. set (i := n mod 10) in *. clearbody i.
  assert (i ∈ seqZ 0 10) as Hin by (apply elem_of_seqZ; lia). revert Hin.
  assert (Forall (λ i, byte small_digits i = 48 + i) (seqZ 0 10)) as HF by (repeat constructor).
  rewrite Forall_forall in HF. apply HF.
Qed.
Lemma decimal_value_app acc a b : decimal_value acc (a ++ b) = decimal_value (decimal_value acc a) b.
Proof. revert acc. induction a as [|c a IH]; intros acc; [done|]. apply IH. Qed.
Lemma decimal_numeral_from k n : 0 ≤ n < 10 ^ Z.of_nat k → decimal_value 0 (numeral_from k 10 small_digits n) = n.
Proof.
  revert n. induction k as [|k IH]; intros n Hn; simpl; [simpl in Hn; lia|].
  destruct (Z.eqb_spec n 0) as [->|]; [done|]. rewrite Nat2Z.inj_succ, Z.pow_succ_r in Hn by lia.
  rewrite decimal_value_app, IH by (split; [apply Z.div_pos; lia|apply Z.div_lt_upper_bound; lia]).
  cbn [decimal_value]. rewrite decimal_digit. unfold digit_value. pose proof (Z.div_mod n 10). lia.
Qed.
Lemma decimal_digits_from k n : Forall (λ c, 48 ≤ c ≤ 57) (numeral_from k 10 small_digits n).
Proof.
  revert n. induction k as [|k IH]; intros n; simpl; [constructor|]. destruct (n =? 0); [constructor|].
  apply Forall_app. split; [apply IH|]. constructor; [|constructor]. rewrite decimal_digit.
  pose proof (Z.mod_pos_bound n 10). lia.
Qed.
Lemma decimal_numeral n : 0 ≤ n < 2 ^ 32 →
  decimal_value 0 (numeral 10 small_digits n) = n ∧ Forall (λ c, 48 ≤ c ≤ 57) (numeral 10 small_digits n).
Proof.
  intros Hn. unfold numeral. destruct (Z.eqb_spec n 0) as [->|].
  { split; [done|]. by repeat constructor. }
  split; [|apply decimal_digits_from]. apply decimal_numeral_from. split; [lia|].
  apply Z.lt_trans with (2 ^ 32); [lia|]. by vm_compute.
Qed.

Lemma digit_ISDIGIT c : 48 ≤ c ≤ 57 → _ISDIGIT c = true.
Proof. intros. unfold _ISDIGIT. rewrite u32_small by lia. apply Z.ltb_lt. lia. Qed.

(** [skip_atoi] reads digits up to the first other character. *)
Lemma skip_atoi_ok s rest acc : Forall (λ c, 48 ≤ c ≤ 57) s → _ISDIGIT (cur rest) = false → 0 ≤ acc →
  decimal_value acc s < 2 ^ 31 → skip_atoi acc (s ++ rest) = (decimal_value acc s, rest).
Proof.
  intros Hs Hr. revert acc. induction Hs as [|c s Hc Hs IH]; intros acc Ha Hv.
  { simpl. destruct rest as [|c rest]; [done|]. simpl in *. by rewrite Hr. }
  simpl in *. rewrite digit_ISDIGIT by done.
  assert (Hmono : ∀ s a, Forall (λ c, 48 ≤ c ≤ 57) s → 0 ≤ a → a ≤ decimal_value a s).
  { clear. intros s. induction s as [|c s IH]; intros a Hs Ha; [simpl; lia|]. inversion_clear Hs as [|?? Hc Hs'].
    simpl. specialize (IH (a * 10 + digit_value c) Hs'). unfold digit_value in *. lia. }
  pose proof (Hmono s (acc * 10 + digit_value c) Hs) as Hm. unfold digit_value in *.
  replace (s32 (acc * 10 + c - 48)) with (acc * 10 + (c - 48)) by (rewrite s32_small; lia).
  apply IH; [lia|done].
Qed.

Lemma zlen_numeral_from k b digits n : zlen (numeral_from k b digits n) ≤ Z.of_nat k.
Proof.
  revert n. induction k as [|k IH]; intros n; simpl numeral_from; [done|].
  destruct (n =? 0); [change (zlen (@nil Z)) with 0; lia|]. rewrite zlen_app. specialize (IH (n / b)).
  change (zlen [_]) with 1. lia.
Qed.
Lemma zlen_decimal n : 0 ≤ n < 2 ^ 32 → 1 ≤ zlen (numeral 10 small_digits n) ≤ 10.
Proof.
  intros Hn. unfold numeral. destruct (Z.eqb_spec n 0); [done|].
  assert (numeral_from 32 10 small_digits n = numeral_from 10 10 small_digits n) as ->.
  { apply numeral_from_fuel; [lia|lia| |].
    - apply Z.lt_trans with (2 ^ 32); [lia|by vm_compute].
    - apply Z.lt_trans with (2 ^ 32); [lia|by vm_compute]. }
  split; [|apply zlen_numeral_from].
  simpl numeral_from. rewrite (proj2 (Z.eqb_neq n 0)) by done. rewrite zlen_app.
  match goal with |- _ ≤ zlen ?l + _ => pose proof (zlen_nonneg l) end. change (zlen [_]) with 1. lia.
Qed.

(** ["%d"], ["%x"], ["%o"], ["%.0d"] *)
Definition fmt_d : list Z := [37; 100].
Definition fmt_x : list Z := [37; 120].
Definition fmt_o : list Z := [37; 111].
Definition fmt_0d : list Z := [37; 46; 48; 100].

(** The characters of a signed number. *)
Definition signed_text (n : Z) : list Z :=
  (if n <? 0 then [45] else []) ++ numeral 10 small_digits (Z.abs n).

Lemma format_directive rest args d out args' :
  rest ≠ [] → scan_directive rest args = Some (d, [], args) → convert_text d args = Some (out, args') →
  format_text (37 :: rest) args = Some out.
Proof.
  intros Hr Hs Hc. destruct rest as [|c rest]; [done|]. unfold format_text. simpl length.
  change (text_from (S (S (S (length rest)))) (37 :: c :: rest) args) with
    ('(d, fmt', args) ← scan_directive (c :: rest) args;
     '(out, args) ← convert_text d args; app out <$> text_from (S (S (length rest))) fmt' args).
  rewrite Hs. cbn [mbind option_bind]. rewrite Hc. simpl. by rewrite app_nil_r.
Qed.

Lemma integer_value_s32 flags w : s32 (integer_value 0 flags w) = s32 w.
Proof.
  unfold integer_value. simpl. destruct (has flags SIGN); by rewrite ?u32_s32, ?u32_u32, s32_u32.
Qed.

(** Without a width nothing is padded. *)
Lemma no_padding (sign body : list Z) room : zlen sign ≤ 1 → - 2 ^ 30 ≤ room < 0 →
  (if 0 <? s32 room then times (s32 (s32 room - zlen sign)) 32 ++ sign ++ body
   else sign ++ times (s32 (s32 room - 1 - zlen sign)) 32 ++ body ++ behind (s32 (s32 room - 1 - zlen sign))) =
  sign ++ body.
Proof.
  intros. pose proof (zlen_nonneg sign). rewrite (s32_small room), (proj2 (Z.ltb_ge 0 room)) by lia.
  by rewrite s32_small, times_nil, behind_nil, app_nil_r by lia.
Qed.
Lemma number_text_plain n : - 2 ^ 31 ≤ n < 2 ^ 31 → number_text n 10 (-1) (-1) SIGN = signed_text n.
Proof.
  intros Hn. unfold number_text, signed_text. change (has SIGN SIGN) with true. change (has SIGN LEFT) with false.
  change (has SIGN ZEROPAD) with false. change (has SIGN PLUS) with false. change (has SIGN SPACE) with false.
  change (has SIGN LARGE) with false. cbn [andb]. change (10 =? 10) with true. cbv iota zeta.
  assert ((if n <? 0 then - n else u32 n) = Z.abs n) as ->.
  { destruct (Z.ltb_spec n 0); [lia|]. rewrite u32_small; lia. }
  pose proof (zlen_decimal (Z.abs n) ltac:(lia)). change (-1 =? 0) with false. cbv iota.
  rewrite no_padding by (destruct (n <? 0); done || lia). by rewrite times_nil by lia.
Qed.
Lemma format_d n : - 2 ^ 31 ≤ n < 2 ^ 31 → format_text fmt_d [AInt n] = Some (signed_text n).
Proof.
  intros Hn. apply (format_directive [100] _ (mk_directive 0 (-1) (-1) 0 100) _ []); [done|reflexivity|].
  transitivity (Some (number_text (s32 (integer_value 0 SIGN n)) 10 (-1) (-1) SIGN, @nil arg)); [reflexivity|].
  by rewrite integer_value_s32, s32_small, number_text_plain by lia.
Qed.

(** C28: What [rt_snprintf] prints for ["%d"] is the number: [skip_atoi], which the
    formatter reads widths with, gets the number back from the digits, and a
    minus sign stands before those of a negative one; eleven characters and a
    NUL are always enough. *)
Theorem decimal_roundtrip m buf size n :
  - 2 ^ 31 < n < 2 ^ 31 → 0 ≤ buf → 12 ≤ size → buf + size ≤ zlen m → zlen m < 2 ^ 32 →
  ∃ digits, let text := (if n <? 0 then [45] else []) ++ digits in
    rt_snprintf buf size fmt_d [AInt n] m = Ok (splice m buf (text ++ [0])) (zlen text) ∧
    ∀ rest, _ISDIGIT (cur rest) = false → skip_atoi 0 (digits ++ rest) = (Z.abs n, rest).
Proof.
  intros Hn Hb Hs Hfit Hm. exists (numeral 10 small_digits (Z.abs n)).
  fold (signed_text n). destruct (decimal_numeral (Z.abs n)) as [Hv Hd]; [lia|].
  pose proof (zlen_decimal (Z.abs n)) as Hz. split.
  - assert (zlen (signed_text n) ≤ 11) as Hl.
    { unfold signed_text. rewrite zlen_app. destruct (n <? 0);
        [change (zlen [45]) with 1|change (zlen (@nil Z)) with 0]; lia. }
    unfold rt_snprintf. rewrite (rt_vsnprintf_ok m buf size _ _ (signed_text n)); try lia.
    + pose proof (zlen_nonneg (signed_text n)). rewrite (proj2 (Z.eqb_neq size 0)), (s32_small (zlen _)) by lia. unfold truncated.
      by rewrite take_ge by (unfold zlen in *; lia).
    + repeat constructor; done.
    + by repeat constructor.
    + apply format_d. lia.
  - intros rest Hr. rewrite skip_atoi_ok; [by rewrite Hv|done|done|lia|lia].
Qed.

(** A field is as wide as asked, and the number at least as long as its precision. *)
Lemma number_text_width num base width precision flags : precision ≠ 0 →
  - 2 ^ 31 ≤ width < 2 ^ 31 → - 2 ^ 31 ≤ precision < 2 ^ 31 →
  Z.max width precision ≤ zlen (number_text num base width precision flags).
Proof.
  intros Hp Hw Hpr. rewrite number_text_parts. unfold parts_text. rewrite (proj2 (Z.eqb_neq precision 0)) by done.
  assert (Ht : ∀ n c, zlen (times n c) = Z.max n 0) by (intros; unfold times, zlen; rewrite length_replicate; lia).
  set (ds := numeral _ _ _). pose proof (zlen_nonneg ds). set (sg := sign_text (number_sign num flags)).
  pose proof (zlen_nonneg sg). assert (zlen sg ≤ 1) by (unfold sg, sign_text; by destruct (_ =? 0)).
  set (room := s32 (width - Z.max precision (zlen ds))).
  assert (Z.max precision (zlen ds) < width → room = width - Z.max precision (zlen ds)) as Hr
    by (intros; apply s32_small; lia).
  assert (Hs : 0 < room → s32 (room - zlen sg) = room - zlen sg) by
    (pose proof (s32_range (width - Z.max precision (zlen ds))); intros; apply s32_small; lia).
  destruct (has flags LEFT), (has flags ZEROPAD); cbn [andb negb];
    try destruct (Z.ltb_spec 0 room); rewrite !zlen_app, ?zlen_app, !Ht;
    try pose proof (zlen_nonneg (behind (s32 (room - zlen sg))));
    try pose proof (zlen_nonneg (behind (s32 (room - 1 - zlen sg)))); lia.
Qed.

(** ** Two conversions that print something else *)

Lemma tmp_digits_octal fuel num digits tmp m : tmp_digits fuel num 8 digits tmp m = tmp_digits fuel num 16 digits tmp m.
Proof.
  revert num tmp. induction fuel as [|fuel IH]; intros num tmp; [done|]. simpl. destruct (num =? 0); [done|].
  change (divide num 8) with (divide num 16). destruct (divide num 16). by destruct (zlen tmp <? TMP_SIZE).
Qed.
Lemma print_number_octal end_ num s precision flags buf m :
  print_number end_ num 8 s precision flags buf m = print_number end_ num 16 s precision flags buf m.
Proof.
  unfold print_number. cbv zeta. destruct (if has _ SIGN then _ else _) as [sign n].
  unfold mbind, ST_bind. destruct (n =? 0); [done|]. by rewrite tmp_digits_octal.
Qed.

(** ["%o"] does not print octal digits: whatever the argument, it prints what
    ["%x"] prints. *)
Theorem octal_prints_hexadecimal m buf size w :
  rt_snprintf buf size fmt_o [AInt w] m = rt_snprintf buf size fmt_x [AInt w] m.
Proof.
  assert (Hl : ∀ end_ str, format_loop 3 end_ fmt_o [AInt w] str m = format_loop 3 end_ fmt_x [AInt w] str m).
  { intros end_ str.
    assert (Hc : ∀ b, format_loop 3 end_ (if b : bool then fmt_o else fmt_x) [AInt w] str m =
      (str ← print_number end_ (s32 (integer_value 0 0 w)) (if b then 8 else 16) (-1) (-1) 0 str; mret str) m).
    { intros b. destruct b; cbv -[print_number integer_value s32]; by destruct (print_number _ _ _ _ _ _ _ _). }
    etransitivity; [exact (Hc true)|]. etransitivity; [|symmetry; exact (Hc false)].
    unfold mbind, ST_bind. by rewrite print_number_octal. }
  unfold rt_snprintf, rt_vsnprintf. cbv zeta. change (S (length fmt_o)) with 3%nat. change (S (length fmt_x)) with 3%nat.
  destruct (if _ <? _ then _ else _) as [e sz]. unfold mbind at 1 3. unfold ST_bind at 1 3. by rewrite Hl.
Qed.

(** With a precision of zero no number prints a digit, not only zero: ["%.0d"]
    of any non-negative number leaves an empty string. *)
Theorem precision_zero_prints_nothing m buf size n :
  0 ≤ n < 2 ^ 31 → 0 ≤ buf → 0 < size → buf + size ≤ zlen m → zlen m < 2 ^ 32 →
  rt_snprintf buf size fmt_0d [AInt n] m = Ok (splice m buf [0]) 0.
Proof.
  intros Hn Hb Hs Hfit Hm. unfold rt_snprintf.
  rewrite (rt_vsnprintf_ok m buf size _ _ []); try lia.
  - rewrite (proj2 (Z.eqb_neq size 0)) by lia. unfold truncated. by rewrite take_nil.
  - repeat constructor; done.
  - by repeat constructor.
  - apply (format_directive [46; 48; 100] _ (mk_directive 0 (-1) 0 0 100) _ []); [done|reflexivity|].
    transitivity (Some (number_text (s32 (integer_value 0 SIGN n)) 10 (-1) 0 SIGN, @nil arg)); [reflexivity|].
    rewrite integer_value_s32, s32_small by lia. unfold number_text. rewrite (proj2 (Z.ltb_ge n 0)) by lia.
    change (has SIGN LEFT) with false. change (has SIGN ZEROPAD) with false. change (has SIGN SIGN) with true.
    change (has SIGN PLUS) with false. change (has SIGN SPACE) with false. cbn [andb]. cbv iota zeta.
    rewrite u32_small by lia. pose proof (zlen_decimal n ltac:(lia)). change (has SIGN LARGE) with false.
    change (10 =? 10) with true. cbv iota. change (0 =? 0) with true. cbv iota. rewrite app_nil_r.
    rewrite no_padding by (done || lia). by rewrite times_nil by lia.
  - change (zlen (@nil Z)) with 0. lia.
Qed.
