(* ===== verification/Scheduler.v ===== *)
(** * The scheduler ([scheduler.c], [irq.c]), its context-switch request ([context_gcc.S]) and [errno] *)

From Stdlib Require Import ZArith Lia.
From stdpp Require Import base gmap list fin_maps.
From S2P Require Import RTThread.
From S2P Require Import Prelude.
From S2P Require Import ListModel.
From S2P Require Import Kernel.
From S2P Require Import Kservice.

(** ** Interrupt nesting ([irq.c]) *)

Definition rt_interrupt_enter : K unit :=
  level ← rt_hw_interrupt_disable;
  modify (λ s, set_k_interrupt_nest (u8 (k_interrupt_nest s + 1)) s);;
  rt_hw_interrupt_enable level.

Definition rt_interrupt_leave : K unit :=
  level ← rt_hw_interrupt_disable;
  modify (λ s, set_k_interrupt_nest (u8 (k_interrupt_nest s - 1)) s);;
  rt_hw_interrupt_enable level.

Definition rt_interrupt_get_nest : K Z :=
  level ← rt_hw_interrupt_disable;
  ret ← gets k_interrupt_nest;
  rt_hw_interrupt_enable level;;
  mret ret.

(** ** Requesting a context switch

    The port records the switch for [PendSV_Handler]; a request made while
    one is pending keeps the original outgoing thread. *)
Definition rt_hw_context_switch (from to : ptr) : K unit :=
  flag ← gets k_switch_flag;
  when (negb (flag =? 1))
    (modify (set_k_switch_flag 1);; modify (set_k_switch_from from));;
  modify (set_k_switch_to to).

(** The first switch: no outgoing thread. *)
Definition rt_hw_context_switch_to (to : ptr) : K unit :=
  modify (set_k_switch_to to);;
  modify (set_k_switch_from RT_NULL);;
  modify (set_k_switch_flag 1);;
  modify (set_k_primask 0).

(** The exception handler that carries a requested switch out: its effect on
    the kernel's variables, and the threads whose contexts it saves and
    restores (saving and restoring the registers is not modelled). *)
Definition PendSV_Handler : K (option (ptr * ptr)) :=
  flag ← gets k_switch_flag;
  if flag =? 0 then mret None
  else
    modify (set_k_switch_flag 0);;
    from ← gets k_switch_from;
    to ← gets k_switch_to;
    mret (Some (from, to)).

(** ** [scheduler.c] *)

(** [rt_thread_priority_table[prio]]: an index outside the table is a fault. *)
Definition priority_table (prio : Z) : K thead :=
  if (0 <=? prio) && (prio <? RT_THREAD_PRIORITY_MAX) then mret (HReady prio)
  else fail FNull.

Definition _rt_scheduler_stack_check (thread : ptr) : K unit :=
  rt_assert (negb (thread =? RT_NULL));;
  th ← get_thread thread;
  if negb (th_stack_guard th =? 35)
     || (th_sp th <=? th_stack_addr th)
     || (u32 (th_stack_addr th + th_stack_size th) <? th_sp th)
  then
    level ← rt_hw_interrupt_disable;
    if negb (level =? 0) then fail FHang else mret ()
  else mret ().

Definition rt_system_scheduler_init : K unit :=
  modify (set_k_lock_nest 0);;
  modify (λ s, set_k_tlists
    (foldr (λ i S, Store.init (HReady (Z.of_nat i)) S) (k_tlists s)
       (seq 0 (Z.to_nat RT_THREAD_PRIORITY_MAX))) s);;
  modify (set_k_current_priority (u8 (RT_THREAD_PRIORITY_MAX - 1)));;
  modify (set_k_current RT_NULL);;
  modify (set_k_group 0);;
  tlist_init HDefunct.

Definition rt_system_scheduler_start : K unit :=
  group ← gets k_group;
  let highest_ready_priority := u32 (__rt_ffs group - 1) in
  h ← priority_table highest_ready_priority;
  to_thread ← tlist_first h;
  modify (set_k_current to_thread);;
  rt_hw_context_switch_to to_thread.

Definition rt_schedule : K unit :=
  level ← rt_hw_interrupt_disable;
  lock ← gets k_lock_nest;
  if lock =? 0 then
    group ← gets k_group;
    let highest_ready_priority := u32 (__rt_ffs group - 1) in
    h ← priority_table highest_ready_priority;
    to_thread ← tlist_first h;
    current ← gets k_current;
    if negb (to_thread =? current) then
      modify (set_k_current_priority (u8 highest_ready_priority));;
      let from_thread := current in
      modify (set_k_current to_thread);;
      _rt_scheduler_stack_check to_thread;;
      nest ← gets k_interrupt_nest;
      if nest =? 0 then
        rt_hw_context_switch from_thread to_thread;;
        rt_hw_interrupt_enable level
      else
        (* [rt_hw_context_switch_interrupt] is the same routine *)
        rt_hw_context_switch from_thread to_thread;;
        rt_hw_interrupt_enable level
    else rt_hw_interrupt_enable level
  else rt_hw_interrupt_enable level.

Definition stat_of (th : rt_thread) : Z := Z.land (th_stat th) RT_THREAD_STAT_MASK.

Definition rt_schedule_insert_thread (thread : ptr) : K unit :=
  rt_assert (negb (thread =? RT_NULL));;
  temp ← rt_hw_interrupt_disable;
  upd_thread thread (λ th,
    set_th_stat (Z.lor RT_THREAD_READY
                   (Z.land (th_stat th) (Z.lnot RT_THREAD_STAT_MASK))) th);;
  th ← get_thread thread;
  h ← priority_table (th_current_priority th);
  tlist_push_back h thread;;
  modify (λ s, set_k_group (Z.lor (k_group s) (th_number_mask th)) s);;
  rt_hw_interrupt_enable temp.

Definition rt_schedule_remove_thread (thread : ptr) : K unit :=
  rt_assert (negb (thread =? RT_NULL));;
  temp ← rt_hw_interrupt_disable;
  tlist_remove thread;;
  th ← get_thread thread;
  h ← priority_table (th_current_priority th);
  empty ← tlist_isempty h;
  when empty
    (modify (λ s, set_k_group (Z.land (k_group s) (Z.lnot (th_number_mask th))) s));;
  rt_hw_interrupt_enable temp.

Definition rt_enter_critical : K unit :=
  level ← rt_hw_interrupt_disable;
  modify (λ s, set_k_lock_nest (s16 (k_lock_nest s + 1)) s);;
  rt_hw_interrupt_enable level.

Definition rt_exit_critical : K unit :=
  level ← rt_hw_interrupt_disable;
  modify (λ s, set_k_lock_nest (s16 (k_lock_nest s - 1)) s);;
  nest ← gets k_lock_nest;
  if nest <=? 0 then
    modify (set_k_lock_nest 0);;
    rt_hw_interrupt_enable level;;
    current ← gets k_current;
    when (negb (current =? RT_NULL)) rt_schedule
  else rt_hw_interrupt_enable level.

Definition rt_critical_level : K Z := gets (λ s, u16 (k_lock_nest s)).

(** ** What the operations do, as state transformers *)

(** The stored status is one of the four values of [rtdef.h] (signals, which
    use the upper bits, are not configured). *)
Definition known_stat (x : Z) : Prop :=
  x = RT_THREAD_INIT ∨ x = RT_THREAD_READY ∨ x = RT_THREAD_SUSPEND ∨ x = RT_THREAD_CLOSE.

Lemma stat_write c x : known_stat x → Z.lor c (Z.land x (Z.lnot RT_THREAD_STAT_MASK)) = c.
Proof. intros [->|[->|[->| ->]]]; apply Z.lor_0_r. Qed.
Lemma stat_read th : known_stat (th_stat th) → stat_of th = th_stat th.
Proof. unfold stat_of. by intros [->|[->|[->| ->]]]. Qed.

Definition ready_insert (t : ptr) (th : rt_thread) (s : kstate) : kstate :=
  set_k_group (Z.lor (k_group s) (th_number_mask th))
    (set_k_tlists (Store.push_back (HReady (th_current_priority th)) t (k_tlists s))
      (put_thread t (set_th_stat RT_THREAD_READY th) s)).

Definition ready_remove (t : ptr) (th : rt_thread) (s : kstate) : kstate :=
  set_k_group
    (if Store.isempty (HReady (th_current_priority th)) (Store.remove t (k_tlists s))
     then Z.land (k_group s) (Z.lnot (th_number_mask th)) else k_group s)
    (set_k_tlists (Store.remove t (k_tlists s)) s).

Definition highest_ready (s : kstate) : Z := u32 (__rt_ffs (k_group s) - 1).

(** The thread [rt_schedule] elects, and whether it differs from the current one. *)
Definition next_thread (s : kstate) : ptr :=
  default (k_current s) (head (Store.nodes (k_tlists s) (HReady (highest_ready s)))).
Definition must_switch (s : kstate) : bool :=
  (k_lock_nest s =? 0) && negb (next_thread s =? k_current s).

Definition schedule (s : kstate) : kstate :=
  let b := must_switch s in
  let fresh := b && negb (k_switch_flag s =? 1) in
  set_k_switch_to (if b then next_thread s else k_switch_to s)
    (set_k_switch_from (if fresh then k_current s else k_switch_from s)
      (set_k_switch_flag (if fresh then 1 else k_switch_flag s)
        (set_k_current (if b then next_thread s else k_current s)
          (set_k_current_priority
            (if b then u8 (highest_ready s) else k_current_priority s) s)))).

(** The stack of a thread passes the scheduler's check. *)
Definition stack_ok (th : rt_thread) : Prop :=
  th_stack_guard th = 35 ∧ th_stack_addr th < th_sp th ∧
  th_sp th ≤ u32 (th_stack_addr th + th_stack_size th).

Lemma not_null t : t ≠ 0 → negb (t =? RT_NULL) = true.
Proof. intros. by rewrite (proj2 (Z.eqb_neq t RT_NULL)). Qed.
#[export] Hint Resolve not_null : krun.

Lemma priority_table_ok p (s : kstate) :
  0 ≤ p < 32 → priority_table p s = Ok s (HReady p).
Proof.
  intros. unfold priority_table, RT_THREAD_PRIORITY_MAX.
  by rewrite (proj2 (Z.leb_le 0 p)), (proj2 (Z.ltb_lt p 32)) by lia.
Qed.
#[export] Hint Resolve priority_table_ok tlist_link_ok tmlist_link_ok : krun.

Lemma rt_schedule_insert_thread_ok s t th :
  k_threads s !! t = Some th → t ≠ 0 → 0 ≤ th_current_priority th < 32 →
  known_stat (th_stat th) → Store.unlinked (k_tlists s) t →
  rt_schedule_insert_thread t s = Ok (ready_insert t th s) tt.
Proof.
  intros Ht Hnz Hp Hst Hu. unfold rt_schedule_insert_thread, tlist_push_back.
  do 4 kstep. cbn. do 3 kstep. rewrite stat_write by done. reflexivity.
Qed.

Lemma rt_schedule_remove_thread_ok s t th :
  k_threads s !! t = Some th → t ≠ 0 → 0 ≤ th_current_priority th < 32 →
  rt_schedule_remove_thread t s = Ok (ready_remove t th s) tt.
Proof.
  intros Ht Hnz Hp. unfold rt_schedule_remove_thread, ready_remove.
  do 6 kstep. cbn.
  destruct (Store.isempty _ _); cbn [when]; kstep; reflexivity.
Qed.

Lemma stack_check_ok s t th :
  k_threads s !! t = Some th → t ≠ 0 → stack_ok th →
  _rt_scheduler_stack_check t s = Ok s tt.
Proof.
  intros Ht Hnz (Hg & Hlo & Hhi). unfold _rt_scheduler_stack_check. do 2 kstep.
  rewrite Hg, (proj2 (Z.leb_gt _ _) Hlo), (proj2 (Z.ltb_ge _ _) Hhi). reflexivity.
Qed.

Lemma rt_schedule_ok s to l th :
  Store.nodes (k_tlists s) (HReady (highest_ready s)) = to :: l →
  0 ≤ highest_ready s < 32 →
  k_threads s !! to = Some th → to ≠ 0 → stack_ok th →
  rt_schedule s = Ok (schedule s) tt.
Proof.
  intros Hl Hp Ht Hnz Hst. unfold rt_schedule, schedule, must_switch, next_thread.
  rewrite Hl. do 2 kstep. cbn.
  destruct (k_lock_nest s =? 0); [|reflexivity].
  kstep. cbn. fold (highest_ready s). kstep.
  erewrite bind_ok by (eapply tlist_first_ok; exact Hl). kstep. cbn.
  destruct (to =? k_current s); simpl; [reflexivity|].
  do 2 kstep. erewrite bind_ok by (eapply stack_check_ok; eauto). kstep. cbn.
  unfold rt_hw_context_switch.
  destruct (k_interrupt_nest s =? 0); rewrite bind_assoc; kstep; cbn;
    rewrite bind_assoc; destruct (k_switch_flag s =? 1); cbn [when negb];
    rewrite ?bind_assoc; ksteps; reflexivity.
Qed.

(** ** Error numbers ([kservice.c]): [errno], of the running thread or of interrupts *)

Definition rt_set_errno (error : Z) : K unit :=
  nest ← rt_interrupt_get_nest;
  if negb (nest =? 0) then modify (set_k_errno error)
  else
    tid ← rt_thread_self;
    if tid =? RT_NULL then modify (set_k_errno error)
    else upd_thread tid (set_th_error error).
(** The value [rt_get_errno] and [_rt_errno] give access to. *)
Definition rt_get_errno : K Z :=
  nest ← rt_interrupt_get_nest;
  if negb (nest =? 0) then gets k_errno
  else
    tid ← rt_thread_self;
    if tid =? RT_NULL then gets k_errno
    else th ← get_thread tid; mret (th_error th).
