(* ===== verification/Object.v ===== *)
(** * Kernel object management ([object.c]) *)

From Stdlib Require Import ZArith Lia.
From stdpp Require Import base gmap list fin_maps.
From S2P Require Import RTThread.
From S2P Require Import Prelude.
From S2P Require Import ListModel.
From S2P Require Import Kernel.
From S2P Require Import Kservice.
From S2P Require Import Scheduler.

(** The classes with a container in this configuration (no memheap and no
    module support), in the order of [rt_object_container]. *)
Definition rt_object_container : list Z :=
  [ RT_Object_Class_Thread; RT_Object_Class_Semaphore; RT_Object_Class_Mutex;
    RT_Object_Class_Event; RT_Object_Class_MailBox; RT_Object_Class_MessageQueue;
    RT_Object_Class_MemPool; RT_Object_Class_Device; RT_Object_Class_Timer ].

Fixpoint find_container (l : list Z) (type : Z) : option Z :=
  match l with
  | [] => None
  | c :: l' => if c =? type then Some c else find_container l' type
  end.
(** The container of a class, named by the class itself. *)
Definition rt_object_get_information (type : Z) : option Z :=
  find_container rt_object_container type.

Definition container_nodes (info : Z) : K (list ptr) :=
  gets (λ s, Store.nodes (k_containers s) info).

Definition rt_object_get_length (type : Z) : K Z :=
  match rt_object_get_information type with
  | None => mret 0
  | Some info =>
      level ← rt_hw_interrupt_disable;
      l ← container_nodes info;
      rt_hw_interrupt_enable level;;
      mret (Z.of_nat (length l))
  end.

(** The scan stops once [maxlen] pointers are stored. *)
Fixpoint copy_pointers (l : list ptr) (index maxlen : Z) : list ptr :=
  match l with
  | [] => []
  | o :: l' =>
      o :: (if maxlen <=? index + 1 then [] else copy_pointers l' (index + 1) maxlen)
  end.
(** The stored pointers; the C result is their number. *)
Definition rt_object_get_pointers (type maxlen : Z) : K (list ptr) :=
  if maxlen <=? 0 then mret []
  else match rt_object_get_information type with
       | None => mret []
       | Some info =>
           level ← rt_hw_interrupt_disable;
           l ← container_nodes info;
           rt_hw_interrupt_enable level;;
           mret (copy_pointers l 0 maxlen)
       end.

(** Memory of a static object before its first initialisation is zero. *)
Definition zero_object : rt_object := mk_object (replicate 8 0) 0 0.

Fixpoint assert_not_in (l : list ptr) (object : ptr) : K unit :=
  match l with
  | [] => mret ()
  | obj :: l' => rt_assert (negb (obj =? object));; assert_not_in l' object
  end.

Definition container_link (info object : Z) : K unit :=
  S ← gets k_containers;
  if decide (Store.unlinked S object)
  then modify (set_k_containers (Store.push_front info object S)) else fail FLinked.

Definition rt_object_init (object type : Z) (name : list Z) : K unit :=
  match rt_object_get_information type with
  | None => fail FAssert
  | Some info =>
      rt_enter_critical;;
      l ← container_nodes info;
      assert_not_in l object;;
      rt_exit_critical;;
      modify (λ s,
        let old := default zero_object (k_objects s !! object) in
        set_k_objects (<[object :=
          mk_object (rt_strncpy (obj_name old) name RT_NAME_MAX)
            (Z.lor type RT_Object_Class_Static) (obj_flag old)]> (k_objects s)) s);;
      temp ← rt_hw_interrupt_disable;
      container_link info object;;
      rt_hw_interrupt_enable temp
  end.

Definition rt_object_detach (object : ptr) : K unit :=
  rt_assert (negb (object =? RT_NULL));;
  upd_object object (set_obj_type 0);;
  temp ← rt_hw_interrupt_disable;
  modify (λ s, set_k_containers (Store.remove object (k_containers s)) s);;
  rt_hw_interrupt_enable temp.

(** [rt_memset(object, 0, size)] on fresh memory, and freeing an object: no
    record remains at its address. *)
Definition clear_memory (object : ptr) (s : kstate) : kstate :=
  set_k_objects (delete object (k_objects s))
    (set_k_threads (delete object (k_threads s))
    (set_k_timers (delete object (k_timers s))
    (set_k_sems (delete object (k_sems s))
    (set_k_mutexes (delete object (k_mutexes s))
    (set_k_events (delete object (k_events s))
    (set_k_mailboxes (delete object (k_mailboxes s))
    (set_k_mqs (delete object (k_mqs s)) s))))))).

(** [mem] is the address [RT_KERNEL_MALLOC] returns for the object. *)
Definition rt_object_allocate (mem type : Z) (name : list Z) : K ptr :=
  RT_DEBUG_NOT_IN_INTERRUPT;;
  match rt_object_get_information type with
  | None => fail FAssert
  | Some info =>
      if mem =? RT_NULL then mret RT_NULL
      else
        modify (clear_memory mem);;
        modify (λ s, set_k_objects (<[mem :=
          mk_object (rt_strncpy (obj_name zero_object) name RT_NAME_MAX) type 0]>
          (k_objects s)) s);;
        temp ← rt_hw_interrupt_disable;
        container_link info mem;;
        rt_hw_interrupt_enable temp;;
        mret mem
  end.

Definition rt_object_delete (object : ptr) : K unit :=
  rt_assert (negb (object =? RT_NULL));;
  o ← get_object object;
  rt_assert (Z.land (obj_type o) RT_Object_Class_Static =? 0);;
  upd_object object (set_obj_type RT_Object_Class_Null);;
  temp ← rt_hw_interrupt_disable;
  modify (λ s, set_k_containers (Store.remove object (k_containers s)) s);;
  rt_hw_interrupt_enable temp;;
  modify (clear_memory object).

Definition rt_object_is_systemobject (object : ptr) : K bool :=
  rt_assert (negb (object =? RT_NULL));;
  o ← get_object object;
  mret (negb (Z.land (obj_type o) RT_Object_Class_Static =? 0)).

Definition rt_object_get_type (object : ptr) : K Z :=
  rt_assert (negb (object =? RT_NULL));;
  o ← get_object object;
  mret (u8 (Z.land (obj_type o) (Z.lnot RT_Object_Class_Static))).

Fixpoint find_by_name (l : list ptr) (name : list Z) : K ptr :=
  match l with
  | [] => mret RT_NULL
  | object :: l' =>
      o ← get_object object;
      if rt_strncmp (obj_name o) name RT_NAME_MAX =? 0 then mret object
      else find_by_name l' name
  end.

(** [name] is [None] for a null pointer. *)
Definition rt_object_find (name : option (list Z)) (type : Z) : K ptr :=
  match name, rt_object_get_information type with
  | Some name, Some info =>
      RT_DEBUG_NOT_IN_INTERRUPT;;
      rt_enter_critical;;
      l ← container_nodes info;
      object ← find_by_name l name;
      rt_exit_critical;;
      mret object
  | _, _ => mret RT_NULL
  end.

(** The check every kernel call makes on its object. *)
Definition assert_class (object class : Z) : K unit :=
  rt_assert (negb (object =? RT_NULL));;
  ty ← rt_object_get_type object;
  rt_assert (ty =? class).

(** The checks that begin a delete. *)
Definition assert_dynamic (object class : Z) : K unit :=
  assert_class object class;;
  sys ← rt_object_is_systemobject object;
  rt_assert (negb sys).

(** ** What the operations do *)

(** The class an object header records, without the static flag. *)
Definition class_of (o : rt_object) : Z :=
  u8 (Z.land (obj_type o) (Z.lnot RT_Object_Class_Static)).
Definition is_static (o : rt_object) : bool :=
  negb (Z.land (obj_type o) RT_Object_Class_Static =? 0).

Lemma rt_object_get_type_ok s o x :
  k_objects s !! o = Some x → o ≠ 0 → rt_object_get_type o s = Ok s (class_of x).
Proof. intros Hx Ho. unfold rt_object_get_type. by ksteps. Qed.

Lemma rt_object_is_systemobject_ok s o x :
  k_objects s !! o = Some x → o ≠ 0 → rt_object_is_systemobject o s = Ok s (is_static x).
Proof. intros Hx Ho. unfold rt_object_is_systemobject. by ksteps. Qed.

Lemma assert_class_ok s o x c :
  k_objects s !! o = Some x → o ≠ 0 → class_of x = c → assert_class o c s = Ok s tt.
Proof.
  intros Hx Ho Hc. unfold assert_class. kstep.
  erewrite bind_ok by (eapply rt_object_get_type_ok; eauto).
  by rewrite Hc, Z.eqb_refl.
Qed.
#[export] Hint Resolve rt_object_get_type_ok rt_object_is_systemobject_ok
  assert_class_ok : krun.

(** Unregistering: the header's type is cleared and its node unlinked. *)
Definition object_detach (o : ptr) (x : rt_object) (s : kstate) : kstate :=
  set_k_containers (Store.remove o (k_containers s)) (put_object o (set_obj_type 0 x) s).

Lemma rt_object_detach_ok s o x :
  k_objects s !! o = Some x → o ≠ 0 → rt_object_detach o s = Ok (object_detach o x s) tt.
Proof. intros Hx Ho. unfold rt_object_detach. ksteps. reflexivity. Qed.
#[export] Hint Resolve rt_object_detach_ok : krun.

Lemma class_or_static c : c ∈ rt_object_container →
  ∀ x f, class_of (mk_object x (Z.lor c RT_Object_Class_Static) f) = c
         ∧ is_static (mk_object x (Z.lor c RT_Object_Class_Static) f) = true.
Proof.
  unfold class_of, is_static; simpl. intros Hc x f.
  repeat (apply elem_of_cons in Hc as [->|Hc]; [by vm_compute|]).
  by apply not_elem_of_nil in Hc.
Qed.

Lemma get_information_in type info :
  rt_object_get_information type = Some info → info = type ∧ type ∈ rt_object_container.
Proof.
  unfold rt_object_get_information.
  induction rt_object_container as [|c l IH]; simpl; [done|].
  destruct (Z.eqb_spec c type) as [->|]; intros Hi; [by simplify_eq; split; [|left]|].
  destruct (IH Hi). split; [done|by right].
Qed.
Lemma get_information_some type :
  type ∈ rt_object_container → rt_object_get_information type = Some type.
Proof.
  unfold rt_object_get_information.
  induction rt_object_container as [|c l IH]; simpl; [by intros []%not_elem_of_nil|].
  destruct (Z.eqb_spec c type) as [->|]; [done|].
  intros [->|?]%elem_of_cons; [done|auto].
Qed.

(** A failed registration test is an assertion failure. *)
Lemma assert_not_in_ok (s : kstate) l object :
  object ∉ l → assert_not_in l object s = Ok s tt.
Proof.
  induction l as [|x l IH]; simpl; [done|]. intros [Hx Hl]%not_elem_of_cons.
  rewrite (proj2 (Z.eqb_neq x object)) by congruence. kstep. auto.
Qed.
Lemma assert_not_in_fail (s : kstate) l object :
  object ∈ l → assert_not_in l object s = Err FAssert.
Proof.
  induction l as [|x l IH]; simpl; [by intros []%not_elem_of_nil|].
  intros Hin. destruct (Z.eqb_spec x object) as [->|]; [done|].
  cbn [negb]. kstep. apply IH. by apply elem_of_cons in Hin as [->|?].
Qed.
