(* ===== verification/TimerCore.v ===== *)
(** * Timers, first part ([timer.c]): initialisation, removal, stop and control

    [RT_TIMER_SKIP_LIST_LEVEL] is 1 in this configuration, so a timer has one
    row and each timer list is one ring. *)

From Stdlib Require Import ZArith Lia.
From stdpp Require Import base gmap list fin_maps.
From S2P Require Import RTThread.
From S2P Require Import Prelude.
From S2P Require Import ListModel.
From S2P Require Import Kernel.
From S2P Require Import Kservice.
From S2P Require Import Scheduler.
From S2P Require Import Object.

(** The flag updates [flag &= ~mask] and [flag |= mask]. *)
Definition flag_clear (mask : Z) (o : rt_object) : rt_object :=
  set_obj_flag (Z.land (obj_flag o) (Z.lnot mask)) o.
Definition flag_set (mask : Z) (o : rt_object) : rt_object :=
  set_obj_flag (Z.lor (obj_flag o) mask) o.

(** [rt_list_init(&timer->row[0])]: the node must be on no ring. *)
Definition tmlist_init_node (timer : ptr) : K unit :=
  S ← gets k_tmlists;
  if decide (Store.unlinked S timer) then mret () else fail FLinked.

Definition _rt_timer_init (timer : ptr) (timeout : timeout_fn)
    (parameter time flag : Z) : K unit :=
  upd_object timer (set_obj_flag flag);;
  upd_object timer (flag_clear RT_TIMER_FLAG_ACTIVATED);;
  modify (λ s, set_k_timers
    (<[timer := mk_timer timeout parameter time 0]> (k_timers s)) s);;
  tmlist_init_node timer.

Definition rt_timer_list_next_timeout (h : tmhead) : K Z :=
  level ← rt_hw_interrupt_disable;
  empty ← tmlist_isempty h;
  timeout_tick ← (if (empty : bool) then mret RT_TICK_MAX
                  else timer ← tmlist_first h; tm ← get_timer timer;
                       mret (tm_timeout_tick tm));
  rt_hw_interrupt_enable level;;
  mret timeout_tick.

Definition _rt_timer_remove (timer : ptr) : K unit := tmlist_remove timer.

Definition rt_timer_init (timer : ptr) (name : list Z) (timeout : timeout_fn)
    (parameter time flag : Z) : K unit :=
  rt_assert (negb (timer =? RT_NULL));;
  rt_object_init timer RT_Object_Class_Timer name;;
  _rt_timer_init timer timeout parameter time flag.

Definition rt_timer_detach (timer : ptr) : K Z :=
  assert_class timer RT_Object_Class_Timer;;
  sys ← rt_object_is_systemobject timer;
  rt_assert sys;;
  level ← rt_hw_interrupt_disable;
  _rt_timer_remove timer;;
  upd_object timer (flag_clear RT_TIMER_FLAG_ACTIVATED);;
  rt_hw_interrupt_enable level;;
  rt_object_detach timer;;
  mret RT_EOK.

Definition rt_timer_create (mem : ptr) (name : list Z) (timeout : timeout_fn)
    (parameter time flag : Z) : K ptr :=
  timer ← rt_object_allocate mem RT_Object_Class_Timer name;
  if timer =? RT_NULL then mret RT_NULL
  else _rt_timer_init timer timeout parameter time flag;; mret timer.

Definition rt_timer_delete (timer : ptr) : K Z :=
  assert_dynamic timer RT_Object_Class_Timer;;
  level ← rt_hw_interrupt_disable;
  _rt_timer_remove timer;;
  upd_object timer (flag_clear RT_TIMER_FLAG_ACTIVATED);;
  rt_hw_interrupt_enable level;;
  rt_object_delete timer;;
  mret RT_EOK.

Definition rt_timer_stop (timer : ptr) : K Z :=
  assert_class timer RT_Object_Class_Timer;;
  o ← get_object timer;
  if negb (flag_on (obj_flag o) RT_TIMER_FLAG_ACTIVATED) then mret (- RT_ERROR)
  else
    level ← rt_hw_interrupt_disable;
    _rt_timer_remove timer;;
    upd_object timer (flag_clear RT_TIMER_FLAG_ACTIVATED);;
    rt_hw_interrupt_enable level;;
    mret RT_EOK.

Inductive timer_cmd : Set :=
  | RT_TIMER_CTRL_SET_TIME
  | RT_TIMER_CTRL_GET_TIME
  | RT_TIMER_CTRL_SET_ONESHOT
  | RT_TIMER_CTRL_SET_PERIODIC
  | RT_TIMER_CTRL_GET_STATE
  | RT_TIMER_CTRL_other.

(** [arg] is the value at the [arg] pointer; the value there afterwards is
    returned. *)
Definition rt_timer_control (timer : ptr) (cmd : timer_cmd) (arg : Z) : K Z :=
  assert_class timer RT_Object_Class_Timer;;
  level ← rt_hw_interrupt_disable;
  arg' ← match cmd with
    | RT_TIMER_CTRL_GET_TIME => tm ← get_timer timer; mret (tm_init_tick tm)
    | RT_TIMER_CTRL_SET_TIME =>
        upd_timer timer (set_tm_init_tick (u32 arg));; mret arg
    | RT_TIMER_CTRL_SET_ONESHOT =>
        upd_object timer (flag_clear RT_TIMER_FLAG_PERIODIC);; mret arg
    | RT_TIMER_CTRL_SET_PERIODIC =>
        upd_object timer (flag_set RT_TIMER_FLAG_PERIODIC);; mret arg
    | RT_TIMER_CTRL_GET_STATE =>
        o ← get_object timer;
        if flag_on (obj_flag o) RT_TIMER_FLAG_ACTIVATED
        then mret RT_TIMER_FLAG_ACTIVATED else mret RT_TIMER_FLAG_DEACTIVATED
    | RT_TIMER_CTRL_other => mret arg
    end;
  rt_hw_interrupt_enable level;;
  mret arg'.

(** ** What the operations do *)

(** Deactivating a timer, a no-op when it is not active. *)
Definition off_objects (T : ptr) (O : gmap ptr rt_object) : gmap ptr rt_object :=
  match O !! T with
  | Some o => if flag_on (obj_flag o) RT_TIMER_FLAG_ACTIVATED
              then <[T := flag_clear RT_TIMER_FLAG_ACTIVATED o]> O else O
  | None => O
  end.
Definition off_tmlists (T : ptr) (O : gmap ptr rt_object) (TL : gmap tmhead (list ptr))
    : gmap tmhead (list ptr) :=
  match O !! T with
  | Some o => if flag_on (obj_flag o) RT_TIMER_FLAG_ACTIVATED then Store.remove T TL else TL
  | None => TL
  end.
Definition timer_off (T : ptr) (s : kstate) : kstate :=
  set_k_objects (off_objects T (k_objects s))
    (set_k_tmlists (off_tmlists T (k_objects s) (k_tmlists s)) s).

Lemma rt_timer_stop_ok s T o :
  k_objects s !! T = Some o → T ≠ 0 → class_of o = RT_Object_Class_Timer →
  rt_timer_stop T s = Ok (timer_off T s)
    (if flag_on (obj_flag o) RT_TIMER_FLAG_ACTIVATED then RT_EOK else - RT_ERROR).
Proof.
  intros Ho HT Hc. unfold rt_timer_stop, timer_off, off_objects, off_tmlists. rewrite Ho.
  do 2 kstep. destruct (flag_on _ _); cbn [negb]; [|done].
  unfold _rt_timer_remove. ksteps. reflexivity.
Qed.
#[export] Hint Resolve rt_timer_stop_ok : krun.

Lemma rt_timer_set_time_ok s T o tm time :
  k_objects s !! T = Some o → T ≠ 0 → class_of o = RT_Object_Class_Timer →
  k_timers s !! T = Some tm →
  rt_timer_control T RT_TIMER_CTRL_SET_TIME time s
  = Ok (put_timer T (set_tm_init_tick (u32 time) tm) s) time.
Proof.
  intros Ho HT Hc Htm. unfold rt_timer_control. do 2 kstep. rewrite bind_assoc.
  ksteps. reflexivity.
Qed.
#[export] Hint Resolve rt_timer_set_time_ok : krun.

(** Detaching a static timer. *)
Definition timer_detach (T : ptr) (o : rt_object) (s : kstate) : kstate :=
  object_detach T (flag_clear RT_TIMER_FLAG_ACTIVATED o)
    (put_object T (flag_clear RT_TIMER_FLAG_ACTIVATED o)
      (set_k_tmlists (Store.remove T (k_tmlists s)) s)).

Lemma rt_timer_detach_ok s T o :
  k_objects s !! T = Some o → T ≠ 0 → class_of o = RT_Object_Class_Timer →
  is_static o = true → rt_timer_detach T s = Ok (timer_detach T o s) RT_EOK.
Proof.
  intros Ho HT Hc Hs. unfold rt_timer_detach, _rt_timer_remove. do 2 kstep.
  rewrite Hs. do 5 kstep. cbn.
  erewrite bind_ok.
  2:{ apply (rt_object_detach_ok _ _ (flag_clear RT_TIMER_FLAG_ACTIVATED o)); [|done].
      cbn. by rewrite lookup_insert_eq. }
  reflexivity.
Qed.
#[export] Hint Resolve rt_timer_detach_ok : krun.
