(* ===== verification/ThreadCore.v ===== *)
(** * Threads, first part ([thread.c]): suspend, resume and the wait timeout *)

From Stdlib Require Import ZArith Lia.
From stdpp Require Import base gmap list fin_maps.
From S2P Require Import RTThread.
From S2P Require Import Prelude.
From S2P Require Import ListModel.
From S2P Require Import Kernel.
From S2P Require Import Kservice.
From S2P Require Import Scheduler.
From S2P Require Import Object.
From S2P Require Import TimerCore.

Definition rt_thread_suspend (thread : ptr) : K Z :=
  assert_class thread RT_Object_Class_Thread;;
  th ← get_thread thread;
  if negb (stat_of th =? RT_THREAD_READY) then mret (- RT_ERROR)
  else
    temp ← rt_hw_interrupt_disable;
    rt_schedule_remove_thread thread;;
    upd_thread thread (λ th,
      set_th_stat (Z.lor RT_THREAD_SUSPEND
                     (Z.land (th_stat th) (Z.lnot RT_THREAD_STAT_MASK))) th);;
    rt_timer_stop (thread_timer thread);;
    rt_hw_interrupt_enable temp;;
    mret RT_EOK.

Definition rt_thread_resume (thread : ptr) : K Z :=
  assert_class thread RT_Object_Class_Thread;;
  th ← get_thread thread;
  if negb (stat_of th =? RT_THREAD_SUSPEND) then mret (- RT_ERROR)
  else
    temp ← rt_hw_interrupt_disable;
    tlist_remove thread;;
    rt_timer_stop (thread_timer thread);;
    rt_hw_interrupt_enable temp;;
    rt_schedule_insert_thread thread;;
    mret RT_EOK.

Definition rt_thread_timeout (thread : ptr) : K unit :=
  rt_assert (negb (thread =? RT_NULL));;
  th ← get_thread thread;
  rt_assert (stat_of th =? RT_THREAD_SUSPEND);;
  ty ← rt_object_get_type thread;
  rt_assert (ty =? RT_Object_Class_Thread);;
  upd_thread thread (set_th_error (- RT_ETIMEOUT));;
  tlist_remove thread;;
  rt_schedule_insert_thread thread;;
  rt_schedule.

(** ** What the operations do *)

Definition thread_suspend (t : ptr) (th : rt_thread) (s : kstate) : kstate :=
  timer_off (thread_timer t)
    (put_thread t (set_th_stat RT_THREAD_SUSPEND th) (ready_remove t th s)).

Definition thread_resume (t : ptr) (th : rt_thread) (s : kstate) : kstate :=
  ready_insert t th
    (timer_off (thread_timer t) (set_k_tlists (Store.remove t (k_tlists s)) s)).

(** A live thread: its header and its embedded timer are what the kernel
    calls expect of them. *)
Record thread_ok (s : kstate) (t : ptr) (th : rt_thread) : Prop := {
  to_nonnull : t ≠ 0;
  to_timer_nonnull : thread_timer t ≠ 0;
  to_prio : 0 ≤ th_current_priority th < 32;
  to_mask : th_number_mask th = 2 ^ th_current_priority th;
  to_class : ∃ o, k_objects s !! t = Some o ∧ class_of o = RT_Object_Class_Thread;
  to_timer_obj : ∃ o, k_objects s !! thread_timer t = Some o ∧
    class_of o = RT_Object_Class_Timer ∧
    flag_on (obj_flag o) RT_TIMER_FLAG_SOFT_TIMER = false;
  to_timer : ∃ tm, k_timers s !! thread_timer t = Some tm ∧
    tm_timeout_func tm = TF_thread_timeout ∧ tm_parameter tm = t;
  to_stack : stack_ok th
}.

Lemma rt_thread_suspend_ok s t th :
  k_threads s !! t = Some th → th_stat th = RT_THREAD_READY → thread_ok s t th →
  rt_thread_suspend t s = Ok (thread_suspend t th s) RT_EOK.
Proof.
  intros Ht Hst [Hnz HTnz Hp Hm (o & Ho & Hc) (oT & HoT & HcT & _) _ _].
  unfold rt_thread_suspend. do 2 kstep.
  rewrite stat_read, Hst, Z.eqb_refl by (rewrite Hst; by right; left). cbn [negb].
  kstep. erewrite bind_ok by (apply rt_schedule_remove_thread_ok; [exact Ht|done..]).
  kstep. erewrite bind_ok by (eapply rt_timer_stop_ok; [exact HoT|done..]). kstep.
  rewrite Hst. reflexivity.
Qed.

Lemma rt_thread_resume_ok s t th :
  k_threads s !! t = Some th → th_stat th = RT_THREAD_SUSPEND → thread_ok s t th →
  rt_thread_resume t s = Ok (thread_resume t th s) RT_EOK.
Proof.
  intros Ht Hst [Hnz HTnz Hp Hm (o & Ho & Hc) (oT & HoT & HcT & _) _ _].
  unfold rt_thread_resume. do 2 kstep.
  rewrite stat_read, Hst, Z.eqb_refl by (rewrite Hst; by right; right; left). cbn [negb].
  do 2 kstep. erewrite bind_ok by (eapply rt_timer_stop_ok; [exact HoT|done..]). kstep.
  lazymatch goal with |- _ ?x = _ =>
    change x with (timer_off (thread_timer t)
      (set_k_tlists (Store.remove t (k_tlists s)) s)) end.
  erewrite bind_ok; [reflexivity|]. apply rt_schedule_insert_thread_ok; try done.
  - rewrite Hst. by right; right; left.
  - apply Store.remove_unlinked.
Qed.
