(* ===== verification/Timer.v ===== *)
(** * Timers, second part ([timer.c]): start, expiry and the timer thread *)

From Stdlib Require Import ZArith Lia.
From stdpp Require Import base gmap list fin_maps.
From S2P Require Import RTThread.
From S2P Require Import Prelude.
From S2P Require Import ListModel.
From S2P Require Import Kernel.
From S2P Require Import Kservice.
From S2P Require Import Scheduler.
From S2P Require Import Object.
From S2P Require Import TimerCore.
From S2P Require Import ThreadCore.

(** Application code the kernel calls back: a function, by its address, and
    its argument. *)
Class External := ext_call : Z → Z → K unit.

Definition RT_SOFT_TIMER_IDLE : Z := 1.
Definition RT_SOFT_TIMER_BUSY : Z := 0.

(** The search of [rt_timer_start] along one timer list: [row_head] is the
    node after which the timer goes ([None] for the head). *)
Fixpoint timer_scan (timeout_tick : Z) (row_head : option ptr) (l : list ptr)
    : K (option ptr) :=
  match l with
  | [] => mret row_head
  | p :: l' =>
      t ← get_timer p;
      if u32 (tm_timeout_tick t - timeout_tick) =? 0
      then timer_scan timeout_tick (Some p) l'
      else if u32 (tm_timeout_tick t - timeout_tick) <? RT_TICK_MAX / 2
      then mret row_head
      else timer_scan timeout_tick (Some p) l'
  end.

Definition timer_insert_after (h : tmhead) (row_head : option ptr) (timer : ptr) : K unit :=
  tmlist_link timer
    (match row_head with
     | None => Store.push_front h timer
     | Some m => Store.insert_after h m timer
     end).

Definition rt_timer_start (timer : ptr) : K Z :=
  assert_class timer RT_Object_Class_Timer;;
  level ← rt_hw_interrupt_disable;
  _rt_timer_remove timer;;
  upd_object timer (flag_clear RT_TIMER_FLAG_ACTIVATED);;
  tm ← get_timer timer;
  rt_assert (tm_init_tick tm <? RT_TICK_MAX / 2);;
  tick ← rt_tick_get;
  let timeout_tick := u32 (tick + tm_init_tick tm) in
  upd_timer timer (set_tm_timeout_tick timeout_tick);;
  o ← get_object timer;
  let timer_list := if flag_on (obj_flag o) RT_TIMER_FLAG_SOFT_TIMER then TSoft else THard in
  l ← gets (λ s, Store.nodes (k_tmlists s) timer_list);
  row_head ← timer_scan timeout_tick None l;
  modify (λ s, set_k_random_nr (u32 (k_random_nr s + 1)) s);;
  timer_insert_after timer_list row_head timer;;
  upd_object timer (flag_set RT_TIMER_FLAG_ACTIVATED);;
  rt_hw_interrupt_enable level;;
  o ← get_object timer;
  when (flag_on (obj_flag o) RT_TIMER_FLAG_SOFT_TIMER)
    (soft_timer_status ← gets k_soft_timer_status;
     timer_thread ← gets k_timer_thread;
     th ← get_thread timer_thread;
     when ((soft_timer_status =? RT_SOFT_TIMER_IDLE)
           && (stat_of th =? RT_THREAD_SUSPEND))
       (rt_thread_resume timer_thread;; rt_schedule));;
  mret RT_EOK.

(** Restarting an expired periodic timer. *)
Definition timer_rearm (t : ptr) : K unit :=
  o ← get_object t;
  when (flag_on (obj_flag o) RT_TIMER_FLAG_PERIODIC
        && flag_on (obj_flag o) RT_TIMER_FLAG_ACTIVATED)
    (upd_object t (flag_clear RT_TIMER_FLAG_ACTIVATED);; rt_timer_start t;; mret ()).

(** Taking an expired timer off its list and onto the local one. *)
Definition timer_expire (t : ptr) (local : tmhead) : K unit :=
  _rt_timer_remove t;;
  o ← get_object t;
  when (negb (flag_on (obj_flag o) RT_TIMER_FLAG_PERIODIC))
    (upd_object t (flag_clear RT_TIMER_FLAG_ACTIVATED));;
  tmlist_link t (Store.push_front local t).

Section with_callbacks.
Context {ext : External}.

(** [t->timeout_func(t->parameter)]. *)
Definition call_timeout (t : ptr) : K unit :=
  tm ← get_timer t;
  match tm_timeout_func tm with
  | TF_thread_timeout => rt_thread_timeout (tm_parameter tm)
  | TF_user f => ext_call f (tm_parameter tm)
  end.

(** The loop of [rt_timer_check]; [fuel] bounds its iterations. *)
Fixpoint timer_check_loop (fuel : nat) (current_tick : Z) : K unit :=
  match fuel with
  | O => fail FHang
  | S fuel' =>
      empty ← tmlist_isempty THard;
      if (empty : bool) then mret ()
      else
        t ← tmlist_first THard;
        tm ← get_timer t;
        if u32 (current_tick - tm_timeout_tick tm) <? RT_TICK_MAX / 2 then
          timer_expire t TLocalHard;;
          call_timeout t;;
          current_tick' ← rt_tick_get;
          empty ← tmlist_isempty TLocalHard;
          if (empty : bool) then timer_check_loop fuel' current_tick'
          else
            tmlist_remove t;;
            timer_rearm t;;
            timer_check_loop fuel' current_tick'
        else mret ()
  end.

Definition rt_timer_check (fuel : nat) : K unit :=
  tmlist_init TLocalHard;;
  current_tick ← rt_tick_get;
  level ← rt_hw_interrupt_disable;
  timer_check_loop fuel current_tick;;
  rt_hw_interrupt_enable level.

Definition rt_timer_next_timeout_tick : K Z := rt_timer_list_next_timeout THard.

(** The loop of [rt_soft_timer_check]: the callback runs with the interrupt
    level [level] the function was entered with. *)
Fixpoint soft_timer_check_loop (fuel : nat) (level : Z) : K Z :=
  match fuel with
  | O => fail FHang
  | S fuel' =>
      empty ← tmlist_isempty TSoft;
      if (empty : bool) then mret level
      else
        t ← tmlist_first TSoft;
        current_tick ← rt_tick_get;
        tm ← get_timer t;
        if u32 (current_tick - tm_timeout_tick tm) <? RT_TICK_MAX / 2 then
          timer_expire t TLocalSoft;;
          modify (set_k_soft_timer_status RT_SOFT_TIMER_BUSY);;
          rt_hw_interrupt_enable level;;
          call_timeout t;;
          level' ← rt_hw_interrupt_disable;
          modify (set_k_soft_timer_status RT_SOFT_TIMER_IDLE);;
          empty ← tmlist_isempty TLocalSoft;
          if (empty : bool) then soft_timer_check_loop fuel' level'
          else
            tmlist_remove t;;
            timer_rearm t;;
            soft_timer_check_loop fuel' level'
        else mret level
  end.

Definition rt_soft_timer_check (fuel : nat) : K unit :=
  tmlist_init TLocalSoft;;
  level ← rt_hw_interrupt_disable;
  level' ← soft_timer_check_loop fuel level;
  rt_hw_interrupt_enable level'.

End with_callbacks.

Definition rt_system_timer_init : K unit := tmlist_init THard.

(** ** What starting a timer does *)

(** The position the search finds, as a pure function of the deadlines. *)
Fixpoint scan_pos (timers : gmap ptr rt_timer) (timeout_tick : Z)
    (row_head : option ptr) (l : list ptr) : option ptr :=
  match l with
  | [] => row_head
  | p :: l' =>
      let d := u32 (from_option tm_timeout_tick 0 (timers !! p) - timeout_tick) in
      if (d =? 0) || negb (d <? RT_TICK_MAX / 2)
      then scan_pos timers timeout_tick (Some p) l' else row_head
  end.

Definition timer_place (h : tmhead) (T : ptr) (timeout_tick : Z)
    (timers : gmap ptr rt_timer) (S : gmap tmhead (list ptr)) : gmap tmhead (list ptr) :=
  match scan_pos timers timeout_tick None (Store.nodes S h) with
  | None => Store.push_front h T S
  | Some m => Store.insert_after h m T S
  end.

Definition start_timer (T : ptr) (o : rt_object) (tm : rt_timer) (h : tmhead) (s : kstate) : kstate :=
  let timeout_tick := u32 (k_tick s + tm_init_tick tm) in
  let s1 := put_timer T (set_tm_timeout_tick timeout_tick tm) s in
  put_object T (flag_set RT_TIMER_FLAG_ACTIVATED (flag_clear RT_TIMER_FLAG_ACTIVATED o))
    (set_k_tmlists (timer_place h T timeout_tick (k_timers s1) (Store.remove T (k_tmlists s)))
      (set_k_random_nr (u32 (k_random_nr s + 1)) s1)).

Lemma timer_scan_ok s timeout_tick row l :
  (∀ p, p ∈ l → is_Some (k_timers s !! p)) →
  timer_scan timeout_tick row l s = Ok s (scan_pos (k_timers s) timeout_tick row l).
Proof.
  revert row. induction l as [|p l IH]; intros row Hl; simpl; [done|].
  destruct (Hl p) as [tm Htm]; [by left|]. kstep. rewrite Htm. simpl.
  destruct (_ =? 0); simpl; [apply IH; intros; apply Hl; by right|].
  destruct (_ <? _); simpl; [done|apply IH; intros; apply Hl; by right].
Qed.

Lemma scan_pos_in timers k row l m :
  scan_pos timers k row l = Some m → m ∈ l ∨ row = Some m.
Proof.
  revert row. induction l as [|p l IH]; intros row; simpl; [by right|].
  destruct (_ || _); [|by right]. intros [?|[= ->]]%IH; left; [by right|by left].
Qed.

(** Placing a timer adds it to one list and moves nothing else. *)
Lemma timer_place_perm h T k timers S :
  Store.nodes (timer_place h T k timers S) h ≡ₚ T :: Store.nodes S h.
Proof.
  unfold timer_place. destruct (scan_pos _ _ _ _) as [m|] eqn:Hm.
  - apply scan_pos_in in Hm as [Hm|]; [|done]. unfold Store.insert_after.
    rewrite Store.nodes_insert. by apply Store.insert_after_in_perm.
  - unfold Store.push_front. by rewrite Store.nodes_insert.
Qed.
Lemma timer_place_ne h h' T k timers S :
  h ≠ h' → Store.nodes (timer_place h T k timers S) h' = Store.nodes S h'.
Proof.
  intros. unfold timer_place, Store.insert_after, Store.push_front.
  destruct (scan_pos _ _ _ _); by rewrite Store.nodes_insert_ne.
Qed.
Lemma elem_of_timer_place h h' T k timers S n :
  n ∈ Store.nodes (timer_place h T k timers S) h' ↔
  (n = T ∧ h = h') ∨ n ∈ Store.nodes S h'.
Proof.
  destruct (decide (h = h')) as [<-|].
  - rewrite timer_place_perm, elem_of_cons. naive_solver.
  - rewrite timer_place_ne by done. naive_solver.
Qed.

Lemma flag_clear_set_class o : class_of (flag_set RT_TIMER_FLAG_ACTIVATED o) = class_of o.
Proof. done. Qed.

Lemma flags_rearm f :
  let off := Z.land f (Z.lnot RT_TIMER_FLAG_ACTIVATED) in
  let on := Z.lor off RT_TIMER_FLAG_ACTIVATED in
  flag_on on RT_TIMER_FLAG_ACTIVATED = true ∧
  flag_on on RT_TIMER_FLAG_PERIODIC = flag_on f RT_TIMER_FLAG_PERIODIC ∧
  flag_on on RT_TIMER_FLAG_SOFT_TIMER = flag_on f RT_TIMER_FLAG_SOFT_TIMER ∧
  flag_on off RT_TIMER_FLAG_ACTIVATED = false ∧
  flag_on off RT_TIMER_FLAG_PERIODIC = flag_on f RT_TIMER_FLAG_PERIODIC ∧
  flag_on off RT_TIMER_FLAG_SOFT_TIMER = flag_on f RT_TIMER_FLAG_SOFT_TIMER.
Proof.
  unfold RT_TIMER_FLAG_ACTIVATED, RT_TIMER_FLAG_PERIODIC, RT_TIMER_FLAG_SOFT_TIMER; cbv zeta.
  rewrite !flag_on_1, !flag_on_2, !flag_on_4. change 1 with (2 ^ 0).
  rewrite !testbit_set, !testbit_clear by done. cbn.
  by rewrite ?andb_true_r, ?andb_false_r, ?orb_false_r.
Qed.

Lemma rt_timer_start_hard_ok s T o tm :
  k_objects s !! T = Some o → T ≠ 0 → class_of o = RT_Object_Class_Timer →
  flag_on (obj_flag o) RT_TIMER_FLAG_SOFT_TIMER = false →
  k_timers s !! T = Some tm → tm_init_tick tm < RT_TICK_MAX / 2 →
  (∀ p, p ∈ Store.nodes (k_tmlists s) THard → is_Some (k_timers s !! p)) →
  rt_timer_start T s = Ok (start_timer T o tm THard s) RT_EOK.
Proof.
  intros Ho HT Hc Hsoft Htm Hinit Hall.
  destruct (flags_rearm (obj_flag o)) as (_ & _ & Hs1 & _ & _ & Hs2); cbv zeta in *.
  unfold rt_timer_start, _rt_timer_remove. do 5 kstep.
  rewrite (proj2 (Z.ltb_lt _ _) Hinit). do 4 kstep. cbn [flag_clear obj_flag set_obj_flag].
  rewrite Hs2, Hsoft. kstep.
  erewrite bind_ok.
  2:{ apply timer_scan_ok. cbn. intros p [Hp _]%Store.elem_of_remove.
      destruct (decide (p = T)) as [->|]; [by rewrite lookup_insert_eq|].
      rewrite lookup_insert_ne by done. auto. }
  kstep. unfold timer_insert_after.
  erewrite bind_ok by (apply tmlist_link_ok; cbn; apply Store.remove_unlinked).
  do 3 kstep. cbn [flag_set flag_clear obj_flag set_obj_flag].
  rewrite Hs1, Hsoft. cbn [when]. kstep.
  unfold start_timer, timer_place, put_object, put_timer.
  cbn -[insert lookup Store.remove Store.nodes]. rewrite insert_insert_eq. destruct (scan_pos _ _ _ _); reflexivity.
Qed.
#[export] Hint Resolve rt_timer_start_hard_ok : krun.
