(* ===== verification/Invariant.v ===== *)
(** * The kernel invariant: lists, bitmap, thread status and timers agree

    The invariant [wf], what keeps it, and [wf_check], a condition on a concrete
    state that implies it. *)

From Stdlib Require Import ZArith Lia.
From stdpp Require Import base gmap list fin_maps.
From S2P Require Import RTThread.
From S2P Require Import Prelude.
From S2P Require Import ListModel.
From S2P Require Import Kernel.
From S2P Require Import Kservice.
From S2P Require Import Scheduler.
From S2P Require Import Object.
From S2P Require Import TimerCore.
From S2P Require Import ThreadCore.
From S2P Require Import Timer.

(** ** The parts of the invariant, each over the maps it speaks of *)

Definition is_wait (h : thead) : Prop :=
  match h with HSuspend _ | HSender _ => True | _ => False end.

(** The ready lists hold the READY threads, each at its priority; a thread on
    a wait list is suspended; rings are disjoint. *)
Record lists_ok (T : gmap ptr rt_thread) (L : gmap thead (list ptr)) : Prop := {
  lo_wf : Store.wf L;
  lo_ready : ∀ t p, t ∈ Store.nodes L (HReady p) ↔
    ∃ th, T !! t = Some th ∧ th_stat th = RT_THREAD_READY ∧ th_current_priority th = p;
  lo_wait : ∀ t h, is_wait h → t ∈ Store.nodes L h →
    ∃ th, T !! t = Some th ∧ th_stat th = RT_THREAD_SUSPEND
}.

(** [rt_thread_ready_priority_group] has the bit of every non-empty list. *)
Definition group_ok (L : gmap thead (list ptr)) (g : Z) : Prop :=
  0 ≤ g < 2 ^ 32 ∧
  ∀ p, 0 ≤ p < 32 → Z.testbit g p = negb (Store.isempty (HReady p) L).

Definition live (th : rt_thread) : Prop :=
  th_stat th = RT_THREAD_READY ∨ th_stat th = RT_THREAD_SUSPEND.

(** The header and the embedded timer of a thread that is not closed. *)
Record header_ok (O : gmap ptr rt_object) (M : gmap ptr rt_timer)
    (t : ptr) (th : rt_thread) : Prop := {
  ho_nonnull : t ≠ 0;
  ho_timer_nonnull : thread_timer t ≠ 0;
  ho_class : ∃ o, O !! t = Some o ∧ class_of o = RT_Object_Class_Thread;
  ho_timer_obj : ∃ o, O !! thread_timer t = Some o ∧
    class_of o = RT_Object_Class_Timer ∧ is_static o = true ∧
    flag_on (obj_flag o) RT_TIMER_FLAG_SOFT_TIMER = false ∧
    flag_on (obj_flag o) RT_TIMER_FLAG_PERIODIC = false;
  ho_timer : ∃ tm, M !! thread_timer t = Some tm ∧
    tm_timeout_func tm = TF_thread_timeout ∧ tm_parameter tm = t;
  ho_stack : stack_ok th;
  ho_init_prio : 0 ≤ th_init_priority th < 32
}.

Record thread_wf (O : gmap ptr rt_object) (M : gmap ptr rt_timer)
    (t : ptr) (th : rt_thread) : Prop := {
  tw_stat : known_stat (th_stat th);
  tw_header : th_stat th ≠ RT_THREAD_CLOSE → header_ok O M t th;
  tw_prio : live th → 0 ≤ th_current_priority th < 32 ∧
                      th_number_mask th = 2 ^ th_current_priority th
}.
Definition threads_ok O M (T : gmap ptr rt_thread) : Prop :=
  ∀ t th, T !! t = Some th → thread_wf O M t th.

(** A timer on a timer list is active, on the list its flag selects, and a
    thread's own timer runs only while the thread is suspended. *)
Record armed (O : gmap ptr rt_object) (M : gmap ptr rt_timer)
    (T : gmap ptr rt_thread) (h : tmhead) (A : ptr) (o : rt_object) (tm : rt_timer) : Prop := {
  ar_obj : O !! A = Some o;
  ar_tm : M !! A = Some tm;
  ar_nonnull : A ≠ 0;
  ar_class : class_of o = RT_Object_Class_Timer;
  ar_active : flag_on (obj_flag o) RT_TIMER_FLAG_ACTIVATED = true;
  ar_soft : flag_on (obj_flag o) RT_TIMER_FLAG_SOFT_TIMER = bool_decide (h = TSoft);
  ar_init : 0 ≤ tm_init_tick tm < RT_TICK_MAX / 2;
  ar_thread : tm_timeout_func tm = TF_thread_timeout →
    A = thread_timer (tm_parameter tm) ∧
    ∃ th, T !! tm_parameter tm = Some th ∧ th_stat th = RT_THREAD_SUSPEND
}.
Definition timer_list (h : tmhead) : Prop := h = THard ∨ h = TSoft.
Record timers_ok O M T (TL : gmap tmhead (list ptr)) : Prop := {
  ti_wf : Store.wf TL;
  ti_armed : ∀ h A, timer_list h → A ∈ Store.nodes TL h → ∃ o tm, armed O M T h A o tm
}.

Record wf (s : kstate) : Prop := {
  wf_lists : lists_ok (k_threads s) (k_tlists s);
  wf_group : group_ok (k_tlists s) (k_group s);
  wf_threads : threads_ok (k_objects s) (k_timers s) (k_threads s);
  wf_timers : timers_ok (k_objects s) (k_timers s) (k_threads s) (k_tmlists s);
  wf_idle : ∃ th, k_threads s !! k_idle s = Some th ∧ th_stat th = RT_THREAD_READY
}.

(** The invariant reads seven fields of the state. *)
Lemma wf_ext s s' :
  wf s → k_threads s' = k_threads s → k_tlists s' = k_tlists s →
  k_group s' = k_group s → k_objects s' = k_objects s → k_timers s' = k_timers s →
  k_tmlists s' = k_tmlists s → k_idle s' = k_idle s → wf s'.
Proof.
  intros [? ? ? ? ?] HT HL Hg HO HM HTL Hi. split; rewrite ?HT, ?HL, ?Hg, ?HO, ?HM, ?HTL, ?Hi; done.
Qed.

(** ** Thread lists *)

Lemma lists_ok_put T L t th th' :
  lists_ok T L → T !! t = Some th → th_stat th' = th_stat th →
  (th_stat th = RT_THREAD_READY → th_current_priority th' = th_current_priority th) →
  lists_ok (<[t:=th']> T) L.
Proof.
  intros [Hwf Hr Hw] Ht Hs Hp. split; [done|..].
  - intros t' p. rewrite Hr. destruct (decide (t = t')) as [<-|].
    + rewrite lookup_insert_eq, Ht. split; intros (x & [= <-] & Hx & ?);
        eexists; (split; [done|]); rewrite Hp in * by congruence; split; congruence.
    + by rewrite lookup_insert_ne.
  - intros t' h Hh Hin. destruct (Hw t' h Hh Hin) as (x & Hx & ?).
    destruct (decide (t = t')) as [<-|]; [|rewrite lookup_insert_ne by done; eauto].
    rewrite lookup_insert_eq. simplify_eq. eexists; split; [done|congruence].
Qed.

(** A thread taken off its ring, whatever its new status except READY. *)
Lemma lists_ok_remove T L t th' :
  lists_ok T L → th_stat th' ≠ RT_THREAD_READY →
  lists_ok (<[t:=th']> T) (Store.remove t L).
Proof.
  intros [Hwf Hr Hw] Hs. split; [by apply Store.wf_remove|..].
  - intros t' p. rewrite Store.elem_of_remove, Hr. destruct (decide (t = t')) as [<-|].
    + rewrite lookup_insert_eq. naive_solver.
    + rewrite lookup_insert_ne by done. naive_solver.
  - intros t' h Hh [Hin ?]%Store.elem_of_remove. rewrite lookup_insert_ne by done. eauto.
Qed.

Lemma lists_ok_remove_same T L t th :
  lists_ok T L → T !! t = Some th → th_stat th ≠ RT_THREAD_READY →
  lists_ok T (Store.remove t L).
Proof. intros HL Ht Hs. rewrite <- (insert_id T t th Ht). by apply lists_ok_remove. Qed.

Lemma lists_ok_ready T L t th' :
  lists_ok T L → Store.unlinked L t → th_stat th' = RT_THREAD_READY →
  lists_ok (<[t:=th']> T) (Store.push_back (HReady (th_current_priority th')) t L).
Proof.
  intros [Hwf Hr Hw] Hu Hs. split; [by apply Store.wf_push_back|..].
  - intros t' p. rewrite Store.elem_of_push_back, Hr. destruct (decide (t = t')) as [<-|].
    + rewrite lookup_insert_eq. split; [|naive_solver].
      intros [[_ [= <-]]|(th & Ht & Hst & <-)]; [eauto|].
      exfalso. rewrite Store.unlinked_nodes in Hu.
      apply (Hu (HReady (th_current_priority th))), Hr. eauto.
    + rewrite lookup_insert_ne by done. naive_solver.
  - intros t' h Hh [[-> <-]|Hin]%Store.elem_of_push_back; [done|].
    rewrite lookup_insert_ne; [eauto|]. intros <-. by apply (proj1 (Store.unlinked_nodes _ _) Hu h).
Qed.

Lemma lists_ok_wait T L t th h l :
  lists_ok T L → Store.unlinked L t → T !! t = Some th →
  th_stat th = RT_THREAD_SUSPEND → is_wait h → l ≡ₚ t :: Store.nodes L h →
  lists_ok T (<[h:=l]> L).
Proof.
  intros [Hwf Hr Hw] Hu Ht Hs Hh Hl. split; [by eapply Store.wf_insert|..].
  - intros t' p. rewrite Store.nodes_insert_ne by (by intros ->). apply Hr.
  - intros t' h' Hh' Hin. destruct (decide (h = h')) as [<-|].
    + rewrite Store.nodes_insert, Hl in Hin. apply elem_of_cons in Hin as [->|Hin]; eauto.
    + rewrite Store.nodes_insert_ne in Hin by done. eauto.
Qed.

Lemma lists_ok_not_ready T L t th p :
  lists_ok T L → T !! t = Some th → th_stat th ≠ RT_THREAD_READY →
  t ∉ Store.nodes L (HReady p).
Proof. intros [_ Hr _] Ht Hs (x & ? & ? & ?)%Hr. naive_solver. Qed.

(** ** The ready bitmap *)

Lemma isempty_ext (L L' : gmap thead (list ptr)) h :
  Store.nodes L' h = Store.nodes L h → Store.isempty h L' = Store.isempty h L.
Proof. unfold Store.isempty. by intros ->. Qed.

Lemma group_ok_ext L L' g :
  group_ok L g → (∀ p, Store.nodes L' (HReady p) = Store.nodes L (HReady p)) → group_ok L' g.
Proof. intros [? Hb] He. split; [done|]. intros. rewrite (isempty_ext _ _ _ (He p)). auto. Qed.

Lemma group_ok_push L g t p :
  group_ok L g → 0 ≤ p < 32 → group_ok (Store.push_back (HReady p) t L) (Z.lor g (2 ^ p)).
Proof.
  intros [Hg Hb] Hp. split.
  - split; [apply Z.lor_nonneg; split; [lia|apply Z.pow_nonneg; lia]|].
    apply bits_lt_pow2; [lia|apply Z.lor_nonneg; split; [lia|apply Z.pow_nonneg; lia]|].
    intros k Hk. rewrite testbit_set, (bits_high g 32) by lia.
    rewrite (proj2 (Z.eqb_neq p k)) by lia. done.
  - intros q Hq. rewrite testbit_set, Hb by lia. unfold Store.isempty.
    rewrite Store.nodes_push_back. destruct (Z.eqb_spec p q) as [<-|].
    + rewrite decide_True by done. by destruct (Store.nodes L (HReady p)).
    + rewrite decide_False by congruence. by rewrite orb_false_r.
Qed.

Lemma group_ok_pop L g t p :
  group_ok L g → 0 ≤ p < 32 → (∀ q, q ≠ p → t ∉ Store.nodes L (HReady q)) →
  t ∈ Store.nodes L (HReady p) →
  group_ok (Store.remove t L)
    (if Store.isempty (HReady p) (Store.remove t L) then Z.land g (Z.lnot (2 ^ p)) else g).
Proof.
  intros [Hg Hb] Hp Ho Hin.
  assert (He : ∀ q, q ≠ p →
    Store.isempty (HReady q) (Store.remove t L) = Store.isempty (HReady q) L).
  { intros q Hq. apply isempty_ext, Store.nodes_remove_id. auto. }
  assert (Hne : Store.isempty (HReady p) L = false).
  { apply Store.isempty_false. intros E. rewrite E in Hin. by apply not_elem_of_nil in Hin. }
  destruct (Store.isempty (HReady p) (Store.remove t L)) eqn:E.
  - split.
    + split; [apply Z.land_nonneg; lia|].
      apply bits_lt_pow2; [lia|apply Z.land_nonneg; lia|].
      intros k Hk. by rewrite Z.land_spec, (bits_high g 32) by lia.
    + intros q Hq. rewrite testbit_clear, Hb by lia. destruct (Z.eqb_spec p q) as [<-|].
      * by rewrite E, andb_false_r.
      * by rewrite andb_true_r, He.
  - split; [done|]. intros q Hq. rewrite Hb by done. destruct (decide (q = p)) as [->|].
    + by rewrite E, Hne.
    + by rewrite He.
Qed.

(** ** Threads *)

(** What an update of an object header must leave alone. *)
Definition obj_same (o o' : rt_object) : Prop :=
  class_of o' = class_of o ∧ is_static o' = is_static o ∧
  (class_of o = RT_Object_Class_Timer →
   flag_on (obj_flag o') RT_TIMER_FLAG_SOFT_TIMER = flag_on (obj_flag o) RT_TIMER_FLAG_SOFT_TIMER ∧
   flag_on (obj_flag o') RT_TIMER_FLAG_PERIODIC = flag_on (obj_flag o) RT_TIMER_FLAG_PERIODIC).
Definition obj_ext (O O' : gmap ptr rt_object) : Prop :=
  ∀ a o, O !! a = Some o → ∃ o', O' !! a = Some o' ∧ obj_same o o'.
Definition tm_ext (M M' : gmap ptr rt_timer) : Prop :=
  ∀ a m, M !! a = Some m → ∃ m', M' !! a = Some m' ∧
    tm_timeout_func m' = tm_timeout_func m ∧ tm_parameter m' = tm_parameter m.

Lemma obj_same_refl o : obj_same o o. Proof. done. Qed.
Lemma obj_ext_refl O : obj_ext O O.
Proof. intros a o ?. exists o. split; [done|apply obj_same_refl]. Qed.
Lemma tm_ext_refl M : tm_ext M M.
Proof. intros a m ?. by exists m. Qed.
Lemma obj_ext_put O a o o' : O !! a = Some o → obj_same o o' → obj_ext O (<[a:=o']> O).
Proof.
  intros Ho Hs b x Hx. destruct (decide (a = b)) as [<-|].
  - rewrite lookup_insert_eq. simplify_eq. eauto.
  - rewrite lookup_insert_ne by done. eauto using obj_same_refl.
Qed.
Lemma tm_ext_put M a m m' :
  M !! a = Some m → tm_timeout_func m' = tm_timeout_func m →
  tm_parameter m' = tm_parameter m → tm_ext M (<[a:=m']> M).
Proof.
  intros Hm Hf Hp b x Hx. destruct (decide (a = b)) as [<-|].
  - rewrite lookup_insert_eq. simplify_eq. eauto.
  - rewrite lookup_insert_ne by done. eauto.
Qed.
#[export] Hint Resolve obj_same_refl obj_ext_refl tm_ext_refl obj_ext_put tm_ext_put : kernel.

Lemma flags_off f :
  let off := Z.land f (Z.lnot RT_TIMER_FLAG_ACTIVATED) in
  flag_on off RT_TIMER_FLAG_ACTIVATED = false ∧
  flag_on off RT_TIMER_FLAG_PERIODIC = flag_on f RT_TIMER_FLAG_PERIODIC ∧
  flag_on off RT_TIMER_FLAG_SOFT_TIMER = flag_on f RT_TIMER_FLAG_SOFT_TIMER.
Proof. destruct (flags_rearm f) as (_ & _ & _ & ? & ? & ?). done. Qed.

Lemma obj_same_off o : obj_same o (flag_clear RT_TIMER_FLAG_ACTIVATED o).
Proof. split; [done|split; [done|]]. intros _. destruct (flags_off (obj_flag o)) as (? & ? & ?). done. Qed.
Lemma obj_same_rearm o :
  obj_same o (flag_set RT_TIMER_FLAG_ACTIVATED (flag_clear RT_TIMER_FLAG_ACTIVATED o)).
Proof.
  split; [done|split; [done|]]. intros _.
  destruct (flags_rearm (obj_flag o)) as (? & ? & ? & _). done.
Qed.
#[export] Hint Resolve obj_same_off obj_same_rearm : kernel.

Lemma header_ok_ext O M O' M' t th :
  obj_ext O O' → tm_ext M M' → header_ok O M t th → header_ok O' M' t th.
Proof.
  intros HO HM [? ? (o & Ho & Hc) (oT & HoT & HcT & HsT & Hs & Hp) (tm & Htm & Hf & Hpar) ? ?].
  destruct (HO _ _ Ho) as (o' & ? & Hc' & ? & ?).
  destruct (HO _ _ HoT) as (oT' & ? & HcT' & HsT' & [Hs' Hp']); [done|].
  destruct (HM _ _ Htm) as (m' & ? & ? & ?).
  split; try done; [exists o'|exists oT'|exists m']; repeat split; congruence.
Qed.
Lemma thread_wf_ext O M O' M' t th :
  obj_ext O O' → tm_ext M M' → thread_wf O M t th → thread_wf O' M' t th.
Proof. intros ? ? [? Hh ?]. split; [done| |done]. intros. eauto using header_ok_ext. Qed.
Lemma threads_ok_ext O M O' M' T :
  obj_ext O O' → tm_ext M M' → threads_ok O M T → threads_ok O' M' T.
Proof. intros ? ? HT t th Ht. eauto using thread_wf_ext. Qed.
Lemma threads_ok_put O M T t th :
  threads_ok O M T → thread_wf O M t th → threads_ok O M (<[t:=th]> T).
Proof.
  intros HT Hth t' th'. destruct (decide (t = t')) as [<-|].
  - rewrite lookup_insert_eq. by intros [= <-].
  - rewrite lookup_insert_ne by done. apply HT.
Qed.

(** The fields of a thread the invariant reads. *)
Definition th_core (th : rt_thread) :=
  (th_stat th, th_current_priority th, th_number_mask th, th_init_priority th,
   (th_stack_addr th, th_stack_size th, th_stack_guard th, th_sp th)).

Lemma header_ok_fields O M t th th' :
  header_ok O M t th → th_init_priority th' = th_init_priority th →
  stack_ok th' → header_ok O M t th'.
Proof. intros [] Hi ?. split; try done. by rewrite Hi. Qed.
Lemma thread_wf_core O M t th th' :
  thread_wf O M t th → th_core th' = th_core th → thread_wf O M t th'.
Proof.
  intros [Hk Hh Hp] E. unfold th_core in E. injection E as Es Ep Em Ei Ea Ez Eg Esp.
  split; [by rewrite Es| |unfold live; rewrite Es, Ep, Em; exact Hp].
  rewrite Es. intros Hc. eapply header_ok_fields; [by apply Hh|done|].
  destruct (Hh Hc) as [_ _ _ _ _ Hst _]. unfold stack_ok in *. by rewrite Ea, Ez, Eg, Esp.
Qed.
Lemma live_open th : live th → th_stat th ≠ RT_THREAD_CLOSE.
Proof. by intros [-> | ->]. Qed.
#[export] Hint Resolve live_open : kernel.
Lemma thread_wf_stat O M t th x :
  thread_wf O M t th → live th → known_stat x → thread_wf O M t (set_th_stat x th).
Proof.
  intros [Hk Hh Hp] Hl Hx. split; [done| |intros _; by apply Hp].
  intros _. apply live_open in Hl.
  eapply header_ok_fields; [by apply Hh|done|by apply Hh].
Qed.

(** ** Timers *)

Definition unarmed (TL : gmap tmhead (list ptr)) (A : ptr) : Prop :=
  ∀ h, timer_list h → A ∉ Store.nodes TL h.

Lemma armed_threads O M T T' h A o tm :
  armed O M T h A o tm →
  (∀ th, A = thread_timer (tm_parameter tm) → T !! tm_parameter tm = Some th →
    th_stat th = RT_THREAD_SUSPEND →
    ∃ th', T' !! tm_parameter tm = Some th' ∧ th_stat th' = RT_THREAD_SUSPEND) →
  armed O M T' h A o tm.
Proof. intros [] HT. split; try done. intros Hf. destruct ar_thread0 as (? & ? & ? & ?); eauto. Qed.

Lemma timers_ok_put_thread O M T TL t th th' :
  timers_ok O M T TL → T !! t = Some th →
  th_stat th' = th_stat th ∨ unarmed TL (thread_timer t) →
  timers_ok O M (<[t:=th']> T) TL.
Proof.
  intros [Hwf Ha] Ht Hor. split; [done|]. intros h A Hh Hin.
  destruct (Ha h A Hh Hin) as (o & tm & Har). exists o, tm.
  eapply armed_threads; [done|]. intros x -> Hx Hsx.
  destruct (decide (t = tm_parameter tm)) as [->|].
  - rewrite lookup_insert_eq. destruct Hor as [Hst|Hun]; [|by destruct (Hun h Hh)].
    eexists; split; [done|]. congruence.
  - rewrite lookup_insert_ne by done. eauto.
Qed.

(** Taking timer [A] off and changing its header or data. *)
Lemma timers_ok_remove O M T TL A o' m' :
  timers_ok O M T TL →
  timers_ok (<[A:=o']> O) (<[A:=m']> M) T (Store.remove A TL).
Proof.
  intros [Hwf Ha]. split; [by apply Store.wf_remove|].
  intros h B Hh [Hin Hne]%Store.elem_of_remove. destruct (Ha h B Hh Hin) as (o & tm & []).
  exists o, tm. split; rewrite ?lookup_insert_ne by done; done.
Qed.
Lemma timers_ok_remove_obj O M T TL A o' :
  timers_ok O M T TL → timers_ok (<[A:=o']> O) M T (Store.remove A TL).
Proof.
  intros [Hwf Ha]. split; [by apply Store.wf_remove|].
  intros h B Hh [Hin Hne]%Store.elem_of_remove. destruct (Ha h B Hh Hin) as (o & tm & []).
  exists o, tm. split; rewrite ?lookup_insert_ne by done; done.
Qed.
(** A timer on no list may be changed freely. *)
Lemma timers_ok_put_obj O M T TL A o' :
  timers_ok O M T TL → unarmed TL A → timers_ok (<[A:=o']> O) M T TL.
Proof.
  intros [Hwf Ha] Hu. split; [done|]. intros h B Hh Hin. destruct (Ha h B Hh Hin) as (o & tm & []).
  exists o, tm. assert (A ≠ B) by (intros ->; by eapply Hu).
  split; rewrite ?lookup_insert_ne by done; done.
Qed.
Lemma timers_ok_put_tm O M T TL A m' :
  timers_ok O M T TL → unarmed TL A → timers_ok O (<[A:=m']> M) T TL.
Proof.
  intros [Hwf Ha] Hu. split; [done|]. intros h B Hh Hin. destruct (Ha h B Hh Hin) as (o & tm & []).
  exists o, tm. assert (A ≠ B) by (intros ->; by eapply Hu).
  split; rewrite ?lookup_insert_ne by done; done.
Qed.
(** A header that is not a timer's. *)
Lemma timers_ok_put_other O M T TL a o o' :
  timers_ok O M T TL → O !! a = Some o → class_of o ≠ RT_Object_Class_Timer →
  timers_ok (<[a:=o']> O) M T TL.
Proof.
  intros HT Ho Hc. apply timers_ok_put_obj; [done|]. intros h Hh Hin.
  destruct HT as [_ Ha]. destruct (Ha h a Hh Hin) as (x & tm & []). congruence.
Qed.

Lemma timers_ok_link O M T TL h A o tm l :
  timers_ok O M T TL → Store.unlinked TL A → armed O M T h A o tm → timer_list h →
  l ≡ₚ A :: Store.nodes TL h → timers_ok O M T (<[h:=l]> TL).
Proof.
  intros [Hwf Ha] Hu Har Hh Hl. split; [by eapply Store.wf_insert|].
  intros h' B Hh' Hin. destruct (decide (h = h')) as [<-|].
  - rewrite Store.nodes_insert, Hl in Hin. apply elem_of_cons in Hin as [->|]; eauto.
  - rewrite Store.nodes_insert_ne in Hin by done. eauto.
Qed.
Lemma timers_ok_local O M T TL h A l :
  timers_ok O M T TL → Store.unlinked TL A → ¬ timer_list h →
  l ≡ₚ A :: Store.nodes TL h → timers_ok O M T (<[h:=l]> TL).
Proof.
  intros [Hwf Ha] Hu Hh Hl. split; [by eapply Store.wf_insert|].
  intros h' B Hh' Hin. rewrite Store.nodes_insert_ne in Hin by (by intros ->). eauto.
Qed.

(** An inactive timer is on no timer list. *)
Lemma inactive_unarmed O M T TL A o :
  timers_ok O M T TL → O !! A = Some o →
  flag_on (obj_flag o) RT_TIMER_FLAG_ACTIVATED = false → unarmed TL A.
Proof.
  intros [_ Ha] Ho Hf h Hh Hin. destruct (Ha h A Hh Hin) as (x & tm & []). congruence.
Qed.
Lemma removed_unarmed TL A : unarmed (Store.remove A TL) A.
Proof. intros h _ [_ ?]%Store.elem_of_remove. done. Qed.
#[export] Hint Resolve removed_unarmed : kernel.

(** ** The operations preserve the invariant *)

Lemma off_objects_ext A O : obj_ext O (off_objects A O).
Proof.
  unfold off_objects. destruct (O !! A) as [o|] eqn:Ho; [|auto with kernel].
  destruct (flag_on _ _); eauto with kernel.
Qed.
Lemma off_unarmed O M T TL A o :
  timers_ok O M T TL → O !! A = Some o → unarmed (off_tmlists A O TL) A.
Proof.
  intros HT Ho. unfold off_tmlists. rewrite Ho.
  destruct (flag_on _ _) eqn:Hf; [auto with kernel|]. by eapply inactive_unarmed.
Qed.
Lemma off_timers_ok O M T TL A :
  timers_ok O M T TL → timers_ok (off_objects A O) M T (off_tmlists A O TL).
Proof.
  intros HT. unfold off_objects, off_tmlists. destruct (O !! A) as [o|]; [|done].
  destruct (flag_on _ _); [|done]. by apply timers_ok_remove_obj.
Qed.

Lemma wf_thread s t th :
  wf s → k_threads s !! t = Some th → thread_wf (k_objects s) (k_timers s) t th.
Proof. intros Hwf. apply (wf_threads _ Hwf). Qed.

Lemma wf_stat s t th : wf s → k_threads s !! t = Some th → known_stat (th_stat th).
Proof. intros Hwf Ht. eapply tw_stat, wf_thread; eauto. Qed.

Lemma wf_thread_ok s t th :
  wf s → k_threads s !! t = Some th → live th → thread_ok s t th.
Proof.
  intros Hwf Ht Hl. destruct (wf_thread _ _ _ Hwf Ht) as [_ Hh Hp].
  destruct (Hp Hl) as [? ?]. destruct (Hh (live_open _ Hl)) as
    [? ? ? (oT & ? & ? & _ & ? & _) ? ? _].
  split; eauto.
Qed.

Lemma wf_put_thread s t th th' :
  wf s → k_threads s !! t = Some th → th_core th' = th_core th → wf (put_thread t th' s).
Proof.
  intros Hwf Ht E. pose proof E as E'. unfold th_core in E'. injection E' as Es Ep _ _ _ _ _ _.
  destruct Hwf as [HL Hg HT HTm (ti & Hi & Hsi)] eqn:?. split; cbn.
  - by eapply lists_ok_put.
  - done.
  - apply threads_ok_put; [done|]. eapply thread_wf_core; [by apply HT|done].
  - eapply timers_ok_put_thread; eauto.
  - destruct (decide (t = k_idle s)) as [->|]; [|rewrite lookup_insert_ne by done; eauto].
    rewrite lookup_insert_eq. simplify_eq. eexists; split; [done|congruence].
Qed.

Lemma idle_not_suspended s t th :
  wf s → k_threads s !! t = Some th → th_stat th ≠ RT_THREAD_READY → t ≠ k_idle s.
Proof. intros Hwf Ht Hs ->. destruct (wf_idle _ Hwf) as (? & ? & ?). simplify_eq. Qed.

Lemma ready_only s t th p :
  wf s → k_threads s !! t = Some th → th_stat th = RT_THREAD_READY →
  t ∈ Store.nodes (k_tlists s) (HReady p) ↔ p = th_current_priority th.
Proof.
  intros Hwf Ht Hs. rewrite (lo_ready _ _ (wf_lists _ Hwf)).
  split; [by intros (? & ? & _ & <-); simplify_eq|intros ->; eauto].
Qed.

Lemma wf_ready_live th : th_stat th = RT_THREAD_READY → live th. Proof. by left. Qed.
Lemma wf_suspend_live th : th_stat th = RT_THREAD_SUSPEND → live th. Proof. by right. Qed.
#[export] Hint Resolve wf_ready_live wf_suspend_live : kernel.

Lemma known_ready : known_stat RT_THREAD_READY. Proof. by right; left. Qed.
Lemma known_suspend : known_stat RT_THREAD_SUSPEND. Proof. by right; right; left. Qed.
Lemma known_close : known_stat RT_THREAD_CLOSE. Proof. by right; right; right. Qed.
#[export] Hint Resolve known_ready known_suspend known_close : kernel.

Lemma wf_thread_suspend s t th :
  wf s → k_threads s !! t = Some th → th_stat th = RT_THREAD_READY → t ≠ k_idle s →
  wf (thread_suspend t th s).
Proof.
  intros Hwf Ht Hs Hi.
  destruct (wf_thread_ok _ _ _ Hwf Ht (wf_ready_live _ Hs)) as [_ _ Hp Hm _ (oT & HoT & _) _ _].
  pose proof (wf_thread _ _ _ Hwf Ht) as Htw.
  destruct Hwf as [HL Hg HT HTm (ti & Hti & Hsi)] eqn:E. split; cbn.
  - by apply lists_ok_remove.
  - rewrite Hm. apply group_ok_pop; [done|done|..].
    + intros q Hq. by rewrite (ready_only s t th q).
    + by rewrite (ready_only s t th).
  - eapply threads_ok_ext; [apply off_objects_ext|apply tm_ext_refl|].
    apply threads_ok_put; [done|]. apply thread_wf_stat; auto with kernel.
  - eapply timers_ok_put_thread; [by apply off_timers_ok|done|right].
    by eapply off_unarmed.
  - rewrite lookup_insert_ne by done. eauto.
Qed.

(** Queueing a suspended thread on a wait list. *)
Lemma wf_wait s t th h l :
  wf s → k_threads s !! t = Some th → th_stat th = RT_THREAD_SUSPEND →
  Store.unlinked (k_tlists s) t → is_wait h → l ≡ₚ t :: Store.nodes (k_tlists s) h →
  wf (set_k_tlists (<[h:=l]> (k_tlists s)) s).
Proof.
  intros [HL Hg HT HTm Hi] Ht Hs Hu Hh Hl. split; cbn; try done.
  - by eapply lists_ok_wait.
  - eapply group_ok_ext; [done|]. intros p. by rewrite Store.nodes_insert_ne by (by intros ->).
Qed.

(** Taking a suspended thread off its wait list. *)
Lemma wf_unwait s t th :
  wf s → k_threads s !! t = Some th → th_stat th ≠ RT_THREAD_READY →
  wf (set_k_tlists (Store.remove t (k_tlists s)) s).
Proof.
  intros [HL Hg HT HTm Hi] Ht Hs. split; cbn; try done.
  - by eapply lists_ok_remove_same.
  - eapply group_ok_ext; [done|]. intros p. apply Store.nodes_remove_id.
    by eapply lists_ok_not_ready.
Qed.

(** The timer of a ready thread is not running. *)
Lemma ready_unarmed s t th :
  wf s → k_threads s !! t = Some th → th_stat th = RT_THREAD_READY →
  unarmed (k_tmlists s) (thread_timer t).
Proof.
  intros Hwf Ht Hs h Hh Hin.
  destruct (ti_armed _ _ _ _ (wf_timers _ Hwf) h _ Hh Hin) as (o & tm & [_ Htm _ _ _ _ _ Hthr]).
  destruct (tw_header _ _ _ _ (wf_thread _ _ _ Hwf Ht)) as [_ _ _ _ (tm' & Htm' & Hf & Hp) _ _].
  { by rewrite Hs. }
  assert (tm' = tm) as -> by congruence. destruct (Hthr Hf) as (_ & x & Hx & Hsx).
  assert (x = th) as -> by congruence.
  by rewrite Hs in Hsx.
Qed.

Lemma wf_timer_off s A : wf s → wf (timer_off A s).
Proof.
  intros [HL Hg HT HTm Hi]. split; cbn; try done.
  - eapply threads_ok_ext; eauto using off_objects_ext with kernel.
  - by apply off_timers_ok.
Qed.

Lemma wf_ready_insert s t th :
  wf s → k_threads s !! t = Some th → th_stat th = RT_THREAD_SUSPEND →
  Store.unlinked (k_tlists s) t → unarmed (k_tmlists s) (thread_timer t) →
  wf (ready_insert t th s).
Proof.
  intros Hwf Ht Hs Hu Hun.
  destruct (wf_thread_ok _ _ _ Hwf Ht (wf_suspend_live _ Hs)) as [_ _ Hp Hm _ _ _ _].
  pose proof (wf_thread _ _ _ Hwf Ht) as Htw.
  destruct Hwf as [HL Hg HT HTm (ti & Hti & Hsi)] eqn:E. split; cbn.
  - by apply (lists_ok_ready _ _ _ (set_th_stat RT_THREAD_READY th)).
  - rewrite Hm. by apply group_ok_push.
  - apply threads_ok_put; [done|]. apply thread_wf_stat; auto with kernel.
  - eapply timers_ok_put_thread; eauto.
  - rewrite lookup_insert_ne; [eauto|]. eapply idle_not_suspended; [done..|]. by rewrite Hs.
Qed.

Lemma wf_thread_resume s t th :
  wf s → k_threads s !! t = Some th → th_stat th = RT_THREAD_SUSPEND →
  wf (thread_resume t th s).
Proof.
  intros Hwf Ht Hs.
  destruct (wf_thread_ok _ _ _ Hwf Ht (wf_suspend_live _ Hs)) as [_ _ _ _ _ (oT & HoT & _) _ _].
  apply wf_ready_insert; try done.
  - apply wf_timer_off. eapply wf_unwait; [done..|]. by rewrite Hs.
  - apply Store.remove_unlinked.
  - eapply off_unarmed; [|done]. apply (wf_timers _ Hwf).
Qed.

(** Arming the timer [A]: it goes on the list [h] with its header active. *)
Lemma wf_start_timer s A o tm h :
  wf s → k_objects s !! A = Some o → k_timers s !! A = Some tm → A ≠ 0 →
  class_of o = RT_Object_Class_Timer → timer_list h →
  flag_on (obj_flag o) RT_TIMER_FLAG_SOFT_TIMER = bool_decide (h = TSoft) →
  0 ≤ tm_init_tick tm < RT_TICK_MAX / 2 →
  (tm_timeout_func tm = TF_thread_timeout → A = thread_timer (tm_parameter tm) ∧
     ∃ th, k_threads s !! tm_parameter tm = Some th ∧ th_stat th = RT_THREAD_SUSPEND) →
  wf (start_timer A o tm h s).
Proof.
  intros Hwf Ho Htm HA Hc Hh Hsoft Hinit Hthr.
  destruct Hwf as [HL Hg HT HTm Hi]. split; cbn; try done.
  - eapply threads_ok_ext; [eapply obj_ext_put, obj_same_rearm; done|by eapply tm_ext_put|done].
  - assert (Harm : armed (<[A:=flag_set RT_TIMER_FLAG_ACTIVATED
        (flag_clear RT_TIMER_FLAG_ACTIVATED o)]> (k_objects s))
      (<[A:=set_tm_timeout_tick (u32 (k_tick s + tm_init_tick tm)) tm]> (k_timers s))
      (k_threads s) h A
      (flag_set RT_TIMER_FLAG_ACTIVATED (flag_clear RT_TIMER_FLAG_ACTIVATED o))
      (set_tm_timeout_tick (u32 (k_tick s + tm_init_tick tm)) tm)).
    { destruct (flags_rearm (obj_flag o)) as (? & ? & Hsf & _).
      split; rewrite ?lookup_insert_eq; try done. cbn. by rewrite Hsf. }
    set (S := Store.remove A (k_tmlists s)).
    set (S' := timer_place _ _ _ _ S).
    assert (S' = <[h := Store.nodes S' h]> S) as ->.
    { unfold S', timer_place, Store.insert_after, Store.push_front.
      destruct (scan_pos _ _ _ _); by rewrite Store.nodes_insert. }
    eapply timers_ok_link; [by apply timers_ok_remove| |done|done|apply timer_place_perm].
    apply Store.remove_unlinked.
Qed.

(** ** Electing the next thread *)

Lemma isempty_not_nil (L : gmap thead (list ptr)) h t :
  t ∈ Store.nodes L h → Store.isempty h L = false.
Proof. rewrite Store.isempty_false. intros Hin E. rewrite E in Hin. by apply not_elem_of_nil in Hin. Qed.

(** [p] is the highest priority at which a thread is ready. *)
Definition is_highest (s : kstate) (p : Z) : Prop :=
  0 ≤ p < 32 ∧ Store.nodes (k_tlists s) (HReady p) ≠ [] ∧
  ∀ q, 0 ≤ q < p → Store.nodes (k_tlists s) (HReady q) = [].

Lemma wf_highest s : wf s → is_highest s (highest_ready s).
Proof.
  intros Hwf. destruct (wf_idle _ Hwf) as (ti & Hti & Hsi).
  assert (Hp := wf_thread_ok _ _ _ Hwf Hti (wf_ready_live _ Hsi)). destruct Hp as [_ _ Hp _ _ _ _ _].
  assert (Hin := proj2 (ready_only s _ _ (th_current_priority ti) Hwf Hti Hsi) eq_refl).
  destruct (wf_group _ Hwf) as [Hg Hb].
  destruct (rt_ffs_spec (k_group s)) as [[E Hz]|(Hr & Hbit & Hlow)].
  { specialize (Hz _ Hp). rewrite Hb in Hz by done.
    by rewrite (isempty_not_nil _ _ _ Hin) in Hz. }
  assert (Hh : highest_ready s = __rt_ffs (k_group s) - 1).
  { unfold highest_ready, u32. apply Z.mod_small. lia. }
  rewrite Hh. split; [lia|]. split.
  - rewrite Hb in Hbit by lia. apply negb_true_iff in Hbit. by apply Store.isempty_false.
  - intros q Hq. specialize (Hlow q Hq). rewrite Hb in Hlow by lia.
    apply negb_false_iff in Hlow. by apply Store.isempty_spec.
Qed.

(** The thread elected is the head of that list, and it is ready. *)
Lemma wf_next s :
  wf s → ∃ to l th, Store.nodes (k_tlists s) (HReady (highest_ready s)) = to :: l ∧
    next_thread s = to ∧ k_threads s !! to = Some th ∧
    th_stat th = RT_THREAD_READY ∧ th_current_priority th = highest_ready s.
Proof.
  intros Hwf. destruct (wf_highest s Hwf) as (_ & Hne & _). unfold next_thread.
  destruct (Store.nodes (k_tlists s) (HReady (highest_ready s))) as [|to l] eqn:E; [done|].
  destruct (proj1 (lo_ready _ _ (wf_lists _ Hwf) to (highest_ready s))) as (th & ? & ? & ?).
  { rewrite E. by left. }
  exists to, l, th. done.
Qed.

Lemma rt_schedule_wf s : wf s → rt_schedule s = Ok (schedule s) tt.
Proof.
  intros Hwf. destruct (wf_next s Hwf) as (to & l & th & Hl & _ & Ht & Hs & _).
  destruct (wf_thread_ok _ _ _ Hwf Ht (wf_ready_live _ Hs)).
  eapply rt_schedule_ok; eauto. by destruct (wf_highest s Hwf).
Qed.

Lemma wf_schedule s : wf s → wf (schedule s).
Proof. intros Hwf. by apply (wf_ext s). Qed.
#[export] Hint Resolve wf_schedule rt_schedule_wf : kernel.

(** ** The running thread

    Between kernel calls, with the scheduler unlocked, the current thread is
    a ready thread. *)
Definition running (s : kstate) : Prop :=
  wf s ∧ k_lock_nest s = 0 ∧
  ∃ th, k_threads s !! k_current s = Some th ∧ th_stat th = RT_THREAD_READY.

Lemma running_schedule s : wf s → k_lock_nest s = 0 → running (schedule s).
Proof.
  intros Hwf Hl. split; [auto with kernel|]. split; [done|].
  destruct (wf_next s Hwf) as (to & l & th & _ & Hn & Ht & Hs & _).
  unfold schedule, must_switch; cbn. rewrite Hl, Hn. cbn.
  destruct (Z.eqb_spec to (k_current s)) as [<-|]; simpl; eauto.
Qed.

(** Writing the header of an object that is no thread and no timer. *)
Definition not_core (s : kstate) (a : ptr) : Prop :=
  ∀ o, k_objects s !! a = Some o →
    class_of o ≠ RT_Object_Class_Thread ∧ class_of o ≠ RT_Object_Class_Timer.
Lemma wf_put_unused s a o' : wf s → not_core s a → wf (put_object a o' s).
Proof.
  intros [HL Hg HT HTm Hi] Hc. split; cbn; try done.
  - intros t th Ht. destruct (HT t th Ht) as [Hk Hh Hp]. split; [done| |done].
    intros Hcl. destruct (Hh Hcl) as [? ? (x & Hx & ?) (y & Hy & Hcy & ?) ? ?].
    split; try done; rewrite lookup_insert_ne; eauto; intros ->.
    + by destruct (Hc x Hx).
    + by destruct (Hc y Hy).
  - apply timers_ok_put_obj; [done|]. intros h Hh Hin. destruct HTm as [_ Ha].
    destruct (Ha h a Hh Hin) as (x & tm & [Hx _ _ Hcx _ _ _ _]). by destruct (Hc x Hx).
Qed.
Lemma wf_put_other s a o o' :
  wf s → k_objects s !! a = Some o → class_of o ≠ RT_Object_Class_Thread →
  class_of o ≠ RT_Object_Class_Timer → wf (put_object a o' s).
Proof. intros Hwf Ho ? ?. apply wf_put_unused; [done|]. intros x Hx. by simplify_eq. Qed.

Lemma wf_object_detach s a o :
  wf s → k_objects s !! a = Some o → class_of o ≠ RT_Object_Class_Thread →
  class_of o ≠ RT_Object_Class_Timer → wf (object_detach a o s).
Proof. intros. by eapply (wf_ext (put_object a (set_obj_type 0 o) s)); [by eapply wf_put_other|..]. Qed.

(** ** An executable check of the invariant

    [wf_check] is how concrete states are shown to satisfy [wf]. *)

(** A test of every binding of a map. *)
Definition all_bindings {K A} `{Countable K} (P : K → A → bool) (m : gmap K A) : bool :=
  forallb (λ x, P (fst x) (snd x)) (map_to_list m).

Lemma all_bindings_spec {K A} `{Countable K} (P : K → A → bool) (m : gmap K A) k x :
  all_bindings P m = true → m !! k = Some x → P k x = true.
Proof.
  unfold all_bindings. rewrite List.forallb_forall. intros HP Hk.
  apply (HP (k, x)). by apply list_elem_of_In, elem_of_map_to_list.
Qed.

(** The store of rings: duplicate-free and pairwise disjoint. *)
Definition store_check {H} `{Countable H} (S : gmap H (list ptr)) : bool :=
  all_bindings (λ h l, bool_decide (NoDup l) &&
    all_bindings (λ h' l', bool_decide (h = h') ||
      forallb (λ n, negb (bool_decide (n ∈ l'))) l) S) S.

Lemma store_check_wf {H} `{Countable H} (S : gmap H (list ptr)) :
  store_check S = true → Store.wf S.
Proof.
  intros HS. split.
  - intros h. unfold Store.nodes. destruct (S !! h) as [l|] eqn:Hl; simpl; [|constructor].
    pose proof (all_bindings_spec _ _ _ _ HS Hl) as [Hn _]%andb_true_iff.
    by apply bool_decide_eq_true in Hn.
  - intros h1 h2 n (l1 & Hl1 & Hn1)%Store.elem_of_nodes (l2 & Hl2 & Hn2)%Store.elem_of_nodes.
    pose proof (all_bindings_spec _ _ _ _ HS Hl1) as [_ Hd]%andb_true_iff.
    pose proof (all_bindings_spec _ _ _ _ Hd Hl2) as [He|Hf]%orb_true_iff.
    + by apply bool_decide_eq_true in He.
    + rewrite List.forallb_forall in Hf. specialize (Hf n (proj1 (list_elem_of_In _ _) Hn1)).
      rewrite bool_decide_true in Hf by done. done.
Qed.

Definition stat_is (T : gmap ptr rt_thread) (t st : Z) : bool :=
  match T !! t with Some th => th_stat th =? st | None => false end.
Definition prio_is (T : gmap ptr rt_thread) (t p : Z) : bool :=
  match T !! t with Some th => th_current_priority th =? p | None => false end.

Definition lists_check (T : gmap ptr rt_thread) (L : gmap thead (list ptr)) : bool :=
  store_check L &&
  all_bindings (λ h l, match h with
    | HReady p => forallb (λ t, stat_is T t RT_THREAD_READY && prio_is T t p) l
    | HDefunct => true
    | _ => forallb (λ t, stat_is T t RT_THREAD_SUSPEND) l end) L &&
  all_bindings (λ t th, negb (th_stat th =? RT_THREAD_READY) ||
    bool_decide (t ∈ Store.nodes L (HReady (th_current_priority th)))) T.

Lemma stat_is_spec T t st :
  stat_is T t st = true ↔ ∃ th, T !! t = Some th ∧ th_stat th = st.
Proof.
  unfold stat_is. destruct (T !! t) as [th|]; [rewrite Z.eqb_eq|]; split.
  - eauto.
  - by intros (? & [= <-] & ?).
  - done.
  - by intros (? & ? & _).
Qed.

Lemma lists_check_ok T L : lists_check T L = true → lists_ok T L.
Proof.
  intros [[Hs Hl]%andb_true_iff Ht]%andb_true_iff. split; [by apply store_check_wf|..].
  - intros t p. split.
    + intros (l & Hh & Hin)%Store.elem_of_nodes.
      pose proof (all_bindings_spec _ _ _ _ Hl Hh) as Hf; simpl in Hf.
      rewrite List.forallb_forall in Hf. specialize (Hf t (proj1 (list_elem_of_In _ _) Hin)).
      apply andb_true_iff in Hf as [(th & Hth & ?)%stat_is_spec Hp].
      unfold prio_is in Hp. rewrite Hth in Hp. exists th. by rewrite Z.eqb_eq in Hp.
    + intros (th & Hth & Hst & <-).
      pose proof (all_bindings_spec _ _ _ _ Ht Hth) as Hf; simpl in Hf.
      rewrite Hst, Z.eqb_refl in Hf. by apply bool_decide_eq_true in Hf.
  - intros t h Hh (l & Hl' & Hin)%Store.elem_of_nodes.
    pose proof (all_bindings_spec _ _ _ _ Hl Hl') as Hf; simpl in Hf.
    destruct h; try done; rewrite List.forallb_forall in Hf;
      by apply stat_is_spec, Hf, list_elem_of_In.
Qed.

Definition group_check (L : gmap thead (list ptr)) (g : Z) : bool :=
  (0 <=? g) && (g <? 2 ^ 32) &&
  forallb (λ n, Bool.eqb (Z.testbit g (Z.of_nat n))
                  (negb (Store.isempty (HReady (Z.of_nat n)) L))) (seq 0 32).

Lemma group_check_ok L g : group_check L g = true → group_ok L g.
Proof.
  intros [[Hlo Hhi]%andb_true_iff Hb]%andb_true_iff.
  apply Z.leb_le in Hlo. apply Z.ltb_lt in Hhi. split; [done|].
  intros p Hp. rewrite List.forallb_forall in Hb. specialize (Hb (Z.to_nat p)).
  rewrite Z2Nat.id in Hb by lia. apply eqb_prop, Hb, in_seq. lia.
Qed.

(** Threads and timers. *)
Definition obj_is (O : gmap ptr rt_object) (a : ptr) (P : rt_object → bool) : bool :=
  match O !! a with Some o => P o | None => false end.
Definition tm_is (M : gmap ptr rt_timer) (a : ptr) (P : rt_timer → bool) : bool :=
  match M !! a with Some m => P m | None => false end.

Definition is_thread_timeout (f : timeout_fn) : bool :=
  match f with TF_thread_timeout => true | TF_user _ => false end.

Definition header_check O M (t : ptr) (th : rt_thread) : bool :=
  negb (t =? 0) && negb (thread_timer t =? 0) &&
  obj_is O t (λ o, class_of o =? RT_Object_Class_Thread) &&
  obj_is O (thread_timer t) (λ o, (class_of o =? RT_Object_Class_Timer) && is_static o &&
    negb (flag_on (obj_flag o) RT_TIMER_FLAG_SOFT_TIMER) &&
    negb (flag_on (obj_flag o) RT_TIMER_FLAG_PERIODIC)) &&
  tm_is M (thread_timer t) (λ m, is_thread_timeout (tm_timeout_func m) && (tm_parameter m =? t)) &&
  ((th_stack_guard th =? 35) && (th_stack_addr th <? th_sp th) &&
   (th_sp th <=? u32 (th_stack_addr th + th_stack_size th))) &&
  ((0 <=? th_init_priority th) && (th_init_priority th <? 32)).

Lemma header_check_ok O M t th : header_check O M t th = true → header_ok O M t th.
Proof.
  unfold header_check. rewrite !andb_true_iff, !negb_true_iff, !Z.eqb_neq.
  intros [[[[[[H1 H2] H3] H4] H5] [[H6 H7] H8]] [H9 H10]].
  unfold obj_is, tm_is in *. split; try done.
  - destruct (O !! t) as [o|]; [|done]. exists o. by apply Z.eqb_eq in H3.
  - destruct (O !! thread_timer t) as [o|]; [|done]. exists o.
    rewrite !andb_true_iff, !negb_true_iff, Z.eqb_eq in H4. naive_solver.
  - destruct (M !! thread_timer t) as [m|]; [|done]. exists m.
    rewrite !andb_true_iff, Z.eqb_eq in H5. destruct H5 as [Hf ?]. by destruct (tm_timeout_func m).
  - apply Z.eqb_eq in H6. apply Z.ltb_lt in H7. apply Z.leb_le in H8. done.
  - apply Z.leb_le in H9. apply Z.ltb_lt in H10. done.
Qed.

Definition stat_known (x : Z) : bool :=
  (x =? RT_THREAD_INIT) || (x =? RT_THREAD_READY) || (x =? RT_THREAD_SUSPEND) || (x =? RT_THREAD_CLOSE).

Definition threads_check O M (T : gmap ptr rt_thread) : bool :=
  all_bindings (λ t th, stat_known (th_stat th) &&
    ((th_stat th =? RT_THREAD_CLOSE) || header_check O M t th) &&
    (negb ((th_stat th =? RT_THREAD_READY) || (th_stat th =? RT_THREAD_SUSPEND)) ||
     ((0 <=? th_current_priority th) && (th_current_priority th <? 32) &&
      (th_number_mask th =? 2 ^ th_current_priority th)))) T.

Lemma threads_check_ok O M T : threads_check O M T = true → threads_ok O M T.
Proof.
  intros HT t th Ht. pose proof (all_bindings_spec _ _ _ _ HT Ht) as Hc; simpl in Hc.
  rewrite !andb_true_iff in Hc. destruct Hc as [[Hk Hh] Hp]. split.
  - unfold stat_known in Hk. rewrite !orb_true_iff, !Z.eqb_eq in Hk. unfold known_stat. tauto.
  - intros Hc. apply orb_true_iff in Hh as [?%Z.eqb_eq|?]; [done|by apply header_check_ok].
  - intros Hl. assert ((th_stat th =? RT_THREAD_READY) || (th_stat th =? RT_THREAD_SUSPEND) = true) as El.
    { apply orb_true_iff. destruct Hl as [-> | ->]; rewrite Z.eqb_refl; tauto. }
    rewrite El in Hp. simpl in Hp. rewrite !andb_true_iff, Z.leb_le, Z.ltb_lt, Z.eqb_eq in Hp. tauto.
Qed.

Definition armed_check O M (T : gmap ptr rt_thread) (h : tmhead) (A : ptr) : bool :=
  negb (A =? 0) &&
  obj_is O A (λ o, (class_of o =? RT_Object_Class_Timer) &&
    flag_on (obj_flag o) RT_TIMER_FLAG_ACTIVATED &&
    Bool.eqb (flag_on (obj_flag o) RT_TIMER_FLAG_SOFT_TIMER) (bool_decide (h = TSoft))) &&
  tm_is M A (λ m, (0 <=? tm_init_tick m) && (tm_init_tick m <? RT_TICK_MAX / 2) &&
    (negb (is_thread_timeout (tm_timeout_func m)) ||
     ((A =? thread_timer (tm_parameter m)) && stat_is T (tm_parameter m) RT_THREAD_SUSPEND))).

Lemma armed_check_ok O M T h A :
  armed_check O M T h A = true → ∃ o tm, armed O M T h A o tm.
Proof.
  unfold armed_check, obj_is, tm_is. rewrite !andb_true_iff. intros [[Hnz Ho] Hm].
  destruct (O !! A) as [o|] eqn:HO; [|done]. destruct (M !! A) as [m|] eqn:HM; [|done].
  rewrite !andb_true_iff in Ho, Hm. destruct Ho as [[Hc Ha] Hs], Hm as [[H1 H2] Ht].
  exists o, m. split; try done.
  - by apply negb_true_iff, Z.eqb_neq in Hnz.
  - by apply Z.eqb_eq in Hc.
  - by apply eqb_prop.
  - apply Z.leb_le in H1. apply Z.ltb_lt in H2. done.
  - intros E. rewrite E in Ht. simpl in Ht.
    apply andb_true_iff in Ht as [?%Z.eqb_eq ?%stat_is_spec]. done.
Qed.

Definition timers_check O M T (TL : gmap tmhead (list ptr)) : bool :=
  store_check TL &&
  forallb (armed_check O M T THard) (Store.nodes TL THard) &&
  forallb (armed_check O M T TSoft) (Store.nodes TL TSoft).

Lemma timers_check_ok O M T TL : timers_check O M T TL = true → timers_ok O M T TL.
Proof.
  intros [[Hs Hh]%andb_true_iff Hf]%andb_true_iff. split; [by apply store_check_wf|].
  intros h A [-> | ->] Hin; apply armed_check_ok;
    [rewrite List.forallb_forall in Hh; apply Hh|rewrite List.forallb_forall in Hf; apply Hf];
    by apply list_elem_of_In.
Qed.

Definition wf_check (s : kstate) : bool :=
  lists_check (k_threads s) (k_tlists s) &&
  group_check (k_tlists s) (k_group s) &&
  threads_check (k_objects s) (k_timers s) (k_threads s) &&
  timers_check (k_objects s) (k_timers s) (k_threads s) (k_tmlists s) &&
  stat_is (k_threads s) (k_idle s) RT_THREAD_READY.

Lemma wf_check_sound s : wf_check s = true → wf s.
Proof.
  unfold wf_check. rewrite !andb_true_iff. intros [[[[? ?] ?] ?] ?%stat_is_spec].
  split; auto using lists_check_ok, group_check_ok, threads_check_ok, timers_check_ok.
Qed.
