(* ===== verification/Preemption.v ===== *)
(** * Preemption: what [rt_schedule], the switch request and the scheduler lock guarantee *)

From Stdlib Require Import ZArith Lia.
From stdpp Require Import base gmap list fin_maps.
From S2P Require Import RTThread.
From S2P Require Import Prelude.
From S2P Require Import ListModel.
From S2P Require Import Kernel.
From S2P Require Import Kservice.
From S2P Require Import Scheduler.
From S2P Require Import Object.
From S2P Require Import TimerCore.
From S2P Require Import ThreadCore.
From S2P Require Import Timer.
From S2P Require Import Invariant.

(** C2: from any well-formed state with the scheduler unlocked, [rt_schedule]
    returns (no fault), and afterwards the current thread is the first thread of
    the ready list of the highest priority at which any thread is ready; it is
    ready, its stack passed the check, and the interrupt mask is as before. *)
Theorem rt_schedule_elects_highest s :
  wf s → k_lock_nest s = 0 →
  ∃ s' p to l th, rt_schedule s = Ok s' tt ∧ running s' ∧
    is_highest s p ∧ Store.nodes (k_tlists s) (HReady p) = to :: l ∧
    k_current s' = to ∧ k_threads s' = k_threads s ∧ k_threads s !! to = Some th ∧
    th_stat th = RT_THREAD_READY ∧ th_current_priority th = p ∧ stack_ok th ∧
    k_primask s' = k_primask s ∧ k_tlists s' = k_tlists s ∧
    (∀ t x, k_threads s !! t = Some x → th_stat x = RT_THREAD_READY →
       p ≤ th_current_priority x).
Proof.
  intros Hwf Hl. destruct (wf_next s Hwf) as (to & l & th & Hn & Hnext & Ht & Hs & Hp).
  exists (schedule s), (highest_ready s), to, l, th.
  pose proof (wf_highest s Hwf) as Hh.
  split; [by apply rt_schedule_wf|]. split; [by apply running_schedule|].
  split; [done|]. split; [done|]. split; [|repeat (split; [done|])].
  - unfold schedule, must_switch; cbn. rewrite Hl, Hnext; cbn.
    by destruct (Z.eqb_spec to (k_current s)).
  - split; [apply (wf_thread_ok _ _ _ Hwf Ht (wf_ready_live _ Hs))|].
    split; [done|]. split; [done|]. intros t x Hx Hsx.
    destruct (wf_thread_ok _ _ _ Hwf Hx (wf_ready_live _ Hsx)) as [_ _ Hpx _ _ _ _ _].
    destruct Hh as (_ & _ & Hlow).
    destruct (Z.le_gt_cases (highest_ready s) (th_current_priority x)); [done|].
    pose proof (proj2 (ready_only s t x _ Hwf Hx Hsx) eq_refl) as Hin.
    rewrite Hlow in Hin by lia. by apply not_elem_of_nil in Hin.
Qed.

(** ** The pending switch

    [c] is the thread whose context is on the processor. *)
Definition switch_inv (c : ptr) (s : kstate) : Prop :=
  (k_switch_flag s = 0 ∧ k_current s = c) ∨
  (k_switch_flag s = 1 ∧ k_switch_from s = c ∧ k_switch_to s = k_current s).

Lemma schedule_switch_inv c s : switch_inv c s → switch_inv c (schedule s).
Proof.
  unfold switch_inv, schedule; cbn. destruct (must_switch s); cbn; [|tauto].
  intros [[-> ->]|(-> & -> & _)]; cbn; tauto.
Qed.

(** Requests made before the switch happens are merged: however often
    [rt_schedule] changes its mind while one is pending, the exception handler
    saves the context of the thread that was really running and restores the
    thread that is current at that moment; with nothing pending it does nothing. *)
Theorem pending_switch_is_consistent s c :
  wf s → switch_inv c s →
  ∃ s', rt_schedule s = Ok s' tt ∧ switch_inv c s' ∧
    ∃ s'' r, PendSV_Handler s' = Ok s'' r ∧ switch_inv (k_current s') s'' ∧
      r = (if k_switch_flag s' =? 0 then None else Some (c, k_current s')) ∧
      (r = None → k_current s' = c).
Proof.
  intros Hwf Hi. exists (schedule s). split; [by apply rt_schedule_wf|].
  pose proof (schedule_switch_inv c s Hi) as Hi'. split; [done|].
  unfold PendSV_Handler. destruct Hi' as [[Hf Hc]|(Hf & Hfr & Hto)].
  - exists (schedule s), None. unfold gets, mbind, ST_bind. rewrite Hf; cbn.
    split; [done|]. split; [by left|]. done.
  - exists (set_k_switch_flag 0 (schedule s)), (Some (c, k_current (schedule s))).
    unfold gets, modify, mbind, ST_bind. rewrite Hf. cbn [Z.eqb].
    split; [|split; [by left|done]].
    change (Ok (A := option (Z * Z)) (set_k_switch_flag 0 (schedule s))
      (Some (k_switch_from (schedule s), k_switch_to (schedule s))) = 
      Ok (set_k_switch_flag 0 (schedule s)) (Some (c, k_current (schedule s)))).
    by rewrite Hfr, Hto.
Qed.

(** ** The scheduler lock *)

Fixpoint enter_n (n : nat) : K unit :=
  match n with O => mret () | S n' => rt_enter_critical;; enter_n n' end.
Fixpoint exit_n (n : nat) : K unit :=
  match n with O => mret () | S n' => rt_exit_critical;; exit_n n' end.

Lemma s16_small x : - 2 ^ 15 ≤ x < 2 ^ 15 → s16 x = x.
Proof. intros. unfold s16. rewrite Z.mod_small by lia. lia. Qed.

Lemma enter_n_ok n s :
  0 ≤ k_lock_nest s → k_lock_nest s + Z.of_nat n < 2 ^ 15 →
  enter_n n s = Ok (set_k_lock_nest (k_lock_nest s + Z.of_nat n) s) tt.
Proof.
  revert s. induction n as [|n IH]; intros s H0 Hn.
  - rewrite Z.add_0_r. reflexivity.
  - cbn [enter_n]. unfold rt_enter_critical. rewrite bind_assoc. kstep.
    rewrite bind_assoc. kstep. kstep. cbn. rewrite s16_small by lia.
    etransitivity; [apply IH; cbn; lia|]. cbn.
    replace (k_lock_nest s + 1 + Z.of_nat n) with (k_lock_nest s + Z.pos (Pos.of_succ_nat n)) by lia.
    reflexivity.
Qed.
Lemma exit_nested s : 1 < k_lock_nest s < 2 ^ 15 →
  rt_exit_critical s = Ok (set_k_lock_nest (k_lock_nest s - 1) s) tt.
Proof.
  intros H. unfold rt_exit_critical. do 3 kstep. cbn. rewrite s16_small by lia.
  rewrite (proj2 (Z.leb_gt _ _)) by lia. reflexivity.
Qed.
Lemma exit_last s : wf s → k_lock_nest s = 1 → k_current s ≠ 0 →
  rt_exit_critical s = Ok (schedule (set_k_lock_nest 0 s)) tt.
Proof.
  intros Hwf H Hc. unfold rt_exit_critical. do 3 kstep. cbn -[s16 Z.sub]. rewrite H.
  change (s16 (1 - 1) <=? 0) with true. cbv iota.
  do 3 kstep. cbn [k_current set_k_lock_nest set_k_primask]. rewrite (not_null _ Hc). cbn [when].
  change (rt_schedule (set_k_lock_nest 0 s) = Ok (schedule (set_k_lock_nest 0 s)) tt).
  apply rt_schedule_wf. by apply (wf_ext s).
Qed.
Lemma exit_n_ok n s : wf s → k_current s ≠ 0 →
  k_lock_nest s = 1 + Z.of_nat n → k_lock_nest s < 2 ^ 15 →
  exit_n (S n) s = Ok (schedule (set_k_lock_nest 0 s)) tt.
Proof.
  revert s. induction n as [|n IH]; intros s Hwf Hc Hl Hb.
  - cbn [exit_n]. erewrite bind_ok by (by apply exit_last). reflexivity.
  - change (exit_n (S (S n))) with (rt_exit_critical;; exit_n (S n)).
    erewrite bind_ok by (apply exit_nested; lia).
    etransitivity; [apply IH|reflexivity]; [by apply (wf_ext s)|done|cbn; lia|cbn; lia].
Qed.

(** the scheduler lock nests: inside [n] nested critical sections
    [rt_schedule] changes nothing, and the last of the matching exits performs
    the election that was held back, exactly as if it had been called unlocked. *)
Theorem critical_sections_nest s n :
  running s → 1 ≤ Z.of_nat n < 2 ^ 15 →
  ∃ s1, enter_n n s = Ok s1 tt ∧ rt_schedule s1 = Ok s1 tt ∧
    exit_n n s1 = Ok (schedule s) tt.
Proof.
  intros (Hwf & Hl & th & Ht & Hr) Hn.
  assert (Hc : k_current s ≠ 0) by (apply (wf_thread_ok _ _ _ Hwf Ht (wf_ready_live _ Hr))).
  destruct n as [|n]; [lia|]. set (n' := S n) in *.
  exists (set_k_lock_nest (Z.of_nat n') s). split; [|split].
  - rewrite enter_n_ok by lia. by rewrite Hl.
  - rewrite rt_schedule_wf by (by apply (wf_ext s)).
    unfold schedule, must_switch; cbn. done.
  - etransitivity; [apply exit_n_ok; cbn; [by apply (wf_ext s)|done|lia|lia]|].
    cbn. rewrite <- Hl. reflexivity.
Qed.
