(* ===== verification/Registry.v ===== *)
(** * The object registry: registration, lookup by name, unregistration

    Each class of kernel object has a container, the list of its registered
    objects, newest first ([object.c]). *)

From Stdlib Require Import ZArith Lia Sorted.
From stdpp Require Import base gmap list fin_maps.
From S2P Require Import RTThread.
From S2P Require Import Prelude.
From S2P Require Import ListModel.
From S2P Require Import Kernel.
From S2P Require Import Kservice.
From S2P Require Import Scheduler.
From S2P Require Import Object.
From S2P Require Import TimerCore.
From S2P Require Import ThreadCore.
From S2P Require Import Timer.
From S2P Require Import Invariant.
From S2P Require Import Preemption.

(** ** Work done with the scheduler locked *)

Lemma running_current s : running s → k_current s ≠ 0.
Proof.
  intros (Hwf & _ & th & Ht & Hs). apply (wf_thread_ok _ _ _ Hwf Ht (wf_ready_live _ Hs)).
Qed.

Lemma rt_enter_critical_ok s :
  running s → rt_enter_critical s = Ok (set_k_lock_nest 1 s) tt.
Proof.
  intros (_ & Hl & _). unfold rt_enter_critical. do 2 kstep. cbn. rewrite Hl. reflexivity.
Qed.
Lemma rt_exit_critical_ok s :
  running s → rt_exit_critical (set_k_lock_nest 1 s) = Ok (schedule s) tt.
Proof.
  intros Hr. pose proof (running_current s Hr) as Hc. destruct Hr as (Hwf & Hl & _).
  rewrite exit_last; [|by apply (wf_ext s)|done|done].
  transitivity (Ok (A := unit) (schedule (set_k_lock_nest (k_lock_nest s) s)) tt);
    [by rewrite Hl|reflexivity].
Qed.

Lemma not_in_interrupt_ok s : k_interrupt_nest s = 0 → RT_DEBUG_NOT_IN_INTERRUPT s = Ok s tt.
Proof. intros Hn. unfold RT_DEBUG_NOT_IN_INTERRUPT. do 2 kstep. cbn. rewrite Hn. reflexivity. Qed.

(** ** Names: at most [RT_NAME_MAX] bytes count *)

Lemma s8_zero x : - 256 < x < 256 → s8 x = 0 ↔ x = 0.
Proof.
  intros Hx. unfold s8. split; [|intros ->; done]. intros H.
  pose proof (Z.div_mod (x + 128) 256). lia.
Qed.

Definition bytes (l : list Z) : Prop := ∀ c, c ∈ l → 0 ≤ c < 256.
Lemma bytes_char l : bytes l → 0 ≤ char_at l < 256.
Proof. intros Hb. destruct l; simpl; [lia|]. apply Hb. by left. Qed.
Lemma bytes_tail l : bytes l → bytes (tail l).
Proof. intros Hb c Hc. apply Hb. destruct l; [done|]. by right. Qed.

Lemma strncpy_bytes_step l n :
  strncpy_bytes l (S n) = char_at l ::
    (if char_at l =? 0 then replicate n 0 else strncpy_bytes (tail l) n).
Proof. destruct l as [|c l]; simpl; [done|]. by destruct (Z.eqb_spec c 0) as [->|]. Qed.

(** [rt_strncmp] tells whether two names agree in the bytes that count. *)
Lemma strncmp_loop_zero n a b :
  bytes a → bytes b → strncmp_loop n a b 0 = 0 ↔ strncpy_bytes a n = strncpy_bytes b n.
Proof.
  revert a b. induction n as [|n IH]; intros a b Ha Hb; [by destruct a, b|].
  rewrite !strncpy_bytes_step. cbn [strncmp_loop].
  pose proof (bytes_char a Ha) as Ca. pose proof (bytes_char b Hb) as Cb.
  pose proof (s8_zero (char_at a - char_at b)) as Hz.
  destruct (Z.eqb_spec (s8 (char_at a - char_at b)) 0) as [E|E]; cbn [negb orb].
  - rewrite E. apply Hz in E; [|lia]. assert (char_at a = char_at b) as Hab by lia. rewrite Hab.
    destruct (char_at b =? 0); [done|]. rewrite IH by (by apply bytes_tail).
    split; [by intros ->|by intros [= ?]].
  - split; [done|]. intros [= Hab _]. exfalso. apply E, Hz; lia.
Qed.

(** A name that was stored is found equal to the name it was stored from. *)
Lemma strncmp_stored n name rest res :
  res = 0 → strncmp_loop n (strncpy_bytes name n ++ rest) name res = 0.
Proof.
  revert name res. induction n as [|n IH]; intros name res ->; [done|].
  rewrite strncpy_bytes_step. cbn [strncmp_loop app char_at tail]. rewrite Z.sub_diag.
  change (s8 0) with 0. cbn [Z.eqb negb orb]. destruct (char_at name =? 0); [done|]. by apply IH.
Qed.

(** ** Registration *)

Definition registered (s : kstate) (type : Z) (o : ptr) : Prop :=
  o ∈ Store.nodes (k_containers s) type.

Definition new_header (s : kstate) (o type : Z) (name : list Z) : rt_object :=
  let old := default zero_object (k_objects s !! o) in
  mk_object (rt_strncpy (obj_name old) name RT_NAME_MAX)
    (Z.lor type RT_Object_Class_Static) (obj_flag old).

Definition object_init (o type : Z) (name : list Z) (s : kstate) : kstate :=
  set_k_containers (Store.push_front type o (k_containers s))
    (put_object o (new_header s o type name) s).

Lemma rt_object_init_ok s o type name :
  running s → type ∈ rt_object_container → Store.unlinked (k_containers s) o →
  rt_object_init o type name s = Ok (object_init o type name (schedule s)) tt.
Proof.
  intros Hr Ht Hu. unfold rt_object_init. rewrite get_information_some by done.
  erewrite bind_ok by (by apply rt_enter_critical_ok).
  erewrite bind_ok by reflexivity. cbv beta.
  erewrite bind_ok.
  2:{ apply assert_not_in_ok. apply (proj1 (Store.unlinked_nodes _ _) Hu). }
  erewrite bind_ok by (by apply rt_exit_critical_ok). do 2 kstep.
  unfold container_link. rewrite bind_assoc. kstep.
  rewrite decide_True by done. kstep. reflexivity.
Qed.

Lemma rt_object_init_twice s o type name :
  running s → type ∈ rt_object_container → registered s type o →
  rt_object_init o type name s = Err FAssert.
Proof.
  intros Hr Ht Hin. unfold rt_object_init. rewrite get_information_some by done.
  erewrite bind_ok by (by apply rt_enter_critical_ok).
  erewrite bind_ok by reflexivity. cbv beta.
  unfold mbind, ST_bind. by rewrite (assert_not_in_fail _ _ _ Hin).
Qed.

Lemma find_by_name_head s o x l name :
  k_objects s !! o = Some x → rt_strncmp (obj_name x) name RT_NAME_MAX = 0 →
  find_by_name (o :: l) name s = Ok s o.
Proof. intros Hx Hn. cbn [find_by_name]. kstep. rewrite Hn. reflexivity. Qed.

Lemma object_init_running s o type name :
  running s → not_core s o → running (object_init o type name (schedule s)).
Proof.
  intros (Hwf & Hl & _) Hc. destruct (running_schedule s Hwf Hl) as (Hwf' & Hl' & Hcur).
  split; [|done]. eapply (wf_ext (put_object o _ (schedule s))); [by apply wf_put_unused|done..].
Qed.

(** C35: registering an object: [rt_object_init] refuses (by its assertion) an
    object already registered in its class; otherwise the object is first in
    the container of its class, in no other, with the class, the static flag
    and the name recorded, the other objects being where they were, and
    [rt_object_find] on its name and class then returns it. *)
Theorem rt_object_init_registers s o type name :
  running s → k_interrupt_nest s = 0 → type ∈ rt_object_container → not_core s o →
  (registered s type o → rt_object_init o type name s = Err FAssert) ∧
  (Store.unlinked (k_containers s) o → ∃ s', rt_object_init o type name s = Ok s' tt ∧ running s' ∧
     (∀ c, Store.nodes (k_containers s') c =
        if decide (c = type) then o :: Store.nodes (k_containers s) c
        else Store.nodes (k_containers s) c) ∧
     (∃ x, k_objects s' !! o = Some x ∧ class_of x = type ∧ is_static x = true) ∧
     (∀ a, a ≠ o → k_objects s' !! a = k_objects s !! a) ∧
     rt_object_find (Some name) type s' = Ok (schedule s') o).
Proof.
  intros Hr Hn Ht Hc. split; [by apply rt_object_init_twice|].
  intros Hu. exists (object_init o type name (schedule s)).
  split; [by apply rt_object_init_ok|].
  pose proof (object_init_running s o type name Hr Hc) as Hr'. split; [exact Hr'|].
  assert (Hn' : k_interrupt_nest (object_init o type name (schedule s)) = 0) by exact Hn.
  assert (Hnodes : ∀ c, Store.nodes (k_containers (object_init o type name (schedule s))) c =
    if decide (c = type) then o :: Store.nodes (k_containers s) c
    else Store.nodes (k_containers s) c).
  { intros c. change (Store.nodes (Store.push_front type o (k_containers s)) c = 
      if decide (c = type) then o :: Store.nodes (k_containers s) c else Store.nodes (k_containers s) c).
    rewrite Store.nodes_push_front. by destruct (decide (type = c)), (decide (c = type)); congruence. }
  assert (Hx : k_objects (object_init o type name (schedule s)) !! o
    = Some (new_header s o type name)) by (cbn; by rewrite lookup_insert_eq).
  split; [done|]. split.
  { destruct (class_or_static type Ht (rt_strncpy (obj_name (default zero_object (k_objects s !! o)))
      name RT_NAME_MAX) (obj_flag (default zero_object (k_objects s !! o)))). eauto. }
  split; [intros a Ha; cbn; by rewrite lookup_insert_ne|].
  revert Hr' Hn' Hnodes Hx. generalize (object_init o type name (schedule s)).
  intros s' Hr' Hn' Hnodes Hx.
  unfold rt_object_find. rewrite get_information_some by done.
  erewrite bind_ok by (by apply not_in_interrupt_ok).
  erewrite bind_ok by (by apply rt_enter_critical_ok).
  erewrite bind_ok by reflexivity. cbv beta.
  change (k_containers (set_k_lock_nest 1 s')) with (k_containers s').
  rewrite Hnodes, decide_True by done.
  erewrite bind_ok.
  2:{ eapply find_by_name_head; [exact Hx|]. by apply strncmp_stored. }
  erewrite bind_ok by (by apply rt_exit_critical_ok). reflexivity.
Qed.
