(* ===== verification/Deadlines.v ===== *)
(** * Deadlines: the order of the timer list, and what a timer check expires

    Deadlines are compared modulo [2^32]; [remaining now d] is the signed
    distance from the tick [now] to the deadline [d]. *)

From Stdlib Require Import ZArith Lia Sorted.
From stdpp Require Import base gmap list fin_maps.
From S2P Require Import RTThread.
From S2P Require Import Prelude.
From S2P Require Import ListModel.
From S2P Require Import Kernel.
From S2P Require Import Kservice.
From S2P Require Import Scheduler.
From S2P Require Import Object.
From S2P Require Import TimerCore.
From S2P Require Import ThreadCore.
From S2P Require Import Timer.
From S2P Require Import Invariant.

Definition deadline (M : gmap ptr rt_timer) (T : ptr) : Z :=
  from_option tm_timeout_tick 0 (M !! T).
Definition remaining (M : gmap ptr rt_timer) (now : Z) (T : ptr) : Z := s32 (deadline M T - now).

(** Every timer of a list is due within half the tick range, and the earliest
    comes first. *)
Record due_order (M : gmap ptr rt_timer) (now lo : Z) (l : list ptr) : Prop := {
  du_range : ∀ T, T ∈ l → lo ≤ remaining M now T < RT_TICK_MAX / 2;
  du_sorted : StronglySorted (λ a b, remaining M now a ≤ remaining M now b) l
}.

(** ** Comparing ticks *)

Lemma s32_eq x : ∃ k, s32 x = x + k * 2 ^ 32.
Proof.
  exists (- ((x + 2 ^ 31) / 2 ^ 32)). unfold s32.
  pose proof (Z.div_mod (x + 2 ^ 31) (2 ^ 32)). lia.
Qed.
Lemma s32_plus x k : s32 (x + k * 2 ^ 32) = s32 x.
Proof. unfold s32. rewrite <- (Z.mod_add (x + 2 ^ 31) k (2 ^ 32)) by lia. do 2 f_equal. lia. Qed.
Lemma u32_plus x k : u32 (x + k * 2 ^ 32) = u32 x.
Proof. unfold u32. apply Z.mod_add. lia. Qed.
Lemma u32_neg x : - 2 ^ 32 ≤ x < 0 → u32 x = x + 2 ^ 32.
Proof. intros. rewrite <- (u32_plus x 1), Z.mul_1_l. apply Z.mod_small. lia. Qed.

(** A difference of deadlines, through their distances from now. *)
Lemma u32_diff M now d T :
  u32 (deadline M T - d) = u32 (remaining M now T - s32 (d - now)).
Proof.
  unfold remaining. destruct (s32_eq (deadline M T - now)) as [k1 ->].
  destruct (s32_eq (d - now)) as [k2 ->].
  rewrite <- (u32_plus (deadline M T - d) (k1 - k2)). f_equal. lia.
Qed.

Lemma half_max : RT_TICK_MAX / 2 = 2147483647. Proof. done. Qed.

(** The test of the search loop of [rt_timer_start] is "not later than". *)
Lemma scan_test x y :
  -1 ≤ x < RT_TICK_MAX / 2 → 0 ≤ y < RT_TICK_MAX / 2 →
  ((u32 (x - y) =? 0) || negb (u32 (x - y) <? RT_TICK_MAX / 2)) = (x <=? y).
Proof.
  rewrite half_max. intros Hx Hy. destruct (Z.leb_spec x y) as [H|H].
  - destruct (Z.eq_dec x y) as [->|Hne]; [by rewrite Z.sub_diag|].
    rewrite u32_neg by lia. apply orb_true_iff; right. apply negb_true_iff, Z.ltb_ge. lia.
  - unfold u32. rewrite Z.mod_small by lia. rewrite (proj2 (Z.eqb_neq _ _)) by lia.
    by rewrite (proj2 (Z.ltb_lt _ _)) by lia.
Qed.

(** The test of [rt_timer_check] is "due". *)
Lemma due_test M now T :
  -1 ≤ remaining M now T < RT_TICK_MAX / 2 →
  (u32 (now - deadline M T) <? RT_TICK_MAX / 2) = (remaining M now T <=? 0).
Proof.
  rewrite half_max. intros Hr.
  assert (E : u32 (now - deadline M T) = u32 (- remaining M now T)).
  { unfold remaining. destruct (s32_eq (deadline M T - now)) as [k ->].
    rewrite <- (u32_plus (now - deadline M T) (- k)). f_equal. lia. }
  rewrite E. destruct (Z.leb_spec (remaining M now T) 0).
  - unfold u32. rewrite Z.mod_small by lia. apply Z.ltb_lt. lia.
  - rewrite u32_neg by lia. apply Z.ltb_ge. lia.
Qed.

(** ** Insertion *)

Fixpoint due_insert (M : gmap ptr rt_timer) (now r : Z) (T : ptr) (l : list ptr) : list ptr :=
  match l with
  | [] => [T]
  | p :: l' => if remaining M now p <=? r then p :: due_insert M now r T l' else T :: p :: l'
  end.

Definition place (row : option ptr) (T : ptr) (l : list ptr) : list ptr :=
  match row with None => T :: l | Some m => Store.insert_after_in m T l end.

Lemma scan_pos_row M k p l :
  scan_pos M k (Some p) l = match scan_pos M k None l with None => Some p | Some m => Some m end.
Proof.
  assert (∀ row, scan_pos M k row l =
    match scan_pos M k None l with None => row | Some m => Some m end) as H; [|apply H].
  induction l as [|q l IH]; intros row; simpl; [done|].
  destruct (_ || _); [|done]. rewrite (IH (Some q)). by destruct (scan_pos M k None l).
Qed.

Lemma scan_place M now d T l :
  NoDup l → (∀ p, p ∈ l → -1 ≤ remaining M now p < RT_TICK_MAX / 2) →
  0 ≤ s32 (d - now) < RT_TICK_MAX / 2 →
  place (scan_pos M d None l) T l = due_insert M now (s32 (d - now)) T l.
Proof.
  intros Hnd Hr Hd. induction l as [|p l IH]; simpl; [done|].
  apply list.NoDup_cons in Hnd as [Hp Hnd].
  fold (deadline M p). rewrite (u32_diff M now d p), scan_test; [|apply Hr; by left|done].
  destruct (remaining M now p <=? s32 (d - now)); [|done].
  rewrite scan_pos_row. rewrite <- IH; [|done|intros; apply Hr; by right].
  destruct (scan_pos M d None l) as [m|] eqn:E; simpl.
  - rewrite decide_False; [done|]. intros ->. by apply scan_pos_in in E as [?|?].
  - by rewrite decide_True.
Qed.

Lemma due_insert_perm M now r T l : due_insert M now r T l ≡ₚ T :: l.
Proof.
  induction l as [|p l IH]; simpl; [done|]. destruct (_ <=? _); [|done].
  rewrite IH. constructor.
Qed.

Lemma due_insert_order M now lo r T l :
  due_order M now lo l → remaining M now T = r → lo ≤ r < RT_TICK_MAX / 2 →
  due_order M now lo (due_insert M now r T l).
Proof.
  intros [Hr Hs] HT Hb. split.
  { intros p Hp. rewrite due_insert_perm in Hp.
    apply elem_of_cons in Hp as [->|Hp]; [by rewrite HT|auto]. }
  clear Hr. induction Hs as [|p l Hl IH Hp]; simpl; [repeat constructor|].
  destruct (Z.leb_spec (remaining M now p) r).
  - constructor; [done|]. apply List.Forall_forall. intros q Hq.
    apply list_elem_of_In in Hq. rewrite due_insert_perm in Hq.
    apply elem_of_cons in Hq as [->|Hq]; [lia|].
    rewrite List.Forall_forall in Hp. by apply Hp, list_elem_of_In.
  - constructor; [by constructor|]. constructor; [lia|].
    eapply List.Forall_impl; [|exact Hp]. simpl. lia.
Qed.

Lemma StronglySorted_impl_in {A} (R R' : A → A → Prop) l :
  (∀ a b, a ∈ l → b ∈ l → R a b → R' a b) → StronglySorted R l → StronglySorted R' l.
Proof.
  intros HR. induction 1 as [|x l Hl IH Hx]; constructor.
  - apply IH. intros a b Ha Hb. apply HR; by right.
  - rewrite List.Forall_forall in Hx |- *. intros y Hy. apply HR; [by left| |auto].
    right. by apply list_elem_of_In.
Qed.

(** Removing timers and changing other timers' data keep the order. *)
Lemma due_order_ext M M' now lo l :
  (∀ T, T ∈ l → deadline M' T = deadline M T) → due_order M now lo l → due_order M' now lo l.
Proof.
  intros He [Hr Hs].
  assert (Hrem : ∀ T, T ∈ l → remaining M' now T = remaining M now T).
  { intros T HT. unfold remaining. by rewrite He. }
  split; [intros T HT; rewrite Hrem by done; auto|].
  eapply StronglySorted_impl_in; [|exact Hs]. intros a b Ha Hb. by rewrite !Hrem.
Qed.

Lemma due_order_filter M now lo (P : ptr → Prop) `{∀ x, Decision (P x)} l :
  due_order M now lo l → due_order M now lo (filter P l).
Proof.
  intros [Hr Hs]. split; [intros T [_ HT]%list_elem_of_filter; auto|]. clear Hr.
  induction Hs as [|p l Hl IH Hp]; [constructor|]. rewrite filter_cons.
  destruct (decide (P p)); [|done]. constructor; [done|].
  rewrite List.Forall_forall in Hp |- *. intros q Hq.
  apply Hp, list_elem_of_In. apply list_elem_of_In, list_elem_of_filter in Hq. tauto.
Qed.

Lemma due_order_tl M now lo T l : due_order M now lo (T :: l) → due_order M now lo l.
Proof.
  intros [Hr Hs]. split; [intros; apply Hr; by right|]. by inversion Hs.
Qed.

Lemma due_insert_ext M M' now r T l :
  (∀ p, p ∈ l → deadline M' p = deadline M p) → due_insert M' now r T l = due_insert M now r T l.
Proof.
  intros He. induction l as [|p l IH]; simpl; [done|].
  unfold remaining. rewrite He by (by left). destruct (_ <=? _); [|done].
  f_equal. apply IH. intros. apply He. by right.
Qed.

(** A deadline set [i] ticks ahead is [i] ticks away, wrap-around included. *)
Lemma s32_ahead now i : 0 ≤ i < RT_TICK_MAX / 2 → s32 (u32 (now + i) - now) = i.
Proof.
  rewrite half_max. intros Hi. unfold u32. pose proof (Z.div_mod (now + i) (2 ^ 32)).
  replace ((now + i) mod 2 ^ 32 - now) with (i + (- ((now + i) / 2 ^ 32)) * 2 ^ 32) by lia.
  rewrite s32_plus. apply s32_small. lia.
Qed.

(** The timers of the hard list, in order, none due by more than a tick. *)
Definition hard_order (lo : Z) (s : kstate) : Prop :=
  due_order (k_timers s) (k_tick s) lo (Store.nodes (k_tmlists s) THard).

Lemma start_timer_nodes lo s A o tm :
  -1 ≤ lo → wf s → hard_order lo s → 0 ≤ tm_init_tick tm < RT_TICK_MAX / 2 →
  Store.nodes (k_tmlists (start_timer A o tm THard s)) THard =
    due_insert (k_timers s) (k_tick s) (tm_init_tick tm) A
      (filter (λ T, T ≠ A) (Store.nodes (k_tmlists s) THard)).
Proof.
  intros Hlo Hwf Ho Hi. cbn -[timer_place].
  set (d := u32 (k_tick s + tm_init_tick tm)). set (M := <[A:=set_tm_timeout_tick d tm]> (k_timers s)).
  assert (Hd : s32 (d - k_tick s) = tm_init_tick tm) by (by apply s32_ahead).
  set (l := filter (λ T, T ≠ A) (Store.nodes (k_tmlists s) THard)).
  assert (Hext : ∀ T, T ∈ l → deadline M T = deadline (k_timers s) T).
  { intros T [Hne _]%list_elem_of_filter. unfold deadline, M. by rewrite lookup_insert_ne. }
  assert (Hp : Store.nodes (timer_place THard A d M (Store.remove A (k_tmlists s))) THard
    = place (scan_pos M d None l) A l).
  { unfold timer_place, place. rewrite Store.nodes_remove. fold l.
    destruct (scan_pos M d None l); unfold Store.push_front, Store.insert_after;
      by rewrite Store.nodes_insert, Store.nodes_remove. }
  rewrite Hp. pose proof (due_order_filter _ _ _ (λ T, T ≠ A) _ Ho) as Hl. fold l in Hl.
  pose proof (due_order_ext _ M _ _ _ Hext Hl) as [HrM _].
  rewrite (scan_place M (k_tick s) d); [| |intros p Hpl; specialize (HrM p Hpl); lia|by rewrite Hd].
  - rewrite Hd. by apply due_insert_ext.
  - apply list.NoDup_filter, (ti_wf _ _ _ _ (wf_timers _ Hwf)).
Qed.

Lemma start_timer_deadline s A o tm T :
  T ≠ A → deadline (k_timers (start_timer A o tm THard s)) T = deadline (k_timers s) T.
Proof. intros HT. unfold deadline; cbn. by rewrite lookup_insert_ne. Qed.
Lemma start_timer_remaining s A o tm :
  0 ≤ tm_init_tick tm < RT_TICK_MAX / 2 →
  remaining (k_timers (start_timer A o tm THard s)) (k_tick s) A = tm_init_tick tm.
Proof. intros. unfold remaining, deadline. cbn. rewrite lookup_insert_eq; cbn. by apply s32_ahead. Qed.
Lemma start_timer_order s A o tm :
  wf s → hard_order 0 s → 0 ≤ tm_init_tick tm < RT_TICK_MAX / 2 →
  hard_order 0 (start_timer A o tm THard s).
Proof.
  intros Hwf Hord Hi. unfold hard_order. rewrite (start_timer_nodes 0) by done.
  pose proof (start_timer_deadline s A o tm) as Hoth.
  pose proof (start_timer_remaining s A o tm Hi) as Hrem.
  change (k_tick (start_timer A o tm THard s)) with (k_tick s).
  pose proof (due_order_filter _ _ _ (λ T, T ≠ A) _ Hord) as Hl.
  set (l := filter (λ T, T ≠ A) (Store.nodes (k_tmlists s) THard)) in *.
  set (M := k_timers (start_timer A o tm THard s)) in *.
  assert (HM : due_order M (k_tick s) 0 l).
  { eapply due_order_ext; [|exact Hl]. intros T [Hne _]%list_elem_of_filter. by apply Hoth. }
  rewrite <- (due_insert_ext (k_timers s) M).
  2:{ intros T [Hne _]%list_elem_of_filter. by apply Hoth. }
  by apply due_insert_order.
Qed.

(** C34: starting a timer puts it on the timer list at its deadline, [init_tick]
    ticks from now modulo [2^32]: behind every timer due no later than itself and
    before all the others, whose order does not change; so the list stays
    ordered by deadline, wrap-around of the tick counter included. *)
Theorem rt_timer_start_keeps_order s A o tm :
  wf s → hard_order 0 s → k_objects s !! A = Some o → k_timers s !! A = Some tm → A ≠ 0 →
  class_of o = RT_Object_Class_Timer →
  flag_on (obj_flag o) RT_TIMER_FLAG_SOFT_TIMER = false →
  0 ≤ tm_init_tick tm < RT_TICK_MAX / 2 →
  ∃ s', rt_timer_start A s = Ok s' RT_EOK ∧ hard_order 0 s' ∧
    k_tick s' = k_tick s ∧ remaining (k_timers s') (k_tick s') A = tm_init_tick tm ∧
    (∀ T, T ≠ A → deadline (k_timers s') T = deadline (k_timers s) T) ∧
    Store.nodes (k_tmlists s') THard = due_insert (k_timers s) (k_tick s) (tm_init_tick tm) A
      (filter (λ T, T ≠ A) (Store.nodes (k_tmlists s) THard)).
Proof.
  intros Hwf Hord Ho Htm HA Hc Hsoft Hi.
  exists (start_timer A o tm THard s). split.
  { apply rt_timer_start_hard_ok; try done; [lia|].
    intros p Hp. destruct (ti_armed _ _ _ _ (wf_timers _ Hwf) THard p (or_introl eq_refl) Hp)
      as (? & ? & []). eauto. }
  split; [by apply start_timer_order|]. split; [done|].
  split; [exact (start_timer_remaining s A o tm Hi)|]. split; [intros T HT; exact (start_timer_deadline s A o tm T HT)|].
  by apply (start_timer_nodes 0).
Qed.

(** ** The timeout of a waiting thread *)

Definition timed_out (th : rt_thread) : rt_thread := set_th_error (- RT_ETIMEOUT) th.
Definition thread_timeout (t : ptr) (th : rt_thread) (s : kstate) : kstate :=
  schedule (ready_insert t (timed_out th)
    (set_k_tlists (Store.remove t (k_tlists s)) (put_thread t (timed_out th) s))).

Lemma wf_thread_timeout_pre s t th :
  wf s → k_threads s !! t = Some th → th_stat th = RT_THREAD_SUSPEND →
  unarmed (k_tmlists s) (thread_timer t) →
  wf (ready_insert t (timed_out th)
    (set_k_tlists (Store.remove t (k_tlists s)) (put_thread t (timed_out th) s))).
Proof.
  intros Hwf Ht Hs Hu. apply wf_ready_insert.
  - eapply (wf_unwait (put_thread t (timed_out th) s) t (timed_out th)).
    + by eapply wf_put_thread.
    + cbn. by rewrite lookup_insert_eq.
    + cbn. by rewrite Hs.
  - cbn. by rewrite lookup_insert_eq.
  - done.
  - apply Store.remove_unlinked.
  - done.
Qed.

Lemma rt_thread_timeout_ok s t th :
  wf s → k_threads s !! t = Some th → th_stat th = RT_THREAD_SUSPEND →
  unarmed (k_tmlists s) (thread_timer t) →
  rt_thread_timeout t s = Ok (thread_timeout t th s) tt.
Proof.
  intros Hwf Ht Hs Hu.
  destruct (wf_thread_ok _ _ _ Hwf Ht (wf_suspend_live _ Hs)) as [Hnz _ Hp _ (o & Ho & Hc) _ _ _].
  unfold rt_thread_timeout. do 2 kstep.
  rewrite stat_read, Hs, Z.eqb_refl by (rewrite Hs; auto with kernel). do 2 kstep.
  rewrite Hc. do 3 kstep.
  erewrite bind_ok.
  2:{ apply rt_schedule_insert_thread_ok; [cbn; by rewrite lookup_insert_eq|done|done| |].
      - cbn. rewrite Hs. auto with kernel.
      - apply Store.remove_unlinked. }
  rewrite rt_schedule_wf; [reflexivity|]. exact (wf_thread_timeout_pre s t th Hwf Ht Hs Hu).
Qed.

(** ** Expiry *)

Section expiry.
Context {ext : External}.

(** Expiring the one-shot timer [T] of a suspended thread. *)
Definition expire_timer (T : ptr) (s : kstate) : kstate :=
  let o := default (mk_object [] 0 0) (k_objects s !! T) in
  put_object T (flag_clear RT_TIMER_FLAG_ACTIVATED o)
    (set_k_tmlists (Store.push_front TLocalHard T (Store.remove T (k_tmlists s))) s).
Definition expire_one (T : ptr) (s : kstate) : kstate :=
  let t := from_option tm_parameter 0 (k_timers s !! T) in
  let th := default (mk_thread 0 0 0 0 0 0 0 0 0 0 0 0 0 0 0 0 0) (k_threads s !! t) in
  let s' := thread_timeout t th (expire_timer T s) in
  set_k_tmlists (Store.remove T (k_tmlists s')) s'.

(** The timer [T] is a waiting thread's own timer. *)
Definition waits_on (s : kstate) (T t : ptr) (th : rt_thread) : Prop :=
  T = thread_timer t ∧ k_threads s !! t = Some th ∧ th_stat th = RT_THREAD_SUSPEND ∧
  ∃ o tm, k_objects s !! T = Some o ∧ k_timers s !! T = Some tm ∧ T ≠ 0 ∧
    tm_timeout_func tm = TF_thread_timeout ∧ tm_parameter tm = t ∧
    class_of o = RT_Object_Class_Timer ∧
    flag_on (obj_flag o) RT_TIMER_FLAG_PERIODIC = false.

Lemma thread_timer_waits s T tm :
  wf s → T ∈ Store.nodes (k_tmlists s) THard → k_timers s !! T = Some tm →
  tm_timeout_func tm = TF_thread_timeout → ∃ t th, waits_on s T t th.
Proof.
  intros Hwf Hin Htm Hf.
  destruct (ti_armed _ _ _ _ (wf_timers _ Hwf) THard T (or_introl eq_refl) Hin)
    as (o & tm' & [Ho Htm' HT Hc _ _ _ Hthr]).
  simplify_eq. destruct (Hthr Hf) as (E & th & Hth & Hs).
  destruct (wf_thread _ _ _ Hwf Hth) as [_ Hh _].
  destruct Hh as [_ _ _ (oT & HoT & _ & _ & _ & Hper) _ _ _]; [by rewrite Hs|].
  rewrite <- E in HoT. simplify_eq.
  exists (tm_parameter tm), th. split; [done|]. split; [done|]. split; [done|].
  exists o, tm. done.
Qed.

Lemma wf_expire_timer s T :
  wf s → Store.nodes (k_tmlists s) TLocalHard = [] → is_Some (k_objects s !! T) →
  wf (expire_timer T s).
Proof.
  intros [HL Hg HT HTm Hi] Hloc [o Ho]. unfold expire_timer. rewrite Ho. cbn [default from_option id].
  split; cbn; try done.
  - eapply threads_ok_ext; [eapply obj_ext_put, obj_same_off; done|apply tm_ext_refl|done].
  - unfold Store.push_front. eapply timers_ok_local.
    + by apply timers_ok_remove_obj.
    + apply Store.remove_unlinked.
    + by intros [|].
    + by rewrite Store.nodes_remove, Hloc.
Qed.

Lemma timers_ok_unlink O M T TL A : timers_ok O M T TL → timers_ok O M T (Store.remove A TL).
Proof.
  intros [Hw Ha]. split; [by apply Store.wf_remove|].
  intros h B Hh [Hin _]%Store.elem_of_remove. eauto.
Qed.

Lemma expire_timer_nodes T s h :
  h ≠ TLocalHard →
  Store.nodes (k_tmlists (expire_timer T s)) h = filter (λ x, x ≠ T) (Store.nodes (k_tmlists s) h).
Proof.
  intros. cbn -[Store.push_front Store.remove]. rewrite Store.nodes_push_front, decide_False by done.
  apply Store.nodes_remove.
Qed.
Lemma expire_timer_unarmed T s : unarmed (k_tmlists (expire_timer T s)) T.
Proof.
  intros h Hh. rewrite expire_timer_nodes by (by destruct Hh as [-> | ->]).
  intros [? _]%list_elem_of_filter. done.
Qed.

(** What expiring one timer does. *)
Record expired_one (s : kstate) (T t : ptr) (th : rt_thread) (s' : kstate) : Prop := {
  eo_wf : wf s';
  eo_local : Store.nodes (k_tmlists s') TLocalHard = [];
  eo_hard : Store.nodes (k_tmlists s') THard =
    filter (λ x, x ≠ T) (Store.nodes (k_tmlists s) THard);
  eo_thread : k_threads s' !! t = Some (set_th_stat RT_THREAD_READY (timed_out th));
  eo_others : ∀ t', t' ≠ t → k_threads s' !! t' = k_threads s !! t';
  eo_timers : k_timers s' = k_timers s;
  eo_tick : k_tick s' = k_tick s;
  eo_mask : k_primask s' = k_primask s
}.

Lemma expire_one_spec s T t th :
  wf s → Store.nodes (k_tmlists s) TLocalHard = [] → waits_on s T t th →
  expire_one T s = set_k_tmlists (Store.remove T (k_tmlists (thread_timeout t th (expire_timer T s))))
    (thread_timeout t th (expire_timer T s)) ∧
  expired_one s T t th (expire_one T s).
Proof.
  intros Hwf Hloc (E & Ht & Hs & o & tm & Ho & Htm & HT & Hf & Hp & Hc & Hper).
  assert (Heq : expire_one T s = set_k_tmlists (Store.remove T (k_tmlists (thread_timeout t th (expire_timer T s))))
    (thread_timeout t th (expire_timer T s))).
  { unfold expire_one. rewrite Htm. cbn [from_option]. by rewrite Hp, Ht. }
  split; [done|]. rewrite Heq.
  assert (Hw1 : wf (thread_timeout t th (expire_timer T s))).
  { apply wf_schedule, wf_thread_timeout_pre; [by apply wf_expire_timer|done|done|].
    rewrite <- E. apply expire_timer_unarmed. }
  split.
  - destruct Hw1 as [H1 H2 H3 H4 H5].
    split; [exact H1|exact H2|exact H3|apply timers_ok_unlink; exact H4|exact H5].
  - cbn -[Store.remove Store.push_front]. rewrite Store.nodes_remove, Store.nodes_push_front.
    rewrite decide_True, Store.nodes_remove, Hloc by done. cbn. by rewrite decide_False by naive_solver.
  - cbn -[Store.remove Store.push_front]. rewrite Store.nodes_remove, Store.nodes_push_front.
    rewrite decide_False, Store.nodes_remove by done.
    by rewrite list_filter_filter_l by done.
  - cbn. by rewrite lookup_insert_eq.
  - intros t' Hne. cbn. by rewrite !lookup_insert_ne.
  - reflexivity.
  - reflexivity.
  - reflexivity.
Qed.

Lemma timer_body_ok {A} s T t th (k : Z → K A) :
  wf s → Store.nodes (k_tmlists s) TLocalHard = [] → waits_on s T t th →
  (timer_expire T TLocalHard;; call_timeout T;;
   current_tick' ← rt_tick_get; empty ← tmlist_isempty TLocalHard;
   if (empty : bool) then k current_tick'
   else tmlist_remove T;; timer_rearm T;; k current_tick') s
  = k (k_tick s) (expire_one T s).
Proof.
  intros Hwf Hloc Hw. pose proof (expire_one_spec s T t th Hwf Hloc Hw) as [-> _].
  destruct Hw as (E & Ht & Hs & o & tm & Ho & Htm & HT & Hf & Hp & Hc & Hper).
  assert (Hexp : timer_expire T TLocalHard s = Ok (expire_timer T s) tt).
  { unfold timer_expire, _rt_timer_remove. do 2 kstep. rewrite Hper. cbn [negb when]. kstep.
    unfold expire_timer. rewrite Ho. apply tmlist_link_ok. apply Store.remove_unlinked. }
  rewrite (bind_ok _ _ _ _ _ Hexp).
  assert (Hcall : call_timeout T (expire_timer T s) = Ok (thread_timeout t th (expire_timer T s)) tt).
  { unfold call_timeout. kstep. rewrite Hf, Hp. apply rt_thread_timeout_ok; try done.
    - by apply wf_expire_timer.
    - rewrite <- E. apply expire_timer_unarmed. }
  rewrite (bind_ok _ _ _ _ _ Hcall). do 2 kstep.
  assert (Hne : Store.isempty TLocalHard (k_tmlists (thread_timeout t th (expire_timer T s))) = false).
  { apply Store.isempty_false. cbn -[Store.push_front].
    by rewrite Store.nodes_push_front, decide_True. }
  rewrite Hne. kstep.
  erewrite bind_ok; [reflexivity|]. unfold timer_rearm.
  erewrite bind_ok by (apply get_object_ok; cbn; by rewrite Ho, lookup_insert_eq).
  cbv beta. cbn [default from_option id].
  destruct (flags_off (obj_flag o)) as (_ & E2 & _).
  change (flag_on (obj_flag (flag_clear RT_TIMER_FLAG_ACTIVATED o)) RT_TIMER_FLAG_PERIODIC
    = flag_on (obj_flag o) RT_TIMER_FLAG_PERIODIC) in E2. by rewrite E2, Hper.
Qed.

(** ** The whole check *)

Fixpoint expire_due (l : list ptr) (s : kstate) : kstate :=
  match l with
  | [] => s
  | T :: l' => if remaining (k_timers s) (k_tick s) T <=? 0
               then expire_due l' (expire_one T s) else s
  end.

(** The timers due in a state are threads' own timers. *)
Definition due_are_waits (s : kstate) (l : list ptr) : Prop :=
  ∀ T tm, T ∈ l → k_timers s !! T = Some tm → remaining (k_timers s) (k_tick s) T ≤ 0 →
    tm_timeout_func tm = TF_thread_timeout.

(** What a timer check achieves: every due timer is off the list, its thread
    is ready with error [-RT_ETIMEOUT], and nothing else has moved. *)
Record expired (s s' : kstate) (l : list ptr) : Prop := {
  ex_wf : wf s';
  ex_local : Store.nodes (k_tmlists s') TLocalHard = [];
  ex_hard : Store.nodes (k_tmlists s') THard =
    filter (λ T, 0 < remaining (k_timers s) (k_tick s) T) l;
  ex_threads : ∀ T t th, T ∈ l → remaining (k_timers s) (k_tick s) T ≤ 0 →
    waits_on s T t th → k_threads s' !! t = Some (set_th_stat RT_THREAD_READY (timed_out th));
  ex_others : ∀ t, (∀ T, T ∈ l → remaining (k_timers s) (k_tick s) T ≤ 0 → T ≠ thread_timer t) →
    k_threads s' !! t = k_threads s !! t;
  ex_timers : k_timers s' = k_timers s;
  ex_tick : k_tick s' = k_tick s;
  ex_mask : k_primask s' = k_primask s
}.

Lemma thread_timer_inj t t' : thread_timer t = thread_timer t' → t = t'.
Proof. unfold thread_timer. lia. Qed.

Lemma nothing_due s l :
  wf s → Store.nodes (k_tmlists s) TLocalHard = [] → Store.nodes (k_tmlists s) THard = l →
  (∀ T, T ∈ l → 0 < remaining (k_timers s) (k_tick s) T) → expired s s l.
Proof.
  intros Hwf Hloc Hl Hd. split; try done.
  - by rewrite filter_id.
  - intros T t th HT Hdue. specialize (Hd T HT). lia.
Qed.

Lemma hard_timer s T :
  wf s → T ∈ Store.nodes (k_tmlists s) THard → ∃ tm, k_timers s !! T = Some tm.
Proof.
  intros Hwf Hin. destruct (ti_armed _ _ _ _ (wf_timers _ Hwf) THard T (or_introl eq_refl) Hin)
    as (? & tm & []). eauto.
Qed.

(** Expiring one timer leaves the other waits as they are. *)
Lemma waits_on_step s T t th T' t' th' :
  wf s → Store.nodes (k_tmlists s) TLocalHard = [] → waits_on s T t th → T' ≠ T →
  waits_on s T' t' th' → waits_on (expire_one T s) T' t' th'.
Proof.
  intros Hwf Hloc Hw Hne (E' & Ht' & Hs' & o & tm & Ho & Htm & Hrest).
  assert (Hnt : t' ≠ t) by (intros ->; apply Hne; rewrite E'; symmetry; apply Hw).
  destruct (expire_one_spec s T t th Hwf Hloc Hw) as [Heq Hone].
  split; [exact E'|]. split; [rewrite (eo_others _ _ _ _ _ Hone t' Hnt); exact Ht'|].
  split; [exact Hs'|]. exists o, tm. rewrite (eo_timers _ _ _ _ _ Hone).
  split; [|exact (conj Htm Hrest)]. rewrite Heq.
  change (<[T := flag_clear RT_TIMER_FLAG_ACTIVATED (default (mk_object [] 0 0) (k_objects s !! T))]>
    (k_objects s) !! T' = Some o). rewrite lookup_insert_ne; [exact Ho|congruence].
Qed.

Lemma expire_due_spec l s :
  wf s → Store.nodes (k_tmlists s) TLocalHard = [] → Store.nodes (k_tmlists s) THard = l →
  due_order (k_timers s) (k_tick s) (-1) l → due_are_waits s l →
  expired s (expire_due l s) l.
Proof.
  revert s. induction l as [|T l IH]; intros s Hwf Hloc Hl Hord Hdue; cbn [expire_due].
  { apply nothing_due; try done. by intros T ?%not_elem_of_nil. }
  assert (Hsort := du_sorted _ _ _ _ Hord). apply StronglySorted_inv in Hsort as [_ Hfirst].
  rewrite List.Forall_forall in Hfirst.
  destruct (Z.leb_spec (remaining (k_timers s) (k_tick s) T) 0) as [H0|H0].
  2:{ apply nothing_due; try done. intros T' [->|HT']%elem_of_cons; [done|].
      specialize (Hfirst T' (proj1 (list_elem_of_In _ _) HT')). lia. }
  assert (HinT : T ∈ Store.nodes (k_tmlists s) THard) by (rewrite Hl; by left).
  destruct (hard_timer s T Hwf HinT) as [tm Htm].
  destruct (thread_timer_waits s T tm Hwf HinT Htm) as (t & th & Hw).
  { apply (Hdue T tm (list_elem_of_here _ _) Htm H0). }
  destruct (expire_one_spec s T t th Hwf Hloc Hw) as [_ Hone]. revert Hone.
  assert (Hstep : ∀ T' t' th', T' ≠ T → waits_on s T' t' th' → waits_on (expire_one T s) T' t' th').
  { intros. by eapply waits_on_step. }
  revert Hstep. generalize (expire_one T s) as s1. intros s1 Hstep Hone.
  assert (Hnd : NoDup (T :: l)) by (rewrite <- Hl; apply (ti_wf _ _ _ _ (wf_timers _ Hwf))).
  apply list.NoDup_cons in Hnd as [HTl _].
  assert (Hl1 : Store.nodes (k_tmlists s1) THard = l).
  { rewrite (eo_hard _ _ _ _ _ Hone), Hl, filter_cons, decide_False by naive_solver.
    apply filter_id. by intros x Hx ->. }
  pose proof (eo_timers _ _ _ _ _ Hone) as Etm. pose proof (eo_tick _ _ _ _ _ Hone) as Etk.
  destruct (IH s1) as [Hwf' Hloc' Hhard' Hthr' Hoth' Htm' Htk' Hmk'];
    [apply Hone|apply Hone|done|rewrite Etm, Etk; by eapply due_order_tl| |].
  { intros T' tm' HT'. rewrite Etm, Etk. apply Hdue. by right. }
  rewrite Etm, Etk in *. split; try done.
  - rewrite Hhard', filter_cons, decide_False by lia. done.
  - intros T' t' th' [->|HT']%elem_of_cons Hd Hw'.
    + assert (t' = t) as -> by (apply thread_timer_inj; destruct Hw as [<- _], Hw' as [<- _]; done).
      rewrite Hoth'; [|intros T'' HT'' _ ->; destruct Hw as [-> _]; done].
      rewrite (eo_thread _ _ _ _ _ Hone). destruct Hw as (_ & ? & _), Hw' as (_ & ? & _).
      by simplify_eq.
    + apply (Hthr' T'); [done|done|]. apply Hstep; [by intros ->|done].
  - intros t' Hno. rewrite Hoth'; [|intros; apply Hno; [by right|done]].
    apply (eo_others _ _ _ _ _ Hone). intros ->.
    apply (Hno T); [by left|done|]. by destruct Hw as [-> _].
  - by rewrite Hmk', (eo_mask _ _ _ _ _ Hone).
Qed.

(** The loop ends within one turn per timer of the list. *)
Lemma timer_check_loop_ok fuel l s :
  wf s → Store.nodes (k_tmlists s) TLocalHard = [] → Store.nodes (k_tmlists s) THard = l →
  due_order (k_timers s) (k_tick s) (-1) l → due_are_waits s l → (length l < fuel)%nat →
  timer_check_loop fuel (k_tick s) s = Ok (expire_due l s) tt.
Proof.
  revert l s. induction fuel as [|fuel IH]; intros l s Hwf Hloc Hl Hord Hdue Hf; [lia|].
  cbn [timer_check_loop]. kstep. unfold Store.isempty at 1. rewrite Hl.
  destruct l as [|T l]; [reflexivity|]. cbn [expire_due].
  erewrite bind_ok by (by eapply tmlist_first_ok).
  assert (HinT : T ∈ Store.nodes (k_tmlists s) THard) by (rewrite Hl; by left).
  destruct (hard_timer s T Hwf HinT) as [tm Htm]. kstep.
  assert (Hr : -1 ≤ remaining (k_timers s) (k_tick s) T < RT_TICK_MAX / 2)
    by (apply (du_range _ _ _ _ Hord); by left).
  pose proof (due_test (k_timers s) (k_tick s) T Hr) as Ht.
  unfold deadline in Ht. rewrite Htm in Ht. cbn [from_option] in Ht. rewrite Ht.
  destruct (Z.leb_spec (remaining (k_timers s) (k_tick s) T) 0) as [H0|H0]; [|reflexivity].
  destruct (thread_timer_waits s T tm Hwf HinT Htm) as (t & th & Hw).
  { apply (Hdue T tm (list_elem_of_here _ _) Htm H0). }
  rewrite (timer_body_ok s T t th (timer_check_loop fuel) Hwf Hloc Hw).
  destruct (expire_one_spec s T t th Hwf Hloc Hw) as [_ Hone]. revert Hone.
  generalize (expire_one T s) as s1. intros s1 Hone.
  assert (Hnd : NoDup (T :: l)) by (rewrite <- Hl; apply (ti_wf _ _ _ _ (wf_timers _ Hwf))).
  apply list.NoDup_cons in Hnd as [HTl _].
  pose proof (eo_timers _ _ _ _ _ Hone) as Etm. pose proof (eo_tick _ _ _ _ _ Hone) as Etk.
  rewrite <- Etk. apply IH; try apply Hone.
  - rewrite (eo_hard _ _ _ _ _ Hone), Hl, filter_cons, decide_False by naive_solver.
    apply filter_id. by intros x Hx ->.
  - rewrite Etm, Etk. by eapply due_order_tl.
  - intros T' tm' HT'. rewrite Etm, Etk. apply Hdue. by right.
  - simpl in Hf. lia.
Qed.

Lemma wf_init_local s : wf s → wf (set_k_tmlists (Store.init TLocalHard (k_tmlists s)) s).
Proof.
  intros [HL Hg HT [Hw Ha] Hi]. split; [exact HL|exact Hg|exact HT| |exact Hi].
  split; [by apply Store.wf_init|]. intros h A Hh Hin. cbn -[Store.init] in Hin.
  rewrite Store.nodes_init in Hin. case_decide; [by apply not_elem_of_nil in Hin|eauto].
Qed.
Lemma wf_mask v s : wf s → wf (set_k_primask v s).
Proof. intros. by apply (wf_ext s). Qed.

(** The state a timer check leaves. *)
Definition checked (s : kstate) : kstate :=
  set_k_primask (k_primask s)
    (expire_due (Store.nodes (k_tmlists s) THard)
      (set_k_primask 1 (set_k_tmlists (Store.init TLocalHard (k_tmlists s)) s))).

Lemma init_local_nodes s :
  Store.nodes (k_tmlists (set_k_primask 1 (set_k_tmlists (Store.init TLocalHard (k_tmlists s)) s)))
    TLocalHard = [] ∧
  Store.nodes (k_tmlists (set_k_primask 1 (set_k_tmlists (Store.init TLocalHard (k_tmlists s)) s)))
    THard = Store.nodes (k_tmlists s) THard.
Proof.
  change (Store.nodes (Store.init TLocalHard (k_tmlists s)) TLocalHard = [] ∧
    Store.nodes (Store.init TLocalHard (k_tmlists s)) THard = Store.nodes (k_tmlists s) THard).
  by rewrite !Store.nodes_init, decide_True, decide_False.
Qed.

Lemma expired_order s s' lo :
  hard_order lo s → expired s s' (Store.nodes (k_tmlists s) THard) → hard_order 1 s'.
Proof.
  intros Hord [_ _ H3 _ _ H6 H7 _]. unfold hard_order. rewrite H3, H6, H7.
  destruct (due_order_filter _ _ _ (λ T, 0 < remaining (k_timers s) (k_tick s) T) _ Hord) as [Hr Hs].
  split; [|done]. intros T HT. specialize (Hr T HT). apply list_elem_of_filter in HT as [? _]. lia.
Qed.

Lemma rt_timer_check_ok s fuel :
  wf s → hard_order (-1) s → due_are_waits s (Store.nodes (k_tmlists s) THard) →
  (length (Store.nodes (k_tmlists s) THard) < fuel)%nat →
  rt_timer_check fuel s = Ok (checked s) tt ∧
  expired s (checked s) (Store.nodes (k_tmlists s) THard).
Proof.
  intros Hwf Hord Hdue Hf. unfold checked. destruct (init_local_nodes s) as [Hloc Hl].
  set (l := Store.nodes (k_tmlists s) THard) in *.
  set (s0 := set_k_primask 1 (set_k_tmlists (Store.init TLocalHard (k_tmlists s)) s)) in *.
  assert (Hwf0 : wf s0) by (by apply wf_mask, wf_init_local).
  split.
  - unfold rt_timer_check. kstep. kstep. kstep.
    pose proof (timer_check_loop_ok fuel l s0 Hwf0 Hloc Hl Hord Hdue Hf) as Hloop.
    erewrite bind_ok by exact Hloop. reflexivity.
  - destruct (expire_due_spec l s0 Hwf0 Hloc Hl Hord Hdue) as [H1 H2 H3 H4 H5 H6 H7 H8].
    split; try assumption; [by apply wf_mask|done].
Qed.


(** ** Any due timer: waits, and application timers, one-shot or periodic *)

Definition due (s : kstate) (T : ptr) : Prop := remaining (k_timers s) (k_tick s) T ≤ 0.
#[local] Instance due_dec s T : Decision (due s T) := Z.le_dec _ _.
Definition hard (s : kstate) : list ptr := Store.nodes (k_tmlists s) THard.
Definition is_periodic (o : rt_object) : bool := flag_on (obj_flag o) RT_TIMER_FLAG_PERIODIC.
Definition restarts (s : kstate) (T : ptr) : bool := from_option is_periodic false (k_objects s !! T).
Definition restarted (now : Z) (tm : rt_timer) : rt_timer := set_tm_timeout_tick (u32 (now + tm_init_tick tm)) tm.

(** What a timeout function of an application leaves alone: the threads, the
    timers, the tick and the interrupt mask. *)
Record callback_frame (s s' : kstate) : Prop := {
  cf_wf : wf s';
  cf_objects : ∀ T, is_Some (k_timers s !! T) → k_objects s' !! T = k_objects s !! T;
  cf_timers : k_timers s' = k_timers s;
  cf_tmlists : k_tmlists s' = k_tmlists s;
  cf_threads : k_threads s' = k_threads s;
  cf_tick : k_tick s' = k_tick s;
  cf_mask : k_primask s' = k_primask s }.
Definition callback_law (f p : Z) : Prop :=
  ∀ s, wf s → ∃ s', ext_call f p s = Ok s' tt ∧ callback_frame s s'.

(** The due application timers: their functions obey the law, and a periodic one
    has a period. *)
Definition due_ok (s : kstate) : Prop := ∀ T o tm f, T ∈ hard s → due s T →
  k_objects s !! T = Some o → k_timers s !! T = Some tm → tm_timeout_func tm = TF_user f →
  callback_law f (tm_parameter tm) ∧ (is_periodic o = true → 0 < tm_init_tick tm).

(** One turn of the loop, on the timer [T]. *)
Record turn (s : kstate) (T : ptr) (s' : kstate) : Prop := {
  tn_wf : wf s';
  tn_local : Store.nodes (k_tmlists s') TLocalHard = [];
  tn_hard : hard s' =
    let l := filter (λ x, x ≠ T) (hard s) in
    if restarts s T
    then due_insert (k_timers s) (k_tick s) (from_option tm_init_tick 0 (k_timers s !! T)) T l else l;
  tn_timer : k_timers s' !! T = if restarts s T then restarted (k_tick s) <$> k_timers s !! T else k_timers s !! T;
  tn_timers : ∀ A, A ≠ T → k_timers s' !! A = k_timers s !! A;
  tn_object : ∀ o, k_objects s !! T = Some o → ∃ o', k_objects s' !! T = Some o' ∧ obj_same o o' ∧
    flag_on (obj_flag o') RT_TIMER_FLAG_ACTIVATED = is_periodic o;
  tn_objects : ∀ A, A ≠ T → is_Some (k_timers s !! A) → k_objects s' !! A = k_objects s !! A;
  tn_thread : ∀ t th, waits_on s T t th → k_threads s' !! t = Some (set_th_stat RT_THREAD_READY (timed_out th));
  tn_threads : ∀ t, T ≠ thread_timer t → k_threads s' !! t = k_threads s !! t;
  tn_tick : k_tick s' = k_tick s;
  tn_mask : k_primask s' = k_primask s }.

Lemma waits_one_shot s T t th : waits_on s T t th → restarts s T = false.
Proof. intros (_ & _ & _ & o & tm & Ho & _ & _ & _ & _ & _ & Hp). unfold restarts. by rewrite Ho. Qed.

Lemma turn_wait s T t th : wf s → Store.nodes (k_tmlists s) TLocalHard = [] → waits_on s T t th →
  turn s T (expire_one T s).
Proof.
  intros Hwf Hloc Hw. destruct (expire_one_spec s T t th Hwf Hloc Hw) as [Heq [E1 E2 E3 E4 E5 E6 E7 E8]].
  pose proof (waits_one_shot _ _ _ _ Hw) as Hp.
  assert (Hobj : k_objects (expire_one T s) =
    <[T := flag_clear RT_TIMER_FLAG_ACTIVATED (default (mk_object [] 0 0) (k_objects s !! T))]> (k_objects s)) by (by rewrite Heq).
  clear Heq. revert E1 E2 E3 E4 E5 E6 E7 E8 Hobj. generalize (expire_one T s) as s1.
  intros s1 E1 E2 E3 E4 E5 E6 E7 E8 Hobj. split; try done.
  - by rewrite Hp.
  - by rewrite E6, Hp.
  - intros A _. by rewrite E6.
  - intros o Ho. rewrite Hobj, lookup_insert_eq, Ho. eexists. split; [done|]. split; [apply obj_same_off|].
    unfold restarts in Hp. rewrite Ho in Hp. cbn [from_option] in Hp. rewrite Hp.
    exact (proj1 (flags_off (obj_flag o))).
  - intros A HA _. by rewrite Hobj, lookup_insert_ne.
  - intros t' th' Hw'. assert (t' = t) as -> by (apply thread_timer_inj; destruct Hw as [<- _], Hw' as [<- _]; done).
    destruct Hw as (_ & ? & _), Hw' as (_ & ? & _). by simplify_eq.
  - intros t' Hne. apply E5. intros ->. apply Hne. by destruct Hw as [-> _].
Qed.

Lemma obj_same_trans o1 o2 o3 : obj_same o1 o2 → obj_same o2 o3 → obj_same o1 o3.
Proof.
  intros (A1 & A2 & A3) (B1 & B2 & B3). split; [by rewrite B1|]. split; [by rewrite B2|]. intros Hc.
  destruct (A3 Hc) as [<- <-]. apply B3. by rewrite A1.
Qed.

(** The header of an expired timer, and the timer on the local list. *)
Definition expired_header (o : rt_object) : rt_object :=
  if is_periodic o then o else flag_clear RT_TIMER_FLAG_ACTIVATED o.
Definition off_list (o : rt_object) (T : ptr) (s : kstate) : kstate :=
  put_object T (expired_header o)
    (set_k_tmlists (Store.push_front TLocalHard T (Store.remove T (k_tmlists s))) s).

Lemma expired_header_same o : obj_same o (expired_header o).
Proof. unfold expired_header. destruct (is_periodic o); [apply obj_same_refl|apply obj_same_off]. Qed.

Lemma timer_expire_ok s T o : k_objects s !! T = Some o → timer_expire T TLocalHard s = Ok (off_list o T s) tt.
Proof.
  intros Ho. unfold timer_expire, _rt_timer_remove. do 2 kstep. unfold off_list, expired_header, is_periodic.
  destruct (flag_on (obj_flag o) RT_TIMER_FLAG_PERIODIC); cbn [negb when].
  - kstep. rewrite tmlist_link_ok by (apply Store.remove_unlinked). f_equal. unfold put_object. cbn.
    rewrite (insert_id (k_objects s) T o Ho). by destruct s.
  - kstep. apply tmlist_link_ok. apply Store.remove_unlinked.
Qed.
Lemma wf_off_list s T o : wf s → Store.nodes (k_tmlists s) TLocalHard = [] → k_objects s !! T = Some o →
  wf (off_list o T s).
Proof.
  intros [HL Hg HT HTm Hi] Hloc Ho. split; cbn; try done.
  - eapply threads_ok_ext; [eapply obj_ext_put, expired_header_same; done|apply tm_ext_refl|done].
  - unfold Store.push_front. eapply timers_ok_local.
    + by apply timers_ok_remove_obj.
    + apply Store.remove_unlinked.
    + by intros [|].
    + by rewrite Store.nodes_remove, Hloc.
Qed.
Lemma off_list_nodes o T s :
  Store.nodes (k_tmlists s) TLocalHard = [] →
  Store.nodes (k_tmlists (off_list o T s)) TLocalHard = [T] ∧ hard (off_list o T s) = filter (λ x, x ≠ T) (hard s).
Proof.
  intros Hloc. unfold hard. cbn -[Store.push_front Store.remove]. rewrite !Store.nodes_push_front, decide_True by done.
  rewrite decide_False by done. by rewrite !Store.nodes_remove, Hloc.
Qed.

(** The state once the function of [T] has run and [T] is off the local list. *)
Definition off_local (T : ptr) (s : kstate) : kstate := set_k_tmlists (Store.remove T (k_tmlists s)) s.
Lemma wf_off_local T s : wf s → wf (off_local T s).
Proof. intros [H1 H2 H3 H4 H5]. split; [exact H1|exact H2|exact H3|apply timers_ok_unlink; exact H4|exact H5]. Qed.

(** What [timer_rearm] does to a timer on no list. *)
Lemma timer_rearm_ok s T o tm : wf s → hard_order (-1) s → T ∉ hard s → k_objects s !! T = Some o →
  k_timers s !! T = Some tm → T ≠ 0 → class_of o = RT_Object_Class_Timer →
  flag_on (obj_flag o) RT_TIMER_FLAG_SOFT_TIMER = false → 0 ≤ tm_init_tick tm < RT_TICK_MAX / 2 →
  flag_on (obj_flag o) RT_TIMER_FLAG_ACTIVATED = is_periodic o →
  timer_rearm T s =
    Ok (if is_periodic o then start_timer T (flag_clear RT_TIMER_FLAG_ACTIVATED o) tm THard
          (put_object T (flag_clear RT_TIMER_FLAG_ACTIVATED o) s) else s) tt.
Proof.
  intros Hwf Hord Hni Ho Htm HT Hc Hsoft Hi Hact. unfold timer_rearm. kstep. rewrite Hact. fold (is_periodic o).
  destruct (is_periodic o); [|done]. cbn [andb when]. kstep.
  destruct (flags_off (obj_flag o)) as (_ & _ & Hs). cbn [flag_clear obj_flag set_obj_flag] in *.
  erewrite bind_ok; [reflexivity|]. apply rt_timer_start_hard_ok; try done.
  - cbn. by rewrite lookup_insert_eq.
  - cbn [flag_clear obj_flag set_obj_flag]. by rewrite Hs.
  - lia.
  - intros p Hp. destruct (hard_timer s p Hwf Hp) as [tm' E]. by exists tm'.
Qed.

Lemma restarted_deadline s s' T tm : k_timers s !! T = Some tm → k_timers s' !! T = Some (restarted (k_tick s) tm) →
  0 ≤ tm_init_tick tm < RT_TICK_MAX / 2 → remaining (k_timers s') (k_tick s) T = tm_init_tick tm.
Proof. intros Htm Htm' Hi. unfold remaining, deadline. rewrite Htm'. cbn. by apply s32_ahead. Qed.

(** After a callback: off the local list, and restarted if periodic. *)
Lemma turn_rearm s s2 T o tm f : wf s → hard_order (-1) s →
  k_objects s !! T = Some o → k_timers s !! T = Some tm → tm_timeout_func tm = TF_user f →
  armed (k_objects s) (k_timers s) (k_threads s) THard T o tm →
  Store.nodes (k_tmlists s) TLocalHard = [] → callback_frame (off_list o T s) s2 →
  ∃ s', timer_rearm T (off_local T s2) = Ok s' tt ∧ turn s T s'.
Proof.
  intros Hwf Hord Ho Htm Hf [_ _ HT Hc Hact Hsoft Hi _] Hloc [F1 F2 F3 F4 F5 F6 F7].
  destruct (off_list_nodes o T s Hloc) as [N1 N2]. destruct (expired_header_same o) as (Sc & _ & St). specialize (St Hc) as [Ss Sp].
  set (o' := expired_header o) in *. set (s3 := off_local T s2).
  assert (k_objects s3 !! T = Some o') as Ho3.
  { cbn. rewrite F2 by (by eexists). apply lookup_insert_eq. }
  assert (k_timers s3 = k_timers s ∧ k_tick s3 = k_tick s ∧ k_threads s3 = k_threads s ∧ k_primask s3 = k_primask s)
    as (Et & Ek & Eh & Em) by (cbn; by rewrite F3, F5, F6, F7).
  assert (hard s3 = filter (λ x, x ≠ T) (hard s)) as Eh3.
  { unfold hard. cbn -[Store.remove]. rewrite Store.nodes_remove, F4. fold (hard (off_list o T s)). rewrite N2.
    by rewrite list_filter_filter_l by done. }
  assert (Store.nodes (k_tmlists s3) TLocalHard = []) as El3.
  { cbn -[Store.remove]. rewrite Store.nodes_remove, F4, N1. cbn. by rewrite decide_False by naive_solver. }
  assert (T ∉ hard s3) as Hni by (rewrite Eh3; intros [? _]%list_elem_of_filter; done).
  assert (is_periodic o' = is_periodic o) as Hper by exact Sp.
  assert (flag_on (obj_flag o') RT_TIMER_FLAG_ACTIVATED = is_periodic o') as Hact'.
  { rewrite Hper. unfold o', expired_header. destruct (is_periodic o); [exact Hact|].
    exact (proj1 (flags_off (obj_flag o))). }
  assert (hard_order (-1) s3) as Hord3.
  { unfold hard_order. fold (hard s3). rewrite Et, Ek, Eh3. by apply due_order_filter. }
  pose proof (wf_off_local T s2 F1) as Hwf3. fold s3 in Hwf3.
  eexists. split.
  { apply (timer_rearm_ok s3 T o' tm); try done; [by rewrite Et|by rewrite Sc|]. rewrite Ss. exact Hsoft. }
  assert (restarts s T = is_periodic o) as Hrs by (unfold restarts; by rewrite Ho).
  assert (Hoth : ∀ A, A ≠ T → is_Some (k_timers s !! A) → k_objects s3 !! A = k_objects s !! A).
  { intros A HA Hs. cbn. rewrite F2 by done. cbn. by rewrite lookup_insert_ne. }
  assert (Hnw : ∀ t th, waits_on s T t th → False).
  { intros t th (_ & _ & _ & x & tm' & _ & Htm' & _ & Hf' & _). rewrite Htm in Htm'. injection Htm' as <-. congruence. }
  rewrite Hper. destruct (is_periodic o) eqn:Hp.
  - set (o2 := flag_clear RT_TIMER_FLAG_ACTIVATED o'). set (s4 := put_object T o2 s3).
    assert (wf s4) as Hwf4.
    { destruct Hwf3 as [H1 H2 H3 H4 H5]. split; [exact H1|exact H2| | |exact H5].
      - eapply threads_ok_ext; [eapply obj_ext_put, obj_same_off; exact Ho3|apply tm_ext_refl|exact H3].
      - apply timers_ok_put_obj; [exact H4|]. intros h [->| ->] Hin; [by apply Hni|].
        destruct H4 as [_ Ha]. destruct (Ha TSoft T ltac:(by right) Hin) as (x & y & [Hx _ _ _ _ Hsx _ _]).
        rewrite Ho3 in Hx. injection Hx as <-. rewrite Ss, Hsoft in Hsx. done. }
    assert (flag_on (obj_flag o2) RT_TIMER_FLAG_SOFT_TIMER = bool_decide (THard = TSoft)) as Hs2.
    { destruct (flags_off (obj_flag o')) as (_ & _ & E). rewrite <- Hsoft, <- Ss. exact E. }
    assert (k_objects s4 !! T = Some o2) as Ho4 by apply lookup_insert_eq.
    assert (k_timers s4 !! T = Some tm) as Htm4 by (by rewrite <- Htm, <- Et).
    pose proof (wf_start_timer s4 T o2 tm THard Hwf4 Ho4 Htm4 HT ltac:(by rewrite <- Hc, <- Sc) ltac:(by left) Hs2 Hi
      ltac:(congruence)) as Hw5.
    pose proof (start_timer_nodes (-1) s4 T o2 tm ltac:(lia) Hwf4 Hord3 Hi) as Hn5.
    split; try done.
    + cbn -[timer_place Store.remove s3]. rewrite timer_place_ne by done. rewrite Store.nodes_remove, El3. done.
    + rewrite Hrs, Htm. cbn [from_option]. unfold hard at 1. rewrite Hn5. change (k_timers s4) with (k_timers s3).
      change (k_tick s4) with (k_tick s3). change (Store.nodes (k_tmlists s4) THard) with (hard s3).
      rewrite Et, Ek, Eh3. by rewrite list_filter_filter_l by done.
    + rewrite Hrs, Htm. cbn. rewrite lookup_insert_eq. unfold restarted. by rewrite <- Ek.
    + intros A HA. cbn. rewrite lookup_insert_ne by done. by rewrite <- Et.
    + intros x Hx. rewrite Ho in Hx. injection Hx as <-. eexists. split; [cbn; apply lookup_insert_eq|].
      split; [|rewrite Hp; exact (proj1 (flags_rearm (obj_flag o2)))].
      eapply obj_same_trans; [apply expired_header_same|]. eapply obj_same_trans; [apply obj_same_off|apply obj_same_rearm].
    + intros A HA Hs. cbn. rewrite !lookup_insert_ne by done. by apply Hoth.
    + intros t th Hw. by destruct (Hnw t th Hw).
    + intros t _. exact (f_equal (λ m, m !! t) Eh).
  - split; try done.
    + by rewrite Hrs.
    + rewrite Hrs. by rewrite Et.
    + intros A _. by rewrite Et.
    + intros x Hx. rewrite Ho in Hx. injection Hx as <-. exists o'. split; [done|]. split; [apply expired_header_same|].
      by rewrite Hact', Hper, Hp.
    + intros t th Hw. by destruct (Hnw t th Hw).
    + intros t _. by rewrite Eh.
Qed.

(** One turn of the loop on the first timer of the list, when that is due. *)
Lemma turn_ok s T (k : Z → K unit) :
  wf s → Store.nodes (k_tmlists s) TLocalHard = [] → hard_order (-1) s → due_ok s → T ∈ hard s → due s T →
  ∃ s', turn s T s' ∧
    (timer_expire T TLocalHard;; call_timeout T;;
     current_tick' ← rt_tick_get; empty ← tmlist_isempty TLocalHard;
     if (empty : bool) then k current_tick'
     else tmlist_remove T;; timer_rearm T;; k current_tick') s = k (k_tick s) s'.
Proof.
  intros Hwf Hloc Hord Hok Hin Hdue.
  destruct (ti_armed _ _ _ _ (wf_timers _ Hwf) THard T (or_introl eq_refl) Hin) as (o & tm & Harm).
  pose proof Harm as [Ho Htm _ _ _ _ _ _]. destruct (tm_timeout_func tm) as [|f] eqn:Hf.
  { destruct (thread_timer_waits s T tm Hwf Hin Htm Hf) as (t & th & Hw).
    exists (expire_one T s). split; [by eapply turn_wait|by eapply timer_body_ok]. }
  destruct (Hok T o tm f Hin Hdue Ho Htm Hf) as [Hlaw _].
  destruct (Hlaw (off_list o T s) (wf_off_list s T o Hwf Hloc Ho)) as (s2 & E2 & Hfr).
  destruct (turn_rearm s s2 T o tm f Hwf Hord Ho Htm Hf Harm Hloc Hfr) as (s' & E3 & Ht).
  exists s'. split; [done|]. rewrite (bind_ok _ _ _ _ _ (timer_expire_ok s T o Ho)).
  assert (Hcall : call_timeout T (off_list o T s) = Ok s2 tt).
  { unfold call_timeout. kstep. by rewrite Hf. }
  rewrite (bind_ok _ _ _ _ _ Hcall). do 2 kstep.
  assert (Hne : Store.isempty TLocalHard (k_tmlists s2) = false).
  { apply Store.isempty_false. rewrite (cf_tmlists _ _ Hfr). by rewrite (proj1 (off_list_nodes o T s Hloc)). }
  rewrite Hne. kstep. rewrite (bind_ok _ _ _ _ _ E3). pose proof (cf_tick _ _ Hfr) as Ek. change (k_tick s2 = k_tick s) in Ek. exact (f_equal (λ x, k x s') Ek).
Qed.

(** The timers that start again have a period ahead of them. *)
Lemma restarts_ahead s T : wf s → due_ok s → T ∈ hard s → due s T → restarts s T = true →
  ∃ tm, k_timers s !! T = Some tm ∧ 0 < tm_init_tick tm < RT_TICK_MAX / 2.
Proof.
  intros Hwf Hok Hin Hdue Hr. destruct (ti_armed _ _ _ _ (wf_timers _ Hwf) THard T (or_introl eq_refl) Hin)
    as (o & tm & [Ho Htm _ _ _ _ Hi _]).
  exists tm. split; [done|]. unfold restarts in Hr. rewrite Ho in Hr. cbn in Hr.
  destruct (tm_timeout_func tm) as [|f] eqn:Hf.
  - destruct (thread_timer_waits s T tm Hwf Hin Htm Hf) as (t & th & Hw%waits_one_shot).
    unfold restarts in Hw. rewrite Ho in Hw. cbn in Hw. congruence.
  - destruct (Hok T o tm f Hin Hdue Ho Htm Hf) as [_ Hp]. specialize (Hp Hr). lia.
Qed.

Lemma filter_ext_in {A} (P Q : A → Prop) `{!∀ x, Decision (P x), !∀ x, Decision (Q x)} (l : list A) :
  (∀ x, x ∈ l → P x ↔ Q x) → filter P l = filter Q l.
Proof.
  induction l as [|x l IH]; intros Hl; [done|]. rewrite !filter_cons.
  rewrite IH by (intros; apply Hl; by right). specialize (Hl x ltac:(by left)).
  destruct (decide (P x)), (decide (Q x)); tauto || done.
Qed.
Lemma due_insert_filter (P : ptr → Prop) `{!∀ x, Decision (P x)} M now r T l :
  ¬ P T → filter P (due_insert M now r T l) = filter P l.
Proof.
  intros HT. induction l as [|p l IH]; cbn [due_insert]; [by rewrite filter_cons, decide_False|].
  destruct (_ <=? r); [by rewrite !filter_cons, IH|]. by rewrite filter_cons, decide_False.
Qed.
Lemma filter_ne_id (T : ptr) (l : list ptr) : T ∉ l → filter (λ x, x ≠ T) l = l.
Proof. intros HT. apply filter_id. by intros x Hx ->. Qed.

(** What a turn leaves for the rest of the check. *)
Record turned (s : kstate) (T : ptr) (s' : kstate) : Prop := {
  td_order : hard_order (-1) s';
  td_ok : due_ok s';
  td_self : T ∈ hard s' ↔ restarts s T = true;
  td_member : ∀ A, A ≠ T → A ∈ hard s' ↔ A ∈ hard s;
  td_rest : ¬ (T ∈ hard s' ∧ due s' T);
  td_due : ∀ A, A ≠ T → due s' A ↔ due s A;
  td_kept : ∀ (P : ptr → Prop) `{!∀ x, Decision (P x)}, ¬ P T → filter P (hard s') = filter P (hard s) }.

Lemma turn_turned s T s' : wf s → hard_order (-1) s → due_ok s → T ∈ hard s → due s T → turn s T s' → turned s T s'.
Proof.
  intros Hwf Hord Hok Hin Hdue Ht. destruct Ht as [_ _ Eh Et Eto Eo Eoo _ _ Ek _].
  assert (Hrem : ∀ A, A ≠ T → remaining (k_timers s') (k_tick s') A = remaining (k_timers s) (k_tick s) A)
    by (intros A HA; unfold remaining, deadline; by rewrite Eto, Ek).
  assert (Hself : restarts s T = true → remaining (k_timers s') (k_tick s') T = from_option tm_init_tick 0 (k_timers s !! T) ∧
    0 < from_option tm_init_tick 0 (k_timers s !! T) < RT_TICK_MAX / 2).
  { intros Hr. destruct (restarts_ahead s T Hwf Hok Hin Hdue Hr) as (tm & Htm & Hi). rewrite Hr, Htm in Et.
    rewrite Ek, Htm. cbn. split; [|done]. apply (restarted_deadline s s' T tm); [done|done|lia]. }
  cbv zeta in Eh. set (l := filter (λ x, x ≠ T) (hard s)) in *.
  assert (Hl : ∀ A, A ∈ l ↔ A ∈ hard s ∧ A ≠ T) by (intros A; unfold l; rewrite list_elem_of_filter; tauto).
  assert (Hmem : ∀ A, A ∈ hard s' ↔ A ∈ l ∨ (A = T ∧ restarts s T = true)).
  { intros A. rewrite Eh. destruct (restarts s T); [rewrite due_insert_perm, elem_of_cons|]; naive_solver. }
  split.
  - unfold hard_order. fold (hard s'). rewrite Eh.
    assert (Hol : due_order (k_timers s') (k_tick s') (-1) l).
    { rewrite Ek. apply (due_order_ext (k_timers s)); [|by apply due_order_filter].
      intros A [_ HA]%Hl. unfold deadline. by rewrite Eto. }
    destruct (restarts s T) eqn:Hr; [|done]. destruct (Hself eq_refl) as [Hs1 Hs2].
    rewrite <- Ek. rewrite <- (due_insert_ext (k_timers s) (k_timers s')).
    2:{ intros A [_ HA]%Hl. unfold deadline. by rewrite Eto. }
    apply due_insert_order; [done|done|lia].
  - intros A o tm f HA Hd Ho Htm Hf. apply Hmem in HA as [[HA Hne]%Hl|[-> Hr]].
    + rewrite Eto in Htm by done. rewrite Eoo in Ho by (by try (eexists; exact Htm)).
      apply (Hok A o tm f); try done. unfold due in *. by rewrite <- Hrem.
    + exfalso. unfold due in Hd. destruct (Hself Hr) as [E ?]. rewrite E in Hd. lia.
  - rewrite Hmem, Hl. naive_solver.
  - intros A HA. rewrite Hmem, Hl. naive_solver.
  - intros [HT Hd]. apply Hmem in HT as [[_ ?]%Hl|[_ Hr]]; [done|]. unfold due in Hd. destruct (Hself Hr) as [E ?].
    rewrite E in Hd. lia.
  - intros A HA. unfold due. by rewrite Hrem.
  - intros P HP HT. rewrite Eh. trans (filter P l).
    + destruct (restarts s T); [by apply due_insert_filter|done].
    + unfold l. rewrite list_filter_filter. apply filter_ext_in. intros x _. naive_solver.
Qed.

Lemma turned_fewer s T s' : wf s → T ∈ hard s → due s T → turned s T s' →
  length (filter (due s') (hard s')) = pred (length (filter (due s) (hard s))).
Proof.
  intros Hwf Hin Hdue Ht.
  assert (filter (due s') (hard s') = filter (λ x, x ≠ T) (filter (due s) (hard s))) as ->.
  { rewrite list_filter_filter. rewrite <- (td_kept s T s' Ht (λ x, x ≠ T ∧ due s x)) by tauto.
    apply filter_ext_in. intros x Hx. destruct (decide (x = T)) as [->|Hne].
    - split; [intros Hd; exfalso; by apply (td_rest _ _ _ Ht)|naive_solver].
    - rewrite (td_due _ _ _ Ht x Hne). tauto. }
  assert (NoDup (filter (due s) (hard s))) as Hnd by (apply list.NoDup_filter, (ti_wf _ _ _ _ (wf_timers _ Hwf))).
  assert (T ∈ filter (due s) (hard s)) as Hf by (by apply list_elem_of_filter).
  apply list_elem_of_split in Hf as (a & b & E). rewrite E in *.
  apply NoDup_app in Hnd as (_ & Ha & [Hb _]%list.NoDup_cons).
  rewrite filter_app, filter_cons, decide_False by naive_solver.
  rewrite !filter_ne_id by (done || (intros HT; by apply (Ha T HT); left)). rewrite !length_app. simpl. lia.
Qed.

(** What a timer check achieves. The timers left are those that were not due, in
    their order, and the periodic ones, a period away; the others are inactive. The
    threads whose waits were due are ready with error [-RT_ETIMEOUT]. Nothing else
    has moved. *)
Record swept (s s' : kstate) : Prop := {
  sw_wf : wf s';
  sw_local : Store.nodes (k_tmlists s') TLocalHard = [];
  sw_order : hard_order 1 s';
  sw_member : ∀ T, T ∈ hard s' ↔ T ∈ hard s ∧ (due s T → restarts s T = true);
  sw_kept : filter (λ T, ¬ due s T) (hard s') = filter (λ T, ¬ due s T) (hard s);
  sw_timer : ∀ T, T ∈ hard s → due s T →
    k_timers s' !! T = if restarts s T then restarted (k_tick s) <$> k_timers s !! T else k_timers s !! T;
  sw_timers : ∀ T, ¬ (T ∈ hard s ∧ due s T) → k_timers s' !! T = k_timers s !! T;
  sw_object : ∀ T o, T ∈ hard s → due s T → k_objects s !! T = Some o →
    ∃ o', k_objects s' !! T = Some o' ∧ obj_same o o' ∧ flag_on (obj_flag o') RT_TIMER_FLAG_ACTIVATED = is_periodic o;
  sw_objects : ∀ T, is_Some (k_timers s !! T) → ¬ (T ∈ hard s ∧ due s T) → k_objects s' !! T = k_objects s !! T;
  sw_thread : ∀ T t th, T ∈ hard s → due s T → waits_on s T t th →
    k_threads s' !! t = Some (set_th_stat RT_THREAD_READY (timed_out th));
  sw_threads : ∀ t, (∀ T, T ∈ hard s → due s T → T ≠ thread_timer t) → k_threads s' !! t = k_threads s !! t;
  sw_tick : k_tick s' = k_tick s }.

Lemma swept_nothing s : wf s → Store.nodes (k_tmlists s) TLocalHard = [] → hard_order (-1) s →
  (∀ T, T ∈ hard s → ¬ due s T) → swept s s.
Proof.
  intros Hwf Hloc [Hr Hs] Hno. split; try done.
  - split; [|done]. intros T HT. specialize (Hr T HT). specialize (Hno T HT). unfold due in Hno. lia.
  - intros T. split; [|tauto]. intros HT. split; [done|]. intros Hd. by destruct (Hno T HT).
  - intros T HT Hd. by destruct (Hno T HT).
  - intros T o HT Hd. by destruct (Hno T HT).
  - intros T t th HT Hd. by destruct (Hno T HT).
Qed.

(** A turn keeps the other waits. *)
Lemma turn_waits s T s' T' t th : turn s T s' → T' ≠ T → waits_on s T' t th → waits_on s' T' t th.
Proof.
  intros [_ _ _ _ Eto _ Eoo _ Eth _ _] Hne (-> & Ht & Hst & o & tm & Ho & Htm & Hrest).
  split; [done|]. split; [by rewrite Eth|]. split; [done|].
  exists o, tm. rewrite Eto, Eoo by (done || by eexists). done.
Qed.

Lemma swept_turn s T s1 s' : wf s → T ∈ hard s → due s T → turn s T s1 → turned s T s1 → swept s1 s' → swept s s'.
Proof.
  intros Hwf Hin Hdue Ht [T1 T2 T3 T4 T5 T6 T7] [S1 S2 S3 S4 S5 S6 S7 S8 S9 S10 S11 S12].
  pose proof (λ T' t th, turn_waits s T s1 T' t th Ht) as Hwaits.
  destruct Ht as [_ _ _ N1 N2 N3 N4 N5 N6 N7 _].
  assert (Hsame : ∀ A, A ≠ T → (A ∈ hard s1 ∧ due s1 A ↔ A ∈ hard s ∧ due s A)) by (intros A HA; by rewrite T4, T6).
  assert (Hrs : ∀ A, A ≠ T → A ∈ hard s → restarts s1 A = restarts s A).
  { intros A HA HinA. unfold restarts. rewrite N4; [done|done|].
    destruct (hard_timer s A Hwf HinA) as [tm ->]. by eexists. }
  split; try done.
  - intros A. rewrite S4. destruct (decide (A = T)) as [->|HA].
    + rewrite T3. split; [tauto|]. intros [_ Hr]. split; [tauto|]. intros Hd. exfalso. apply T5. split; [|done]. apply T3. tauto.
    + rewrite T4, T6 by done. split; intros [H1 H2]; (split; [done|]); intros Hd; specialize (H2 Hd);
        by rewrite Hrs in * by done.
  - rewrite <- (T7 (λ A, ¬ due s A)) by tauto.
    assert (Hf : ∀ l : list ptr, filter (λ A, ¬ due s A) l = filter (λ A, ¬ due s A) (filter (λ A, ¬ due s1 A) l)).
    { intros l. rewrite list_filter_filter. apply filter_ext_in. intros A _. destruct (decide (A = T)) as [->|HA]; [tauto|].
      rewrite T6 by done. tauto. }
    by rewrite (Hf (hard s')), S5, <- (Hf (hard s1)).
  - intros A HA Hd. destruct (decide (A = T)) as [->|Hne]; [by rewrite S7|].
    rewrite S6 by (by apply Hsame). by rewrite Hrs, N2, N7.
  - intros A HA. destruct (decide (A = T)) as [->|Hne]; [by destruct HA|].
    rewrite S7 by (by rewrite Hsame). by apply N2.
  - intros A o HA Hd Ho. destruct (decide (A = T)) as [->|Hne].
    + destruct (N3 o Ho) as (o' & Ho' & Hs' & Hfl). exists o'. rewrite S9; [done| |done]. rewrite N1.
      destruct (hard_timer s T Hwf HA) as [tm ->]. by destruct (restarts s T); eexists.
    + destruct (proj2 (Hsame A Hne) (conj HA Hd)) as [HA1 Hd1]. rewrite <- (N4 A) in Ho; [by apply S8|done|].
      destruct (hard_timer s A Hwf HA) as [tm ->]. by eexists.
  - intros A Hs HA. destruct (decide (A = T)) as [->|Hne]; [by destruct HA|].
    rewrite S9 by (by rewrite ?Hsame, ?N2). by apply N4.
  - intros A t th HA Hd Hw. destruct (decide (A = T)) as [->|Hne].
    + rewrite S11; [by apply N5|]. intros A HA1 Hd1 ->. destruct Hw as [-> _]. by apply T5.
    + apply (S10 A); [by apply T4|by apply T6|by apply Hwaits].
  - intros t Hno. rewrite S11.
    + apply N6. by apply Hno.
    + intros A HA Hd ->. destruct (decide (thread_timer t = T)) as [<-|Hne]; [by apply T5|].
      apply (Hno (thread_timer t)); [by apply T4|by apply T6|done].
  - by rewrite S12.
Qed.

(** The loop looks at the first timer of the list. *)
Lemma loop_empty fuel c s : hard s = [] → timer_check_loop (S fuel) c s = Ok s tt.
Proof. intros El. cbn [timer_check_loop]. kstep. unfold Store.isempty. fold (hard s). by rewrite El. Qed.
Lemma loop_first fuel s T l : wf s → hard_order (-1) s → hard s = T :: l →
  timer_check_loop (S fuel) (k_tick s) s =
    if remaining (k_timers s) (k_tick s) T <=? 0 then
      (timer_expire T TLocalHard;; call_timeout T;;
       current_tick' ← rt_tick_get; empty ← tmlist_isempty TLocalHard;
       if (empty : bool) then timer_check_loop fuel current_tick'
       else tmlist_remove T;; timer_rearm T;; timer_check_loop fuel current_tick') s
    else Ok s tt.
Proof.
  intros Hwf Hord El. assert (HinT : T ∈ hard s) by (rewrite El; by left).
  cbn [timer_check_loop]. kstep. unfold Store.isempty at 1. fold (hard s). rewrite El.
  erewrite bind_ok by (by eapply tmlist_first_ok).
  destruct (hard_timer s T Hwf HinT) as [tm Htm]. kstep.
  assert (Hr : -1 ≤ remaining (k_timers s) (k_tick s) T < RT_TICK_MAX / 2)
    by (apply (du_range _ _ _ _ Hord); exact HinT).
  pose proof (due_test (k_timers s) (k_tick s) T Hr) as Htest.
  unfold deadline in Htest. rewrite Htm in Htest. cbn [from_option] in Htest. rewrite Htest.
  by destruct (remaining (k_timers s) (k_tick s) T <=? 0).
Qed.

(** The loop ends within one turn per due timer. *)
Lemma timer_check_loop_sweeps fuel s : wf s → Store.nodes (k_tmlists s) TLocalHard = [] → hard_order (-1) s →
  due_ok s → (length (filter (due s) (hard s)) < fuel)%nat →
  ∃ s', timer_check_loop fuel (k_tick s) s = Ok s' tt ∧ swept s s' ∧ k_primask s' = k_primask s.
Proof.
  revert s. induction fuel as [|fuel IH]; intros s Hwf Hloc Hord Hok Hf; [lia|].
  destruct (hard s) as [|T l] eqn:El.
  { exists s. split; [by apply loop_empty|]. split; [|done]. apply swept_nothing; try done.
    rewrite El. by intros T ?%not_elem_of_nil. }
  rewrite (loop_first fuel s T l Hwf Hord El). rewrite <- El in Hf.
  assert (HinT : T ∈ hard s) by (rewrite El; by left).
  destruct (Z.leb_spec (remaining (k_timers s) (k_tick s) T) 0) as [Hd|Hd].
  - destruct (turn_ok s T (timer_check_loop fuel) Hwf Hloc Hord Hok HinT Hd) as (s1 & Ht & E).
    pose proof (turn_turned s T s1 Hwf Hord Hok HinT Hd Ht) as Htd.
    pose proof (turned_fewer s T s1 Hwf HinT Hd Htd) as Hfew.
    assert (T ∈ filter (due s) (hard s)) as Hone by (by apply list_elem_of_filter).
    destruct (IH s1) as (s' & E' & Hsw & Hm); [apply Ht|apply Ht|apply Htd|apply Htd| |].
    { rewrite Hfew. destruct (filter (due s) (hard s)) as [|? ?]; [by apply not_elem_of_nil in Hone|simpl in *; lia]. }
    exists s'. split; [|split; [by eapply swept_turn|by rewrite Hm, (tn_mask _ _ _ Ht)]].
    rewrite E, <- (tn_tick _ _ _ Ht). exact E'.
  - exists s. split; [done|]. split; [|done]. apply swept_nothing; try done. intros A HA HdA. unfold due in HdA.
    assert (Hsort := du_sorted _ _ _ _ Hord). fold (hard s) in Hsort. rewrite El in Hsort, HA.
    apply StronglySorted_inv in Hsort as [_ Hfirst]. rewrite List.Forall_forall in Hfirst.
    apply elem_of_cons in HA as [->|HA]; [lia|]. specialize (Hfirst A (proj1 (list_elem_of_In _ _) HA)). lia.
Qed.

(** C33: a timer check returns within one turn per due timer, whatever the due
    timers are: waits of threads, and application timers, one-shot or periodic.
    From a list ordered by deadline, the earliest timers being at most one tick
    overdue, it takes the due timers off the list: each thread whose wait is due
    becomes ready with error [-RT_ETIMEOUT], each one-shot timer becomes inactive,
    and each periodic timer is back on the list, one period from now. No other
    thread or timer changes, the timers that were not due keep their order, and
    every timer left is due in the future. It is assumed of the functions of the
    due application timers that they return and leave threads and timers alone
    ([callback_law]), and of the periodic ones that their period is not 0, with
    which the loop would not end ([due_ok]). *)
Theorem rt_timer_check_expires s fuel :
  wf s → hard_order (-1) s → due_ok s → (length (filter (due s) (hard s)) < fuel)%nat →
  ∃ s', rt_timer_check fuel s = Ok s' tt ∧ swept s s' ∧ k_primask s' = k_primask s.
Proof.
  intros Hwf Hord Hok Hf. destruct (init_local_nodes s) as [Hloc Hl].
  set (s0 := set_k_primask 1 (set_k_tmlists (Store.init TLocalHard (k_tmlists s)) s)) in *. fold (hard s) (hard s0) in Hl.
  assert (Hwf0 : wf s0) by (by apply wf_mask, wf_init_local).
  assert (hard_order (-1) s0) as Hord0 by (unfold hard_order; fold (hard s0); by rewrite Hl).
  assert (due_ok s0) as Hok0 by (intros T o tm f HT; rewrite Hl in HT; by apply Hok).
  destruct (timer_check_loop_sweeps fuel s0 Hwf0 Hloc Hord0 Hok0) as (s1 & E & Hsw & _); [by rewrite Hl|].
  exists (set_k_primask (k_primask s) s1). split; [|split; [|done]].
  - unfold rt_timer_check. kstep. kstep. kstep.
    erewrite bind_ok by exact E. reflexivity.
  - destruct Hsw as [S1 S2 S3 S4 S5 S6 S7 S8 S9 S10 S11 S12]. rewrite Hl in *.
    split; try assumption. by apply wf_mask.
Qed.
End expiry.
