(* ===== verification/Thread.v ===== *)
(** * Threads, second part ([thread.c]), the initial stack ([cpuport.c]) and the tick ([clock.c]) *)

From Stdlib Require Import ZArith Lia.
From stdpp Require Import base gmap list fin_maps.
From S2P Require Import RTThread.
From S2P Require Import Prelude.
From S2P Require Import ListModel.
From S2P Require Import Kernel.
From S2P Require Import Kservice.
From S2P Require Import Scheduler.
From S2P Require Import Object.
From S2P Require Import TimerCore.
From S2P Require Import ThreadCore.
From S2P Require Import Timer.
From S2P Require Import Invariant.

(** ** Initialisation *)

(** [sizeof(struct stack_frame)] with the FPU in use (hard-float ABI). *)
Definition STACK_FRAME_SIZE : Z := 68.

(** The initial stack pointer; the frame it points to lies above it. *)
Definition rt_hw_stack_init (stack_addr : Z) : Z :=
  RT_ALIGN_DOWN (u32 (stack_addr + 4)) 8 - STACK_FRAME_SIZE.

Definition zero_thread : rt_thread :=
  mk_thread 0 0 0 0 0 0 0 0 0 0 0 0 0 0 0 0 0.

(** [rt_list_init(&thread->tlist)]: the node must be on no ring. *)
Definition tlist_init_node (thread : ptr) : K unit :=
  S ← gets k_tlists;
  if decide (Store.unlinked S thread) then mret () else fail FLinked.

Definition _rt_thread_init (thread : ptr) (entry parameter stack_start stack_size
    priority tick : Z) : K Z :=
  tlist_init_node thread;;
  modify (λ s,
    let old := default zero_thread (k_threads s !! thread) in
    set_k_threads (<[thread :=
      set_th_entry entry (set_th_parameter parameter
      (set_th_stack_addr stack_start (set_th_stack_size stack_size
      (* [rt_memset(stack_addr, '#', stack_size)] *)
      (set_th_stack_guard (if stack_size =? 0 then th_stack_guard old else 35)
      (set_th_sp (rt_hw_stack_init (stack_start + stack_size - 4)) old)))))]>
      (k_threads s)) s);;
  rt_assert (priority <? RT_THREAD_PRIORITY_MAX);;
  upd_thread thread (set_th_init_priority priority);;
  upd_thread thread (set_th_current_priority priority);;
  upd_thread thread (set_th_number_mask 0);;
  upd_thread thread (set_th_init_tick tick);;
  upd_thread thread (set_th_remaining_tick tick);;
  upd_thread thread (set_th_error RT_EOK);;
  upd_thread thread (set_th_stat RT_THREAD_INIT);;
  upd_thread thread (set_th_cleanup 0);;
  upd_thread thread (set_th_user_data 0);;
  o ← get_object thread;
  rt_timer_init (thread_timer thread) (obj_name o) TF_thread_timeout thread 0
    RT_TIMER_FLAG_ONE_SHOT;;
  mret RT_EOK.

Definition rt_thread_init (thread : ptr) (name : list Z) (entry parameter
    stack_start stack_size priority tick : Z) : K Z :=
  rt_assert (negb (thread =? RT_NULL));;
  rt_assert (negb (stack_start =? RT_NULL));;
  rt_object_init thread RT_Object_Class_Thread name;;
  _rt_thread_init thread entry parameter stack_start stack_size priority tick.

(** [mem] and [stack_start] are the addresses the two allocations return. *)
Definition rt_thread_create (mem stack_start : ptr) (name : list Z)
    (entry parameter stack_size priority tick : Z) : K ptr :=
  thread ← rt_object_allocate mem RT_Object_Class_Thread name;
  if thread =? RT_NULL then mret RT_NULL
  else if stack_start =? RT_NULL then rt_object_delete thread;; mret RT_NULL
  else
    _rt_thread_init thread entry parameter stack_start stack_size priority tick;;
    mret thread.

Definition rt_thread_startup (thread : ptr) : K Z :=
  rt_assert (negb (thread =? RT_NULL));;
  th ← get_thread thread;
  rt_assert (stat_of th =? RT_THREAD_INIT);;
  ty ← rt_object_get_type thread;
  rt_assert (ty =? RT_Object_Class_Thread);;
  upd_thread thread (λ th, set_th_current_priority (th_init_priority th) th);;
  upd_thread thread (λ th,
    set_th_number_mask (u32 (Z.shiftl 1 (th_current_priority th))) th);;
  upd_thread thread (set_th_stat RT_THREAD_SUSPEND);;
  rt_thread_resume thread;;
  self ← rt_thread_self;
  when (negb (self =? RT_NULL)) rt_schedule;;
  mret RT_EOK.

(** ** Termination *)

Section with_callbacks.
Context {ext : External}.

Definition _thread_cleanup_execute (thread : ptr) : K unit :=
  level ← rt_hw_interrupt_disable;
  th ← get_thread thread;
  when (negb (th_cleanup th =? RT_NULL)) (ext_call (th_cleanup th) thread);;
  rt_hw_interrupt_enable level.

Definition rt_thread_exit : K unit :=
  thread ← gets k_current;
  level ← rt_hw_interrupt_disable;
  _thread_cleanup_execute thread;;
  rt_schedule_remove_thread thread;;
  upd_thread thread (set_th_stat RT_THREAD_CLOSE);;
  rt_timer_detach (thread_timer thread);;
  sys ← rt_object_is_systemobject thread;
  (if (sys : bool) then rt_object_detach thread
   else tlist_push_front HDefunct thread);;
  rt_schedule;;
  rt_hw_interrupt_enable level.

Definition rt_thread_detach (thread : ptr) : K Z :=
  assert_class thread RT_Object_Class_Thread;;
  sys ← rt_object_is_systemobject thread;
  rt_assert sys;;
  th ← get_thread thread;
  if stat_of th =? RT_THREAD_CLOSE then mret RT_EOK
  else
    when (negb (stat_of th =? RT_THREAD_INIT)) (rt_schedule_remove_thread thread);;
    _thread_cleanup_execute thread;;
    rt_timer_detach (thread_timer thread);;
    upd_thread thread (set_th_stat RT_THREAD_CLOSE);;
    sys ← rt_object_is_systemobject thread;
    (if (sys : bool) then rt_object_detach thread
     else
       lock ← rt_hw_interrupt_disable;
       tlist_push_front HDefunct thread;;
       rt_hw_interrupt_enable lock);;
    mret RT_EOK.

Definition rt_thread_delete (thread : ptr) : K Z :=
  assert_class thread RT_Object_Class_Thread;;
  sys ← rt_object_is_systemobject thread;
  rt_assert (negb sys);;
  th ← get_thread thread;
  if stat_of th =? RT_THREAD_CLOSE then mret RT_EOK
  else
    when (negb (stat_of th =? RT_THREAD_INIT)) (rt_schedule_remove_thread thread);;
    _thread_cleanup_execute thread;;
    rt_timer_detach (thread_timer thread);;
    lock ← rt_hw_interrupt_disable;
    upd_thread thread (set_th_stat RT_THREAD_CLOSE);;
    tlist_push_front HDefunct thread;;
    rt_hw_interrupt_enable lock;;
    mret RT_EOK.

(** ** Control *)

Inductive thread_cmd : Set :=
  | RT_THREAD_CTRL_STARTUP
  | RT_THREAD_CTRL_CLOSE
  | RT_THREAD_CTRL_CHANGE_PRIORITY (prio : Z)  (** the byte [arg] points to *)
  | RT_THREAD_CTRL_other.

Definition thread_change_priority (thread : ptr) (prio : Z) : K unit :=
  temp ← rt_hw_interrupt_disable;
  th ← get_thread thread;
  (if stat_of th =? RT_THREAD_READY then
     rt_schedule_remove_thread thread;;
     upd_thread thread (set_th_current_priority prio);;
     upd_thread thread (set_th_number_mask (u32 (Z.shiftl 1 prio)));;
     rt_schedule_insert_thread thread
   else
     upd_thread thread (set_th_current_priority prio);;
     upd_thread thread (set_th_number_mask (u32 (Z.shiftl 1 prio))));;
  rt_hw_interrupt_enable temp.

Definition rt_thread_control (thread : ptr) (cmd : thread_cmd) : K Z :=
  assert_class thread RT_Object_Class_Thread;;
  match cmd with
  | RT_THREAD_CTRL_CHANGE_PRIORITY prio =>
      thread_change_priority thread prio;; mret RT_EOK
  | RT_THREAD_CTRL_STARTUP => rt_thread_startup thread
  | RT_THREAD_CTRL_CLOSE =>
      sys ← rt_object_is_systemobject thread;
      if (sys : bool) then rt_thread_detach thread else rt_thread_delete thread
  | RT_THREAD_CTRL_other => mret RT_EOK
  end.

End with_callbacks.

(** ** Giving up the processor *)

Definition rt_thread_yield : K Z :=
  level ← rt_hw_interrupt_disable;
  thread ← gets k_current;
  th ← get_thread thread;
  peer ← gets (λ s, Store.has_peer thread (k_tlists s));
  if (stat_of th =? RT_THREAD_READY) && peer then
    tlist_remove thread;;
    h ← priority_table (th_current_priority th);
    tlist_push_back h thread;;
    rt_hw_interrupt_enable level;;
    rt_schedule;;
    mret RT_EOK
  else
    rt_hw_interrupt_enable level;;
    mret RT_EOK.

(** Sleeping: the code before the switch; the thread to resume is kept. *)
Definition rt_thread_sleep (tick : Z) : K (outcome Z ptr) :=
  temp ← rt_hw_interrupt_disable;
  thread ← gets k_current;
  assert_class thread RT_Object_Class_Thread;;
  rt_thread_suspend thread;;
  rt_timer_control (thread_timer thread) RT_TIMER_CTRL_SET_TIME tick;;
  rt_timer_start (thread_timer thread);;
  rt_hw_interrupt_enable temp;;
  rt_schedule;;
  mret (Wait thread).

(** The code after the switch back. *)
Definition rt_thread_sleep_resumed (thread : ptr) : K Z :=
  th ← get_thread thread;
  when (th_error th =? - RT_ETIMEOUT) (upd_thread thread (set_th_error RT_EOK));;
  mret RT_EOK.

Definition rt_thread_delay (tick : Z) : K (outcome Z ptr) := rt_thread_sleep tick.

(** [rt_thread_delay_until(&tick, inc_tick)]: [*tick] is passed by value, and
    its new value is part of the result. *)
Definition rt_thread_delay_until (tick inc_tick : Z) : K (outcome Z ptr) :=
  thread ← rt_thread_self;
  assert_class thread RT_Object_Class_Thread;;
  level ← rt_hw_interrupt_disable;
  now ← rt_tick_get;
  if u32 (now - tick) <? inc_tick then
    let delay := u32 (tick + inc_tick - now) in
    rt_thread_suspend thread;;
    rt_timer_control (thread_timer thread) RT_TIMER_CTRL_SET_TIME delay;;
    rt_timer_start (thread_timer thread);;
    rt_hw_interrupt_enable level;;
    rt_schedule;;
    mret (Wait thread)
  else
    rt_hw_interrupt_enable level;;
    now ← rt_tick_get;
    mret (Done now).
Definition rt_thread_delay_until_resumed (thread : ptr) : K Z :=
  rt_thread_sleep_resumed thread;;
  rt_tick_get.

(** [rt_tick_from_millisecond] of [clock.c]; [ms] is a signed 32-bit value. *)
Definition rt_tick_from_millisecond (ms : Z) : Z :=
  if ms <? 0 then u32 RT_WAITING_FOREVER
  else u32 (u32 (RT_TICK_PER_SECOND * (Z.quot ms 1000))
            + Z.quot (RT_TICK_PER_SECOND * (Z.rem ms 1000) + 999) 1000).

Definition rt_thread_mdelay (ms : Z) : K (outcome Z ptr) :=
  rt_thread_sleep (rt_tick_from_millisecond ms).

Definition rt_thread_find (name : option (list Z)) : K ptr :=
  rt_object_find name RT_Object_Class_Thread.

(** ** The timer thread and its start ([timer.c]) *)

(** One turn of the loop of [rt_thread_timer_entry] up to where it waits. *)
Definition rt_thread_timer_turn : K (outcome unit ptr) :=
  next_timeout ← rt_timer_list_next_timeout TSoft;
  if next_timeout =? RT_TICK_MAX then
    self ← rt_thread_self;
    rt_thread_suspend self;;
    rt_schedule;;
    mret (Wait self)
  else
    current_tick ← rt_tick_get;
    if u32 (next_timeout - current_tick) <? RT_TICK_MAX / 2 then
      o ← rt_thread_delay (u32 (next_timeout - current_tick));
      match o with Done _ => mret (Done tt) | Wait t => mret (Wait t) end
    else mret (Done tt).

Definition rt_system_timer_thread_init (entry stack : Z) : K unit :=
  timer_thread ← gets k_timer_thread;
  tmlist_init TSoft;;
  rt_thread_init timer_thread [116; 105; 109; 101; 114] (* timer *) entry RT_NULL stack 512 4 10;;
  rt_thread_startup timer_thread;;
  mret ().

(** ** Changing a priority *)

Definition with_prio (p : Z) (th : rt_thread) : rt_thread :=
  set_th_number_mask (u32 (Z.shiftl 1 p)) (set_th_current_priority p th).

(** A ready thread moves to the tail of the list of its new priority; any
    other thread only records it. *)
Definition change_priority (t : ptr) (p : Z) (th : rt_thread) (s : kstate) : kstate :=
  let th' := with_prio p th in
  let ready := th_stat th =? RT_THREAD_READY in
  let s' := ready_insert t th' (put_thread t th' (ready_remove t th s)) in
  set_k_threads (<[t := th']> (k_threads s))
    (set_k_tlists (if ready then k_tlists s' else k_tlists s)
      (set_k_group (if ready then k_group s' else k_group s) s)).

Lemma thread_change_priority_ok s t th p :
  wf s → k_threads s !! t = Some th → live th → 0 ≤ p < 32 →
  thread_change_priority t p s = Ok (change_priority t p th s) tt.
Proof.
  intros Hwf Ht Hl Hp. destruct (wf_thread_ok _ _ _ Hwf Ht Hl) as [Hnz _ Hpr _ _ _ _ _].
  pose proof (wf_stat _ _ _ Hwf Ht) as Hk.
  unfold thread_change_priority, change_priority. do 2 kstep. rewrite stat_read by done.
  destruct (Z.eqb_spec (th_stat th) RT_THREAD_READY) as [Hs|Hs].
  - rewrite bind_assoc.
    erewrite bind_ok by (apply rt_schedule_remove_thread_ok; [exact Ht|done..]).
    rewrite bind_assoc. kstep. rewrite bind_assoc. kstep.
    erewrite bind_ok.
    2:{ apply rt_schedule_insert_thread_ok; [cbn; by rewrite !lookup_insert_eq|done|cbn; lia|done|].
        apply Store.remove_unlinked. }
    cbn. unfold ready_insert, put_thread, rt_hw_interrupt_enable, modify; cbn.
    rewrite !insert_insert_eq.
    assert (set_th_stat RT_THREAD_READY (with_prio p th) = with_prio p th) as E.
    { unfold with_prio. destruct th; cbn in *. by rewrite Hs. }
    unfold with_prio in *. rewrite E. reflexivity.
  - rewrite bind_assoc. do 2 kstep. unfold rt_hw_interrupt_enable, modify, put_thread; cbn.
    rewrite !insert_insert_eq. reflexivity.
Qed.

Lemma with_prio_wf O M t th p :
  thread_wf O M t th → 0 ≤ p < 32 → thread_wf O M t (with_prio p th).
Proof.
  intros [Hk Hh _] Hp. split; [done| |].
  - intros Hc. destruct (Hh Hc). split; done.
  - intros _. cbn. split; [done|]. by apply u32_shiftl1.
Qed.

Lemma wf_change_priority s t th p :
  wf s → k_threads s !! t = Some th → live th → 0 ≤ p < 32 →
  wf (change_priority t p th s).
Proof.
  intros Hwf Ht Hl Hp. pose proof (wf_thread _ _ _ Hwf Ht) as Htw.
  destruct (wf_thread_ok _ _ _ Hwf Ht Hl) as [_ _ Hpr Hm _ _ _ _].
  destruct Hwf as [HL Hg HT HTm (ti & Hti & Hsi)] eqn:E.
  unfold change_priority. destruct (Z.eqb_spec (th_stat th) RT_THREAD_READY) as [Hs|Hs].
  - split; cbn.
    + rewrite <- (insert_insert_eq (k_threads s) t (with_prio p th) (set_th_stat RT_THREAD_SUSPEND th)).
      apply (lists_ok_ready _ _ _ (with_prio p th)); [by apply lists_ok_remove|apply Store.remove_unlinked|done].
    + rewrite u32_shiftl1, Hm by done. apply group_ok_push; [|done].
      apply group_ok_pop; [done|done|..].
      * intros q Hq. by rewrite (ready_only s t th q).
      * by rewrite (ready_only s t th).
    + apply threads_ok_put; [done|]. by apply with_prio_wf.
    + eapply timers_ok_put_thread; eauto.
    + destruct (decide (t = k_idle s)) as [->|]; [rewrite lookup_insert_eq; eauto|].
      rewrite lookup_insert_ne by done. eauto.
  - split; cbn; try done.
    + by eapply lists_ok_put.
    + apply threads_ok_put; [done|]. by apply with_prio_wf.
    + eapply timers_ok_put_thread; eauto.
    + destruct (decide (t = k_idle s)) as [->|]; [by simplify_eq|].
      rewrite lookup_insert_ne by done. eauto.
Qed.

(** The calling thread keeps running when another thread's priority changes;
    so does the current thread when its own changes. *)
Lemma change_priority_waiters s t th p h :
  wf s → k_threads s !! t = Some th → is_wait h →
  Store.nodes (k_tlists (change_priority t p th s)) h = Store.nodes (k_tlists s) h.
Proof.
  intros Hwf Ht Hh. cbn -[Store.push_back Store.remove].
  destruct (Z.eqb_spec (th_stat th) RT_THREAD_READY) as [Hs|Hs]; [|done].
  rewrite Store.nodes_push_back, decide_False by (by destruct h).
  apply Store.nodes_remove_id. intros Hin.
  destruct (lo_wait _ _ (wf_lists _ Hwf) _ _ Hh Hin) as (x & Hx & Hsx). simplify_eq.
  by rewrite Hs in Hsx.
Qed.

Lemma rt_thread_control_prio_ok {ext : External} s t th p :
  wf s → k_threads s !! t = Some th → live th → 0 ≤ p < 32 →
  rt_thread_control t (RT_THREAD_CTRL_CHANGE_PRIORITY p) s
  = Ok (change_priority t p th s) RT_EOK.
Proof.
  intros Hwf Ht Hl Hp. destruct (wf_thread_ok _ _ _ Hwf Ht Hl) as [? _ _ _ (o & ? & ?) _ _ _].
  unfold rt_thread_control. kstep.
  erewrite bind_ok by (by apply thread_change_priority_ok). reflexivity.
Qed.

(** ** The system tick ([clock.c]) *)

Definition rt_tick_set (tick : Z) : K unit :=
  level ← rt_hw_interrupt_disable;
  modify (set_k_tick tick);;
  rt_hw_interrupt_enable level.

(** [rt_tick_increase]; [fuel] bounds the timer check it ends with. *)
Definition rt_tick_increase {ext : External} (fuel : nat) : K unit :=
  modify (λ s, set_k_tick (u32 (k_tick s + 1)) s);;
  thread ← rt_thread_self;
  upd_thread thread (λ th, set_th_remaining_tick (u32 (th_remaining_tick th - 1)) th);;
  th ← get_thread thread;
  when (th_remaining_tick th =? 0)
    (upd_thread thread (λ th, set_th_remaining_tick (th_init_tick th) th);;
     rt_thread_yield;; mret ());;
  rt_timer_check fuel.
