(* ===== verification/Idle.v ===== *)
(** * The idle thread ([idle.c]): hooks, and freeing of deleted threads *)

From Stdlib Require Import ZArith Lia.
From stdpp Require Import base gmap list fin_maps.
From S2P Require Import RTThread.
From S2P Require Import Prelude.
From S2P Require Import ListModel.
From S2P Require Import Kernel.
From S2P Require Import Kservice.
From S2P Require Import Scheduler.
From S2P Require Import Object.
From S2P Require Import TimerCore.
From S2P Require Import ThreadCore.
From S2P Require Import Timer.
From S2P Require Import Invariant.
From S2P Require Import Thread.

(** ** The hook list: [RT_IDLE_HOOK_LIST_SIZE] slots, a null one is free *)

(** Writing the first slot that holds [old]. *)
Fixpoint replace_first (old new : Z) (l : list Z) : option (list Z) :=
  match l with
  | [] => None
  | x :: l' => if x =? old then Some (new :: l') else (x ::.) <$> replace_first old new l'
  end.

Definition rt_thread_idle_sethook (hook : Z) : K Z :=
  level ← rt_hw_interrupt_disable;
  hooks ← gets k_idle_hooks;
  ret ← match replace_first RT_NULL hook hooks with
        | Some hooks' => modify (set_k_idle_hooks hooks');; mret RT_EOK
        | None => mret (- RT_EFULL)
        end;
  rt_hw_interrupt_enable level;;
  mret ret.

Definition rt_thread_idle_delhook (hook : Z) : K Z :=
  level ← rt_hw_interrupt_disable;
  hooks ← gets k_idle_hooks;
  ret ← match replace_first hook RT_NULL hooks with
        | Some hooks' => modify (set_k_idle_hooks hooks');; mret RT_EOK
        | None => mret (- RT_ENOSYS)
        end;
  rt_hw_interrupt_enable level;;
  mret ret.

(** ** Background work *)

Definition _has_defunct_thread : K bool :=
  empty ← tlist_isempty HDefunct; mret (negb empty).

(** The loop of [rt_thread_idle_excute]: each turn takes one thread off the
    defunct list, so their number bounds the turns. *)
Fixpoint idle_excute_loop (fuel : nat) : K unit :=
  lock ← rt_hw_interrupt_disable;
  has ← _has_defunct_thread;
  if negb has then rt_hw_interrupt_enable lock
  else match fuel with
       | O => fail FHang
       | S fuel' =>
           thread ← tlist_first HDefunct;
           tlist_remove thread;;
           (* the stack is freed, then the thread *)
           rt_object_delete thread;;
           rt_hw_interrupt_enable lock;;
           idle_excute_loop fuel'
       end.
Definition rt_thread_idle_excute : K unit :=
  RT_DEBUG_NOT_IN_INTERRUPT;;
  n ← gets (λ s, length (Store.nodes (k_tlists s) HDefunct));
  idle_excute_loop n.

Fixpoint call_hooks {ext : External} (l : list Z) : K unit :=
  match l with
  | [] => mret ()
  | h :: l' => when (negb (h =? RT_NULL)) (ext_call h 0);; call_hooks l'
  end.
(** One turn of the idle thread's endless loop. *)
Definition rt_thread_idle_turn {ext : External} : K unit :=
  hooks ← gets k_idle_hooks;
  call_hooks hooks;;
  rt_thread_idle_excute.

Definition IDLE_THREAD_STACK_SIZE : Z := 256.
Definition rt_thread_idle_init (entry stack : Z) : K unit :=
  idle ← gets k_idle;
  rt_thread_init idle [116; 105; 100; 108; 101] (* tidle *) entry RT_NULL stack
    IDLE_THREAD_STACK_SIZE (RT_THREAD_PRIORITY_MAX - 1) 32;;
  rt_thread_startup idle;;
  mret ().

Definition rt_thread_idle_gethandler : K ptr := gets k_idle.
