(* ===== verification/IpcList.v ===== *)
(** * Wait lists shared by the IPC objects ([ipc.c])

    [rt_ipc_list_suspend] queues the calling thread, [rt_ipc_list_resume] and
    [rt_ipc_list_resume_all] wake waiters. A list is named by its head. *)

From Stdlib Require Import ZArith Lia Sorted.
From stdpp Require Import base gmap list fin_maps.
From S2P Require Import RTThread.
From S2P Require Import Prelude.
From S2P Require Import ListModel.
From S2P Require Import Kernel.
From S2P Require Import Kservice.
From S2P Require Import Scheduler.
From S2P Require Import Object.
From S2P Require Import TimerCore.
From S2P Require Import ThreadCore.
From S2P Require Import Timer.
From S2P Require Import Invariant.
From S2P Require Import Thread.

Definition rt_ipc_object_init (ipc : ptr) : K Z :=
  tlist_init (HSuspend ipc);; mret RT_EOK.

(** The search of the priority case: the first waiter with a numerically
    larger (lower) priority than [prio], if any. *)
Fixpoint prio_position (prio : Z) (l : list ptr) : K (option ptr) :=
  match l with
  | [] => mret None
  | n :: l' =>
      sthread ← get_thread n;
      if prio <? th_current_priority sthread then mret (Some n)
      else prio_position prio l'
  end.

Definition rt_ipc_list_suspend (list : thead) (thread : ptr) (flag : Z) : K Z :=
  rt_thread_suspend thread;;
  (if flag =? RT_IPC_FLAG_FIFO then tlist_push_back list thread
   else if flag =? RT_IPC_FLAG_PRIO then
     th ← get_thread thread;
     l ← gets (λ s, Store.nodes (k_tlists s) list);
     pos ← prio_position (th_current_priority th) l;
     match pos with
     | Some n => tlist_insert_before list n thread
     | None => tlist_push_back list thread
     end
   else mret ());;
  mret RT_EOK.

Definition rt_ipc_list_resume (list : thead) : K Z :=
  thread ← tlist_first list;
  rt_thread_resume thread;;
  mret RT_EOK.

(** The loop of [rt_ipc_list_resume_all]; each turn takes one waiter off the
    list, so the number of waiters bounds the turns. *)
Fixpoint resume_all_loop (fuel : nat) (list : thead) (error : Z) : K unit :=
  empty ← tlist_isempty list;
  if (empty : bool) then mret ()
  else match fuel with
       | O => fail FHang
       | S fuel' =>
           temp ← rt_hw_interrupt_disable;
           thread ← tlist_first list;
           upd_thread thread (set_th_error error);;
           rt_thread_resume thread;;
           rt_hw_interrupt_enable temp;;
           resume_all_loop fuel' list error
       end.
Definition rt_ipc_list_resume_all (list : thead) : K Z :=
  n ← gets (λ s, length (Store.nodes (k_tlists s) list));
  resume_all_loop n list (- RT_ERROR);;
  mret RT_EOK.

(** Starting the wait timeout of a thread: [rt_timer_control(SET_TIME)] and
    [rt_timer_start] on its timer. *)
Definition start_thread_timer (thread : ptr) (time : Z) : K unit :=
  rt_timer_control (thread_timer thread) RT_TIMER_CTRL_SET_TIME time;;
  rt_timer_start (thread_timer thread);;
  mret ().

Definition set_object_flag (object flag : Z) : K unit :=
  upd_object object (set_obj_flag flag).

(** The checks that begin a detach. *)
Definition assert_static (object class : Z) : K unit :=
  assert_class object class;;
  sys ← rt_object_is_systemobject object;
  rt_assert sys.

(** The remaining time of a bounded wait after it was interrupted:
    [timeout -= rt_tick_get() - tick_delta], floored at zero. *)
Definition remaining_time (timeout tick_delta : Z) : K Z :=
  if 0 <? timeout then
    now ← rt_tick_get;
    let timeout' := s32 (timeout - u32 (now - tick_delta)) in
    mret (if timeout' <? 0 then 0 else timeout')
  else mret timeout.

(** ** What waiting and waking do *)

Definition ipc_flag (flag : Z) : Prop := flag = RT_IPC_FLAG_FIFO ∨ flag = RT_IPC_FLAG_PRIO.

Definition prio_of (T : gmap ptr rt_thread) (t : ptr) : Z :=
  from_option th_current_priority 0 (T !! t).
Fixpoint prio_pos (T : gmap ptr rt_thread) (prio : Z) (l : list ptr) : option ptr :=
  match l with
  | [] => None
  | n :: l' => if prio <? prio_of T n then Some n else prio_pos T prio l'
  end.

(** The wait list [l] with [t] queued by the policy [flag]: that of an IPC
    object, or [WAIT_LIFO], in front, as memory pools queue their waiters. *)
Definition WAIT_LIFO : Z := -1.
Definition wait_insert (flag : Z) (T : gmap ptr rt_thread) (prio : Z) (t : ptr)
    (l : list ptr) : list ptr :=
  if flag =? WAIT_LIFO then t :: l
  else if flag =? RT_IPC_FLAG_FIFO then l ++ [t]
  else match prio_pos T prio l with
       | Some n => Store.insert_before_in n t l
       | None => l ++ [t]
       end.

Definition ipc_suspend (list : thead) (t : ptr) (th : rt_thread) (flag : Z) (s : kstate) : kstate :=
  let s1 := thread_suspend t th s in
  set_k_tlists (<[list := wait_insert flag (k_threads s1) (th_current_priority th) t
                            (Store.nodes (k_tlists s1) list)]> (k_tlists s1)) s1.

Definition zero_timer : rt_timer := mk_timer TF_thread_timeout 0 0 0.
Definition wait_timer (t : ptr) (time : Z) (s : kstate) : kstate :=
  let T := thread_timer t in
  let tm := set_tm_init_tick (u32 time) (default zero_timer (k_timers s !! T)) in
  start_timer T (default zero_object (k_objects s !! T)) tm THard (put_timer T tm s).

(** The same for a bounded wait only, field by field. *)
Definition arm_timer (t : ptr) (time : Z) (s : kstate) : kstate :=
  let b := 0 <? time in
  let s' := wait_timer t time s in
  set_k_objects (if b then k_objects s' else k_objects s)
    (set_k_tmlists (if b then k_tmlists s' else k_tmlists s)
      (set_k_timers (if b then k_timers s' else k_timers s)
        (set_k_random_nr (if b then k_random_nr s' else k_random_nr s) s))).
Lemma arm_timer_eq t time s :
  arm_timer t time s = if 0 <? time then wait_timer t time s else s.
Proof. unfold arm_timer. destruct (0 <? time); reflexivity. Qed.

(** Blocking the thread [t]: the state its call leaves when it waits. *)
Definition block (list : thead) (t : ptr) (th : rt_thread) (flag time : Z) (s : kstate) : kstate :=
  schedule (arm_timer t time (ipc_suspend list t th flag s)).

Lemma prio_pos_in T prio l n : prio_pos T prio l = Some n → n ∈ l.
Proof.
  induction l as [|x l IH]; simpl; [done|]. destruct (_ <? _); [intros [= ->]; by left|].
  intros. right. auto.
Qed.
Lemma wait_insert_perm flag T prio t l : wait_insert flag T prio t l ≡ₚ t :: l.
Proof.
  unfold wait_insert. destruct (_ =? _); [done|].
  destruct (_ =? _); [by rewrite Permutation_app_comm|].
  destruct (prio_pos _ _ _) as [n|] eqn:E.
  - by eapply Store.insert_before_in_perm, prio_pos_in.
  - by rewrite Permutation_app_comm.
Qed.

Lemma prio_position_ok s prio l :
  (∀ n, n ∈ l → is_Some (k_threads s !! n)) →
  prio_position prio l s = Ok s (prio_pos (k_threads s) prio l).
Proof.
  induction l as [|n l IH]; intros Hl; simpl; [done|].
  destruct (Hl n) as [th Hth]; [by left|]. kstep. unfold prio_of. rewrite Hth. simpl.
  destruct (_ <? _); [done|]. apply IH. intros. apply Hl. by right.
Qed.

Lemma wf_wait_thread s h t :
  wf s → is_wait h → t ∈ Store.nodes (k_tlists s) h →
  ∃ th, k_threads s !! t = Some th ∧ th_stat th = RT_THREAD_SUSPEND.
Proof. intros Hwf. apply (lo_wait _ _ (wf_lists _ Hwf)). Qed.

Lemma wf_primask v s : wf s → wf (set_k_primask v s).
Proof. intros. by apply (wf_ext s). Qed.
#[export] Hint Resolve wf_primask : kernel.

Lemma rt_ipc_list_suspend_ok s list t th flag :
  wf s → k_threads s !! t = Some th → th_stat th = RT_THREAD_READY → t ≠ k_idle s →
  is_wait list → ipc_flag flag →
  rt_ipc_list_suspend list t flag s = Ok (ipc_suspend list t th flag s) RT_EOK.
Proof.
  intros Hwf Ht Hs Hi Hh Hf. unfold rt_ipc_list_suspend.
  erewrite bind_ok by (apply rt_thread_suspend_ok; eauto using wf_thread_ok with kernel).
  pose proof (wf_thread_suspend s t th Hwf Ht Hs Hi) as Hwf'.
  assert (Hu : Store.unlinked (k_tlists (thread_suspend t th s)) t) by apply Store.remove_unlinked.
  unfold tlist_push_back, tlist_insert_before, ipc_suspend, wait_insert.
  destruct Hf as [-> | ->]; cbn [Z.eqb WAIT_LIFO RT_IPC_FLAG_FIFO RT_IPC_FLAG_PRIO Pos.eqb].
  { erewrite bind_ok by (by apply tlist_link_ok). reflexivity. }
  rewrite bind_assoc.
  erewrite bind_ok by (apply get_thread_ok; cbn; by rewrite lookup_insert_eq).
  rewrite bind_assoc. kstep. rewrite bind_assoc.
  erewrite bind_ok.
  2:{ apply prio_position_ok. intros n Hn. destruct (wf_wait_thread _ _ _ Hwf' Hh Hn) as (x & ? & _). eauto. }
  change (th_current_priority (set_th_stat RT_THREAD_SUSPEND th)) with (th_current_priority th).
  destruct (prio_pos _ _ _) as [n|]; erewrite bind_ok by (by apply tlist_link_ok); reflexivity.
Qed.

Lemma wf_ipc_suspend s list t th flag :
  wf s → k_threads s !! t = Some th → th_stat th = RT_THREAD_READY → t ≠ k_idle s →
  is_wait list → wf (ipc_suspend list t th flag s).
Proof.
  intros Hwf Ht Hs Hi Hh. unfold ipc_suspend.
  eapply (wf_wait _ t (set_th_stat RT_THREAD_SUSPEND th)); try done.
  - by apply wf_thread_suspend.
  - cbn. by rewrite lookup_insert_eq.
  - apply Store.remove_unlinked.
  - apply wait_insert_perm.
Qed.

(** A timeout the timer accepts: [rt_timer_start] asserts that it is less
    than half the tick range. *)
Definition time_ok (time : Z) : Prop := time < RT_TICK_MAX / 2.

(** The timer of a suspended thread is ready to be armed. *)
Lemma wait_timer_pre s t th :
  wf s → k_threads s !! t = Some th → th_stat th = RT_THREAD_SUSPEND →
  ∃ o tm, k_objects s !! thread_timer t = Some o ∧ k_timers s !! thread_timer t = Some tm ∧
    thread_timer t ≠ 0 ∧ class_of o = RT_Object_Class_Timer ∧
    flag_on (obj_flag o) RT_TIMER_FLAG_SOFT_TIMER = false ∧
    tm_timeout_func tm = TF_thread_timeout ∧ tm_parameter tm = t.
Proof.
  intros Hwf Ht Hs.
  destruct (wf_thread_ok _ _ _ Hwf Ht (wf_suspend_live _ Hs))
    as [_ ? _ _ _ (o & ? & ? & ?) (tm & ? & ? & ?) _].
  exists o, tm. done.
Qed.

Lemma timer_nodes_some s h p :
  wf s → timer_list h → p ∈ Store.nodes (k_tmlists s) h → is_Some (k_timers s !! p).
Proof.
  intros Hwf Hh Hp. destruct (ti_armed _ _ _ _ (wf_timers _ Hwf) h p Hh Hp) as (o & tm & []). eauto.
Qed.

Lemma wf_timer_data s A tm tm' :
  wf s → k_timers s !! A = Some tm → tm_timeout_func tm' = tm_timeout_func tm →
  tm_parameter tm' = tm_parameter tm → 0 ≤ tm_init_tick tm' < RT_TICK_MAX / 2 →
  wf (put_timer A tm' s).
Proof.
  intros [HL Hg HT [Hw Ha] Hi] Htm Hf Hp Hini. split; cbn; try done.
  - eapply threads_ok_ext; [apply obj_ext_refl|by eapply tm_ext_put|done].
  - split; [done|]. intros h B Hh Hin. destruct (Ha h B Hh Hin) as (o & x & []).
    destruct (decide (A = B)) as [<-|].
    + simplify_eq. exists o, tm'. split; rewrite ?lookup_insert_eq; try done.
      by rewrite Hf, Hp.
    + exists o, x. split; rewrite ?lookup_insert_ne by done; done.
Qed.

Lemma start_thread_timer_ok s t th time :
  wf s → k_threads s !! t = Some th → th_stat th = RT_THREAD_SUSPEND →
  0 ≤ time → time_ok time →
  start_thread_timer t time s = Ok (wait_timer t time s) tt ∧ wf (wait_timer t time s).
Proof.
  intros Hwf Ht Hs H0 Htime. unfold time_ok, RT_TICK_MAX in Htime.
  destruct (wait_timer_pre _ _ _ Hwf Ht Hs) as (o & tm & Ho & Htm & HT & Hc & Hsoft & Hf & Hp).
  assert (Hu : u32 time = time).
  { apply u32_small. change (4294967295 / 2) with 2147483647 in Htime. lia. }
  assert (Hini : 0 ≤ tm_init_tick (set_tm_init_tick (u32 time) tm) < RT_TICK_MAX / 2).
  { cbn. rewrite Hu. unfold RT_TICK_MAX. lia. }
  assert (Hwf' : wf (put_timer (thread_timer t) (set_tm_init_tick (u32 time) tm) s)).
  { by eapply wf_timer_data. }
  unfold start_thread_timer, wait_timer. rewrite Ho, Htm. simpl. split.
  - erewrite bind_ok by (eapply rt_timer_set_time_ok; [exact Ho|done..]).
    erewrite bind_ok; [reflexivity|].
    apply rt_timer_start_hard_ok; try done.
    + cbn. by rewrite lookup_insert_eq.
    + by apply Hini.
    + intros p Hin. cbn. destruct (decide (thread_timer t = p)) as [<-|].
      * rewrite lookup_insert_eq. eauto.
      * rewrite lookup_insert_ne by done. eapply timer_nodes_some; [exact Hwf|by left|done].
  - apply wf_start_timer; try done.
    + cbn. by rewrite lookup_insert_eq.
    + by left.
    + intros _. cbn. rewrite Hp. split; [done|eauto].
Qed.

Lemma ipc_suspend_thread list t th flag s :
  k_threads (ipc_suspend list t th flag s) !! t = Some (set_th_stat RT_THREAD_SUSPEND th).
Proof. cbn. by rewrite lookup_insert_eq. Qed.

(** The part every blocking call ends with. *)
Definition ipc_block (list : thead) (t flag time temp : Z) : K unit :=
  rt_ipc_list_suspend list t flag;;
  when (0 <? time) (start_thread_timer t time);;
  rt_hw_interrupt_enable temp;;
  rt_schedule.

Lemma wf_ipc_armed s list t th flag time :
  wf s → k_threads s !! t = Some th → th_stat th = RT_THREAD_READY → t ≠ k_idle s →
  is_wait list → time_ok time →
  wf (arm_timer t time (ipc_suspend list t th flag s)).
Proof.
  intros Hwf Ht Hs Hi Hh Htime. rewrite arm_timer_eq.
  pose proof (wf_ipc_suspend s list t th flag Hwf Ht Hs Hi Hh) as Hwf1.
  destruct (Z.ltb_spec 0 time); [|done].
  eapply start_thread_timer_ok; eauto using ipc_suspend_thread with lia.
Qed.

Lemma wf_block s list t th flag time :
  wf s → k_threads s !! t = Some th → th_stat th = RT_THREAD_READY → t ≠ k_idle s →
  is_wait list → time_ok time → wf (block list t th flag time s).
Proof. intros. by apply wf_schedule, wf_ipc_armed. Qed.

Lemma ipc_block_ok s list t th flag time temp :
  wf s → k_threads s !! t = Some th → th_stat th = RT_THREAD_READY → t ≠ k_idle s →
  is_wait list → ipc_flag flag → time_ok time →
  ipc_block list t flag time temp s = Ok (set_k_primask temp (block list t th flag time s)) tt.
Proof.
  intros Hwf Ht Hs Hi Hh Hf Htime. unfold ipc_block, block.
  erewrite bind_ok by (by eapply rt_ipc_list_suspend_ok).
  pose proof (wf_ipc_armed s list t th flag time Hwf Ht Hs Hi Hh Htime) as Hwf2.
  pose proof (wf_ipc_suspend s list t th flag Hwf Ht Hs Hi Hh) as Hwf1.
  rewrite arm_timer_eq in *. destruct (Z.ltb_spec 0 time) as [H0|]; cbn [when].
  - erewrite bind_ok by (by eapply start_thread_timer_ok; eauto using ipc_suspend_thread with lia).
    kstep. rewrite rt_schedule_wf by (by apply wf_primask). reflexivity.
  - do 2 kstep. rewrite rt_schedule_wf by (by apply wf_primask). reflexivity.
Qed.

(** ** Waking *)

Lemma rt_ipc_list_resume_ok s list t l :
  wf s → is_wait list → Store.nodes (k_tlists s) list = t :: l →
  ∃ th, k_threads s !! t = Some th ∧ th_stat th = RT_THREAD_SUSPEND ∧
    rt_ipc_list_resume list s = Ok (thread_resume t th s) RT_EOK.
Proof.
  intros Hwf Hh Hl. destruct (wf_wait_thread s list t Hwf Hh) as (th & Ht & Hs).
  { rewrite Hl. by left. }
  exists th. split; [done|]. split; [done|]. unfold rt_ipc_list_resume.
  erewrite bind_ok by (by eapply tlist_first_ok).
  erewrite bind_ok by (apply rt_thread_resume_ok; eauto using wf_thread_ok with kernel).
  reflexivity.
Qed.

(** Waking a waiter wherever it is in its list, with its record changed to [th]. *)
Definition wake (t : ptr) (th : rt_thread) (s : kstate) : kstate :=
  thread_resume t th (put_thread t th s).

Lemma wake_wf s t th th' :
  wf s → k_threads s !! t = Some th → th_stat th = RT_THREAD_SUSPEND →
  th_core th' = th_core th → wf (wake t th' s).
Proof.
  intros Hwf Ht Hs E. pose proof E as E'. unfold th_core in E'. injection E' as Es _ _ _ _ _ _ _.
  apply wf_thread_resume; [by eapply wf_put_thread|cbn; by rewrite lookup_insert_eq|by rewrite Es].
Qed.
Lemma wake_threads t th s :
  k_threads (wake t th s) = <[t := set_th_stat RT_THREAD_READY th]> (k_threads s).
Proof. cbn. by rewrite insert_insert_eq. Qed.
Lemma wake_waiters t th s h :
  is_wait h →
  Store.nodes (k_tlists (wake t th s)) h = filter (λ x, x ≠ t) (Store.nodes (k_tlists s) h).
Proof.
  intros Hh. cbn -[Store.push_back Store.remove].
  rewrite Store.nodes_push_back, decide_False by (by destruct h). apply Store.nodes_remove.
Qed.
Lemma rt_thread_resume_wake s t th th' :
  wf s → k_threads s !! t = Some th → th_stat th = RT_THREAD_SUSPEND → th_core th' = th_core th →
  rt_thread_resume t (put_thread t th' s) = Ok (wake t th' s) RT_EOK.
Proof.
  intros Hwf Ht Hs E. pose proof E as E'. unfold th_core in E'. injection E' as Es _ _ _ _ _ _ _.
  assert (Ht' : k_threads (put_thread t th' s) !! t = Some th') by (cbn; by rewrite lookup_insert_eq).
  apply rt_thread_resume_ok; [done|by rewrite Es|].
  apply wf_thread_ok; [by eapply wf_put_thread|done|right; by rewrite Es].
Qed.

(** Waking every thread of a list with an error. *)
Definition resume_one (error : Z) (t : ptr) (s : kstate) : kstate :=
  let th := set_th_error error (default zero_thread (k_threads s !! t)) in
  thread_resume t th (put_thread t th s).
Fixpoint resume_list (error : Z) (l : list ptr) (s : kstate) : kstate :=
  match l with
  | [] => s
  | t :: l' => resume_list error l' (resume_one error t s)
  end.

(** Resuming changes the thread, list, bitmap, header and timer-list maps and
    no other field. *)
Lemma resume_list_frame error l s : ∃ T L g O TL,
  resume_list error l s =
  set_k_threads T (set_k_tlists L (set_k_group g (set_k_objects O (set_k_tmlists TL s)))).
Proof.
  revert s. induction l as [|t l IH]; intros s.
  - exists (k_threads s), (k_tlists s), (k_group s), (k_objects s), (k_tmlists s). reflexivity.
  - simpl. destruct (IH (resume_one error t s)) as (T & L & g & O & TL & ->).
    exists T, L, g, O, TL. reflexivity.
Qed.

Lemma resume_one_wf error s list t l :
  wf s → is_wait list → Store.nodes (k_tlists s) list = t :: l →
  wf (resume_one error t s) ∧ Store.nodes (k_tlists (resume_one error t s)) list = l ∧
  ∃ th, k_threads s !! t = Some th ∧ th_stat th = RT_THREAD_SUSPEND ∧
    k_threads (resume_one error t s) !! t = Some (set_th_stat RT_THREAD_READY (set_th_error error th)).
Proof.
  intros Hwf Hh Hl. destruct (wf_wait_thread s list t Hwf Hh) as (th & Ht & Hs).
  { rewrite Hl. by left. }
  unfold resume_one. rewrite Ht. simpl. split; [|split].
  - apply wf_thread_resume; [by eapply wf_put_thread|cbn; by rewrite lookup_insert_eq|done].
  - cbn. rewrite Store.nodes_push_back, decide_False by (by destruct list).
    by eapply Store.nodes_remove_head; [apply (wf_lists _ Hwf)|].
  - exists th. split; [done|]. split; [done|]. cbn. by rewrite lookup_insert_eq.
Qed.

Lemma resume_list_wf error s list l :
  wf s → is_wait list → Store.nodes (k_tlists s) list = l →
  wf (resume_list error l s) ∧ Store.nodes (k_tlists (resume_list error l s)) list = [].
Proof.
  revert s. induction l as [|t l IH]; intros s Hwf Hh Hl; simpl; [done|].
  destruct (resume_one_wf error s list t l Hwf Hh Hl) as (? & ? & _). by apply IH.
Qed.

Lemma resume_one_other error s t t' :
  t ≠ t' → k_threads (resume_one error t s) !! t' = k_threads s !! t'.
Proof. intros. cbn. by rewrite !lookup_insert_ne. Qed.
Lemma resume_list_other error s l t :
  t ∉ l → k_threads (resume_list error l s) !! t = k_threads s !! t.
Proof.
  revert s. induction l as [|x l IH]; intros s Ht; simpl; [done|].
  apply not_elem_of_cons in Ht as [? ?]. by rewrite IH, resume_one_other.
Qed.
Lemma resume_list_thread error s list l t :
  wf s → is_wait list → Store.nodes (k_tlists s) list = l → t ∈ l →
  ∃ th, k_threads s !! t = Some th ∧ th_stat th = RT_THREAD_SUSPEND ∧
    k_threads (resume_list error l s) !! t =
      Some (set_th_stat RT_THREAD_READY (set_th_error error th)).
Proof.
  revert s. induction l as [|x l IH]; intros s Hwf Hh Hl; [by intros []%not_elem_of_nil|].
  assert (Hnd : NoDup (x :: l)) by (rewrite <- Hl; apply (wf_lists _ Hwf)).
  apply list.NoDup_cons in Hnd as [Hx _].
  destruct (resume_one_wf error s list x l Hwf Hh Hl) as (Hwf' & Hl' & th & Ht & Hs & Ht').
  intros [->|Hin]%elem_of_cons; simpl.
  - exists th. by rewrite resume_list_other.
  - destruct (IH _ Hwf' Hh Hl' Hin) as (y & Hy & ? & ?). exists y.
    rewrite resume_one_other in Hy by (intros ->; done). done.
Qed.

Lemma resume_all_loop_ok error n s list :
  wf s → is_wait list → (length (Store.nodes (k_tlists s) list) ≤ n)%nat →
  resume_all_loop n list error s = Ok (resume_list error (Store.nodes (k_tlists s) list) s) tt.
Proof.
  revert s. induction n as [|n IH]; intros s Hwf Hh Hn;
    destruct (Store.nodes (k_tlists s) list) as [|t l] eqn:Hl; simpl in Hn; try lia; simpl.
  - kstep. unfold Store.isempty. by rewrite Hl.
  - kstep. unfold Store.isempty. by rewrite Hl.
  - kstep. unfold Store.isempty. rewrite Hl. cbn.
    destruct (wf_wait_thread s list t Hwf Hh) as (th & Ht & Hs); [rewrite Hl; by left|].
    kstep. erewrite bind_ok by (eapply tlist_first_ok; exact Hl). kstep.
    erewrite bind_ok.
    2:{ apply (rt_thread_resume_ok _ t (set_th_error error th)); [|done|].
        - cbn. by rewrite lookup_insert_eq.
        - apply wf_thread_ok; [|cbn; by rewrite lookup_insert_eq|by right].
          eapply wf_put_thread; [by apply wf_primask|done..]. }
    kstep. destruct (resume_one_wf error s list t l Hwf Hh Hl) as (Hwf' & Hl' & _).
    revert Hwf' Hl'. unfold resume_one. rewrite Ht. cbn [default from_option id]. intros Hwf' Hl'.
    etransitivity; [apply (IH (thread_resume t (set_th_error error th)
      (put_thread t (set_th_error error th) s)))|]; [done|done|rewrite Hl'; lia|].
    rewrite Hl'. reflexivity.
Qed.

Definition resume_all (list : thead) (s : kstate) : kstate :=
  resume_list (- RT_ERROR) (Store.nodes (k_tlists s) list) s.

Lemma rt_ipc_list_resume_all_ok s list :
  wf s → is_wait list → rt_ipc_list_resume_all list s = Ok (resume_all list s) RT_EOK.
Proof.
  intros Hwf Hh. unfold rt_ipc_list_resume_all. kstep.
  erewrite bind_ok by (apply resume_all_loop_ok; done || lia). reflexivity.
Qed.

Lemma wf_resume_all s list : wf s → is_wait list → wf (resume_all list s).
Proof. intros. by eapply (resume_list_wf _ _ list). Qed.

(** ** The calling context *)

(** An object of class [class] lives at [o]. *)
Definition valid (s : kstate) (o class : Z) (x : rt_object) : Prop :=
  k_objects s !! o = Some x ∧ o ≠ 0 ∧ class_of x = class.

Lemma valid_assert s o class x : valid s o class x → assert_class o class s = Ok s tt.
Proof. intros (? & ? & ?). by eapply assert_class_ok. Qed.
Lemma valid_get s o class x : valid s o class x → get_object o s = Ok s x.
Proof. intros (? & _). by apply get_object_ok. Qed.
#[export] Hint Resolve valid_assert valid_get : krun.

(** Thread context: the running thread, which is not the idle thread, makes
    the call outside interrupts. *)
Record caller (s : kstate) (t : ptr) (th : rt_thread) : Prop := {
  ca_running : running s;
  ca_self : k_current s = t;
  ca_thread : k_threads s !! t = Some th;
  ca_ready : th_stat th = RT_THREAD_READY;
  ca_nest : k_interrupt_nest s = 0;
  ca_idle : t ≠ k_idle s
}.

Lemma caller_nonnull s t th : caller s t th → t ≠ 0.
Proof.
  intros [[Hwf _] _ Ht Hr _ _].
  by destruct (wf_thread_ok _ _ _ Hwf Ht (wf_ready_live _ Hr)).
Qed.
Lemma in_thread_context_ok s :
  k_current s ≠ 0 → k_interrupt_nest s = 0 → RT_DEBUG_IN_THREAD_CONTEXT s = Ok s tt.
Proof.
  intros Hc Hn. unfold RT_DEBUG_IN_THREAD_CONTEXT, RT_DEBUG_NOT_IN_INTERRUPT.
  do 2 kstep. erewrite bind_ok by (apply rt_assert_ok, not_null; exact Hc).
  rewrite bind_assoc. kstep. rewrite bind_assoc. kstep. rewrite bind_assoc.
  erewrite bind_ok by (apply rt_assert_ok, Z.eqb_eq; exact Hn). ksteps. reflexivity.
Qed.
Lemma caller_context s t th v :
  caller s t th → RT_DEBUG_IN_THREAD_CONTEXT (set_k_primask v s) = Ok (set_k_primask v s) tt.
Proof.
  intros Hc. pose proof (caller_nonnull _ _ _ Hc) as Hn. destruct Hc.
  apply in_thread_context_ok; cbn; congruence.
Qed.

(** Storing to a field of the calling thread that the invariant does not
    read keeps the context. *)
Lemma caller_put s t th th' :
  caller s t th → th_core th' = th_core th → caller (put_thread t th' s) t th'.
Proof.
  intros [[Hwf [Hl Hc]] Hs Ht Hr Hn Hi] E. pose proof E as E'.
  unfold th_core in E'. injection E' as Es _ _ _ _ _ _ _.
  assert (Hr' : th_stat th' = RT_THREAD_READY) by congruence.
  split; cbn; try done.
  - split; [by eapply wf_put_thread|]. split; [done|].
    cbn. rewrite Hs. rewrite lookup_insert_eq. eauto.
  - by rewrite lookup_insert_eq.
Qed.

Lemma caller_wf s t th : caller s t th → wf s.
Proof. by intros [[? _] _ _ _ _ _]. Qed.

(** The running thread waits nowhere. *)
Lemma caller_not_waiting s t th h :
  caller s t th → is_wait h → t ∉ Store.nodes (k_tlists s) h.
Proof.
  intros Hc Hh Hin. destruct (wf_wait_thread _ _ _ (caller_wf _ _ _ Hc) Hh Hin) as (x & Hx & Hs).
  destruct Hc as [_ _ Ht Hr _ _]. simplify_eq. by rewrite Hr in Hs.
Qed.

Lemma prio_pos_ext T T' prio l :
  (∀ n, n ∈ l → prio_of T' n = prio_of T n) → prio_pos T' prio l = prio_pos T prio l.
Proof.
  induction l as [|n l IH]; intros He; simpl; [done|].
  rewrite He by (by left). destruct (_ <? _); [done|]. apply IH. intros. apply He. by right.
Qed.

(** The wait list after the caller blocks: the caller queued by the policy,
    the other waiters unmoved; every other wait list is unchanged. *)
Lemma block_waiters s t th list flag time :
  caller s t th → is_wait list →
  Store.nodes (k_tlists (block list t th flag time s)) list
  = wait_insert flag (k_threads s) (th_current_priority th) t (Store.nodes (k_tlists s) list).
Proof.
  intros Hc Hh. unfold block.
  change (Store.nodes (k_tlists (ipc_suspend list t th flag s)) list
    = wait_insert flag (k_threads s) (th_current_priority th) t (Store.nodes (k_tlists s) list)).
  pose proof (caller_not_waiting _ _ _ list Hc Hh) as Hn. cbn.
  rewrite Store.nodes_insert, Store.nodes_remove_id by done.
  unfold wait_insert. erewrite prio_pos_ext; [done|].
  intros n Hin. unfold prio_of. rewrite lookup_insert_ne; [done|]. by intros ->.
Qed.
Lemma block_waiters_ne s t th list flag time h :
  caller s t th → is_wait h → h ≠ list →
  Store.nodes (k_tlists (block list t th flag time s)) h = Store.nodes (k_tlists s) h.
Proof.
  intros Hc Hh Hne. unfold block. cbn. rewrite Store.nodes_insert_ne by done. apply Store.nodes_remove_id.
  by eapply caller_not_waiting.
Qed.

Lemma running_block s t th list flag time :
  caller s t th → is_wait list → time_ok time → running (block list t th flag time s).
Proof.
  intros [[Hwf [Hl Hc]] Hs Ht Hr Hn Hi] Hh Htime. apply running_schedule.
  - by apply wf_ipc_armed.
  - done.
Qed.

(** The caller is suspended, and another thread is current. *)
Lemma block_suspends s t th list flag time :
  caller s t th → is_wait list → time_ok time →
  k_threads (block list t th flag time s) !! t = Some (set_th_stat RT_THREAD_SUSPEND th) ∧
  k_current (block list t th flag time s) ≠ t.
Proof.
  intros Hca Hh Htime.
  assert (Hb : k_threads (block list t th flag time s) !! t = Some (set_th_stat RT_THREAD_SUSPEND th)).
  { cbn; by rewrite lookup_insert_eq. }
  split; [done|]. destruct (running_block s t th list flag time Hca Hh Htime) as (_ & _ & x & Hx & Hrx).
  intros E. rewrite E, Hb in Hx. by simplify_eq.
Qed.

Lemma block_threads_ne s t th list flag time t' :
  t' ≠ t → k_threads (block list t th flag time s) !! t' = k_threads s !! t'.
Proof. intros. cbn; by rewrite lookup_insert_ne. Qed.

(** A state that differs in fields the invariant does not read. *)
Lemma caller_ext s s' t th :
  caller s t th → k_threads s' = k_threads s → k_tlists s' = k_tlists s →
  k_group s' = k_group s → k_objects s' = k_objects s → k_timers s' = k_timers s →
  k_tmlists s' = k_tmlists s → k_idle s' = k_idle s → k_current s' = k_current s →
  k_lock_nest s' = k_lock_nest s → k_interrupt_nest s' = k_interrupt_nest s → caller s' t th.
Proof.
  intros [[Hwf [Hl Hc]] Hs Ht Hr Hn Hi] HT HL Hg HO HM HTM Hid Hcur Hlk Hin.
  split; try congruence.
  split; [by apply (wf_ext s)|]. split; [congruence|]. by rewrite Hcur, HT.
Qed.

(** ** Waiting in priority order *)

(** Insertion before the first waiter of a lower priority. *)
Fixpoint prio_insert (T : gmap ptr rt_thread) (prio : Z) (t : ptr) (l : list ptr) : list ptr :=
  match l with
  | [] => [t]
  | x :: l' => if prio <? prio_of T x then t :: x :: l' else x :: prio_insert T prio t l'
  end.

Lemma wait_insert_prio T prio t l :
  NoDup l → wait_insert RT_IPC_FLAG_PRIO T prio t l = prio_insert T prio t l.
Proof.
  unfold wait_insert; cbn [Z.eqb WAIT_LIFO RT_IPC_FLAG_FIFO RT_IPC_FLAG_PRIO].
  induction l as [|x l IH]; intros Hnd; simpl; [done|].
  apply list.NoDup_cons in Hnd as [Hx Hnd]. specialize (IH Hnd).
  destruct (prio <? prio_of T x); simpl; [by rewrite decide_True|].
  destruct (prio_pos T prio l) as [n|] eqn:E; simpl; [|by rewrite IH].
  rewrite decide_False; [by rewrite IH|]. intros ->. by apply prio_pos_in in E.
Qed.

(** Waiters in the order they should be served: priorities do not decrease
    along the list. *)
Definition by_priority (T : gmap ptr rt_thread) : list ptr → Prop :=
  StronglySorted (λ a b, prio_of T a ≤ prio_of T b).

Lemma prio_insert_sorted T prio t l :
  prio_of T t = prio → by_priority T l → by_priority T (prio_insert T prio t l).
Proof.
  intros Ht. induction 1 as [|x l Hl IH Hx]; simpl; [repeat constructor|].
  destruct (Z.ltb_spec prio (prio_of T x)) as [Hlt|Hge].
  - constructor; [by constructor|]. constructor; [lia|].
    eapply List.Forall_impl; [|exact Hx]. simpl. lia.
  - constructor; [done|]. apply Forall_forall. intros y Hy.
    assert (Hp : prio_insert T prio t l ≡ₚ t :: l).
    { clear. induction l as [|z l IHl]; simpl; [done|].
      destruct (_ <? _); [done|]. rewrite IHl. constructor. }
    rewrite Hp in Hy. apply elem_of_cons in Hy as [->|Hy]; [lia|].
    rewrite List.Forall_forall in Hx. apply Hx. by apply list_elem_of_In.
Qed.

(** ** Blocking, as it is used *)

(** The caller's state once its error is cleared. *)
Definition clear_error (t : ptr) (th : rt_thread) (s : kstate) : kstate :=
  put_thread t (set_th_error RT_EOK th) s.

Lemma caller_clear s t th : caller s t th → caller (clear_error t th s) t (set_th_error RT_EOK th).
Proof. intros. by eapply caller_put. Qed.

Lemma caller_primask s t th v : caller s t th → caller (set_k_primask v s) t th.
Proof. intros. by apply (caller_ext s). Qed.
#[export] Hint Resolve caller_primask caller_clear : kernel.

Lemma ipc_block_bind {A} s list t th flag time temp (k : K A) :
  caller s t th → is_wait list → ipc_flag flag → time_ok time →
  (rt_ipc_list_suspend list t flag;; when (0 <? time) (start_thread_timer t time);;
   rt_hw_interrupt_enable temp;; rt_schedule;; k) s
  = k (set_k_primask temp (block list t th flag time s)).
Proof.
  intros [[? _] _ ? ? _ ?] ? ? ?. rewrite <- (bind_ok (ipc_block list t flag time temp) (λ _, k) s _ tt)
    by (by eapply ipc_block_ok).
  unfold ipc_block. rewrite !bind_assoc.
  unfold mbind, ST_bind. destruct (rt_ipc_list_suspend list t flag s); [|done].
  destruct (when _ _ _); [|done]. destruct (rt_hw_interrupt_enable _ _); [|done].
  by destruct (rt_schedule _) as [? []|].
Qed.

(** What a blocking call achieves: the caller is suspended and queued, another
    thread is current, and nothing else of the IPC objects has moved. *)
Record blocked (list : thead) (t : ptr) (th : rt_thread) (flag : Z) (s s' : kstate) : Prop := {
  bl_running : running s';
  bl_current : k_current s' ≠ t;
  bl_thread : k_threads s' !! t = Some (set_th_stat RT_THREAD_SUSPEND th);
  bl_threads : ∀ u, u ≠ t → k_threads s' !! u = k_threads s !! u;
  bl_queue : Store.nodes (k_tlists s') list
    = wait_insert flag (k_threads s) (th_current_priority th) t (Store.nodes (k_tlists s) list);
  bl_queues : ∀ h, is_wait h → h ≠ list →
    Store.nodes (k_tlists s') h = Store.nodes (k_tlists s) h;
  bl_sems : k_sems s' = k_sems s;
  bl_events : k_events s' = k_events s;
  bl_mailboxes : k_mailboxes s' = k_mailboxes s;
  bl_mqs : k_mqs s' = k_mqs s
}.

Lemma block_blocked s t th list flag time :
  caller s t th → is_wait list → time_ok time →
  blocked list t th flag s (block list t th flag time s).
Proof.
  intros Hc Hh Ht. destruct (block_suspends s t th list flag time Hc Hh Ht) as [? ?].
  split; try done.
  - by apply running_block.
  - intros. by apply block_threads_ne.
  - by apply block_waiters.
  - intros. by apply block_waiters_ne.
Qed.

Lemma blocked_waiter list t th flag s s' u :
  blocked list t th flag s s' → u ∈ Store.nodes (k_tlists s') list →
  u = t ∨ u ∈ Store.nodes (k_tlists s) list.
Proof. intros Hb. rewrite (bl_queue _ _ _ _ _ _ Hb), wait_insert_perm. apply elem_of_cons. Qed.

Lemma put_thread_twice t a b s : put_thread t a (put_thread t b s) = put_thread t a s.
Proof. unfold put_thread. cbn. by rewrite insert_insert_eq. Qed.

(** Queueing does not depend on the caller's own record. *)
Lemma wait_insert_put s t th th' flag h prio :
  caller s t th → is_wait h →
  wait_insert flag (k_threads (put_thread t th' s)) prio t (Store.nodes (k_tlists s) h)
  = wait_insert flag (k_threads s) prio t (Store.nodes (k_tlists s) h).
Proof.
  intros Hc Hh. unfold wait_insert. erewrite prio_pos_ext; [done|].
  intros n Hn. unfold prio_of. cbn. rewrite lookup_insert_ne; [done|].
  intros <-. by apply (caller_not_waiting _ _ _ h Hc) in Hn.
Qed.

(** The same, where the call also notes the tick at which the wait began. *)
Lemma ipc_block_tick {A} s list t th flag time temp d (k : Z → K A) :
  caller s t th → is_wait list → ipc_flag flag → time_ok time →
  (rt_ipc_list_suspend list t flag;;
   tick_delta ← (if 0 <? time then tick ← rt_tick_get; start_thread_timer t time;; mret tick
                 else mret d);
   rt_hw_interrupt_enable temp;; rt_schedule;; k tick_delta) s
  = k (if 0 <? time then k_tick s else d) (set_k_primask temp (block list t th flag time s)).
Proof.
  intros Hc Hh Hf Ht.
  rewrite <- (ipc_block_bind s list t th flag time temp (k (if 0 <? time then k_tick s else d))) by done.
  destruct Hc as [[Hwf _] _ Hth Hr _ Hi].
  pose proof (rt_ipc_list_suspend_ok s list t th flag Hwf Hth Hr Hi Hh Hf) as E.
  rewrite !(bind_ok _ _ _ _ _ E). destruct (0 <? time); cbn [when]; [|reflexivity].
  rewrite bind_assoc. kstep. rewrite bind_assoc.
  unfold mbind, ST_bind. destruct (start_thread_timer _ _ _) as [s1 []|]; reflexivity.
Qed.

Lemma u16_wrap x : 0 ≤ x ≤ 65536 → u16 x = if x =? 65536 then 0 else x.
Proof. intros. destruct (Z.eqb_spec x 65536) as [->|]; [done|]. apply u16_small. lia. Qed.

(** ** Frames: what waking one thread leaves alone *)

Lemma resume_waiters s t th list l h :
  wf s → Store.nodes (k_tlists s) list = t :: l → is_wait h →
  Store.nodes (k_tlists (thread_resume t th s)) h =
    if decide (h = list) then l else Store.nodes (k_tlists s) h.
Proof.
  intros Hwf Hl Hh. cbn -[Store.push_back Store.remove decide].
  rewrite Store.nodes_push_back, decide_False by (by destruct h).
  case_decide as E; [subst; eapply Store.nodes_remove_head; [apply (wf_lists _ Hwf)|done]|].
  apply Store.nodes_remove_id. intros Hin. apply E.
  eapply (Store.wf_disjoint _ (lo_wf _ _ (wf_lists _ Hwf))); [exact Hin|rewrite Hl; by left].
Qed.

(** Waking the first thread of a list, if there is one, and rescheduling. *)
Definition wake_first (list : thead) (s : kstate) : kstate :=
  match Store.nodes (k_tlists s) list with
  | [] => s
  | t :: _ => schedule (thread_resume t (default zero_thread (k_threads s !! t)) s)
  end.

Record woken_first (list : thead) (s s' : kstate) : Prop := {
  wo_wf : wf s';
  wo_running : running s → running s';
  wo_queue : Store.nodes (k_tlists s') list = tail (Store.nodes (k_tlists s) list);
  wo_queues : ∀ h, is_wait h → h ≠ list →
    Store.nodes (k_tlists s') h = Store.nodes (k_tlists s) h;
  wo_first : ∀ t, head (Store.nodes (k_tlists s) list) = Some t →
    ∃ th, k_threads s !! t = Some th ∧ k_threads s' !! t = Some (set_th_stat RT_THREAD_READY th);
  wo_threads : ∀ t, head (Store.nodes (k_tlists s) list) ≠ Some t →
    k_threads s' !! t = k_threads s !! t
}.

Lemma wake_first_frame list s :
  k_mailboxes (wake_first list s) = k_mailboxes s ∧ k_mqs (wake_first list s) = k_mqs s.
Proof. unfold wake_first. by destruct (Store.nodes _ _). Qed.

(** The IPC objects themselves play no part in waking. *)
Lemma woken_first_ext list s1 s s' :
  woken_first list s1 s' → (running s → running s1) → k_tlists s1 = k_tlists s →
  k_threads s1 = k_threads s → woken_first list s s'.
Proof. intros [] Hr HL HT. rewrite HL, HT in *. split; auto. Qed.

Lemma wake_first_spec list s : wf s → is_wait list → woken_first list s (wake_first list s).
Proof.
  intros Hwf Hh. unfold wake_first. destruct (Store.nodes (k_tlists s) list) as [|t l] eqn:Hl.
  { split; rewrite ?Hl; done. }
  destruct (wf_wait_thread s list t Hwf Hh) as (th & Ht & Hs); [rewrite Hl; by left|].
  rewrite Ht. cbn [default from_option id].
  pose proof (wf_thread_resume s t th Hwf Ht Hs) as Hwf'.
  split; rewrite ?Hl; try done.
  - by apply wf_schedule.
  - intros (_ & Hlk & _). by apply running_schedule.
  - change (Store.nodes (k_tlists (thread_resume t th s)) list = l).
    rewrite (resume_waiters s t th list l) by done. by rewrite decide_True.
  - intros h ? ?. change (Store.nodes (k_tlists (thread_resume t th s)) h = Store.nodes (k_tlists s) h).
    rewrite (resume_waiters s t th list l) by done. by rewrite decide_False.
  - intros t' [= <-]. exists th. split; [done|]. cbn. by rewrite lookup_insert_eq.
  - intros t' Hne. cbn. rewrite lookup_insert_ne; [done|]. by intros ->.
Qed.

(** The end of every operation that may wake one waiter. *)
Lemma wake_first_ok {A} s list temp (r : K A) :
  wf s → is_wait list →
  (if negb (Store.isempty list (k_tlists s)) then
     rt_ipc_list_resume list;; rt_hw_interrupt_enable temp;; rt_schedule;; r
   else rt_hw_interrupt_enable temp;; r) s
  = r (wake_first list (set_k_primask temp s)).
Proof.
  intros Hwf Hh. unfold Store.isempty, wake_first.
  change (k_tlists (set_k_primask temp s)) with (k_tlists s).
  destruct (Store.nodes (k_tlists s) list) as [|t l] eqn:Hl; cbn [negb]; [reflexivity|].
  destruct (rt_ipc_list_resume_ok s list t l Hwf Hh Hl) as (th & Ht & Hs & E).
  rewrite (bind_ok _ _ _ _ _ E). kstep.
  erewrite bind_ok by (apply rt_schedule_wf, wf_primask, wf_thread_resume; done).
  change (k_threads (set_k_primask temp s)) with (k_threads s). rewrite Ht. reflexivity.
Qed.

Lemma resume_one_waiters error s t list l h :
  wf s → is_wait list → Store.nodes (k_tlists s) list = t :: l → is_wait h →
  Store.nodes (k_tlists (resume_one error t s)) h =
    if decide (h = list) then l else Store.nodes (k_tlists s) h.
Proof.
  intros Hwf Hh Hl Hh'. destruct (wf_wait_thread s list t Hwf Hh) as (th & Ht & Hs).
  { rewrite Hl. by left. }
  unfold resume_one. rewrite Ht. apply (resume_waiters (put_thread t _ s) _ _ list l); try done.
  by eapply wf_put_thread.
Qed.

Lemma resume_list_waiters error s list l h :
  wf s → is_wait list → Store.nodes (k_tlists s) list = l → is_wait h → h ≠ list →
  Store.nodes (k_tlists (resume_list error l s)) h = Store.nodes (k_tlists s) h.
Proof.
  revert s. induction l as [|t l IH]; intros s Hwf Hh Hl Hh' Hne; simpl; [done|].
  destruct (resume_one_wf error s list t l Hwf Hh Hl) as (? & ? & _).
  rewrite IH by done. rewrite (resume_one_waiters error s t list l h) by done. by rewrite decide_False.
Qed.

(** What [rt_ipc_list_resume_all] achieves: the list is empty, every waiter
    is ready with error [-RT_ERROR], and no other thread or wait list moves. *)
Record woken_all (s : kstate) (list : thead) (s' : kstate) : Prop := {
  wa_wf : wf s';
  wa_empty : Store.nodes (k_tlists s') list = [];
  wa_waiters : ∀ t, t ∈ Store.nodes (k_tlists s) list →
    ∃ th, k_threads s !! t = Some th ∧
      k_threads s' !! t = Some (set_th_stat RT_THREAD_READY (set_th_error (- RT_ERROR) th));
  wa_threads : ∀ t, t ∉ Store.nodes (k_tlists s) list → k_threads s' !! t = k_threads s !! t;
  wa_lists : ∀ h, is_wait h → h ≠ list →
    Store.nodes (k_tlists s') h = Store.nodes (k_tlists s) h
}.
Lemma resume_all_woken s list :
  wf s → is_wait list → woken_all s list (resume_all list s).
Proof.
  intros Hwf Hh. unfold resume_all. destruct (resume_list_wf (- RT_ERROR) s list _ Hwf Hh eq_refl).
  split; try done.
  - intros t Hin. destruct (resume_list_thread (- RT_ERROR) s list _ t Hwf Hh eq_refl Hin)
      as (th & ? & _ & ?). eauto.
  - intros. by apply resume_list_other.
  - intros h ? ?. by apply (resume_list_waiters _ s list).
Qed.

(** The object headers keep their classes when waiters are woken. *)
Lemma resume_list_objects error l s : obj_ext (k_objects s) (k_objects (resume_list error l s)).
Proof.
  revert s. induction l as [|t l IH]; intros s; simpl; [apply obj_ext_refl|].
  intros a o Ho.
  destruct (off_objects_ext (thread_timer t) (k_objects s) a o Ho) as (o1 & Ho1 & Hc1 & Hs1 & Hf1).
  destruct (IH (resume_one error t s) a o1) as (o2 & Ho2 & Hc2 & Hs2 & Hf2); [exact Ho1|].
  exists o2. split; [done|]. split; [congruence|]. split; [congruence|].
  intros Hc. destruct (Hf1 Hc) as [? ?]. destruct Hf2 as [? ?]; [congruence|]. split; congruence.
Qed.

(** What a successful detach of an IPC object with the one wait list [list]
    means: everything waiting is woken, and the object is unregistered. *)
Definition detached (s : kstate) (o : ptr) (s' : kstate) : Prop :=
  (∃ x, k_objects s' !! o = Some x ∧ class_of x = RT_Object_Class_Null ∧ is_static x = false) ∧
  ∀ info, o ∉ Store.nodes (k_containers s') info.

Lemma woken_all_ext s list s1 s2 :
  woken_all s list s1 → wf s2 → k_threads s2 = k_threads s1 → k_tlists s2 = k_tlists s1 →
  woken_all s list s2.
Proof. intros [] Hwf HT HL. split; rewrite ?HT, ?HL; done. Qed.

Lemma object_detach_detached s o x :
  detached s o (object_detach o x s).
Proof.
  split.
  - exists (set_obj_type 0 x). cbn. by rewrite lookup_insert_eq.
  - intros info. by intros [_ ?]%Store.elem_of_remove.
Qed.

Lemma assert_static_ok s o class x :
  valid s o class x → is_static x = true → assert_static o class s = Ok s tt.
Proof.
  intros Hv Hs. pose proof Hv as (Ho & Hnz & _). unfold assert_static.
  erewrite bind_ok by (by eapply valid_assert).
  erewrite bind_ok by (by eapply rt_object_is_systemobject_ok). by rewrite Hs.
Qed.

(** Waking every waiter keeps the object valid. *)
Lemma resume_all_valid s list o class x :
  valid s o class x → ∃ x', valid (resume_all list s) o class x' ∧ obj_same x x'.
Proof.
  intros (Ho & Hnz & Hc).
  destruct (resume_list_objects (- RT_ERROR) (Store.nodes (k_tlists s) list) s o x Ho)
    as (x' & Hx' & Hsame). exists x'. split; [|done].
  destruct Hsame as (Hc' & _). unfold valid. by rewrite Hc'.
Qed.

(** Waking inside a masked section: the mask is restored by the caller. *)
Lemma resume_list_primask error l v s :
  resume_list error l (set_k_primask v s) = set_k_primask v (resume_list error l s).
Proof. revert s. induction l as [|t l IH]; intros s; simpl; [done|]. apply (IH (resume_one error t s)). Qed.
Lemma resume_list_unmask error l s :
  set_k_primask (k_primask s) (resume_list error l s) = resume_list error l s.
Proof. destruct (resume_list_frame error l s) as (T & L & g & O & TL & ->). reflexivity. Qed.
Lemma resume_all_unmask list s :
  set_k_primask (k_primask s) (resume_all list s) = resume_all list s.
Proof. apply resume_list_unmask. Qed.
Lemma rt_ipc_list_resume_all_masked s list v :
  wf s → is_wait list →
  rt_ipc_list_resume_all list (set_k_primask v s) = Ok (set_k_primask v (resume_all list s)) RT_EOK.
Proof.
  intros Hwf Hh. rewrite rt_ipc_list_resume_all_ok by (done || by apply wf_primask).
  unfold resume_all. by rewrite resume_list_primask.
Qed.
Lemma resume_all_sems list s : k_sems (resume_all list s) = k_sems s.
Proof.
  unfold resume_all. destruct (resume_list_frame (- RT_ERROR) (Store.nodes (k_tlists s) list) s)
    as (T & L & g & O & TL & ->). reflexivity.
Qed.
