(* ===== verification/ThreadSpec.v ===== *)
(** * Thread life cycle: time slices, sleeping, suspension, start-up and detaching *)

From Stdlib Require Import ZArith Lia Sorted.
From stdpp Require Import base gmap list fin_maps.
From S2P Require Import RTThread.
From S2P Require Import Prelude.
From S2P Require Import ListModel.
From S2P Require Import Kernel.
From S2P Require Import Kservice.
From S2P Require Import Scheduler.
From S2P Require Import Object.
From S2P Require Import TimerCore.
From S2P Require Import ThreadCore.
From S2P Require Import Timer.
From S2P Require Import Invariant.
From S2P Require Import Preemption.
From S2P Require Import Deadlines.
From S2P Require Import Thread.
From S2P Require Import IpcList.

(** ** Yielding: round robin among the threads of one priority *)

Lemma has_peer_spec {H} `{Countable H} (S : gmap H (list ptr)) t h :
  Store.wf S → t ∈ Store.nodes S h →
  Store.has_peer t S = bool_decide (1 < length (Store.nodes S h))%nat.
Proof.
  intros Hwf Hin. unfold Store.has_peer. apply bool_decide_ext. split.
  - intros Hn. destruct (decide (1 < length (Store.nodes S h))%nat) as [|Hle]; [done|].
    exfalso. apply Hn. intros h' l Hl [Hin' Hlen].
    assert (h' = h) as -> by (eapply (Store.wf_disjoint _ Hwf);
      [apply Store.elem_of_nodes; eauto|done]).
    by rewrite (Store.nodes_lookup _ _ _ Hl) in Hle.
  - intros Hlen Hf. apply Store.elem_of_nodes in Hin as (l & Hl & Hin).
    rewrite (Store.nodes_lookup _ _ _ Hl) in Hlen. by apply (Hf h l Hl).
Qed.

(** Moving a ready thread to the tail of its list. *)
Definition rotate (t p : Z) (s : kstate) : kstate :=
  set_k_tlists (Store.push_back (HReady p) t (Store.remove t (k_tlists s))) s.

Lemma wf_rotate s t th :
  wf s → k_threads s !! t = Some th → th_stat th = RT_THREAD_READY →
  wf (rotate t (th_current_priority th) s).
Proof.
  intros Hwf Ht Hs.
  pose proof (proj2 (ready_only s t th _ Hwf Ht Hs) eq_refl) as Hin.
  assert (Hoth : ∀ q, q ≠ th_current_priority th → t ∉ Store.nodes (k_tlists s) (HReady q)).
  { intros q Hq. by rewrite (ready_only s t th q). }
  destruct Hwf as [HL [Hg Hb] HT HTm Hi]. split; cbn -[Store.push_back Store.remove]; try done.
  - rewrite <- (insert_id (k_threads s) t th Ht).
    rewrite <- (insert_insert_eq (k_threads s) t th (set_th_stat RT_THREAD_SUSPEND th)).
    apply (lists_ok_ready _ _ _ th); [by apply lists_ok_remove|apply Store.remove_unlinked|done].
  - split; [done|]. intros q Hq. rewrite Hb by done. f_equal.
    destruct (decide (q = th_current_priority th)) as [->|Hne].
    + rewrite (isempty_not_nil _ _ _ Hin). symmetry. apply (isempty_not_nil _ _ t).
      rewrite Store.elem_of_push_back. by left.
    + symmetry. apply isempty_ext. rewrite Store.nodes_push_back, decide_False by congruence.
      apply Store.nodes_remove_id. auto.
Qed.

Lemma rotate_nodes s t p l :
  wf s → Store.nodes (k_tlists s) (HReady p) = t :: l →
  Store.nodes (k_tlists (rotate t p s)) (HReady p) = l ++ [t].
Proof.
  intros Hwf Hl. cbn -[Store.push_back Store.remove]. rewrite Store.nodes_push_back, decide_True by done.
  by rewrite (Store.nodes_remove_head _ t _ l) by (done || apply (wf_lists _ Hwf)).
Qed.

Definition yield (t p : Z) (s : kstate) : kstate :=
  if bool_decide (1 < length (Store.nodes (k_tlists s) (HReady p)))%nat
  then schedule (rotate t p s) else s.

Lemma rt_thread_yield_ok s t th :
  wf s → k_current s = t → k_threads s !! t = Some th → th_stat th = RT_THREAD_READY →
  rt_thread_yield s = Ok (yield t (th_current_priority th) s) RT_EOK.
Proof.
  intros Hwf Hc Ht Hs. unfold rt_thread_yield, yield. do 2 kstep. cbn. rewrite Hc. do 2 kstep.
  pose proof (proj2 (ready_only s t th _ Hwf Ht Hs) eq_refl) as Hin.
  cbn. rewrite (has_peer_spec _ t (HReady (th_current_priority th)))
    by (done || apply (wf_lists _ Hwf)).
  rewrite stat_read, Hs, Z.eqb_refl by (rewrite Hs; auto with kernel). cbn [andb].
  case_bool_decide; [|kstep; reflexivity].
  destruct (wf_thread_ok _ _ _ Hwf Ht (wf_ready_live _ Hs)) as [_ _ Hp _ _ _ _ _].
  do 2 kstep. unfold tlist_push_back.
  erewrite bind_ok by (apply tlist_link_ok; apply Store.remove_unlinked). kstep.
  erewrite bind_ok; [reflexivity|]. apply rt_schedule_wf. by apply (wf_rotate s t th).
Qed.

Lemma wf_yield s t th :
  wf s → k_threads s !! t = Some th → th_stat th = RT_THREAD_READY →
  wf (yield t (th_current_priority th) s).
Proof. intros. unfold yield. case_bool_decide; [|done]. by apply wf_schedule, wf_rotate. Qed.

(** [rt_thread_yield] is round robin: if the calling thread is first of the
    highest ready list and another thread has the same priority, the caller goes
    behind all of them, the next one becomes current, and the others keep their
    order; alone at its priority, the caller keeps the processor and nothing
    changes. *)
Theorem rt_thread_yield_round_robin s t p l :
  running s → k_current s = t → is_highest s p →
  Store.nodes (k_tlists s) (HReady p) = t :: l →
  ∃ s', rt_thread_yield s = Ok s' RT_EOK ∧ running s' ∧
    Store.nodes (k_tlists s') (HReady p) = l ++ [t] ∧
    k_current s' = match l with [] => t | u :: _ => u end ∧
    k_threads s' = k_threads s ∧ (l = [] → s' = s).
Proof.
  intros (Hwf & Hlk & th & Ht & Hs) Hc Hp Hl. rewrite Hc in Ht.
  assert (p = th_current_priority th) as ->.
  { apply (ready_only s t th p Hwf Ht Hs). rewrite Hl. by left. }
  exists (yield t (th_current_priority th) s). split; [by apply rt_thread_yield_ok|].
  unfold yield. rewrite Hl. destruct l as [|u l].
  { rewrite bool_decide_false by (simpl; lia). split; [split; [done|split; [done|rewrite Hc; eauto]]|].
    by repeat split. }
  rewrite bool_decide_true by (simpl; lia). pose proof (wf_rotate s t th Hwf Ht Hs) as Hwf'.
  split; [by apply running_schedule|].
  assert (Hn : Store.nodes (k_tlists (rotate t (th_current_priority th) s))
    (HReady (th_current_priority th)) = (u :: l) ++ [t]).
  { by apply rotate_nodes. }
  split; [exact Hn|]. split; [|done].
  pose proof (wf_highest _ Hwf') as Hh. destruct (wf_next _ Hwf') as (to & l' & x & Hto & Hnext & _).
  assert (Hsame : highest_ready (rotate t (th_current_priority th) s) = highest_ready s) by done.
  assert (highest_ready s = th_current_priority th) as Eh.
  { pose proof (wf_highest s Hwf) as (Ha & Hb & Hc'). destruct Hp as (Hd & He & Hf).
    destruct (Z.lt_trichotomy (highest_ready s) (th_current_priority th)) as [H|[H|H]]; [|done|].
    - by rewrite Hf in Hb by lia.
    - by rewrite Hc' in He by lia. }
  rewrite Hsame, Eh, Hn in Hto. simpl in Hto. injection Hto as <- _.
  unfold schedule, must_switch; cbn [k_current set_k_current set_k_switch_to set_k_switch_from set_k_switch_flag].
  change (k_lock_nest (rotate t (th_current_priority th) s)) with (k_lock_nest s).
  change (k_current (rotate t (th_current_priority th) s)) with (k_current s).
  rewrite Hlk, Hnext; cbn. by destruct (Z.eqb_spec u (k_current s)).
Qed.

(** ** Sleeping *)

Lemma caller_thread_wf s t th : caller s t th → thread_ok s t th.
Proof.
  intros Hc. apply wf_thread_ok; [by eapply caller_wf|apply Hc|left; apply Hc].
Qed.

Definition sleep (t : ptr) (th : rt_thread) (tick : Z) (s : kstate) : kstate :=
  schedule (wait_timer t tick (thread_suspend t th s)).

Lemma suspended_thread t th s :
  k_threads (thread_suspend t th s) !! t = Some (set_th_stat RT_THREAD_SUSPEND th).
Proof. cbn. by rewrite lookup_insert_eq. Qed.

(** The part shared by [rt_thread_sleep] and [rt_thread_delay_until]. *)
Lemma sleep_steps s t th tick (k : K (outcome Z ptr)) v :
  caller s t th → 0 ≤ tick → time_ok tick →
  (rt_thread_suspend t;; rt_timer_control (thread_timer t) RT_TIMER_CTRL_SET_TIME tick;;
   rt_timer_start (thread_timer t);; rt_hw_interrupt_enable v;; rt_schedule;; k) s
  = k (set_k_primask v (sleep t th tick s)) ∧ wf (sleep t th tick s).
Proof.
  intros Hc H0 Htick. pose proof (caller_wf _ _ _ Hc) as Hwf.
  pose proof (wf_thread_suspend s t th Hwf (ca_thread _ _ _ Hc) (ca_ready _ _ _ Hc) (ca_idle _ _ _ Hc))
    as Hwf1.
  destruct (start_thread_timer_ok (thread_suspend t th s) t (set_th_stat RT_THREAD_SUSPEND th) tick)
    as [Hst Hwf2]; [done|apply suspended_thread|done|done|done|].
  split; [|by apply wf_schedule]. erewrite bind_ok.
  2:{ apply rt_thread_suspend_ok; [apply Hc..|by apply caller_thread_wf]. }
  transitivity ((start_thread_timer t tick;; rt_hw_interrupt_enable v;; rt_schedule;; k)
    (thread_suspend t th s)).
  { unfold start_thread_timer. rewrite bind_assoc.
    unfold mbind, ST_bind, mret, ST_ret. destruct (rt_timer_control _ _ _ _); [|done].
    by destruct (rt_timer_start _ _). }
  rewrite (bind_ok _ _ _ _ _ Hst). kstep.
  erewrite bind_ok; [reflexivity|]. apply rt_schedule_wf. by apply wf_primask.
Qed.

Lemma sleep_timer s t th tick :
  caller s t th → 0 ≤ tick → time_ok tick → hard_order 0 s →
  thread_timer t ∈ Store.nodes (k_tmlists (sleep t th tick s)) THard ∧
  remaining (k_timers (sleep t th tick s)) (k_tick s) (thread_timer t) = tick.
Proof.
  intros Hc H0 Htick Hord. unfold time_ok in Htick. split.
  - cbn -[timer_place]. apply elem_of_timer_place. by left.
  - unfold remaining, deadline. cbn. rewrite lookup_insert_eq; cbn.
    rewrite (u32_small tick) by (rewrite half_max in Htick; lia). by apply s32_ahead.
Qed.

Lemma rt_thread_sleep_ok s t th tick :
  caller s t th → 0 ≤ tick → time_ok tick →
  rt_thread_sleep tick s = Ok (sleep t th tick s) (Wait t) ∧ running (sleep t th tick s).
Proof.
  intros Hc H0 Htick.
  assert (Hc1 : caller (set_k_primask 1 s) t th) by (by apply caller_primask).
  destruct (sleep_steps (set_k_primask 1 s) t th tick (mret (Wait t)) (k_primask s) Hc1 H0 Htick)
    as [Hst _]. split.
  - unfold rt_thread_sleep. do 2 kstep. cbn [k_current set_k_primask]. rewrite (ca_self _ _ _ Hc).
    destruct (caller_thread_wf _ _ _ Hc) as [? _ _ _ (o & ? & ?) _ _ _]. kstep.
    etransitivity; [exact Hst|]. reflexivity.
  - apply running_schedule; [|apply Hc].
    eapply start_thread_timer_ok; [|apply suspended_thread|done|done|done].
    apply wf_thread_suspend; [by eapply caller_wf|apply Hc..].
Qed.

(** [rt_thread_sleep] suspends the caller: it is off every ready list, its own
    timer is running and due in exactly [tick] ticks, and another thread is
    current; when a thread runs again after such a sleep, the call returns
    [RT_EOK] and the timeout error the timer left is cleared. *)
Theorem rt_thread_sleep_spec s t th tick :
  caller s t th → 0 ≤ tick → time_ok tick → hard_order 0 s →
  ∃ s', rt_thread_sleep tick s = Ok s' (Wait t) ∧ running s' ∧ k_current s' ≠ t ∧
    k_threads s' !! t = Some (set_th_stat RT_THREAD_SUSPEND th) ∧
    (∀ t', t' ≠ t → k_threads s' !! t' = k_threads s !! t') ∧
    thread_timer t ∈ Store.nodes (k_tmlists s') THard ∧
    remaining (k_timers s') (k_tick s') (thread_timer t) = tick ∧
    ∀ s'' th'', k_threads s'' !! t = Some th'' → th_error th'' = - RT_ETIMEOUT →
      rt_thread_sleep_resumed t s'' = Ok (put_thread t (set_th_error RT_EOK th'') s'') RT_EOK.
Proof.
  intros Hc H0 Htick Hord.
  destruct (rt_thread_sleep_ok s t th tick Hc H0 Htick) as [Hst Hrun].
  destruct (sleep_timer s t th tick Hc H0 Htick Hord) as [Hin Hrem].
  assert (Hb : k_threads (sleep t th tick s) !! t = Some (set_th_stat RT_THREAD_SUSPEND th)).
  { cbn. by rewrite lookup_insert_eq. }
  exists (sleep t th tick s).
  split; [done|split; [done|split; [|split; [done|split; [|split; [done|split; [done|]]]]]]].
  - destruct Hrun as (_ & _ & x & Hx & Hr). intros E. rewrite E, Hb in Hx. by simplify_eq.
  - intros. cbn. by rewrite lookup_insert_ne.
  - intros s'' th'' Ht He. unfold rt_thread_sleep_resumed. kstep. rewrite He, Z.eqb_refl.
    cbn [when]. kstep. reflexivity.
Qed.
