(* ===== verification/Tick.v ===== *)
(** * The tick: time slices and the end of timed waits

    What one system tick does to the running thread, and that a timed wait
    ends at exactly the tick it asked for. *)

From Stdlib Require Import ZArith Lia Sorted.
From stdpp Require Import base gmap list fin_maps.
From S2P Require Import RTThread.
From S2P Require Import Prelude.
From S2P Require Import ListModel.
From S2P Require Import Kernel.
From S2P Require Import Kservice.
From S2P Require Import Scheduler.
From S2P Require Import Object.
From S2P Require Import TimerCore.
From S2P Require Import ThreadCore.
From S2P Require Import Timer.
From S2P Require Import Invariant.
From S2P Require Import Preemption.
From S2P Require Import Deadlines.
From S2P Require Import Thread.
From S2P Require Import IpcList.
From S2P Require Import ThreadSpec.

Section ticks.
Context {ext : External}.

(** ** Expiry, seen as a sequence of single expiries *)

(** A predicate every expiry keeps holds after all the due timers expire. *)
Lemma expire_due_inv (P : kstate → Prop) l s :
  (∀ s T t th, wf s → Store.nodes (k_tmlists s) TLocalHard = [] → waits_on s T t th →
    P s → P (expire_one T s)) →
  wf s → Store.nodes (k_tmlists s) TLocalHard = [] → Store.nodes (k_tmlists s) THard = l →
  due_are_waits s l → P s → P (expire_due l s).
Proof.
  intros Hstep. revert s. induction l as [|T l IH]; intros s Hwf Hloc Hl Hdue HP; cbn [expire_due]; [done|].
  destruct (Z.leb_spec (remaining (k_timers s) (k_tick s) T) 0) as [H0|H0]; [|done].
  assert (HinT : T ∈ Store.nodes (k_tmlists s) THard) by (rewrite Hl; by left).
  destruct (hard_timer s T Hwf HinT) as [tm Htm].
  destruct (thread_timer_waits s T tm Hwf HinT Htm) as (t & th & Hw).
  { apply (Hdue T tm (list_elem_of_here _ _) Htm H0). }
  destruct (expire_one_spec s T t th Hwf Hloc Hw) as [_ Hone].
  specialize (Hstep s T t th Hwf Hloc Hw HP). revert Hone Hstep.
  generalize (expire_one T s) as s1. intros s1 Hone HP1.
  assert (Hnd : NoDup (T :: l)) by (rewrite <- Hl; apply (ti_wf _ _ _ _ (wf_timers _ Hwf))).
  apply list.NoDup_cons in Hnd as [HTl _].
  apply IH; try apply Hone; [| |done].
  - rewrite (eo_hard _ _ _ _ _ Hone), Hl, filter_cons, decide_False by naive_solver.
    apply filter_id. by intros x Hx ->.
  - intros T' tm' HT'. rewrite (eo_timers _ _ _ _ _ Hone), (eo_tick _ _ _ _ _ Hone).
    apply Hdue. by right.
Qed.

Lemma running_set_tmlists s TL : wf (set_k_tmlists TL s) → running s → running (set_k_tmlists TL s).
Proof. intros Hwf (_ & Hl & Hc). by split. Qed.

Lemma expire_one_running s T t th :
  wf s → Store.nodes (k_tmlists s) TLocalHard = [] → waits_on s T t th →
  running s → running (expire_one T s).
Proof.
  intros Hwf Hloc Hw Hr. destruct (expire_one_spec s T t th Hwf Hloc Hw) as [Heq Hone].
  pose proof (eo_wf _ _ _ _ _ Hone) as Hwf'. rewrite Heq in *.
  apply running_set_tmlists; [done|].
  destruct Hw as (E & Ht & Hs & o & tm & Ho & _). apply running_schedule; [|apply Hr].
  apply wf_thread_timeout_pre; [by apply wf_expire_timer|done|done|].
  rewrite <- E. apply expire_timer_unarmed.
Qed.

(** ** The timer check, from a running system *)

Lemma checked_running s :
  running s → hard_order (-1) s → due_are_waits s (Store.nodes (k_tmlists s) THard) →
  running (checked s).
Proof.
  intros (Hwf & Hlk & Hc) Hord Hdue. unfold checked. destruct (init_local_nodes s) as [Hloc Hl].
  pose proof (wf_mask 1 _ (wf_init_local s Hwf)) as Hwf0.
  pose proof (expire_due_inv running _ _ expire_one_running Hwf0 Hloc Hl Hdue) as Hr.
  destruct Hr as (Hwf' & Hlk' & Hc'); [by split|]. split; [by apply wf_mask|done].
Qed.

(** ** One tick *)

(** The system once the tick counter has advanced. *)
Definition next_tick (s : kstate) : kstate := set_k_tick (u32 (k_tick s + 1)) s.

Lemma remaining_next M now T :
  -1 < remaining M now T → remaining M (u32 (now + 1)) T = remaining M now T - 1.
Proof.
  unfold remaining, u32, s32. intros H.
  pose proof (Z.mod_pos_bound (deadline M T - now + 2 ^ 31) (2 ^ 32)).
  pose proof (Z.div_mod (deadline M T - now + 2 ^ 31) (2 ^ 32)).
  pose proof (Z.div_mod (now + 1) (2 ^ 32)).
  set (q := (deadline M T - now + 2 ^ 31) / 2 ^ 32) in *. set (q' := (now + 1) / 2 ^ 32) in *.
  enough ((deadline M T - (now + 1) `mod` 2 ^ 32 + 2 ^ 31) `mod` 2 ^ 32
    = (deadline M T - now + 2 ^ 31) `mod` 2 ^ 32 - 1) by lia.
  symmetry. apply (Z.mod_unique_pos _ _ (q + q')); lia.
Qed.

Lemma hard_order_next lo s : 0 ≤ lo → hard_order lo s → hard_order (lo - 1) (next_tick s).
Proof.
  intros Hlo [Hr Hs]. unfold hard_order; cbn [k_timers k_tick k_tmlists next_tick set_k_tick].
  assert (Hn : ∀ T, T ∈ Store.nodes (k_tmlists s) THard →
    remaining (k_timers s) (u32 (k_tick s + 1)) T = remaining (k_timers s) (k_tick s) T - 1).
  { intros T HT. apply remaining_next. specialize (Hr T HT). lia. }
  split.
  - intros T HT. rewrite Hn by done. specialize (Hr T HT). lia.
  - eapply StronglySorted_impl_in; [|exact Hs]. intros a b Ha Hb. rewrite !Hn by done. lia.
Qed.

(** The time slice: one tick less, and a fresh slice when it is used up. *)
Definition slice (th : rt_thread) : rt_thread :=
  let r := u32 (th_remaining_tick th - 1) in
  set_th_remaining_tick (if r =? 0 then th_init_tick th else r) th.
Definition slice_over (th : rt_thread) : bool := u32 (th_remaining_tick th - 1) =? 0.

(** The accounting part of a tick: the counter advances, the running thread
    uses a tick of its slice and, at the end of the slice, yields. *)
Definition tick_account (t : ptr) (th : rt_thread) (s : kstate) : kstate :=
  let s1 := put_thread t (slice th) (next_tick s) in
  if slice_over th then yield t (th_current_priority th) s1 else s1.

Lemma wf_next_tick s : wf s → wf (next_tick s).
Proof. intros. by apply (wf_ext s). Qed.
Lemma wf_slice s t th :
  wf s → k_threads s !! t = Some th → wf (put_thread t (slice th) (next_tick s)).
Proof. intros Hwf Ht. eapply wf_put_thread; [by apply wf_next_tick|exact Ht|done]. Qed.

Lemma yield_frame t p s :
  k_tick (yield t p s) = k_tick s ∧ k_timers (yield t p s) = k_timers s ∧
  k_tmlists (yield t p s) = k_tmlists s ∧ k_threads (yield t p s) = k_threads s ∧
  k_lock_nest (yield t p s) = k_lock_nest s.
Proof. unfold yield. by case_bool_decide. Qed.

Lemma tick_account_frame s t th :
  k_tick (tick_account t th s) = u32 (k_tick s + 1) ∧
  k_timers (tick_account t th s) = k_timers s ∧
  k_tmlists (tick_account t th s) = k_tmlists s ∧
  k_threads (tick_account t th s) = <[t := slice th]> (k_threads s).
Proof.
  unfold tick_account. destruct (slice_over th); [|done].
  by destruct (yield_frame t (th_current_priority th) (put_thread t (slice th) (next_tick s)))
    as (-> & -> & -> & -> & _).
Qed.

Lemma tick_account_running s t th :
  running s → k_current s = t → k_threads s !! t = Some th →
  running (tick_account t th s).
Proof.
  intros (Hwf & Hlk & x & Hx & Hrx) Hc Ht. subst t.
  assert (x = th) as -> by congruence.
  pose proof (wf_slice s _ th Hwf Ht) as Hwf1.
  assert (Hr1 : running (put_thread (k_current s) (slice th) (next_tick s))).
  { split; [done|]. split; [done|]. exists (slice th). cbn. by rewrite lookup_insert_eq. }
  unfold tick_account. destruct (slice_over th); [|done].
  unfold yield. case_bool_decide; [|done]. apply running_schedule; [|done].
  apply (wf_rotate _ _ (slice th)); [done|cbn; by rewrite lookup_insert_eq|done].
Qed.

Lemma rt_tick_increase_ok s t th fuel :
  running s → k_current s = t → k_threads s !! t = Some th →
  rt_tick_increase fuel s = rt_timer_check fuel (tick_account t th s).
Proof.
  intros (Hwf & Hlk & x & Hx & Hrx) Hc Ht. subst t.
  assert (x = th) as -> by congruence.
  unfold rt_tick_increase, tick_account, slice, slice_over. do 4 kstep.
  cbn [th_remaining_tick set_th_remaining_tick].
  destruct (Z.eqb_spec (u32 (th_remaining_tick th - 1)) 0) as [E|E]; cbn [when].
  - rewrite bind_assoc. kstep.
    assert (Hput : ∀ y, put_thread (k_current s) y
      (put_thread (k_current s) (set_th_remaining_tick (u32 (th_remaining_tick th - 1)) th)
        (set_k_tick (u32 (k_tick s + 1)) s)) = put_thread (k_current s) y (next_tick s)).
    { intros y. unfold put_thread, next_tick; cbn. by rewrite insert_insert_eq. }
    rewrite Hput. cbn [th_init_tick set_th_remaining_tick].
    change (set_th_remaining_tick (th_init_tick th)
      (set_th_remaining_tick (u32 (th_remaining_tick th - 1)) th))
      with (set_th_remaining_tick (th_init_tick th) th).
    rewrite bind_assoc. erewrite bind_ok.
    2:{ apply rt_thread_yield_ok; [| |cbn; by rewrite lookup_insert_eq|done].
        - eapply wf_put_thread; [by apply wf_next_tick|exact Ht|done].
        - done. }
    reflexivity.
  - kstep. reflexivity.
Qed.

(** The facts about one tick, before they are put to use. *)
Lemma tick_step s t th fuel :
  running s → k_current s = t → k_threads s !! t = Some th → hard_order 0 s →
  due_are_waits (next_tick s) (Store.nodes (k_tmlists s) THard) →
  (length (Store.nodes (k_tmlists s) THard) < fuel)%nat →
  ∃ s', rt_tick_increase fuel s = Ok s' tt ∧ running s' ∧ hard_order 1 s' ∧
    k_tick s' = u32 (k_tick s + 1) ∧ k_timers s' = k_timers s ∧
    expired (tick_account t th s) s' (Store.nodes (k_tmlists s) THard).
Proof.
  intros Hrun Hc Ht Hord Hdue Hf.
  destruct (tick_account_frame s t th) as (Htk & Htm & Html & _).
  pose proof (tick_account_running s t th Hrun Hc Ht) as Hrun1.
  pose proof (hard_order_next 0 s (Z.le_refl 0) Hord) as Hord1.
  assert (Hord2 : hard_order (-1) (tick_account t th s)).
  { unfold hard_order. rewrite Htk, Htm, Html. exact Hord1. }
  assert (Hdue2 : due_are_waits (tick_account t th s)
    (Store.nodes (k_tmlists (tick_account t th s)) THard)).
  { unfold due_are_waits. rewrite Htk, Htm, Html. exact Hdue. }
  destruct (rt_timer_check_ok (tick_account t th s) fuel) as [Hr Hex];
    [apply Hrun1|done|done|by rewrite Html|].
  rewrite (rt_tick_increase_ok s t th fuel) by done.
  exists (checked (tick_account t th s)). split; [done|].
  split; [by apply checked_running|]. split; [by eapply expired_order|].
  split; [by rewrite (ex_tick _ _ _ Hex)|]. split; [by rewrite (ex_timers _ _ _ Hex)|].
  by rewrite Html in Hex.
Qed.

(** One tick of the system clock, from a running system whose timers are in
    order: it returns; the tick counter advances modulo [2^32]; the running
    thread uses one tick of its time slice, or, at the end of the slice, gets a
    fresh one and goes behind the ready threads of its priority; then every
    thread whose wait is due is made ready with [-RT_ETIMEOUT]. The system is
    running again and no timer left is due. *)
Theorem rt_tick_increase_spec s t th fuel :
  running s → k_current s = t → k_threads s !! t = Some th → hard_order 0 s →
  due_are_waits (next_tick s) (Store.nodes (k_tmlists s) THard) →
  (length (Store.nodes (k_tmlists s) THard) < fuel)%nat →
  ∃ s', rt_tick_increase fuel s = Ok s' tt ∧ running s' ∧ hard_order 1 s' ∧
    k_tick s' = u32 (k_tick s + 1) ∧ k_threads s' !! t = Some (slice th) ∧
    expired (tick_account t th s) s' (Store.nodes (k_tmlists s) THard) ∧
    (slice_over th = false → k_current (tick_account t th s) = t) ∧
    (slice_over th = true → ∀ l,
       Store.nodes (k_tlists s) (HReady (th_current_priority th)) = t :: l →
       Store.nodes (k_tlists (tick_account t th s)) (HReady (th_current_priority th)) = l ++ [t]).
Proof.
  intros Hrun Hc Ht Hord Hdue Hf.
  destruct (tick_step s t th fuel Hrun Hc Ht Hord Hdue Hf) as (s' & H1 & H2 & H3 & H4 & _ & Hex).
  exists s'. do 4 (split; [done|]). split.
  { destruct (tick_account_frame s t th) as (_ & _ & _ & Hthr).
    rewrite (ex_others _ _ _ Hex); [rewrite Hthr; by rewrite lookup_insert_eq|].
    intros T HT _ ->. destruct Hrun as (Hwf & _ & x & Hx & Hrx). rewrite Hc in Hx.
    eapply ready_unarmed; [exact Hwf|exact Hx|exact Hrx|by left|exact HT]. }
  split; [done|]. unfold tick_account. split; intros Hov; rewrite Hov; [exact Hc|].
  intros l Hl. unfold yield.
  change (Store.nodes (k_tlists (put_thread t (slice th) (next_tick s))) (HReady (th_current_priority th)))
    with (Store.nodes (k_tlists s) (HReady (th_current_priority th))). rewrite Hl.
  destruct l as [|u l]; [by rewrite bool_decide_false by (simpl; lia)|].
  rewrite bool_decide_true by (simpl; lia). apply rotate_nodes; [apply wf_slice; [apply Hrun|done]|done].
Qed.

(** ** Timed waits end on time *)

Fixpoint ticks (n fuel : nat) : K unit :=
  match n with
  | O => mret ()
  | S n' => rt_tick_increase fuel;; ticks n' fuel
  end.

(** Every running timer of the tick list is a waiting thread's. *)
Definition only_waits (s : kstate) : Prop :=
  ∀ T tm, T ∈ Store.nodes (k_tmlists s) THard → k_timers s !! T = Some tm →
    tm_timeout_func tm = TF_thread_timeout.

(** A system that ticks: what one tick keeps. *)
Record ticking (fuel : nat) (s : kstate) : Prop := {
  tk_running : running s;
  tk_order : hard_order 0 s;
  tk_waits : only_waits s;
  tk_fuel : (length (Store.nodes (k_tmlists s) THard) < fuel)%nat
}.

Lemma hard_order_weaken lo lo' s : lo' ≤ lo → hard_order lo s → hard_order lo' s.
Proof. intros H [Hr Hs]. split; [|done]. intros T HT. specialize (Hr T HT). lia. Qed.

(** One tick of a ticking system. *)
Lemma ticking_step fuel s :
  ticking fuel s → ∃ s' t th, rt_tick_increase fuel s = Ok s' tt ∧ ticking fuel s' ∧
    k_current s = t ∧ k_threads s !! t = Some th ∧
    expired (tick_account t th s) s' (Store.nodes (k_tmlists s) THard) ∧
    k_timers s' = k_timers s ∧ k_tick s' = u32 (k_tick s + 1).
Proof.
  intros [Hrun Hord Hw Hf]. pose proof Hrun as (Hwf & _ & th & Ht & Hrx).
  destruct (tick_step s _ th fuel Hrun eq_refl Ht Hord) as (s' & H1 & H2 & H3 & H4 & H5 & Hex); [|done|].
  { intros T tm HT Hl _. by apply (Hw T tm). }
  exists s', (k_current s), th. split; [done|]. split; [|done]. split; [done|..].
  - by eapply (hard_order_weaken 1).
  - intros T tm. rewrite H5, (ex_hard _ _ _ Hex). intros [_ HT]%list_elem_of_filter. by apply Hw.
  - rewrite (ex_hard _ _ _ Hex). eapply Nat.le_lt_trans; [apply length_filter|done].
Qed.

(** A thread that waits with [r] ticks to go, one tick later. *)
Definition waiting (s : kstate) (t : ptr) (th : rt_thread) (r : Z) : Prop :=
  k_threads s !! t = Some th ∧ th_stat th = RT_THREAD_SUSPEND ∧
  thread_timer t ∈ Store.nodes (k_tmlists s) THard ∧
  remaining (k_timers s) (k_tick s) (thread_timer t) = r.

Lemma waiting_step fuel s t th r :
  ticking fuel s → waiting s t th r → 0 < r → ∃ s', rt_tick_increase fuel s = Ok s' tt ∧
    ticking fuel s' ∧
    if 1 <? r then waiting s' t th (r - 1)
    else k_threads s' !! t = Some (set_th_stat RT_THREAD_READY (timed_out th)).
Proof.
  intros Htk (Ht & Hs & Hin & Hr) H0.
  destruct (ticking_step fuel s Htk) as (s' & c & thc & Hrun & Htk' & Hc & Hthc & Hex & Etm & Etk).
  exists s'. split; [done|]. split; [done|].
  assert (Hne : t ≠ c).
  { intros ->. destruct Htk as [(_ & _ & x & Hx & Hrx) _ _ _]. rewrite Hc in Hx. assert (x = th) as -> by congruence. by rewrite Hs in Hrx. }
  destruct (tick_account_frame s c thc) as (Ek & Em & El & Et).
  assert (Hn : remaining (k_timers s) (u32 (k_tick s + 1)) (thread_timer t) = r - 1).
  { rewrite remaining_next; lia. }
  destruct (Z.ltb_spec 1 r) as [H1|H1].
  - split; [|split; [done|split]].
    + rewrite (ex_others _ _ _ Hex).
      * rewrite Et, lookup_insert_ne by done. exact Ht.
      * intros T HT Hd ->. rewrite Ek, Em, Hn in Hd. lia.
    + rewrite (ex_hard _ _ _ Hex), list_elem_of_filter, Ek, Em, Hn. split; [lia|done].
    + by rewrite Etm, Etk.
  - destruct (tick_account_running s c thc (tk_running _ _ Htk) Hc Hthc) as (Hwfa & _).
    pose proof Hin as Hin'. rewrite <- El in Hin'.
    destruct (hard_timer _ _ Hwfa Hin') as [tm Htm]. pose proof Htm as Htm'. rewrite Em in Htm'.
    destruct (thread_timer_waits _ _ tm Hwfa Hin' Htm) as (t' & th' & Hw).
    { by apply (tk_waits _ _ Htk (thread_timer t)). }
    pose proof Hw as (E%thread_timer_inj & Ht' & _). subst t'.
    rewrite Et, lookup_insert_ne in Ht' by done. assert (th' = th) as -> by congruence.
    apply (ex_threads _ _ _ Hex (thread_timer t)); [done|rewrite Ek, Em, Hn; lia|done].
Qed.

(** C7: a timed wait ends at its deadline: while the system ticks and nothing
    else happens, a thread whose timer has [r] ticks to go is still suspended,
    with one tick less to go, after each of the first [r - 1] ticks, and tick
    number [r] makes it ready with error [-RT_ETIMEOUT]. *)
Theorem timed_wait_ends_on_time fuel s t th r :
  ticking fuel s → waiting s t th r → 0 < r →
  (∀ n, Z.of_nat n < r → ∃ s', ticks n fuel s = Ok s' tt ∧ ticking fuel s' ∧
     waiting s' t th (r - Z.of_nat n)) ∧
  ∃ s', ticks (Z.to_nat r) fuel s = Ok s' tt ∧ running s' ∧
    k_threads s' !! t = Some (set_th_stat RT_THREAD_READY (timed_out th)).
Proof.
  intros Htk Hw H0. split.
  - intros n. revert s r Htk Hw H0. induction n as [|n IH]; intros s r Htk Hw H0 Hn.
    { exists s. rewrite Z.sub_0_r. done. }
    destruct (waiting_step fuel s t th r Htk Hw H0) as (s1 & Hr & Htk1 & Hw1).
    rewrite (proj2 (Z.ltb_lt 1 r)) in Hw1 by lia.
    destruct (IH s1 (r - 1)) as (s' & H1 & H2 & H3); [done|done|lia|lia|].
    exists s'. cbn [ticks]. rewrite (bind_ok _ _ _ _ _ Hr). split; [done|]. split; [done|].
    by replace (r - Z.of_nat (S n)) with (r - 1 - Z.of_nat n) by lia.
  - remember (Z.to_nat r) as n eqn:En. revert s r Htk Hw H0 En.
    induction n as [|n IH]; intros s r Htk Hw H0 En; [lia|].
    destruct (waiting_step fuel s t th r Htk Hw H0) as (s1 & Hr & Htk1 & Hw1).
    cbn [ticks]. rewrite (bind_ok _ _ _ _ _ Hr). destruct (Z.ltb_spec 1 r) as [H1|H1].
    + apply (IH s1 (r - 1)); [done|done|lia|lia].
    + assert (n = O) as -> by lia. exists s1. split; [done|]. split; [apply Htk1|done].
Qed.
End ticks.
