(* ===== verification/Semaphore.v ===== *)
(** * Semaphores ([ipc.c]) *)

From Stdlib Require Import ZArith Lia.
From stdpp Require Import base gmap list fin_maps.
From S2P Require Import RTThread.
From S2P Require Import Prelude.
From S2P Require Import ListModel.
From S2P Require Import Kernel.
From S2P Require Import Kservice.
From S2P Require Import Scheduler.
From S2P Require Import Object.
From S2P Require Import TimerCore.
From S2P Require Import ThreadCore.
From S2P Require Import Timer.
From S2P Require Import Invariant.
From S2P Require Import Thread.
From S2P Require Import IpcList.

Definition rt_sem_init (sem : ptr) (name : list Z) (value flag : Z) : K Z :=
  rt_assert (negb (sem =? RT_NULL));;
  rt_assert (value <? 65536);;
  rt_object_init sem RT_Object_Class_Semaphore name;;
  rt_ipc_object_init sem;;
  put_sem sem (u16 value);;
  set_object_flag sem flag;;
  mret RT_EOK.

Definition rt_sem_detach (sem : ptr) : K Z :=
  assert_static sem RT_Object_Class_Semaphore;;
  rt_ipc_list_resume_all (HSuspend sem);;
  rt_object_detach sem;;
  mret RT_EOK.

Definition rt_sem_create (mem : ptr) (name : list Z) (value flag : Z) : K ptr :=
  RT_DEBUG_NOT_IN_INTERRUPT;;
  rt_assert (value <? 65536);;
  sem ← rt_object_allocate mem RT_Object_Class_Semaphore name;
  if sem =? RT_NULL then mret sem
  else
    rt_ipc_object_init sem;;
    put_sem sem (u16 value);;
    set_object_flag sem flag;;
    mret sem.

Definition rt_sem_delete (sem : ptr) : K Z :=
  RT_DEBUG_NOT_IN_INTERRUPT;;
  assert_dynamic sem RT_Object_Class_Semaphore;;
  rt_ipc_list_resume_all (HSuspend sem);;
  rt_object_delete sem;;
  mret RT_EOK.

Definition rt_sem_take (sem : ptr) (time : Z) : K (outcome Z ptr) :=
  assert_class sem RT_Object_Class_Semaphore;;
  temp ← rt_hw_interrupt_disable;
  value ← get_sem sem;
  if 0 <? value then
    put_sem sem (u16 (value - 1));;
    rt_hw_interrupt_enable temp;;
    mret (Done RT_EOK)
  else if time =? 0 then
    rt_hw_interrupt_enable temp;;
    mret (Done (- RT_ETIMEOUT))
  else
    RT_DEBUG_IN_THREAD_CONTEXT;;
    thread ← rt_thread_self;
    upd_thread thread (set_th_error RT_EOK);;
    o ← get_object sem;
    rt_ipc_list_suspend (HSuspend sem) thread (obj_flag o);;
    when (0 <? time) (start_thread_timer thread time);;
    rt_hw_interrupt_enable temp;;
    rt_schedule;;
    mret (Wait thread).

(** After the switch back: [thread->error] tells a release from a timeout or
    a deleted semaphore. *)
Definition rt_sem_take_resumed (thread : ptr) : K Z :=
  th ← get_thread thread;
  if negb (th_error th =? RT_EOK) then mret (th_error th) else mret RT_EOK.

Definition rt_sem_trytake (sem : ptr) : K (outcome Z ptr) := rt_sem_take sem 0.

Definition rt_sem_release (sem : ptr) : K Z :=
  assert_class sem RT_Object_Class_Semaphore;;
  temp ← rt_hw_interrupt_disable;
  empty ← tlist_isempty (HSuspend sem);
  if negb empty then
    rt_ipc_list_resume (HSuspend sem);;
    rt_hw_interrupt_enable temp;;
    rt_schedule;;
    mret RT_EOK
  else
    value ← get_sem sem;
    if value <? RT_SEM_VALUE_MAX then
      put_sem sem (u16 (value + 1));;
      rt_hw_interrupt_enable temp;;
      mret RT_EOK
    else
      rt_hw_interrupt_enable temp;;
      mret (- RT_EFULL).

(** [cmd] and the pointer argument read as a value. *)
Definition rt_sem_control (sem cmd arg : Z) : K Z :=
  assert_class sem RT_Object_Class_Semaphore;;
  if cmd =? RT_IPC_CMD_RESET then
    level ← rt_hw_interrupt_disable;
    rt_ipc_list_resume_all (HSuspend sem);;
    put_sem sem (u16 arg);;
    rt_hw_interrupt_enable level;;
    rt_schedule;;
    mret RT_EOK
  else mret (- RT_ERROR).

(** ** Abstract semaphores

    A count and a queue of threads; the flag of the object is the policy by
    which threads are queued. *)
Record asem : Set := mk_asem { a_count : Z; a_queue : list ptr }.

Definition sem_view (s : kstate) (sem : ptr) : option asem :=
  v ← k_sems s !! sem; Some (mk_asem v (Store.nodes (k_tlists s) (HSuspend sem))).

(** A count fits 16 bits, and no thread waits while the count is positive. *)
Definition asem_ok (a : asem) : Prop :=
  0 ≤ a_count a ≤ RT_SEM_VALUE_MAX ∧ (0 < a_count a → a_queue a = []).

Inductive release_result : Set :=
  | Woken (t : ptr)
  | Counted
  | Full.
Definition asem_release (a : asem) : asem * release_result :=
  match a_queue a with
  | t :: q => (mk_asem (a_count a) q, Woken t)
  | [] => if a_count a <? RT_SEM_VALUE_MAX then (mk_asem (a_count a + 1) [], Counted)
          else (a, Full)
  end.

Inductive take_result : Set :=
  | Taken
  | TimedOut
  | Queued.
Definition asem_take (a : asem) (time : Z) (enqueue : list ptr → list ptr) : asem * take_result :=
  if 0 <? a_count a then (mk_asem (a_count a - 1) (a_queue a), Taken)
  else if time =? 0 then (a, TimedOut)
  else (mk_asem (a_count a) (enqueue (a_queue a)), Queued).

Lemma sem_view_inv s sem a :
  sem_view s sem = Some a →
  k_sems s !! sem = Some (a_count a) ∧ Store.nodes (k_tlists s) (HSuspend sem) = a_queue a.
Proof. unfold sem_view. destruct (k_sems s !! sem); simpl; [|done]. by intros [= <-]. Qed.
Lemma sem_view_intro s sem v q :
  k_sems s !! sem = Some v → Store.nodes (k_tlists s) (HSuspend sem) = q →
  sem_view s sem = Some (mk_asem v q).
Proof. unfold sem_view. by intros -> ->. Qed.

Lemma asem_release_ok a : asem_ok a → asem_ok (fst (asem_release a)).
Proof.
  unfold asem_ok, asem_release, RT_SEM_VALUE_MAX. intros [Hc Hq].
  destruct (a_queue a) as [|t q] eqn:E; simpl.
  - destruct (Z.ltb_spec (a_count a) 65535); simpl; [split; [lia|done]|by rewrite E].
  - split; [lia|]. intros H. by specialize (Hq H).
Qed.
Lemma asem_take_ok a time f : asem_ok a → asem_ok (fst (asem_take a time f)).
Proof.
  unfold asem_ok, asem_take, RT_SEM_VALUE_MAX. intros [Hc Hq].
  destruct (Z.ltb_spec 0 (a_count a)); simpl.
  - split; [lia|]. intros. apply Hq. lia.
  - destruct (time =? 0); simpl; split; lia || (intros; lia).
Qed.

(** ** The operations on each branch *)

Definition put_count (sem v : Z) (s : kstate) : kstate := set_k_sems (<[sem:=v]> (k_sems s)) s.

Lemma rt_sem_release_ok s sem x v :
  wf s → valid s sem RT_Object_Class_Semaphore x → k_sems s !! sem = Some v →
  match Store.nodes (k_tlists s) (HSuspend sem) with
  | t :: _ => ∃ th, k_threads s !! t = Some th ∧ th_stat th = RT_THREAD_SUSPEND ∧
      rt_sem_release sem s = Ok (schedule (thread_resume t th s)) RT_EOK
  | [] => rt_sem_release sem s =
      if v <? RT_SEM_VALUE_MAX then Ok (put_count sem (u16 (v + 1)) s) RT_EOK
      else Ok s (- RT_EFULL)
  end.
Proof.
  intros Hwf Hv Hs. destruct (Store.nodes _ _) as [|t q] eqn:Hq; unfold rt_sem_release.
  - do 3 kstep. unfold Store.isempty at 1; cbn. rewrite Hq; cbn. kstep.
    destruct (v <? RT_SEM_VALUE_MAX); ksteps; reflexivity.
  - destruct (rt_ipc_list_resume_ok (set_k_primask 1 s) (HSuspend sem) t q) as (th & Ht & Hst & E);
      [auto with kernel|done|done|].
    exists th. split; [done|]. split; [done|].
    do 3 kstep. unfold Store.isempty at 1; cbn. rewrite Hq; cbn.
    erewrite bind_ok by exact E. kstep.
    erewrite bind_ok by (apply rt_schedule_wf, wf_primask, wf_thread_resume; auto with kernel).
    reflexivity.
Qed.

Lemma rt_sem_take_ok s t th sem x v time :
  caller s t th → valid s sem RT_Object_Class_Semaphore x → k_sems s !! sem = Some v →
  ipc_flag (obj_flag x) → time_ok time →
  rt_sem_take sem time s =
    if 0 <? v then Ok (put_count sem (u16 (v - 1)) s) (Done RT_EOK)
    else if time =? 0 then Ok s (Done (- RT_ETIMEOUT))
    else Ok (block (HSuspend sem) t (set_th_error RT_EOK th) (obj_flag x) time
               (clear_error t th s)) (Wait t).
Proof.
  intros Hca Hv Hs Hf Htime. unfold rt_sem_take. do 3 kstep.
  destruct (0 <? v); [ksteps; reflexivity|]. destruct (time =? 0); [ksteps; reflexivity|].
  erewrite bind_ok by (by eapply caller_context). kstep. cbn.
  rewrite (ca_self _ _ _ Hca).
  erewrite bind_ok by (apply upd_thread_ok; cbn; apply (ca_thread _ _ _ Hca)).
  erewrite bind_ok by (eapply valid_get; exact Hv).
  rewrite (ipc_block_bind _ _ _ (set_th_error RT_EOK th)); [reflexivity| |done..].
  by apply caller_clear, caller_primask.
Qed.

(** ** Refinement of the abstract semaphore *)

Lemma sem_view_frame s s' o :
  k_sems s' !! o = k_sems s !! o →
  Store.nodes (k_tlists s') (HSuspend o) = Store.nodes (k_tlists s) (HSuspend o) →
  sem_view s' o = sem_view s o.
Proof. unfold sem_view. by intros -> ->. Qed.

Lemma wf_put_count s sem v : wf s → wf (put_count sem v s).
Proof. intros. by apply (wf_ext s). Qed.

(** C4: [rt_sem_release] refines the abstract release, whatever the state: with
    a thread waiting it hands the unit to the first of the queue, which becomes
    ready with its error untouched, and leaves the count alone; otherwise it
    counts, up to 65535, past which it fails with [-RT_EFULL] and changes
    nothing. No other semaphore and no other thread is touched. *)
Theorem rt_sem_release_refines s sem x a :
  wf s → valid s sem RT_Object_Class_Semaphore x →
  sem_view s sem = Some a → asem_ok a →
  ∃ s' e, rt_sem_release sem s = Ok s' e ∧ wf s' ∧
    sem_view s' sem = Some (fst (asem_release a)) ∧
    (∀ o, o ≠ sem → sem_view s' o = sem_view s o) ∧
    match snd (asem_release a) with
    | Woken t => e = RT_EOK ∧ (∃ th, k_threads s !! t = Some th ∧
        k_threads s' !! t = Some (set_th_stat RT_THREAD_READY th)) ∧
        k_threads s' = <[t := default zero_thread (k_threads s' !! t)]> (k_threads s)
    | Counted => e = RT_EOK ∧ k_threads s' = k_threads s
    | Full => e = - RT_EFULL ∧ s' = s
    end.
Proof.
  intros Hwf Hv Ha Hok. destruct (sem_view_inv _ _ _ Ha) as [Hs Hq].
  pose proof (rt_sem_release_ok s sem x _ Hwf Hv Hs) as Hr. rewrite Hq in Hr.
  unfold asem_release. destruct (a_queue a) as [|t q] eqn:Eq; simpl.
  - rewrite Hr. destruct Hok as [Hc _]. unfold RT_SEM_VALUE_MAX in *.
    destruct (Z.ltb_spec (a_count a) 65535).
    + rewrite u16_small by lia. eexists _, _. split; [done|].
      split; [by apply wf_put_count|]. split; [|split; [|done]].
      * apply sem_view_intro; [cbn; by rewrite lookup_insert_eq|done].
      * intros o Ho. apply sem_view_frame; [cbn; by rewrite lookup_insert_ne|done].
    + eexists _, _. by split.
  - destruct Hr as (th & Ht & Hst & ->). eexists _, _. split; [done|].
    split; [by apply wf_schedule, wf_thread_resume|].
    split; [|split; [|split; [done|split]]].
    + apply sem_view_intro; [done|].
      change (Store.nodes (k_tlists (thread_resume t th s)) (HSuspend sem) = q).
      erewrite resume_waiters by done. by rewrite decide_True.
    + intros o Ho. apply sem_view_frame; [done|].
      change (Store.nodes (k_tlists (thread_resume t th s)) (HSuspend o)
        = Store.nodes (k_tlists s) (HSuspend o)).
      erewrite resume_waiters by done. rewrite decide_False; [done|congruence].
    + exists th. split; [done|]. cbn. by rewrite lookup_insert_eq.
    + cbn. by rewrite lookup_insert_eq.
Qed.

(** C3: [rt_sem_take] refines the abstract take: it takes a unit if there is one,
    fails with [-RT_ETIMEOUT] without touching anything when told not to wait,
    and otherwise leaves the caller suspended in the queue at the place the
    semaphore's policy gives it, with another ready thread current. No other
    semaphore and no other thread is touched. *)
Theorem rt_sem_take_refines s t th sem x a time :
  caller s t th → valid s sem RT_Object_Class_Semaphore x →
  ipc_flag (obj_flag x) → time_ok time → sem_view s sem = Some a → asem_ok a →
  let r := asem_take a time
    (wait_insert (obj_flag x) (k_threads s) (th_current_priority th) t) in
  ∃ s' out, rt_sem_take sem time s = Ok s' out ∧ running s' ∧
    sem_view s' sem = Some (fst r) ∧ (∀ o, o ≠ sem → sem_view s' o = sem_view s o) ∧
    match snd r with
    | Taken => out = Done RT_EOK ∧ k_threads s' = k_threads s
    | TimedOut => out = Done (- RT_ETIMEOUT) ∧ s' = s
    | Queued => out = Wait t ∧ k_current s' ≠ t ∧
        k_threads s' !! t = Some (set_th_stat RT_THREAD_SUSPEND (set_th_error RT_EOK th)) ∧
        ∀ t', t' ≠ t → k_threads s' !! t' = k_threads s !! t'
    end.
Proof.
  intros Hca Hv Hf Htime Ha Hok r. destruct (sem_view_inv _ _ _ Ha) as [Hs Hq].
  rewrite (rt_sem_take_ok s t th sem x _ time Hca Hv Hs Hf Htime).
  unfold r, asem_take. destruct Hok as [Hc Hw]. unfold RT_SEM_VALUE_MAX in *.
  destruct (Z.ltb_spec 0 (a_count a)); [|destruct (time =? 0)]; simpl.
  - rewrite u16_small by lia. eexists _, _. split; [done|].
    split; [|split; [|split; [|done]]].
    + destruct (ca_running _ _ _ Hca) as (? & ? & ?). split; [by apply wf_put_count|done].
    + apply sem_view_intro; [cbn; by rewrite lookup_insert_eq|done].
    + intros o Ho. apply sem_view_frame; [cbn; by rewrite lookup_insert_ne|done].
  - eexists _, _. split; [done|]. split; [apply Hca|]. by destruct a.
  - pose proof (caller_clear _ _ _ Hca) as Hcb.
    eexists _, _. split; [done|]. split; [by apply running_block|].
    split; [|split; [|split; [done|]]].
    + apply sem_view_intro; [exact Hs|].
      erewrite block_waiters by done. rewrite <- Hq.
      by apply (wait_insert_put s t th).
    + intros o Ho. apply sem_view_frame; [done|].
      rewrite block_waiters_ne; [done|done|done|congruence].
    + destruct (block_suspends _ _ _ (HSuspend sem) (obj_flag x) time Hcb) as [Hb Hne]; [done..|].
      split; [done|]. split; [done|]. intros. rewrite block_threads_ne by done.
      cbn. by rewrite lookup_insert_ne.
Qed.

Lemma rt_sem_detach_spec s sem x :
  wf s → valid s sem RT_Object_Class_Semaphore x → is_static x = true →
  ∃ s', rt_sem_detach sem s = Ok s' RT_EOK ∧ woken_all s (HSuspend sem) s' ∧ detached s sem s'.
Proof.
  intros Hwf Hv Hs. unfold rt_sem_detach.
  erewrite bind_ok by (by eapply assert_static_ok).
  erewrite bind_ok by (by apply rt_ipc_list_resume_all_ok).
  destruct (resume_all_valid s (HSuspend sem) sem _ x Hv) as (x' & (Hx' & ? & Hc') & _).
  erewrite bind_ok by (by apply rt_object_detach_ok).
  eexists. split; [done|]. split; [|apply object_detach_detached].
  eapply woken_all_ext; [by apply resume_all_woken| |done..].
  apply wf_object_detach; [by apply wf_resume_all|done|by rewrite Hc'..].
Qed.

Lemma rt_sem_control_ok s sem x arg :
  wf s → valid s sem RT_Object_Class_Semaphore x →
  rt_sem_control sem RT_IPC_CMD_RESET arg s
  = Ok (schedule (put_count sem (u16 arg) (resume_all (HSuspend sem) s))) RT_EOK.
Proof.
  intros Hwf Hv. unfold rt_sem_control. kstep. cbn [Z.eqb RT_IPC_CMD_RESET Pos.eqb].
  kstep. erewrite bind_ok by (by apply rt_ipc_list_resume_all_masked). do 2 kstep.
  erewrite bind_ok.
  2:{ apply rt_schedule_wf, wf_primask, wf_put_count, wf_primask. by apply wf_resume_all. }
  transitivity (Ok (A := Z) (schedule (put_count sem (u16 arg) (set_k_primask (k_primask s)
    (resume_all (HSuspend sem) s)))) RT_EOK); [reflexivity|by rewrite resume_all_unmask].
Qed.

(** resetting a semaphore wakes every waiter with error [-RT_ERROR] and
    leaves it with the given count (on 16 bits) and an empty queue. *)
Theorem rt_sem_reset_spec s sem x arg :
  wf s → valid s sem RT_Object_Class_Semaphore x →
  ∃ s', rt_sem_control sem RT_IPC_CMD_RESET arg s = Ok s' RT_EOK ∧
    woken_all s (HSuspend sem) s' ∧ sem_view s' sem = Some (mk_asem (u16 arg) []).
Proof.
  intros Hwf Hv. eexists. split; [by eapply rt_sem_control_ok|].
  pose proof (resume_all_woken s (HSuspend sem) Hwf I) as Hw. split.
  - eapply woken_all_ext; [exact Hw| |done..].
    by apply wf_schedule, wf_put_count, wa_wf with (s := s) (list := HSuspend sem).
  - apply sem_view_intro; [cbn; by rewrite lookup_insert_eq|apply (wa_empty _ _ _ Hw)].
Qed.
