(* ===== verification/System.v ===== *)
(** * A system of threads: the calls and the tick in any order

    Whatever thread is current makes any of these calls, and tick interrupts
    come between them. The invariant of such a system holds in every state it
    can reach, and no call faults there. *)

From Stdlib Require Import ZArith Lia.
From stdpp Require Import base gmap list fin_maps.
From S2P Require Import RTThread.
From S2P Require Import Prelude.
From S2P Require Import ListModel.
From S2P Require Import Kernel.
From S2P Require Import Kservice.
From S2P Require Import Scheduler.
From S2P Require Import Object.
From S2P Require Import TimerCore.
From S2P Require Import ThreadCore.
From S2P Require Import Timer.
From S2P Require Import Invariant.
From S2P Require Import Deadlines.
From S2P Require Import Thread.
From S2P Require Import IpcList.
From S2P Require Import ThreadSpec.
From S2P Require Import Tick.
From S2P Require Import Semaphore.

(** ** The state of the semaphores *)

Record sem_ok (s : kstate) (sem v : Z) : Prop := {
  so_valid : ∃ x, valid s sem RT_Object_Class_Semaphore x ∧ ipc_flag (obj_flag x);
  so_count : asem_ok (mk_asem v (Store.nodes (k_tlists s) (HSuspend sem)))
}.
Definition sems_ok (s : kstate) : Prop := ∀ sem v, k_sems s !! sem = Some v → sem_ok s sem v.

(** An operation that leaves the semaphores alone: no count changes, no queue
    that is empty gets a waiter, and only timers change their headers. *)
Record keeps (s s' : kstate) : Prop := {
  kp_sems : k_sems s' = k_sems s;
  kp_objects : ∀ o x, k_objects s !! o = Some x → class_of x ≠ RT_Object_Class_Timer →
    k_objects s' !! o = Some x;
  kp_queues : ∀ h, is_wait h → Store.nodes (k_tlists s) h = [] → Store.nodes (k_tlists s') h = [];
  kp_nest : k_interrupt_nest s' = k_interrupt_nest s
}.
#[global] Instance keeps_preorder : PreOrder keeps.
Proof.
  split; [by intros s; split|]. intros s1 s2 s3 [A1 B1 C1 D1] [A2 B2 C2 D2].
  split; [congruence|eauto|eauto|congruence].
Qed.

Lemma sem_ok_keeps s s' sem v :
  keeps s s' → sem_ok s sem v → sem_ok s' sem v.
Proof.
  intros [_ Ho Hq _] [(x & (Hx & Hnz & Hc) & Hf) [Hc1 Hc2]]. split.
  - exists x. split; [|done]. split; [|done]. apply Ho; [done|]. by rewrite Hc.
  - split; [done|]. cbn in *. intros H0. by apply Hq; [|apply Hc2].
Qed.
Lemma sems_ok_keeps s s' : keeps s s' → sems_ok s → sems_ok s'.
Proof.
  intros Hk Hs sem v. rewrite (kp_sems _ _ Hk). intros Hv. by eapply sem_ok_keeps, Hs.
Qed.

Lemma off_objects_other T O a x :
  (∃ o, O !! T = Some o ∧ class_of o = RT_Object_Class_Timer) →
  O !! a = Some x → class_of x ≠ RT_Object_Class_Timer → off_objects T O !! a = Some x.
Proof.
  intros (o & Ho & Hc) Hx Hn. unfold off_objects. rewrite Ho. destruct (flag_on _ _); [|done].
  rewrite lookup_insert_ne; [done|]. intros <-. congruence.
Qed.
Lemma remove_nil {H} `{Countable H} t (S : gmap H (list ptr)) h :
  Store.nodes S h = [] → Store.nodes (Store.remove t S) h = [].
Proof. intros E. by rewrite Store.nodes_remove, E. Qed.

Lemma thread_timer_object s t th :
  thread_ok s t th → ∃ o, k_objects s !! thread_timer t = Some o ∧ class_of o = RT_Object_Class_Timer.
Proof. intros [_ _ _ _ _ (o & Ho & Hc & _) _ _]. eauto. Qed.

Lemma keeps_resume s t th th' : thread_ok s t th' → keeps s (thread_resume t th s).
Proof.
  intros Hok. split; try done.
  - intros o x. apply (off_objects_other _ _ _ _ (thread_timer_object _ _ _ Hok)).
  - intros h Hh E. cbn -[Store.push_back Store.remove].
    rewrite Store.nodes_push_back, decide_False by (by destruct h). by apply remove_nil.
Qed.
Lemma keeps_suspend s t th th' : thread_ok s t th' → keeps s (thread_suspend t th s).
Proof.
  intros Hok. split; try done.
  - intros o x. apply (off_objects_other _ _ _ _ (thread_timer_object _ _ _ Hok)).
  - intros h Hh E. cbn -[Store.remove]. by apply remove_nil.
Qed.
Lemma keeps_wait_timer s t th time :
  thread_ok s t th → keeps s (wait_timer t time s).
Proof.
  intros Hok. destruct (thread_timer_object _ _ _ Hok) as (oT & HoT & HcT).
  split; try done. intros o x Hx Hn. cbn. rewrite lookup_insert_ne; [done|]. intros <-. congruence.
Qed.

(** ** The state of the timers *)

Definition timed (s : kstate) : Prop := hard_order 0 s ∧ only_waits s.

Lemma timed_same s s' :
  k_timers s' = k_timers s → k_tick s' = k_tick s →
  Store.nodes (k_tmlists s') THard = Store.nodes (k_tmlists s) THard → timed s → timed s'.
Proof. unfold timed, hard_order, only_waits. by intros -> -> ->. Qed.
Lemma timed_off T s : timed s → timed (timer_off T s).
Proof.
  intros [Ho Hw]. unfold timed, hard_order, only_waits, timer_off, off_tmlists. cbn.
  destruct (k_objects s !! T) as [o|]; [|done]. destruct (flag_on _ _); [|done].
  rewrite Store.nodes_remove. split; [by apply due_order_filter|].
  intros T' tm [_ HT]%list_elem_of_filter. by apply Hw.
Qed.
Lemma timed_resume s t th : timed s → timed (thread_resume t th s).
Proof. intros H. by apply (timed_same (timer_off (thread_timer t) s)); [..|apply timed_off]. Qed.
Lemma timed_suspend s t th : timed s → timed (thread_suspend t th s).
Proof. intros H. by apply (timed_same (timer_off (thread_timer t) s)); [..|apply timed_off]. Qed.
Lemma timed_wait_timer s t th time :
  wf s → k_threads s !! t = Some th → th_stat th = RT_THREAD_SUSPEND → 0 ≤ time → time_ok time →
  timed s → timed (wait_timer t time s).
Proof.
  intros Hwf Ht Hs H0 Htime [Ho Hw].
  destruct (wait_timer_pre _ _ _ Hwf Ht Hs) as (o & tm & Hob & Htm & HT & Hc & _ & Hf & Hp).
  unfold time_ok in Htime. rewrite half_max in Htime.
  assert (Hu : u32 time = time) by (apply u32_small; lia).
  set (T := thread_timer t) in *. set (tm' := set_tm_init_tick (u32 time) tm).
  assert (Hini : 0 ≤ tm_init_tick tm' < RT_TICK_MAX / 2) by (cbn; rewrite Hu, half_max; lia).
  unfold wait_timer. fold T. rewrite Htm, Hob. cbn [default from_option id]. fold tm'.
  assert (Hwf1 : wf (put_timer T tm' s)) by (by eapply wf_timer_data).
  assert (Hdl : ∀ A, deadline (<[T := tm']> (k_timers s)) A = deadline (k_timers s) A).
  { intros A. unfold deadline. destruct (decide (T = A)) as [<-|]; [|by rewrite lookup_insert_ne].
    by rewrite lookup_insert_eq, Htm. }
  assert (Ho1 : hard_order 0 (put_timer T tm' s)) by (eapply due_order_ext; [|exact Ho]; intros; apply Hdl).
  split; [by apply start_timer_order|]. intros A x. rewrite (start_timer_nodes 0) by done.
  intros HA Hx. rewrite due_insert_perm in HA. cbn in Hx. apply elem_of_cons in HA as [->|HA].
  - rewrite lookup_insert_eq in Hx. injection Hx as <-. exact Hf.
  - apply list_elem_of_filter in HA as [Hne HA]. rewrite !lookup_insert_ne in Hx by done. by apply (Hw A).
Qed.

(** ** The calls *)

Inductive call : Set :=
  | CTake (sem time : Z)
  | CRelease (sem : Z)
  | CYield
  | CSleep (tick : Z)
  | CTick.

Section system.
Context {ext : External}.

(** The tick interrupt checks as many timers as there are. *)
Definition exec (c : call) : K unit :=
  match c with
  | CTake sem time => rt_sem_take sem time;; mret ()
  | CRelease sem => rt_sem_release sem;; mret ()
  | CYield => rt_thread_yield;; mret ()
  | CSleep tick => rt_thread_sleep tick;; mret ()
  | CTick =>
      n ← gets (λ s, length (Store.nodes (k_tmlists s) THard));
      rt_tick_increase (S n)
  end.

(** The arguments the calls are meant for; the idle thread does not wait. *)
Definition may_call (s : kstate) (c : call) : Prop :=
  match c with
  | CTake sem time => k_current s ≠ k_idle s ∧ is_Some (k_sems s !! sem) ∧ time_ok time
  | CRelease sem => is_Some (k_sems s !! sem)
  | CYield | CTick => True
  | CSleep tick => k_current s ≠ k_idle s ∧ 0 ≤ tick ∧ time_ok tick
  end.

Inductive step (s : kstate) (c : call) (s' : kstate) : Prop :=
  | step_call : may_call s c → exec c s = Ok s' tt → step s c s'.
Inductive run : kstate → list call → kstate → Prop :=
  | run_nil s : run s [] s
  | run_cons s c s1 cs s' : step s c s1 → run s1 cs s' → run s (c :: cs) s'.

Record sys (s : kstate) : Prop := {
  sy_running : running s;
  sy_nest : k_interrupt_nest s = 0;
  sy_timed : timed s;
  sy_sems : sems_ok s
}.

Lemma sys_caller s : sys s → k_current s ≠ k_idle s → ∃ th, caller s (k_current s) th.
Proof. intros [Hr Hn _ _] Hi. pose proof Hr as (_ & _ & th & Ht & Hs). exists th. by split. Qed.
Lemma sys_keeps s s' : sys s → running s' → timed s' → keeps s s' → sys s'.
Proof.
  intros [_ Hn _ Hs] Hr Ht Hk. split; [done| |done|by eapply sems_ok_keeps].
  by rewrite (kp_nest _ _ Hk).
Qed.

Lemma sys_count s sem v w :
  sys s → k_sems s !! sem = Some v → asem_ok (mk_asem w (Store.nodes (k_tlists s) (HSuspend sem))) →
  sys (put_count sem w s).
Proof.
  intros [(Hwf & Hr) Hn Ht Hs] Hv Hok. split; [split; [by apply wf_put_count|done]|done|done|].
  intros o u. cbn. destruct (decide (sem = o)) as [<-|].
  - rewrite lookup_insert_eq. intros [= <-]. split; [|exact Hok]. exact (so_valid _ _ _ (Hs sem v Hv)).
  - rewrite lookup_insert_ne by done. intros Hu. destruct (Hs o u Hu). by split.
Qed.

Lemma sys_block s t th sem v flag time :
  sys s → caller s t th → k_sems s !! sem = Some v → v ≤ 0 → time_ok time →
  sys (block (HSuspend sem) t th flag time s).
Proof.
  intros [Hr Hn Ht Hs] Hc Hv H0 Htime.
  pose proof (caller_thread_wf _ _ _ Hc) as Hok. pose proof (caller_wf _ _ _ Hc) as Hwf.
  pose proof (wf_ipc_suspend s (HSuspend sem) t th flag Hwf (ca_thread _ _ _ Hc) (ca_ready _ _ _ Hc)
    (ca_idle _ _ _ Hc) I) as Hwf1.
  set (s1 := ipc_suspend (HSuspend sem) t th flag s) in *.
  pose proof (ipc_suspend_thread (HSuspend sem) t th flag s) as Ht1. fold s1 in Ht1.
  assert (Hok1 : thread_ok s1 t (set_th_stat RT_THREAD_SUSPEND th))
    by (apply wf_thread_ok; [done|done|by right]).
  assert (Hobj : ∀ o x, k_objects s !! o = Some x → class_of x ≠ RT_Object_Class_Timer →
    k_objects (block (HSuspend sem) t th flag time s) !! o = Some x).
  { intros o x Hx Hx'. unfold block. fold s1. rewrite arm_timer_eq.
    pose proof (kp_objects _ _ (keeps_suspend s t th th Hok) o x Hx Hx') as Hx1.
    destruct (0 <? time); [|exact Hx1].
    exact (kp_objects _ _ (keeps_wait_timer s1 t _ time Hok1) o x Hx1 Hx'). }
  split; [by apply running_block|done| |].
  - unfold block. fold s1.
    assert (Ht' : timed s1) by (by apply (timed_same (thread_suspend t th s)); [..|apply timed_suspend]).
    apply (timed_same (arm_timer t time s1)); [done..|]. rewrite arm_timer_eq.
    destruct (Z.ltb_spec 0 time); [|done]. by eapply timed_wait_timer; eauto with lia.
  - intros o w Hw. change (k_sems s !! o = Some w) in Hw.
    destruct (Hs o w Hw) as [(x & (Hx & Hnz & Hcl) & Hf) Hcount]. split.
    + exists x. split; [|done]. split; [|done]. apply Hobj; [done|]. by rewrite Hcl.
    + destruct (decide (o = sem)) as [->|Hne].
      * assert (w = v) as -> by congruence. destruct Hcount as [Hb _]. split; [done|]. cbn in *. lia.
      * rewrite block_waiters_ne; [done|done|done|congruence].
Qed.

Lemma keeps_schedule s : keeps s (schedule s).
Proof. by split. Qed.
Lemma keeps_yield s t p : keeps s (yield t p s).
Proof.
  unfold yield. case_bool_decide; [|reflexivity]. split; try done. intros h Hh E.
  cbn -[Store.push_back Store.remove]. rewrite Store.nodes_push_back, decide_False by (by destruct h).
  by apply remove_nil.
Qed.

(** *** The tick *)

Lemma keeps_tick_account s t th : keeps s (tick_account t th s).
Proof.
  assert (Hk : keeps s (put_thread t (slice th) (next_tick s))) by (by split).
  unfold tick_account. destruct (slice_over th); [|exact Hk]. etransitivity; [exact Hk|apply keeps_yield].
Qed.
Lemma keeps_expire_one s T t th : waits_on s T t th → keeps s (expire_one T s).
Proof.
  intros (E & Ht & Hs & o & tm & Ho & Htm & Hrest).
  unfold expire_one. rewrite Htm. cbn [from_option].
  set (u := tm_parameter tm). set (th' := default _ _). split; try done.
  - intros a x Hx Hn. unfold thread_timeout, expire_timer. cbn. rewrite Ho. cbn.
    rewrite lookup_insert_ne; [done|]. intros <-. destruct Hrest. naive_solver.
  - intros h Hh En. unfold thread_timeout, expire_timer. cbn -[Store.push_back Store.remove].
    rewrite Store.nodes_push_back, decide_False by (by destruct h). by apply remove_nil.
Qed.

Lemma keeps_checked s :
  wf s → due_are_waits s (Store.nodes (k_tmlists s) THard) → keeps s (checked s).
Proof.
  intros Hwf Hdue. unfold checked. destruct (init_local_nodes s) as [Hloc Hl].
  set (s0 := set_k_primask 1 _) in *.
  assert (H0 : keeps s s0) by (by split).
  assert (H1 : keeps s (expire_due (Store.nodes (k_tmlists s) THard) s0)).
  { apply (expire_due_inv (keeps s)); [|by apply wf_mask, wf_init_local|done|done|done|done].
    intros s1 T t th _ _ Hw Hk. etransitivity; [exact Hk|by eapply keeps_expire_one]. }
  destruct H1. by split.
Qed.

Lemma sys_tick s : sys s → ∃ s', exec CTick s = Ok s' tt ∧ sys s'.
Proof.
  intros Hsys. pose proof Hsys as [Hrun Hn [Ho Hw] _].
  set (fuel := S (length (Store.nodes (k_tmlists s) THard))).
  assert (Htk : ticking fuel s) by (split; [done..|unfold fuel; lia]).
  destruct (ticking_step fuel s Htk) as (s' & t & th & E & Htk' & Hc & Hth & Hex & _ & _).
  exists s'. split; [exact E|]. apply (sys_keeps s); [done|apply Htk'|split; apply Htk'|].
  assert (Hs' : s' = checked (tick_account t th s)).
  { pose proof (tick_account_running s t th Hrun Hc Hth) as (Hwfa & _).
    rewrite (rt_tick_increase_ok s t th fuel) in E by done.
    destruct (tick_account_frame s t th) as (Etk & Etm & Etl & _).
    assert (Hdue : due_are_waits (tick_account t th s) (Store.nodes (k_tmlists (tick_account t th s)) THard)).
    { intros T tm. rewrite Etl, Etm. intros HT Htm _. by apply (Hw T tm). }
    destruct (rt_timer_check_ok (tick_account t th s) fuel Hwfa) as [E2 _]; [|done|by rewrite Etl; unfold fuel; lia|].
    - unfold hard_order. rewrite Etk, Etm, Etl. exact (hard_order_next 0 s (Z.le_refl 0) Ho).
    - congruence. }
  subst s'. etransitivity; [apply keeps_tick_account|]. apply keeps_checked.
  - by destruct (tick_account_running s t th Hrun Hc Hth).
  - destruct (tick_account_frame s t th) as (_ & Etm & Etl & _).
    intros T tm. rewrite Etl, Etm. intros HT Htm _. by apply (Hw T tm).
Qed.

(** *** The calls *)

Lemma sys_wake s t th :
  sys s → k_threads s !! t = Some th → th_stat th = RT_THREAD_SUSPEND →
  sys (schedule (thread_resume t th s)).
Proof.
  intros Hsys Ht Hs. pose proof Hsys as [(Hwf & Hl & Hr) _ Htm _].
  assert (Hok : thread_ok s t th) by (apply wf_thread_ok; [done|done|by right]).
  apply (sys_keeps s); [done| | |].
  - apply running_schedule; [by apply wf_thread_resume|done].
  - apply (timed_same (thread_resume t th s)); [done..|by apply timed_resume].
  - etransitivity; [by eapply keeps_resume|apply keeps_schedule].
Qed.

Lemma sys_release s sem : sys s → may_call s (CRelease sem) → ∃ s', exec (CRelease sem) s = Ok s' tt ∧ sys s'.
Proof.
  intros Hsys [v Hv]. pose proof (sy_sems _ Hsys sem v Hv) as [(x & Hx & _) [Hb _]].
  pose proof (proj1 (sy_running _ Hsys)) as Hwf.
  pose proof (rt_sem_release_ok s sem x v Hwf Hx Hv) as Hr. cbn [exec].
  destruct (Store.nodes (k_tlists s) (HSuspend sem)) as [|t q] eqn:Hq.
  - unfold RT_SEM_VALUE_MAX in Hr. cbn in Hb. unfold RT_SEM_VALUE_MAX in Hb.
    destruct (Z.ltb_spec v 65535) as [Hlt|Hge]; rewrite (bind_ok _ _ _ _ _ Hr).
    + eexists. split; [reflexivity|]. apply (sys_count _ _ v); [done|done|].
      rewrite u16_small by lia. rewrite Hq. split; cbn; [unfold RT_SEM_VALUE_MAX; lia|done].
    + by exists s.
  - destruct Hr as (th & Ht & Hs & Hr). rewrite (bind_ok _ _ _ _ _ Hr).
    eexists. split; [reflexivity|]. by apply sys_wake.
Qed.

Lemma sys_take s sem time :
  sys s → may_call s (CTake sem time) → ∃ s', exec (CTake sem time) s = Ok s' tt ∧ sys s'.
Proof.
  intros Hsys (Hi & [v Hv] & Htime). destruct (sys_caller s Hsys Hi) as [th Hc].
  pose proof (sy_sems _ Hsys sem v Hv) as [(x & Hx & Hf) [Hb Hq]]. cbn in Hb, Hq.
  pose proof (rt_sem_take_ok s (k_current s) th sem x v time Hc Hx Hv Hf Htime) as E. cbn [exec].
  destruct (Z.ltb_spec 0 v) as [H0|H0]; [|destruct (time =? 0)]; rewrite (bind_ok _ _ _ _ _ E).
  - eexists. split; [reflexivity|]. apply (sys_count _ _ v); [done|done|]. rewrite (Hq H0).
    unfold RT_SEM_VALUE_MAX in *. rewrite u16_small by lia. split; cbn; [unfold RT_SEM_VALUE_MAX; lia|done].
  - by exists s.
  - eexists. split; [reflexivity|]. pose proof (caller_clear _ _ _ Hc) as Hcc.
    apply (sys_block _ _ _ sem v); [|exact Hcc|exact Hv|done|done].
    apply (sys_keeps s); [done|apply Hcc|by apply (timed_same s), Hsys|by split].
Qed.

Lemma sys_sleep s tick :
  sys s → may_call s (CSleep tick) → ∃ s', exec (CSleep tick) s = Ok s' tt ∧ sys s'.
Proof.
  intros Hsys (Hi & H0 & Htick). destruct (sys_caller s Hsys Hi) as [th Hc].
  set (t := k_current s) in *. pose proof (caller_wf _ _ _ Hc) as Hwf.
  destruct (rt_thread_sleep_ok s t th tick Hc H0 Htick) as [E Hr]. cbn [exec].
  rewrite (bind_ok _ _ _ _ _ E). eexists. split; [reflexivity|].
  pose proof (wf_thread_suspend s t th Hwf (ca_thread _ _ _ Hc) (ca_ready _ _ _ Hc) (ca_idle _ _ _ Hc)) as Hwf1.
  set (s1 := thread_suspend t th s) in *. pose proof (suspended_thread t th s) as Ht1. fold s1 in Ht1.
  assert (Hok1 : thread_ok s1 t (set_th_stat RT_THREAD_SUSPEND th)) by (apply wf_thread_ok; [done|done|by right]).
  apply (sys_keeps s); [done|done| |].
  - apply (timed_same (wait_timer t tick s1)); [done..|].
    eapply timed_wait_timer; [done|exact Ht1|done|done|done|]. apply timed_suspend, Hsys.
  - transitivity s1; [eapply keeps_suspend; by apply caller_thread_wf|].
    transitivity (wait_timer t tick s1); [by eapply keeps_wait_timer|apply keeps_schedule].
Qed.

Lemma sys_yield s : sys s → ∃ s', exec CYield s = Ok s' tt ∧ sys s'.
Proof.
  intros Hsys. pose proof Hsys as [Hrun _ Ht _]. pose proof Hrun as (Hwf & Hl & th & Hth & Hs).
  pose proof (rt_thread_yield_ok s _ th Hwf eq_refl Hth Hs) as E. cbn [exec].
  rewrite (bind_ok _ _ _ _ _ E). eexists. split; [reflexivity|].
  apply (sys_keeps s); [done| | |apply keeps_yield].
  - unfold yield. case_bool_decide; [|done]. apply running_schedule; [by apply wf_rotate|done].
  - destruct (yield_frame (k_current s) (th_current_priority th) s) as (Etk & Etm & Etl & _).
    by apply (timed_same s); [| |rewrite Etl|].
Qed.

Lemma sys_call s c : sys s → may_call s c → ∃ s', exec c s = Ok s' tt ∧ sys s'.
Proof.
  intros Hsys Hm. destruct c as [sem time|sem| |tick|].
  - by apply sys_take.
  - by apply sys_release.
  - by apply sys_yield.
  - by apply sys_sleep.
  - by apply sys_tick.
Qed.

(** C1: from a state of the invariant, whatever calls the threads make and
    however tick interrupts fall between them: the invariant holds again (a
    ready thread runs, lists, bitmap, states and timers agree, no count
    passes 65535, and no thread waits on a semaphore that has units left), and
    every call that may come next returns without a fault. *)
Theorem system_safe s cs s' :
  sys s → run s cs s' →
  sys s' ∧ (∀ sem v, k_sems s' !! sem = Some v → 0 ≤ v ≤ RT_SEM_VALUE_MAX ∧
    (0 < v → Store.nodes (k_tlists s') (HSuspend sem) = [])) ∧
  ∀ c, may_call s' c → ∃ s'', step s' c s''.
Proof.
  intros Hsys Hrun.
  assert (Hs' : sys s').
  { induction Hrun as [s|s c s1 cs s' [Hm E] _ IH]; [done|]. apply IH.
    destruct (sys_call s c Hsys Hm) as (s2 & E2 & H2). congruence. }
  split; [done|]. split.
  - intros sem v Hv. destruct (sy_sems _ Hs' sem v Hv) as [_ [Hb Hq]]. done.
  - intros c Hm. destruct (sys_call s' c Hs' Hm) as (s'' & E & _). exists s''. by constructor.
Qed.
End system.
