(* ===== verification/Mutex.v ===== *)
(** * Mutexes with priority inheritance ([ipc.c]) *)

From Stdlib Require Import ZArith Lia.
From stdpp Require Import base gmap list fin_maps.
From S2P Require Import RTThread.
From S2P Require Import Prelude.
From S2P Require Import ListModel.
From S2P Require Import Kernel.
From S2P Require Import Kservice.
From S2P Require Import Scheduler.
From S2P Require Import Object.
From S2P Require Import TimerCore.
From S2P Require Import ThreadCore.
From S2P Require Import Timer.
From S2P Require Import Invariant.
From S2P Require Import Thread.
From S2P Require Import IpcList.

Definition rt_mutex_init (mutex : ptr) (name : list Z) (flag : Z) : K Z :=
  rt_assert (negb (mutex =? RT_NULL));;
  rt_object_init mutex RT_Object_Class_Mutex name;;
  rt_ipc_object_init mutex;;
  modify (λ s, set_k_mutexes (<[mutex := mk_mutex 1 255 0 RT_NULL]> (k_mutexes s)) s);;
  set_object_flag mutex flag;;
  mret RT_EOK.

Definition rt_mutex_detach (mutex : ptr) : K Z :=
  assert_static mutex RT_Object_Class_Mutex;;
  rt_ipc_list_resume_all (HSuspend mutex);;
  rt_object_detach mutex;;
  mret RT_EOK.

Definition rt_mutex_create (mem : ptr) (name : list Z) (flag : Z) : K ptr :=
  RT_DEBUG_NOT_IN_INTERRUPT;;
  mutex ← rt_object_allocate mem RT_Object_Class_Mutex name;
  if mutex =? RT_NULL then mret mutex
  else
    rt_ipc_object_init mutex;;
    modify (λ s, set_k_mutexes (<[mutex := mk_mutex 1 255 0 RT_NULL]> (k_mutexes s)) s);;
    set_object_flag mutex flag;;
    mret mutex.

Definition rt_mutex_delete (mutex : ptr) : K Z :=
  RT_DEBUG_NOT_IN_INTERRUPT;;
  assert_dynamic mutex RT_Object_Class_Mutex;;
  rt_ipc_list_resume_all (HSuspend mutex);;
  rt_object_delete mutex;;
  mret RT_EOK.

Section with_callbacks.
Context {ext : External}.

(** Waiting for a mutex that another thread holds: the owner inherits the
    caller's priority if it is higher, and the caller is queued. *)
Definition mutex_wait (mutex thread time temp : Z) : K (outcome Z ptr) :=
  m ← get_mutex mutex;
  th ← get_thread thread;
  owner ← get_thread (mu_owner m);
  when (th_current_priority th <? th_current_priority owner)
    (rt_thread_control (mu_owner m)
       (RT_THREAD_CTRL_CHANGE_PRIORITY (th_current_priority th));; mret ());;
  o ← get_object mutex;
  rt_ipc_list_suspend (HSuspend mutex) thread (obj_flag o);;
  when (0 <? time) (start_thread_timer thread time);;
  rt_hw_interrupt_enable temp;;
  rt_schedule;;
  mret (Wait thread).

Definition rt_mutex_take (mutex time : Z) : K (outcome Z ptr) :=
  RT_DEBUG_IN_THREAD_CONTEXT;;
  assert_class mutex RT_Object_Class_Mutex;;
  thread ← rt_thread_self;
  temp ← rt_hw_interrupt_disable;
  upd_thread thread (set_th_error RT_EOK);;
  m ← get_mutex mutex;
  if mu_owner m =? thread then
    if mu_hold m <? RT_MUTEX_HOLD_MAX then
      upd_mutex mutex (λ m, set_mu_hold (u8 (mu_hold m + 1)) m);;
      rt_hw_interrupt_enable temp;;
      mret (Done RT_EOK)
    else
      rt_hw_interrupt_enable temp;;
      mret (Done (- RT_EFULL))
  else if 0 <? mu_value m then
    upd_mutex mutex (λ m, set_mu_value (u16 (mu_value m - 1)) m);;
    upd_mutex mutex (set_mu_owner thread);;
    th ← get_thread thread;
    upd_mutex mutex (set_mu_original_priority (th_current_priority th));;
    m ← get_mutex mutex;
    if mu_hold m <? RT_MUTEX_HOLD_MAX then
      upd_mutex mutex (λ m, set_mu_hold (u8 (mu_hold m + 1)) m);;
      rt_hw_interrupt_enable temp;;
      mret (Done RT_EOK)
    else
      rt_hw_interrupt_enable temp;;
      mret (Done (- RT_EFULL))
  else if time =? 0 then
    upd_thread thread (set_th_error (- RT_ETIMEOUT));;
    rt_hw_interrupt_enable temp;;
    mret (Done (- RT_ETIMEOUT))
  else mutex_wait mutex thread time temp.

Definition rt_mutex_take_resumed (thread : ptr) : K Z :=
  th ← get_thread thread;
  if negb (th_error th =? RT_EOK) then mret (th_error th)
  else
    temp ← rt_hw_interrupt_disable;
    rt_hw_interrupt_enable temp;;
    mret RT_EOK.

(** The last unlock: restore the owner's priority, then hand the mutex to
    the first waiter or mark it free. The result tells whether a waiter was
    resumed ([need_schedule]), or is the error. *)
Definition mutex_handover (mutex : ptr) : K (Z * bool) :=
  m ← get_mutex mutex;
  owner ← get_thread (mu_owner m);
  when (negb (mu_original_priority m =? th_current_priority owner))
    (rt_thread_control (mu_owner m)
       (RT_THREAD_CTRL_CHANGE_PRIORITY (mu_original_priority m));; mret ());;
  empty ← tlist_isempty (HSuspend mutex);
  if negb empty then
    thread ← tlist_first (HSuspend mutex);
    upd_mutex mutex (set_mu_owner thread);;
    th ← get_thread thread;
    upd_mutex mutex (set_mu_original_priority (th_current_priority th));;
    m ← get_mutex mutex;
    if mu_hold m <? RT_MUTEX_HOLD_MAX then
      upd_mutex mutex (λ m, set_mu_hold (u8 (mu_hold m + 1)) m);;
      rt_ipc_list_resume (HSuspend mutex);;
      mret (RT_EOK, true)
    else mret (- RT_EFULL, false)
  else
    m ← get_mutex mutex;
    if mu_value m <? RT_MUTEX_VALUE_MAX then
      upd_mutex mutex (λ m, set_mu_value (u16 (mu_value m + 1)) m);;
      upd_mutex mutex (set_mu_owner RT_NULL);;
      upd_mutex mutex (set_mu_original_priority 255);;
      mret (RT_EOK, false)
    else mret (- RT_EFULL, false).

Definition rt_mutex_release (mutex : ptr) : K Z :=
  assert_class mutex RT_Object_Class_Mutex;;
  RT_DEBUG_IN_THREAD_CONTEXT;;
  thread ← rt_thread_self;
  temp ← rt_hw_interrupt_disable;
  m ← get_mutex mutex;
  if negb (thread =? mu_owner m) then
    upd_thread thread (set_th_error (- RT_ERROR));;
    rt_hw_interrupt_enable temp;;
    mret (- RT_ERROR)
  else
    upd_mutex mutex (λ m, set_mu_hold (u8 (mu_hold m - 1)) m);;
    m ← get_mutex mutex;
    r ← (if mu_hold m =? 0 then mutex_handover mutex else mret (RT_EOK, false));
    rt_hw_interrupt_enable temp;;
    (if fst r =? RT_EOK then when (snd r) rt_schedule;; mret RT_EOK
     else mret (fst r)).

End with_callbacks.

Definition rt_mutex_control (mutex cmd arg : Z) : K Z :=
  assert_class mutex RT_Object_Class_Mutex;;
  mret (- RT_ERROR).

(** ** Ownership *)

Definition waiters (s : kstate) (mutex : ptr) : list ptr :=
  Store.nodes (k_tlists s) (HSuspend mutex).

(** A mutex is free, unheld and not waited for, or it is held between once
    and 255 times by its owner. *)
Definition mutex_free (m : rt_mutex) (q : list ptr) : Prop :=
  mu_owner m = RT_NULL ∧ mu_value m = 1 ∧ mu_hold m = 0 ∧ q = [].
Definition mutex_held (m : rt_mutex) : Prop :=
  mu_owner m ≠ RT_NULL ∧ mu_value m = 0 ∧ 1 ≤ mu_hold m ≤ RT_MUTEX_HOLD_MAX ∧
  0 ≤ mu_original_priority m < 32.
Definition mutex_ok (s : kstate) (mutex : ptr) (m : rt_mutex) : Prop :=
  k_mutexes s !! mutex = Some m ∧ (mutex_free m (waiters s mutex) ∨ mutex_held m).

Lemma wf_put_mutex s mutex m : wf s → wf (put_mutex mutex m s).
Proof. intros. by apply (wf_ext s). Qed.
#[export] Hint Resolve wf_put_mutex : kernel.

(** The error of the caller once a take has begun. *)
Section take.
Context {ext : External} (s : kstate) (t : ptr) (th : rt_thread) (mutex : ptr)
  (x : rt_object) (m : rt_mutex) (time : Z)
  (Hca : caller s t th) (Hv : valid s mutex RT_Object_Class_Mutex x)
  (Hm : k_mutexes s !! mutex = Some m) (Hf : ipc_flag (obj_flag x)) (Htime : time_ok time).

Let s1 := clear_error t th s.
Let th1 := set_th_error RT_EOK th.

Lemma caller_s1 : caller s1 t th1.
Proof. by apply caller_clear. Qed.

(** Taking again the mutex one holds only counts. *)
Lemma rt_mutex_take_owned :
  mu_owner m = t → mutex_held m →
  rt_mutex_take mutex time s =
    if mu_hold m <? RT_MUTEX_HOLD_MAX
    then Ok (put_mutex mutex (set_mu_hold (mu_hold m + 1) m) s1) (Done RT_EOK)
    else Ok s1 (Done (- RT_EFULL)).
Proof.
  intros Ho (_ & _ & Hh & _). unfold rt_mutex_take.
  erewrite bind_ok by (apply (caller_context _ _ _ (k_primask s) Hca)).
  do 3 kstep. cbn. rewrite (ca_self _ _ _ Hca).
  erewrite bind_ok by (apply upd_thread_ok; cbn; apply (ca_thread _ _ _ Hca)).
  kstep. rewrite Ho, Z.eqb_refl. unfold RT_MUTEX_HOLD_MAX in *.
  destruct (Z.ltb_spec (mu_hold m) 255); [|ksteps; reflexivity].
  ksteps. cbn. replace (u8 (mu_hold m + 1)) with (mu_hold m + 1); [reflexivity|].
  symmetry. apply Z.mod_small. lia.
Qed.

(** Taking a free mutex. *)
Lemma rt_mutex_take_free :
  mutex_free m (waiters s mutex) →
  rt_mutex_take mutex time s =
    Ok (put_mutex mutex (mk_mutex 0 (th_current_priority th) 1 t) s1) (Done RT_EOK).
Proof.
  intros (Ho & Hval & Hh & _). unfold rt_mutex_take.
  erewrite bind_ok by (apply (caller_context _ _ _ (k_primask s) Hca)).
  do 3 kstep. cbn. rewrite (ca_self _ _ _ Hca).
  erewrite bind_ok by (apply upd_thread_ok; cbn; apply (ca_thread _ _ _ Hca)).
  kstep. rewrite Ho. pose proof (caller_nonnull _ _ _ Hca) as Hnz.
  rewrite (proj2 (Z.eqb_neq RT_NULL t)) by (unfold RT_NULL; congruence).
  rewrite Hval; cbn [Z.ltb Z.compare]. do 5 kstep. cbn. rewrite Hh; cbn.
  ksteps. cbn. unfold put_mutex; cbn. rewrite !insert_insert_eq. rewrite Hh, Hval. reflexivity.
Qed.

(** Waiting: first the owner inherits the caller's priority if that is higher. *)
Definition inherit (owner : ptr) (p : Z) (tho : rt_thread) (s : kstate) : kstate :=
  if p <? th_current_priority tho then change_priority owner p tho s else s.

Lemma caller_inherit s0 t0 th0 owner tho p :
  caller s0 t0 th0 → t0 ≠ owner → k_threads s0 !! owner = Some tho → live tho →
  0 ≤ p < 32 → caller (inherit owner p tho s0) t0 th0.
Proof.
  intros Hc Hne Ho Hl Hp. unfold inherit. destruct (_ <? _); [|done].
  pose proof (caller_wf _ _ _ Hc) as Hwf. destruct Hc as [(_ & Hlk & Hr) Hs Ht Hrd Hn Hi].
  assert (Ht' : k_threads (change_priority owner p tho s0) !! t0 = Some th0).
  { cbn. by rewrite lookup_insert_ne. }
  split; try done. split; [by apply wf_change_priority|]. split; [done|].
  exists th0. by rewrite <- Hs in Ht'.
Qed.

Lemma rt_mutex_take_wait tho :
  mutex_held m → mu_owner m ≠ t → k_threads s !! mu_owner m = Some tho → live tho →
  rt_mutex_take mutex time s =
    if time =? 0 then Ok (put_thread t (set_th_error (- RT_ETIMEOUT) th) s) (Done (- RT_ETIMEOUT))
    else Ok (block (HSuspend mutex) t th1 (obj_flag x) time
               (inherit (mu_owner m) (th_current_priority th) tho s1)) (Wait t).
Proof.
  intros (_ & Hval & _) Hne Hto Hlo. unfold rt_mutex_take.
  pose proof (wf_thread_ok _ _ _ (caller_wf _ _ _ Hca) (ca_thread _ _ _ Hca)
    (wf_ready_live _ (ca_ready _ _ _ Hca))) as [_ _ Hp _ _ _ _ _].
  erewrite bind_ok by (apply (caller_context _ _ _ (k_primask s) Hca)).
  do 3 kstep. cbn. rewrite (ca_self _ _ _ Hca).
  erewrite bind_ok by (apply upd_thread_ok; cbn; apply (ca_thread _ _ _ Hca)).
  kstep. rewrite (proj2 (Z.eqb_neq _ _) Hne), Hval; cbn [Z.ltb Z.compare].
  destruct (time =? 0).
  { ksteps. unfold put_thread; cbn. rewrite insert_insert_eq. reflexivity. }
  unfold mutex_wait. kstep. cbn.
  erewrite bind_ok by (apply get_thread_ok; cbn; by rewrite lookup_insert_eq).
  erewrite bind_ok by (apply get_thread_ok; cbn; by rewrite lookup_insert_ne).
  change (th_current_priority (set_th_error RT_EOK th)) with (th_current_priority th).
  pose proof (caller_inherit (set_k_primask 1 s1) t th1 (mu_owner m) tho (th_current_priority th)
    (caller_primask _ _ _ _ caller_s1) (not_eq_sym Hne)) as Hci.
  assert (Hto1 : k_threads (set_k_primask 1 s1) !! mu_owner m = Some tho)
    by (cbn; by rewrite lookup_insert_ne).
  specialize (Hci Hto1 Hlo Hp). revert Hci. unfold inherit.
  destruct (th_current_priority th <? th_current_priority tho); cbn [when]; intros Hci.
  - rewrite bind_assoc. erewrite bind_ok.
    2:{ apply (rt_thread_control_prio_ok (set_k_primask 1 s1) _ tho); try done.
        apply wf_primask, (caller_wf _ _ _ caller_s1). }
    kstep. erewrite bind_ok by (by eapply valid_get).
    rewrite (ipc_block_bind _ _ _ th1); [reflexivity|exact Hci|done..].
  - kstep. erewrite bind_ok by (by eapply valid_get).
    rewrite (ipc_block_bind _ _ _ th1); [reflexivity|exact Hci|done..].
Qed.
End take.

(** ** Releasing *)

(** The owner's own priority comes back when the last hold is given up. *)
Definition restore (t : ptr) (p : Z) (th : rt_thread) (s : kstate) : kstate :=
  if negb (p =? th_current_priority th) then change_priority t p th s else s.
Definition restored (p : Z) (th : rt_thread) : rt_thread :=
  if negb (p =? th_current_priority th) then with_prio p th else th.

Lemma restore_thread t p th s :
  k_threads s !! t = Some th → k_threads (restore t p th s) !! t = Some (restored p th).
Proof.
  intros Ht. unfold restore, restored. destruct (negb _); [|done]. cbn. by rewrite lookup_insert_eq.
Qed.
Lemma wf_restore s t p th :
  wf s → k_threads s !! t = Some th → live th → 0 ≤ p < 32 → wf (restore t p th s).
Proof. intros. unfold restore. destruct (negb _); [|done]. by apply wf_change_priority. Qed.
Lemma restore_waiters s t p th h :
  wf s → k_threads s !! t = Some th → is_wait h →
  Store.nodes (k_tlists (restore t p th s)) h = Store.nodes (k_tlists s) h.
Proof. intros. unfold restore. destruct (negb _); [|done]. by apply change_priority_waiters. Qed.

(** The mutex handed to [w], and the mutex freed. *)
Definition handed (w : ptr) (thw : rt_thread) : rt_mutex :=
  mk_mutex 0 (th_current_priority thw) 1 w.
Definition freed : rt_mutex := mk_mutex 1 255 0 RT_NULL.

Section release.
Context {ext : External} (s : kstate) (t : ptr) (th : rt_thread) (mutex : ptr)
  (x : rt_object) (m : rt_mutex)
  (Hca : caller s t th) (Hv : valid s mutex RT_Object_Class_Mutex x)
  (Hm : k_mutexes s !! mutex = Some m).

Lemma rt_mutex_release_other :
  mu_owner m ≠ t →
  rt_mutex_release mutex s = Ok (put_thread t (set_th_error (- RT_ERROR) th) s) (- RT_ERROR).
Proof.
  intros Hne. unfold rt_mutex_release. kstep.
  erewrite bind_ok by (apply (caller_context _ _ _ (k_primask s) Hca)).
  do 3 kstep. cbn. rewrite (ca_self _ _ _ Hca), (proj2 (Z.eqb_neq _ _) (not_eq_sym Hne)).
  cbn [negb].
  erewrite bind_ok by (apply upd_thread_ok; cbn; apply (ca_thread _ _ _ Hca)). ksteps. reflexivity.
Qed.

Hypothesis (Ho : mu_owner m = t) (Hh : mutex_held m).

Lemma rt_mutex_release_nested :
  1 < mu_hold m →
  rt_mutex_release mutex s = Ok (put_mutex mutex (set_mu_hold (mu_hold m - 1) m) s) RT_EOK.
Proof.
  intros H1. destruct Hh as (_ & _ & Hhold & _). unfold RT_MUTEX_HOLD_MAX in Hhold.
  unfold rt_mutex_release. kstep.
  erewrite bind_ok by (apply (caller_context _ _ _ (k_primask s) Hca)).
  do 3 kstep. cbn. rewrite (ca_self _ _ _ Hca), Ho, Z.eqb_refl. cbn [negb].
  kstep. kstep. cbn. replace (u8 (mu_hold m - 1)) with (mu_hold m - 1)
    by (symmetry; apply Z.mod_small; lia).
  rewrite (proj2 (Z.eqb_neq _ _)) by lia. ksteps. reflexivity.
Qed.

Let p := mu_original_priority m.
Let s1 := put_mutex mutex (set_mu_hold 0 m) s.

Lemma release_restore (k : K (Z * bool)) :
  (when (negb (p =? th_current_priority th))
     (rt_thread_control t (RT_THREAD_CTRL_CHANGE_PRIORITY p);; mret ());; k)
  (set_k_primask 1 s1) = k (set_k_primask 1 (restore t p th s1)).
Proof.
  destruct Hh as (_ & _ & _ & Hp). unfold restore.
  destruct (negb _); cbn [when]; [|reflexivity].
  rewrite bind_assoc. erewrite bind_ok; [reflexivity|].
  apply (rt_thread_control_prio_ok (set_k_primask 1 s1) t th p).
  - apply wf_primask, wf_put_mutex. by eapply caller_wf.
  - apply (ca_thread _ _ _ Hca).
  - apply wf_ready_live, Hca.
  - done.
Qed.

Lemma restore_mutexes : k_mutexes (restore t p th s1) !! mutex = Some (set_mu_hold 0 m).
Proof. unfold restore. destruct (negb _); cbn; by rewrite lookup_insert_eq. Qed.

Let s2 := restore t p th s1.

Lemma wf_s2 : wf s2.
Proof.
  destruct Hh as (_ & _ & _ & Hp). pose proof (caller_wf _ _ _ Hca).
  apply wf_restore; [by apply wf_put_mutex|apply Hca|apply wf_ready_live, Hca|done].
Qed.
Lemma waiters_s2 : Store.nodes (k_tlists s2) (HSuspend mutex) = waiters s mutex.
Proof.
  pose proof (caller_wf _ _ _ Hca).
  apply (restore_waiters s1); [by apply wf_put_mutex|apply Hca|done].
Qed.
Lemma thread_s2 w : w ≠ t → k_threads s2 !! w = k_threads s !! w.
Proof. intros. unfold s2, restore. destruct (negb _); cbn; by rewrite ?lookup_insert_ne. Qed.

Lemma mutex_handover_free :
  waiters s mutex = [] →
  mutex_handover mutex (set_k_primask 1 s1)
  = Ok (set_k_primask 1 (put_mutex mutex freed s2)) (RT_EOK, false).
Proof.
  intros Hq. destruct Hh as (_ & Hval & _). unfold mutex_handover.
  erewrite bind_ok by (apply get_mutex_ok; cbn; by rewrite lookup_insert_eq).
  cbn [mu_owner set_mu_hold mu_original_priority]. rewrite Ho.
  erewrite bind_ok by (apply get_thread_ok, Hca). fold p. rewrite release_restore. fold s2.
  kstep. unfold Store.isempty.
  change (k_tlists (set_k_primask 1 s2)) with (k_tlists s2). rewrite waiters_s2, Hq; cbn [negb].
  erewrite bind_ok by (apply get_mutex_ok, restore_mutexes).
  cbn [mu_value set_mu_hold]. rewrite Hval; cbn [Z.ltb Z.compare RT_MUTEX_VALUE_MAX].
  erewrite bind_ok by (apply upd_mutex_ok, restore_mutexes). cbv beta. ksteps.
  unfold put_mutex; cbn -[insert s2]. rewrite !insert_insert_eq.
  unfold handed, freed, set_mu_value, set_mu_hold, set_mu_original_priority, set_mu_owner.
  cbn [mu_value mu_hold mu_original_priority mu_owner]. rewrite ?Hval. reflexivity.
Qed.

Lemma mutex_handover_waiter w q :
  waiters s mutex = w :: q →
  ∃ thw, w ≠ t ∧ k_threads s !! w = Some thw ∧ th_stat thw = RT_THREAD_SUSPEND ∧
    wf (thread_resume w thw (put_mutex mutex (handed w thw) s2)) ∧
    mutex_handover mutex (set_k_primask 1 s1)
    = Ok (set_k_primask 1 (thread_resume w thw (put_mutex mutex (handed w thw) s2))) (RT_EOK, true).
Proof.
  intros Hq. destruct Hh as (_ & Hval & _). pose proof (caller_wf _ _ _ Hca) as Hwf.
  assert (Hne : w ≠ t).
  { intros ->. apply (caller_not_waiting _ _ _ (HSuspend mutex) Hca I). fold (waiters s mutex).
    rewrite Hq. by left. }
  set (S := put_mutex mutex (handed w (default zero_thread (k_threads s !! w))) s2).
  assert (HwfS : wf (set_k_primask 1 S)) by (apply wf_primask, wf_put_mutex, wf_s2).
  destruct (rt_ipc_list_resume_ok (set_k_primask 1 S) (HSuspend mutex) w q HwfS I)
    as (thw & Ht & Hs & E); [rewrite <- Hq; apply waiters_s2|].
  change (k_threads s2 !! w = Some thw) in Ht. pose proof Ht as Ht2. rewrite thread_s2 in Ht by done.
  exists thw. split; [done|]. split; [done|]. split; [done|].
  assert (S = put_mutex mutex (handed w thw) s2) as ES by (unfold S; by rewrite Ht).
  rewrite ES in *. split.
  { by apply wf_thread_resume; [apply wf_put_mutex, wf_s2|..]. }
  unfold mutex_handover.
  erewrite bind_ok by (apply get_mutex_ok; cbn; by rewrite lookup_insert_eq).
  cbn [mu_owner set_mu_hold mu_original_priority]. rewrite Ho.
  erewrite bind_ok by (apply get_thread_ok, Hca). fold p. rewrite release_restore. fold s2.
  kstep. unfold Store.isempty.
  change (k_tlists (set_k_primask 1 s2)) with (k_tlists s2).
  rewrite waiters_s2, Hq; cbn [negb].
  erewrite bind_ok by (eapply tlist_first_ok; rewrite <- Hq; apply waiters_s2).
  erewrite bind_ok by (apply upd_mutex_ok, restore_mutexes). cbv beta.
  erewrite bind_ok by (apply get_thread_ok; exact Ht2).
  do 2 kstep. cbn [mu_hold set_mu_hold set_mu_owner set_mu_original_priority].
  cbn [Z.ltb Z.compare RT_MUTEX_HOLD_MAX]. kstep.
  erewrite bind_ok; [reflexivity|]. etransitivity; [|exact E]. f_equal.
  unfold put_mutex; cbn -[insert s2]. rewrite !insert_insert_eq.
  unfold handed, freed, set_mu_value, set_mu_hold, set_mu_original_priority, set_mu_owner.
  cbn [mu_value mu_hold mu_original_priority mu_owner]. rewrite ?Hval. reflexivity.
Qed.
(** The last release, up to the hand-over. *)
Lemma rt_mutex_release_last s3 b :
  mu_hold m = 1 → mutex_handover mutex (set_k_primask 1 s1) = Ok (set_k_primask 1 s3) (RT_EOK, b) →
  wf s3 → k_primask s3 = k_primask s →
  rt_mutex_release mutex s = Ok (if b then schedule s3 else s3) RT_EOK.
Proof.
  intros H1 Hho Hwf3 Hmask. unfold rt_mutex_release. kstep.
  erewrite bind_ok by (apply (caller_context _ _ _ (k_primask s) Hca)).
  do 3 kstep. cbn. rewrite (ca_self _ _ _ Hca), Ho, Z.eqb_refl. cbn [negb].
  kstep. kstep. cbn [mu_hold set_mu_hold]. rewrite H1.
  change (u8 (1 - 1)) with 0. cbn [Z.eqb].
  erewrite bind_ok by exact Hho. kstep.
  assert (E : set_k_primask (k_primask s) (set_k_primask 1 s3) = s3) by (rewrite <- Hmask; reflexivity).
  rewrite E. cbn [fst snd]. rewrite Z.eqb_refl. destruct b; cbn [when]; [|by kstep].
  erewrite bind_ok by (by apply rt_schedule_wf). reflexivity.
Qed.
Lemma restore_primask : k_primask s2 = k_primask s.
Proof. unfold s2, restore. by destruct (negb _). Qed.
Lemma restore_prio : prio_of (k_threads s2) t = p.
Proof.
  unfold prio_of, s2. erewrite restore_thread by apply Hca. unfold restored.
  destruct (Z.eqb_spec p (th_current_priority th)); simpl; congruence.
Qed.
End release.

(** ** Abstract mutexes *)

Inductive amutex : Set :=
  | Free
  | Held (owner : ptr) (hold original : Z).
Definition amutex_of (m : rt_mutex) : amutex :=
  if mu_owner m =? RT_NULL then Free else Held (mu_owner m) (mu_hold m) (mu_original_priority m).
Definition mutex_view (s : kstate) (mutex : ptr) : option amutex :=
  amutex_of <$> k_mutexes s !! mutex.

(** The owner of a held mutex is a live thread. *)
Definition owner_live (s : kstate) (m : rt_mutex) : Prop :=
  mu_owner m ≠ RT_NULL → ∃ tho, k_threads s !! mu_owner m = Some tho ∧ live tho.

Lemma mutex_view_put (s' : kstate) mutex m :
  k_mutexes s' !! mutex = Some m → mutex_view s' mutex = Some (amutex_of m).
Proof. unfold mutex_view. by intros ->. Qed.

Lemma mutex_ok_owner s mutex m t :
  mutex_ok s mutex m → mu_owner m = t → t ≠ 0 → mutex_held m.
Proof. intros [_ [(Ho & _)|Hh]] <- Hne; [|done]. by rewrite Ho in Hne. Qed.

Lemma prio_of_some (T : gmap ptr rt_thread) t th : T !! t = Some th → prio_of T t = th_current_priority th.
Proof. unfold prio_of. by intros ->. Qed.

Lemma caller_running_put s t th th' :
  caller s t th → th_core th' = th_core th → running (put_thread t th' s).
Proof. intros Hc E. apply (ca_running _ _ _ (caller_put _ _ _ _ Hc E)). Qed.

Lemma running_put_mutex s mutex m : running s → running (put_mutex mutex m s).
Proof. intros (Hwf & Hl & Hr). split; [by apply wf_put_mutex|done]. Qed.

Lemma inherit_prio owner p tho s t0 :
  k_threads s !! owner = Some tho →
  prio_of (k_threads (inherit owner p tho s)) t0 =
    if decide (t0 = owner) then Z.min p (th_current_priority tho) else prio_of (k_threads s) t0.
Proof.
  intros Ho. unfold inherit, prio_of. destruct (Z.ltb_spec p (th_current_priority tho)) as [H|H].
  - cbn. case_decide as E; [subst; rewrite lookup_insert_eq; cbn; lia|].
    by rewrite lookup_insert_ne.
  - case_decide as E; [subst; rewrite Ho; cbn; lia|done].
Qed.

Lemma held_view m : mu_owner m ≠ RT_NULL →
  amutex_of m = Held (mu_owner m) (mu_hold m) (mu_original_priority m).
Proof. intros. unfold amutex_of. by rewrite (proj2 (Z.eqb_neq _ _)). Qed.

(** taking a free mutex succeeds at once: the caller becomes its owner with one
    hold and the mutex remembers the caller's priority. *)
Theorem rt_mutex_take_acquires {ext : External} s t th mutex x m time :
  caller s t th → valid s mutex RT_Object_Class_Mutex x → ipc_flag (obj_flag x) →
  time_ok time → mutex_ok s mutex m → mutex_view s mutex = Some Free →
  ∃ s' m', rt_mutex_take mutex time s = Ok s' (Done RT_EOK) ∧ running s' ∧
    k_current s' = t ∧ mutex_ok s' mutex m' ∧
    mutex_view s' mutex = Some (Held t 1 (th_current_priority th)).
Proof.
  intros Hca Hv Hf Htime [Hm Hst] Hfree. pose proof (caller_nonnull _ _ _ Hca) as Hnz.
  unfold mutex_view in Hfree. rewrite Hm in Hfree. unfold amutex_of in Hfree; simpl in Hfree.
  destruct (Z.eqb_spec (mu_owner m) RT_NULL) as [Ho|]; [|done].
  assert (mutex_free m (waiters s mutex)) by (destruct Hst as [?|[? _]]; done).
  eexists _, _. split; [by eapply rt_mutex_take_free|].
  split; [by eapply running_put_mutex, caller_running_put|].
  split; [apply Hca|]. split.
  - split; [cbn; by rewrite lookup_insert_eq|]. right.
    destruct (wf_thread_ok _ _ _ (caller_wf _ _ _ Hca) (ca_thread _ _ _ Hca)
      (wf_ready_live _ (ca_ready _ _ _ Hca))).
    repeat split; cbn; done || lia.
  - erewrite mutex_view_put by (cbn; by rewrite lookup_insert_eq). by rewrite held_view.
Qed.

(** Priorities after the caller has lent its own to the owner and blocked. *)
Lemma inherit_block_prio s t th list flag time owner tho o :
  k_threads s !! t = Some th → k_threads s !! owner = Some tho → owner ≠ t →
  prio_of (k_threads (block list t th flag time
    (inherit owner (th_current_priority th) tho s))) o =
  if decide (o = owner) then Z.min (th_current_priority th) (prio_of (k_threads s) o)
  else prio_of (k_threads s) o.
Proof.
  intros Ht Ho Hne. destruct (decide (o = t)) as [->|Hot].
  - rewrite decide_False by done. unfold prio_of; cbn. by rewrite lookup_insert_eq, Ht.
  - unfold prio_of at 1. rewrite block_threads_ne by done.
    change (prio_of (k_threads (inherit owner (th_current_priority th) tho s)) o = 
      if decide (o = owner) then Z.min (th_current_priority th) (prio_of (k_threads s) o)
      else prio_of (k_threads s) o).
    rewrite inherit_prio by done. case_decide as E; [|done].
    subst. by rewrite (prio_of_some _ _ _ Ho).
Qed.

Lemma inherit_waiters s owner p tho h :
  wf s → k_threads s !! owner = Some tho → is_wait h →
  Store.nodes (k_tlists (inherit owner p tho s)) h = Store.nodes (k_tlists s) h.
Proof. intros. unfold inherit. destruct (_ <? _); [|done]. by apply change_priority_waiters. Qed.

Lemma block_queue s t th list flag time :
  caller s t th → is_wait list →
  Store.nodes (k_tlists (block list t th flag time s)) list
  = wait_insert flag (k_threads (block list t th flag time s)) (th_current_priority th) t
      (Store.nodes (k_tlists s) list).
Proof.
  intros Hc Hh. rewrite block_waiters by done. unfold wait_insert.
  rewrite (prio_pos_ext (k_threads s) (k_threads (block list t th flag time s))); [done|].
  intros n Hn. unfold prio_of.
  rewrite block_threads_ne; [done|]. intros ->. by apply (caller_not_waiting _ _ _ list Hc) in Hn.
Qed.

(** C5: priority inheritance. Waiting for a mutex another thread owns raises the
    owner to the caller's priority if that is higher, changes no other priority,
    suspends the caller in the queue at the place the policy gives it, and
    leaves the mutex with its owner. *)
Theorem rt_mutex_take_inherits {ext : External} s t th mutex x m time :
  caller s t th → valid s mutex RT_Object_Class_Mutex x → ipc_flag (obj_flag x) →
  time_ok time → time ≠ 0 → mutex_ok s mutex m → owner_live s m →
  mu_owner m ≠ RT_NULL → mu_owner m ≠ t →
  ∃ s', rt_mutex_take mutex time s = Ok s' (Wait t) ∧ running s' ∧ mutex_ok s' mutex m ∧
    waiters s' mutex = wait_insert (obj_flag x) (k_threads s') (th_current_priority th) t
      (waiters s mutex) ∧
    (∃ th', k_threads s' !! t = Some th' ∧ th_stat th' = RT_THREAD_SUSPEND) ∧
    k_current s' ≠ t ∧
    ∀ o, prio_of (k_threads s') o =
      if decide (o = mu_owner m) then Z.min (th_current_priority th) (prio_of (k_threads s) o)
      else prio_of (k_threads s) o.
Proof.
  intros Hca Hv Hf Htime Hnz [Hm Hst] Hlive Ho Et.
  assert (mutex_held m) as Hheld by (destruct Hst as [[? _]|?]; done).
  destruct (Hlive Ho) as (tho & Hto & Hlo).
  rewrite (rt_mutex_take_wait s t th mutex x m time Hca Hv Hm Hf Htime tho Hheld Et Hto Hlo).
  rewrite (proj2 (Z.eqb_neq _ _) Hnz).
  destruct (wf_thread_ok _ _ _ (caller_wf _ _ _ Hca) (ca_thread _ _ _ Hca)
      (wf_ready_live _ (ca_ready _ _ _ Hca))) as [_ _ Hp _ _ _ _ _].
  set (th1 := set_th_error RT_EOK th). set (s1 := clear_error t th s).
  pose proof (caller_clear _ _ _ Hca : caller s1 t th1) as Hc1.
  assert (Hto1 : k_threads s1 !! mu_owner m = Some tho) by (cbn; by rewrite lookup_insert_ne).
  pose proof (caller_inherit s1 t th1 _ tho _ Hc1 (not_eq_sym Et) Hto1 Hlo Hp) as Hci.
  destruct (block_suspends _ _ _ (HSuspend mutex) (obj_flag x) time Hci I Htime) as [Hb Hne].
  eexists. split; [done|]. split; [by apply running_block|].
  split; [|split; [|split; [by eauto|split; [done|]]]].
  - split; [|by right]. cbn. unfold inherit. by destruct (_ <? _).
  - unfold waiters at 1. erewrite block_queue by done.
    rewrite inherit_waiters; [done|apply (caller_wf _ _ _ Hc1)|done|done].
  - intros o. erewrite (inherit_block_prio s1 t th1); [|apply Hc1|done|done].
    assert (prio_of (k_threads s1) o = prio_of (k_threads s) o) as ->; [|done].
    unfold prio_of; cbn. destruct (decide (o = t)) as [->|].
    + by rewrite lookup_insert_eq, (ca_thread _ _ _ Hca).
    + by rewrite lookup_insert_ne.
Qed.

Lemma running_wf s : running s → wf s.
Proof. by intros [? _]. Qed.

(** C6: the last release gives the releasing thread back the priority it had when
    it took the mutex, and passes the mutex to the first waiter, which becomes
    its owner with one hold and is ready; with no waiter the mutex is free. *)
Theorem rt_mutex_release_hands_over {ext : External} s t th mutex x m :
  caller s t th → valid s mutex RT_Object_Class_Mutex x → mutex_ok s mutex m →
  mu_owner m = t → mu_hold m = 1 →
  ∃ s' m', rt_mutex_release mutex s = Ok s' RT_EOK ∧ wf s' ∧ mutex_ok s' mutex m' ∧
    prio_of (k_threads s') t = mu_original_priority m ∧
    match waiters s mutex with
    | [] => mutex_view s' mutex = Some Free
    | w :: q => mutex_view s' mutex = Some (Held w 1 (prio_of (k_threads s) w)) ∧
        waiters s' mutex = q ∧ w ≠ t ∧
        ∃ thw, k_threads s !! w = Some thw ∧
          k_threads s' !! w = Some (set_th_stat RT_THREAD_READY thw)
    end.
Proof.
  intros Hca Hv Hok Ho H1. pose proof (caller_nonnull _ _ _ Hca) as Hnz. pose proof Hok as [Hm _].
  pose proof (mutex_ok_owner _ _ _ _ Hok Ho Hnz) as Hh.
  pose proof (wf_s2 s t th mutex m Hca Hh) as Hwf2.
  pose proof (restore_prio s t th mutex m Hca) as Hp.
  pose proof (restore_primask s t th mutex m) as Hmask.
  destruct (waiters s mutex) as [|w q] eqn:Hq.
  - pose proof (mutex_handover_free s t th mutex m Hca Ho Hh Hq) as Hho.
    erewrite rt_mutex_release_last; [|done..|by apply wf_put_mutex|done].
    eexists _, freed. split; [done|]. split; [by apply wf_put_mutex|]. split; [|split; [exact Hp|]].
    + split; [cbn; by rewrite lookup_insert_eq|]. left.
      pose proof (waiters_s2 s t th mutex m Hca) as Hq2. rewrite Hq in Hq2. done.
    + erewrite mutex_view_put by (cbn; by rewrite lookup_insert_eq). done.
  - destruct (mutex_handover_waiter s t th mutex m Hca Ho Hh w q Hq)
      as (thw & Hne & Hw & Hsw & Hwf3 & Hho).
    erewrite rt_mutex_release_last; [|done..|exact Hwf3|exact Hmask].
    destruct (wf_thread_ok _ _ _ (caller_wf _ _ _ Hca) Hw (wf_suspend_live _ Hsw)) as [? _ ? _ _ _ _ _].
    eexists _, (handed w thw). split; [done|]. split; [by apply wf_schedule|].
    split; [|split; [|split; [|split; [|split; [done|]]]]].
    + split; [cbn; by rewrite lookup_insert_eq|]. right. repeat split; cbn; done || lia.
    + cbn. unfold prio_of. by rewrite lookup_insert_ne.
    + erewrite mutex_view_put by (cbn; by rewrite lookup_insert_eq).
      rewrite (prio_of_some _ _ _ Hw). by rewrite held_view.
    + pose proof (waiters_s2 s t th mutex m Hca) as Hq2. rewrite Hq in Hq2.
      etransitivity; [by apply (resume_waiters (put_mutex mutex (handed w thw)
        (restore t (mu_original_priority m) th (put_mutex mutex (set_mu_hold 0 m) s)))
        w thw (HSuspend mutex) q (HSuspend mutex)); [apply wf_put_mutex|..]|].
      by rewrite decide_True.
    + exists thw. split; [done|]. cbn. by rewrite lookup_insert_eq.
Qed.

(** ** Recursion *)

Section recursion.
Context {ext : External} (s : kstate) (t : ptr) (th : rt_thread) (mutex : ptr)
  (x : rt_object) (time : Z)
  (Hca : caller s t th) (Hv : valid s mutex RT_Object_Class_Mutex x) (Hf : ipc_flag (obj_flag x))
  (Htime : time_ok time) (Hm : k_mutexes s !! mutex = Some freed) (Hw : waiters s mutex = []).

(** Taking and releasing [n] times, each call succeeding. *)
Fixpoint mutex_takes (n : nat) : K unit :=
  match n with
  | O => mret ()
  | S n' =>
      r ← rt_mutex_take mutex time;
      match r with
      | Done e => rt_assert (e =? RT_EOK);; mutex_takes n'
      | Wait _ => fail FBlocked
      end
  end.
Fixpoint mutex_releases (n : nat) : K unit :=
  match n with
  | O => mret ()
  | S n' => e ← rt_mutex_release mutex; rt_assert (e =? RT_EOK);; mutex_releases n'
  end.

(** The state while the mutex is held [k] times. *)
Definition held_state (k : Z) : kstate :=
  put_mutex mutex (mk_mutex 0 (th_current_priority th) k t) (clear_error t th s).

Lemma held_state_pre k : 1 ≤ k ≤ RT_MUTEX_HOLD_MAX →
  caller (held_state k) t (set_th_error RT_EOK th) ∧ valid (held_state k) mutex RT_Object_Class_Mutex x ∧
  k_mutexes (held_state k) !! mutex = Some (mk_mutex 0 (th_current_priority th) k t) ∧
  mutex_held (mk_mutex 0 (th_current_priority th) k t).
Proof.
  intros Hk. pose proof (caller_nonnull _ _ _ Hca).
  destruct (wf_thread_ok _ _ _ (caller_wf _ _ _ Hca) (ca_thread _ _ _ Hca)
      (wf_ready_live _ (ca_ready _ _ _ Hca))).
  split; [apply (caller_ext (clear_error t th s)); by try apply caller_clear|]. split; [done|].
  split; [cbn; by rewrite lookup_insert_eq|]. repeat split; cbn; done || lia.
Qed.

Lemma take_first : rt_mutex_take mutex time s = Ok (held_state 1) (Done RT_EOK).
Proof. by eapply rt_mutex_take_free. Qed.
Lemma take_again k : 1 ≤ k < RT_MUTEX_HOLD_MAX →
  rt_mutex_take mutex time (held_state k) = Ok (held_state (k + 1)) (Done RT_EOK).
Proof.
  intros Hk. destruct (held_state_pre k) as (Hc & Hv' & Hm' & Hh); [lia|].
  erewrite rt_mutex_take_owned; [|done..]. cbn [mu_hold].
  rewrite (proj2 (Z.ltb_lt _ _)) by lia. f_equal.
  unfold held_state, clear_error, put_mutex, put_thread; cbn. by rewrite !insert_insert_eq.
Qed.
Lemma release_nested k : 1 < k ≤ RT_MUTEX_HOLD_MAX →
  rt_mutex_release mutex (held_state k) = Ok (held_state (k - 1)) RT_EOK.
Proof.
  intros Hk. destruct (held_state_pre k) as (Hc & Hv' & Hm' & Hh); [lia|].
  erewrite rt_mutex_release_nested; [|done..|cbn; lia]. f_equal.
  unfold held_state, put_mutex; cbn. by rewrite !insert_insert_eq.
Qed.
Lemma release_final : rt_mutex_release mutex (held_state 1) = Ok (put_mutex mutex freed (held_state 1)) RT_EOK.
Proof.
  destruct (held_state_pre 1) as (Hc & Hv' & Hm' & Hh); [done|].
  pose proof (mutex_handover_free _ _ _ mutex (mk_mutex 0 (th_current_priority th) 1 t)
    Hc eq_refl Hh Hw) as Hho.
  assert (E : restore t (th_current_priority th) (set_th_error RT_EOK th)
    (put_mutex mutex (set_mu_hold 0 (mk_mutex 0 (th_current_priority th) 1 t)) (held_state 1))
    = put_mutex mutex (set_mu_hold 0 (mk_mutex 0 (th_current_priority th) 1 t)) (held_state 1)).
  { unfold restore; cbn [th_current_priority set_th_error]. by rewrite Z.eqb_refl. }
  cbn [mu_original_priority] in Hho. rewrite E in Hho.
  erewrite rt_mutex_release_last; [|done..| |reflexivity].
  - f_equal. unfold held_state, put_mutex; cbn. by rewrite !insert_insert_eq.
  - apply wf_put_mutex, wf_put_mutex. by eapply caller_wf.
Qed.

Lemma mutex_takes_ok n k : 1 ≤ k → k + Z.of_nat n ≤ RT_MUTEX_HOLD_MAX →
  mutex_takes n (held_state k) = Ok (held_state (k + Z.of_nat n)) tt.
Proof.
  revert k. induction n as [|n IH]; intros k H1 Hk; [by rewrite Z.add_0_r|].
  cbn [mutex_takes]. erewrite bind_ok by (apply take_again; lia). cbv beta iota. kstep.
  rewrite IH by lia. do 2 f_equal. lia.
Qed.
Lemma mutex_releases_ok n k : k = 1 + Z.of_nat n → k ≤ RT_MUTEX_HOLD_MAX →
  mutex_releases (S n) (held_state k) = Ok (put_mutex mutex freed (held_state 1)) tt.
Proof.
  revert k. induction n as [|n IH]; intros k -> Hk.
  - simpl. erewrite bind_ok by apply release_final. reflexivity.
  - change (mutex_releases (S (S n))) with
      (e ← rt_mutex_release mutex; rt_assert (e =? RT_EOK);; mutex_releases (S n)).
    erewrite bind_ok by (apply release_nested; lia). cbv beta. kstep.
    apply IH; lia.
Qed.
End recursion.

(** Recursion. A free mutex can be taken up to 255 times by one thread, every
    take succeeding, and the same number of releases succeeds and leaves the
    mutex free and the rest of the state as it was before the first take. *)
Theorem mutex_recursion_roundtrip {ext : External} s t th mutex x time n :
  caller s t th → valid s mutex RT_Object_Class_Mutex x → ipc_flag (obj_flag x) →
  time_ok time → k_mutexes s !! mutex = Some freed → waiters s mutex = [] →
  1 ≤ Z.of_nat n ≤ RT_MUTEX_HOLD_MAX →
  ∃ s1 s2, mutex_takes mutex time n s = Ok s1 tt ∧
    mutex_view s1 mutex = Some (Held t (Z.of_nat n) (th_current_priority th)) ∧
    mutex_releases mutex n s1 = Ok s2 tt ∧ s2 = put_mutex mutex freed (clear_error t th s).
Proof.
  intros Hca Hv Hf Htime Hm Hw Hn. destruct n as [|n]; [lia|].
  exists (held_state s t th mutex (1 + Z.of_nat n)). eexists. split; [|split; [|split]].
  - cbn [mutex_takes]. erewrite bind_ok by (by eapply take_first). cbv beta iota. kstep. apply (mutex_takes_ok s t th mutex x); done || lia.
  - erewrite mutex_view_put by (cbn; by rewrite lookup_insert_eq).
    rewrite held_view by (cbn; by eapply caller_nonnull). do 2 f_equal. cbn. lia.
  - apply (mutex_releases_ok s t th mutex x); done || lia.
  - unfold held_state, put_mutex; cbn. by rewrite insert_insert_eq.
Qed.
