(* ===== verification/Event.v ===== *)
(** * Event sets ([ipc.c]) *)

From Stdlib Require Import ZArith Lia.
From stdpp Require Import base gmap list fin_maps.
From S2P Require Import RTThread.
From S2P Require Import Prelude.
From S2P Require Import ListModel.
From S2P Require Import Kernel.
From S2P Require Import Kservice.
From S2P Require Import Scheduler.
From S2P Require Import Object.
From S2P Require Import TimerCore.
From S2P Require Import ThreadCore.
From S2P Require Import Timer.
From S2P Require Import Invariant.
From S2P Require Import Thread.
From S2P Require Import IpcList.

Definition rt_event_init (event : ptr) (name : list Z) (flag : Z) : K Z :=
  rt_assert (negb (event =? RT_NULL));;
  rt_object_init event RT_Object_Class_Event name;;
  set_object_flag event flag;;
  rt_ipc_object_init event;;
  put_event event 0;;
  mret RT_EOK.

Definition rt_event_detach (event : ptr) : K Z :=
  assert_static event RT_Object_Class_Event;;
  rt_ipc_list_resume_all (HSuspend event);;
  rt_object_detach event;;
  mret RT_EOK.

Definition rt_event_create (mem : ptr) (name : list Z) (flag : Z) : K ptr :=
  RT_DEBUG_NOT_IN_INTERRUPT;;
  event ← rt_object_allocate mem RT_Object_Class_Event name;
  if event =? RT_NULL then mret event
  else
    set_object_flag event flag;;
    rt_ipc_object_init event;;
    put_event event 0;;
    mret event.

Definition rt_event_delete (event : ptr) : K Z :=
  assert_dynamic event RT_Object_Class_Event;;
  RT_DEBUG_NOT_IN_INTERRUPT;;
  rt_ipc_list_resume_all (HSuspend event);;
  rt_object_delete event;;
  mret RT_EOK.

(** The two ways a wait is satisfied: all the bits of [want], or any. *)
Definition event_satisfied (info want set : Z) : option bool :=
  if flag_on info RT_EVENT_FLAG_AND then Some (Z.land want set =? want)
  else if flag_on info RT_EVENT_FLAG_OR then Some (flag_on want set)
  else None.

(** The scan of the waiters in [rt_event_send]: the successor of a node is
    read before the node is resumed, so the scan follows the ring as it was.
    The result is [None] for the [-RT_EINVAL] exit, or [need_schedule]. *)
Fixpoint event_scan (event : ptr) (l : list ptr) (need_schedule : bool) : K (option bool) :=
  match l with
  | [] => mret (Some need_schedule)
  | thread :: l' =>
      th ← get_thread thread;
      set ← get_event event;
      match event_satisfied (th_event_info th) (th_event_set th) set with
      | None => mret None
      | Some false => event_scan event l' need_schedule
      | Some true =>
          when (negb (flag_on (th_event_info th) RT_EVENT_FLAG_AND))
            (upd_thread thread (λ th, set_th_event_set (Z.land (th_event_set th) set) th));;
          th ← get_thread thread;
          when (flag_on (th_event_info th) RT_EVENT_FLAG_CLEAR)
            (put_event event (Z.land set (Z.lnot (th_event_set th))));;
          rt_thread_resume thread;;
          event_scan event l' true
      end
  end.

Definition rt_event_send (event set : Z) : K Z :=
  assert_class event RT_Object_Class_Event;;
  if set =? 0 then mret (- RT_ERROR)
  else
    level ← rt_hw_interrupt_disable;
    old ← get_event event;
    put_event event (Z.lor old set);;
    l ← gets (λ s, Store.nodes (k_tlists s) (HSuspend event));
    r ← event_scan event l false;
    rt_hw_interrupt_enable level;;
    match r with
    | None => mret (- RT_EINVAL)
    | Some need_schedule => when need_schedule rt_schedule;; mret RT_EOK
    end.

(** The result is the error code and the value stored at [recved], if any. *)
Definition rt_event_recv (event set option timeout : Z)
    : K (outcome (Z * Datatypes.option Z) ptr) :=
  RT_DEBUG_IN_THREAD_CONTEXT;;
  assert_class event RT_Object_Class_Event;;
  if set =? 0 then mret (Done (- RT_ERROR, None))
  else
    thread ← rt_thread_self;
    upd_thread thread (set_th_error RT_EOK);;
    level ← rt_hw_interrupt_disable;
    current ← get_event event;
    match event_satisfied option set current with
    | None => fail FAssert
    | Some true =>
        upd_thread thread (set_th_event_set (Z.land current set));;
        upd_thread thread (set_th_event_info option);;
        when (flag_on option RT_EVENT_FLAG_CLEAR)
          (put_event event (Z.land current (Z.lnot set)));;
        rt_hw_interrupt_enable level;;
        th ← get_thread thread;
        mret (Done (th_error th, Some (Z.land current set)))
    | Some false =>
        if timeout =? 0 then
          upd_thread thread (set_th_error (- RT_ETIMEOUT));;
          rt_hw_interrupt_enable level;;
          mret (Done (- RT_ETIMEOUT, None))
        else
          upd_thread thread (set_th_event_set set);;
          upd_thread thread (set_th_event_info option);;
          o ← get_object event;
          rt_ipc_list_suspend (HSuspend event) thread (obj_flag o);;
          when (0 <? timeout) (start_thread_timer thread timeout);;
          rt_hw_interrupt_enable level;;
          rt_schedule;;
          mret (Wait thread)
    end.

Definition rt_event_recv_resumed (thread : ptr) : K (Z * Datatypes.option Z) :=
  th ← get_thread thread;
  if negb (th_error th =? RT_EOK) then mret (th_error th, None)
  else
    level ← rt_hw_interrupt_disable;
    rt_hw_interrupt_enable level;;
    mret (th_error th, Some (th_event_set th)).

Definition rt_event_control (event cmd arg : Z) : K Z :=
  assert_class event RT_Object_Class_Event;;
  if cmd =? RT_IPC_CMD_RESET then
    level ← rt_hw_interrupt_disable;
    rt_ipc_list_resume_all (HSuspend event);;
    put_event event 0;;
    rt_hw_interrupt_enable level;;
    rt_schedule;;
    mret RT_EOK
  else mret (- RT_ERROR).

(** ** The contract: which waiters a send satisfies

    The bits of the event and the waiters in order; a waiter is served as soon
    as the bits left by those before it satisfy it. [got] is what the waiter
    receives. *)

Definition want (T : gmap ptr rt_thread) (t : ptr) : Z := from_option th_event_set 0 (T !! t).
Definition info (T : gmap ptr rt_thread) (t : ptr) : Z := from_option th_event_info 0 (T !! t).

Definition got (info want v : Z) : Z :=
  if flag_on info RT_EVENT_FLAG_AND then want else Z.land want v.
Definition consume (info got v : Z) : Z :=
  if flag_on info RT_EVENT_FLAG_CLEAR then Z.land v (Z.lnot got) else v.

Record fold_result : Set := mk_fold {
  fr_bits : Z;                     (** the bits left *)
  fr_served : list (ptr * Z);      (** who is woken, with what *)
  fr_left : list ptr               (** who still waits *)
}.

Fixpoint event_fold (T : gmap ptr rt_thread) (v : Z) (l : list ptr) : fold_result :=
  match l with
  | [] => mk_fold v [] []
  | t :: l' =>
      match event_satisfied (info T t) (want T t) v with
      | Some true =>
          let g := got (info T t) (want T t) v in
          let r := event_fold T (consume (info T t) g v) l' in
          mk_fold (fr_bits r) ((t, g) :: fr_served r) (fr_left r)
      | _ => let r := event_fold T v l' in mk_fold (fr_bits r) (fr_served r) (t :: fr_left r)
      end
  end.

(** Every waiter asked for all of its bits or for any of them, as
    [rt_event_recv] makes sure. *)
Definition waiters_ok (T : gmap ptr rt_thread) (l : list ptr) : Prop :=
  ∀ t, t ∈ l → is_Some (event_satisfied (info T t) (want T t) 0).

Lemma event_satisfied_defined info want v v' :
  is_Some (event_satisfied info want v) → is_Some (event_satisfied info want v').
Proof. unfold event_satisfied. destruct (flag_on _ _); [eauto|]. destruct (flag_on _ _); eauto. Qed.

Lemma event_fold_ext T T' v l :
  (∀ t, t ∈ l → T' !! t = T !! t) → event_fold T' v l = event_fold T v l.
Proof.
  revert v. induction l as [|t l IH]; intros v He; simpl; [done|].
  unfold info, want. rewrite He by (by left).
  destruct (event_satisfied _ _ _) as [[]|]; rewrite !IH by (intros; apply He; by right); done.
Qed.

Lemma event_fold_served T v l t g : (t, g) ∈ fr_served (event_fold T v l) → t ∈ l.
Proof.
  revert v. induction l as [|x l IH]; intros v; simpl; [by intros ?%not_elem_of_nil|].
  destruct (event_satisfied _ _ _) as [[]|]; simpl.
  - intros [[= -> ->]|Hin]%elem_of_cons; [by left|right; eauto].
  - intros Hin. right. eauto.
  - intros Hin. right. eauto.
Qed.

(** The bits only shrink along the scan, and a waiter the bits do not satisfy
    is satisfied by no smaller set: who is left really has to wait. *)
Lemma consume_sub info g v : Z.land (consume info g v) v = consume info g v.
Proof.
  unfold consume. destruct (flag_on _ _); [|apply Z.land_diag].
  rewrite <- Z.land_assoc, (Z.land_comm (Z.lnot g)), Z.land_assoc. by rewrite Z.land_diag.
Qed.
Lemma sub_trans a b c : Z.land a b = a → Z.land b c = b → Z.land a c = a.
Proof. intros <- <-. by rewrite <- !Z.land_assoc, Z.land_diag. Qed.
Lemma event_fold_sub T v l : Z.land (fr_bits (event_fold T v l)) v = fr_bits (event_fold T v l).
Proof.
  revert v. induction l as [|t l IH]; intros v; simpl; [apply Z.land_diag|].
  destruct (event_satisfied _ _ _) as [[]|]; simpl; [|apply IH..].
  eapply sub_trans; [apply IH|apply consume_sub].
Qed.
Lemma unsatisfied_sub info want v w :
  Z.land w v = w → event_satisfied info want v = Some false →
  event_satisfied info want w = Some false.
Proof.
  intros Hs. unfold event_satisfied. destruct (flag_on info RT_EVENT_FLAG_AND).
  - intros [= H%Z.eqb_neq]. f_equal. apply Z.eqb_neq. intros E. apply H.
    transitivity (Z.land (Z.land want w) v); [by rewrite E|]. by rewrite <- Z.land_assoc, Hs.
  - destruct (flag_on info RT_EVENT_FLAG_OR); [|done]. unfold flag_on.
    intros [= H%negb_false_iff%Z.eqb_eq]. f_equal. apply negb_false_iff, Z.eqb_eq.
    by rewrite <- Hs, (Z.land_comm w), Z.land_assoc, H, Z.land_0_l.
Qed.
Lemma event_fold_left T v l t :
  waiters_ok T l → t ∈ fr_left (event_fold T v l) →
  t ∈ l ∧ event_satisfied (info T t) (want T t) (fr_bits (event_fold T v l)) = Some false.
Proof.
  revert v. induction l as [|x l IH]; intros v Hok; simpl; [by intros ?%not_elem_of_nil|].
  assert (Hok' : waiters_ok T l) by (intros y Hy; apply Hok; by right).
  destruct (event_satisfied_defined (info T x) (want T x) 0 v) as [b Hb]; [apply Hok; by left|].
  rewrite Hb. destruct b; simpl.
  - intros Hin. destruct (IH _ Hok' Hin). split; [by right|done].
  - intros [->|Hin]%elem_of_cons.
    + split; [by left|]. eapply unsatisfied_sub; [apply event_fold_sub|exact Hb].
    + destruct (IH _ Hok' Hin). split; [by right|done].
Qed.

(** ** The scan performs the fold *)

Record scanned (event : ptr) (pre l : list ptr) (v : Z) (s s' : kstate) : Prop := {
  sc_wf : wf s';
  sc_bits : k_events s' = <[event := fr_bits (event_fold (k_threads s) v l)]> (k_events s);
  sc_queue : Store.nodes (k_tlists s') (HSuspend event)
    = pre ++ fr_left (event_fold (k_threads s) v l);
  sc_lists : ∀ h, is_wait h → h ≠ HSuspend event →
    Store.nodes (k_tlists s') h = Store.nodes (k_tlists s) h;
  sc_served : ∀ t g, (t, g) ∈ fr_served (event_fold (k_threads s) v l) →
    ∃ th, k_threads s !! t = Some th ∧
      k_threads s' !! t = Some (set_th_stat RT_THREAD_READY (set_th_event_set g th));
  sc_threads : ∀ t, t ∉ (fr_served (event_fold (k_threads s) v l)).*1 →
    k_threads s' !! t = k_threads s !! t;
  sc_lock : k_lock_nest s' = k_lock_nest s;
  sc_mask : k_primask s' = k_primask s
}.

Definition put_bits (event v : Z) (s : kstate) : kstate := set_k_events (<[event:=v]> (k_events s)) s.

Definition event_scan_step (event t : ptr) (v : Z) (th : rt_thread) (s : kstate) : kstate :=
  let g := got (th_event_info th) (th_event_set th) v in
  wake t (set_th_event_set g th) (put_bits event (consume (th_event_info th) g v) s).

Lemma set_event_set_id th : set_th_event_set (th_event_set th) th = th.
Proof. by destruct th. Qed.

(** The first thread of the rest of the queue is served. *)
Lemma event_scan_served event t l b s v th :
  wf s → k_events s !! event = Some v → k_threads s !! t = Some th →
  th_stat th = RT_THREAD_SUSPEND →
  event_satisfied (th_event_info th) (th_event_set th) v = Some true →
  event_scan event (t :: l) b s = event_scan event l true (event_scan_step event t v th s).
Proof.
  intros Hwf Hv Ht Hs Hsat. cbn [event_scan]. do 2 kstep. rewrite Hsat.
  set (g := got (th_event_info th) (th_event_set th) v).
  assert (H1 : when (negb (flag_on (th_event_info th) RT_EVENT_FLAG_AND))
    (upd_thread t (λ x, set_th_event_set (Z.land (th_event_set x) v) x)) s
    = Ok (put_thread t (set_th_event_set g th) s) tt).
  { unfold g, got. destruct (flag_on _ _); cbn [negb when]; [|by rewrite (upd_thread_ok _ _ _ th)].
    rewrite set_event_set_id. unfold put_thread. rewrite insert_id by done. reflexivity. }
  erewrite bind_ok by exact H1. kstep. cbn [th_event_info th_event_set set_th_event_set].
  assert (H2 : when (flag_on (th_event_info th) RT_EVENT_FLAG_CLEAR)
    (put_event event (Z.land v (Z.lnot g))) (put_thread t (set_th_event_set g th) s)
    = Ok (put_thread t (set_th_event_set g th) (put_bits event (consume (th_event_info th) g v) s)) tt).
  { clear H1. unfold consume. clearbody g.
    destruct (flag_on (th_event_info th) RT_EVENT_FLAG_CLEAR); cbn [when]; [reflexivity|].
    unfold put_bits. rewrite insert_id by done. reflexivity. }
  erewrite bind_ok by exact H2.
  erewrite bind_ok; [reflexivity|]. eapply rt_thread_resume_wake; [|exact Ht|done..].
  by apply (wf_ext s).
Qed.

(** The state after one service, seen from the rest of the queue. *)
Lemma scan_step_facts event pre t l v th s :
  wf s → k_threads s !! t = Some th → th_stat th = RT_THREAD_SUSPEND →
  Store.nodes (k_tlists s) (HSuspend event) = pre ++ t :: l →
  let s1 := event_scan_step event t v th s in
  wf s1 ∧ Store.nodes (k_tlists s1) (HSuspend event) = pre ++ l ∧
  (∀ y, y ∈ l → k_threads s1 !! y = k_threads s !! y) ∧ t ∉ l.
Proof.
  intros Hwf Ht Hs Hq s1.
  assert (Hnd : NoDup (pre ++ t :: l)) by (rewrite <- Hq; apply (wf_lists _ Hwf)).
  apply list.NoDup_app in Hnd as (_ & Hpre & [Htl _]%list.NoDup_cons).
  split; [|split; [|split; [|done]]].
  - eapply wake_wf; [by apply (wf_ext s)|exact Ht|done..].
  - unfold s1, event_scan_step. rewrite wake_waiters by done.
    change (k_tlists (put_bits event _ s)) with (k_tlists s). rewrite Hq, filter_app, filter_cons.
    rewrite decide_False by naive_solver. f_equal; apply filter_id.
    + intros x Hx ->. apply (Hpre t Hx). by left.
    + by intros x Hx ->.
  - intros y Hy. unfold s1, event_scan_step.
    rewrite wake_threads, lookup_insert_ne; [done|by intros ->].
Qed.

Lemma scanned_served event pre t l v th s s' :
  wf s → k_threads s !! t = Some th → th_stat th = RT_THREAD_SUSPEND →
  Store.nodes (k_tlists s) (HSuspend event) = pre ++ t :: l →
  event_satisfied (th_event_info th) (th_event_set th) v = Some true →
  let g := got (th_event_info th) (th_event_set th) v in
  scanned event pre l (consume (th_event_info th) g v) (event_scan_step event t v th s) s' →
  scanned event pre (t :: l) v s s'.
Proof.
  intros Hwf Ht Hs Hq Hsat g [H1 H2 H3 H4 H5 H6 H7 H8].
  destruct (scan_step_facts event pre t l v th s Hwf Ht Hs Hq) as (_ & _ & Hsame & Htl).
  rewrite (event_fold_ext (k_threads s)) in H2, H3, H5, H6 by done.
  assert (Ef : event_fold (k_threads s) v (t :: l) =
    let r := event_fold (k_threads s) (consume (th_event_info th) g v) l in
    mk_fold (fr_bits r) ((t, g) :: fr_served r) (fr_left r)).
  { cbn [event_fold]. unfold info, want. rewrite Ht. cbn [from_option]. by rewrite Hsat. }
  assert (HT1 : ∀ y, y ≠ t → k_threads (event_scan_step event t v th s) !! y = k_threads s !! y).
  { intros y Hy. unfold event_scan_step. by rewrite wake_threads, lookup_insert_ne. }
  assert (Hns : ∀ y, y ∈ (fr_served (event_fold (k_threads s) (consume (th_event_info th) g v) l)).*1 → y ∈ l).
  { intros y ([y' g'] & -> & Hin)%list_elem_of_fmap. by eapply event_fold_served. }
  split; rewrite ?Ef; cbn [fr_bits fr_served fr_left fmap list_fmap fst]; try done.
  - rewrite H2. cbn. by rewrite insert_insert_eq.
  - intros h Hh Hne. rewrite H4 by done. unfold event_scan_step. rewrite wake_waiters by done.
    apply filter_id. intros x Hx ->. apply Hne.
    eapply (Store.wf_disjoint _ (lo_wf _ _ (wf_lists _ Hwf))); [exact Hx|].
    rewrite Hq. apply elem_of_app. right; left.
  - intros y gy [[= -> ->]|Hin]%elem_of_cons.
    + exists th. split; [done|]. rewrite H6; [|by intros ?%Hns].
      unfold event_scan_step. by rewrite wake_threads, lookup_insert_eq.
    + destruct (H5 y gy Hin) as (x & Hx & ?). exists x. split; [|done].
      rewrite <- Hx. symmetry. apply HT1. intros ->. by apply event_fold_served in Hin.
  - intros y Hy%not_elem_of_cons. rewrite H6 by apply Hy. apply HT1, Hy.
Qed.

Lemma event_scan_ok event pre l b s v :
  wf s → k_events s !! event = Some v → Store.nodes (k_tlists s) (HSuspend event) = pre ++ l →
  waiters_ok (k_threads s) l →
  ∃ s', event_scan event l b s
    = Ok s' (Some (b || bool_decide (fr_served (event_fold (k_threads s) v l) ≠ []))) ∧
    scanned event pre l v s s'.
Proof.
  revert pre b s v. induction l as [|t l IH]; intros pre b s v Hwf Hv Hq Hok.
  { exists s. cbn [event_scan event_fold fr_served].
    rewrite bool_decide_false, orb_false_r by auto. split; [done|].
    split; try done; cbn [event_fold fr_bits fr_served fr_left];
      [by rewrite insert_id|by intros t g ?%not_elem_of_nil]. }
  destruct (wf_wait_thread s (HSuspend event) t Hwf I) as (th & Ht & Hs).
  { rewrite Hq. apply elem_of_app. right; left. }
  assert (Ei : info (k_threads s) t = th_event_info th) by (unfold info; by rewrite Ht).
  assert (Ew : want (k_threads s) t = th_event_set th) by (unfold want; by rewrite Ht).
  assert (Hok' : waiters_ok (k_threads s) l) by (intros y Hy; apply Hok; by right).
  destruct (event_satisfied_defined (info (k_threads s) t) (want (k_threads s) t) 0 v) as [b' Hb];
    [apply Hok; by left|].
  pose proof Hb as Hb'. rewrite Ei, Ew in Hb'. destruct b'.
  - destruct (scan_step_facts event pre t l v th s Hwf Ht Hs Hq) as (Hwf1 & Hq1 & Hsame & Htl).
    destruct (IH pre true _ (consume (th_event_info th) (got (th_event_info th) (th_event_set th) v) v)
      Hwf1) as (s' & Hrun & Hsc); [cbn; by rewrite lookup_insert_eq|done| |].
    { intros y Hy. unfold info, want. rewrite Hsame by done. by apply Hok'. }
    exists s'. rewrite (event_scan_served event t l b s v th) by done. split.
    + etransitivity; [exact Hrun|]. cbn [event_fold]. rewrite Hb; cbn [fr_served].
      rewrite (bool_decide_true (_ :: _ ≠ [])) by done. by rewrite orb_true_r.
    + by apply (scanned_served event pre t l v th s s').
  - assert (Hq' : Store.nodes (k_tlists s) (HSuspend event) = (pre ++ [t]) ++ l)
      by (by rewrite <- app_assoc).
    destruct (IH (pre ++ [t]) b s v Hwf Hv Hq' Hok') as (s' & Hrun & [H1 H2 H3 H4 H5 H6 H7 H8]).
    exists s'. split.
    { cbn [event_scan event_fold]. rewrite Hb; cbn [fr_served]. do 2 kstep. rewrite Hb'. exact Hrun. }
    split; cbn [event_fold]; rewrite ?Hb; cbn [fr_bits fr_served fr_left]; try done.
    by rewrite H3, <- app_assoc.
Qed.

(** ** Sending and receiving *)

(** The event [event] has the bits [v], and no thread waits that the bits
    satisfy. *)
Definition event_ok (s : kstate) (event v : Z) : Prop :=
  k_events s !! event = Some v ∧
  ∀ t, t ∈ Store.nodes (k_tlists s) (HSuspend event) →
    event_satisfied (info (k_threads s) t) (want (k_threads s) t) v = Some false.

Lemma event_ok_waiters s event v :
  event_ok s event v → waiters_ok (k_threads s) (Store.nodes (k_tlists s) (HSuspend event)).
Proof. intros [_ Hw] t Ht. apply (event_satisfied_defined _ _ v). rewrite Hw by done. eauto. Qed.

Lemma put_bits_mask event v s :
  put_bits event v (set_k_primask 1 s) = set_k_primask 1 (put_bits event v s).
Proof. reflexivity. Qed.

(** A thread that is still queued was not served. *)
Lemma event_fold_disjoint T v l t :
  NoDup l → t ∈ fr_left (event_fold T v l) → t ∉ (fr_served (event_fold T v l)).*1.
Proof.
  revert v. induction l as [|x l IH]; intros v Hnd; [by intros ?%not_elem_of_nil|].
  apply list.NoDup_cons in Hnd as [Hx Hnd]. cbn [event_fold].
  assert (Hin : ∀ w, t ∈ fr_left (event_fold T w l) → t ∈ l).
  { clear. induction l as [|y l IH]; intros w; cbn [event_fold]; [done|].
    destruct (event_satisfied _ _ _) as [[]|]; cbn [fr_left].
    - intros. right. eauto.
    - intros [->|?]%elem_of_cons; [by left|right; eauto].
    - intros [->|?]%elem_of_cons; [by left|right; eauto]. }
  assert (Hserved : ∀ w, x ∉ (fr_served (event_fold T w l)).*1).
  { intros w ([y g] & -> & Hy)%list_elem_of_fmap. by apply event_fold_served in Hy. }
  destruct (event_satisfied _ _ _) as [[]|]; cbn [fr_left fr_served fmap list_fmap fst].
  - intros Ht. apply not_elem_of_cons. split; [intros ->; by apply Hx, (Hin _ Ht)|by apply IH].
  - intros [->|Ht]%elem_of_cons; [apply Hserved|by apply IH].
  - intros [->|Ht]%elem_of_cons; [apply Hserved|by apply IH].
Qed.

(** C31: [rt_event_send] adds its bits and serves, in queue order, exactly the
    waiters the bits still satisfy: an AND waiter gets all the bits it asked
    for, an OR waiter the ones that are set, a CLEAR waiter consumes what it
    got before the next is looked at. Each served thread becomes ready with
    what it got recorded; everyone else waits on as before, and no thread is
    left waiting for bits that are there. *)
Theorem rt_event_send_serves s event x v set :
  wf s → valid s event RT_Object_Class_Event x → event_ok s event v → set ≠ 0 →
  let r := event_fold (k_threads s) (Z.lor v set) (Store.nodes (k_tlists s) (HSuspend event)) in
  ∃ s', rt_event_send event set s = Ok s' RT_EOK ∧ wf s' ∧ event_ok s' event (fr_bits r) ∧
    Store.nodes (k_tlists s') (HSuspend event) = fr_left r ∧
    (∀ t g, (t, g) ∈ fr_served r → ∃ th, k_threads s !! t = Some th ∧
       k_threads s' !! t = Some (set_th_stat RT_THREAD_READY (set_th_event_set g th))) ∧
    (∀ t, t ∉ (fr_served r).*1 → k_threads s' !! t = k_threads s !! t) ∧
    (∀ o, o ≠ event → k_events s' !! o = k_events s !! o) ∧
    (∀ h, is_wait h → h ≠ HSuspend event →
       Store.nodes (k_tlists s') h = Store.nodes (k_tlists s) h).
Proof.
  intros Hwf Hv Hok Hset r. pose proof (event_ok_waiters _ _ _ Hok) as Hw.
  destruct Hok as [He _].
  set (s0 := put_bits event (Z.lor v set) (set_k_primask 1 s)).
  destruct (event_scan_ok event [] (Store.nodes (k_tlists s) (HSuspend event)) false s0 (Z.lor v set))
    as (s1 & Hrun & [H1 H2 H3 H4 H5 H6 H7 H8]);
    [by apply (wf_ext s)|cbn; by rewrite lookup_insert_eq|done|done|].
  change (k_threads s0) with (k_threads s) in *. change (k_tlists s0) with (k_tlists s) in *.
  fold r in Hrun, H2, H3, H5, H6.
  set (b := bool_decide (fr_served r ≠ [])) in Hrun.
  set (s2 := set_k_primask (k_primask s) s1).
  assert (Hfin : when b rt_schedule s2 = Ok (if b then schedule s2 else s2) tt).
  { destruct b; cbn [when]; [|done]. apply rt_schedule_wf. by apply wf_primask. }
  assert (Hsame : wf (if b then schedule s2 else s2) ∧
    k_events (if b then schedule s2 else s2) = k_events s1 ∧
    k_tlists (if b then schedule s2 else s2) = k_tlists s1 ∧
    k_threads (if b then schedule s2 else s2) = k_threads s1).
  { pose proof (wf_primask (k_primask s) _ H1). destruct b; [|done].
    split; [by apply wf_schedule|done]. }
  destruct Hsame as (Hwf' & E1 & E2 & E3).
  exists (if b then schedule s2 else s2). split.
  { unfold rt_event_send. kstep. rewrite (proj2 (Z.eqb_neq _ _) Hset). do 4 kstep.
    etransitivity; [erewrite bind_ok by exact Hrun; reflexivity|]. kstep. cbn [orb].
    etransitivity; [erewrite bind_ok by exact Hfin; reflexivity|]. reflexivity. }
  clearbody s2. revert E1 E2 E3 Hwf'. generalize (if b then schedule s2 else s2) as s3.
  intros s3 E1 E2 E3 Hwf'. rewrite <- E1 in H2. rewrite <- E2 in H3, H4. rewrite <- E3 in H5, H6.
  split; [done|]. split.
  - split; [by rewrite H2, lookup_insert_eq|]. rewrite H3. cbn [app]. intros t Ht.
    destruct (event_fold_left _ _ _ _ Hw Ht) as [_ Hleft].
    unfold info, want in *. rewrite H6; [exact Hleft|].
    apply event_fold_disjoint; [apply (wf_lists _ Hwf)|exact Ht].
  - split; [exact H3|]. split; [exact H5|]. split; [exact H6|]. split; [|exact H4].
    intros o Ho. rewrite H2. cbn. by rewrite !lookup_insert_ne.
Qed.

Lemma event_ok_sub s event v w :
  event_ok s event v → Z.land w v = w → event_ok (put_bits event w s) event w.
Proof.
  intros [_ Hw] Hs. split; [cbn; by rewrite lookup_insert_eq|].
  intros t Ht. eapply unsatisfied_sub; [exact Hs|by apply Hw].
Qed.

(** What the caller of [rt_event_recv] records about its wait. *)
Definition event_request (set option : Z) (th : rt_thread) : rt_thread :=
  set_th_event_info option (set_th_event_set set (set_th_error RT_EOK th)).

Lemma event_ok_put s event v t th th' :
  caller s t th → event_ok s event v → event_ok (put_thread t th' s) event v.
Proof.
  intros Hc [He Hw]. split; [done|]. intros u Hu. specialize (Hw u Hu). unfold info, want in *.
  cbn. rewrite lookup_insert_ne; [done|]. intros <-.
  by apply (caller_not_waiting _ _ _ (HSuspend event) Hc) in Hu.
Qed.

Lemma rt_event_recv_ok s t th event x v set option timeout :
  caller s t th → valid s event RT_Object_Class_Event x → ipc_flag (obj_flag x) →
  time_ok timeout → k_events s !! event = Some v → set ≠ 0 →
  is_Some (event_satisfied option set v) →
  rt_event_recv event set option timeout s =
    if default false (event_satisfied option set v) then
      Ok (put_bits event (consume option set v)
            (put_thread t (event_request (Z.land v set) option th) s))
         (Done (RT_EOK, Some (Z.land v set)))
    else if timeout =? 0 then
      Ok (put_thread t (set_th_error (- RT_ETIMEOUT) th) s) (Done (- RT_ETIMEOUT, None))
    else Ok (block (HSuspend event) t (event_request set option th) (obj_flag x) timeout
               (put_thread t (event_request set option th) s)) (Wait t).
Proof.
  intros Hca Hv Hf Htime He Hset [b Hb]. unfold rt_event_recv.
  erewrite bind_ok by (apply (caller_context s t th (k_primask s)); done).
  erewrite bind_ok by (by eapply valid_assert). rewrite (proj2 (Z.eqb_neq _ _) Hset). kstep.
  cbn [k_current set_k_primask]. rewrite (ca_self _ _ _ Hca).
  erewrite bind_ok by (apply upd_thread_ok; apply (ca_thread _ _ _ Hca)). do 2 kstep.
  rewrite Hb. cbn [default from_option id]. destruct b; [|destruct (timeout =? 0)].
  - do 2 kstep.
    assert (Hw : ∀ s0, k_events s0 !! event = Some v →
      when (flag_on option RT_EVENT_FLAG_CLEAR) (put_event event (Z.land v (Z.lnot set))) s0
      = Ok (put_bits event (consume option set v) s0) tt).
    { intros s0 Hs0. unfold consume. destruct (flag_on _ _); cbn [when]; [reflexivity|].
      unfold put_bits. rewrite insert_id by done. reflexivity. }
    erewrite bind_ok by (by apply Hw). do 2 kstep.
    unfold rt_hw_interrupt_enable, mret, ST_ret, put_bits, put_thread; cbn.
    rewrite !insert_insert_eq. reflexivity.
  - do 2 kstep. unfold mret, ST_ret, put_thread; cbn. rewrite !insert_insert_eq. reflexivity.
  - do 2 kstep. erewrite bind_ok by (eapply valid_get; exact Hv).
    unfold event_request at 1. 
    assert (Hc1 : caller (put_thread t (event_request set option th) (set_k_primask 1 s)) t
      (event_request set option th)) by (eapply caller_put; [by apply caller_primask|done]).
    etransitivity; [|exact (ipc_block_bind (put_thread t (event_request set option th) (set_k_primask 1 s))
      (HSuspend event) t _ (obj_flag x) timeout (k_primask s) (mret (Wait t)) Hc1 I Hf Htime)].
    f_equal. unfold put_thread; cbn. by rewrite !insert_insert_eq.
Qed.

(** C32: [rt_event_recv], asked for all or any of the bits [set]: if the bits are
    there it returns [RT_EOK] with those of [set] that are on, and consumes
    [set] when told to clear; otherwise it fails at once with [-RT_ETIMEOUT]
    when told not to wait, leaving the event alone, and else leaves the caller
    suspended in the queue, its request recorded where [rt_event_send] looks
    for it. In every case no thread is left waiting for bits that are there. *)
Theorem rt_event_recv_spec s t th event x v set option timeout :
  caller s t th → valid s event RT_Object_Class_Event x → ipc_flag (obj_flag x) →
  time_ok timeout → event_ok s event v → set ≠ 0 → is_Some (event_satisfied option set v) →
  ∃ s' out, rt_event_recv event set option timeout s = Ok s' out ∧ running s' ∧
    match event_satisfied option set v with
    | Some true => out = Done (RT_EOK, Some (Z.land v set)) ∧
        event_ok s' event (consume option set v) ∧
        Store.nodes (k_tlists s') (HSuspend event) = Store.nodes (k_tlists s) (HSuspend event)
    | _ => event_ok s' event v ∧
        if timeout =? 0 then out = Done (- RT_ETIMEOUT, None) ∧
          Store.nodes (k_tlists s') (HSuspend event) = Store.nodes (k_tlists s) (HSuspend event)
        else out = Wait t ∧ k_current s' ≠ t ∧
          Store.nodes (k_tlists s') (HSuspend event)
            = wait_insert (obj_flag x) (k_threads s) (th_current_priority th) t
                (Store.nodes (k_tlists s) (HSuspend event)) ∧
          info (k_threads s') t = option ∧ want (k_threads s') t = set
    end.
Proof.
  intros Hca Hv Hf Htime Hok Hset Hsat.
  rewrite (rt_event_recv_ok s t th event x v set option timeout) by (done || apply Hok).
  destruct Hsat as [b Hb]. rewrite Hb. cbn [default from_option id].
  assert (Hput : ∀ th', th_core th' = th_core th →
    caller (put_thread t th' s) t th' ∧ event_ok (put_thread t th' s) event v).
  { intros th' E. split; [by eapply caller_put|by eapply event_ok_put]. }
  destruct b; [|destruct (timeout =? 0)].
  - destruct (Hput (event_request (Z.land v set) option th) eq_refl) as [Hc' Hok'].
    eexists _, _. split; [done|]. split; [|split; [done|split; [|done]]].
    + destruct (ca_running _ _ _ Hc') as (Hwf & Hrest). split; [by apply (wf_ext _ _ Hwf)|exact Hrest].
    + eapply event_ok_sub; [exact Hok'|apply consume_sub].
  - destruct (Hput (set_th_error (- RT_ETIMEOUT) th) eq_refl) as [Hc' Hok'].
    eexists _, _. split; [done|]. split; [apply Hc'|]. done.
  - destruct (Hput (event_request set option th) eq_refl) as [Hc' Hok'].
    set (s1 := put_thread t (event_request set option th) s) in *.
    set (rq := event_request set option th) in *.
    pose proof (block_blocked s1 t rq (HSuspend event) (obj_flag x) timeout Hc' I Htime) as Hbl.
    revert Hbl. generalize (block (HSuspend event) t rq (obj_flag x) timeout s1) as s2.
    intros s2 Hbl. pose proof (bl_thread _ _ _ _ _ _ Hbl) as Hthr.
    assert (Hi : info (k_threads s2) t = option) by (unfold info; by rewrite Hthr).
    assert (Hw : want (k_threads s2) t = set) by (unfold want; by rewrite Hthr).
    exists s2, (Wait t). split; [done|]. split; [apply Hbl|]. split; [split|].
    + rewrite (bl_events _ _ _ _ _ _ Hbl). apply Hok'.
    + intros u Hu. destruct (decide (u = t)) as [->|Hne]; [by rewrite Hi, Hw|].
      destruct (blocked_waiter _ _ _ _ _ _ _ Hbl Hu) as [|Hu']; [done|].
      unfold info, want. rewrite (bl_threads _ _ _ _ _ _ Hbl) by done. by apply Hok'.
    + split; [done|]. split; [apply Hbl|]. split; [|done].
      rewrite (bl_queue _ _ _ _ _ _ Hbl). by apply (wait_insert_put s t th).
Qed.
