(* ===== verification/Mailbox.v ===== *)
(** * Mailboxes ([ipc.c]) *)

From Stdlib Require Import ZArith Lia.
From stdpp Require Import base gmap list fin_maps.
From S2P Require Import RTThread.
From S2P Require Import Prelude.
From S2P Require Import ListModel.
From S2P Require Import Kernel.
From S2P Require Import Kservice.
From S2P Require Import Scheduler.
From S2P Require Import Object.
From S2P Require Import TimerCore.
From S2P Require Import ThreadCore.
From S2P Require Import Timer.
From S2P Require Import Invariant.
From S2P Require Import Thread.
From S2P Require Import IpcList.

(** [msgpool] is the array the caller provides. *)
Definition rt_mb_init (mb : ptr) (name : list Z) (msgpool : list Z) (size flag : Z) : K Z :=
  rt_assert (negb (mb =? RT_NULL));;
  rt_object_init mb RT_Object_Class_MailBox name;;
  set_object_flag mb flag;;
  rt_ipc_object_init mb;;
  modify (λ s, set_k_mailboxes
    (<[mb := mk_mailbox msgpool (u16 size) 0 0 0]> (k_mailboxes s)) s);;
  tlist_init (HSender mb);;
  mret RT_EOK.

Definition rt_mb_detach (mb : ptr) : K Z :=
  assert_static mb RT_Object_Class_MailBox;;
  rt_ipc_list_resume_all (HSuspend mb);;
  rt_ipc_list_resume_all (HSender mb);;
  rt_object_detach mb;;
  mret RT_EOK.

(** [pool] is the array the second allocation returns, [None] if it fails. *)
Definition rt_mb_create (mem : ptr) (name : list Z) (size : Z) (pool : option (list Z))
    (flag : Z) : K ptr :=
  RT_DEBUG_NOT_IN_INTERRUPT;;
  mb ← rt_object_allocate mem RT_Object_Class_MailBox name;
  if mb =? RT_NULL then mret mb
  else
    set_object_flag mb flag;;
    rt_ipc_object_init mb;;
    match pool with
    | None => rt_object_delete mb;; mret RT_NULL
    | Some msg_pool =>
        modify (λ s, set_k_mailboxes
          (<[mb := mk_mailbox msg_pool (u16 size) 0 0 0]> (k_mailboxes s)) s);;
        tlist_init (HSender mb);;
        mret mb
    end.

Definition rt_mb_delete (mb : ptr) : K Z :=
  RT_DEBUG_NOT_IN_INTERRUPT;;
  assert_dynamic mb RT_Object_Class_MailBox;;
  rt_ipc_list_resume_all (HSuspend mb);;
  rt_ipc_list_resume_all (HSender mb);;
  rt_object_delete mb;;
  mret RT_EOK.

(** The local variables a suspended sender or receiver keeps. *)
Record wait_locals : Set := mk_wait { w_thread : ptr; w_timeout : Z; w_tick_delta : Z }.

(** [msg_pool[i] = value] and its read; an index outside the array is a fault. *)
Definition mb_store (mb i value : Z) : K unit :=
  m ← get_mailbox mb;
  if (0 <=? i) && (i <? Z.of_nat (length (mb_msg_pool m))) then
    upd_mailbox mb (set_mb_msg_pool (<[Z.to_nat i := value]> (mb_msg_pool m)))
  else fail FNull.
Definition mb_load (mb i : Z) : K Z :=
  m ← get_mailbox mb;
  if 0 <=? i then from_option_or FNull (mb_msg_pool m !! Z.to_nat i) else fail FNull.

(** Storing the mail once there is room, and waking a receiver. *)
Definition mb_deposit (mb value temp : Z) : K Z :=
  m ← get_mailbox mb;
  mb_store mb (mb_in_offset m) value;;
  upd_mailbox mb (λ m, set_mb_in_offset (u16 (mb_in_offset m + 1)) m);;
  m ← get_mailbox mb;
  when (mb_size m <=? mb_in_offset m) (upd_mailbox mb (set_mb_in_offset 0));;
  if mb_entry m <? RT_MB_ENTRY_MAX then
    upd_mailbox mb (λ m, set_mb_entry (u16 (mb_entry m + 1)) m);;
    empty ← tlist_isempty (HSuspend mb);
    if negb empty then
      rt_ipc_list_resume (HSuspend mb);;
      rt_hw_interrupt_enable temp;;
      rt_schedule;;
      mret RT_EOK
    else
      rt_hw_interrupt_enable temp;;
      mret RT_EOK
  else
    rt_hw_interrupt_enable temp;;
    mret (- RT_EFULL).

(** One test of [while (mb->entry == mb->size)]: deposit, give up or wait. *)
Definition mb_send_turn (mb value : Z) (w : wait_locals) (temp : Z)
    : K (outcome Z wait_locals) :=
  m ← get_mailbox mb;
  if mb_entry m =? mb_size m then
    upd_thread (w_thread w) (set_th_error RT_EOK);;
    if w_timeout w =? 0 then
      rt_hw_interrupt_enable temp;;
      mret (Done (- RT_EFULL))
    else
      RT_DEBUG_IN_THREAD_CONTEXT;;
      o ← get_object mb;
      rt_ipc_list_suspend (HSender mb) (w_thread w) (obj_flag o);;
      tick_delta ← (if 0 <? w_timeout w then
                      tick ← rt_tick_get;
                      start_thread_timer (w_thread w) (w_timeout w);;
                      mret tick
                    else mret (w_tick_delta w));
      rt_hw_interrupt_enable temp;;
      rt_schedule;;
      mret (Wait (mk_wait (w_thread w) (w_timeout w) tick_delta))
  else
    r ← mb_deposit mb value temp;
    mret (Done r).

Definition rt_mb_send_wait (mb value timeout : Z) : K (outcome Z wait_locals) :=
  assert_class mb RT_Object_Class_MailBox;;
  thread ← rt_thread_self;
  temp ← rt_hw_interrupt_disable;
  m ← get_mailbox mb;
  if (mb_entry m =? mb_size m) && (timeout =? 0) then
    rt_hw_interrupt_enable temp;;
    mret (Done (- RT_EFULL))
  else mb_send_turn mb value (mk_wait thread timeout 0) temp.

Definition rt_mb_send_resumed (mb value : Z) (w : wait_locals) : K (outcome Z wait_locals) :=
  th ← get_thread (w_thread w);
  if negb (th_error th =? RT_EOK) then mret (Done (th_error th))
  else
    temp ← rt_hw_interrupt_disable;
    timeout ← remaining_time (w_timeout w) (w_tick_delta w);
    mb_send_turn mb value (mk_wait (w_thread w) timeout (w_tick_delta w)) temp.

Definition rt_mb_send (mb value : Z) : K (outcome Z wait_locals) := rt_mb_send_wait mb value 0.

(** Taking the oldest mail, and waking a sender. *)
Definition mb_collect (mb temp : Z) : K Z :=
  m ← get_mailbox mb;
  value ← mb_load mb (mb_out_offset m);
  upd_mailbox mb (λ m, set_mb_out_offset (u16 (mb_out_offset m + 1)) m);;
  m ← get_mailbox mb;
  when (mb_size m <=? mb_out_offset m) (upd_mailbox mb (set_mb_out_offset 0));;
  when (0 <? mb_entry m)
    (upd_mailbox mb (λ m, set_mb_entry (u16 (mb_entry m - 1)) m));;
  empty ← tlist_isempty (HSender mb);
  (if negb empty then
     rt_ipc_list_resume (HSender mb);;
     rt_hw_interrupt_enable temp;;
     rt_schedule
   else rt_hw_interrupt_enable temp);;
  mret value.

(** A turn of the receive loop. The result is the error code and the mail. *)
Definition mb_recv_turn (mb : ptr) (w : wait_locals) (temp : Z)
    : K (outcome (Z * option Z) wait_locals) :=
  m ← get_mailbox mb;
  if mb_entry m =? 0 then
    upd_thread (w_thread w) (set_th_error RT_EOK);;
    if w_timeout w =? 0 then
      rt_hw_interrupt_enable temp;;
      upd_thread (w_thread w) (set_th_error (- RT_ETIMEOUT));;
      mret (Done (- RT_ETIMEOUT, None))
    else
      RT_DEBUG_IN_THREAD_CONTEXT;;
      o ← get_object mb;
      rt_ipc_list_suspend (HSuspend mb) (w_thread w) (obj_flag o);;
      tick_delta ← (if 0 <? w_timeout w then
                      tick ← rt_tick_get;
                      start_thread_timer (w_thread w) (w_timeout w);;
                      mret tick
                    else mret (w_tick_delta w));
      rt_hw_interrupt_enable temp;;
      rt_schedule;;
      mret (Wait (mk_wait (w_thread w) (w_timeout w) tick_delta))
  else
    value ← mb_collect mb temp;
    mret (Done (RT_EOK, Some value)).

Definition rt_mb_recv (mb timeout : Z) : K (outcome (Z * option Z) wait_locals) :=
  assert_class mb RT_Object_Class_MailBox;;
  thread ← rt_thread_self;
  temp ← rt_hw_interrupt_disable;
  m ← get_mailbox mb;
  if (mb_entry m =? 0) && (timeout =? 0) then
    rt_hw_interrupt_enable temp;;
    mret (Done (- RT_ETIMEOUT, None))
  else mb_recv_turn mb (mk_wait thread timeout 0) temp.

Definition rt_mb_recv_resumed (mb : ptr) (w : wait_locals)
    : K (outcome (Z * option Z) wait_locals) :=
  th ← get_thread (w_thread w);
  if negb (th_error th =? RT_EOK) then mret (Done (th_error th, None))
  else
    temp ← rt_hw_interrupt_disable;
    timeout ← remaining_time (w_timeout w) (w_tick_delta w);
    mb_recv_turn mb (mk_wait (w_thread w) timeout (w_tick_delta w)) temp.

Definition rt_mb_control (mb cmd arg : Z) : K Z :=
  assert_class mb RT_Object_Class_MailBox;;
  if cmd =? RT_IPC_CMD_RESET then
    level ← rt_hw_interrupt_disable;
    rt_ipc_list_resume_all (HSuspend mb);;
    rt_ipc_list_resume_all (HSender mb);;
    upd_mailbox mb (set_mb_entry 0);;
    upd_mailbox mb (set_mb_in_offset 0);;
    upd_mailbox mb (set_mb_out_offset 0);;
    rt_hw_interrupt_enable level;;
    rt_schedule;;
    mret RT_EOK
  else mret (- RT_ERROR).

(** ** The contract: a bounded queue of mails

    The mails of a mailbox, oldest first: the [entry] slots of the ring from
    [out_offset] on. *)

Definition mb_slot (m : rt_mailbox) (i : nat) : Z := (mb_out_offset m + Z.of_nat i) mod mb_size m.
Definition mb_mail (m : rt_mailbox) (i : nat) : Z :=
  default 0 (mb_msg_pool m !! Z.to_nat (mb_slot m i)).
Definition mb_contents (m : rt_mailbox) : list Z := map (mb_mail m) (seq 0 (Z.to_nat (mb_entry m))).

Record mb_ok (m : rt_mailbox) : Prop := {
  mo_size : 0 < mb_size m < 65536;
  mo_pool : Z.of_nat (length (mb_msg_pool m)) = mb_size m;
  mo_entry : 0 ≤ mb_entry m ≤ mb_size m;
  mo_in : mb_in_offset m = (mb_out_offset m + mb_entry m) mod mb_size m;
  mo_out : 0 ≤ mb_out_offset m < mb_size m
}.

Lemma mb_contents_length m : mb_ok m → Z.of_nat (length (mb_contents m)) = mb_entry m.
Proof. intros [_ _ ? _ _]. unfold mb_contents. rewrite length_map, length_seq. lia. Qed.

Lemma wrap x size : 0 ≤ x < 2 * size → x mod size = if x <? size then x else x - size.
Proof.
  intros Hx. destruct (Z.ltb_spec x size); [apply Z.mod_small; lia|].
  symmetry. apply (Z.mod_unique_pos _ _ 1); lia.
Qed.

(** Advancing an offset, as the code does it. *)
Definition advance (size x : Z) : Z := if size <=? u16 (x + 1) then 0 else u16 (x + 1).
Lemma advance_mod size x : 0 < size < 65536 → 0 ≤ x < size → advance size x = (x + 1) mod size.
Proof.
  intros Hs Hx. unfold advance. rewrite wrap by lia. rewrite u16_wrap by lia.
  destruct (Z.ltb_spec (x + 1) size), (Z.leb_spec size (if x + 1 =? 65536 then 0 else x + 1));
    destruct (Z.eqb_spec (x + 1) 65536); lia.
Qed.

(** The mailbox after a mail is put in, and after the oldest is taken. *)
Definition mb_put (value : Z) (m : rt_mailbox) : rt_mailbox :=
  mk_mailbox (<[Z.to_nat (mb_in_offset m) := value]> (mb_msg_pool m)) (mb_size m)
    (u16 (mb_entry m + 1)) (advance (mb_size m) (mb_in_offset m)) (mb_out_offset m).
Definition mb_get (m : rt_mailbox) : rt_mailbox :=
  mk_mailbox (mb_msg_pool m) (mb_size m) (u16 (mb_entry m - 1)) (mb_in_offset m)
    (advance (mb_size m) (mb_out_offset m)).

Lemma mb_put_ok value m : mb_ok m → mb_entry m < mb_size m → mb_ok (mb_put value m).
Proof.
  intros [Hs Hp He Hi Ho] Hlt.
  assert (Hin : 0 ≤ mb_in_offset m < mb_size m) by (rewrite Hi; apply Z.mod_pos_bound; lia).
  split; cbn; try done.
  - by rewrite length_insert.
  - rewrite u16_small; lia.
  - rewrite advance_mod, Hi, u16_small by lia. rewrite Zplus_mod_idemp_l. f_equal. lia.
Qed.

Lemma mb_put_contents value m :
  mb_ok m → mb_entry m < mb_size m → mb_contents (mb_put value m) = mb_contents m ++ [value].
Proof.
  intros [Hs Hp He Hi Ho] Hlt. unfold mb_contents. cbn [mb_put mb_entry].
  rewrite u16_small by lia. replace (Z.to_nat (mb_entry m + 1)) with (Z.to_nat (mb_entry m) + 1)%nat by lia.
  rewrite seq_app, map_app. cbn [seq map Nat.add]. f_equal.
  - apply map_ext_in. intros i [_ Hi']%in_seq. unfold mb_mail. f_equal. cbn [mb_put mb_msg_pool].
    change (mb_slot (mb_put value m) i) with (mb_slot m i).
    rewrite list_lookup_insert_ne; [done|]. unfold mb_slot.
    rewrite Hi. rewrite !wrap by lia.
    destruct (Z.ltb_spec (mb_out_offset m + mb_entry m) (mb_size m)),
      (Z.ltb_spec (mb_out_offset m + Z.of_nat i) (mb_size m)); lia.
  - f_equal. unfold mb_mail. change (mb_slot (mb_put value m)) with (mb_slot m).
    unfold mb_slot. rewrite Z2Nat.id by lia. cbn [mb_put mb_msg_pool]. rewrite <- Hi.
    assert (0 ≤ mb_in_offset m < mb_size m) by (rewrite Hi; apply Z.mod_pos_bound; lia).
    by rewrite list_lookup_insert_eq by lia.
Qed.

Lemma mb_get_ok m : mb_ok m → 0 < mb_entry m → mb_ok (mb_get m).
Proof.
  intros [Hs Hp He Hi Ho] H0. split; cbn; try done.
  - rewrite u16_small; lia.
  - rewrite advance_mod, Hi, u16_small by lia. rewrite Zplus_mod_idemp_l. f_equal. lia.
  - rewrite advance_mod by lia. apply Z.mod_pos_bound. lia.
Qed.

Lemma mb_get_contents m :
  mb_ok m → 0 < mb_entry m → mb_contents m = mb_mail m 0 :: mb_contents (mb_get m).
Proof.
  intros [Hs Hp He Hi Ho] H0. unfold mb_contents. cbn [mb_get mb_entry]. rewrite u16_small by lia.
  replace (Z.to_nat (mb_entry m)) with (S (Z.to_nat (mb_entry m - 1))) by lia.
  cbn [seq map]. f_equal. rewrite <- seq_shift, map_map. apply map_ext_in. intros i [_ Hi']%in_seq.
  unfold mb_mail. cbn [mb_get mb_msg_pool]. do 3 f_equal. unfold mb_slot. cbn [mb_get mb_out_offset mb_size].
  rewrite advance_mod, Zplus_mod_idemp_l by lia. f_equal. lia.
Qed.

(** ** Putting in and taking out *)

Lemma put_mailbox_twice o a b s : put_mailbox o a (put_mailbox o b s) = put_mailbox o a s.
Proof. unfold put_mailbox. cbn. by rewrite insert_insert_eq. Qed.
Lemma wf_put_mailbox o m s : wf s → wf (put_mailbox o m s).
Proof. intros. by apply (wf_ext s). Qed.
Lemma put_mailbox_lookup o m s : k_mailboxes (put_mailbox o m s) !! o = Some m.
Proof. cbn. by rewrite lookup_insert_eq. Qed.

Lemma mb_deposit_ok s mb m value temp :
  wf s → k_mailboxes s !! mb = Some m → mb_ok m → mb_entry m < mb_size m →
  mb_deposit mb value temp s
  = Ok (wake_first (HSuspend mb) (set_k_primask temp (put_mailbox mb (mb_put value m) s))) RT_EOK.
Proof.
  intros Hwf Hm [Hs Hp He Hi Ho] Hlt. unfold mb_deposit. kstep.
  assert (Hin : 0 ≤ mb_in_offset m < mb_size m) by (rewrite Hi; apply Z.mod_pos_bound; lia).
  assert (Hst : mb_store mb (mb_in_offset m) value s
    = Ok (put_mailbox mb (set_mb_msg_pool (<[Z.to_nat (mb_in_offset m) := value]> (mb_msg_pool m)) m) s) tt).
  { unfold mb_store. kstep. rewrite (proj2 (Z.leb_le _ _)), (proj2 (Z.ltb_lt _ _)) by lia.
    by apply upd_mailbox_ok. }
  rewrite (bind_ok _ _ _ _ _ Hst). do 2 kstep. rewrite put_mailbox_twice.
  cbn [mb_size mb_in_offset mb_entry set_mb_in_offset set_mb_msg_pool].
  set (m1 := set_mb_in_offset _ _).
  assert (Hadv : when (mb_size m <=? u16 (mb_in_offset m + 1)) (upd_mailbox mb (set_mb_in_offset 0))
    (put_mailbox mb m1 s) = Ok (put_mailbox mb (set_mb_in_offset (advance (mb_size m) (mb_in_offset m)) m1) s) tt).
  { unfold advance. destruct (_ <=? _); cbn [when]; [|reflexivity].
    rewrite (upd_mailbox_ok _ _ _ m1) by apply put_mailbox_lookup. by rewrite put_mailbox_twice. }
  rewrite (bind_ok _ _ _ _ _ Hadv). rewrite (proj2 (Z.ltb_lt _ _)) by (unfold RT_MB_ENTRY_MAX; lia).
  erewrite bind_ok by (apply upd_mailbox_ok, put_mailbox_lookup). rewrite put_mailbox_twice. kstep.
  etransitivity; [apply (wake_first_ok _ (HSuspend mb) temp (mret RT_EOK)); [by apply wf_put_mailbox|done]|].
  reflexivity.
Qed.

Lemma mb_collect_ok s mb m temp :
  wf s → k_mailboxes s !! mb = Some m → mb_ok m → 0 < mb_entry m →
  mb_collect mb temp s
  = Ok (wake_first (HSender mb) (set_k_primask temp (put_mailbox mb (mb_get m) s))) (mb_mail m 0).
Proof.
  intros Hwf Hm [Hs Hp He Hi Ho] H0. unfold mb_collect. kstep.
  assert (Hld : mb_load mb (mb_out_offset m) s = Ok s (mb_mail m 0)).
  { unfold mb_load, mb_mail, mb_slot. kstep. rewrite (proj2 (Z.leb_le _ _)) by lia.
    rewrite Z.add_0_r, Z.mod_small by lia.
    destruct (lookup_lt_is_Some_2 (mb_msg_pool m) (Z.to_nat (mb_out_offset m))) as [v ->]; [lia|done]. }
  rewrite (bind_ok _ _ _ _ _ Hld). do 2 kstep.
  cbn [mb_size mb_out_offset mb_entry set_mb_out_offset].
  set (m1 := set_mb_out_offset _ _).
  assert (Hadv : when (mb_size m <=? u16 (mb_out_offset m + 1)) (upd_mailbox mb (set_mb_out_offset 0))
    (put_mailbox mb m1 s) = Ok (put_mailbox mb (set_mb_out_offset (advance (mb_size m) (mb_out_offset m)) m1) s) tt).
  { unfold advance. destruct (_ <=? _); cbn [when]; [|reflexivity].
    rewrite (upd_mailbox_ok _ _ _ m1) by apply put_mailbox_lookup. by rewrite put_mailbox_twice. }
  rewrite (bind_ok _ _ _ _ _ Hadv). rewrite (proj2 (Z.ltb_lt _ _)) by lia. cbn [when].
  erewrite bind_ok by (apply upd_mailbox_ok, put_mailbox_lookup). rewrite put_mailbox_twice. kstep.
  set (s1 := put_mailbox mb _ s).
  pose proof (wake_first_ok s1 (HSender mb) temp (mret (mb_mail m 0))) as Hw.
  transitivity ((if negb (Store.isempty (HSender mb) (k_tlists s1)) then
     rt_ipc_list_resume (HSender mb);; rt_hw_interrupt_enable temp;; rt_schedule;; mret (mb_mail m 0)
   else rt_hw_interrupt_enable temp;; mret (mb_mail m 0)) s1).
  - destruct (negb _); [|reflexivity]. unfold mbind, ST_bind.
    by destruct (rt_ipc_list_resume _ _).
  - rewrite Hw; [reflexivity|by apply wf_put_mailbox|done].
Qed.

(** ** Sending and receiving *)

Lemma caller_put_mailbox s t th v mb m :
  caller s t th → running (set_k_primask v (put_mailbox mb m s)).
Proof.
  intros Hc. destruct (ca_running _ _ _ Hc) as (Hwf & Hrest). split; [by apply (wf_ext s)|exact Hrest].
Qed.

(** The state of [mb] after one waiter of [h] may have been woken. *)
Lemma wake_mailbox s t th mb h m m' :
  caller s t th → is_wait h → k_mailboxes s !! mb = Some m →
  let s' := wake_first h (set_k_primask (k_primask s) (put_mailbox mb m' s)) in
  running s' ∧ k_mailboxes s' = <[mb := m']> (k_mailboxes s) ∧ woken_first h s s'.
Proof.
  intros Hc Hh Hm s'. pose proof (caller_put_mailbox s t th (k_primask s) mb m' Hc) as Hrun.
  pose proof (wake_first_spec h _ (proj1 Hrun) Hh) as Hwo. fold s' in Hwo.
  split; [by apply (wo_running _ _ _ Hwo)|]. split.
  - unfold s'. by destruct (wake_first_frame h (set_k_primask (k_primask s) (put_mailbox mb m' s))) as [-> _].
  - by eapply woken_first_ext.
Qed.

Lemma rt_mb_send_wait_start s mb x m value timeout :
  valid s mb RT_Object_Class_MailBox x → k_mailboxes s !! mb = Some m →
  rt_mb_send_wait mb value timeout s
  = if (mb_entry m =? mb_size m) && (timeout =? 0) then Ok s (Done (- RT_EFULL))
    else mb_send_turn mb value (mk_wait (k_current s) timeout 0) (k_primask s) (set_k_primask 1 s).
Proof.
  intros Hv Hm. unfold rt_mb_send_wait. do 4 kstep. destruct (_ && _); [reflexivity|]. reflexivity.
Qed.

(** C8: [rt_mb_send_wait] implements the sender's side of a bounded queue: while
    the mailbox has a free slot the mail goes behind the others and the first
    waiting receiver, if any, becomes ready; a full mailbox refuses at once
    with [-RT_EFULL] when told not to wait, changing nothing, and otherwise
    leaves the caller suspended among the senders, the mails untouched. *)
Theorem rt_mb_send_refines s t th mb x m value timeout :
  caller s t th → valid s mb RT_Object_Class_MailBox x → ipc_flag (obj_flag x) →
  time_ok timeout → k_mailboxes s !! mb = Some m → mb_ok m →
  ∃ s' out, rt_mb_send_wait mb value timeout s = Ok s' out ∧ running s' ∧
    if Z.of_nat (length (mb_contents m)) <? mb_size m then
      out = Done RT_EOK ∧ woken_first (HSuspend mb) s s' ∧
      ∃ m', k_mailboxes s' = <[mb := m']> (k_mailboxes s) ∧ mb_ok m' ∧ mb_size m' = mb_size m ∧
        mb_contents m' = mb_contents m ++ [value]
    else if timeout =? 0 then out = Done (- RT_EFULL) ∧ s' = s
    else out = Wait (mk_wait t timeout (if 0 <? timeout then k_tick s else 0)) ∧
      blocked (HSender mb) t (set_th_error RT_EOK th) (obj_flag x) (clear_error t th s) s'.
Proof.
  intros Hca Hv Hf Htime Hm Hok. rewrite mb_contents_length by done.
  pose proof (mo_entry _ Hok) as He. rewrite (rt_mb_send_wait_start s mb x m) by done.
  rewrite (ca_self _ _ _ Hca).
  destruct (Z.ltb_spec (mb_entry m) (mb_size m)) as [Hlt|Hge].
  - rewrite (proj2 (Z.eqb_neq _ _)) by lia. cbn [andb].
    destruct (wake_mailbox s t th mb (HSuspend mb) m (mb_put value m) Hca I Hm) as (Hrun & Hmb & Hwo).
    eexists _, _. split.
    { unfold mb_send_turn. kstep. rewrite (proj2 (Z.eqb_neq _ _)) by lia.
      erewrite bind_ok by (apply (mb_deposit_ok _ mb m); [apply wf_primask; by eapply caller_wf|done..]).
      reflexivity. }
    split; [exact Hrun|]. split; [done|]. split; [exact Hwo|].
    exists (mb_put value m). split; [exact Hmb|]. split; [by apply mb_put_ok|]. split; [done|].
    by apply mb_put_contents.
  - rewrite (proj2 (Z.eqb_eq _ _)) by lia. cbn [andb]. destruct (Z.eqb_spec timeout 0) as [->|Hne].
    { eexists _, _. split; [reflexivity|]. split; [apply Hca|done]. }
    pose proof (caller_clear _ _ _ Hca) as Hcb.
    exists (block (HSender mb) t (set_th_error RT_EOK th) (obj_flag x) timeout (clear_error t th s)).
    eexists. split; [|split; [by apply running_block|split; [done|by apply block_blocked]]].
    unfold mb_send_turn. cbn [w_thread w_timeout w_tick_delta]. kstep.
    rewrite (proj2 (Z.eqb_eq _ _)) by lia.
    erewrite bind_ok by (apply upd_thread_ok; apply (ca_thread _ _ _ Hca)).
    rewrite (proj2 (Z.eqb_neq _ _) Hne).
    pose proof (caller_clear _ _ _ (caller_primask _ _ _ 1 Hca)) as Hcc. unfold clear_error in Hcc.
    erewrite bind_ok by (by apply (caller_context _ _ _ 1 Hcc)).
    erewrite bind_ok by (eapply valid_get; exact Hv).
    etransitivity; [by apply (ipc_block_tick _ _ _ (set_th_error RT_EOK th))|]. reflexivity.
Qed.

Lemma rt_mb_recv_start s mb x m timeout :
  valid s mb RT_Object_Class_MailBox x → k_mailboxes s !! mb = Some m →
  rt_mb_recv mb timeout s
  = if (mb_entry m =? 0) && (timeout =? 0) then Ok s (Done (- RT_ETIMEOUT, None))
    else mb_recv_turn mb (mk_wait (k_current s) timeout 0) (k_primask s) (set_k_primask 1 s).
Proof.
  intros Hv Hm. unfold rt_mb_recv. do 4 kstep. destruct (_ && _); [reflexivity|]. reflexivity.
Qed.

(** C9: [rt_mb_recv] implements the receiver's side of the bounded queue: it
    takes the oldest mail, if there is one, and makes the first waiting sender,
    if any, ready; an empty mailbox answers [-RT_ETIMEOUT] at once when told not
    to wait, changing nothing, and otherwise leaves the caller suspended among
    the receivers. *)
Theorem rt_mb_recv_refines s t th mb x m timeout :
  caller s t th → valid s mb RT_Object_Class_MailBox x → ipc_flag (obj_flag x) →
  time_ok timeout → k_mailboxes s !! mb = Some m → mb_ok m →
  ∃ s' out, rt_mb_recv mb timeout s = Ok s' out ∧ running s' ∧
    match mb_contents m with
    | mail :: rest => out = Done (RT_EOK, Some mail) ∧ woken_first (HSender mb) s s' ∧
        ∃ m', k_mailboxes s' = <[mb := m']> (k_mailboxes s) ∧ mb_ok m' ∧
          mb_size m' = mb_size m ∧ mb_contents m' = rest
    | [] =>
        if timeout =? 0 then out = Done (- RT_ETIMEOUT, None) ∧ s' = s
        else out = Wait (mk_wait t timeout (if 0 <? timeout then k_tick s else 0)) ∧
          blocked (HSuspend mb) t (set_th_error RT_EOK th) (obj_flag x) (clear_error t th s) s'
    end.
Proof.
  intros Hca Hv Hf Htime Hm Hok. pose proof (mb_contents_length m Hok) as Hlen.
  pose proof (mo_entry _ Hok) as He. rewrite (rt_mb_recv_start s mb x m) by done.
  rewrite (ca_self _ _ _ Hca).
  destruct (Z.eq_dec (mb_entry m) 0) as [H0|H0].
  - rewrite (proj2 (Z.eqb_eq _ _) H0). rewrite H0 in Hlen. destruct (mb_contents m); [|done].
    destruct (Z.eqb_spec timeout 0) as [->|Hne]; cbn [andb].
    { eexists _, _. split; [reflexivity|]. split; [apply Hca|done]. }
    pose proof (caller_clear _ _ _ Hca) as Hcb.
    exists (block (HSuspend mb) t (set_th_error RT_EOK th) (obj_flag x) timeout (clear_error t th s)).
    eexists. split; [|split; [by apply running_block|split; [done|by apply block_blocked]]].
    unfold mb_recv_turn. cbn [w_thread w_timeout w_tick_delta]. kstep.
    rewrite (proj2 (Z.eqb_eq _ _) H0).
    erewrite bind_ok by (apply upd_thread_ok; apply (ca_thread _ _ _ Hca)).
    rewrite (proj2 (Z.eqb_neq _ _) Hne).
    pose proof (caller_clear _ _ _ (caller_primask _ _ _ 1 Hca)) as Hcc. unfold clear_error in Hcc.
    erewrite bind_ok by (by apply (caller_context _ _ _ 1 Hcc)).
    erewrite bind_ok by (eapply valid_get; exact Hv).
    etransitivity; [by apply (ipc_block_tick _ _ _ (set_th_error RT_EOK th))|]. reflexivity.
  - assert (Hpos : 0 < mb_entry m) by lia. rewrite (mb_get_contents m) by done.
    rewrite (proj2 (Z.eqb_neq _ _) H0). cbn [andb].
    destruct (wake_mailbox s t th mb (HSender mb) m (mb_get m) Hca I Hm) as (Hrun & Hmb & Hwo).
    eexists _, _. split.
    { unfold mb_recv_turn. kstep. rewrite (proj2 (Z.eqb_neq _ _) H0).
      erewrite bind_ok by (apply (mb_collect_ok _ mb m); [apply wf_primask; by eapply caller_wf|done..]).
      reflexivity. }
    split; [exact Hrun|]. split; [done|]. split; [exact Hwo|].
    exists (mb_get m). split; [exact Hmb|]. split; [by apply mb_get_ok|]. done.
Qed.
