(* ===== verification/Chains.v ===== *)
(** * Null-terminated chains

    Singly linked lists through the first word of their nodes: the free list
    and the queue of a message queue, the free list of a memory pool. *)

From Stdlib Require Import ZArith Lia.
From stdpp Require Import base gmap list fin_maps.
From S2P Require Import RTThread.
From S2P Require Import Prelude.

(** [p] points to the first of the nodes [l], each of which holds the address
    of the next, the last [RT_NULL]. *)
Fixpoint chain (next : gmap ptr ptr) (p : ptr) (l : list ptr) : Prop :=
  match l with
  | [] => p = RT_NULL
  | x :: l' => p = x ∧ x ≠ RT_NULL ∧ ∃ y, next !! x = Some y ∧ chain next y l'
  end.

Lemma chain_ext next next' p l :
  (∀ x, x ∈ l → next' !! x = next !! x) → chain next p l → chain next' p l.
Proof.
  revert p. induction l as [|x l IH]; intros p He; simpl; [done|].
  intros (-> & Hx & y & Hy & Hl). split; [done|]. split; [done|]. exists y.
  rewrite He by (by left). split; [done|]. apply IH; [|done]. intros. apply He. by right.
Qed.
Lemma chain_nonnull next p l x : chain next p l → x ∈ l → x ≠ RT_NULL.
Proof.
  revert p. induction l as [|y l IH]; intros p; simpl; [by intros _ ?%not_elem_of_nil|].
  intros (_ & Hy & z & _ & Hl) [->|Hin]%elem_of_cons; [done|eauto].
Qed.
Lemma chain_null next p l : chain next p l → p = RT_NULL ↔ l = [].
Proof. destruct l; simpl; [done|]. intros (-> & ? & _). naive_solver. Qed.
Lemma chain_lookup next p l x : chain next p l → x ∈ l → is_Some (next !! x).
Proof.
  revert p. induction l as [|y l IH]; intros p; simpl; [by intros _ ?%not_elem_of_nil|].
  intros (_ & _ & z & Hz & Hl) [->|Hin]%elem_of_cons; eauto.
Qed.

(** A new first node. *)
Lemma chain_push next p l x :
  chain next p l → x ∉ l → x ≠ RT_NULL → chain (<[x := p]> next) x (x :: l).
Proof.
  intros Hc Hx Hn. cbn. split; [done|]. split; [done|]. exists p. rewrite lookup_insert_eq.
  split; [done|]. eapply chain_ext; [|exact Hc]. intros y Hy. apply lookup_insert_ne. by intros <-.
Qed.
