(* ===== verification/MessageQueue.v ===== *)
(** * Message queues ([ipc.c]): messages are nodes of a pool, chained by their [next] field *)

From Stdlib Require Import ZArith Lia.
From stdpp Require Import base gmap list fin_maps.
From S2P Require Import RTThread.
From S2P Require Import Prelude.
From S2P Require Import ListModel.
From S2P Require Import Kernel.
From S2P Require Import Kservice.
From S2P Require Import Scheduler.
From S2P Require Import Object.
From S2P Require Import TimerCore.
From S2P Require Import ThreadCore.
From S2P Require Import Timer.
From S2P Require Import Invariant.
From S2P Require Import Preemption.
From S2P Require Import Registry.
From S2P Require Import Thread.
From S2P Require Import IpcList.
From S2P Require Import Mailbox.
From S2P Require Import Chains.

(** [msg->next] and its assignment; the payload after the header. *)
Definition mq_get_next (mq msg : ptr) : K ptr :=
  m ← get_mq mq; from_option_or FNull (mq_next m !! msg).
Definition mq_set_next (mq msg next : ptr) : K unit :=
  m ← get_mq mq;
  match mq_next m !! msg with
  | Some _ => upd_mq mq (set_mq_next (<[msg := next]> (mq_next m)))
  | None => fail FNull
  end.
(** [rt_memcpy(msg + 1, buffer, size)] and [rt_memcpy(buffer, msg + 1, n)]. *)
Definition mq_write (mq msg : ptr) (buffer : list Z) (size : Z) : K unit :=
  m ← get_mq mq;
  d ← from_option_or FNull (mq_data m !! msg);
  upd_mq mq (set_mq_data
    (<[msg := take (Z.to_nat size) buffer ++ drop (Z.to_nat size) d]> (mq_data m))).
Definition mq_read (mq msg n : Z) : K (list Z) :=
  m ← get_mq mq;
  d ← from_option_or FNull (mq_data m !! msg);
  mret (take (Z.to_nat n) d).

(** [sizeof(struct rt_mq_message)]. *)
Definition MQ_HEADER : Z := 4.

(** The loop that chains the pool into the free list, for
    [temp = start, ..., start + n - 1]. *)
Fixpoint mq_free_chain (pool msg_size : Z) (n : nat) (temp : Z)
    (free : ptr) (next : gmap ptr ptr) : ptr * gmap ptr ptr :=
  match n with
  | O => (free, next)
  | S n' =>
      let head := pool + temp * (msg_size + MQ_HEADER) in
      mq_free_chain pool msg_size n' (temp + 1) head (<[head := free]> next)
  end.

(** [data] is the content of the pool's payloads before initialisation. *)
Definition rt_mq_init (mq : ptr) (name : list Z) (msgpool : ptr)
    (data : gmap ptr (list Z)) (msg_size pool_size flag : Z) : K Z :=
  rt_assert (negb (mq =? RT_NULL));;
  rt_object_init mq RT_Object_Class_MessageQueue name;;
  set_object_flag mq flag;;
  rt_ipc_object_init mq;;
  let msg_size' := u16 (RT_ALIGN msg_size RT_ALIGN_SIZE) in
  let max_msgs := u16 (pool_size / (msg_size' + MQ_HEADER)) in
  let '(free, next) := mq_free_chain msgpool msg_size' (Z.to_nat max_msgs) 0 RT_NULL ∅ in
  modify (λ s, set_k_mqs (<[mq :=
    mk_messagequeue msgpool msg_size' max_msgs 0 RT_NULL RT_NULL free next data]>
    (k_mqs s)) s);;
  tlist_init (HSender mq);;
  mret RT_EOK.

Definition rt_mq_detach (mq : ptr) : K Z :=
  assert_static mq RT_Object_Class_MessageQueue;;
  rt_ipc_list_resume_all (HSuspend mq);;
  rt_ipc_list_resume_all (HSender mq);;
  rt_object_detach mq;;
  mret RT_EOK.

(** [msgpool] is the address the second allocation returns. *)
Definition rt_mq_create (mem : ptr) (name : list Z) (msgpool : ptr)
    (data : gmap ptr (list Z)) (msg_size max_msgs flag : Z) : K ptr :=
  RT_DEBUG_NOT_IN_INTERRUPT;;
  mq ← rt_object_allocate mem RT_Object_Class_MessageQueue name;
  if mq =? RT_NULL then mret mq
  else
    set_object_flag mq flag;;
    rt_ipc_object_init mq;;
    let msg_size' := u16 (RT_ALIGN msg_size RT_ALIGN_SIZE) in
    let max_msgs' := u16 max_msgs in
    if msgpool =? RT_NULL then rt_object_delete mq;; mret RT_NULL
    else
      let '(free, next) := mq_free_chain msgpool msg_size' (Z.to_nat max_msgs') 0 RT_NULL ∅ in
      modify (λ s, set_k_mqs (<[mq :=
        mk_messagequeue msgpool msg_size' max_msgs' 0 RT_NULL RT_NULL free next data]>
        (k_mqs s)) s);;
      tlist_init (HSender mq);;
      mret mq.

Definition rt_mq_delete (mq : ptr) : K Z :=
  RT_DEBUG_NOT_IN_INTERRUPT;;
  assert_dynamic mq RT_Object_Class_MessageQueue;;
  rt_ipc_list_resume_all (HSuspend mq);;
  rt_ipc_list_resume_all (HSender mq);;
  rt_object_delete mq;;
  mret RT_EOK.

(** Taking a node off the free list. *)
Definition mq_alloc (mq msg : ptr) : K unit :=
  next ← mq_get_next mq msg;
  upd_mq mq (set_mq_free next).

(** Counting the message and waking a receiver. *)
Definition mq_count_and_wake (mq temp : Z) : K Z :=
  m ← get_mq mq;
  if mq_entry m <? RT_MQ_ENTRY_MAX then
    upd_mq mq (λ m, set_mq_entry (u16 (mq_entry m + 1)) m);;
    empty ← tlist_isempty (HSuspend mq);
    if negb empty then
      rt_ipc_list_resume (HSuspend mq);;
      rt_hw_interrupt_enable temp;;
      rt_schedule;;
      mret RT_EOK
    else
      rt_hw_interrupt_enable temp;;
      mret RT_EOK
  else
    rt_hw_interrupt_enable temp;;
    mret (- RT_EFULL).

(** Filling the free message [msg] and linking it at the tail. *)
Definition mq_enqueue (mq msg : ptr) (buffer : list Z) (size temp : Z) : K Z :=
  mq_alloc mq msg;;
  rt_hw_interrupt_enable temp;;
  mq_set_next mq msg RT_NULL;;
  mq_write mq msg buffer size;;
  temp ← rt_hw_interrupt_disable;
  m ← get_mq mq;
  when (negb (mq_tail m =? RT_NULL)) (mq_set_next mq (mq_tail m) msg);;
  upd_mq mq (set_mq_tail msg);;
  m ← get_mq mq;
  when (mq_head m =? RT_NULL) (upd_mq mq (set_mq_head msg));;
  mq_count_and_wake mq temp.

(** One test of [while ((msg = mq->msg_queue_free) == RT_NULL)]. *)
Definition mq_send_turn (mq : ptr) (buffer : list Z) (size : Z) (w : wait_locals) (temp : Z)
    : K (outcome Z wait_locals) :=
  m ← get_mq mq;
  if mq_free m =? RT_NULL then
    upd_thread (w_thread w) (set_th_error RT_EOK);;
    if w_timeout w =? 0 then
      rt_hw_interrupt_enable temp;;
      mret (Done (- RT_EFULL))
    else
      RT_DEBUG_IN_THREAD_CONTEXT;;
      o ← get_object mq;
      rt_ipc_list_suspend (HSender mq) (w_thread w) (obj_flag o);;
      tick_delta ← (if 0 <? w_timeout w then
                      tick ← rt_tick_get;
                      start_thread_timer (w_thread w) (w_timeout w);;
                      mret tick
                    else mret (w_tick_delta w));
      rt_hw_interrupt_enable temp;;
      rt_schedule;;
      mret (Wait (mk_wait (w_thread w) (w_timeout w) tick_delta))
  else
    r ← mq_enqueue mq (mq_free m) buffer size temp;
    mret (Done r).

Definition rt_mq_send_wait (mq : ptr) (buffer : list Z) (size timeout : Z)
    : K (outcome Z wait_locals) :=
  assert_class mq RT_Object_Class_MessageQueue;;
  rt_assert (negb (size =? 0));;
  m ← get_mq mq;
  if mq_msg_size m <? size then mret (Done (- RT_ERROR))
  else
    thread ← rt_thread_self;
    temp ← rt_hw_interrupt_disable;
    m ← get_mq mq;
    if (mq_free m =? RT_NULL) && (timeout =? 0) then
      rt_hw_interrupt_enable temp;;
      mret (Done (- RT_EFULL))
    else mq_send_turn mq buffer size (mk_wait thread timeout 0) temp.

Definition rt_mq_send_resumed (mq : ptr) (buffer : list Z) (size : Z) (w : wait_locals)
    : K (outcome Z wait_locals) :=
  th ← get_thread (w_thread w);
  if negb (th_error th =? RT_EOK) then mret (Done (th_error th))
  else
    temp ← rt_hw_interrupt_disable;
    timeout ← remaining_time (w_timeout w) (w_tick_delta w);
    mq_send_turn mq buffer size (mk_wait (w_thread w) timeout (w_tick_delta w)) temp.

Definition rt_mq_send (mq : ptr) (buffer : list Z) (size : Z) : K (outcome Z wait_locals) :=
  rt_mq_send_wait mq buffer size 0.

(** An urgent message goes to the head and never waits. *)
Definition rt_mq_urgent (mq : ptr) (buffer : list Z) (size : Z) : K Z :=
  assert_class mq RT_Object_Class_MessageQueue;;
  rt_assert (negb (size =? 0));;
  m ← get_mq mq;
  if mq_msg_size m <? size then mret (- RT_ERROR)
  else
    temp ← rt_hw_interrupt_disable;
    m ← get_mq mq;
    let msg := mq_free m in
    if msg =? RT_NULL then
      rt_hw_interrupt_enable temp;;
      mret (- RT_EFULL)
    else
      mq_alloc mq msg;;
      rt_hw_interrupt_enable temp;;
      mq_write mq msg buffer size;;
      temp ← rt_hw_interrupt_disable;
      m ← get_mq mq;
      mq_set_next mq msg (mq_head m);;
      upd_mq mq (set_mq_head msg);;
      m ← get_mq mq;
      when (mq_tail m =? RT_NULL) (upd_mq mq (set_mq_tail msg));;
      mq_count_and_wake mq temp.

(** Unlinking the head message, copying it out and freeing its node; waking
    a sender. *)
Definition mq_dequeue (mq size temp : Z) : K (list Z) :=
  m ← get_mq mq;
  let msg := mq_head m in
  next ← mq_get_next mq msg;
  upd_mq mq (set_mq_head next);;
  when (mq_tail m =? msg) (upd_mq mq (set_mq_tail RT_NULL));;
  when (0 <? mq_entry m) (upd_mq mq (λ m, set_mq_entry (u16 (mq_entry m - 1)) m));;
  rt_hw_interrupt_enable temp;;
  buffer ← mq_read mq msg (if mq_msg_size m <? size then mq_msg_size m else size);
  temp ← rt_hw_interrupt_disable;
  m ← get_mq mq;
  mq_set_next mq msg (mq_free m);;
  upd_mq mq (set_mq_free msg);;
  empty ← tlist_isempty (HSender mq);
  (if negb empty then
     rt_ipc_list_resume (HSender mq);;
     rt_hw_interrupt_enable temp;;
     rt_schedule
   else rt_hw_interrupt_enable temp);;
  mret buffer.

Definition mq_recv_turn (mq size : Z) (w : wait_locals) (temp : Z)
    : K (outcome (Z * option (list Z)) wait_locals) :=
  m ← get_mq mq;
  if mq_entry m =? 0 then
    RT_DEBUG_IN_THREAD_CONTEXT;;
    upd_thread (w_thread w) (set_th_error RT_EOK);;
    if w_timeout w =? 0 then
      rt_hw_interrupt_enable temp;;
      upd_thread (w_thread w) (set_th_error (- RT_ETIMEOUT));;
      mret (Done (- RT_ETIMEOUT, None))
    else
      o ← get_object mq;
      rt_ipc_list_suspend (HSuspend mq) (w_thread w) (obj_flag o);;
      tick_delta ← (if 0 <? w_timeout w then
                      tick ← rt_tick_get;
                      start_thread_timer (w_thread w) (w_timeout w);;
                      mret tick
                    else mret (w_tick_delta w));
      rt_hw_interrupt_enable temp;;
      rt_schedule;;
      mret (Wait (mk_wait (w_thread w) (w_timeout w) tick_delta))
  else
    buffer ← mq_dequeue mq size temp;
    mret (Done (RT_EOK, Some buffer)).

Definition rt_mq_recv (mq size timeout : Z)
    : K (outcome (Z * option (list Z)) wait_locals) :=
  assert_class mq RT_Object_Class_MessageQueue;;
  rt_assert (negb (size =? 0));;
  thread ← rt_thread_self;
  temp ← rt_hw_interrupt_disable;
  m ← get_mq mq;
  if (mq_entry m =? 0) && (timeout =? 0) then
    rt_hw_interrupt_enable temp;;
    mret (Done (- RT_ETIMEOUT, None))
  else mq_recv_turn mq size (mk_wait thread timeout 0) temp.

Definition rt_mq_recv_resumed (mq size : Z) (w : wait_locals)
    : K (outcome (Z * option (list Z)) wait_locals) :=
  th ← get_thread (w_thread w);
  if negb (th_error th =? RT_EOK) then mret (Done (th_error th, None))
  else
    temp ← rt_hw_interrupt_disable;
    timeout ← remaining_time (w_timeout w) (w_tick_delta w);
    mq_recv_turn mq size (mk_wait (w_thread w) timeout (w_tick_delta w)) temp.

(** The loop of [rt_mq_control(RESET)] that frees every queued message. *)
Fixpoint mq_flush (fuel : nat) (mq : ptr) : K unit :=
  m ← get_mq mq;
  if mq_head m =? RT_NULL then mret ()
  else match fuel with
       | O => fail FHang
       | S fuel' =>
           let msg := mq_head m in
           next ← mq_get_next mq msg;
           upd_mq mq (set_mq_head next);;
           when (mq_tail m =? msg) (upd_mq mq (set_mq_tail RT_NULL));;
           m ← get_mq mq;
           mq_set_next mq msg (mq_free m);;
           upd_mq mq (set_mq_free msg);;
           mq_flush fuel' mq
       end.

Definition rt_mq_control (mq cmd arg : Z) : K Z :=
  assert_class mq RT_Object_Class_MessageQueue;;
  if cmd =? RT_IPC_CMD_RESET then
    level ← rt_hw_interrupt_disable;
    rt_ipc_list_resume_all (HSuspend mq);;
    rt_ipc_list_resume_all (HSender mq);;
    m ← get_mq mq;
    mq_flush (Z.to_nat (mq_max_msgs m)) mq;;
    upd_mq mq (set_mq_entry 0);;
    rt_hw_interrupt_enable level;;
    rt_schedule;;
    mret RT_EOK
  else mret (- RT_ERROR).

(** ** The representation: two chains that share out the pool

    [q] are the nodes of the queued messages, oldest first, and [f] the free
    nodes; each chain ends in [RT_NULL]. *)

Definition last_or_null (l : list ptr) : ptr := default RT_NULL (last l).

Record mq_rep (m : rt_messagequeue) (q f : list ptr) : Prop := {
  mr_queue : chain (mq_next m) (mq_head m) q;
  mr_free : chain (mq_next m) (mq_free m) f;
  mr_nodup : NoDup (q ++ f);
  mr_tail : mq_tail m = last_or_null q;
  mr_entry : mq_entry m = Z.of_nat (length q);
  mr_max : Z.of_nat (length (q ++ f)) = mq_max_msgs m;
  mr_bound : 0 ≤ mq_max_msgs m < 65536;
  mr_data : ∀ x, x ∈ q ++ f → ∃ d, mq_data m !! x = Some d ∧ Z.of_nat (length d) = mq_msg_size m
}.

(** The payloads of the queued messages, oldest first. *)
Definition payload (m : rt_messagequeue) (x : ptr) : list Z := default [] (mq_data m !! x).
Definition mq_messages (m : rt_messagequeue) (q : list ptr) : list (list Z) := map (payload m) q.

Lemma last_or_null_in l : l ≠ [] → last_or_null l ∈ l.
Proof.
  unfold last_or_null. destruct (last l) eqn:E; [intros _; by apply last_Some_elem_of in E|].
  by apply last_None in E.
Qed.

(** Linking a node behind a non-empty chain. *)
Lemma chain_snoc next p l x :
  chain next p l → NoDup l → x ∉ l → x ≠ RT_NULL → l ≠ [] → is_Some (next !! x) →
  chain (<[last_or_null l := x]> (<[x := RT_NULL]> next)) p (l ++ [x]).
Proof.
  revert p. induction l as [|y l IH]; intros p; [done|].
  intros (-> & Hy & z & Hz & Hl) [Hyl Hnd]%list.NoDup_cons [Hxy Hxl]%not_elem_of_cons Hx _ Hs.
  cbn [app chain]. split; [done|]. split; [done|]. destruct l as [|y' l].
  - cbn. rewrite lookup_insert_eq. exists x. split; [done|]. split; [done|]. split; [done|].
    exists RT_NULL. rewrite lookup_insert_ne, lookup_insert_eq by done. done.
  - change (last_or_null (y :: y' :: l)) with (last_or_null (y' :: l)).
    assert (Hlast : last_or_null (y' :: l) ∈ y' :: l) by (by apply last_or_null_in).
    exists z. rewrite lookup_insert_ne by (intros E; rewrite E in Hlast; done).
    rewrite lookup_insert_ne by done. split; [done|]. by apply IH.
Qed.

(** ** The three moves of a node, on the structure alone *)

(** From the free list to the tail of the queue, to its head, and back. *)
Definition mq_to_tail (msg free : ptr) (d : list Z) (m : rt_messagequeue) : rt_messagequeue :=
  let next := <[msg := RT_NULL]> (mq_next m) in
  mk_messagequeue (mq_msg_pool m) (mq_msg_size m) (mq_max_msgs m) (u16 (mq_entry m + 1))
    (if mq_head m =? RT_NULL then msg else mq_head m) msg free
    (if mq_tail m =? RT_NULL then next else <[mq_tail m := msg]> next)
    (<[msg := d]> (mq_data m)).
Definition mq_to_head (msg free : ptr) (d : list Z) (m : rt_messagequeue) : rt_messagequeue :=
  mk_messagequeue (mq_msg_pool m) (mq_msg_size m) (mq_max_msgs m) (u16 (mq_entry m + 1))
    msg (if mq_tail m =? RT_NULL then msg else mq_tail m) free
    (<[msg := mq_head m]> (mq_next m)) (<[msg := d]> (mq_data m)).
Definition mq_to_free (msg next : ptr) (m : rt_messagequeue) : rt_messagequeue :=
  mk_messagequeue (mq_msg_pool m) (mq_msg_size m) (mq_max_msgs m) (u16 (mq_entry m - 1))
    next (if mq_tail m =? msg then RT_NULL else mq_tail m) msg
    (<[msg := mq_free m]> (mq_next m)) (mq_data m).

Lemma mq_free_inv m q x f :
  mq_rep m q (x :: f) → mq_free m = x ∧ x ≠ RT_NULL ∧
  (∃ y, mq_next m !! x = Some y ∧ chain (mq_next m) y f) ∧
  (∃ d, mq_data m !! x = Some d ∧ Z.of_nat (length d) = mq_msg_size m) ∧
  (x ∉ q) ∧ (x ∉ f) ∧ NoDup q ∧ NoDup f ∧ (∀ y, y ∈ q → y ∉ f) ∧ mq_entry m < mq_max_msgs m.
Proof.
  intros [_ (-> & Hx & Hy) Hnd _ He Hmax _ Hd].
  apply list.NoDup_app in Hnd as (Hq & Hqf & [Hxf Hf]%list.NoDup_cons).
  repeat split; try done.
  - apply Hd, elem_of_app. right; left.
  - intros Hin. apply (Hqf x Hin). by left.
  - intros y Hin Hf'. apply (Hqf y Hin). by right.
  - rewrite length_app in Hmax. simpl in Hmax. lia.
Qed.

Lemma mq_rep_data m q f x d :
  (∀ y, y ∈ q ++ f → ∃ d, mq_data m !! y = Some d ∧ Z.of_nat (length d) = mq_msg_size m) →
  Z.of_nat (length d) = mq_msg_size m →
  ∀ y, y ∈ q ++ f → ∃ d', <[x := d]> (mq_data m) !! y = Some d' ∧ Z.of_nat (length d') = mq_msg_size m.
Proof.
  intros Hd Hl y Hy. destruct (decide (x = y)) as [<-|Hne].
  - rewrite lookup_insert_eq. eauto.
  - rewrite lookup_insert_ne by done. auto.
Qed.

Lemma mq_to_tail_rep m q f msg free d :
  mq_rep m q (msg :: f) → chain (mq_next m) free f → Z.of_nat (length d) = mq_msg_size m →
  mq_rep (mq_to_tail msg free d m) (q ++ [msg]) f.
Proof.
  intros Hr Hf Hd. pose proof Hr as [Hq Hfc Hnd Ht He Hmax Hb Hdata].
  destruct (mq_free_inv _ _ _ _ Hr) as (_ & Hx & (y & Hy & _) & _ & Hxq & Hxf & Hndq & _ & Hqf & Hlt).
  assert (Hperm : ((q ++ [msg]) ++ f) ≡ₚ (q ++ msg :: f)) by (by rewrite <- app_assoc).
  split; cbn [mq_to_tail mq_next mq_head mq_free mq_tail mq_entry mq_max_msgs mq_msg_size mq_data].
  - destruct q as [|z q].
    + rewrite (proj2 (chain_null _ _ _ Hq) eq_refl), Ht. cbn. split; [done|]. split; [done|].
      exists RT_NULL. by rewrite lookup_insert_eq.
    + assert (Hz : mq_head m ≠ RT_NULL) by (by rewrite (chain_null _ _ _ Hq)).
      rewrite (proj2 (Z.eqb_neq _ _) Hz), Ht.
      assert (Hlast : last_or_null (z :: q) ≠ RT_NULL).
      { eapply chain_nonnull; [exact Hq|by apply last_or_null_in]. }
      rewrite (proj2 (Z.eqb_neq _ _) Hlast). by apply chain_snoc.
  - eapply chain_ext; [|exact Hf]. intros z Hz.
    assert (z ≠ msg) by (by intros ->).
    destruct (Z.eqb_spec (mq_tail m) RT_NULL) as [|Hnt]; [by rewrite lookup_insert_ne|].
    rewrite lookup_insert_ne, lookup_insert_ne; [done|done|]. intros E.
    apply (Hqf z); [|done]. rewrite <- E, Ht. rewrite Ht in Hnt.
    apply last_or_null_in. by intros ->.
  - by rewrite Hperm.
  - unfold last_or_null. by rewrite last_snoc.
  - rewrite length_app, u16_small by (rewrite length_app in Hmax; simpl in Hmax; lia). simpl. lia.
  - by rewrite Hperm.
  - done.
  - intros z Hz. rewrite Hperm in Hz. by apply (mq_rep_data m q (msg :: f)).
Qed.

Lemma mq_to_head_rep m q f msg free d :
  mq_rep m q (msg :: f) → chain (mq_next m) free f → Z.of_nat (length d) = mq_msg_size m →
  mq_rep (mq_to_head msg free d m) (msg :: q) f.
Proof.
  intros Hr Hf Hd. pose proof Hr as [Hq Hfc Hnd Ht He Hmax Hb Hdata].
  destruct (mq_free_inv _ _ _ _ Hr) as (_ & Hx & _ & _ & Hxq & Hxf & Hndq & _ & Hqf & Hlt).
  assert (Hperm : ((msg :: q) ++ f) ≡ₚ (q ++ msg :: f)) by (cbn; apply Permutation_middle).
  split; cbn [mq_to_head mq_next mq_head mq_free mq_tail mq_entry mq_max_msgs mq_msg_size mq_data].
  - cbn [chain]. split; [done|]. split; [done|]. exists (mq_head m). rewrite lookup_insert_eq.
    split; [done|]. eapply chain_ext; [|exact Hq]. intros z Hz. rewrite lookup_insert_ne; [done|by intros ->].
  - eapply chain_ext; [|exact Hf]. intros z Hz. rewrite lookup_insert_ne; [done|by intros ->].
  - by rewrite Hperm.
  - rewrite Ht. destruct q as [|z q]; [done|].
    assert (Hlast : last_or_null (z :: q) ≠ RT_NULL).
    { eapply chain_nonnull; [exact Hq|by apply last_or_null_in]. }
    by rewrite (proj2 (Z.eqb_neq _ _) Hlast).
  - rewrite u16_small by (rewrite length_app in Hmax; simpl in Hmax; lia). simpl. lia.
  - by rewrite Hperm.
  - done.
  - intros z Hz. rewrite Hperm in Hz. by apply (mq_rep_data m q (msg :: f)).
Qed.

Lemma mq_to_free_rep m q f msg next :
  mq_rep m (msg :: q) f → chain (mq_next m) next q →
  mq_rep (mq_to_free msg next m) q (msg :: f).
Proof.
  intros [Hq Hfc Hnd Ht He Hmax Hb Hdata] Hn.
  assert (Hperm : (q ++ msg :: f) ≡ₚ ((msg :: q) ++ f)) by (cbn; symmetry; apply Permutation_middle).
  apply list.NoDup_cons in Hnd as [[Hxq Hxf]%not_elem_of_app Hnd].
  assert (Hx : msg ≠ RT_NULL) by (eapply chain_nonnull; [exact Hq|by left]).
  split; cbn [mq_to_free mq_next mq_head mq_free mq_tail mq_entry mq_max_msgs mq_msg_size mq_data].
  - eapply chain_ext; [|exact Hn]. intros z Hz. rewrite lookup_insert_ne; [done|by intros ->].
  - cbn [chain]. split; [done|]. split; [done|]. exists (mq_free m). rewrite lookup_insert_eq.
    split; [done|]. eapply chain_ext; [|exact Hfc]. intros z Hz. rewrite lookup_insert_ne; [done|by intros ->].
  - rewrite Hperm. cbn. apply list.NoDup_cons. by rewrite not_elem_of_app.
  - rewrite Ht. destruct q as [|z q]; [by rewrite Z.eqb_refl|].
    change (last_or_null (msg :: z :: q)) with (last_or_null (z :: q)).
    rewrite (proj2 (Z.eqb_neq _ _)); [done|]. intros E. apply Hxq. rewrite <- E.
    by apply last_or_null_in.
  - rewrite He. simpl length. rewrite u16_small; [lia|]. simpl in Hmax. rewrite length_app in Hmax. lia.
  - by rewrite Hperm.
  - done.
  - intros z Hz. rewrite Hperm in Hz. by apply Hdata.
Qed.

(** ** The operations perform those moves *)

Lemma put_mq_twice o a b s : put_mq o a (put_mq o b s) = put_mq o a s.
Proof. unfold put_mq. cbn. by rewrite insert_insert_eq. Qed.
Lemma put_mq_lookup o m s : k_mqs (put_mq o m s) !! o = Some m.
Proof. cbn. by rewrite lookup_insert_eq. Qed.
Lemma wf_put_mq o m s : wf s → wf (put_mq o m s).
Proof. intros. by apply (wf_ext s). Qed.
Lemma put_mq_mask o m v s : set_k_primask v (put_mq o m s) = put_mq o m (set_k_primask v s).
Proof. reflexivity. Qed.

Lemma mq_get_next_ok s mq m msg y :
  k_mqs s !! mq = Some m → mq_next m !! msg = Some y → mq_get_next mq msg s = Ok s y.
Proof. intros Hm Hy. unfold mq_get_next. kstep. by rewrite Hy. Qed.
Lemma mq_set_next_ok s mq m msg next :
  k_mqs s !! mq = Some m → is_Some (mq_next m !! msg) →
  mq_set_next mq msg next s = Ok (put_mq mq (set_mq_next (<[msg := next]> (mq_next m)) m) s) tt.
Proof. intros Hm [y Hy]. unfold mq_set_next. kstep. rewrite Hy. by apply upd_mq_ok. Qed.
Lemma mq_write_ok s mq m msg d buffer size :
  k_mqs s !! mq = Some m → mq_data m !! msg = Some d →
  mq_write mq msg buffer size s = Ok (put_mq mq (set_mq_data
    (<[msg := take (Z.to_nat size) buffer ++ drop (Z.to_nat size) d]> (mq_data m)) m) s) tt.
Proof.
  intros Hm Hd. unfold mq_write. kstep. rewrite Hd. cbn [from_option_or].
  by apply (upd_mq_ok _ _ _ m).
Qed.
Lemma mq_read_ok s mq m msg d n :
  k_mqs s !! mq = Some m → mq_data m !! msg = Some d →
  mq_read mq msg n s = Ok s (take (Z.to_nat n) d).
Proof. intros Hm Hd. unfold mq_read. kstep. by rewrite Hd. Qed.

(** Conditional updates, as one update of the structure. *)
Lemma when_upd_mq s mq m b f :
  k_mqs s !! mq = Some m →
  when b (upd_mq mq f) s = Ok (put_mq mq (if b then f m else m) s) tt.
Proof.
  intros Hm. destruct b; cbn [when]; [by apply upd_mq_ok|]. unfold put_mq. by rewrite insert_id.
Qed.
Lemma when_set_next s mq m b msg next :
  k_mqs s !! mq = Some m → (b = true → is_Some (mq_next m !! msg)) →
  when b (mq_set_next mq msg next) s
  = Ok (put_mq mq (if b then set_mq_next (<[msg := next]> (mq_next m)) m else m) s) tt.
Proof.
  intros Hm Hs. destruct b; cbn [when]; [by apply mq_set_next_ok; auto|].
  unfold put_mq. by rewrite insert_id.
Qed.

Lemma mq_count_and_wake_ok s mq m temp :
  wf s → k_mqs s !! mq = Some m → mq_entry m < RT_MQ_ENTRY_MAX →
  mq_count_and_wake mq temp s
  = Ok (wake_first (HSuspend mq)
      (set_k_primask temp (put_mq mq (set_mq_entry (u16 (mq_entry m + 1)) m) s))) RT_EOK.
Proof.
  intros Hwf Hm Hlt. unfold mq_count_and_wake. kstep. rewrite (proj2 (Z.ltb_lt _ _)) by done. do 2 kstep.
  etransitivity; [apply (wake_first_ok _ (HSuspend mq) temp (mret RT_EOK)); [by apply wf_put_mq|done]|].
  reflexivity.
Qed.

(** The message written over the old payload [d]. *)
Definition fill (buffer : list Z) (size : Z) (d : list Z) : list Z :=
  take (Z.to_nat size) buffer ++ drop (Z.to_nat size) d.
Lemma fill_length buffer size d :
  0 ≤ size ≤ Z.of_nat (length d) → Z.of_nat (length buffer) = size →
  length (fill buffer size d) = length d.
Proof. intros. unfold fill. rewrite length_app, length_take, length_drop. lia. Qed.

Lemma mq_enqueue_ok s mq m q f msg free d buffer size temp :
  wf s → k_mqs s !! mq = Some m → mq_rep m q (msg :: f) →
  mq_next m !! msg = Some free → mq_data m !! msg = Some d →
  mq_enqueue mq msg buffer size temp (set_k_primask 1 s)
  = Ok (wake_first (HSuspend mq) (set_k_primask temp
      (put_mq mq (mq_to_tail msg free (fill buffer size d) m) s))) RT_EOK.
Proof.
  intros Hwf Hm Hr Hy Hd. pose proof Hr as [Hq _ _ Ht _ _ Hb _].
  destruct (mq_free_inv _ _ _ _ Hr) as (_ & Hx & _ & _ & Hxq & _ & _ & _ & _ & Hlt).
  unfold mq_enqueue, mq_alloc. rewrite bind_assoc.
  erewrite bind_ok by (by eapply mq_get_next_ok). do 2 kstep.
  erewrite bind_ok by (apply mq_set_next_ok; [apply put_mq_lookup|by eexists]).
  erewrite bind_ok by (eapply mq_write_ok; [apply put_mq_lookup|exact Hd]). do 2 kstep.
  erewrite bind_ok.
  2:{ apply when_set_next; [apply put_mq_lookup|]. cbn. intros Hb'%negb_true_iff%Z.eqb_neq.
      rewrite lookup_insert_ne.
      - eapply chain_lookup; [exact Hq|]. rewrite Ht in Hb' |- *. apply last_or_null_in. by intros ->.
      - intros E. apply Hxq. rewrite E, Ht. rewrite Ht in Hb'. apply last_or_null_in. by intros ->. }
  erewrite bind_ok by (apply upd_mq_ok, put_mq_lookup).
  erewrite bind_ok by (apply get_mq_ok, put_mq_lookup).
  erewrite bind_ok by (apply when_upd_mq, put_mq_lookup).
  erewrite mq_count_and_wake_ok;
    [|repeat first [apply wf_put_mq | apply wf_primask]; done|apply put_mq_lookup|].
  - do 2 f_equal. unfold put_mq, mq_to_tail, fill. cbn.
    rewrite !insert_insert_eq.
    destruct (mq_tail m =? RT_NULL); cbn; destruct (mq_head m =? RT_NULL); reflexivity.
  - unfold RT_MQ_ENTRY_MAX. destruct (_ =? RT_NULL); cbn; destruct (_ =? RT_NULL); cbn; lia.
Qed.

Lemma mq_dequeue_ok s mq m q f msg next d size temp :
  wf s → k_mqs s !! mq = Some m → mq_rep m (msg :: q) f →
  mq_next m !! msg = Some next → mq_data m !! msg = Some d →
  mq_dequeue mq size temp (set_k_primask 1 s)
  = Ok (wake_first (HSender mq) (set_k_primask temp (put_mq mq (mq_to_free msg next m) s)))
      (take (Z.to_nat (if mq_msg_size m <? size then mq_msg_size m else size)) d).
Proof.
  intros Hwf Hm Hr Hy Hd. pose proof Hr as [Hq _ _ Ht He Hmax Hb _].
  pose proof Hq as (Hhead & Hx & _). simpl in He.
  unfold mq_dequeue. kstep. rewrite Hhead.
  erewrite bind_ok by (by eapply mq_get_next_ok). kstep.
  erewrite bind_ok by (apply when_upd_mq, put_mq_lookup).
  erewrite bind_ok by (apply when_upd_mq, put_mq_lookup).
  rewrite (proj2 (Z.ltb_lt 0 (mq_entry m))) by lia. kstep.
  erewrite bind_ok.
  2:{ eapply mq_read_ok; [apply put_mq_lookup|].
      destruct (mq_tail m =? msg); exact Hd. }
  kstep. erewrite bind_ok by (apply get_mq_ok, put_mq_lookup).
  erewrite bind_ok.
  2:{ apply mq_set_next_ok; [apply put_mq_lookup|].
      destruct (mq_tail m =? msg); exists next; exact Hy. }
  erewrite bind_ok by (apply upd_mq_ok, put_mq_lookup). kstep.
  match goal with |- context [Store.isempty _ (k_tlists ?s1)] => set (s2 := s1) end.
  transitivity ((if negb (Store.isempty (HSender mq) (k_tlists s2)) then
     rt_ipc_list_resume (HSender mq);; rt_hw_interrupt_enable temp;; rt_schedule;;
       mret (take (Z.to_nat (if mq_msg_size m <? size then mq_msg_size m else size)) d)
   else rt_hw_interrupt_enable temp;;
       mret (take (Z.to_nat (if mq_msg_size m <? size then mq_msg_size m else size)) d)) s2).
  { destruct (negb _); [|reflexivity]. unfold mbind, ST_bind. by destruct (rt_ipc_list_resume _ _). }
  rewrite wake_first_ok;
    [|unfold s2; repeat first [apply wf_put_mq | apply wf_primask]; done|done].
  unfold mret, ST_ret. do 2 f_equal. unfold s2, put_mq, mq_to_free. cbn. rewrite !insert_insert_eq.
  destruct (mq_tail m =? msg); reflexivity.
Qed.

Lemma rt_mq_urgent_ok s mq x m q f msg free d buffer size :
  wf s → valid s mq RT_Object_Class_MessageQueue x → k_mqs s !! mq = Some m →
  mq_rep m q (msg :: f) → mq_next m !! msg = Some free → mq_data m !! msg = Some d →
  0 < size ≤ mq_msg_size m →
  rt_mq_urgent mq buffer size s
  = Ok (wake_first (HSuspend mq) (put_mq mq (mq_to_head msg free (fill buffer size d) m) s)) RT_EOK.
Proof.
  intros Hwf Hv Hm Hr Hy Hd Hsz.
  destruct (mq_free_inv _ _ _ _ Hr) as (Hfree & Hx & _ & _ & _ & _ & _ & _ & _ & Hlt).
  pose proof (mr_bound _ _ _ Hr) as Hb.
  unfold rt_mq_urgent, mq_alloc. kstep. rewrite (proj2 (Z.eqb_neq size 0)) by lia. do 2 kstep.
  rewrite (proj2 (Z.ltb_ge _ _)) by lia. do 2 kstep. rewrite Hfree, (proj2 (Z.eqb_neq _ _)) by done.
  rewrite bind_assoc. erewrite bind_ok by (by eapply mq_get_next_ok). do 2 kstep.
  erewrite bind_ok by (eapply mq_write_ok; [klookup|exact Hd]). do 2 kstep.
  erewrite bind_ok by (apply mq_set_next_ok; [klookup|by eexists]).
  erewrite bind_ok by (apply upd_mq_ok, put_mq_lookup).
  erewrite bind_ok by (apply get_mq_ok, put_mq_lookup).
  erewrite bind_ok by (apply when_upd_mq, put_mq_lookup).
  erewrite mq_count_and_wake_ok;
    [|repeat first [apply wf_put_mq | apply wf_primask]; done|apply put_mq_lookup|].
  - do 2 f_equal. unfold put_mq, mq_to_head, fill. cbn. rewrite !insert_insert_eq.
    destruct (mq_tail m =? RT_NULL); reflexivity.
  - unfold RT_MQ_ENTRY_MAX. destruct (_ =? RT_NULL); cbn; lia.
Qed.

(** ** Sending, receiving and urgent messages *)

Lemma wake_mq s t th mq h m' :
  caller s t th → is_wait h →
  let s' := wake_first h (set_k_primask (k_primask s) (put_mq mq m' s)) in
  running s' ∧ k_mqs s' = <[mq := m']> (k_mqs s) ∧ woken_first h s s'.
Proof.
  intros Hc Hh s'.
  assert (Hrun : running (set_k_primask (k_primask s) (put_mq mq m' s))).
  { destruct (ca_running _ _ _ Hc) as (Hwf & Hrest). split; [by apply (wf_ext s)|exact Hrest]. }
  pose proof (wake_first_spec h _ (proj1 Hrun) Hh) as Hwo. fold s' in Hwo.
  split; [by apply (wo_running _ _ _ Hwo)|]. split.
  - unfold s'. by destruct (wake_first_frame h (set_k_primask (k_primask s) (put_mq mq m' s))) as [_ ->].
  - by eapply woken_first_ext.
Qed.

Lemma mq_messages_ext m m' q :
  (∀ x, x ∈ q → mq_data m' !! x = mq_data m !! x) → mq_messages m' q = mq_messages m q.
Proof.
  intros He. unfold mq_messages. apply map_ext_in. intros x Hx%list_elem_of_In.
  unfold payload. by rewrite He.
Qed.
Lemma mq_to_tail_messages m q msg free d :
  msg ∉ q → mq_messages (mq_to_tail msg free d m) (q ++ [msg]) = mq_messages m q ++ [d].
Proof.
  intros Hx. unfold mq_messages. rewrite map_app. cbn [map]. f_equal.
  - apply mq_messages_ext. intros y Hy. cbn. rewrite lookup_insert_ne; [done|by intros ->].
  - unfold payload. cbn. by rewrite lookup_insert_eq.
Qed.
Lemma mq_to_head_messages m q msg free d :
  msg ∉ q → mq_messages (mq_to_head msg free d m) (msg :: q) = d :: mq_messages m q.
Proof.
  intros Hx. unfold mq_messages. cbn [map]. f_equal.
  - unfold payload. cbn. by rewrite lookup_insert_eq.
  - apply mq_messages_ext. intros y Hy. cbn. rewrite lookup_insert_ne; [done|by intros ->].
Qed.

Lemma rt_mq_send_wait_start s mq x m buffer size timeout :
  valid s mq RT_Object_Class_MessageQueue x → k_mqs s !! mq = Some m → 0 < size →
  rt_mq_send_wait mq buffer size timeout s
  = if mq_msg_size m <? size then Ok s (Done (- RT_ERROR))
    else if (mq_free m =? RT_NULL) && (timeout =? 0) then Ok s (Done (- RT_EFULL))
    else mq_send_turn mq buffer size (mk_wait (k_current s) timeout 0) (k_primask s) (set_k_primask 1 s).
Proof.
  intros Hv Hm Hs. unfold rt_mq_send_wait. kstep. rewrite (proj2 (Z.eqb_neq size 0)) by lia. do 2 kstep.
  destruct (_ <? _); [reflexivity|]. do 3 kstep. destruct (_ && _); reflexivity.
Qed.

(** C10: [rt_mq_send_wait] appends to a bounded queue of messages: a message too
    long is refused; otherwise, while the pool has a free node, the message is
    copied into one and goes behind the others, and the first waiting receiver
    becomes ready; a pool with no free node refuses at once with [-RT_EFULL]
    when told not to wait, and otherwise leaves the caller suspended among the
    senders. Every node of the pool stays in exactly one of the two chains. *)
Theorem rt_mq_send_refines s t th mq x m q f buffer size timeout :
  caller s t th → valid s mq RT_Object_Class_MessageQueue x → ipc_flag (obj_flag x) →
  time_ok timeout → k_mqs s !! mq = Some m → mq_rep m q f →
  0 < size → Z.of_nat (length buffer) = size →
  ∃ s' out, rt_mq_send_wait mq buffer size timeout s = Ok s' out ∧ running s' ∧
    if mq_msg_size m <? size then out = Done (- RT_ERROR) ∧ s' = s
    else match f with
    | msg :: f' => out = Done RT_EOK ∧ woken_first (HSuspend mq) s s' ∧
        ∃ m', k_mqs s' = <[mq := m']> (k_mqs s) ∧ mq_rep m' (q ++ [msg]) f' ∧
          mq_messages m' (q ++ [msg]) = mq_messages m q ++ [fill buffer size (payload m msg)]
    | [] =>
        if timeout =? 0 then out = Done (- RT_EFULL) ∧ s' = s
        else out = Wait (mk_wait t timeout (if 0 <? timeout then k_tick s else 0)) ∧
          blocked (HSender mq) t (set_th_error RT_EOK th) (obj_flag x) (clear_error t th s) s'
    end.
Proof.
  intros Hca Hv Hf Htime Hm Hr Hsz Hlen. rewrite (rt_mq_send_wait_start s mq x m) by done.
  destruct (Z.ltb_spec (mq_msg_size m) size) as [Hbig|Hfit].
  { eexists _, _. split; [done|]. split; [apply Hca|done]. }
  rewrite (ca_self _ _ _ Hca). destruct f as [|msg f].
  - rewrite (proj2 (Z.eqb_eq _ _)) by (by apply (chain_null _ _ _ (mr_free _ _ _ Hr))).
    destruct (Z.eqb_spec timeout 0) as [->|Hne]; cbn [andb].
    { eexists _, _. split; [reflexivity|]. split; [apply Hca|done]. }
    pose proof (caller_clear _ _ _ Hca) as Hcb.
    exists (block (HSender mq) t (set_th_error RT_EOK th) (obj_flag x) timeout (clear_error t th s)).
    eexists. split; [|split; [by apply running_block|split; [done|by apply block_blocked]]].
    unfold mq_send_turn. cbn [w_thread w_timeout w_tick_delta]. kstep.
    rewrite (proj2 (Z.eqb_eq _ _)) by (by apply (chain_null _ _ _ (mr_free _ _ _ Hr))).
    erewrite bind_ok by (apply upd_thread_ok; apply (ca_thread _ _ _ Hca)).
    rewrite (proj2 (Z.eqb_neq _ _) Hne).
    pose proof (caller_clear _ _ _ (caller_primask _ _ _ 1 Hca)) as Hcc. unfold clear_error in Hcc.
    erewrite bind_ok by (by apply (caller_context _ _ _ 1 Hcc)).
    erewrite bind_ok by (eapply valid_get; exact Hv).
    etransitivity; [by apply (ipc_block_tick _ _ _ (set_th_error RT_EOK th))|]. reflexivity.
  - destruct (mq_free_inv _ _ _ _ Hr) as (Hfr & Hx & (free & Hy & Hc) & (d & Hd & Hdl) & Hxq & _).
    rewrite Hfr, (proj2 (Z.eqb_neq _ _) Hx). cbn [andb].
    set (m' := mq_to_tail msg free (fill buffer size d) m).
    destruct (wake_mq s t th mq (HSuspend mq) m' Hca I) as (Hrun & Hmq & Hwo).
    eexists _, _. split.
    { unfold mq_send_turn. kstep. rewrite Hfr, (proj2 (Z.eqb_neq _ _) Hx).
      erewrite bind_ok by (eapply mq_enqueue_ok; [by eapply caller_wf|exact Hm|exact Hr|exact Hy|exact Hd]).
      reflexivity. }
    split; [exact Hrun|]. split; [done|]. split; [exact Hwo|]. exists m'. split; [exact Hmq|].
    split; [|unfold payload; rewrite Hd; by apply mq_to_tail_messages].
    apply mq_to_tail_rep; [done|done|]. rewrite fill_length; [done|lia|done].
Qed.

(** [rt_mq_urgent] puts the message before all the others, waking the first
    receiver; with no free node it answers [-RT_EFULL], with a message too long
    [-RT_ERROR], and changes nothing. *)
Theorem rt_mq_urgent_refines s t th mq x m q f buffer size :
  caller s t th → valid s mq RT_Object_Class_MessageQueue x →
  k_mqs s !! mq = Some m → mq_rep m q f → 0 < size → Z.of_nat (length buffer) = size →
  ∃ s' e, rt_mq_urgent mq buffer size s = Ok s' e ∧ running s' ∧
    if mq_msg_size m <? size then e = - RT_ERROR ∧ s' = s
    else match f with
    | msg :: f' => e = RT_EOK ∧ woken_first (HSuspend mq) s s' ∧
        ∃ m', k_mqs s' = <[mq := m']> (k_mqs s) ∧ mq_rep m' (msg :: q) f' ∧
          mq_messages m' (msg :: q) = fill buffer size (payload m msg) :: mq_messages m q
    | [] => e = - RT_EFULL ∧ s' = s
    end.
Proof.
  intros Hca Hv Hm Hr Hsz Hlen. destruct (Z.ltb_spec (mq_msg_size m) size) as [Hbig|Hfit].
  { exists s. eexists. split; [|split; [apply Hca|done]]. unfold rt_mq_urgent. kstep.
    rewrite (proj2 (Z.eqb_neq size 0)) by lia. do 2 kstep.
    rewrite (proj2 (Z.ltb_lt _ _)) by lia. reflexivity. }
  destruct f as [|msg f].
  { exists s. eexists. split; [|split; [apply Hca|done]]. unfold rt_mq_urgent. kstep.
    rewrite (proj2 (Z.eqb_neq size 0)) by lia. do 2 kstep.
    rewrite (proj2 (Z.ltb_ge _ _)) by lia. do 2 kstep.
    rewrite (proj2 (Z.eqb_eq _ _)) by (by apply (chain_null _ _ _ (mr_free _ _ _ Hr))).
    reflexivity. }
  destruct (mq_free_inv _ _ _ _ Hr) as (Hfr & Hx & (free & Hy & Hc) & (d & Hd & Hdl) & Hxq & _).
  set (m' := mq_to_head msg free (fill buffer size d) m).
  destruct (wake_mq s t th mq (HSuspend mq) m' Hca I) as (Hrun & Hmq & Hwo).
  eexists _, _. split.
  { eapply (rt_mq_urgent_ok s mq x m); [by eapply caller_wf|exact Hv|exact Hm|exact Hr|exact Hy|exact Hd|lia]. }
  split; [exact Hrun|]. split; [done|]. split; [exact Hwo|]. exists m'. split; [exact Hmq|].
  split; [|unfold payload; rewrite Hd; by apply mq_to_head_messages].
  apply mq_to_head_rep; [done|done|]. rewrite fill_length; [done|lia|done].
Qed.

Lemma rt_mq_recv_start s mq x m size timeout :
  valid s mq RT_Object_Class_MessageQueue x → k_mqs s !! mq = Some m → 0 < size →
  rt_mq_recv mq size timeout s
  = if (mq_entry m =? 0) && (timeout =? 0) then Ok s (Done (- RT_ETIMEOUT, None))
    else mq_recv_turn mq size (mk_wait (k_current s) timeout 0) (k_primask s) (set_k_primask 1 s).
Proof.
  intros Hv Hm Hs. unfold rt_mq_recv. kstep. rewrite (proj2 (Z.eqb_neq size 0)) by lia. do 4 kstep.
  destruct (_ && _); reflexivity.
Qed.

(** C11: [rt_mq_recv] takes the message at the head of the queue, copies out as
    much of it as fits the buffer, gives its node back to the free chain and
    makes the first waiting sender ready; an empty queue answers
    [-RT_ETIMEOUT] at once when told not to wait, and otherwise the caller is
    left suspended among the receivers. *)
Theorem rt_mq_recv_refines s t th mq x m q f size timeout :
  caller s t th → valid s mq RT_Object_Class_MessageQueue x → ipc_flag (obj_flag x) →
  time_ok timeout → k_mqs s !! mq = Some m → mq_rep m q f → 0 < size →
  ∃ s' out, rt_mq_recv mq size timeout s = Ok s' out ∧ running s' ∧
    match q with
    | msg :: q' =>
        out = Done (RT_EOK, Some (take (Z.to_nat (Z.min size (mq_msg_size m))) (payload m msg))) ∧
        woken_first (HSender mq) s s' ∧
        ∃ m', k_mqs s' = <[mq := m']> (k_mqs s) ∧ mq_rep m' q' (msg :: f) ∧
          mq_messages m' q' = tail (mq_messages m q)
    | [] =>
        if timeout =? 0 then out = Done (- RT_ETIMEOUT, None) ∧ s' = s
        else out = Wait (mk_wait t timeout (if 0 <? timeout then k_tick s else 0)) ∧
          blocked (HSuspend mq) t (set_th_error RT_EOK th) (obj_flag x) (clear_error t th s) s'
    end.
Proof.
  intros Hca Hv Hf Htime Hm Hr Hsz. rewrite (rt_mq_recv_start s mq x m) by done.
  pose proof (mr_entry _ _ _ Hr) as He. rewrite (ca_self _ _ _ Hca). destruct q as [|msg q].
  - rewrite (proj2 (Z.eqb_eq _ _)) by done.
    destruct (Z.eqb_spec timeout 0) as [->|Hne]; cbn [andb].
    { eexists _, _. split; [reflexivity|]. split; [apply Hca|done]. }
    pose proof (caller_clear _ _ _ Hca) as Hcb.
    exists (block (HSuspend mq) t (set_th_error RT_EOK th) (obj_flag x) timeout (clear_error t th s)).
    eexists. split; [|split; [by apply running_block|split; [done|by apply block_blocked]]].
    unfold mq_recv_turn. cbn [w_thread w_timeout w_tick_delta]. kstep.
    rewrite (proj2 (Z.eqb_eq _ _)) by done.
    erewrite bind_ok by (by apply (caller_context _ _ _ 1 Hca)).
    erewrite bind_ok by (apply upd_thread_ok; apply (ca_thread _ _ _ Hca)).
    rewrite (proj2 (Z.eqb_neq _ _) Hne).
    pose proof (caller_clear _ _ _ (caller_primask _ _ _ 1 Hca)) as Hcc. unfold clear_error in Hcc.
    erewrite bind_ok by (eapply valid_get; exact Hv).
    etransitivity; [by apply (ipc_block_tick _ _ _ (set_th_error RT_EOK th))|]. reflexivity.
  - assert (Hne : mq_entry m ≠ 0) by (simpl in He; lia). rewrite (proj2 (Z.eqb_neq _ _) Hne). cbn [andb].
    pose proof (mr_queue _ _ _ Hr) as (Hhead & Hx & next & Hy & Hc).
    destruct (mr_data _ _ _ Hr msg) as (d & Hd & Hdl); [by left|].
    destruct (wake_mq s t th mq (HSender mq) (mq_to_free msg next m) Hca I) as (Hrun & Hmq & Hwo).
    eexists _, _. split.
    { unfold mq_recv_turn. kstep. rewrite (proj2 (Z.eqb_neq _ _) Hne).
      erewrite bind_ok by (eapply mq_dequeue_ok; [by eapply caller_wf|exact Hm|exact Hr|exact Hy|exact Hd]).
      reflexivity. }
    split; [exact Hrun|]. split.
    { unfold payload. rewrite Hd. cbn [default from_option id]. do 5 f_equal.
      destruct (Z.ltb_spec (mq_msg_size m) size); lia. }
    split; [exact Hwo|]. exists (mq_to_free msg next m). split; [exact Hmq|].
    split; [by apply mq_to_free_rep|]. done.
Qed.

(** ** Initialisation: the pool becomes the free chain *)

Definition mq_node (pool msg_size : Z) (i : Z) : ptr := pool + i * (msg_size + MQ_HEADER).
(** The nodes [temp, ..., temp + n - 1], the last first. *)
Fixpoint mq_nodes (pool msg_size : Z) (n : nat) (temp : Z) : list ptr :=
  match n with
  | O => []
  | S n' => mq_nodes pool msg_size n' (temp + 1) ++ [mq_node pool msg_size temp]
  end.

Lemma mq_nodes_length pool size n temp : length (mq_nodes pool size n temp) = n.
Proof. revert temp. induction n as [|n IH]; intros; simpl; [done|]. rewrite length_app, IH. simpl. lia. Qed.
Lemma elem_of_mq_nodes pool size n temp x :
  x ∈ mq_nodes pool size n temp → ∃ i, temp ≤ i < temp + Z.of_nat n ∧ x = mq_node pool size i.
Proof.
  revert temp. induction n as [|n IH]; intros temp; cbn [mq_nodes]; [by intros ?%not_elem_of_nil|].
  intros [Hin|Hin]%elem_of_app.
  - destruct (IH _ Hin) as (i & ? & ->). exists i. split; [lia|done].
  - apply list_elem_of_singleton in Hin as ->. exists temp. split; [lia|done].
Qed.
Lemma mq_nodes_nodup pool size n temp : 0 ≤ size → NoDup (mq_nodes pool size n temp).
Proof.
  intros Hs. revert temp. induction n as [|n IH]; intros temp; cbn [mq_nodes]; [constructor|].
  apply list.NoDup_app. split; [apply IH|]. split; [|apply NoDup_singleton].
  intros x (i & Hi & ->)%elem_of_mq_nodes E%list_elem_of_singleton.
  unfold mq_node, MQ_HEADER in E. nia.
Qed.

Lemma mq_free_chain_spec pool size n temp free next l :
  0 ≤ size → 0 < pool → 0 ≤ temp → chain next free l →
  (∀ i, temp ≤ i → mq_node pool size i ∉ l) →
  let r := mq_free_chain pool size n temp free next in
  chain (snd r) (fst r) (mq_nodes pool size n temp ++ l).
Proof.
  intros Hs Hp. revert temp free next l. induction n as [|n IH]; intros temp free next l Ht Hc Hn; [done|].
  cbn [mq_free_chain mq_nodes]. rewrite <- app_assoc. apply IH; [lia| |].
  - cbn [app chain]. split; [done|]. split; [unfold mq_node, RT_NULL, MQ_HEADER; nia|].
    exists free. rewrite lookup_insert_eq. split; [done|]. eapply chain_ext; [|exact Hc].
    intros x Hx. rewrite lookup_insert_ne; [done|]. intros <-. by apply (Hn temp).
  - intros i Hi [E|Hin]%elem_of_cons; [unfold mq_node, MQ_HEADER in E; nia|]. apply (Hn i); [lia|done].
Qed.

(** [rt_mq_init] makes an empty queue whose free chain holds every node the
    pool has room for, [pool_size / (msg_size + 4)] of them with the message
    size rounded up to a word, each exactly once. *)
Theorem rt_mq_init_empty s mq name pool data msg_size pool_size flag :
  running s → not_core s mq → Store.unlinked (k_containers s) mq → mq ≠ 0 → 0 < pool →
  let size := u16 (RT_ALIGN msg_size RT_ALIGN_SIZE) in
  let max := pool_size / (size + MQ_HEADER) in
  0 ≤ max < 65536 →
  (∀ i, 0 ≤ i < max → ∃ d, data !! mq_node pool size i = Some d ∧ Z.of_nat (length d) = size) →
  ∃ s' m f, rt_mq_init mq name pool data msg_size pool_size flag s = Ok s' RT_EOK ∧
    k_mqs s' !! mq = Some m ∧ mq_rep m [] f ∧ mq_msg_size m = size ∧
    Z.of_nat (length f) = max ∧
    ∀ x, x ∈ f → ∃ i, 0 ≤ i < max ∧ x = mq_node pool size i.
Proof.
  intros Hr Hc Hu Hmq Hp size max Hmax Hdata.
  assert (Hsize : 0 ≤ size) by (apply Z.mod_pos_bound; done).
  assert (Emax : u16 max = max) by (by apply u16_small).
  set (n := Z.to_nat max).
  pose proof (mq_free_chain_spec pool size n 0 RT_NULL ∅ [] Hsize Hp (Z.le_refl 0) eq_refl) as Hch.
  cbv zeta in Hch. rewrite app_nil_r in Hch.
  destruct (mq_free_chain pool size n 0 RT_NULL ∅) as [fr nx] eqn:Ef. cbn [fst snd] in Hch.
  set (m := mk_messagequeue pool size max 0 RT_NULL RT_NULL fr nx data).
  assert (Hrep : mq_rep m [] (mq_nodes pool size n 0)).
  { split; cbn [mq_next mq_head mq_free mq_tail mq_entry mq_max_msgs mq_msg_size mq_data m app].
    - done.
    - apply Hch. intros i _ ?%not_elem_of_nil. done.
    - by apply mq_nodes_nodup.
    - done.
    - done.
    - rewrite mq_nodes_length. unfold n. lia.
    - lia.
    - intros x (i & Hi & ->)%elem_of_mq_nodes. apply Hdata. unfold n in Hi. lia. }
  eexists _, m, _. split; [|split; [|split; [exact Hrep|split; [done|split]]]].
  - unfold rt_mq_init. erewrite bind_ok by (by apply rt_assert_ok, not_null).
    erewrite bind_ok by (apply rt_object_init_ok; [done|by vm_compute; repeat (right; try by left)|done]).
    unfold set_object_flag.
    erewrite bind_ok by (apply upd_object_ok; cbn; by rewrite lookup_insert_eq).
    unfold rt_ipc_object_init. rewrite bind_assoc. kstep. kstep. fold size max. rewrite Emax.
    fold n. rewrite Ef. do 2 kstep. fold m. reflexivity.
  - cbn. by rewrite lookup_insert_eq.
  - rewrite mq_nodes_length. unfold n. lia.
  - intros x (i & Hi & ->)%elem_of_mq_nodes. exists i. unfold n in Hi. split; [lia|done].
Qed.
