(* ===== verification/Mem.v ===== *)
(** * The small memory allocator ([mem.c])

    The heap is the range of addresses from [heap_ptr] to the end of the header
    at [heap_end]; a [struct heap_mem] is looked up by its address, and the
    bytes that the calls of the allocator copy or clear are kept apart from the
    headers. The allocator runs under the semaphore [heap_sem] of the kernel. *)

From Stdlib Require Import ZArith Lia.
From stdpp Require Import base gmap list fin_maps.
From S2P Require Import RTThread.
From S2P Require Import Prelude.
From S2P Require Import Bytes.
From S2P Require Import ListModel.
From S2P Require Import Kernel.
From S2P Require Import Semaphore.

Definition HEAP_MAGIC : Z := 7840.
Definition MIN_SIZE : Z := 12.
Definition MIN_SIZE_ALIGNED : Z := RT_ALIGN MIN_SIZE RT_ALIGN_SIZE.
Definition SIZEOF_STRUCT_MEM : Z := RT_ALIGN 12 RT_ALIGN_SIZE.

Record heap_mem : Set := mk_heap_mem {
  hm_magic : Z;
  hm_used : Z;
  hm_next : Z;
  hm_prev : Z }.
Definition set_hm_magic x m := mk_heap_mem x (hm_used m) (hm_next m) (hm_prev m).
Definition set_hm_used x m := mk_heap_mem (hm_magic m) x (hm_next m) (hm_prev m).
Definition set_hm_next x m := mk_heap_mem (hm_magic m) (hm_used m) x (hm_prev m).
Definition set_hm_prev x m := mk_heap_mem (hm_magic m) (hm_used m) (hm_next m) x.

(** The globals of [mem.c]; [heap_bytes] is the memory from [heap_ptr] on. *)
Record heap : Type := mk_heap {
  heap_ptr : ptr;
  heap_end : ptr;
  lfree : ptr;
  heap_sem : ptr;
  mem_size_aligned : Z;
  used_mem : Z;
  max_mem : Z;
  heap_mems : gmap ptr heap_mem;
  heap_bytes : list Z }.
Definition set_lfree x h := mk_heap (heap_ptr h) (heap_end h) x (heap_sem h)
  (mem_size_aligned h) (used_mem h) (max_mem h) (heap_mems h) (heap_bytes h).
Definition set_used_mem x h := mk_heap (heap_ptr h) (heap_end h) (lfree h) (heap_sem h)
  (mem_size_aligned h) x (max_mem h) (heap_mems h) (heap_bytes h).
Definition set_max_mem x h := mk_heap (heap_ptr h) (heap_end h) (lfree h) (heap_sem h)
  (mem_size_aligned h) (used_mem h) x (heap_mems h) (heap_bytes h).
Definition set_heap_mems x h := mk_heap (heap_ptr h) (heap_end h) (lfree h) (heap_sem h)
  (mem_size_aligned h) (used_mem h) (max_mem h) x (heap_bytes h).
Definition set_heap_bytes x h := mk_heap (heap_ptr h) (heap_end h) (lfree h) (heap_sem h)
  (mem_size_aligned h) (used_mem h) (max_mem h) (heap_mems h) x.

(** ** Access to headers *)

Notation M := (ST heap) (only parsing).

Definition get_mem (p : ptr) : M heap_mem := λ h,
  from_option_or FNull (heap_mems h !! p) h.
Definition upd_mem (p : ptr) (f : heap_mem → heap_mem) : M unit := λ h,
  match heap_mems h !! p with
  | Some m => Ok (set_heap_mems (<[p := f m]> (heap_mems h)) h) tt
  | None => Err FNull
  end.
(** A header written to raw memory of the heap. *)
Definition new_mem (p : ptr) (m : heap_mem) : M unit := λ h,
  if (heap_ptr h <=? p) && (p + SIZEOF_STRUCT_MEM <=? heap_end h + SIZEOF_STRUCT_MEM)
  then Ok (set_heap_mems (<[p := m]> (heap_mems h)) h) tt
  else Err FBounds.

(** Walks along the blocks visit each of them once at most, and a block is at
    least as long as its header. *)
Definition walk_fuel (h : heap) : nat := S (Z.to_nat (mem_size_aligned h)).

(** ** Merging neighbouring free blocks *)

Definition plug_holes (mem : ptr) : M unit :=
  h ← get;
  rt_assert (heap_ptr h <=? mem);;
  rt_assert (mem <? heap_end h);;
  m ← get_mem mem;
  rt_assert (hm_used m =? 0);;
  let nmem := heap_ptr h + hm_next m in
  (if negb (mem =? nmem) then
     n ← get_mem nmem;
     when ((hm_used n =? 0) && negb (nmem =? heap_end h))
       (when (lfree h =? nmem) (modify (set_lfree mem));;
        upd_mem mem (set_hm_next (hm_next n));;
        upd_mem (heap_ptr h + hm_next n) (set_hm_prev (u32 (mem - heap_ptr h))))
   else mret ());;
  m ← get_mem mem;
  let pmem := heap_ptr h + hm_prev m in
  (if negb (pmem =? mem) then
     p ← get_mem pmem;
     when (hm_used p =? 0)
       (h' ← get;
        when (lfree h' =? mem) (modify (set_lfree pmem));;
        upd_mem pmem (set_hm_next (hm_next m));;
        upd_mem (heap_ptr h + hm_next m) (set_hm_prev (u32 (pmem - heap_ptr h))))
   else mret ()).

(** [used_mem += x] and the high-water mark. *)
Definition account (x : Z) : M unit :=
  h ← get;
  modify (set_used_mem (u32 (used_mem h + x)));;
  h ← get;
  when (max_mem h <? used_mem h) (modify (set_max_mem (used_mem h))).

(** [while (lfree->used && lfree != heap_end)] *)
Fixpoint lfree_advance (fuel : nat) : M unit :=
  match fuel with
  | O => fail FHang
  | S fuel' =>
      h ← get;
      m ← get_mem (lfree h);
      if negb (hm_used m =? 0) && negb (lfree h =? heap_end h) then
        modify (set_lfree (heap_ptr h + hm_next m));;
        lfree_advance fuel'
      else mret ()
  end.

(** A free header at [ptr2], linked after the block [mem] at offset [ptr]. *)
Definition split_mem (mem : ptr) (ptr ptr2 : Z) (use : bool) : M unit :=
  h ← get;
  m ← get_mem mem;
  let mem2 := heap_ptr h + ptr2 in
  new_mem mem2 (mk_heap_mem HEAP_MAGIC 0 (hm_next m) ptr);;
  upd_mem mem (set_hm_next ptr2);;
  when use (upd_mem mem (set_hm_used 1));;
  m2 ← get_mem mem2;
  when (negb (hm_next m2 =? u32 (mem_size_aligned h + SIZEOF_STRUCT_MEM)))
    (upd_mem (heap_ptr h + hm_next m2) (set_hm_prev ptr2)).

(** Taking the free block at offset [ptr] for [size] bytes. *)
Definition malloc_take (ptr size : Z) : M unit :=
  h ← get;
  let mem := heap_ptr h + ptr in
  m ← get_mem mem;
  (if u32 (size + SIZEOF_STRUCT_MEM + MIN_SIZE_ALIGNED)
      <=? u32 (hm_next m - u32 (ptr + SIZEOF_STRUCT_MEM)) then
     split_mem mem ptr (u32 (ptr + SIZEOF_STRUCT_MEM + size)) true;;
     account (u32 (size + SIZEOF_STRUCT_MEM))
   else
     upd_mem mem (set_hm_used 1);;
     m ← get_mem mem;
     account (u32 (hm_next m - u32 (mem - heap_ptr h))));;
  upd_mem mem (set_hm_magic HEAP_MAGIC);;
  h ← get;
  when (mem =? lfree h)
    (lfree_advance (walk_fuel h);;
     h ← get;
     if lfree h =? heap_end h then mret ()
     else m ← get_mem (lfree h); rt_assert (hm_used m =? 0)).

(** The scan for the first free block that fits; [None] when it runs out. *)
Fixpoint malloc_scan (fuel : nat) (size ptr : Z) : M (option Z) :=
  match fuel with
  | O => fail FHang
  | S fuel' =>
      h ← get;
      if ptr <? u32 (mem_size_aligned h - size) then
        m ← get_mem (heap_ptr h + ptr);
        if (hm_used m =? 0) && (size <=? u32 (hm_next m - u32 (ptr + SIZEOF_STRUCT_MEM)))
        then mret (Some ptr)
        else malloc_scan fuel' size (hm_next m)
      else mret None
  end.

(** ** The calls, with the kernel around the heap *)

Record hstate : Type := mk_hstate { hs_kernel : kstate; hs_heap : heap }.
Notation H := (ST hstate) (only parsing).

Definition on_kernel {A} (m : K A) : H A := λ s,
  match m (hs_kernel s) with
  | Ok k a => Ok (mk_hstate k (hs_heap s)) a
  | Err e => Err e
  end.
Definition on_heap {A} (m : M A) : H A := λ s,
  match m (hs_heap s) with
  | Ok h a => Ok (mk_hstate (hs_kernel s) h) a
  | Err e => Err e
  end.

(** [rt_sem_take(&heap_sem, RT_WAITING_FOREVER)]: the model has no
    continuation for a call that waits for another one to leave the heap. *)
Definition heap_take : H unit :=
  h ← on_heap get;
  r ← on_kernel (rt_sem_take (heap_sem h) RT_WAITING_FOREVER);
  match r with Done _ => mret () | Wait _ => fail FBlocked end.
Definition heap_release : H unit :=
  h ← on_heap get;
  on_kernel (rt_sem_release (heap_sem h));;
  mret ().

Definition rt_system_heap_init (begin_addr end_addr : ptr) : H unit :=
  let begin_align := RT_ALIGN begin_addr RT_ALIGN_SIZE in
  let end_align := RT_ALIGN_DOWN end_addr RT_ALIGN_SIZE in
  on_kernel RT_DEBUG_NOT_IN_INTERRUPT;;
  if (2 * SIZEOF_STRUCT_MEM <? end_align)
     && (begin_align <=? u32 (end_align - 2 * SIZEOF_STRUCT_MEM)) then
    let size := u32 (end_align - begin_align - 2 * SIZEOF_STRUCT_MEM) in
    let next := u32 (size + SIZEOF_STRUCT_MEM) in
    h ← on_heap get;
    let e := begin_align + next in
    on_heap (modify (λ _, mk_heap begin_align e (lfree h) (heap_sem h) size
      (used_mem h) (max_mem h)
      (<[e := mk_heap_mem HEAP_MAGIC 1 next next]>
        (<[begin_align := mk_heap_mem HEAP_MAGIC 0 next 0]> (heap_mems h)))
      (heap_bytes h)));;
    on_kernel (rt_sem_init (heap_sem h) [104; 101; 97; 112] 1 RT_IPC_FLAG_FIFO);;
    on_heap (modify (set_lfree begin_align))
  else mret ().

Definition rt_malloc (size : Z) : H ptr :=
  if size =? 0 then mret RT_NULL
  else
    on_kernel RT_DEBUG_NOT_IN_INTERRUPT;;
    let size := RT_ALIGN size RT_ALIGN_SIZE in
    h ← on_heap get;
    if mem_size_aligned h <? size then mret RT_NULL
    else
      let size := if size <? MIN_SIZE_ALIGNED then MIN_SIZE_ALIGNED else size in
      heap_take;;
      h ← on_heap get;
      r ← on_heap (malloc_scan (walk_fuel h) size (u32 (lfree h - heap_ptr h)));
      match r with
      | Some ptr =>
          let mem := heap_ptr h + ptr in
          on_heap (malloc_take ptr size);;
          heap_release;;
          rt_assert (mem + SIZEOF_STRUCT_MEM + size <=? heap_end h);;
          rt_assert ((mem + SIZEOF_STRUCT_MEM) mod RT_ALIGN_SIZE =? 0);;
          rt_assert (Z.land mem (RT_ALIGN_SIZE - 1) =? 0);;
          mret (mem + SIZEOF_STRUCT_MEM)
      | None =>
          heap_release;;
          mret RT_NULL
      end.

Definition rt_free (rmem : ptr) : H unit :=
  if rmem =? RT_NULL then mret ()
  else
    on_kernel RT_DEBUG_NOT_IN_INTERRUPT;;
    rt_assert (Z.land rmem (RT_ALIGN_SIZE - 1) =? 0);;
    h ← on_heap get;
    rt_assert ((heap_ptr h <=? rmem) && (rmem <? heap_end h));;
    if (rmem <? heap_ptr h) || (heap_end h <=? rmem) then mret ()
    else
      let mem := rmem - SIZEOF_STRUCT_MEM in
      heap_take;;
      m ← on_heap (get_mem mem);
      rt_assert (negb (hm_used m =? 0));;
      rt_assert (hm_magic m =? HEAP_MAGIC);;
      on_heap (upd_mem mem (set_hm_used 0));;
      on_heap (upd_mem mem (set_hm_magic HEAP_MAGIC));;
      h ← on_heap get;
      when (mem <? lfree h) (on_heap (modify (set_lfree mem)));;
      on_heap (modify (set_used_mem (u32 (used_mem h - (hm_next m - (mem - heap_ptr h))))));;
      on_heap (plug_holes mem);;
      heap_release.

(** [rt_memcpy] and [rt_memset] on blocks of the heap. *)
Definition heap_memcpy (dst src : ptr) (n : Z) : M unit :=
  h ← get;
  b ← memcpy (heap_bytes h) (dst - heap_ptr h) (heap_bytes h) (src - heap_ptr h) n;
  modify (set_heap_bytes b).
Definition heap_memset (dst : ptr) (c n : Z) : M unit :=
  h ← get;
  b ← from_option_or FBounds
        (wr (heap_bytes h) (dst - heap_ptr h) (replicate (Z.to_nat n) c));
  modify (set_heap_bytes b).

Definition rt_realloc (rmem : ptr) (newsize : Z) : H ptr :=
  on_kernel RT_DEBUG_NOT_IN_INTERRUPT;;
  let newsize := RT_ALIGN newsize RT_ALIGN_SIZE in
  h ← on_heap get;
  if mem_size_aligned h <? newsize then mret RT_NULL
  else if newsize =? 0 then rt_free rmem;; mret RT_NULL
  else if rmem =? RT_NULL then rt_malloc newsize
  else
    heap_take;;
    h ← on_heap get;
    if (rmem <? heap_ptr h) || (heap_end h <=? rmem) then
      heap_release;; mret rmem
    else
      let mem := rmem - SIZEOF_STRUCT_MEM in
      let ptr := u32 (mem - heap_ptr h) in
      m ← on_heap (get_mem mem);
      let size := u32 (hm_next m - ptr - SIZEOF_STRUCT_MEM) in
      if size =? newsize then heap_release;; mret rmem
      else if u32 (newsize + SIZEOF_STRUCT_MEM + MIN_SIZE) <? size then
        on_heap (modify (set_used_mem (u32 (used_mem h - (size - newsize)))));;
        let ptr2 := u32 (ptr + SIZEOF_STRUCT_MEM + newsize) in
        on_heap (split_mem mem ptr ptr2 false);;
        let mem2 := heap_ptr h + ptr2 in
        when (mem2 <? lfree h) (on_heap (modify (set_lfree mem2)));;
        on_heap (plug_holes mem2);;
        heap_release;;
        mret rmem
      else
        heap_release;;
        nmem ← rt_malloc newsize;
        (if negb (nmem =? RT_NULL) then
           on_heap (heap_memcpy nmem rmem (if size <? newsize then size else newsize));;
           rt_free rmem
         else mret ());;
        mret nmem.

Definition rt_calloc (count size : Z) : H ptr :=
  p ← rt_malloc (u32 (count * size));
  (if negb (p =? RT_NULL) then on_heap (heap_memset p 0 (u32 (count * size))) else mret ());;
  mret p.

(** The three values [rt_memory_info] stores. *)
Definition rt_memory_info (s : hstate) : Z * Z * Z :=
  (mem_size_aligned (hs_heap s), used_mem (hs_heap s), max_mem (hs_heap s)).
