(* ===== verification/MemSpec.v ===== *)
(** * Correctness of the small memory allocator

    The proofs speak of the layout of the heap: the list of its blocks in address
    order, each an offset from [heap_ptr] and whether it is in use. *)

From Stdlib Require Import ZArith Lia.
From stdpp Require Import base gmap list fin_maps.
From S2P Require Import RTThread.
From S2P Require Import Prelude.
From S2P Require Import Bytes.
From S2P Require Import ListModel.
From S2P Require Import Kernel.
From S2P Require Import Object.
From S2P Require Import IpcList.
From S2P Require Import Semaphore.
From S2P Require Import Mem.

Definition layout : Type := list (Z * bool).

(** The offset of the first block, [E] if there is none; of the last one. *)
Definition nxt (E : Z) (l : layout) : Z := match l with [] => E | (o, _) :: _ => o end.
Fixpoint lst (prev : Z) (l : layout) : Z :=
  match l with [] => prev | (o, _) :: l' => lst o l' end.

Definition header (u : bool) (next prev : Z) : heap_mem :=
  mk_heap_mem HEAP_MAGIC (Z.b2z u) next prev.

(** The blocks from [nxt E l] up to [E], the first after the block at [prev]. *)
Fixpoint blocks (b E prev : Z) (ms : gmap ptr heap_mem) (l : layout) : Prop :=
  match l with
  | [] => True
  | (o, u) :: l' =>
      ms !! (b + o) = Some (header u (nxt E l') prev) ∧
      o + SIZEOF_STRUCT_MEM < nxt E l' ∧ o mod 4 = 0 ∧ blocks b E o ms l'
  end.

(** The blocks and the header at the end of the heap, which is never free. *)
Definition chain (b E prev : Z) (ms : gmap ptr heap_mem) (l : layout) : Prop :=
  blocks b E prev ms l ∧ ∃ p, ms !! (b + E) = Some (header true E p).

(** The lowest free block, [E] if there is none. *)
Fixpoint first_free (E : Z) (l : layout) : Z :=
  match l with
  | [] => E
  | (o, u) :: l' => if u then first_free E l' else o
  end.

(** The bytes in blocks in use, headers included. *)
Fixpoint used_total (E : Z) (l : layout) : Z :=
  match l with
  | [] => 0
  | (o, u) :: l' => (if u then nxt E l' - o else 0) + used_total E l'
  end.

Definition head_free (l : layout) : bool :=
  match l with (_, false) :: _ => true | _ => false end.
Fixpoint last_free (l : layout) : bool :=
  match l with
  | [] => false
  | [(_, u)] => negb u
  | _ :: l' => last_free l'
  end.
(** No two free blocks in a row. *)
Fixpoint separated (l : layout) : Prop :=
  match l with
  | [] => True
  | (_, u) :: l' => (u = false → head_free l' = false) ∧ separated l'
  end.

Section layout.
Implicit Types (l : layout) (ms : gmap ptr heap_mem) (b E o prev : Z).

Lemma nxt_app E l1 l2 : nxt E (l1 ++ l2) = nxt (nxt E l2) l1.
Proof. by destruct l1 as [|[]]. Qed.
Lemma lst_app prev l1 l2 : lst prev (l1 ++ l2) = lst (lst prev l1) l2.
Proof. revert prev. induction l1 as [|[] ? IH]; intros; simpl; auto. Qed.
Lemma first_free_app E l1 l2 : first_free E (l1 ++ l2) = first_free (first_free E l2) l1.
Proof. induction l1 as [|[? []] ? IH]; simpl; auto. Qed.
Lemma used_total_app E l1 l2 :
  used_total E (l1 ++ l2) = used_total (nxt E l2) l1 + used_total E l2.
Proof. induction l1 as [|[] ? IH]; simpl; [done|]. rewrite nxt_app, IH. lia. Qed.
Lemma head_free_app l1 l2 : l1 ≠ [] → head_free (l1 ++ l2) = head_free l1.
Proof. by destruct l1 as [|[? []]]. Qed.
Lemma separated_app l1 l2 :
  separated (l1 ++ l2) ↔
  separated l1 ∧ separated l2 ∧ (last_free l1 = true → head_free l2 = false).
Proof.
  induction l1 as [|[o u] l1 IH]; simpl; [naive_solver|].
  rewrite IH. destruct l1 as [|x l1].
  - simpl. destruct u; naive_solver.
  - rewrite head_free_app by done. naive_solver.
Qed.

Lemma blocks_app b E prev ms l1 l2 :
  blocks b E prev ms (l1 ++ l2) ↔
  blocks b (nxt E l2) prev ms l1 ∧ blocks b E (lst prev l1) ms l2.
Proof.
  revert prev. induction l1 as [|[o u] l1 IH]; intros prev; simpl; [naive_solver|].
  rewrite IH, nxt_app. naive_solver.
Qed.

(** Offsets grow, from the first block on. *)
Lemma blocks_nxt b E prev ms l : blocks b E prev ms l → nxt E l ≤ E.
Proof.
  revert prev. induction l as [|[o u] l IH]; simpl; intros prev; [lia|].
  intros (_ & Ho & _ & Hl). change SIZEOF_STRUCT_MEM with 12 in Ho.
  specialize (IH _ Hl). lia.
Qed.
Lemma blocks_range b E prev ms l o u :
  blocks b E prev ms l → (o, u) ∈ l → nxt E l ≤ o ∧ o + SIZEOF_STRUCT_MEM < E ∧ o mod 4 = 0.
Proof.
  revert prev. induction l as [|[o1 u1] l IH]; intros prev; simpl; [by intros _ ?%elem_of_nil|].
  intros (_ & Ho & Hal & Hl) Hin. pose proof (blocks_nxt _ _ _ _ _ Hl).
  apply elem_of_cons in Hin as [[= -> ->]|Hin]; [split; [lia|split; [lia|done]]|].
  change SIZEOF_STRUCT_MEM with 12 in *.
  destruct (IH _ Hl Hin) as (? & ? & ?). split; [lia|]. done.
Qed.
Lemma blocks_length b E prev ms l :
  blocks b E prev ms l → Z.of_nat (length l) * 12 ≤ E - nxt E l.
Proof.
  revert prev. induction l as [|[o u] l IH]; intros prev; simpl; [lia|].
  intros (_ & Ho & _ & Hl). change SIZEOF_STRUCT_MEM with 12 in Ho.
  specialize (IH _ Hl). lia.
Qed.

Lemma first_free_range b E prev ms l :
  blocks b E prev ms l → nxt E l ≤ first_free E l ≤ E.
Proof.
  revert prev. induction l as [|[o u] l IH]; intros prev; simpl; [lia|].
  intros (_ & Ho & _ & Hl). change SIZEOF_STRUCT_MEM with 12 in Ho.
  specialize (IH _ Hl). pose proof (blocks_nxt _ _ _ _ _ Hl). destruct u; lia.
Qed.
Lemma used_total_range b E prev ms l :
  blocks b E prev ms l → 0 ≤ used_total E l ≤ E - nxt E l.
Proof.
  revert prev. induction l as [|[o u] l IH]; intros prev; simpl; [lia|].
  intros (_ & Ho & _ & Hl). change SIZEOF_STRUCT_MEM with 12 in Ho.
  specialize (IH _ Hl). destruct u; lia.
Qed.

(** Headers elsewhere do not matter. *)
Lemma blocks_frame b E prev ms ms' l :
  (∀ o u, (o, u) ∈ l → ms' !! (b + o) = ms !! (b + o)) →
  blocks b E prev ms l → blocks b E prev ms' l.
Proof.
  revert prev. induction l as [|[o u] l IH]; intros prev Hf; simpl; [done|].
  intros (Hm & ? & ? & Hl). rewrite (Hf o u) by left.
  split; [done|]. split; [done|]. split; [done|].
  apply IH; [|done]. intros o' u' Hin. apply (Hf o' u'). by right.
Qed.
Lemma blocks_insert_below b E prev ms l p m :
  blocks b E prev ms l → p < b + nxt E l → blocks b E prev (<[p:=m]> ms) l.
Proof.
  intros Hl Hp. eapply blocks_frame; [|exact Hl]. intros o u Hin.
  destruct (blocks_range _ _ _ _ _ _ _ Hl Hin). apply lookup_insert_ne. lia.
Qed.
Lemma blocks_insert_above b E prev ms l p m :
  blocks b E prev ms l → b + E ≤ p → blocks b E prev (<[p:=m]> ms) l.
Proof.
  intros Hl Hp. eapply blocks_frame; [|exact Hl]. intros o u Hin.
  destruct (blocks_range _ _ _ _ _ _ _ Hl Hin) as (? & Ho & _).
  change SIZEOF_STRUCT_MEM with 12 in Ho. apply lookup_insert_ne. lia.
Qed.

Lemma chain_app b E prev ms l1 l2 :
  chain b E prev ms (l1 ++ l2) ↔
  blocks b (nxt E l2) prev ms l1 ∧ chain b E (lst prev l1) ms l2.
Proof. unfold chain. rewrite blocks_app. naive_solver. Qed.
Lemma chain_cons b E prev ms o u l :
  chain b E prev ms ((o, u) :: l) ↔
  ms !! (b + o) = Some (header u (nxt E l) prev) ∧
  o + SIZEOF_STRUCT_MEM < nxt E l ∧ o mod 4 = 0 ∧ chain b E o ms l.
Proof. unfold chain. simpl. naive_solver. Qed.
Lemma chain_insert_below b E prev ms l p m :
  chain b E prev ms l → p < b + nxt E l → chain b E prev (<[p:=m]> ms) l.
Proof.
  intros (Hl & q & He) Hp. pose proof (blocks_nxt _ _ _ _ _ Hl).
  split; [by apply blocks_insert_below|]. exists q. rewrite lookup_insert_ne by lia. done.
Qed.

(** The header at [nxt E l], of a block or of the end, and its back link. *)
Lemma chain_first b E prev ms l :
  chain b E prev ms l → ∃ m, ms !! (b + nxt E l) = Some m ∧
    hm_used m = Z.b2z (negb (head_free l)) ∧ hm_next m = nxt E (tail l).
Proof.
  intros (Hl & q & He). destruct l as [|[o u] l]; simpl in *.
  - eexists. split; [exact He|done].
  - destruct Hl as (Hm & _). eexists. split; [exact Hm|]. by destruct u.
Qed.
Lemma chain_relink b E prev ms l prev' m :
  chain b E prev ms l → ms !! (b + nxt E l) = Some m →
  chain b E prev' (<[b + nxt E l := set_hm_prev prev' m]> ms) l.
Proof.
  intros (Hl & q & He) Hm. destruct l as [|[o u] l]; simpl in *.
  - split; [done|]. exists prev'. rewrite lookup_insert_eq. rewrite He in Hm. by simplify_eq.
  - destruct Hl as (Hm' & Ho & Hal & Hl). rewrite Hm' in Hm. simplify_eq.
    change SIZEOF_STRUCT_MEM with 12 in *. pose proof (blocks_nxt _ _ _ _ _ Hl).
    split; simpl.
    + rewrite lookup_insert_eq. split; [done|]. split; [done|]. split; [done|].
      apply blocks_insert_below; [done|lia].
    + exists q. rewrite lookup_insert_ne by lia. done.
Qed.
End layout.

(** ** The operations on a layout *)

(** The offset of the end header. *)
Definition heap_stop (h : heap) : Z := mem_size_aligned h + SIZEOF_STRUCT_MEM.

(** The structural part of the invariant: it also holds while two free blocks
    are next to each other. *)
Record heap_core (h : heap) (l : layout) : Prop := {
  hc_base : 0 < heap_ptr h ∧ heap_ptr h mod 4 = 0;
  hc_size : 12 ≤ mem_size_aligned h ∧ mem_size_aligned h mod 4 = 0;
  hc_space : heap_ptr h + mem_size_aligned h + 24 ≤ 2 ^ 32;
  hc_end : heap_end h = heap_ptr h + heap_stop h;
  hc_chain : chain (heap_ptr h) (heap_stop h) 0 (heap_mems h) l;
  hc_first : nxt (heap_stop h) l = 0;
  hc_lfree : lfree h = heap_ptr h + first_free (heap_stop h) l;
  hc_bytes : zlen (heap_bytes h) = heap_stop h + SIZEOF_STRUCT_MEM }.

Record heap_ok (h : heap) (l : layout) : Prop := {
  ho_core : heap_core h l;
  ho_separated : separated l;
  ho_used : used_mem h = used_total (heap_stop h) l;
  ho_max : used_mem h ≤ max_mem h }.

(** Replaces the constants of the allocator by their values. *)
Ltac hconst := change SIZEOF_STRUCT_MEM with 12 in *; change MIN_SIZE_ALIGNED with 12 in *;
  change MIN_SIZE with 12 in *; change RT_ALIGN_SIZE with 4 in *; unfold heap_stop in *;
  change SIZEOF_STRUCT_MEM with 12 in *.

Lemma get_mem_ok h p m : heap_mems h !! p = Some m → get_mem p h = Ok h m.
Proof. intros Hm. unfold get_mem. by rewrite Hm. Qed.
Lemma upd_mem_ok h p m f :
  heap_mems h !! p = Some m →
  upd_mem p f h = Ok (set_heap_mems (<[p := f m]> (heap_mems h)) h) tt.
Proof. intros Hm. unfold upd_mem. by rewrite Hm. Qed.

(** A change of headers only. *)
Lemma core_set_mems h l l' ms :
  heap_core h l → chain (heap_ptr h) (heap_stop h) 0 ms l' →
  nxt (heap_stop h) l' = 0 → first_free (heap_stop h) l' = first_free (heap_stop h) l →
  heap_core (set_heap_mems ms h) l'.
Proof.
  intros [? ? ? ? ? ? ? ?] Hc Hn Hf.
  split; try done. change (lfree h = heap_ptr h + first_free (heap_stop h) l'). congruence.
Qed.

(** The pieces of a chain around one block. *)
Lemma core_block h l1 o u l2 :
  heap_core h (l1 ++ (o, u) :: l2) →
  blocks (heap_ptr h) o 0 (heap_mems h) l1 ∧
  heap_mems h !! (heap_ptr h + o) = Some (header u (nxt (heap_stop h) l2) (lst 0 l1)) ∧
  0 ≤ o ∧ o + 12 < nxt (heap_stop h) l2 ≤ heap_stop h ∧ o mod 4 = 0 ∧
  chain (heap_ptr h) (heap_stop h) o (heap_mems h) l2.
Proof.
  intros Hc. pose proof (hc_chain _ _ Hc) as Hch. pose proof (hc_first _ _ Hc) as H0.
  rewrite chain_app in Hch. destruct Hch as [Hl1 Hch]. rewrite chain_cons in Hch.
  destruct Hch as (Hm & Ho & Hal & Hl2). simpl in Hl1.
  rewrite nxt_app in H0. simpl in H0. pose proof (blocks_nxt _ _ _ _ _ Hl1).
  pose proof (blocks_nxt _ _ _ _ _ (proj1 Hl2)). hconst.
  split; [done|]. split; [done|]. split; [lia|]. split; [lia|]. done.
Qed.

Lemma first_free_le h l1 o l2 :
  heap_core h (l1 ++ (o, false) :: l2) →
  first_free (heap_stop h) (l1 ++ (o, false) :: l2) ≤ o.
Proof.
  intros Hc. destruct (core_block _ _ _ _ _ Hc) as (Hl1 & _).
  rewrite first_free_app. simpl. by apply (first_free_range _ _ _ _ _ Hl1).
Qed.

(** ** [plug_holes] *)

(** Two free blocks in a row become one. *)
Lemma merge_core h l1 o o2 l2 :
  heap_core h (l1 ++ (o, false) :: (o2, false) :: l2) →
  ∃ ms, (upd_mem (heap_ptr h + o) (set_hm_next (nxt (heap_stop h) l2));;
         upd_mem (heap_ptr h + nxt (heap_stop h) l2) (set_hm_prev o)) h
        = Ok (set_heap_mems ms h) tt ∧
    heap_core (set_heap_mems ms h) (l1 ++ (o, false) :: l2).
Proof.
  intros Hc. destruct (core_block _ _ _ _ _ Hc) as (Hl1 & Hm & Ho & Hn & Hal & Hl2).
  simpl in Hm, Hn. rewrite chain_cons in Hl2. destruct Hl2 as (Hm2 & Ho2 & Hal2 & Hl2).
  pose proof (blocks_nxt _ _ _ _ _ (proj1 Hl2)). hconst.
  set (E := mem_size_aligned h + 12) in *. set (b := heap_ptr h) in *.
  destruct (chain_first _ _ _ _ _ Hl2) as (m3 & Hm3 & _).
  erewrite bind_ok by (apply upd_mem_ok; exact Hm).
  set (ms1 := <[b + o := _]> (heap_mems h)).
  assert (ms1 !! (b + nxt E l2) = Some m3) as Hm3' by (unfold ms1; rewrite lookup_insert_ne by lia; done).
  erewrite upd_mem_ok by (cbn; exact Hm3'). eexists. split; [reflexivity|].
  eapply core_set_mems; [exact Hc|..].
  - rewrite chain_app, chain_cons. fold b E. change (heap_stop h) with E.
    split; [|split; [|split; [hconst; lia|split; [done|]]]].
    + simpl. apply blocks_insert_above; [|lia]. apply blocks_insert_above; [done|lia].
    + cbn. rewrite lookup_insert_ne by lia. unfold ms1. by rewrite lookup_insert_eq.
    + eapply chain_relink; [|done]. unfold ms1. apply chain_insert_below; [exact Hl2|lia].
  - pose proof (hc_first _ _ Hc) as H0. by rewrite nxt_app in *.
  - by rewrite !first_free_app.
Qed.

Definition coalesce (l1 : layout) (o : Z) (l2 : layout) : layout :=
  let r := if head_free l2 then tail l2 else l2 in
  if last_free l1 then l1 ++ r else l1 ++ (o, false) :: r.

Lemma last_free_inv l : last_free l = true → ∃ l' o, l = l' ++ [(o, false)].
Proof.
  induction l as [|[o u] l IH]; [done|]. destruct l as [|x l].
  - simpl. destruct u; [done|]. intros _. by exists [], o.
  - intros Hl. destruct (IH Hl) as (l' & o' & ->). by exists ((o, u) :: l'), o'.
Qed.

Lemma coalesce_separated l1 o l2 :
  separated l1 → separated l2 → separated (coalesce l1 o l2).
Proof.
  intros H1 H2. unfold coalesce.
  assert (separated (if head_free l2 then tail l2 else l2) ∧
    head_free (if head_free l2 then tail l2 else l2) = false) as [Hr Hh].
  { destruct l2 as [|[o2 []] l2]; simpl in *; [done|done|]. naive_solver. }
  destruct (last_free l1) eqn:Hl; rewrite separated_app; [done|].
  split; [done|]. split; [done|]. by rewrite Hl.
Qed.

Lemma plug_forward h l1 o l2 :
  heap_core h (l1 ++ (o, false) :: l2) →
  let r := if head_free l2 then tail l2 else l2 in
  ∃ ms, (let mem := heap_ptr h + o in
         let nmem := heap_ptr h + nxt (heap_stop h) l2 in
         if negb (mem =? nmem) then
           n ← get_mem nmem;
           when ((hm_used n =? 0) && negb (nmem =? heap_end h))
             (when (lfree h =? nmem) (modify (set_lfree mem));;
              upd_mem mem (set_hm_next (hm_next n));;
              upd_mem (heap_ptr h + hm_next n) (set_hm_prev (u32 (mem - heap_ptr h))))
         else mret ()) h = Ok (set_heap_mems ms h) tt ∧
    heap_core (set_heap_mems ms h) (l1 ++ (o, false) :: r).
Proof.
  intros Hc r. destruct (core_block _ _ _ _ _ Hc) as (_ & _ & Ho & Hn & _ & Hl2).
  pose proof (first_free_le _ _ _ _ Hc) as Hff. pose proof (hc_lfree _ _ Hc) as Hlf.
  destruct (chain_first _ _ _ _ _ Hl2) as (n & Hn' & Hu & Hx).
  cbv zeta. rewrite (proj2 (Z.eqb_neq _ _)) by lia. cbn [negb].
  erewrite bind_ok by (by apply get_mem_ok). rewrite Hu, Hx.
  destruct l2 as [|[o2 []] l2]; simpl in *.
  1,2: exists (heap_mems h); split; [by destruct h|by destruct h].
  pose proof (hc_space _ _ Hc). pose proof (hc_end _ _ Hc) as He. pose proof (hc_base _ _ Hc).
  rewrite chain_cons in Hl2. destruct Hl2 as (_ & Ho2 & _ & Hl2).
  pose proof (blocks_nxt _ _ _ _ _ (proj1 Hl2)).
  rewrite (proj2 (Z.eqb_neq (_ + o2) (heap_end h))) by (rewrite He; hconst; lia).
  rewrite (proj2 (Z.eqb_neq (lfree h) _)) by lia.
  cbn [negb when]. erewrite bind_ok by reflexivity.
  replace (heap_ptr h + o - heap_ptr h) with o by lia.
  unfold u32. rewrite (Z.mod_small o) by (hconst; lia).
  by apply (merge_core h l1 o o2 l2).
Qed.

Lemma plug_holes_ok h l1 o l2 :
  heap_core h (l1 ++ (o, false) :: l2) →
  ∃ ms, plug_holes (heap_ptr h + o) h = Ok (set_heap_mems ms h) tt ∧
    heap_core (set_heap_mems ms h) (coalesce l1 o l2).
Proof.
  intros Hc. destruct (core_block _ _ _ _ _ Hc) as (_ & Hm & Ho & Hn & _ & Hl2).
  pose proof (hc_end _ _ Hc) as He. pose proof (hc_space _ _ Hc).
  unfold plug_holes. erewrite bind_ok by reflexivity.
  rewrite (proj2 (Z.leb_le _ _)), (proj2 (Z.ltb_lt _ _)) by (rewrite ?He; hconst; lia).
  do 2 erewrite bind_ok by reflexivity.
  erewrite bind_ok by (apply get_mem_ok; exact Hm). cbn [header hm_used Z.b2z Z.eqb].
  erewrite bind_ok by reflexivity.
  destruct (plug_forward _ _ _ _ Hc) as (ms & E1 & Hc1). cbv zeta in E1. cbn [hm_next header].
  erewrite bind_ok by exact E1. set (h1 := set_heap_mems ms h) in *.
  set (r := if head_free l2 then tail l2 else l2) in *.
  destruct (core_block _ _ _ _ _ Hc1) as (Hb1 & Hm1 & _ & Hn1 & _).
  change (heap_ptr h) with (heap_ptr h1). change (heap_stop h) with (heap_stop h1) in *.
  erewrite bind_ok by (apply get_mem_ok; exact Hm1). cbn [header hm_prev hm_next].
  unfold coalesce. fold r.
  destruct (decide (l1 = [])) as [->|Hne].
  { pose proof (hc_first _ _ Hc1) as H0. simpl in H0. subst o. simpl.
    rewrite Z.eqb_refl. simpl. by exists ms. }
  destruct (exists_last Hne) as (l1' & [o0 u0] & ->). clear Hne.
  rewrite <- app_assoc in Hc1. simpl in Hc1.
  destruct (core_block _ _ _ _ _ Hc1) as (_ & Hm0 & Ho0 & Hn0 & _). simpl in Hn0.
  rewrite lst_app. change (lst (lst 0 l1') [(o0, u0)]) with o0. hconst.
  rewrite (proj2 (Z.eqb_neq _ _)) by lia. cbn [negb].
  erewrite bind_ok by (apply get_mem_ok; exact Hm0). cbn [header hm_used].
  assert (last_free (l1' ++ [(o0, u0)]) = negb u0) as ->.
  { clear. induction l1' as [|[] l IH]; [done|]. simpl. destruct (l ++ [(o0, u0)]) eqn:Hl; [by destruct l|done]. }
  destruct u0; cbn [Z.b2z Z.eqb negb when].
  { exists ms. split; [done|]. by rewrite <- app_assoc. }
  erewrite bind_ok by reflexivity.
  pose proof (first_free_le h1 l1' o0 _ Hc1) as Hff. pose proof (hc_lfree _ _ Hc1) as Hlf.
  rewrite (proj2 (Z.eqb_neq (lfree h1) _)) by lia. cbn [when]. erewrite bind_ok by reflexivity.
  replace (heap_ptr h1 + o0 - heap_ptr h1) with o0 by lia.
  unfold u32. rewrite (Z.mod_small o0).
  2:{ change (mem_size_aligned h1) with (mem_size_aligned h) in *.
      pose proof (hc_base _ _ Hc). lia. }
  destruct (merge_core h1 l1' o0 o r Hc1) as (ms' & E2 & Hc2). hconst.
  exists ms'. split; [exact E2|]. by rewrite <- app_assoc.
Qed.

(** ** Splitting a block *)

Lemma split_mem_ok h l1 o u l2 p2 use :
  heap_core h (l1 ++ (o, u) :: l2) → o + 12 < p2 → p2 + 12 < nxt (heap_stop h) l2 → p2 mod 4 = 0 →
  ∃ ms, split_mem (heap_ptr h + o) o p2 use h = Ok (set_heap_mems ms h) tt ∧
    chain (heap_ptr h) (heap_stop h) 0 ms (l1 ++ (o, u || use) :: (p2, false) :: l2).
Proof.
  intros Hc Hp Hp2 Hal2. destruct (core_block _ _ _ _ _ Hc) as (Hl1 & Hm & Ho & Hn & Hal & Hl2).
  pose proof (hc_end _ _ Hc) as He. pose proof (hc_space _ _ Hc). pose proof (hc_base _ _ Hc).
  hconst. set (E := mem_size_aligned h + 12) in *. set (b := heap_ptr h) in *.
  unfold split_mem. erewrite bind_ok by reflexivity. fold b.
  erewrite bind_ok by (apply get_mem_ok; exact Hm). cbn [header hm_next].
  erewrite bind_ok.
  2:{ unfold new_mem. fold b. rewrite He. hconst.
      rewrite !(proj2 (Z.leb_le _ _)) by lia. reflexivity. }
  set (ms1 := <[b + p2 := _]> (heap_mems h)).
  erewrite bind_ok by (apply upd_mem_ok; cbn; unfold ms1; rewrite lookup_insert_ne by lia; exact Hm).
  change (heap_mems (set_heap_mems ms1 h)) with ms1.
  change (set_hm_next p2 (header u (nxt E l2) (lst 0 l1))) with (header u p2 (lst 0 l1)).
  set (ms2 := <[b + o := header u p2 (lst 0 l1)]> ms1).
  set (ms3 := <[b + o := header (u || use) p2 (lst 0 l1)]> ms1).
  assert (when use (upd_mem (b + o) (set_hm_used 1)) (set_heap_mems ms2 (set_heap_mems ms1 h))
    = Ok (set_heap_mems ms3 h) tt) as E2.
  { destruct use; cbn [when].
    - erewrite upd_mem_ok by (cbn; unfold ms2; apply lookup_insert_eq).
      cbn. unfold ms2, ms3. rewrite insert_insert_eq, orb_true_r. done.
    - unfold ms3. by rewrite orb_false_r. }
  erewrite bind_ok by exact E2.
  assert (ms3 !! (b + p2) = Some (header false (nxt E l2) o)) as Hm2.
  { unfold ms3. rewrite lookup_insert_ne by lia. unfold ms1. by rewrite lookup_insert_eq. }
  erewrite bind_ok by (apply get_mem_ok; exact Hm2). cbn [header hm_next].
  unfold u32. rewrite (Z.mod_small (_ + 12)) by lia. fold E.
  assert (blocks b o 0 ms3 l1) as Hb3
    by (unfold ms3, ms1; apply blocks_insert_above; [apply blocks_insert_above; [done|lia]|lia]).
  assert (chain b E o ms3 l2) as Hc3
    by (unfold ms3, ms1; apply chain_insert_below; [apply chain_insert_below; [done|lia]|lia]).
  destruct (Z.eqb_spec (nxt E l2) E) as [HE|HE]; cbn [negb when].
  - (* the last block: the end header is left as it is *)
    assert (l2 = []) as ->.
    { destruct l2 as [|[o3 u3] l3]; [done|]. simpl in HE. destruct Hc3 as [Hbl _].
      simpl in Hbl. destruct Hbl as (_ & Ho3 & _ & Hl3). pose proof (blocks_nxt _ _ _ _ _ Hl3).
      hconst. lia. }
    exists ms3. split; [done|]. rewrite chain_app, !chain_cons. simpl in *.
    split; [done|]. split; [unfold ms3; apply lookup_insert_eq|]. hconst.
    split; [lia|]. split; [done|]. split; [done|]. split; [lia|]. split; [done|].
    split; [done|]. apply Hc3.
  - destruct (chain_first _ _ _ _ _ Hc3) as (m3 & Hm3 & _).
    erewrite upd_mem_ok by exact Hm3. eexists. split; [reflexivity|]. cbn.
    rewrite chain_app, !chain_cons. simpl.
    split; [by apply blocks_insert_above; [|lia]|].
    split; [rewrite lookup_insert_ne by lia; unfold ms3; apply lookup_insert_eq|]. hconst.
    split; [lia|]. split; [done|].
    split; [rewrite lookup_insert_ne by lia; exact Hm2|]. split; [lia|]. split; [done|].
    by eapply chain_relink.
Qed.

(** ** The walks *)

Lemma lfree_advance_ok l prev fuel h :
  chain (heap_ptr h) (heap_stop h) prev (heap_mems h) l →
  heap_end h = heap_ptr h + heap_stop h → lfree h = heap_ptr h + nxt (heap_stop h) l →
  (length l < fuel)%nat →
  lfree_advance fuel h = Ok (set_lfree (heap_ptr h + first_free (heap_stop h) l) h) tt.
Proof.
  revert prev fuel h. induction l as [|[o u] l IH]; intros prev fuel h Hch He Hlf Hfu.
  - destruct fuel as [|fuel]; [simpl in Hfu; lia|]. destruct Hch as (_ & q & Hq). simpl in *.
    erewrite bind_ok by reflexivity. rewrite Hlf.
    erewrite bind_ok by (apply get_mem_ok; exact Hq).
    rewrite (proj2 (Z.eqb_eq _ (heap_end h))) by done. cbn. rewrite <- Hlf. by destruct h.
  - destruct fuel as [|fuel]; [simpl in Hfu; lia|]. rewrite chain_cons in Hch.
    destruct Hch as (Hm & Ho & _ & Hl). simpl in Hlf, Hfu.
    pose proof (blocks_nxt _ _ _ _ _ (proj1 Hl)). cbn [lfree_advance].
    erewrite bind_ok by reflexivity. rewrite Hlf.
    erewrite bind_ok by (apply get_mem_ok; exact Hm).
    destruct u; cbn [header hm_used Z.b2z Z.eqb negb andb].
    + rewrite (proj2 (Z.eqb_neq _ (heap_end h))) by (hconst; lia). cbn [negb].
      erewrite bind_ok by reflexivity. cbn [header hm_next first_free].
      erewrite (IH o); [by destruct h|exact Hl|done|done|lia].
    + cbn. rewrite <- Hlf. by destruct h.
Qed.

(** The first free block of at least [n] bytes at an offset below [bound]:
    the blocks before it, its offset, the blocks after it. *)
Fixpoint fit (E bound n : Z) (l : layout) : option (layout * Z * layout) :=
  match l with
  | [] => None
  | (o, u) :: l' =>
      if o <? bound then
        if negb u && (n <=? nxt E l' - (o + 12)) then Some ([], o, l')
        else match fit E bound n l' with
             | Some (l1, o', l2) => Some ((o, u) :: l1, o', l2)
             | None => None
             end
      else None
  end.

Lemma fit_inv E bound n l l1 o l2 :
  fit E bound n l = Some (l1, o, l2) →
  l = l1 ++ (o, false) :: l2 ∧ n ≤ nxt E l2 - (o + 12) ∧ o < bound.
Proof.
  revert l1. induction l as [|[o' u'] l IH]; intros l1; [done|]. simpl.
  destruct (Z.ltb_spec o' bound); [|done].
  destruct (negb u' && (n <=? nxt E l - (o' + 12))) eqn:Hf.
  - intros [= <- <- <-]. apply andb_true_iff in Hf as [Hu Hn]. apply Z.leb_le in Hn.
    by destruct u'.
  - destruct (fit E bound n l) as [[[l1' o1] l2']|]; [|done]. intros [= <- <- <-].
    destruct (IH l1' eq_refl) as (-> & ? & ?). done.
Qed.

Lemma malloc_scan_ok l prev fuel h n :
  chain (heap_ptr h) (heap_stop h) prev (heap_mems h) l → 0 ≤ nxt (heap_stop h) l →
  0 < n ≤ mem_size_aligned h → heap_stop h + 12 ≤ 2 ^ 32 → (length l < fuel)%nat →
  malloc_scan fuel n (nxt (heap_stop h) l) h =
    Ok h (match fit (heap_stop h) (mem_size_aligned h - n) n l with
          | Some (_, o, _) => Some o | None => None end).
Proof.
  revert prev fuel. induction l as [|[o u] l IH]; intros prev fuel Hch H0 Hn Hs Hfu.
  - destruct fuel as [|fuel]; [simpl in Hfu; lia|]. simpl. erewrite bind_ok by reflexivity.
    hconst. unfold u32. rewrite Z.mod_small by lia. by rewrite (proj2 (Z.ltb_ge _ _)) by lia.
  - destruct fuel as [|fuel]; [simpl in Hfu; lia|]. rewrite chain_cons in Hch.
    destruct Hch as (Hm & Ho & _ & Hl). simpl in Hfu, H0.
    pose proof (blocks_nxt _ _ _ _ _ (proj1 Hl)). cbn [malloc_scan nxt fit].
    erewrite bind_ok by reflexivity. hconst. unfold u32 at 1. rewrite Z.mod_small by lia.
    destruct (Z.ltb_spec o (mem_size_aligned h - n)); [|done].
    erewrite bind_ok by (apply get_mem_ok; exact Hm). cbn [header hm_used hm_next].
    unfold u32. rewrite (Z.mod_small (o + 12)), Z.mod_small by lia.
    destruct u; cbn [Z.b2z Z.eqb negb andb];
      [|destruct (n <=? nxt (mem_size_aligned h + 12) l - (o + 12)); [done|]];
      erewrite IH by (done || lia);
      by destruct (fit _ _ n l) as [[[]]|].
Qed.

(** Blocks in use do not take part. *)
Lemma fit_skip b E ms prev bound n l1 l2 :
  blocks b (nxt E l2) prev ms l1 → (∀ x, x ∈ l1 → x.2 = true) → bound ≤ E →
  fit E bound n (l1 ++ l2) =
    match fit E bound n l2 with Some (l1', o, l2') => Some (l1 ++ l1', o, l2') | None => None end.
Proof.
  intros Hb Hu HE. revert prev Hb. induction l1 as [|[o u] l1 IH]; intros prev Hb; simpl.
  - by destruct (fit E bound n l2) as [[[]]|].
  - assert (u = true) as -> by (by apply (Hu (o, u)); left). simpl in Hb.
    destruct Hb as (_ & Ho & _ & Hb). pose proof (blocks_nxt _ _ _ _ _ Hb).
    destruct (Z.ltb_spec o bound); cbn [negb andb].
    + rewrite (IH ltac:(intros x Hx; apply Hu; by right) o Hb).
      by destruct (fit E bound n l2) as [[[]]|].
    + assert (fit E bound n l2 = None) as ->; [|done]. hconst.
      destruct l2 as [|[o2 u2] l2]; [done|]. simpl in *. by rewrite (proj2 (Z.ltb_ge _ _)) by lia.
Qed.

(** A layout is a run of blocks in use and what starts at the lowest free one. *)
Lemma first_free_split E l :
  ∃ l1 l2, l = l1 ++ l2 ∧ (∀ x, x ∈ l1 → x.2 = true) ∧ nxt E l2 = first_free E l ∧
    (l2 = [] ∨ head_free l2 = true).
Proof.
  induction l as [|[o u] l (l1 & l2 & -> & Hu & Hn & Hh)].
  - exists [], []. split; [done|]. split; [by intros ? ?%elem_of_nil|]. split; [done|by left].
  - destruct u.
    + exists ((o, true) :: l1), l2. split; [done|]. split; [|done].
      by intros x [->|]%elem_of_cons; [|apply Hu].
    + exists [], ((o, false) :: l1 ++ l2). split; [done|].
      split; [by intros ? ?%elem_of_nil|]. split; [done|by right].
Qed.

Lemma first_free_cases l :
  (∀ X, first_free X l = X) ∨ ∃ f, (f, false) ∈ l ∧ ∀ X, first_free X l = f.
Proof.
  induction l as [|[o []] l IH]; simpl; [by left| |].
  - destruct IH as [IH|(f & Hf & IH)]; [by left|]. right. exists f. split; [by right|done].
  - right. exists o. split; [by left|done].
Qed.

(** ** Taking a block *)

(** What a call that works inside the heap leaves alone. *)
Record heap_frame (h h' : heap) : Prop := {
  hf_ptr : heap_ptr h' = heap_ptr h;
  hf_end : heap_end h' = heap_end h;
  hf_sem : heap_sem h' = heap_sem h;
  hf_size : mem_size_aligned h' = mem_size_aligned h;
  hf_bytes : heap_bytes h' = heap_bytes h }.

Lemma heap_frame_refl h : heap_frame h h.
Proof. by constructor. Qed.
Lemma heap_frame_trans h1 h2 h3 : heap_frame h1 h2 → heap_frame h2 h3 → heap_frame h1 h3.
Proof. intros [] []. constructor; congruence. Qed.

(** A heap with the frame of [h], from the parts that may change. *)
Lemma core_frame h h' l l' :
  heap_core h l → heap_frame h h' →
  chain (heap_ptr h) (heap_stop h) 0 (heap_mems h') l' → nxt (heap_stop h) l' = 0 →
  lfree h' = heap_ptr h + first_free (heap_stop h) l' → heap_core h' l'.
Proof.
  intros [? ? ? ? ? ? ? ?] [Hp He Hs Hz Hb] Hc Hn Hl.
  split; unfold heap_stop in *; rewrite ?Hp, ?Hz, ?Hb, ?He; done.
Qed.

Lemma account_ok h x :
  account x h = Ok (set_max_mem (Z.max (max_mem h) (u32 (used_mem h + x)))
                     (set_used_mem (u32 (used_mem h + x)) h)) tt.
Proof.
  unfold account. do 3 (erewrite bind_ok by reflexivity). cbn.
  destruct (Z.ltb_spec (max_mem h) (u32 (used_mem h + x))); cbn [when].
  - by rewrite Z.max_r by lia.
  - rewrite Z.max_l by lia. by destruct h.
Qed.

Definition take_layout (E : Z) (l1 : layout) (o : Z) (l2 : layout) (n : Z) : layout :=
  l1 ++ (o, true) ::
    (if n + 24 <=? nxt E l2 - (o + 12) then (o + 12 + n, false) :: l2 else l2).

(** Moving [lfree] past blocks that are in use. *)
Lemma malloc_lfree_ok h l1 o l2 :
  chain (heap_ptr h) (heap_stop h) 0 (heap_mems h) (l1 ++ (o, true) :: l2) →
  heap_end h = heap_ptr h + heap_stop h → heap_stop h ≤ mem_size_aligned h + 12 →
  0 ≤ nxt (heap_stop h) (l1 ++ (o, true) :: l2) → 0 < mem_size_aligned h →
  lfree h = heap_ptr h + first_free o l1 →
  when (heap_ptr h + o =? lfree h)
    (lfree_advance (walk_fuel h);;
     h ← get;
     if lfree h =? heap_end h then mret ()
     else m ← get_mem (lfree h); rt_assert (hm_used m =? 0)) h
  = Ok (set_lfree (heap_ptr h + first_free (heap_stop h) (l1 ++ (o, true) :: l2)) h) tt.
Proof.
  intros Hch He Hs H0 Hsz Hlf. rewrite first_free_app. cbn [first_free].
  pose proof (blocks_length _ _ _ _ _ (proj1 Hch)) as Hlen.
  rewrite chain_app in Hch. destruct Hch as [Hl1 Hch]. simpl in Hl1.
  destruct (first_free_cases l1) as [Hall|(f & Hf & Hall)]; rewrite !Hall in *.
  - rewrite Hlf, Z.eqb_refl. cbn [when].
    erewrite bind_ok.
    2:{ eapply lfree_advance_ok; [exact Hch|done|by rewrite Hlf|].
        unfold walk_fuel. rewrite length_app in Hlen. lia. }
    erewrite bind_ok by reflexivity. cbn [first_free].
    destruct (first_free_split (heap_stop h) l2) as (la & lb & El & _ & Hn & Hh).
    set (h' := set_lfree _ h). change (lfree h') with (heap_ptr h + first_free (heap_stop h) l2).
    change (heap_end h') with (heap_end h). rewrite He.
    destruct (Z.eqb_spec (heap_ptr h + first_free (heap_stop h) l2) (heap_ptr h + heap_stop h)) as [|Hne]; [done|].
    destruct Hh as [->|Hh]; [simpl in Hn; lia|]. subst l2.
    rewrite chain_cons in Hch. destruct Hch as (_ & _ & _ & Hch). rewrite chain_app in Hch.
    destruct (chain_first _ _ _ _ _ (proj2 Hch)) as (m & Hm & Hu & _). rewrite Hn in Hm.
    erewrite bind_ok by (apply get_mem_ok; exact Hm). by rewrite Hu, Hh.
  - destruct (blocks_range _ _ _ _ _ _ _ Hl1 Hf) as (_ & Hfo & _). hconst.
    rewrite (proj2 (Z.eqb_neq _ _)) by lia. cbn [when]. rewrite <- Hlf. by destruct h.
Qed.

Lemma malloc_take_ok h l1 o l2 n :
  heap_ok h (l1 ++ (o, false) :: l2) → 12 ≤ n → n mod 4 = 0 →
  n ≤ nxt (heap_stop h) l2 - (o + 12) →
  ∃ h', malloc_take o n h = Ok h' tt ∧ heap_ok h' (take_layout (heap_stop h) l1 o l2 n) ∧
    heap_frame h h'.
Proof.
  intros [Hc Hsep Hu Hmax] Hn Hal Hfit.
  destruct (core_block _ _ _ _ _ Hc) as (Hl1 & Hm & Ho & Hnx & Hal' & Hl2).
  pose proof (hc_space _ _ Hc). pose proof (hc_base _ _ Hc). pose proof (hc_end _ _ Hc) as He.
  pose proof (hc_size _ _ Hc). pose proof (hc_first _ _ Hc) as Hz.
  pose proof (used_total_range _ _ _ _ _ (proj1 (hc_chain _ _ Hc))) as Hut.
  rewrite Hz, used_total_app in Hut. rewrite used_total_app in Hu. simpl in Hu, Hut.
  pose proof (used_total_range _ _ _ _ _ Hl1) as Hu1.
  pose proof (used_total_range _ _ _ _ _ (proj1 Hl2)) as Hu2.
  assert (0 ≤ nxt o l1) as Hn1.
  { rewrite nxt_app in Hz. simpl in Hz. by rewrite Hz. }
  unfold malloc_take. erewrite bind_ok by reflexivity.
  erewrite bind_ok by (apply get_mem_ok; exact Hm). cbn [header hm_next].
  set (l' := take_layout (heap_stop h) l1 o l2 n).
  set (x := nxt (heap_stop h) (if n + 24 <=? nxt (heap_stop h) l2 - (o + 12)
                               then (o + 12 + n, false) :: l2 else l2) - o).
  assert (∃ ms, (if u32 (n + SIZEOF_STRUCT_MEM + MIN_SIZE_ALIGNED)
       <=? u32 (nxt (heap_stop h) l2 - u32 (o + SIZEOF_STRUCT_MEM))
     then split_mem (heap_ptr h + o) o (u32 (o + SIZEOF_STRUCT_MEM + n)) true;;
          account (u32 (n + SIZEOF_STRUCT_MEM))
     else upd_mem (heap_ptr h + o) (set_hm_used 1);;
          m ← get_mem (heap_ptr h + o);
          account (u32 (hm_next m - u32 (heap_ptr h + o - heap_ptr h)))) h =
    account x (set_heap_mems ms h) ∧
    chain (heap_ptr h) (heap_stop h) 0 ms l') as (ms & E1 & Hch).
  { unfold l', x, take_layout. hconst. unfold u32.
    rewrite (Z.mod_small (n + 12 + 12)), (Z.mod_small (o + 12)), (Z.mod_small (_ - (o + 12))) by lia.
    replace (n + 12 + 12) with (n + 24) by lia.
    destruct (Z.leb_spec (n + 24) (nxt (mem_size_aligned h + 12) l2 - (o + 12))).
    - rewrite (Z.mod_small (o + 12 + n)), (Z.mod_small (n + 12)) by lia.
      destruct (split_mem_ok h l1 o false l2 (o + 12 + n) true Hc) as (ms & E1 & Hch); [lia|hconst; lia| |].
      { rewrite Z.add_mod, (Z.add_mod o), Hal, Hal' by lia. done. }
      exists ms. split; [|exact Hch]. erewrite bind_ok by exact E1. f_equal. simpl. lia.
    - erewrite bind_ok by (apply upd_mem_ok; exact Hm).
      erewrite bind_ok by (apply get_mem_ok; cbn; apply lookup_insert_eq). cbn [set_hm_used header hm_next].
      replace (heap_ptr h + o - heap_ptr h) with o by lia.
      rewrite (Z.mod_small o) by lia. rewrite (Z.mod_small (_ - o)) by lia.
      eexists. split; [reflexivity|]. rewrite chain_app, chain_cons.
      split; [by apply blocks_insert_above|]. split; [by rewrite lookup_insert_eq|].
      hconst. split; [lia|]. split; [done|]. apply chain_insert_below; [done|lia]. }
  erewrite bind_ok by (etransitivity; [exact E1|apply account_ok]).
  assert (nxt (heap_stop h) l' = 0 ∧ 0 < x ∧ used_total (heap_stop h) l' = used_mem h + x) as (Hl0 & Hx & Hul).
  { unfold l', take_layout, x. rewrite nxt_app in *. simpl in *. rewrite used_total_app. simpl.
    rewrite Hu. clear E1 Hch x l'.
    destruct (Z.leb_spec (n + 24) (nxt (heap_stop h) l2 - (o + 12))); simpl; lia. }
  pose proof (used_total_range _ _ _ _ _ (proj1 Hch)) as Hul'. rewrite Hl0 in Hul'.
  cbn [set_heap_mems used_mem max_mem]. unfold u32. rewrite Z.mod_small by (hconst; lia).
  set (h2 := set_max_mem _ _).
  assert (∃ r, l' = l1 ++ (o, true) :: r) as [r El] by (by eexists).
  rewrite El in *. clearbody x.
  assert (heap_mems h2 !! (heap_ptr h + o) = Some (header true (nxt (heap_stop h) r) (lst 0 l1))) as Hm2.
  { cbn. rewrite chain_app, chain_cons in Hch. apply Hch. }
  erewrite bind_ok by (apply upd_mem_ok; exact Hm2).
  change (set_hm_magic HEAP_MAGIC (header true (nxt (heap_stop h) r) (lst 0 l1)))
    with (header true (nxt (heap_stop h) r) (lst 0 l1)).
  rewrite insert_id by exact Hm2. set (h3 := set_heap_mems (heap_mems h2) h2).
  erewrite bind_ok by reflexivity.
  assert (lfree h3 = heap_ptr h3 + first_free o l1) as Hlf.
  { change (lfree h = heap_ptr h + first_free o l1).
    pose proof (hc_lfree _ _ Hc) as Hlf. rewrite first_free_app in Hlf. exact Hlf. }
  change (heap_ptr h) with (heap_ptr h3) at 1.
  rewrite (malloc_lfree_ok h3 l1 o r) by (first [exact Hch | exact He | exact Hlf | hconst; cbn; lia
    | change (0 ≤ nxt (heap_stop h) (l1 ++ (o, true) :: r)); lia]).
  eexists. split; [reflexivity|]. split; [|by constructor]. split.
  - eapply core_frame; [exact Hc|by constructor|exact Hch|done|done].
  - unfold l', take_layout in El. rewrite <- El. rewrite separated_app in *. simpl in *.
    destruct Hsep as (Hs1 & [Hs2 Hs3] & _). specialize (Hs2 eq_refl).
    split; [done|]. split; [|done]. split; [done|].
    destruct (n + 24 <=? nxt (heap_stop h) l2 - (o + 12)); simpl; [|exact Hs3].
    split; [by intros _|exact Hs3].
  - cbn. unfold heap_stop in *. cbn. lia.
  - cbn. lia.
Qed.

(** ** Releasing a block *)

Lemma used_total_free_end E E' l : last_free l = true → used_total E l = used_total E' l.
Proof.
  intros Hl. destruct (last_free_inv l Hl) as (l' & o & ->). by rewrite !used_total_app.
Qed.
Lemma used_total_coalesce E l1 o l2 :
  used_total E (coalesce l1 o l2) = used_total o l1 + used_total E l2.
Proof.
  unfold coalesce. set (r := if head_free l2 then tail l2 else l2).
  assert (used_total E r = used_total E l2) as Hr
    by (unfold r; destruct l2 as [|[? []]]; simpl; lia).
  cbv zeta.
  destruct (last_free l1) eqn:Hl; rewrite used_total_app; simpl; rewrite Hr.
  - by rewrite (used_total_free_end _ o).
  - done.
Qed.

(** A block marked free, before it is merged. *)
Definition released (h : heap) (o : Z) (m : heap_mem) : heap :=
  set_used_mem (u32 (used_mem h - (hm_next m - o)))
    (set_lfree (if heap_ptr h + o <? lfree h then heap_ptr h + o else lfree h)
      (set_heap_mems (<[heap_ptr h + o := set_hm_used 0 m]> (heap_mems h)) h)).

Lemma released_core h l1 o l2 :
  heap_core h (l1 ++ (o, true) :: l2) →
  heap_core (released h o (header true (nxt (heap_stop h) l2) (lst 0 l1)))
    (l1 ++ (o, false) :: l2).
Proof.
  intros Hc. destruct (core_block _ _ _ _ _ Hc) as (Hl1 & Hm & Ho & Hnx & Hal & Hl2).
  eapply core_frame; [exact Hc|by constructor|..].
  - rewrite chain_app, chain_cons. simpl.
    split; [apply blocks_insert_above; done|].
    split; [by rewrite lookup_insert_eq|]. hconst. split; [lia|]. split; [done|].
    apply chain_insert_below; [done|hconst; lia].
  - pose proof (hc_first _ _ Hc) as Hz. by rewrite nxt_app in *.
  - pose proof (hc_lfree _ _ Hc) as Hlf. rewrite first_free_app in *. simpl in *. rewrite Hlf.
    pose proof (first_free_range _ _ _ _ _ (proj1 Hl2)).
    destruct (first_free_cases l1) as [Hall|(f & Hf & Hall)]; rewrite !Hall.
    + by rewrite (proj2 (Z.ltb_lt _ _)) by lia.
    + destruct (blocks_range _ _ _ _ _ _ _ Hl1 Hf) as (_ & Hfo & _). hconst.
      by rewrite (proj2 (Z.ltb_ge _ _)) by lia.
Qed.

(** ** The calls *)

(** The allocator's semaphore is free and the caller is not an interrupt. *)
Record heap_lock (k : kstate) (sem : ptr) : Prop := {
  hl_valid : ∃ x, valid k sem RT_Object_Class_Semaphore x;
  hl_count : k_sems k !! sem = Some 1;
  hl_queue : Store.nodes (k_tlists k) (HSuspend sem) = [];
  hl_nest : k_interrupt_nest k = 0 }.

Record hs_ok (s : hstate) (l : layout) : Prop := {
  hs_heap_ok : heap_ok (hs_heap s) l;
  hs_lock : heap_lock (hs_kernel s) (heap_sem (hs_heap s)) }.

Lemma put_count_back k sem : k_sems k !! sem = Some 1 → put_count sem 1 (put_count sem 0 k) = k.
Proof.
  intros Hs. change (set_k_sems (<[sem:=1]> (<[sem:=0]> (k_sems k))) k = k).
  rewrite insert_insert_eq, insert_id by done. by destruct k.
Qed.

Lemma on_kernel_ok {A} (m : K A) k k' h a :
  m k = Ok k' a → on_kernel m (mk_hstate k h) = Ok (mk_hstate k' h) a.
Proof. intros E. unfold on_kernel. cbn. by rewrite E. Qed.
Lemma on_heap_ok {A} (m : ST heap A) k h h' a :
  m h = Ok h' a → on_heap m (mk_hstate k h) = Ok (mk_hstate k h') a.
Proof. intros E. unfold on_heap. cbn. by rewrite E. Qed.

Lemma heap_take_ok k h :
  heap_lock k (heap_sem h) →
  heap_take (mk_hstate k h) = Ok (mk_hstate (put_count (heap_sem h) 0 k) h) tt.
Proof.
  intros [(x & Hv) Hs _ _]. unfold heap_take. erewrite bind_ok by reflexivity.
  erewrite bind_ok; [|apply (on_kernel_ok _ _ (put_count (heap_sem h) 0 k) h (Done RT_EOK))];
    [reflexivity|].
  unfold rt_sem_take. do 3 kstep. cbn [Z.ltb Z.compare]. ksteps. reflexivity.
Qed.

Lemma heap_release_ok k h :
  heap_lock k (heap_sem h) →
  heap_release (mk_hstate (put_count (heap_sem h) 0 k) h) = Ok (mk_hstate k h) tt.
Proof.
  intros [(x & Hv) Hs Hq _]. unfold heap_release. erewrite bind_ok by reflexivity.
  erewrite bind_ok; [|apply (on_kernel_ok _ _ k h RT_EOK)]; [reflexivity|].
  assert (valid (put_count (heap_sem h) 0 k) (heap_sem h) RT_Object_Class_Semaphore x) by done.
  unfold rt_sem_release. do 3 kstep. unfold Store.isempty at 1; cbn. rewrite Hq; cbn. kstep.
  cbn [Z.ltb Z.compare RT_SEM_VALUE_MAX]. ksteps.
  transitivity (Ok (A := Z) (put_count (heap_sem h) 1 (put_count (heap_sem h) 0 k)) RT_EOK);
    [reflexivity|by rewrite put_count_back].
Qed.

Lemma heap_context_ok k h :
  k_interrupt_nest k = 0 →
  on_kernel RT_DEBUG_NOT_IN_INTERRUPT (mk_hstate k h) = Ok (mk_hstate k h) tt.
Proof.
  intros Hn. apply on_kernel_ok. destruct k. cbn in *. subst. reflexivity.
Qed.

(** The bytes a request of [size] is served with. *)
Definition malloc_size (size : Z) : Z :=
  Z.max (RT_ALIGN size RT_ALIGN_SIZE) MIN_SIZE_ALIGNED.

Lemma RT_ALIGN_mod4 size : RT_ALIGN size RT_ALIGN_SIZE mod 4 = 0.
Proof.
  unfold RT_ALIGN, RT_ALIGN_SIZE. rewrite land_align4 by apply u32_range.
  rewrite Zminus_mod, Z.mod_mod, Z.sub_diag by lia. done.
Qed.
Lemma malloc_size_mod4 size : malloc_size size mod 4 = 0.
Proof.
  unfold malloc_size. change MIN_SIZE_ALIGNED with 12. pose proof (RT_ALIGN_mod4 size).
  destruct (Z.max_spec (RT_ALIGN size RT_ALIGN_SIZE) 12) as [[_ ->]|[_ ->]]; done.
Qed.

(** Where a request is placed. *)
Definition malloc_place (h : heap) (l : layout) (size : Z) : option (layout * Z * layout) :=
  if mem_size_aligned h <? RT_ALIGN size RT_ALIGN_SIZE then None
  else fit (heap_stop h) (mem_size_aligned h - malloc_size size) (malloc_size size) l.

(** Steps of the calls, their equations given. *)
Ltac hstep E := erewrite bind_ok by E; cbv beta.
Ltac hget := erewrite bind_ok by reflexivity; cbv beta.

Lemma fit_place h l l1 o l2 n :
  heap_core h l → fit (heap_stop h) (mem_size_aligned h - n) n l = Some (l1, o, l2) →
  l = l1 ++ (o, false) :: l2 ∧ n ≤ nxt (heap_stop h) l2 - (o + 12) ∧ 0 ≤ o ∧
  o + 12 + n ≤ heap_stop h ∧ o mod 4 = 0.
Proof.
  intros Hc Hf. destruct (fit_inv _ _ _ _ _ _ _ Hf) as (-> & Hn & _).
  destruct (core_block _ _ _ _ _ Hc) as (_ & _ & Ho & Hnx & Hal & _).
  split; [done|]. split; [done|]. split; [done|]. split; [lia|done].
Qed.

(** The scan started at [lfree] finds what the scan of the whole heap would. *)
Lemma scan_from_lfree h l n :
  heap_core h l → 12 ≤ n ≤ mem_size_aligned h →
  malloc_scan (walk_fuel h) n (u32 (lfree h - heap_ptr h)) h =
  Ok h (match fit (heap_stop h) (mem_size_aligned h - n) n l with
        | Some (_, o, _) => Some o | None => None end).
Proof.
  intros Hc Hn. pose proof (hc_chain _ _ Hc) as Hch. pose proof (hc_first _ _ Hc) as Hz.
  pose proof (hc_space _ _ Hc). pose proof (hc_base _ _ Hc).
  pose proof (blocks_length _ _ _ _ _ (proj1 Hch)) as Hlen. rewrite Hz in Hlen.
  pose proof (first_free_range _ _ _ _ _ (proj1 Hch)) as Hff. rewrite Hz in Hff.
  destruct (first_free_split (heap_stop h) l) as (l1 & l2 & -> & Hu & Hnx & _).
  rewrite (hc_lfree _ _ Hc). replace (heap_ptr h + _ - heap_ptr h) with (nxt (heap_stop h) l2) by lia.
  rewrite u32_small by (hconst; lia).
  rewrite chain_app in Hch. destruct Hch as [Hl1 Hl2].
  erewrite malloc_scan_ok; [|exact Hl2|lia|lia|hconst; lia|].
  - erewrite fit_skip by (first [exact Hl1|exact Hu|hconst; lia]).
    by destruct (fit _ _ n l2) as [[[]]|].
  - unfold walk_fuel. rewrite length_app in Hlen. hconst. lia.
Qed.

Lemma rt_malloc_ok k h l size :
  hs_ok (mk_hstate k h) l → 0 < size < 2 ^ 32 →
  match malloc_place h l size with
  | None => rt_malloc size (mk_hstate k h) = Ok (mk_hstate k h) RT_NULL
  | Some (l1, o, l2) => ∃ h',
      rt_malloc size (mk_hstate k h) = Ok (mk_hstate k h') (heap_ptr h + o + 12) ∧
      heap_ok h' (take_layout (heap_stop h) l1 o l2 (malloc_size size)) ∧ heap_frame h h'
  end.
Proof.
  intros [Hh Hlk] Hs. cbn in Hh, Hlk. pose proof (ho_core _ _ Hh) as Hc.
  unfold malloc_place, rt_malloc. rewrite (proj2 (Z.eqb_neq size 0)) by lia.
  hstep ltac:(apply heap_context_ok, (hl_nest _ _ Hlk)). cbv zeta. hget. cbn [hs_heap].
  destruct (Z.ltb_spec (mem_size_aligned h) (RT_ALIGN size RT_ALIGN_SIZE)); [done|].
  assert ((if RT_ALIGN size RT_ALIGN_SIZE <? MIN_SIZE_ALIGNED then MIN_SIZE_ALIGNED
           else RT_ALIGN size RT_ALIGN_SIZE) = malloc_size size) as ->
    by (unfold malloc_size; destruct (Z.ltb_spec (RT_ALIGN size RT_ALIGN_SIZE) MIN_SIZE_ALIGNED); lia).
  pose proof (malloc_size_mod4 size) as Hal. pose proof (hc_size _ _ Hc). pose proof (hc_base _ _ Hc).
  assert (12 ≤ malloc_size size ≤ mem_size_aligned h) as Hn by (unfold malloc_size; hconst; lia).
  set (n := malloc_size size) in *. clearbody n.
  hstep ltac:(by apply heap_take_ok). hget. cbn [hs_heap].
  hstep ltac:(apply on_heap_ok, (scan_from_lfree _ _ _ Hc Hn)).
  destruct (fit (heap_stop h) (mem_size_aligned h - n) n l) as [[[l1 o] l2]|] eqn:Hf.
  - destruct (fit_place _ _ _ _ _ _ Hc Hf) as (-> & Hfit & Ho & Hend & Hoal).
    destruct (malloc_take_ok h l1 o l2 n Hh) as (h' & E & Hok & Hfr); [lia|done|done|].
    hstep ltac:(apply on_heap_ok, E).
    hstep ltac:(rewrite <- (hf_sem _ _ Hfr); apply heap_release_ok; by rewrite (hf_sem _ _ Hfr)).
    rewrite (hc_end _ _ Hc). hconst.
    rewrite (proj2 (Z.leb_le _ _)) by lia. hget.
    assert ((heap_ptr h + o) mod 4 = 0) as Hm by (rewrite Z.add_mod, Hoal by lia; destruct Hc as [[_ ->]]; done).
    assert ((heap_ptr h + o + 12) mod 4 = 0) as -> by (rewrite Z.add_mod, Hm by lia; done).
    hget.
    assert (Z.land (heap_ptr h + o) (4 - 1) = 0) as ->
      by (change (4 - 1) with (Z.ones 2); by rewrite Z.land_ones by lia).
    hget. exists h'. split; [done|]. split; [done|done].
  - hstep ltac:(by apply heap_release_ok). done.
Qed.

Lemma rt_free_ok k h l1 o l2 :
  hs_ok (mk_hstate k h) (l1 ++ (o, true) :: l2) →
  ∃ h', rt_free (heap_ptr h + o + 12) (mk_hstate k h) = Ok (mk_hstate k h') tt ∧
    heap_ok h' (coalesce l1 o l2) ∧ heap_frame h h'.
Proof.
  intros [Hh Hlk]. cbn in Hh, Hlk. pose proof (ho_core _ _ Hh) as Hc.
  destruct (core_block _ _ _ _ _ Hc) as (Hl1 & Hm & Ho & Hnx & Hal & Hl2).
  pose proof (hc_base _ _ Hc) as [Hb Hbal]. pose proof (hc_end _ _ Hc) as He.
  unfold rt_free. rewrite (proj2 (Z.eqb_neq _ RT_NULL)) by (change RT_NULL with 0; lia).
  hstep ltac:(apply heap_context_ok, (hl_nest _ _ Hlk)).
  assert (Z.land (heap_ptr h + o + 12) (RT_ALIGN_SIZE - 1) = 0) as ->.
  { change (RT_ALIGN_SIZE - 1) with (Z.ones 2). rewrite Z.land_ones by lia. change (2 ^ 2) with 4.
    rewrite Z.add_mod, (Z.add_mod (heap_ptr h)), Hbal, Hal by lia. done. }
  hget. hget. cbn [hs_heap]. rewrite He.
  rewrite (proj2 (Z.leb_le (heap_ptr h) _)), (proj2 (Z.ltb_lt (_ + 12) (_ + heap_stop h))) by lia.
  cbn [andb].
  hget. rewrite (proj2 (Z.ltb_ge _ _)), (proj2 (Z.leb_gt _ _)) by lia. cbn [orb]. cbv zeta.
  change SIZEOF_STRUCT_MEM with 12. replace (heap_ptr h + o + 12 - 12) with (heap_ptr h + o) by lia.
  hstep ltac:(by apply heap_take_ok).
  hstep ltac:(apply on_heap_ok, get_mem_ok, Hm). cbn [header hm_used hm_magic Z.b2z Z.eqb negb].
  hget. hget.
  hstep ltac:(apply on_heap_ok, upd_mem_ok, Hm).
  hstep ltac:(apply on_heap_ok, upd_mem_ok; cbn; apply lookup_insert_eq). cbn [heap_mems set_heap_mems].
  rewrite insert_insert_eq. hget. cbn [hs_heap].
  change (set_hm_magic HEAP_MAGIC (set_hm_used 0 (header true (nxt (heap_stop h) l2) (lst 0 l1))))
    with (set_hm_used 0 (header true (nxt (heap_stop h) l2) (lst 0 l1))).
  set (h1 := set_heap_mems _ (set_heap_mems _ h)).
  hstep ltac:(instantiate (1 := tt); instantiate (1 := mk_hstate (put_count (heap_sem h) 0 k)
    (set_lfree (if heap_ptr h + o <? lfree h then heap_ptr h + o else lfree h) h1));
    change (lfree h1) with (lfree h);
    destruct (heap_ptr h + o <? lfree h); cbn [when]; [reflexivity|by destruct h]).
  replace (heap_ptr h + o - heap_ptr h1) with o by (change (heap_ptr h1) with (heap_ptr h); lia).
  hget. cbn [header hm_next].
  pose proof (released_core h l1 o l2 Hc) as Hc2.
  set (h2 := released _ _ _) in Hc2.
  destruct (plug_holes_ok h2 l1 o l2 Hc2) as (ms & E & Hc3).
  hstep ltac:(apply (on_heap_ok _ _ h2), E).
  exists (set_heap_mems ms h2). split; [|split; [|by constructor]].
  { by apply (heap_release_ok k (set_heap_mems ms h2)). }
  pose proof (ho_separated _ _ Hh) as Hsep. rewrite separated_app in Hsep. simpl in Hsep.
  assert (used_mem h2 = used_total (heap_stop h) (coalesce l1 o l2)) as Hused.
  { rewrite used_total_coalesce. cbn. rewrite (ho_used _ _ Hh), used_total_app. simpl.
    pose proof (used_total_range _ _ _ _ _ Hl1). pose proof (used_total_range _ _ _ _ _ (proj1 Hl2)).
    pose proof (hc_first _ _ Hc) as Hz. rewrite nxt_app in Hz. simpl in Hz. rewrite Hz in *.
    pose proof (hc_space _ _ Hc). hconst. rewrite u32_small by lia. lia. }
  split; [done|apply coalesce_separated; naive_solver|done|].
  pose proof (ho_max _ _ Hh). pose proof (ho_used _ _ Hh) as Hu. change (max_mem (set_heap_mems ms h2)) with (max_mem h).
  change (used_mem (set_heap_mems ms h2)) with (used_mem h2). rewrite Hused, used_total_coalesce.
  rewrite used_total_app in Hu. simpl in Hu. lia.
Qed.
