(* ===== verification/MemSafety.v ===== *)
(** * What the allocator promises its clients *)

From Stdlib Require Import ZArith Lia.
From stdpp Require Import base gmap list fin_maps.
From S2P Require Import RTThread.
From S2P Require Import Prelude.
From S2P Require Import Bytes.
From S2P Require Import ListModel.
From S2P Require Import Kernel.
From S2P Require Import Kservice.
From S2P Require Import Scheduler.
From S2P Require Import Object.
From S2P Require Import IpcList.
From S2P Require Import Semaphore.
From S2P Require Import Registry.
From S2P Require Import Mem.
From S2P Require Import MemSpec.

(** ** Allocated regions

    The payload of each block in use: its offset from [heap_ptr] and its
    length in bytes. *)
Fixpoint allocated (E : Z) (l : layout) : list (Z * Z) :=
  match l with
  | [] => []
  | (o, u) :: l' =>
      (if u then [(o + SIZEOF_STRUCT_MEM, nxt E l' - (o + SIZEOF_STRUCT_MEM))] else [])
        ++ allocated E l'
  end.
Definition regions (h : heap) (l : layout) : list (Z * Z) := allocated (heap_stop h) l.

(** Two regions do not overlap. *)
Definition apart (r1 r2 : Z * Z) : Prop := r1.1 + r1.2 ≤ r2.1 ∨ r2.1 + r2.2 ≤ r1.1.

(** No free block has room for [n] bytes; a block of exactly [n] bytes at the
    end of the heap is not considered by the scan. *)
Definition no_room (h : heap) (l : layout) (n : Z) : Prop :=
  ∀ l1 o l2, l = l1 ++ (o, false) :: l2 →
    nxt (heap_stop h) l2 - (o + SIZEOF_STRUCT_MEM) < n ∨
    (l2 = [] ∧ nxt (heap_stop h) l2 - (o + SIZEOF_STRUCT_MEM) = n).

Lemma allocated_app E l1 l2 : allocated E (l1 ++ l2) = allocated (nxt E l2) l1 ++ allocated E l2.
Proof. induction l1 as [|[o u] l1 IH]; simpl; [done|]. by rewrite nxt_app, IH, app_assoc. Qed.
Lemma allocated_free_end E E' l : last_free l = true → allocated E l = allocated E' l.
Proof.
  intros Hl. destruct (last_free_inv l Hl) as (l' & o & ->). by rewrite !allocated_app.
Qed.
Lemma allocated_coalesce E l1 o l2 :
  allocated E (coalesce l1 o l2) = allocated o l1 ++ allocated E l2.
Proof.
  unfold coalesce. set (r := if head_free l2 then tail l2 else l2).
  assert (allocated E r = allocated E l2) as Hr by (unfold r; by destruct l2 as [|[? []]]).
  cbv zeta. destruct (last_free l1) eqn:Hl; rewrite allocated_app; simpl; rewrite Hr; [|done].
  by rewrite (allocated_free_end _ o).
Qed.
Lemma allocated_take E l1 o l2 n :
  n ≤ nxt E l2 - (o + 12) →
  ∃ j, n ≤ j ∧ j ≤ nxt E l2 - (o + 12) ∧
    allocated E (take_layout E l1 o l2 n) = allocated o l1 ++ (o + 12, j) :: allocated E l2.
Proof.
  intros Hn. unfold take_layout. rewrite allocated_app. simpl. hconst.
  destruct (Z.leb_spec (n + 24) (nxt E l2 - (o + 12))); simpl; eexists; (split; [|split; [|done]]); lia.
Qed.
Lemma allocated_inv E l q j :
  (q, j) ∈ allocated E l → ∃ l1 l2, l = l1 ++ (q - 12, true) :: l2 ∧ j = nxt E l2 - q.
Proof.
  induction l as [|[o u] l IH]; simpl; [by intros ?%elem_of_nil|].
  intros [Hin|Hin]%elem_of_app.
  - destruct u; [|by apply elem_of_nil in Hin]. apply list_elem_of_singleton in Hin. hconst. simplify_eq.
    exists [], l. replace (o + 12 - 12) with o by lia. done.
  - destruct (IH Hin) as (l1 & l2 & -> & ->). by exists ((o, u) :: l1), l2.
Qed.

(** The regions lie inside the heap, beside any given block. *)
Lemma allocated_range b E prev ms l q j :
  blocks b E prev ms l → (q, j) ∈ allocated E l → nxt E l + 12 ≤ q ∧ 0 < j ∧ q + j ≤ E ∧ q mod 4 = 0.
Proof.
  intros Hb Hin. destruct (allocated_inv _ _ _ _ Hin) as (l1 & l2 & -> & ->).
  rewrite blocks_app in Hb. destruct Hb as [Hl1 Hl2]. simpl in *. destruct Hl2 as (_ & Ho & Hal & Hl2).
  pose proof (blocks_nxt _ _ _ _ _ Hl1). pose proof (blocks_nxt _ _ _ _ _ Hl2).
  rewrite nxt_app. simpl. hconst. split; [lia|]. split; [lia|]. split; [lia|].
  replace q with (q - 12 + 12) by lia. rewrite Z.add_mod, Hal by lia. done.
Qed.
Lemma allocated_apart h l1 o u l2 r :
  heap_core h (l1 ++ (o, u) :: l2) →
  r ∈ allocated o l1 ++ allocated (heap_stop h) l2 →
  apart r (o + 12, nxt (heap_stop h) l2 - (o + 12)).
Proof.
  intros Hc Hr. destruct (core_block _ _ _ _ _ Hc) as (Hl1 & _ & _ & Hn & _ & Hl2).
  destruct r as [q j]. unfold apart. simpl.
  apply elem_of_app in Hr as [Hr|Hr].
  - destruct (allocated_range _ _ _ _ _ _ _ Hl1 Hr) as (_ & _ & ? & _). left. lia.
  - destruct (allocated_range _ _ _ _ _ _ _ (proj1 Hl2) Hr) as (? & _). right. lia.
Qed.
Lemma region_inside h l q j :
  heap_core h l → (q, j) ∈ regions h l →
  12 ≤ q ∧ 0 < j ∧ q + j ≤ heap_stop h ∧ q mod 4 = 0.
Proof.
  intros Hc Hin. pose proof (allocated_range _ _ _ _ _ _ _ (proj1 (hc_chain _ _ Hc)) Hin) as Hr.
  rewrite (hc_first _ _ Hc) in Hr. exact Hr.
Qed.

Lemma fit_none E bound n l :
  fit E bound n l = None → ∀ l1 o l2, l = l1 ++ (o, false) :: l2 →
  (∀ x, x ∈ l1 → x.1 < o) → nxt E l2 - (o + 12) < n ∨ bound ≤ o.
Proof.
  induction l as [|[o1 u1] l IH]; intros Hf l1 o l2 El Hlt; [by destruct l1|]. simpl in Hf.
  destruct l1 as [|x l1]; simpl in El; simplify_eq.
  - destruct (Z.ltb_spec o bound); [|by right]. cbn [negb andb] in Hf.
    destruct (Z.leb_spec n (nxt E l2 - (o + 12))); [done|by left].
  - assert (o1 < o) as Ho by (apply (Hlt (o1, u1)); left).
    destruct (Z.ltb_spec o1 bound); [|right; lia].
    destruct (negb u1 && _); [done|].
    destruct (fit E bound n (l1 ++ (o, false) :: l2)) as [[[]]|]; [done|].
    eapply IH; [done|done|]. intros x Hx. apply Hlt. by right.
Qed.

Lemma place_none h l size :
  heap_core h l → malloc_place h l size = None → no_room h l (malloc_size size).
Proof.
  intros Hc Hf l1 o l2 ->. destruct (core_block _ _ _ _ _ Hc) as (Hl1 & _ & Ho & Hn & _ & Hl2).
  unfold malloc_place in Hf.
  destruct (Z.ltb_spec (mem_size_aligned h) (RT_ALIGN size RT_ALIGN_SIZE)) as [Hbig|Hbig].
  { left. unfold malloc_size. hconst. lia. }
  destruct (fit_none _ _ _ _ Hf l1 o l2 eq_refl) as [?|Hend].
  - intros [o' u'] Hx. destruct (blocks_range _ _ _ _ _ _ _ Hl1 Hx) as (_ & Hr & _). hconst. simpl. lia.
  - hconst. by left.
  - destruct (Z.lt_ge_cases (nxt (heap_stop h) l2 - (o + 12)) (malloc_size size)); [by left|right].
    hconst. split; [|lia]. destruct l2 as [|[o2 u2] l2]; [done|]. destruct Hl2 as [Hl2 _]. simpl in *.
    destruct Hl2 as (_ & Ho2 & _ & Hl2). pose proof (blocks_nxt _ _ _ _ _ Hl2). hconst. lia.
Qed.

(** [rt_malloc] in terms of regions. *)
Lemma rt_malloc_regions k h l size :
  hs_ok (mk_hstate k h) l → 0 < size < 2 ^ 32 →
  ∃ h' l' p, rt_malloc size (mk_hstate k h) = Ok (mk_hstate k h') p ∧
    hs_ok (mk_hstate k h') l' ∧ heap_frame h h' ∧
    ((p = RT_NULL ∧ h' = h ∧ l' = l ∧ no_room h l (malloc_size size)) ∨
     ∃ q j, p = heap_ptr h + q ∧ malloc_size size ≤ j ∧ (q, j) ∈ regions h l' ∧
       regions h l' ≡ₚ (q, j) :: regions h l ∧ (∀ r, r ∈ regions h l → apart r (q, j))).
Proof.
  intros Hok Hs. pose proof (rt_malloc_ok k h l size Hok Hs) as Hm.
  destruct Hok as [Hh Hlk]. cbn in Hh, Hlk. pose proof (ho_core _ _ Hh) as Hc.
  destruct (malloc_place h l size) as [[[l1 o] l2]|] eqn:Hp.
  - destruct Hm as (h' & E & Hok' & Hfr).
    assert (fit (heap_stop h) (mem_size_aligned h - malloc_size size) (malloc_size size) l
      = Some (l1, o, l2)) as Hfit.
    { unfold malloc_place in Hp. by destruct (_ <? _). }
    destruct (fit_place _ _ _ _ _ _ Hc Hfit) as (-> & Hn & _).
    exists h', (take_layout (heap_stop h) l1 o l2 (malloc_size size)), (heap_ptr h + o + 12).
    split; [done|]. split; [split; [done|cbn; by rewrite (hf_sem _ _ Hfr)]|]. split; [done|].
    right. unfold regions.
    destruct (allocated_take (heap_stop h) l1 o l2 (malloc_size size) Hn) as (j & Hj & Hj2 & Hall).
    exists (o + 12), j. rewrite Hall, allocated_app. simpl.
    split; [lia|]. split; [done|]. split; [set_solver|]. split; [by rewrite Permutation_middle|].
    intros r Hr. pose proof (allocated_apart _ _ _ _ _ r Hc Hr) as Ha. unfold apart in *. simpl in *. lia.
  - exists h, l, RT_NULL. split; [done|]. split; [by split|]. split; [apply heap_frame_refl|]. left.
    split; [done|]. split; [done|]. split; [done|]. by apply place_none.
Qed.

(** [rt_free] in terms of regions. *)
Lemma rt_free_regions k h l q j :
  hs_ok (mk_hstate k h) l → (q, j) ∈ regions h l →
  ∃ h' l', rt_free (heap_ptr h + q) (mk_hstate k h) = Ok (mk_hstate k h') tt ∧
    hs_ok (mk_hstate k h') l' ∧ heap_frame h h' ∧ regions h l ≡ₚ (q, j) :: regions h l'.
Proof.
  intros Hok Hin. destruct (allocated_inv _ _ _ _ Hin) as (l1 & l2 & -> & ->).
  destruct (rt_free_ok k h l1 (q - 12) l2 Hok) as (h' & E & Hok' & Hfr).
  destruct Hok as [_ Hlk]. cbn in Hlk.
  exists h', (coalesce l1 (q - 12) l2).
  replace (heap_ptr h + (q - 12) + 12) with (heap_ptr h + q) in E by lia.
  split; [done|]. split; [split; [done|cbn; by rewrite (hf_sem _ _ Hfr)]|]. split; [done|].
  unfold regions. rewrite allocated_coalesce, allocated_app. simpl. hconst.
  replace (q - 12 + 12) with q by lia. by rewrite Permutation_middle.
Qed.

(** C36: [rt_malloc] on a well-formed heap returns: either a block of its own,
    four-byte aligned, inside the heap, of at least [size] bytes and apart
    from every block in use, the others staying in use as they were; or null,
    with nothing changed, when no free block has room. A last block of
    exactly the size asked for counts as no room. *)
Theorem rt_malloc_spec k h l size :
  hs_ok (mk_hstate k h) l → 0 < size ≤ 2 ^ 32 - 4 →
  ∃ h' l' p, rt_malloc size (mk_hstate k h) = Ok (mk_hstate k h') p ∧
    hs_ok (mk_hstate k h') l' ∧ heap_bytes h' = heap_bytes h ∧
    ((p = RT_NULL ∧ h' = h ∧ no_room h l (malloc_size size)) ∨
     ∃ q j, p = heap_ptr h + q ∧ p mod 4 = 0 ∧ size ≤ j ∧
       heap_ptr h < p ∧ p + j ≤ heap_end h ∧
       regions h' l' ≡ₚ (q, j) :: regions h l ∧ (∀ r, r ∈ regions h l → apart r (q, j))).
Proof.
  intros Hok Hs. pose proof (ho_core _ _ (hs_heap_ok _ _ Hok)) as Hc. cbn in Hc.
  destruct (rt_malloc_regions k h l size Hok) as (h' & l' & p & E & Hok' & Hfr & Hp); [lia|].
  exists h', l', p. split; [done|]. split; [done|]. split; [apply Hfr|].
  destruct Hp as [(-> & -> & -> & Hr)|(q & j & -> & Hj & Hin & Hperm & Ha)]; [by left|right].
  assert (heap_stop h' = heap_stop h) as Hst by (unfold heap_stop; by rewrite (hf_size _ _ Hfr)).
  pose proof (ho_core _ _ (hs_heap_ok _ _ Hok')) as Hc'. cbn in Hc'.
  destruct (region_inside h' l' q j Hc') as (Hq & _ & Hend & Hal).
  { unfold regions in *. by rewrite Hst. }
  exists q, j. split; [done|]. destruct (hc_base _ _ Hc) as [Hb Hbal].
  split; [by rewrite Z.add_mod, Hbal, Hal by lia|].
  split; [|split; [lia|split; [rewrite (hc_end _ _ Hc); lia|]]].
  - pose proof (RT_ALIGN_up size). unfold malloc_size in Hj. lia.
  - unfold regions in *. by rewrite Hst.
Qed.

(** C37: [rt_free] of a block in use takes exactly that block out of use, gives
    its bytes and its header back to the count, and cannot fail. *)
Theorem rt_free_spec k h l q j :
  hs_ok (mk_hstate k h) l → (q, j) ∈ regions h l →
  ∃ h' l', rt_free (heap_ptr h + q) (mk_hstate k h) = Ok (mk_hstate k h') tt ∧
    hs_ok (mk_hstate k h') l' ∧ heap_bytes h' = heap_bytes h ∧
    regions h l ≡ₚ (q, j) :: regions h' l' ∧
    used_mem h' = used_mem h - (j + SIZEOF_STRUCT_MEM).
Proof.
  intros Hok Hin. destruct (allocated_inv _ _ _ _ Hin) as (l1 & l2 & -> & ->).
  destruct (rt_free_ok k h l1 (q - 12) l2 Hok) as (h' & E & Hok' & Hfr).
  destruct Hok as [Hh Hlk]. cbn in Hlk, Hh.
  assert (heap_stop h' = heap_stop h) as Hst by (unfold heap_stop; by rewrite (hf_size _ _ Hfr)).
  exists h', (coalesce l1 (q - 12) l2).
  replace (heap_ptr h + (q - 12) + 12) with (heap_ptr h + q) in E by lia.
  split; [done|]. split; [split; [done|cbn; by rewrite (hf_sem _ _ Hfr)]|].
  split; [apply Hfr|]. unfold regions. rewrite Hst. split.
  - rewrite allocated_coalesce, allocated_app. simpl. hconst.
    replace (q - 12 + 12) with q by lia. by rewrite Permutation_middle.
  - rewrite (ho_used _ _ Hok'), (ho_used _ _ Hh), Hst, used_total_coalesce, used_total_app.
    simpl. hconst. lia.
Qed.

Lemma coalesce_take E l1 o l2 n :
  separated (l1 ++ (o, false) :: l2) → ∃ r,
  take_layout E l1 o l2 n = l1 ++ (o, true) :: r ∧ coalesce l1 o r = l1 ++ (o, false) :: l2.
Proof.
  intros Hsep. rewrite separated_app in Hsep. simpl in Hsep.
  destruct Hsep as (_ & [Hs _] & Hl). specialize (Hs eq_refl).
  assert (last_free l1 = false) as Hl1 by (destruct (last_free l1); [by specialize (Hl eq_refl)|done]).
  eexists. split; [done|]. unfold coalesce. rewrite Hl1.
  destruct (n + 24 <=? nxt E l2 - (o + 12)); simpl; [done|]. by rewrite Hs.
Qed.

(** freeing what was just allocated restores the layout of the heap and
    the count of used memory. *)
Theorem malloc_free_roundtrip k h l size h1 p :
  hs_ok (mk_hstate k h) l → 0 < size < 2 ^ 32 →
  rt_malloc size (mk_hstate k h) = Ok (mk_hstate k h1) p → p ≠ RT_NULL →
  ∃ h2, rt_free p (mk_hstate k h1) = Ok (mk_hstate k h2) tt ∧ hs_ok (mk_hstate k h2) l ∧
    used_mem h2 = used_mem h.
Proof.
  intros Hok Hs E Hp. pose proof (rt_malloc_ok k h l size Hok Hs) as Hm.
  destruct Hok as [Hh Hlk]. cbn in Hh, Hlk. pose proof (ho_core _ _ Hh) as Hc.
  destruct (malloc_place h l size) as [[[l1 o] l2]|] eqn:Hpl; [|rewrite Hm in E; by simplify_eq].
  destruct Hm as (h' & E' & Hok' & Hfr). rewrite E' in E. simplify_eq.
  assert (l = l1 ++ (o, false) :: l2) as ->.
  { unfold malloc_place in Hpl. destruct (_ <? _); [done|]. by destruct (fit_inv _ _ _ _ _ _ _ Hpl). }
  destruct (coalesce_take (heap_stop h) l1 o l2 (malloc_size size) (ho_separated _ _ Hh)) as (r & El & Er).
  rewrite El in Hok'.
  destruct (rt_free_ok k h1 l1 o r) as (h2 & E2 & Hok2 & Hfr2).
  { split; [done|]. cbn. by rewrite (hf_sem _ _ Hfr). }
  rewrite (hf_ptr _ _ Hfr) in E2. exists h2. split; [done|]. rewrite Er in Hok2.
  split; [split; [done|cbn; by rewrite (hf_sem _ _ Hfr2), (hf_sem _ _ Hfr)]|].
  rewrite (ho_used _ _ Hok2), (ho_used _ _ Hh). unfold heap_stop.
  by rewrite (hf_size _ _ Hfr2), (hf_size _ _ Hfr).
Qed.

(** A request within three bytes of the 32-bit limit is rounded up to zero
    and served like one for twelve bytes: the caller of
    [rt_malloc(0xFFFFFFFF)] gets a block far shorter than it asked for. *)
Theorem rt_malloc_wraps k h l size :
  hs_ok (mk_hstate k h) l → 2 ^ 32 - 4 < size < 2 ^ 32 →
  rt_malloc size (mk_hstate k h) = rt_malloc 12 (mk_hstate k h).
Proof.
  intros [Hh Hlk] Hs. cbn in Hh, Hlk. pose proof (hc_size _ _ (ho_core _ _ Hh)).
  unfold rt_malloc. rewrite (proj2 (Z.eqb_neq size 0)) by lia. cbn [Z.eqb].
  rewrite (RT_ALIGN_wraps size Hs). change (RT_ALIGN 12 RT_ALIGN_SIZE) with 12.
  hstep ltac:(apply heap_context_ok, (hl_nest _ _ Hlk)). symmetry.
  hstep ltac:(apply heap_context_ok, (hl_nest _ _ Hlk)). symmetry. cbv zeta. hget. symmetry. hget.
  cbn [hs_heap]. by rewrite !(proj2 (Z.ltb_ge (mem_size_aligned h) _)) by lia.
Qed.

(** ** Initialisation *)

(** The region between two addresses, as the allocator sees it. *)
Definition heap_room (begin_addr end_addr : ptr) : Z :=
  RT_ALIGN_DOWN end_addr RT_ALIGN_SIZE - RT_ALIGN begin_addr RT_ALIGN_SIZE - 24.

Lemma rt_object_init_boot s o type name :
  k_current s = RT_NULL → k_lock_nest s = 0 → type ∈ rt_object_container →
  Store.unlinked (k_containers s) o →
  rt_object_init o type name s = Ok (object_init o type name s) tt.
Proof.
  intros Hc Hl Ht Hu. unfold rt_object_init. rewrite get_information_some by done.
  assert (rt_enter_critical s = Ok (set_k_lock_nest 1 s) tt) as E1
    by (unfold rt_enter_critical; do 2 kstep; cbn; rewrite Hl; reflexivity).
  assert (rt_exit_critical (set_k_lock_nest 1 s) = Ok s tt) as E2.
  { unfold rt_exit_critical. do 3 kstep. cbn [k_lock_nest set_k_lock_nest set_k_primask].
    change (s16 (1 - 1) <=? 0) with true. cbv iota. do 3 kstep. cbn. rewrite Hc. cbn.
    destruct s. cbn in *. by subst. }
  erewrite bind_ok by exact E1. erewrite bind_ok by reflexivity. cbv beta.
  erewrite bind_ok.
  2:{ apply assert_not_in_ok. apply (proj1 (Store.unlinked_nodes _ _) Hu). }
  erewrite bind_ok by exact E2. do 2 kstep.
  unfold container_link. rewrite bind_assoc. kstep.
  rewrite decide_True by done. kstep. reflexivity.
Qed.

(** The semaphore as [rt_sem_init] leaves it at start-up. *)
Lemma heap_sem_init k sem :
  k_current k = RT_NULL → k_lock_nest k = 0 → k_interrupt_nest k = 0 → sem ≠ RT_NULL →
  Store.unlinked (k_containers k) sem →
  ∃ k', rt_sem_init sem [104; 101; 97; 112] 1 RT_IPC_FLAG_FIFO k = Ok k' RT_EOK ∧ heap_lock k' sem.
Proof.
  intros Hc Hl Hn Hs Hu.
  assert (RT_Object_Class_Semaphore ∈ rt_object_container) as Hin
    by (by vm_compute; repeat (right; try by left)).
  eexists. split.
  - unfold rt_sem_init. rewrite (proj2 (Z.eqb_neq sem RT_NULL)) by done. do 2 kstep.
    erewrite bind_ok by (by apply rt_object_init_boot).
    unfold rt_ipc_object_init. rewrite bind_assoc. kstep. do 2 kstep.
    unfold set_object_flag. erewrite bind_ok by (apply upd_object_ok; cbn; by rewrite lookup_insert_eq).
    reflexivity.
  - split; [|cbn; by rewrite lookup_insert_eq| |done].
    2:{ change (Store.nodes (Store.init (HSuspend sem) (k_tlists k)) (HSuspend sem) = []).
        by rewrite Store.nodes_init, decide_True. }
    eexists. split; [cbn; by rewrite lookup_insert_eq|]. split; [done|].
    by destruct (class_or_static _ Hin (rt_strncpy (obj_name (default zero_object (k_objects k !! sem)))
      [104; 101; 97; 112] RT_NAME_MAX) RT_IPC_FLAG_FIFO).
Qed.

(** at start-up, [rt_system_heap_init] turns the region it is given, its
    ends rounded inwards to words, into a well-formed heap that is one free
    block, with its semaphore free. *)
Theorem rt_system_heap_init_spec k h begin_addr end_addr :
  k_current k = RT_NULL → k_lock_nest k = 0 → k_interrupt_nest k = 0 →
  heap_sem h ≠ RT_NULL → Store.unlinked (k_containers k) (heap_sem h) →
  0 < begin_addr ≤ 2 ^ 32 - 4 → 0 ≤ end_addr < 2 ^ 32 → 12 ≤ heap_room begin_addr end_addr →
  used_mem h = 0 → max_mem h = 0 → zlen (heap_bytes h) = heap_room begin_addr end_addr + 24 →
  ∃ k' h', rt_system_heap_init begin_addr end_addr (mk_hstate k h) = Ok (mk_hstate k' h') tt ∧
    hs_ok (mk_hstate k' h') [(0, false)] ∧
    heap_ptr h' = RT_ALIGN begin_addr RT_ALIGN_SIZE ∧
    heap_end h' = RT_ALIGN_DOWN end_addr RT_ALIGN_SIZE - SIZEOF_STRUCT_MEM.
Proof.
  intros Hc Hl Hn Hs Hu Hb He Hroom Hus Hmx Hby. unfold heap_room in *.
  destruct (RT_ALIGN_up begin_addr) as [Hba Hbal]; [lia|].
  assert (RT_ALIGN_DOWN end_addr RT_ALIGN_SIZE = end_addr - end_addr mod 4) as Hea.
  { unfold RT_ALIGN_DOWN. change RT_ALIGN_SIZE with 4. rewrite land_align4 by apply u32_range.
    by rewrite u32_small. }
  rewrite Hea in *. pose proof (Z.mod_pos_bound end_addr 4).
  assert ((end_addr - end_addr mod 4) mod 4 = 0) as Heal
    by (rewrite Zminus_mod, Z.mod_mod, Z.sub_diag by lia; done).
  set (e := end_addr - end_addr mod 4) in *. set (b := RT_ALIGN begin_addr RT_ALIGN_SIZE) in *.
  destruct (heap_sem_init k (heap_sem h) Hc Hl Hn Hs Hu) as (k' & E & Hlk).
  unfold rt_system_heap_init. cbv zeta. rewrite Hea. fold e b. change SIZEOF_STRUCT_MEM with 12.
  hstep ltac:(by apply heap_context_ok).
  rewrite (u32_small (e - 2 * 12)), (u32_small (e - b - 2 * 12)), (u32_small (e - b - 2 * 12 + 12)) by lia.
  rewrite (proj2 (Z.ltb_lt _ _)), (proj2 (Z.leb_le _ _)) by lia. cbn [andb].
  do 2 hget. hstep ltac:(apply on_kernel_ok; exact E). 
  eexists k', _. split; [reflexivity|]. cbn [heap_ptr heap_end set_lfree].
  split; [|split; [done|cbn; change SIZEOF_STRUCT_MEM with 12; lia]]. split; [|exact Hlk]. cbn [hs_heap].
  assert (∀ x y : Z, x mod 4 = 0 → y mod 4 = 0 → (x - y) mod 4 = 0) as Hsub
    by (intros x y Hx Hy; rewrite Zminus_mod, Hx, Hy; done).
  assert (heap_core (set_lfree b (mk_heap b (b + (e - b - 2 * 12 + 12)) (lfree h) (heap_sem h)
    (e - b - 2 * 12) (used_mem h) (max_mem h)
    (<[b + (e - b - 2 * 12 + 12) := mk_heap_mem HEAP_MAGIC 1 (e - b - 2 * 12 + 12) (e - b - 2 * 12 + 12)]>
      (<[b := mk_heap_mem HEAP_MAGIC 0 (e - b - 2 * 12 + 12) 0]> (heap_mems h)))
    (heap_bytes h))) [(0, false)]) as Hcore.
  { split; cbn; unfold heap_stop; cbn; change SIZEOF_STRUCT_MEM with 12; try done; try lia.
    - split; [lia|]. apply Hsub; [by apply Hsub|done].
    - split; cbn; change SIZEOF_STRUCT_MEM with 12.
      + split; [|split; [lia|done]]. rewrite lookup_insert_ne by lia. rewrite Z.add_0_r.
        by rewrite lookup_insert_eq.
      + exists (e - b - 2 * 12 + 12). by rewrite lookup_insert_eq. }
  split; [exact Hcore|by split|done|cbn; lia].
Qed.

(** when nothing is in use the heap is one free block again: however the
    blocks were allocated and freed, no fragmentation is left behind. *)
Theorem heap_unused_is_whole k h l :
  hs_ok (mk_hstate k h) l → regions h l = [] → l = [(0, false)] ∧ used_mem h = 0.
Proof.
  intros [[Hc Hsep Hu _] _] Hr. cbn in *. pose proof (hc_first _ _ Hc) as Hz.
  pose proof (hc_size _ _ Hc).
  destruct l as [|[o []] l]; [hconst; simpl in *; lia|done|].
  simpl in Hz. subst o. simpl in Hsep. destruct Hsep as [Hs _]. specialize (Hs eq_refl).
  destruct l as [|[o []] l]; [done|done|done].
Qed.
