(* ===== verification/MemRealloc.v ===== *)
(** * Resizing and clearing blocks: [rt_realloc] and [rt_calloc] *)

From Stdlib Require Import ZArith Lia.
From stdpp Require Import base gmap list fin_maps.
From S2P Require Import RTThread.
From S2P Require Import Prelude.
From S2P Require Import Bytes.
From S2P Require Import ListModel.
From S2P Require Import Kernel.
From S2P Require Import Object.
From S2P Require Import IpcList.
From S2P Require Import Semaphore.
From S2P Require Import Mem.
From S2P Require Import MemSpec.
From S2P Require Import MemSafety.

(** ** Shrinking in place *)

Lemma last_free_used l o : last_free (l ++ [(o, true)]) = false.
Proof.
  induction l as [|x l IH]; [done|]. simpl. destruct (l ++ [(o, true)]) eqn:E; [by destruct l|].
  by destruct x.
Qed.

Definition shrunk (h : heap) (p2 : Z) (ms : gmap ptr heap_mem) (used : Z) : heap :=
  set_lfree (if heap_ptr h + p2 <? lfree h then heap_ptr h + p2 else lfree h)
    (set_heap_mems ms (set_used_mem used h)).

Lemma shrunk_core h l1 o l2 p2 ms used :
  heap_core h (l1 ++ (o, true) :: l2) → o < p2 < nxt (heap_stop h) l2 →
  chain (heap_ptr h) (heap_stop h) 0 ms (l1 ++ (o, true) :: (p2, false) :: l2) →
  heap_core (shrunk h p2 ms used) (l1 ++ (o, true) :: (p2, false) :: l2).
Proof.
  intros Hc Hp Hch. destruct (core_block _ _ _ _ _ Hc) as (Hl1 & _ & _ & _ & _ & Hl2).
  eapply core_frame; [exact Hc|by constructor|exact Hch|..].
  - pose proof (hc_first _ _ Hc) as Hz. by rewrite nxt_app in *.
  - pose proof (hc_lfree _ _ Hc) as Hlf. rewrite first_free_app in *. simpl in *. rewrite Hlf.
    pose proof (first_free_range _ _ _ _ _ (proj1 Hl2)).
    destruct (first_free_cases l1) as [Hall|(f & Hf & Hall)]; rewrite !Hall.
    + by rewrite (proj2 (Z.ltb_lt _ _)) by lia.
    + destruct (blocks_range _ _ _ _ _ _ _ Hl1 Hf) as (_ & Hfo & _). hconst.
      by rewrite (proj2 (Z.ltb_ge _ _)) by lia.
Qed.

Lemma rt_realloc_shrinks k h l1 o l2 newsize :
  hs_ok (mk_hstate k h) (l1 ++ (o, true) :: l2) → 0 < newsize ≤ 2 ^ 32 - 4 →
  let ns := RT_ALIGN newsize RT_ALIGN_SIZE in
  ns + 24 < nxt (heap_stop h) l2 - (o + 12) →
  ∃ h', rt_realloc (heap_ptr h + o + 12) newsize (mk_hstate k h)
      = Ok (mk_hstate k h') (heap_ptr h + o + 12) ∧
    heap_ok h' (l1 ++ (o, true) :: (o + 12 + ns, false) :: (if head_free l2 then tail l2 else l2)) ∧
    heap_frame h h'.
Proof.
  intros [Hh Hlk] Hns ns Hlt. cbn in Hh, Hlk. pose proof (ho_core _ _ Hh) as Hc.
  destruct (core_block _ _ _ _ _ Hc) as (Hl1 & Hm & Ho & Hnx & Hal & Hl2).
  destruct (RT_ALIGN_up newsize) as [Hup Hnal]; [lia|]. fold ns in Hup, Hnal.
  pose proof (hc_base _ _ Hc) as [Hb _]. pose proof (hc_end _ _ Hc) as He. pose proof (hc_space _ _ Hc).
  unfold rt_realloc. hstep ltac:(apply heap_context_ok, (hl_nest _ _ Hlk)). cbv zeta. fold ns.
  hget. cbn [hs_heap].
  rewrite (proj2 (Z.ltb_ge (mem_size_aligned h) ns)) by (hconst; lia).
  rewrite (proj2 (Z.eqb_neq ns 0)), (proj2 (Z.eqb_neq _ RT_NULL)) by (change RT_NULL with 0; lia).
  hstep ltac:(by apply heap_take_ok). hget. cbn [hs_heap].
  rewrite (proj2 (Z.ltb_ge _ (heap_ptr h))), (proj2 (Z.leb_gt (heap_end h) _)) by (rewrite ?He; lia).
  cbn [orb]. change SIZEOF_STRUCT_MEM with 12. change MIN_SIZE with 12.
  replace (heap_ptr h + o + 12 - 12) with (heap_ptr h + o) by lia.
  hstep ltac:(apply on_heap_ok, get_mem_ok, Hm). cbn [header hm_next].
  replace (heap_ptr h + o - heap_ptr h) with o by lia. rewrite (u32_small o) by (hconst; lia).
  set (size := nxt (heap_stop h) l2 - o - 12).
  rewrite (u32_small size), (u32_small (ns + 12 + 12)), (u32_small (o + 12 + ns)) by (unfold size; hconst; lia).
  rewrite (proj2 (Z.eqb_neq size ns)), (proj2 (Z.ltb_lt _ size)) by (unfold size; lia).
  hget. cbn [hs_heap].
  set (used := u32 (used_mem h - (size - ns))). set (h1 := set_used_mem used h).
  set (p2 := o + 12 + ns) in *.
  assert (p2 mod 4 = 0) as Hp2 by (unfold p2; rewrite Z.add_mod, (Z.add_mod o), Hnal, Hal by lia; done).
  assert (heap_core h1 (l1 ++ (o, true) :: l2)) as Hc1.
  { eapply core_frame; [exact Hc|by constructor|apply Hc|apply Hc|apply Hc]. }
  destruct (split_mem_ok h1 l1 o true l2 p2 false Hc1) as (ms & E1 & Hch);
    [unfold p2; lia|unfold p2; change (heap_stop h1) with (heap_stop h); lia|done|].
  hstep ltac:(apply (on_heap_ok _ _ h1), E1).
  hstep ltac:(instantiate (1 := tt); instantiate (1 := mk_hstate (put_count (heap_sem h) 0 k)
    (shrunk h p2 ms used)); unfold shrunk; destruct (heap_ptr h + p2 <? lfree h); cbn [when];
    [reflexivity|by destruct h]).
  pose proof (shrunk_core h l1 o l2 p2 ms used Hc ltac:(unfold p2; lia) Hch) as Hc2.
  set (h2 := shrunk h p2 ms used) in *.
  change (l1 ++ (o, true) :: (p2, false) :: l2)
    with (l1 ++ [(o, true)] ++ (p2, false) :: l2) in Hc2.
  rewrite app_assoc in Hc2.
  destruct (plug_holes_ok h2 (l1 ++ [(o, true)]) p2 l2 Hc2) as (ms2 & E2 & Hc3).
  hstep ltac:(apply (on_heap_ok _ _ h2), E2).
  hstep ltac:(by apply (heap_release_ok k (set_heap_mems ms2 h2))).
  exists (set_heap_mems ms2 h2). split; [done|]. split; [|by constructor].
  pose proof (ho_separated _ _ Hh) as Hsep.
  change (l1 ++ (o, true) :: l2) with (l1 ++ [(o, true)] ++ l2) in Hsep. rewrite app_assoc in Hsep.
  rewrite separated_app in Hsep.
  assert (coalesce (l1 ++ [(o, true)]) p2 l2
    = l1 ++ (o, true) :: (p2, false) :: (if head_free l2 then tail l2 else l2)) as Eco.
  { unfold coalesce. rewrite last_free_used, <- app_assoc. done. }
  assert (separated (coalesce (l1 ++ [(o, true)]) p2 l2)) as Hs3
    by (apply coalesce_separated; naive_solver).
  pose proof (used_total_coalesce (heap_stop h) (l1 ++ [(o, true)]) p2 l2) as Hut.
  rewrite Eco in *. rewrite (used_total_app p2 l1) in Hut. simpl in Hut.
  assert (used = used_total (heap_stop h) (l1 ++ (o, true) :: (p2, false) :: (if head_free l2 then tail l2 else l2))) as Hu2.
  { rewrite Hut. unfold used. rewrite (ho_used _ _ Hh), used_total_app. simpl.
    pose proof (used_total_range _ _ _ _ _ Hl1). pose proof (used_total_range _ _ _ _ _ (proj1 Hl2)).
    pose proof (hc_first _ _ Hc) as Hz. rewrite nxt_app in Hz. simpl in Hz. rewrite Hz in *.
    unfold size, p2. rewrite u32_small by (hconst; lia). lia. }
  split; [exact Hc3|done|exact Hu2|].
  pose proof (ho_max _ _ Hh). change (used ≤ max_mem h).
  pose proof (ho_used _ _ Hh) as Hu. rewrite used_total_app in Hu. simpl in Hu.
  rewrite Hu2, Hut. unfold p2. lia.
Qed.

(** ** Copying and clearing *)

Lemma hs_ok_bytes k h l bs :
  hs_ok (mk_hstate k h) l → zlen bs = zlen (heap_bytes h) → hs_ok (mk_hstate k (set_heap_bytes bs h)) l.
Proof.
  intros [[[? ? ? ? ? ? ? ?] ? ? ?] Hlk] Hz. cbn in *.
  split; [|exact Hlk]. split; [|done|done|done]. split; try done. cbn. by rewrite Hz.
Qed.

Lemma heap_memcpy_ok h l q j q' j' n :
  heap_core h l → (q, j) ∈ regions h l → (q', j') ∈ regions h l → 0 ≤ n ≤ j → n ≤ j' →
  heap_memcpy (heap_ptr h + q') (heap_ptr h + q) n h =
    Ok (set_heap_bytes (splice (heap_bytes h) q' (slice (heap_bytes h) q n)) h) tt.
Proof.
  intros Hc Hq Hq' Hn Hn'. destruct (region_inside _ _ _ _ Hc Hq) as (? & ? & ? & _).
  destruct (region_inside _ _ _ _ Hc Hq') as (? & ? & ? & _).
  pose proof (hc_bytes _ _ Hc) as Hz. unfold heap_memcpy. hget.
  replace (heap_ptr h + q' - heap_ptr h) with q' by lia.
  replace (heap_ptr h + q - heap_ptr h) with q by lia.
  erewrite bind_ok by (apply memcpy_ok; rewrite ?Hz; hconst; lia). done.
Qed.

Lemma heap_memset_ok h l q j n c :
  heap_core h l → (q, j) ∈ regions h l → 0 ≤ n ≤ j →
  heap_memset (heap_ptr h + q) c n h =
    Ok (set_heap_bytes (splice (heap_bytes h) q (replicate (Z.to_nat n) c)) h) tt.
Proof.
  intros Hc Hq Hn. destruct (region_inside _ _ _ _ Hc Hq) as (? & ? & ? & _).
  pose proof (hc_bytes _ _ Hc) as Hz. unfold heap_memset. hget.
  replace (heap_ptr h + q - heap_ptr h) with q by lia.
  rewrite wr_ok; [reflexivity|lia|]. unfold zlen at 1. rewrite length_replicate.
  rewrite Hz. hconst. lia.
Qed.

(** What a region holds. *)
Definition content (h : heap) (r : Z * Z) : list Z := slice (heap_bytes h) r.1 r.2.

Lemma content_other h l q j bs r :
  heap_core h l → (q, j) ∈ regions h l → zlen bs ≤ j → r ∈ regions h l → apart r (q, j) →
  content (set_heap_bytes (splice (heap_bytes h) q bs) h) r = content h r.
Proof.
  intros Hc Hq Hbs Hr Ha. destruct r as [a m].
  destruct (region_inside _ _ _ _ Hc Hq) as (? & ? & ? & _).
  destruct (region_inside _ _ _ _ Hc Hr) as (? & ? & ? & _).
  pose proof (hc_bytes _ _ Hc) as Hz. unfold content, apart in *. cbn in *.
  apply slice_splice_other; rewrite ?Hz; hconst; lia.
Qed.

(** [rt_calloc] returns null, or a block apart from the others whose
    [count * size] bytes (on 32 bits) are all zero, the content of every block
    in use being what it was. *)
Theorem rt_calloc_spec k h l count size :
  hs_ok (mk_hstate k h) l →
  let n := u32 (count * size) in n ≤ 2 ^ 32 - 4 →
  ∃ h' l' p, rt_calloc count size (mk_hstate k h) = Ok (mk_hstate k h') p ∧
    hs_ok (mk_hstate k h') l' ∧ (∀ r, r ∈ regions h l → content h' r = content h r) ∧
    ((p = RT_NULL ∧ h' = h) ∨ ∃ q j, p = heap_ptr h + q ∧ 0 < n ≤ j ∧
       regions h' l' ≡ₚ (q, j) :: regions h l ∧ (∀ r, r ∈ regions h l → apart r (q, j)) ∧
       slice (heap_bytes h') q n = replicate (Z.to_nat n) 0).
Proof.
  intros Hok n Hn. unfold rt_calloc. fold n. pose proof (u32_range (count * size)) as Hr. fold n in Hr.
  destruct (Z.eq_dec n 0) as [->|Hne].
  { exists h, l, RT_NULL. split; [done|]. split; [done|]. split; [done|by left]. }
  pose proof (ho_core _ _ (hs_heap_ok _ _ Hok)) as Hc. cbn in Hc. destruct (hc_base _ _ Hc) as [Hb _].
  destruct (rt_malloc_regions k h l n Hok) as (h' & l' & p & E & Hok' & Hfr & Hp); [lia|].
  hstep ltac:(exact E).
  destruct Hp as [(-> & -> & -> & _)|(q & j & -> & Hj & Hin & Hperm & Ha)].
  { exists h, l, RT_NULL. split; [done|]. split; [done|]. split; [done|by left]. }
  pose proof (ho_core _ _ (hs_heap_ok _ _ Hok')) as Hc'. cbn in Hc'.
  assert (heap_stop h' = heap_stop h) as Hst by (unfold heap_stop; by rewrite (hf_size _ _ Hfr)).
  assert (Hreg : ∀ x, regions h x = regions h' x) by (intros; unfold regions; by rewrite Hst).
  assert (n ≤ j) as Hnj.
  { pose proof (RT_ALIGN_up n). unfold malloc_size in Hj. lia. }
  rewrite Hreg in Hin. destruct (region_inside _ _ _ _ Hc' Hin) as (Hq & _ & Hend & _).
  rewrite (proj2 (Z.eqb_neq _ RT_NULL)) by (change RT_NULL with 0; lia). cbn [negb].
  rewrite <- (hf_ptr _ _ Hfr).
  hstep ltac:(apply on_heap_ok; eapply heap_memset_ok; [exact Hc'|exact Hin|lia]).
  set (zs := replicate (Z.to_nat n) 0).
  assert (zlen zs = n) as Hzs by (unfold zlen, zs; rewrite length_replicate; lia).
  pose proof (hc_bytes _ _ Hc') as Hby.
  eexists _, l', _. split; [reflexivity|].
  split; [apply hs_ok_bytes; [done|apply zlen_splice; rewrite ?Hby; hconst; lia]|]. split.
  - intros r Hr'. transitivity (content h' r); [|unfold content; by rewrite (hf_bytes _ _ Hfr)].
    eapply content_other; [exact Hc'|exact Hin|lia| |by apply Ha].
    rewrite <- Hreg, Hperm. by right.
  - right. exists q, j. split; [done|]. split; [lia|].
    split; [by rewrite <- Hperm, Hreg|]. split; [done|].
    transitivity (slice (splice (heap_bytes h') q zs) q (zlen zs)); [by rewrite Hzs|].
    apply slice_splice_same; rewrite ?Hby; hconst; lia.
Qed.

(** ** The branches of [rt_realloc] on a block in use *)

(** The end of the call: allocate, copy, release. *)
Definition realloc_move (rmem size newsize : Z) : ST hstate ptr :=
  nmem ← rt_malloc newsize;
  (if negb (nmem =? RT_NULL) then
     on_heap (heap_memcpy nmem rmem (if size <? newsize then size else newsize));;
     rt_free rmem
   else mret ());;
  mret nmem.

Lemma rt_realloc_branches k h l q j newsize :
  hs_ok (mk_hstate k h) l → (q, j) ∈ regions h l → 0 < newsize ≤ 2 ^ 32 - 4 →
  let ns := RT_ALIGN newsize RT_ALIGN_SIZE in
  j ≤ ns + 24 →
  rt_realloc (heap_ptr h + q) newsize (mk_hstate k h) =
    (if mem_size_aligned h <? ns then mret RT_NULL
     else if j =? ns then mret (heap_ptr h + q)
     else realloc_move (heap_ptr h + q) j ns) (mk_hstate k h).
Proof.
  intros [Hh Hlk] Hin Hns ns Hj. cbn in Hh, Hlk. pose proof (ho_core _ _ Hh) as Hc.
  destruct (RT_ALIGN_up newsize) as [Hup _]; [lia|]. fold ns in Hup.
  destruct (region_inside _ _ _ _ Hc Hin) as (Hq & Hj0 & Hend & _).
  destruct (allocated_inv _ _ _ _ Hin) as (l1 & l2 & El & Ej).
  pose proof (hc_base _ _ Hc) as [Hb _]. pose proof (hc_end _ _ Hc) as He. pose proof (hc_space _ _ Hc).
  assert (heap_mems h !! (heap_ptr h + q - 12) = Some (header true (q + j) (lst 0 l1))) as Hm.
  { rewrite El in Hc. destruct (core_block _ _ _ _ _ Hc) as (_ & Hm & _).
    replace (q + j) with (nxt (heap_stop h) l2) by lia.
    by replace (heap_ptr h + q - 12) with (heap_ptr h + (q - 12)) by lia. }
  unfold rt_realloc. hstep ltac:(apply heap_context_ok, (hl_nest _ _ Hlk)). cbv zeta. fold ns.
  hget. cbn [hs_heap]. destruct (Z.ltb_spec (mem_size_aligned h) ns) as [Hbig|Hbig]; [done|].
  rewrite (proj2 (Z.eqb_neq ns 0)), (proj2 (Z.eqb_neq _ RT_NULL)) by (change RT_NULL with 0; lia).
  hstep ltac:(by apply heap_take_ok). hget. cbn [hs_heap].
  rewrite (proj2 (Z.ltb_ge _ (heap_ptr h))), (proj2 (Z.leb_gt (heap_end h) _)) by (rewrite ?He; lia).
  cbn [orb]. change SIZEOF_STRUCT_MEM with 12. change MIN_SIZE with 12.
  hstep ltac:(apply on_heap_ok, get_mem_ok, Hm). cbn [header hm_next].
  replace (heap_ptr h + q - 12 - heap_ptr h) with (q - 12) by lia.
  rewrite (u32_small (q - 12)) by (hconst; lia).
  replace (q + j - (q - 12) - 12) with j by lia.
  rewrite (u32_small j), (u32_small (ns + 12 + 12)) by (hconst; lia).
  destruct (Z.eqb_spec j ns) as [Heq|Hneq]; [by hstep ltac:(by apply heap_release_ok)|].
  rewrite (proj2 (Z.ltb_ge _ j)) by lia. by hstep ltac:(by apply heap_release_ok).
Qed.

Lemma realloc_move_ok k h l q j ns rest :
  hs_ok (mk_hstate k h) l → regions h l ≡ₚ (q, j) :: rest → 0 < ns < 2 ^ 32 →
  RT_ALIGN ns RT_ALIGN_SIZE = ns →
  ∃ h' l' p, realloc_move (heap_ptr h + q) j ns (mk_hstate k h) = Ok (mk_hstate k h') p ∧
    hs_ok (mk_hstate k h') l' ∧
    ((p = RT_NULL ∧ h' = h) ∨ ∃ q' j', p = heap_ptr h + q' ∧ ns ≤ j' ∧
       regions h' l' ≡ₚ (q', j') :: rest ∧
       content h' (q', Z.min j ns) = content h (q, Z.min j ns) ∧
       ∀ r, r ∈ rest → content h' r = content h r).
Proof.
  intros Hok Hrest Hns Hns2. unfold realloc_move.
  pose proof (ho_core _ _ (hs_heap_ok _ _ Hok)) as Hc. cbn in Hc. pose proof (hc_base _ _ Hc) as [Hb _].
  assert ((q, j) ∈ regions h l) as Hin by (rewrite Hrest; left).
  destruct (rt_malloc_regions k h l ns Hok) as (h1 & ly1 & p & E & Hok1 & Hfr & Hp); [lia|].
  hstep ltac:(exact E).
  destruct Hp as [(-> & -> & -> & _)|(q' & j' & -> & Hj' & Hin' & Hperm & Ha)].
  { exists h, l, RT_NULL. split; [done|]. split; [done|by left]. }
  pose proof (ho_core _ _ (hs_heap_ok _ _ Hok1)) as Hc1. cbn in Hc1.
  assert (heap_stop h1 = heap_stop h) as Hst by (unfold heap_stop; by rewrite (hf_size _ _ Hfr)).
  assert (Hreg : ∀ x, regions h x = regions h1 x) by (intros; unfold regions; by rewrite Hst).
  assert (ns ≤ j') as Hnj by (unfold malloc_size in Hj'; rewrite Hns2 in Hj'; lia).
  assert ((q, j) ∈ regions h ly1) as Hq1 by (rewrite Hperm; right; exact Hin).
  rewrite Hreg in Hin', Hq1, Hperm.
  destruct (region_inside _ _ _ _ Hc1 Hin') as (Hq' & _ & Hend' & _).
  destruct (region_inside _ _ _ _ Hc1 Hq1) as (Hq & Hj0 & Hend & _).
  rewrite (proj2 (Z.eqb_neq _ RT_NULL)) by (change RT_NULL with 0; lia). cbn [negb].
  assert ((if j <? ns then j else ns) = Z.min j ns) as -> by (destruct (Z.ltb_spec j ns); lia).
  rewrite bind_assoc. rewrite <- (hf_ptr _ _ Hfr).
  hstep ltac:(apply on_heap_ok; eapply heap_memcpy_ok; [exact Hc1|exact Hq1|exact Hin'|lia|lia]).
  set (n := Z.min j ns). set (bs := slice (heap_bytes h1) q n). set (h2 := set_heap_bytes _ h1).
  pose proof (hc_bytes _ _ Hc1) as Hby.
  assert (zlen bs = n) as Hbs by (apply zlen_slice; rewrite ?Hby; hconst; lia).
  assert (hs_ok (mk_hstate k h2) ly1) as Hok2.
  { apply hs_ok_bytes; [done|]. apply zlen_splice; rewrite ?Hby; hconst; lia. }
  destruct (rt_free_regions k h2 ly1 q j Hok2 Hq1) as (h3 & ly3 & E3 & Hok3 & Hfr3 & Hperm3).
  hstep ltac:(exact E3). exists h3, ly3, (heap_ptr h1 + q'). split; [done|]. split; [done|]. right.
  assert (heap_stop h3 = heap_stop h1) as Hst3 by (unfold heap_stop; by rewrite (hf_size _ _ Hfr3)).
  assert (Hct : ∀ r, content h3 r = content h2 r) by (intros; unfold content; by rewrite (hf_bytes _ _ Hfr3)).
  exists q', j'. split; [by rewrite (hf_ptr _ _ Hfr)|]. split; [lia|]. split; [|split].
  - unfold regions at 1. rewrite Hst3. change (allocated (heap_stop h1) ly3) with (regions h2 ly3).
    apply (Permutation_cons_inv (a := (q, j))). rewrite <- Hperm3.
    change (regions h2 ly1) with (regions h1 ly1). rewrite Hperm, Hrest. constructor.
  - rewrite Hct. unfold content, h2. cbn. fold n. rewrite <- Hbs at 1.
    rewrite slice_splice_same by (rewrite ?Hby; hconst; lia).
    unfold bs. by rewrite (hf_bytes _ _ Hfr).
  - intros r Hr. rewrite Hct. assert (r ∈ regions h l) as Hrl by (rewrite Hrest; by right).
    transitivity (content h1 r); [|unfold content; by rewrite (hf_bytes _ _ Hfr)].
    eapply content_other; [exact Hc1|exact Hin'|lia| |by apply Ha].
    rewrite Hperm. by right.
Qed.

(** A prefix of equal contents. *)
Lemma content_prefix h h' q q' n m :
  0 ≤ q → 0 ≤ q' → 0 ≤ m ≤ n → content h' (q', n) = content h (q, n) →
  content h' (q', m) = content h (q, m).
Proof.
  unfold content. cbn. intros Hq Hq' Hm E.
  pose proof (slice_slice (heap_bytes h') q' n 0 m) as E1.
  pose proof (slice_slice (heap_bytes h) q n 0 m) as E2.
  rewrite Z.add_0_r in E1, E2. rewrite <- E1, <- E2, E by lia. done.
Qed.

Lemma RT_ALIGN_aligned n : 0 ≤ n ≤ 2 ^ 32 - 4 → n mod 4 = 0 → RT_ALIGN n RT_ALIGN_SIZE = n.
Proof.
  intros Hn Hal. destruct (RT_ALIGN_up n Hn) as [Hup Hal2].
  pose proof (Z.div_mod n 4). pose proof (Z.div_mod (RT_ALIGN n RT_ALIGN_SIZE) 4). lia.
Qed.

(** The sizes that stay positive when rounded up. *)
Lemma rt_realloc_sized k h l q j newsize :
  hs_ok (mk_hstate k h) l → (q, j) ∈ regions h l → 0 < newsize ≤ 2 ^ 32 - 4 →
  ∃ h' l' p, rt_realloc (heap_ptr h + q) newsize (mk_hstate k h) = Ok (mk_hstate k h') p ∧
    hs_ok (mk_hstate k h') l' ∧
    ((p = RT_NULL ∧ h' = h) ∨ ∃ q' j' rest, p = heap_ptr h + q' ∧ newsize ≤ j' ∧
       regions h l ≡ₚ (q, j) :: rest ∧ regions h' l' ≡ₚ (q', j') :: rest ∧
       content h' (q', Z.min j newsize) = content h (q, Z.min j newsize) ∧
       ∀ r, r ∈ rest → content h' r = content h r).
Proof.
  intros Hok Hin Hns. destruct (RT_ALIGN_up newsize) as [Hup Hal]; [lia|].
  set (ns := RT_ALIGN newsize RT_ALIGN_SIZE) in *.
  destruct (allocated_inv _ _ _ _ Hin) as (l1 & l2 & El & Ej).
  pose proof (ho_core _ _ (hs_heap_ok _ _ Hok)) as Hc. cbn in Hc. pose proof (hc_base _ _ Hc) as [Hb _].
  destruct (region_inside _ _ _ _ Hc Hin) as (Hq & Hj0 & Hend & _). pose proof (hc_space _ _ Hc).
  assert (regions h l ≡ₚ (q, j) :: (allocated (q - 12) l1 ++ allocated (heap_stop h) l2)) as Hrest.
  { unfold regions. rewrite El, allocated_app. simpl. hconst.
    replace (q - 12 + 12) with q by lia. rewrite <- Ej. by rewrite Permutation_middle. }
  set (rest := allocated (q - 12) l1 ++ allocated (heap_stop h) l2) in *.
  destruct (Z.lt_ge_cases (ns + 24) j) as [Hshr|Hgrow].
  - subst l. destruct (rt_realloc_shrinks k h l1 (q - 12) l2 newsize Hok Hns) as (h' & E & Hh' & Hfr).
    { fold ns. lia. }
    replace (heap_ptr h + (q - 12) + 12) with (heap_ptr h + q) in E by lia.
    assert (heap_stop h' = heap_stop h) as Hst by (unfold heap_stop; by rewrite (hf_size _ _ Hfr)).
    eexists h', _, _. split; [exact E|].
    split; [split; [exact Hh'|cbn; rewrite (hf_sem _ _ Hfr); apply Hok]|]. right.
    exists q, ns, rest. split; [done|]. split; [lia|]. split; [done|]. split; [|split].
    + unfold regions. rewrite Hst, allocated_app. simpl. hconst. fold ns.
      replace (q - 12 + 12 + ns - (q - 12 + 12)) with ns by lia.
      replace (q - 12 + 12) with q by lia. unfold rest. rewrite Permutation_middle.
      clear. by destruct l2 as [|[? []]].
    + unfold content. by rewrite (hf_bytes _ _ Hfr).
    + intros r _. unfold content. by rewrite (hf_bytes _ _ Hfr).
  - rewrite (rt_realloc_branches k h l q j newsize Hok Hin Hns) by (fold ns; lia). fold ns.
    destruct (Z.ltb_spec (mem_size_aligned h) ns) as [Hbig|Hbig].
    { exists h, l, RT_NULL. split; [done|]. split; [done|by left]. }
    destruct (Z.eqb_spec j ns) as [Heq|Hneq].
    { exists h, l, (heap_ptr h + q). split; [done|]. split; [done|]. right.
      exists q, j, rest. split; [done|]. split; [lia|]. done. }
    assert (RT_ALIGN ns RT_ALIGN_SIZE = ns) as Hns2 by (apply RT_ALIGN_aligned; [hconst; lia|done]).
    destruct (realloc_move_ok k h l q j ns rest Hok Hrest) as (h' & l' & p & E & Hok' & Hp); [hconst; lia|done|].
    exists h', l', p. split; [done|]. split; [done|].
    destruct Hp as [?|(q' & j' & -> & Hj' & Hperm & Hcnt & Hoth)]; [by left|right].
    exists q', j', rest. split; [done|]. split; [lia|]. split; [done|]. split; [done|]. split; [|done].
    eapply content_prefix; [lia| | |exact Hcnt]; [|lia].
    pose proof (ho_core _ _ (hs_heap_ok _ _ Hok')) as Hc'. cbn in Hc'.
    destruct (region_inside h' l' q' j' Hc'); [rewrite Hperm; left|lia].
Qed.

(** The other sizes: the call frees the block and returns null. *)
Lemma rt_realloc_frees k h l q newsize :
  hs_ok (mk_hstate k h) l → RT_ALIGN newsize RT_ALIGN_SIZE = 0 →
  rt_realloc (heap_ptr h + q) newsize (mk_hstate k h) =
    (rt_free (heap_ptr h + q);; mret RT_NULL) (mk_hstate k h).
Proof.
  intros [Hh Hlk] Hz. cbn in Hh, Hlk. pose proof (hc_size _ _ (ho_core _ _ Hh)).
  unfold rt_realloc. hstep ltac:(apply heap_context_ok, (hl_nest _ _ Hlk)). cbv zeta. rewrite Hz.
  hget. cbn [hs_heap]. rewrite (proj2 (Z.ltb_ge (mem_size_aligned h) 0)) by (hconst; lia). done.
Qed.

(** C38: [rt_realloc] of a block in use, for every new size of 32 bits. If
    the size is 0, or more than 2^32-4, the largest multiple of four, so that
    rounding it up wraps to 0, the block is freed and null is returned. For any other size the call returns either null, the block being
    still in use and nothing changed, or a block of at least the new size that
    replaces it and begins with the same bytes, as many as both sizes have. In
    each case every other block stays in use with its content. A caller
    cannot tell the two meanings of null apart by the result alone. *)
Theorem rt_realloc_spec k h l q j newsize :
  hs_ok (mk_hstate k h) l → (q, j) ∈ regions h l → 0 ≤ newsize < 2 ^ 32 →
  ∃ h' l' p, rt_realloc (heap_ptr h + q) newsize (mk_hstate k h) = Ok (mk_hstate k h') p ∧
    hs_ok (mk_hstate k h') l' ∧
    if decide (newsize = 0 ∨ 2 ^ 32 - 4 < newsize) then
      p = RT_NULL ∧ regions h l ≡ₚ (q, j) :: regions h' l' ∧
      ∀ r, r ∈ regions h' l' → content h' r = content h r
    else
      (p = RT_NULL ∧ h' = h) ∨ ∃ q' j' rest, p = heap_ptr h + q' ∧ newsize ≤ j' ∧
        regions h l ≡ₚ (q, j) :: rest ∧ regions h' l' ≡ₚ (q', j') :: rest ∧
        content h' (q', Z.min j newsize) = content h (q, Z.min j newsize) ∧
        ∀ r, r ∈ rest → content h' r = content h r.
Proof.
  intros Hok Hin Hns. destruct (decide _) as [Hz|Hz].
  - destruct (rt_free_regions k h l q j Hok Hin) as (h' & l' & E & Hok' & Hfr & Hperm).
    exists h', l', RT_NULL. split; [|split; [done|split; [done|split]]].
    + rewrite (rt_realloc_frees k h l) by (done || (destruct Hz as [-> | ?]; [done|apply RT_ALIGN_wraps; lia])).
      by erewrite bind_ok by exact E.
    + rewrite Hperm. unfold regions, heap_stop. by rewrite (hf_size _ _ Hfr).
    + intros r _. unfold content. by rewrite (hf_bytes _ _ Hfr).
  - destruct (rt_realloc_sized k h l q j newsize Hok Hin) as (h' & l' & p & E & Hok' & Hp); [lia|].
    by exists h', l', p.
Qed.
