(* ===== verification/KHeap.v ===== *)
(** * [kservice.c] on the heap: [rt_strdup], [rt_malloc_align], [rt_free_align]

    And the two memory routines the allocator itself uses, on its blocks. *)

From Stdlib Require Import ZArith Lia.
From stdpp Require Import base gmap list.
From S2P Require Import RTThread.
From S2P Require Import Prelude.
From S2P Require Import Bytes.
From S2P Require Import Kernel.
From S2P Require Import KMemory.
From S2P Require Import KString.
From S2P Require Import Mem.
From S2P Require Import MemSpec.
From S2P Require Import MemSafety.
From S2P Require Import MemRealloc.

(** ** The functions *)

(** A routine of [KMemory] on the bytes of the heap: address [heap_ptr] is
    index 0, and both are multiples of four. *)
Definition on_heap_bytes {A} (m : ST (list Z) A) : ST heap A := λ h,
  match m (heap_bytes h) with
  | Ok b a => Ok (set_heap_bytes b h) a
  | Err e => Err e
  end.
(** A routine that reads memory outside the heap. *)
Definition reading {S A} (m : list Z) (f : ST (list Z) A) : ST S A := λ s,
  match f m with Ok _ a => Ok s a | Err e => Err e end.

(** [s] is the memory the pointer reaches. *)
Definition rt_strdup (s : list Z) : ST hstate ptr :=
  n ← reading s (rt_strlen 0);
  let len := u32 (n + 1) in
  tmp ← rt_malloc len;
  if tmp =? RT_NULL then mret RT_NULL
  else
    h ← on_heap get;
    b ← memcpy (heap_bytes h) (tmp - heap_ptr h) s 0 len;
    on_heap (modify (set_heap_bytes b));;
    mret tmp.

(** [sizeof(void* )] less one; the address of the block is kept in the word
    before the aligned address. *)
Definition rt_malloc_align (size align : Z) : ST hstate ptr :=
  let uintptr_size := 4 - 1 in
  let align := Z.land (u32 (align + uintptr_size)) (Z.lnot uintptr_size) in
  let align_size := u32 (Z.land (u32 (size + uintptr_size)) (Z.lnot uintptr_size) + align) in
  p ← rt_malloc align_size;
  if negb (p =? RT_NULL) then
    let align_ptr :=
      if Z.land p (align - 1) =? 0 then u32 (p + align)
      else Z.land (u32 (p + (align - 1))) (Z.lnot (align - 1)) in
    h ← on_heap get;
    on_heap (on_heap_bytes (store32 (align_ptr - 4 - heap_ptr h) p));;
    mret align_ptr
  else mret p.

Definition rt_free_align (p : ptr) : ST hstate unit :=
  h ← on_heap get;
  real_ptr ← on_heap (on_heap_bytes (load32 (p - 4 - heap_ptr h)));
  rt_free real_ptr.

(** ** The memory routines of the allocator *)

(** Where the allocator clears a block, [rt_memset] on the bytes of the heap
    does what the model of the allocator says. *)
Theorem heap_memset_is_rt_memset h l q j n c :
  heap_core h l → (q, j) ∈ regions h l → 0 ≤ n ≤ j → 0 ≤ c < 256 →
  heap_memset (heap_ptr h + q) c n h = on_heap_bytes (rt_memset q c n;; mret ()) h.
Proof.
  intros Hc Hq Hn Hb. rewrite (heap_memset_ok h l q j n c) by done.
  destruct (region_inside _ _ _ _ Hc Hq) as (? & ? & ? & _). pose proof (hc_bytes _ _ Hc) as Hz.
  unfold on_heap_bytes.
  rewrite (bind_ok _ _ _ _ _ (rt_memset_ok (heap_bytes h) q c n ltac:(lia) ltac:(lia) ltac:(rewrite Hz; hconst; lia))).
  unfold mret, ST_ret. do 4 f_equal. symmetry. by apply Z.mod_small.
Qed.

(** Where it moves the content of a block to another one, so does [rt_memcpy]. *)
Theorem heap_memcpy_is_rt_memcpy h l q j q' j' n :
  heap_core h l → Forall is_byte (heap_bytes h) → (q, j) ∈ regions h l → (q', j') ∈ regions h l →
  apart (q, j) (q', j') → 0 ≤ n ≤ j → n ≤ j' → n < 2 ^ 31 →
  heap_memcpy (heap_ptr h + q') (heap_ptr h + q) n h = on_heap_bytes (rt_memcpy q' q n;; mret ()) h.
Proof.
  intros Hc Hby Hq Hq' Ha Hn Hn' Hs. rewrite (heap_memcpy_ok h l q j q' j' n) by done.
  destruct (region_inside _ _ _ _ Hc Hq) as (? & ? & ? & _).
  destruct (region_inside _ _ _ _ Hc Hq') as (? & ? & ? & _). pose proof (hc_bytes _ _ Hc) as Hz.
  unfold on_heap_bytes, apart in *. cbn in Ha. assert (zlen (heap_bytes h) = heap_stop h + 12) as Hz' by exact Hz.
  by rewrite (bind_ok _ _ _ _ _ (rt_memcpy_ok (heap_bytes h) q' q n Hby ltac:(lia) ltac:(lia) ltac:(lia)
    ltac:(lia) ltac:(lia) ltac:(lia))).
Qed.

(** ** Duplicating a string *)

Lemma cstr_intro m s a : 0 ≤ a → a + zlen s < zlen m → Forall (λ c, c ≠ 0) s →
  slice m a (zlen s + 1) = s ++ [0] → cstr m a s.
Proof.
  intros Ha Hl Hs. revert a Ha Hl. induction Hs as [|c s Hc Hs IH]; intros a Ha Hl E.
  - change (zlen (@nil Z)) with 0 in *. constructor; [lia|].
    rewrite <- (Z.add_0_r a), <- (byte_slice m a (0 + 1) 0), E by lia. done.
  - rewrite zlen_cons in *. pose proof (zlen_nonneg s).
    rewrite (slice_split m a _ 1) in E by lia.
    assert (zlen (slice m a 1) = 1) as Hz by (apply zlen_slice; lia).
    destruct (slice m a 1) as [|c' [|]] eqn:E1; unfold zlen in Hz; simpl in Hz; try lia. simpl in E.
    injection E as -> E. constructor; [lia| |done|].
    + rewrite <- (Z.add_0_r a), <- (byte_slice m a 1 0), E1 by lia. done.
    + apply IH; [lia|lia|]. replace (1 + zlen s + 1 - 1) with (zlen s + 1) in E by lia. exact E.
Qed.
Lemma cstr_end m a s : cstr m a s → byte m (a + zlen s) = 0.
Proof.
  induction 1; [change (zlen (@nil Z)) with 0; by rewrite Z.add_0_r|].
  by rewrite zlen_cons, Z.add_assoc.
Qed.
Lemma cstr_bytes m s : cstr m 0 s → slice m 0 (zlen s + 1) = s ++ [0].
Proof.
  intros H. destruct (cstr_inside _ _ _ H). pose proof (zlen_nonneg s).
  rewrite (slice_split m 0 _ (zlen s)), (cstr_slice _ _ _ H) by lia. f_equal. rewrite Z.add_0_l.
  replace (zlen s + 1 - zlen s) with 1 by lia.
  apply byte_eq; [by rewrite zlen_slice by lia|]. rewrite zlen_slice by lia. intros i Hi.
  rewrite byte_slice by lia. replace i with 0 by lia. rewrite Z.add_0_r. change (byte [0] 0) with 0.
  exact (cstr_end _ _ _ H).
Qed.

(** Storing into a block that was just allocated. *)
Lemma store_new_block k h h' l l' q j bs :
  hs_ok (mk_hstate k h') l' → heap_frame h h' → (q, j) ∈ regions h' l' → regions h' l' ≡ₚ (q, j) :: regions h l →
  (∀ r, r ∈ regions h l → apart r (q, j)) → zlen bs ≤ j →
  let h2 := set_heap_bytes (splice (heap_bytes h') q bs) h' in
  hs_ok (mk_hstate k h2) l' ∧ slice (heap_bytes h2) q (zlen bs) = bs ∧
  ∀ r, r ∈ regions h l → content h2 r = content h r.
Proof.
  intros Hok Hfr Hin Hperm Ha Hj h2. pose proof (ho_core _ _ (hs_heap_ok _ _ Hok)) as Hc. cbn in Hc.
  destruct (region_inside _ _ _ _ Hc Hin) as (? & ? & ? & _). pose proof (hc_bytes _ _ Hc) as Hz.
  pose proof (zlen_nonneg bs). split; [apply hs_ok_bytes; [done|apply zlen_splice; rewrite ?Hz; hconst; lia]|].
  split; [apply slice_splice_same; rewrite ?Hz; hconst; lia|].
  intros r Hr. transitivity (content h' r); [|unfold content; by rewrite (hf_bytes _ _ Hfr)].
  eapply content_other; [exact Hc|exact Hin|done| |by apply Ha]. rewrite Hperm. by right.
Qed.

(** [rt_strdup] gives a copy of the string in a block of its own, or null with
    the heap unchanged. *)
Theorem rt_strdup_spec k h l s str :
  hs_ok (mk_hstate k h) l → cstr s 0 str → zlen str + 1 ≤ 2 ^ 32 - 4 →
  ∃ h' l' p, rt_strdup s (mk_hstate k h) = Ok (mk_hstate k h') p ∧ hs_ok (mk_hstate k h') l' ∧
    ((p = RT_NULL ∧ h' = h) ∨ ∃ q j, p = heap_ptr h + q ∧ regions h' l' ≡ₚ (q, j) :: regions h l ∧
       (∀ r, r ∈ regions h l → apart r (q, j)) ∧ zlen str + 1 ≤ j ∧
       cstr (heap_bytes h') q str ∧ ∀ r, r ∈ regions h l → content h' r = content h r).
Proof.
  intros Hok Hs Hlen. pose proof (zlen_nonneg str). unfold rt_strdup.
  hstep ltac:(unfold reading; rewrite (rt_strlen_ok _ _ _ Hs); reflexivity). cbv zeta. rewrite u32_small by lia.
  pose proof (ho_core _ _ (hs_heap_ok _ _ Hok)) as Hc. cbn in Hc. destruct (hc_base _ _ Hc) as [Hb _].
  destruct (rt_malloc_regions k h l (zlen str + 1) Hok) as (h' & l' & p & E & Hok' & Hfr & Hp); [lia|].
  hstep ltac:(exact E).
  destruct Hp as [(-> & -> & -> & _)|(q & j & -> & Hj & Hin & Hperm & Ha)].
  { exists h, l, RT_NULL. split; [done|]. split; [done|by left]. }
  pose proof (ho_core _ _ (hs_heap_ok _ _ Hok')) as Hc'. cbn in Hc'.
  assert (Hreg : ∀ x, regions h x = regions h' x) by (intros; unfold regions, heap_stop; by rewrite (hf_size _ _ Hfr)).
  rewrite Hreg in Hin, Hperm. destruct (region_inside _ _ _ _ Hc' Hin) as (Hq & _ & Hend & _).
  assert (zlen str + 1 ≤ j) as Hnj by (pose proof (RT_ALIGN_up (zlen str + 1)); unfold malloc_size in Hj; lia).
  rewrite (proj2 (Z.eqb_neq _ RT_NULL)) by (change RT_NULL with 0; lia).
  hget. cbn [hs_heap]. rewrite <- (hf_ptr _ _ Hfr). replace (heap_ptr h' + q - heap_ptr h') with q by lia.
  pose proof (cstr_inside _ _ _ Hs). pose proof (hc_bytes _ _ Hc') as Hz.
  hstep ltac:(apply memcpy_ok; rewrite ?Hz; hconst; lia). rewrite (cstr_bytes _ _ Hs). hget.
  assert (zlen (str ++ [0]) = zlen str + 1) as Hz1 by (by rewrite zlen_app).
  destruct (store_new_block k h h' l l' q j (str ++ [0]) Hok' Hfr Hin Hperm Ha) as (Hok2 & Hsl & Hrest); [lia|].
  eexists _, l', _. split; [reflexivity|]. split; [exact Hok2|]. right. exists q, j.
  split; [done|]. split; [exact Hperm|]. split; [exact Ha|]. split; [done|]. split; [|exact Hrest].
  apply cstr_intro; [lia| |by eapply cstr_nonzero|by rewrite <- Hz1].
  cbn. rewrite zlen_splice; rewrite ?Hz, ?Hz1; hconst; lia.
Qed.

(** ** Aligned blocks *)

Lemma land_mask x n : 0 ≤ n → Z.land x (2 ^ n - 1) = x mod 2 ^ n.
Proof. intros. rewrite <- Z.land_ones by done. f_equal. rewrite Z.ones_equiv. lia. Qed.
Lemma land_not_pow2 x n : 0 ≤ n → Z.land x (Z.lnot (2 ^ n - 1)) = x - x mod 2 ^ n.
Proof.
  intros Hn. assert (2 ^ n - 1 = Z.ones n) as -> by (rewrite Z.ones_equiv; lia).
  rewrite <- Z.ldiff_land, Z.ldiff_ones_r, Z.shiftl_mul_pow2, Z.shiftr_div_pow2 by done.
  pose proof (Z.div_mod x (2 ^ n) ltac:(apply Z.pow_nonzero; lia)). lia.
Qed.
Lemma of_le32_le32 w : 0 ≤ w < 2 ^ 32 → of_le32 (le32 w) = w.
Proof.
  intros. unfold le32, of_le32, u8. simpl nth. rewrite !Z.shiftl_mul_pow2, !Z.shiftr_div_pow2 by lia.
  change (2 ^ 8) with 256. change (2 ^ 16) with 65536. change (2 ^ 24) with 16777216.
  Z.to_euclidean_division_equations. lia.
Qed.

(** The address computed in a block at [p]: aligned, with room for the hidden
    word before it and for [size] bytes behind it. *)
Definition aligned_address (p align : Z) : Z :=
  if Z.land p (align - 1) =? 0 then u32 (p + align) else Z.land (u32 (p + (align - 1))) (Z.lnot (align - 1)).
Lemma aligned_address_ok p n : 2 ≤ n → p mod 4 = 0 → 0 ≤ p → p + 2 ^ n < 2 ^ 32 →
  let a := aligned_address p (2 ^ n) in a mod 2 ^ n = 0 ∧ p + 4 ≤ a ≤ p + 2 ^ n ∧ a mod 4 = 0.
Proof.
  intros Hn Hp Hp0 Hlt a. assert (0 < 2 ^ n) as Hpos by lia.
  assert (2 ^ n = 4 * 2 ^ (n - 2)) as H4.
  { change 4 with (2 ^ 2) at 1. rewrite <- Z.pow_add_r by lia. f_equal. lia. }
  assert (0 < 2 ^ (n - 2)) by lia.
  pose proof (Z.div_mod p (2 ^ n) ltac:(lia)) as Hdm. pose proof (Z.mod_pos_bound p (2 ^ n) Hpos) as Hm.
  assert (a = p - p mod 2 ^ n + 2 ^ n) as Ha.
  { unfold a, aligned_address. rewrite land_mask by lia. destruct (Z.eqb_spec (p mod 2 ^ n) 0) as [E|E].
    - rewrite u32_small by lia. lia.
    - rewrite land_not_pow2, u32_small by lia.
      assert ((p + (2 ^ n - 1)) mod 2 ^ n = p mod 2 ^ n - 1) as ->; [|lia].
      symmetry. apply (Z.mod_unique_pos _ _ (p / 2 ^ n + 1)); nia. }
  assert (a mod 2 ^ n = 0) as Ha0.
  { rewrite Ha. symmetry. apply (Z.mod_unique_pos _ _ (p / 2 ^ n + 1)); nia. }
  assert (Hmod4 : ∀ x, x mod 2 ^ n mod 4 = x mod 4).
  { intros x. rewrite H4. apply Z.mod_mod_divide. exists (2 ^ (n - 2)). lia. }
  split; [done|]. rewrite <- (Hmod4 a), Ha0. split; [|done].
  rewrite <- Hmod4 in Hp. pose proof (Z.div_mod (p mod 2 ^ n) 4 ltac:(lia)). lia.
Qed.

Lemma round_up4 x : 0 ≤ x < 2 ^ 32 - 4 → let r := Z.land (u32 (x + 3)) (Z.lnot 3) in x ≤ r < x + 4 ∧ r mod 4 = 0.
Proof.
  intros Hx r. unfold r. rewrite u32_small by lia. change (Z.lnot 3) with (Z.lnot (2 ^ 2 - 1)). rewrite land_not_pow2 by lia.
  change (2 ^ 2) with 4. pose proof (Z.mod_pos_bound (x + 3) 4). split; [lia|].
  rewrite Zminus_mod, Z.mod_mod, Z.sub_diag by lia. done.
Qed.
Lemma round_up4_pow2 n : 2 ≤ n < 31 → Z.land (u32 (2 ^ n + 3)) (Z.lnot 3) = 2 ^ n.
Proof.
  intros Hn. assert (2 ^ n = 4 * 2 ^ (n - 2)) as H4.
  { change 4 with (2 ^ 2) at 1. rewrite <- Z.pow_add_r by lia. f_equal. lia. }
  assert (2 ^ n < 2 ^ 31) by (apply Z.pow_lt_mono_r; lia).
  destruct (round_up4 (2 ^ n)) as [Hr Hm]; [lia|]. set (r := Z.land _ _) in *.
  pose proof (Z.div_mod r 4 ltac:(lia)). lia.
Qed.

Lemma on_heap_bytes_ok {A} (m : ST (list Z) A) b a h : m (heap_bytes h) = Ok b a →
  on_heap_bytes m h = Ok (set_heap_bytes b h) a.
Proof. intros E. unfold on_heap_bytes. by rewrite E. Qed.
Lemma set_same_bytes h : set_heap_bytes (heap_bytes h) h = h.
Proof. by destruct h. Qed.

(** Releasing an aligned block whose hidden word still holds its address. *)
Lemma rt_free_align_ok k h l q j p :
  hs_ok (mk_hstate k h) l → (q, j) ∈ regions h l → (p - heap_ptr h) mod 4 = 0 →
  q + 4 ≤ p - heap_ptr h → p - heap_ptr h ≤ q + j →
  slice (heap_bytes h) (p - 4 - heap_ptr h) 4 = le32 (heap_ptr h + q) →
  ∃ h' l', rt_free_align p (mk_hstate k h) = Ok (mk_hstate k h') tt ∧ hs_ok (mk_hstate k h') l' ∧
    regions h l ≡ₚ (q, j) :: regions h' l'.
Proof.
  intros Hok Hin Hm Hlo Hhi Hw. pose proof (ho_core _ _ (hs_heap_ok _ _ Hok)) as Hc. cbn in Hc.
  destruct (region_inside _ _ _ _ Hc Hin) as (Hq & Hj & Hend & _). pose proof (hc_bytes _ _ Hc) as Hz.
  destruct (hc_base _ _ Hc) as [Hb _]. pose proof (hc_space _ _ Hc).
  unfold rt_free_align. hget. cbn [hs_heap].
  assert (load32 (p - 4 - heap_ptr h) (heap_bytes h) = Ok (heap_bytes h) (heap_ptr h + q)) as E.
  { unfold load32. replace (p - 4 - heap_ptr h) with (p - heap_ptr h + (- 1) * 4) in * by lia.
    rewrite Z.mod_add, (proj2 (Z.eqb_eq _ 0) Hm) by lia.
    rewrite rd_bind by (rewrite ?Hz; hconst; lia). rewrite Hw, of_le32_le32 by (hconst; lia). done. }
  hstep ltac:(apply on_heap_ok, on_heap_bytes_ok, E). rewrite set_same_bytes.
  destruct (rt_free_regions k h l q j Hok Hin) as (h' & l' & E' & Hok' & Hfr & Hp).
  exists h', l'. split; [exact E'|]. split; [done|].
  rewrite Hp. apply Permutation_skip. unfold regions, heap_stop. by rewrite (hf_size _ _ Hfr).
Qed.

(** What is written inside a region leaves the others as they are. *)
Lemma content_within h l q j x bs r :
  heap_core h l → (q, j) ∈ regions h l → q ≤ x → x + zlen bs ≤ q + j → r ∈ regions h l → apart r (q, j) →
  content (set_heap_bytes (splice (heap_bytes h) x bs) h) r = content h r.
Proof.
  intros Hc Hq Hx Hbs Hr Ha. destruct r as [a m]. pose proof (zlen_nonneg bs).
  destruct (region_inside _ _ _ _ Hc Hq) as (? & ? & ? & _).
  destruct (region_inside _ _ _ _ Hc Hr) as (? & ? & ? & _).
  pose proof (hc_bytes _ _ Hc) as Hz. unfold content, apart in *. cbn in *.
  apply slice_splice_other; rewrite ?Hz; hconst; lia.
Qed.

(** [rt_malloc_align] returns null, the heap unchanged, or an address with the
    alignment asked for, with [size] bytes behind it and the hidden word before
    it inside one new block; once the caller has filled its bytes with
    anything, [rt_free_align] on the address gives exactly that block back. *)
Theorem rt_malloc_align_spec k h l size n :
  hs_ok (mk_hstate k h) l → 2 ≤ n < 31 → 0 < size → size + 2 ^ n ≤ 2 ^ 32 - 8 →
  ∃ h' l' p, rt_malloc_align size (2 ^ n) (mk_hstate k h) = Ok (mk_hstate k h') p ∧ hs_ok (mk_hstate k h') l' ∧
    ((p = RT_NULL ∧ h' = h) ∨ ∃ q j, regions h' l' ≡ₚ (q, j) :: regions h l ∧
       (∀ r, r ∈ regions h l → apart r (q, j) ∧ content h' r = content h r) ∧
       p mod 2 ^ n = 0 ∧ heap_ptr h + q + 4 ≤ p ∧ p + size ≤ heap_ptr h + q + j ∧
       ∀ data, zlen data = size → ∃ h3 l3,
         rt_free_align p (mk_hstate k (set_heap_bytes (splice (heap_bytes h') (p - heap_ptr h) data) h'))
           = Ok (mk_hstate k h3) tt ∧ hs_ok (mk_hstate k h3) l3 ∧ regions h3 l3 ≡ₚ regions h l).
Proof.
  intros Hok Hn Hsz Hfit. unfold rt_malloc_align. change (4 - 1) with 3. cbv zeta.
  rewrite round_up4_pow2 by done. assert (4 ≤ 2 ^ n) by (change 4 with (2 ^ 2); apply Z.pow_le_mono_r; lia).
  destruct (round_up4 size) as [Hr _]; [lia|]. set (S4 := Z.land (u32 (size + 3)) (Z.lnot 3)) in *.
  rewrite (u32_small (S4 + 2 ^ n)) by lia.
  pose proof (ho_core _ _ (hs_heap_ok _ _ Hok)) as Hc. cbn in Hc. destruct (hc_base _ _ Hc) as [Hb Hb4].
  destruct (rt_malloc_regions k h l (S4 + 2 ^ n) Hok) as (h1 & l1 & p & E & Hok1 & Hfr & Hp); [lia|].
  hstep ltac:(exact E).
  destruct Hp as [(-> & -> & -> & _)|(q & j & -> & Hj & Hin & Hperm & Ha)].
  { exists h, l, RT_NULL. split; [done|]. split; [done|by left]. }
  pose proof (ho_core _ _ (hs_heap_ok _ _ Hok1)) as Hc1. cbn in Hc1.
  assert (Hreg : ∀ x, regions h x = regions h1 x) by (intros; unfold regions, heap_stop; by rewrite (hf_size _ _ Hfr)).
  rewrite Hreg in Hin, Hperm. destruct (region_inside _ _ _ _ Hc1 Hin) as (Hq & _ & Hend & Hq4).
  assert (S4 + 2 ^ n ≤ j) as Hnj by (pose proof (RT_ALIGN_up (S4 + 2 ^ n)); unfold malloc_size in Hj; lia).
  pose proof (hc_space _ _ Hc1) as Hsp. pose proof (hc_bytes _ _ Hc1) as Hz.
  rewrite (proj2 (Z.eqb_neq _ RT_NULL)) by (change RT_NULL with 0; lia). cbn [negb]. hget. cbn [hs_heap].
  change (if Z.land (heap_ptr h + q) (2 ^ n - 1) =? 0 then _ else _) with (aligned_address (heap_ptr h + q) (2 ^ n)).
  destruct (aligned_address_ok (heap_ptr h + q) n) as (Ha0 & Har & Ha4); [lia| |lia| |].
  { rewrite Zplus_mod, Hb4, Hq4. done. }
  { rewrite <- (hf_ptr _ _ Hfr). hconst. lia. }
  set (a := aligned_address _ _) in *. clearbody a. rewrite (hf_ptr _ _ Hfr).
  assert (Hst : store32 (a - 4 - heap_ptr h) (heap_ptr h + q) (heap_bytes h1) =
    Ok (splice (heap_bytes h1) (a - 4 - heap_ptr h) (le32 (heap_ptr h + q))) tt).
  { unfold store32. assert ((a - 4 - heap_ptr h) mod 4 = 0) as ->.
    { rewrite Zminus_mod, Hb4, (Zminus_mod a), Ha4. done. }
    cbn [Z.eqb]. rewrite store_bytes_ok; [done|lia|]. rewrite zlen_le32, Hz. hconst. lia. }
  hstep ltac:(apply on_heap_ok, on_heap_bytes_ok, Hst).
  set (w := le32 (heap_ptr h + q)) in *. assert (zlen w = 4) as Hw by done.
  set (x := a - 4 - heap_ptr h) in *. set (h2 := set_heap_bytes (splice (heap_bytes h1) x w) h1).
  assert (q ≤ x ∧ x + 4 + size ≤ q + j) as [Hx1 Hx2] by lia.
  assert (zlen (heap_bytes h2) = zlen (heap_bytes h1)) as Hz2 by (apply zlen_splice; rewrite ?Hz; hconst; lia).
  assert (hs_ok (mk_hstate k h2) l1) as Hok2 by (by apply hs_ok_bytes).
  eexists h2, l1, a. split; [reflexivity|]. split; [done|]. right. exists q, j.
  split; [exact Hperm|]. split.
  { intros r Hr'. split; [by apply Ha|]. transitivity (content h1 r); [|unfold content; by rewrite (hf_bytes _ _ Hfr)].
    eapply content_within; [exact Hc1|exact Hin|done|lia| |by apply Ha]. rewrite Hperm. by right. }
  split; [done|]. split; [lia|]. split; [lia|]. intros data Hd.
  assert (hs_ok (mk_hstate k (set_heap_bytes (splice (heap_bytes h2) (a - heap_ptr h) data) h2)) l1) as Hok3.
  { apply hs_ok_bytes; [done|]. apply zlen_splice; rewrite ?Hd, ?Hz2, ?Hz; hconst; lia. }
  destruct (rt_free_align_ok k _ l1 q j a Hok3 Hin) as (h3 & l3 & E3 & Hok4 & Hp3); cbn;
    rewrite ?(hf_ptr _ _ Hfr); [|lia|lia| |].
  - rewrite Zminus_mod, Hb4, Ha4. done.
  - change (splice (heap_bytes h1) x w) with (heap_bytes h2). fold x.
    rewrite slice_splice_other by (rewrite ?Hd, ?Hz2, ?Hz; hconst; lia). change (slice (splice (heap_bytes h1) x w) x (zlen w) = w).
    apply slice_splice_same; [lia|]. rewrite Hz, Hw. hconst. lia.
  - exists h3, l3. split; [exact E3|]. split; [done|]. change (regions _ l1 ≡ₚ (q, j) :: regions h3 l3) with (regions h1 l1 ≡ₚ (q, j) :: regions h3 l3) in Hp3.
    rewrite Hperm in Hp3. by apply Permutation_cons_inv in Hp3.
Qed.
