(* ===== verification/RingbufferHeap.v ===== *)
(** * Ring buffers on the heap: [rt_ringbuffer_create] and [rt_ringbuffer_destroy] *)

From Stdlib Require Import ZArith Lia.
From stdpp Require Import base gmap list fin_maps.
From S2P Require Import RTThread.
From S2P Require Import Prelude.
From S2P Require Import Bytes.
From S2P Require Import Ringbuffer.
From S2P Require Import Kernel.
From S2P Require Import Mem.
From S2P Require Import MemSpec.
From S2P Require Import MemSafety.

(** [sizeof(struct rt_ringbuffer)] *)
Definition RINGBUFFER_SIZE : Z := 12.

(** A ring buffer on the heap: its address, that of its memory block, and the
    structure, whose buffer is the block's content. *)
Record rb_handle : Type := mk_rb_handle {
  rbh_ptr : ptr;
  rbh_pool : ptr;
  rbh_ring : rt_ringbuffer }.

(** [rt_ringbuffer_init] on the structure just allocated. *)
Definition init_at (pool : list Z) (size : Z) : ST hstate rt_ringbuffer := λ s,
  match rt_ringbuffer_init pool size (mk_ringbuffer [] 0 0 0 0 0) with
  | Ok rb _ => Ok s rb
  | Err e => Err e
  end.

(** [None] is [RT_NULL]. *)
Definition rt_ringbuffer_create (size : Z) : ST hstate (option rb_handle) :=
  rt_assert (0 <? size);;
  let size := u16 (RT_ALIGN_DOWN size RT_ALIGN_SIZE) in
  rb ← rt_malloc RINGBUFFER_SIZE;
  if rb =? RT_NULL then mret None
  else
    pool ← rt_malloc size;
    if pool =? RT_NULL then
      rt_free rb;;
      mret None
    else
      h ← on_heap get;
      ring ← init_at (slice (heap_bytes h) (pool - heap_ptr h) size) (s16 size);
      mret (Some (mk_rb_handle rb pool ring)).

Definition rt_ringbuffer_destroy (rb : rb_handle) : ST hstate unit :=
  rt_free (rbh_pool rb);;
  rt_free (rbh_ptr rb).

Lemma align_down4 size : 0 ≤ size < 2 ^ 16 →
  RT_ALIGN_DOWN size RT_ALIGN_SIZE = size - size mod 4.
Proof.
  intros Hs. unfold RT_ALIGN_DOWN. change RT_ALIGN_SIZE with 4.
  rewrite land_align4 by apply u32_range. by rewrite u32_small by lia.
Qed.

(** creating a ring buffer of 4 to 32767 bytes gives null, every block in
    use staying so, or a ring buffer that is empty and well formed, of the
    size rounded down to words, in two blocks of its own; destroying it then
    gives exactly these two blocks back. *)
Theorem rt_ringbuffer_create_spec k h l size :
  hs_ok (mk_hstate k h) l → 4 ≤ size < 2 ^ 15 →
  ∃ h' l' r, rt_ringbuffer_create size (mk_hstate k h) = Ok (mk_hstate k h') r ∧
    hs_ok (mk_hstate k h') l' ∧
    match r with
    | None => regions h' l' ≡ₚ regions h l
    | Some rb => ∃ a m b n, rbh_ptr rb = heap_ptr h + a ∧ rbh_pool rb = heap_ptr h + b ∧
        RINGBUFFER_SIZE ≤ m ∧ size - size mod 4 ≤ n ∧
        regions h' l' ≡ₚ (b, n) :: (a, m) :: regions h l ∧
        rb_ok (rbh_ring rb) ∧ rb_contents (rbh_ring rb) = [] ∧
        rb_buffer_size (rbh_ring rb) = size - size mod 4 ∧
        ∃ h2 l2, rt_ringbuffer_destroy rb (mk_hstate k h') = Ok (mk_hstate k h2) tt ∧
          hs_ok (mk_hstate k h2) l2 ∧ regions h2 l2 ≡ₚ regions h l
    end.
Proof.
  intros Hok Hs. unfold rt_ringbuffer_create. rewrite (proj2 (Z.ltb_lt 0 size)) by lia. hget.
  pose proof (Z.mod_pos_bound size 4). cbv zeta. rewrite align_down4, u16_small by lia.
  remember (size - size mod 4) as n eqn:En. assert (4 ≤ n < 2 ^ 15 ∧ n ≤ size) as Hn
    by (pose proof (Z.div_mod size 4); pose proof (Z.div_le_lower_bound size 4 1); lia).
  assert (n mod 4 = 0) as Hn4 by (rewrite En, Zminus_mod, Z.mod_mod, Z.sub_diag by lia; done).
  destruct (rt_malloc_regions k h l RINGBUFFER_SIZE Hok) as (h1 & l1 & p & E1 & Hok1 & F1 & Hp); [done|].
  hstep ltac:(exact E1).
  destruct Hp as [(-> & -> & -> & _)|(a & m & -> & Hm & Hin1 & P1 & _)].
  { exists h, l, None. done. }
  pose proof (ho_core _ _ (hs_heap_ok _ _ Hok)) as Hc. cbn in Hc. destruct (hc_base _ _ Hc) as [Hb _].
  pose proof (ho_core _ _ (hs_heap_ok _ _ Hok1)) as Hc1. cbn in Hc1.
  assert (Hreg : ∀ h', heap_frame h h' → ∀ x, regions h' x = regions h x)
    by (intros h' F x; unfold regions, heap_stop; by rewrite (hf_size _ _ F)).
  rewrite <- (Hreg _ F1) in Hin1, P1.
  destruct (region_inside _ _ _ _ Hc1 Hin1) as (Ha & _).
  rewrite (proj2 (Z.eqb_neq _ RT_NULL)) by (change RT_NULL with 0; lia).
  destruct (rt_malloc_regions k h1 l1 n Hok1) as (h2 & l2 & p & E2 & Hok2 & F2 & Hp); [lia|].
  hstep ltac:(exact E2).
  destruct Hp as [(-> & -> & -> & _)|(b & j & -> & Hj & Hin2 & P2 & _)].
  { rewrite Z.eqb_refl. rewrite <- (hf_ptr _ _ F1).
    destruct (rt_free_regions k h1 l1 a m Hok1 Hin1) as (h3 & l3 & E3 & Hok3 & F3 & P3).
    hstep ltac:(exact E3). exists h3, l3, None. split; [done|]. split; [done|].
    pose proof (heap_frame_trans _ _ _ F1 F3) as F13. rewrite (Hreg _ F13).
    rewrite P1 in P3. apply Permutation_cons_inv in P3. by rewrite <- (Hreg _ F1), P3. }
  pose proof (heap_frame_trans _ _ _ F1 F2) as F12.
  pose proof (ho_core _ _ (hs_heap_ok _ _ Hok2)) as Hc2. cbn in Hc2.
  rewrite (Hreg _ F1) in Hin2, P2. rewrite <- (Hreg _ F12) in Hin2.
  destruct (region_inside _ _ _ _ Hc2 Hin2) as (Hb2 & _ & Hend & _).
  pose proof (hc_bytes _ _ Hc2) as Hby. destruct (hc_base _ _ Hc1) as [Hb1 _].
  rewrite (proj2 (Z.eqb_neq _ RT_NULL)) by (change RT_NULL with 0; lia).
  assert (n ≤ j) as Hnj by (destruct (RT_ALIGN_up n) as [? _]; [lia|]; unfold malloc_size in Hj; lia).
  hget. cbn [hs_heap]. rewrite (hf_ptr _ _ F2). replace (heap_ptr h1 + b - heap_ptr h1) with b by lia.
  set (bs := slice (heap_bytes h2) b n).
  assert (zlen bs = n) as Hbs by (apply zlen_slice; rewrite ?Hby; hconst; lia).
  assert (s16 n = n) as -> by (unfold s16; rewrite Z.mod_small by lia; lia).
  assert (init_at bs n (mk_hstate k h2) = Ok (mk_hstate k h2) (mk_ringbuffer bs 0 0 0 0 (n - n mod 4))) as E3.
  { unfold init_at. by rewrite rt_ringbuffer_init_ok by lia. }
  hstep ltac:(exact E3).
  destruct (rb_init_ok bs n) as [Hrb Hq]; [lia|lia|].
  assert (regions h2 l2 ≡ₚ (b, j) :: (a, m) :: regions h l) as P
    by (by rewrite (Hreg _ F12), P2, P1).
  eexists h2, l2, _. split; [reflexivity|]. split; [done|]. exists a, m, b, j.
  cbn [rbh_ptr rbh_pool rbh_ring rb_buffer_size].
  split; [done|]. split; [by rewrite (hf_ptr _ _ F1)|].
  split; [unfold malloc_size in Hm; change RINGBUFFER_SIZE with 12 in *; change MIN_SIZE_ALIGNED with 12 in Hm; lia|].
  split; [done|]. split; [done|]. split; [done|]. split; [done|]. split; [rewrite Hn4; lia|].
  destruct (rt_free_regions k h2 l2 b j Hok2 Hin2) as (h3 & l3 & E4 & Hok3 & F3 & P3).
  pose proof (heap_frame_trans _ _ _ F12 F3) as F123.
  assert (regions h3 l3 ≡ₚ (a, m) :: regions h l) as P4.
  { rewrite (Hreg _ F123), <- (Hreg _ F12). rewrite P in P3. apply Permutation_cons_inv in P3. by rewrite P3. }
  destruct (rt_free_regions k h3 l3 a m Hok3) as (h4 & l4 & E5 & Hok4 & F4 & P5).
  { rewrite P4. left. }
  exists h4, l4. split; [|split; [done|]].
  - unfold rt_ringbuffer_destroy. cbn [rbh_pool rbh_ptr].
    replace (heap_ptr h1 + b) with (heap_ptr h2 + b) by (by rewrite (hf_ptr _ _ F2)).
    hstep ltac:(exact E4). rewrite <- (hf_ptr _ _ F123). exact E5.
  - rewrite P4 in P5. apply Permutation_cons_inv in P5.
    rewrite (Hreg _ (heap_frame_trans _ _ _ F123 F4)), <- (Hreg _ F123). by rewrite <- P5.
Qed.
