(* ===== verification/Device.v ===== *)
(** * The device framework ([device.c]) and the console of [kservice.c]

    A device is a registered object with a reference count, flags and the
    functions of its driver, some of which may be missing. The drivers are a
    parameter. The console is the device [rt_kputs] and [rt_kprintf] write to. *)

From Stdlib Require Import ZArith Lia.
From stdpp Require Import base gmap list.
From S2P Require Import RTThread.
From S2P Require Import Prelude.
From S2P Require Import Bytes.
From S2P Require Import Kernel.
From S2P Require Import KMemory.
From S2P Require Import KPrintf.
From S2P Require Import Scheduler.
From S2P Require Import Object.

Definition RT_DEVICE_FLAG_STANDALONE : Z := 8.
Definition RT_DEVICE_FLAG_ACTIVATED : Z := 16.
Definition RT_DEVICE_FLAG_STREAM : Z := 64.
Definition RT_DEVICE_OFLAG_CLOSE : Z := 0.
Definition RT_DEVICE_OFLAG_RDWR : Z := 3.
Definition RT_DEVICE_OFLAG_OPEN : Z := 8.
Definition RT_DEVICE_OFLAG_MASK : Z := 3855.
Definition RT_CONSOLEBUF_SIZE : Z := 256.

(** ** Data *)

(** The function pointers that are not null, and the other fields; [parent] is
    in the object registry. *)
Record rt_device : Set := mk_device {
  dev_type : Z;
  dev_flag : Z;
  dev_open_flag : Z;
  dev_ref_count : Z;
  dev_rx_indicate : ptr;
  dev_tx_complete : ptr;
  dev_init : bool;
  dev_open : bool;
  dev_close : bool;
  dev_read : bool;
  dev_write : bool;
  dev_control : bool }.
Definition set_dev_flag (v : Z) (d : rt_device) : rt_device :=
  mk_device (dev_type d) v (dev_open_flag d) (dev_ref_count d) (dev_rx_indicate d) (dev_tx_complete d)
    (dev_init d) (dev_open d) (dev_close d) (dev_read d) (dev_write d) (dev_control d).
Definition set_dev_open_flag (v : Z) (d : rt_device) : rt_device :=
  mk_device (dev_type d) (dev_flag d) v (dev_ref_count d) (dev_rx_indicate d) (dev_tx_complete d)
    (dev_init d) (dev_open d) (dev_close d) (dev_read d) (dev_write d) (dev_control d).
Definition set_dev_ref_count (v : Z) (d : rt_device) : rt_device :=
  mk_device (dev_type d) (dev_flag d) (dev_open_flag d) v (dev_rx_indicate d) (dev_tx_complete d)
    (dev_init d) (dev_open d) (dev_close d) (dev_read d) (dev_write d) (dev_control d).
Definition set_dev_rx_indicate (v : ptr) (d : rt_device) : rt_device :=
  mk_device (dev_type d) (dev_flag d) (dev_open_flag d) (dev_ref_count d) v (dev_tx_complete d)
    (dev_init d) (dev_open d) (dev_close d) (dev_read d) (dev_write d) (dev_control d).
Definition set_dev_tx_complete (v : ptr) (d : rt_device) : rt_device :=
  mk_device (dev_type d) (dev_flag d) (dev_open_flag d) (dev_ref_count d) (dev_rx_indicate d) v
    (dev_init d) (dev_open d) (dev_close d) (dev_read d) (dev_write d) (dev_control d).

(** What the functions of the drivers do. They are given the structure of the
    device, any field of which they may change (the serial driver's [open]
    stores into [open_flag], its [close] clears [RT_DEVICE_FLAG_ACTIVATED] in
    [flag]), and the state [D] of the hardware and the drivers; they give the
    result, the structure and the state they leave. *)
Class DeviceDriver (D : Type) := {
  drv_init : ptr → rt_device → D → Z * rt_device * D;
  drv_open : ptr → Z → rt_device → D → Z * rt_device * D;
  drv_close : ptr → rt_device → D → Z * rt_device * D;
  drv_read : ptr → Z → Z → rt_device → D → (Z * list Z) * rt_device * D;
  drv_write : ptr → Z → list Z → Z → rt_device → D → Z * rt_device * D;
  drv_control : ptr → Z → Z → rt_device → D → Z * rt_device * D }.

(** The kernel, the devices, the drivers, [_console_device] and [rt_log_buf]. *)
Record dstate (D : Type) : Type := mk_dstate {
  ds_kernel : kstate;
  ds_devices : gmap ptr rt_device;
  ds_driver : D;
  ds_console : ptr;
  ds_log_buf : list Z }.
Arguments mk_dstate {D} _ _ _ _ _.
Arguments ds_kernel {D} _.
Arguments ds_devices {D} _.
Arguments ds_driver {D} _.
Arguments ds_console {D} _.
Arguments ds_log_buf {D} _.

Section device.
Context {D : Type} `{!DeviceDriver D}.
Notation DV := (ST (dstate D)).

Definition set_ds_devices (v : gmap ptr rt_device) (s : dstate D) : dstate D :=
  mk_dstate (ds_kernel s) v (ds_driver s) (ds_console s) (ds_log_buf s).
Definition set_ds_console (v : ptr) (s : dstate D) : dstate D :=
  mk_dstate (ds_kernel s) (ds_devices s) (ds_driver s) v (ds_log_buf s).
Definition set_ds_log_buf (v : list Z) (s : dstate D) : dstate D :=
  mk_dstate (ds_kernel s) (ds_devices s) (ds_driver s) (ds_console s) v.

Definition on_k {A} (m : ST kstate A) : DV A := λ s,
  match m (ds_kernel s) with
  | Ok k a => Ok (mk_dstate k (ds_devices s) (ds_driver s) (ds_console s) (ds_log_buf s)) a
  | Err e => Err e
  end.
Definition on_log_buf {A} (m : ST (list Z) A) : DV A := λ s,
  match m (ds_log_buf s) with Ok b a => Ok (set_ds_log_buf b s) a | Err e => Err e end.
Definition get_device (dev : ptr) : DV rt_device := λ s,
  from_option_or FNull (ds_devices s !! dev) s.
Definition upd_device (dev : ptr) (f : rt_device → rt_device) : DV unit :=
  d ← get_device dev;
  modify (λ s, set_ds_devices (<[dev := f d]> (ds_devices s)) s).

(** A function of the driver of [dev], which sees the structure as it is and
    leaves it as it likes. *)
Definition call {A} (dev : ptr) (f : rt_device → D → A * rt_device * D) : DV A := λ s,
  match ds_devices s !! dev with
  | Some d =>
      let '(a, d', v) := f d (ds_driver s) in
      Ok (mk_dstate (ds_kernel s) (<[dev := d']> (ds_devices s)) v (ds_console s) (ds_log_buf s)) a
  | None => Err FNull
  end.

(** The two assertions most functions begin with. *)
Definition assert_device (dev : ptr) : DV unit := on_k (assert_class dev RT_Object_Class_Device).

(** ** Registration *)

Definition rt_device_find (name : option (list Z)) : DV ptr := on_k (rt_object_find name RT_Object_Class_Device).

Definition rt_device_register (dev : ptr) (name : list Z) (flags : Z) : DV Z :=
  if dev =? RT_NULL then mret (- RT_ERROR)
  else
    old ← rt_device_find (Some name);
    if negb (old =? RT_NULL) then mret (- RT_ERROR)
    else
      on_k (rt_object_init dev RT_Object_Class_Device name);;
      upd_device dev (set_dev_flag (u16 flags));;
      upd_device dev (set_dev_ref_count 0);;
      upd_device dev (set_dev_open_flag 0);;
      mret RT_EOK.

Definition rt_device_unregister (dev : ptr) : DV Z :=
  assert_device dev;;
  sys ← on_k (rt_object_is_systemobject dev);
  rt_assert (sys : bool);;
  on_k (rt_object_detach dev);;
  mret RT_EOK.

Definition rt_device_init_all : DV Z := mret RT_EOK.

(** [device] is the address [rt_malloc] returns. [rt_memset] leaves no functions
    in the structure, and an object of no class. *)
Definition rt_device_create (device type : Z) : DV ptr :=
  (if negb (device =? RT_NULL) then
     on_k (modify (clear_memory device));;
     on_k (modify (λ k, set_k_objects (<[device := zero_object]> (k_objects k)) k));;
     modify (λ s, set_ds_devices (<[device :=
       mk_device type 0 0 0 RT_NULL RT_NULL false false false false false false]> (ds_devices s)) s)
   else mret ());;
  mret device.

(** [rt_free] ends the structure. *)
Definition rt_device_destroy (dev : ptr) : DV unit :=
  assert_device dev;;
  sys ← on_k (rt_object_is_systemobject dev);
  rt_assert (negb sys);;
  on_k (rt_object_detach dev);;
  on_k (modify (clear_memory dev));;
  modify (λ s, set_ds_devices (delete dev (ds_devices s)) s).

(** ** Data transfer *)

(** The size and the bytes stored in the buffer. *)
Definition rt_device_read (dev : ptr) (pos size : Z) : DV (Z * list Z) :=
  assert_device dev;;
  d ← get_device dev;
  if dev_ref_count d =? 0 then on_k (rt_set_errno (- RT_ERROR));; mret (0, [])
  else if dev_read d then call dev (drv_read dev pos size)
  else on_k (rt_set_errno (- RT_ENOSYS));; mret (0, []).

Definition rt_device_write (dev : ptr) (pos : Z) (buffer : list Z) (size : Z) : DV Z :=
  assert_device dev;;
  d ← get_device dev;
  if dev_ref_count d =? 0 then on_k (rt_set_errno (- RT_ERROR));; mret 0
  else if dev_write d then call dev (drv_write dev pos buffer size)
  else on_k (rt_set_errno (- RT_ENOSYS));; mret 0.

Definition rt_device_control (dev : ptr) (cmd arg : Z) : DV Z :=
  assert_device dev;;
  d ← get_device dev;
  if dev_control d then call dev (drv_control dev cmd arg) else mret (- RT_ENOSYS).

Definition rt_device_set_rx_indicate (dev rx_ind : ptr) : DV Z :=
  assert_device dev;;
  upd_device dev (set_dev_rx_indicate rx_ind);;
  mret RT_EOK.
Definition rt_device_set_tx_complete (dev tx_done : ptr) : DV Z :=
  assert_device dev;;
  upd_device dev (set_dev_tx_complete tx_done);;
  mret RT_EOK.

(** ** The console *)

Definition rt_console_get_device : DV ptr := gets ds_console.

(** Bytes to the console device, in stream mode; without one,
    [rt_hw_console_output] outputs nothing. *)
Definition console_write (str : list Z) (length : Z) : DV unit :=
  console ← gets ds_console;
  if console =? RT_NULL then mret ()
  else
    d ← get_device console;
    let old_flag := dev_open_flag d in
    upd_device console (set_dev_open_flag (Z.lor old_flag RT_DEVICE_FLAG_STREAM));;
    rt_device_write console 0 str length;;
    upd_device console (set_dev_open_flag old_flag).

(** [str] up to its NUL; [None] is [RT_NULL]. *)
Definition rt_kputs (str : option (list Z)) : DV unit :=
  match str with None => mret () | Some str => console_write str (zlen str) end.

Definition rt_kprintf (fmt : list Z) (args : list arg) : DV unit :=
  n ← on_log_buf (rt_vsnprintf 0 (RT_CONSOLEBUF_SIZE - 1) fmt args);
  let length := u32 n in
  let length := if RT_CONSOLEBUF_SIZE - 1 <? length then RT_CONSOLEBUF_SIZE - 1 else length in
  buf ← gets ds_log_buf;
  console_write (slice buf 0 length) length.

(** The banner; [date] is [__DATE__]. *)
Definition banner_top : list Z :=
  [10; 32; 92; 32; 124; 32; 47; 10].
Definition banner_name : list Z :=
  [45; 32; 82; 84; 32; 45; 32; 32; 32; 32; 32; 84; 104; 114; 101; 97; 100; 32; 79; 112; 101; 114; 97;
   116; 105; 110; 103; 32; 83; 121; 115; 116; 101; 109; 10].
Definition banner_version : list Z :=
  [32; 47; 32; 124; 32; 92; 32; 32; 32; 32; 32; 37; 100; 46; 37; 100; 46; 37; 100; 32; 98; 117; 105;
   108; 100; 32; 37; 115; 10].
Definition banner_copyright : list Z :=
  [32; 50; 48; 48; 54; 32; 45; 32; 50; 48; 50; 48; 32; 67; 111; 112; 121; 114; 105; 103; 104; 116; 32;
   98; 121; 32; 114; 116; 45; 116; 104; 114; 101; 97; 100; 32; 116; 101; 97; 109; 10].
Definition RT_VERSION : Z := 3.
Definition RT_SUBVERSION : Z := 1.
Definition RT_REVISION : Z := 5.
Definition rt_show_version (date : list Z) : DV unit :=
  rt_kprintf banner_top [];;
  rt_kprintf banner_name [];;
  rt_kprintf banner_version [AInt RT_VERSION; AInt RT_SUBVERSION; AInt RT_REVISION; AStr (Some date)];;
  rt_kprintf banner_copyright [].

(** ** Initialisation, opening and closing *)

(** ["To initialize device:%s failed. The error code is %d\n"] *)
Definition init_failed_fmt : list Z :=
  [84; 111; 32; 105; 110; 105; 116; 105; 97; 108; 105; 122; 101; 32; 100; 101; 118; 105; 99; 101; 58; 37;
   115; 32; 102; 97; 105; 108; 101; 100; 46; 32; 84; 104; 101; 32; 101; 114; 114; 111; 114; 32; 99; 111;
   100; 101; 32; 105; 115; 32; 37; 100; 10].
(** A name shorter than [RT_NAME_MAX] characters ends with a NUL. *)
Fixpoint up_to_nul (l : list Z) : list Z :=
  match l with [] => [] | c :: l' => if c =? 0 then [] else c :: up_to_nul l' end.
Definition print_init_failed (dev : ptr) (result : Z) : DV unit :=
  o ← on_k (get_object dev);
  rt_kprintf init_failed_fmt [AStr (Some (up_to_nul (obj_name o))); AInt result].

Definition set_activated (dev : ptr) : DV unit :=
  upd_device dev (λ d, set_dev_flag (Z.lor (dev_flag d) RT_DEVICE_FLAG_ACTIVATED) d).
Definition is_activated (d : rt_device) : bool := negb (Z.land (dev_flag d) RT_DEVICE_FLAG_ACTIVATED =? 0).

Definition rt_device_init (dev : ptr) : DV Z :=
  rt_assert (negb (dev =? RT_NULL));;
  d ← get_device dev;
  if dev_init d then
    if negb (is_activated d) then
      result ← call dev (drv_init dev);
      (if negb (result =? RT_EOK) then print_init_failed dev result else set_activated dev);;
      mret result
    else mret RT_EOK
  else mret RT_EOK.

(** The device is stand-alone and open. *)
Definition is_busy (d : rt_device) : bool :=
  negb (Z.land (dev_flag d) RT_DEVICE_FLAG_STANDALONE =? 0) &&
  negb (Z.land (dev_open_flag d) RT_DEVICE_OFLAG_OPEN =? 0).

Definition rt_device_open (dev : ptr) (oflag : Z) : DV Z :=
  assert_device dev;;
  d ← get_device dev;
  result ← (if negb (is_activated d) then
              if dev_init d then
                result ← call dev (drv_init dev);
                if negb (result =? RT_EOK) then print_init_failed dev result;; mret result
                else set_activated dev;; mret result
              else set_activated dev;; mret RT_EOK
            else mret RT_EOK);
  if negb (result =? RT_EOK) then mret result
  else
    d ← get_device dev;
    if is_busy d then mret (- RT_EBUSY)
    else
      result ← (if dev_open d then call dev (drv_open dev oflag)
                else upd_device dev (set_dev_open_flag (Z.land oflag RT_DEVICE_OFLAG_MASK));; mret result);
      if (result =? RT_EOK) || (result =? - RT_ENOSYS) then
        upd_device dev (λ d, set_dev_open_flag (Z.lor (dev_open_flag d) RT_DEVICE_OFLAG_OPEN) d);;
        upd_device dev (λ d, set_dev_ref_count (u8 (dev_ref_count d + 1)) d);;
        d ← get_device dev;
        rt_assert (negb (dev_ref_count d =? 0));;
        mret result
      else mret result.

Definition rt_device_close (dev : ptr) : DV Z :=
  assert_device dev;;
  d ← get_device dev;
  if dev_ref_count d =? 0 then mret (- RT_ERROR)
  else
    upd_device dev (set_dev_ref_count (dev_ref_count d - 1));;
    if negb (dev_ref_count d - 1 =? 0) then mret RT_EOK
    else
      result ← (if dev_close d then call dev (drv_close dev) else mret RT_EOK);
      (if (result =? RT_EOK) || (result =? - RT_ENOSYS) then upd_device dev (set_dev_open_flag RT_DEVICE_OFLAG_CLOSE)
       else mret ());;
      mret result.

Definition rt_console_set_device (name : option (list Z)) : DV ptr :=
  old_device ← gets ds_console;
  new_device ← rt_device_find name;
  if new_device =? old_device then mret RT_NULL
  else
    (if negb (new_device =? RT_NULL) then
       console ← gets ds_console;
       (if negb (console =? RT_NULL) then rt_device_close console;; mret () else mret ());;
       rt_device_open new_device (Z.lor RT_DEVICE_OFLAG_RDWR RT_DEVICE_FLAG_STREAM);;
       modify (set_ds_console new_device)
     else mret ());;
    mret old_device.
End device.
