(* ===== verification/DeviceSpec.v ===== *)
(** * What the device framework and the console promise, and the registry of devices *)

From Stdlib Require Import ZArith Lia.
From stdpp Require Import base gmap list.
From S2P Require Import RTThread.
From S2P Require Import Prelude.
From S2P Require Import Bytes.
From S2P Require Import ListModel.
From S2P Require Import Kernel.
From S2P Require Import Kservice.
From S2P Require Import KMemory.
From S2P Require Import KPrintf.
From S2P Require Import KPrintfSpec.
From S2P Require Import Scheduler.
From S2P Require Import Object.
From S2P Require Import Invariant.
From S2P Require Import Registry.
From S2P Require Import Device.

Lemma bind_inv {St A B} (m : ST St A) (f : A → ST St B) st st' b :
  (m ≫= f) st = Ok st' b → ∃ st1 a, m st = Ok st1 a ∧ f a st1 = Ok st' b.
Proof. unfold mbind, ST_bind. destruct (m st) as [st1 a|]; [eauto|done]. Qed.

(** Calls that leave the devices as they are. *)
Create HintDb quiet.

Section device_spec.
Context {D : Type} `{!DeviceDriver D}.
Implicit Types (s : dstate D) (d : rt_device) (dev : ptr).
Notation DV := (ST (dstate D)).

(** ** Steps *)

(** [dev] is a live object of the device class. *)
Definition live (dev : ptr) s : Prop :=
  dev ≠ RT_NULL ∧ ∃ x, k_objects (ds_kernel s) !! dev = Some x ∧ class_of x = RT_Object_Class_Device.

Definition put_device (dev : ptr) (d : rt_device) s : dstate D :=
  set_ds_devices (<[dev := d]> (ds_devices s)) s.
Definition put_driver (v : D) s : dstate D :=
  mk_dstate (ds_kernel s) (ds_devices s) v (ds_console s) (ds_log_buf s).

Lemma on_kernel_run {A} (m : ST kstate A) k a s : m (ds_kernel s) = Ok k a →
  on_k m s = Ok (mk_dstate k (ds_devices s) (ds_driver s) (ds_console s) (ds_log_buf s)) a.
Proof. intros E. unfold on_k. by rewrite E. Qed.
Lemma assert_device_ok dev s : live dev s → assert_device dev s = Ok s tt.
Proof.
  intros (Hn & x & Hx & Hc). unfold assert_device.
  rewrite (on_kernel_run _ (ds_kernel s) tt); [by destruct s|]. by eapply assert_class_ok.
Qed.
Lemma get_device_ok dev d s : ds_devices s !! dev = Some d → get_device dev s = Ok s d.
Proof. intros E. unfold get_device. by rewrite E. Qed.
Lemma upd_device_ok dev d f s : ds_devices s !! dev = Some d → upd_device dev f s = Ok (put_device dev (f d) s) tt.
Proof. intros E. unfold upd_device. by rewrite (bind_ok _ _ _ _ _ (get_device_ok _ _ _ E)). Qed.
Lemma call_ok {A} dev (f : rt_device → D → A * rt_device * D) d s : ds_devices s !! dev = Some d →
  call dev f s =
    (let '(a, d', v) := f d (ds_driver s) in Ok (put_driver v (put_device dev d' s)) a).
Proof.
  intros E. unfold call. rewrite E. by destruct (f d (ds_driver s)) as [[a d'] v].
Qed.

Lemma put_put_device dev d d' s : put_device dev d (put_device dev d' s) = put_device dev d s.
Proof. unfold put_device, set_ds_devices. simpl. by rewrite insert_insert_eq. Qed.
Lemma put_device_driver dev d v s : put_device dev d (put_driver v s) = put_driver v (put_device dev d s).
Proof. done. Qed.
Lemma lookup_put_device dev d s : ds_devices (put_device dev d s) !! dev = Some d.
Proof. apply lookup_insert_eq. Qed.
Lemma live_put_device dev dev' d s : live dev s → live dev (put_device dev' d s).
Proof. done. Qed.
Lemma live_put_driver dev v s : live dev s → live dev (put_driver v s).
Proof. done. Qed.
Hint Resolve assert_device_ok get_device_ok upd_device_ok lookup_put_device live_put_device live_put_driver : core.

(** One step of a device function. *)
Ltac dstep := erewrite bind_ok by eauto; cbv beta.

(** ** The console *)

(** A device that output can be written to. *)
Definition writable (dev : ptr) (d : rt_device) s : Prop :=
  live dev s ∧ ds_devices s !! dev = Some d ∧ dev_ref_count d ≠ 0 ∧ dev_write d = true.

Lemma rt_device_write_ok dev d s pos buf n : writable dev d s →
  rt_device_write dev pos buf n s =
    (let '(r, d', v) := drv_write dev pos buf n d (ds_driver s) in Ok (put_driver v (put_device dev d' s)) r).
Proof.
  intros (Hl & Hd & Hr & Hw). unfold rt_device_write. do 2 dstep.
  rewrite (proj2 (Z.eqb_neq _ 0)), Hw by done. by apply call_ok.
Qed.

(** The console device as its driver finds it: in stream mode. *)
Definition streaming (d : rt_device) : rt_device :=
  set_dev_open_flag (Z.lor (dev_open_flag d) RT_DEVICE_FLAG_STREAM) d.

(** What the console device gets: the bytes, in stream mode; its open flag is
    put back. *)
Definition console_output (str : list Z) (n : Z) (d : rt_device) s : dstate D :=
  let '(_, d', v) := drv_write (ds_console s) 0 str n (streaming d) (ds_driver s) in
  put_driver v (put_device (ds_console s) (set_dev_open_flag (dev_open_flag d) d') s).

Lemma console_write_ok str n d s : writable (ds_console s) d s →
  console_write str n s = Ok (console_output str n d s) tt.
Proof.
  intros (Hl & Hd & Hr & Hw). unfold console_write.
  change ((gets ds_console ≫= ?f) s) with (f (ds_console s) s). cbv beta.
  rewrite (proj2 (Z.eqb_neq _ RT_NULL)) by apply Hl. dstep. dstep. fold (streaming d).
  pose proof (rt_device_write_ok (ds_console s) (streaming d) (put_device (ds_console s) (streaming d) s) 0 str n
    ltac:(repeat split; auto; apply Hl)) as E.
  unfold console_output. cbn [ds_driver put_device set_ds_devices] in E.
  destruct (drv_write (ds_console s) 0 str n (streaming d) (ds_driver s)) as [[r d'] v].
  rewrite (bind_ok _ _ _ _ _ E), upd_device_ok with (d := d') by apply lookup_put_device. f_equal.
  unfold put_driver, put_device, set_ds_devices. cbn. by rewrite !insert_insert_eq.
Qed.

Lemma on_log_buf_ok {A} (m : ST (list Z) A) b a s : m (ds_log_buf s) = Ok b a →
  on_log_buf m s = Ok (set_ds_log_buf b s) a.
Proof. intros E. unfold on_log_buf. by rewrite E. Qed.

(** The bytes of a message the console gets: at most 255, and the last of that
    many is the NUL of the message cut to 254 characters. *)
Definition message (out : list Z) : list Z := if zlen out <? 255 then out else take 254 out ++ [0].

(** C29: [rt_kprintf] calls the [write] of the console device's driver once, with
    the formatted text and the device in stream mode; a text of 255 characters
    or more is cut to 254, and the NUL behind it is sent as well. The kernel
    and the other devices are as they were, and the console device is as the
    driver leaves it, with the open flag it had before. *)
Theorem rt_kprintf_spec fmt args out d s :
  writable (ds_console s) d s → zlen (ds_log_buf s) = RT_CONSOLEBUF_SIZE →
  Forall is_byte fmt → Forall arg_ok args → format_text fmt args = Some out → zlen out < 2 ^ 32 →
  ∃ s', rt_kprintf fmt args s = Ok s' tt ∧
    ds_kernel s' = ds_kernel s ∧ ds_console s' = ds_console s ∧ zlen (ds_log_buf s') = RT_CONSOLEBUF_SIZE ∧
    let '(_, d', v) := drv_write (ds_console s) 0 (message out) (zlen (message out)) (streaming d) (ds_driver s) in
    ds_driver s' = v ∧
    ds_devices s' = <[ds_console s := set_dev_open_flag (dev_open_flag d) d']> (ds_devices s).
Proof.
  intros Hw Hlog Hf Ha Ht Hout. unfold rt_kprintf. pose proof (zlen_nonneg out).
  change (RT_CONSOLEBUF_SIZE - 1) with 255. unfold RT_CONSOLEBUF_SIZE in *.
  erewrite bind_ok by (apply on_log_buf_ok, (rt_vsnprintf_ok (ds_log_buf s) 0 255 fmt args out); done || lia).
  change (255 =? 0) with false. cbv iota beta. set (b := splice (ds_log_buf s) 0 (truncated 255 out)).
  set (s1 := set_ds_log_buf b s). rewrite u32_s32, u32_small by lia.
  change ((gets ds_log_buf ≫= ?f) s1) with (f b s1). cbv beta.
  pose proof (zlen_truncated 255 out ltac:(lia)) as Hz.
  assert (zlen b = 256) as Hb by (unfold b; rewrite zlen_splice; lia).
  assert ((if 255 <? zlen out then 255 else zlen out) = zlen (message out) ∧ slice b 0 (zlen (message out)) = message out)
    as [-> ->].
  { unfold b, message. destruct (Z.ltb_spec (zlen out) 255) as [Hs|Hs].
    - rewrite (proj2 (Z.ltb_ge 255 _)) by lia. split; [done|].
      assert (slice (splice (ds_log_buf s) 0 (truncated 255 out)) 0 (zlen (truncated 255 out)) = out ++ [0]) as E.
      { rewrite slice_splice_same by lia. unfold truncated. by rewrite take_ge by (unfold zlen in *; lia). }
      rewrite (slice_split _ 0 _ (zlen out)) in E by (rewrite ?zlen_splice; lia).
      apply app_inj_1 in E as [E _]; [exact E|].
      apply Nat2Z.inj. change (zlen (slice (splice (ds_log_buf s) 0 (truncated 255 out)) 0 (zlen out)) = zlen out).
      apply zlen_slice; rewrite ?zlen_splice; lia.
    - assert (zlen (take 254 out ++ [0]) = 255) as -> by (change (zlen (truncated 255 out) = 255); lia).
      split; [by destruct (Z.ltb_spec 255 (zlen out)); [|lia]|].
      change (take 254 out ++ [0]) with (truncated 255 out).
      replace 255 with (zlen (truncated 255 out)) at 2 by lia. apply slice_splice_same; lia. }
  rewrite (console_write_ok (message out) (zlen (message out)) d s1 Hw).
  eexists. split; [reflexivity|]. unfold console_output. cbn [ds_console ds_driver s1 set_ds_log_buf].
  by destruct (drv_write _ _ _ _ _ _) as [[r d'] v].
Qed.

(** ** The invariant of the devices *)

Definition bit (f b : Z) : Prop := Z.land f b ≠ 0.

(** A device in use is initialised and marked open, a stand-alone one has one
    user at most, and the count fits its byte. *)
Record dev_ok (d : rt_device) : Prop := {
  dk_count : 0 ≤ dev_ref_count d < 256;
  dk_open : 0 < dev_ref_count d → bit (dev_open_flag d) RT_DEVICE_OFLAG_OPEN;
  dk_active : 0 < dev_ref_count d → bit (dev_flag d) RT_DEVICE_FLAG_ACTIVATED;
  dk_alone : bit (dev_flag d) RT_DEVICE_FLAG_STANDALONE → dev_ref_count d ≤ 1 }.
Definition devices_ok s : Prop := ∀ dev d, ds_devices s !! dev = Some d → dev_ok d.

(** Calls after which the devices are what they were. *)
Definition quiet {A} (m : DV A) : Prop := ∀ s s' a, m s = Ok s' a → ds_devices s' = ds_devices s.

Lemma quiet_ret {A} (a : A) : quiet (mret a).
Proof. by intros s s' ? [= <- <-]. Qed.
Lemma quiet_bind {A B} (m : DV A) (f : A → DV B) : quiet m → (∀ a, quiet (f a)) → quiet (m ≫= f).
Proof. intros Hm Hf s s' b (s1 & a & E1 & E2)%bind_inv. rewrite (Hf _ _ _ _ E2). by eapply Hm. Qed.
Lemma quiet_on_k {A} (m : ST kstate A) : quiet (on_k m).
Proof. intros s s' a. unfold on_k. destruct (m _); [|done]. by intros [= <- <-]. Qed.
Lemma quiet_get_device dev : quiet (get_device dev).
Proof. intros s s' d. unfold get_device. destruct (_ !! _); [|done]. by intros [= <- <-]. Qed.
Lemma quiet_on_log_buf {A} (m : ST (list Z) A) : quiet (on_log_buf m).
Proof. intros s s' a. unfold on_log_buf. destruct (m _); [|done]. by intros [= <- <-]. Qed.
Lemma quiet_gets {A} (f : dstate D → A) : quiet (gets f).
Proof. by intros s s' a [= <- <-]. Qed.
Lemma quiet_fail {A} e : quiet (fail e : DV A).
Proof. done. Qed.
Hint Resolve quiet_ret quiet_on_k quiet_get_device quiet_on_log_buf quiet_gets quiet_fail : quiet.
Ltac quiet := repeat first [solve [eauto with quiet] | apply quiet_bind; [|intros] | case_match].

Lemma get_device_inv dev d s s1 : get_device dev s = Ok s1 d → s1 = s ∧ ds_devices s !! dev = Some d.
Proof. unfold get_device. destruct (ds_devices s !! dev) eqn:E; [|done]. by intros [= <- <-]. Qed.
Lemma upd_device_inv dev f s s' : upd_device dev f s = Ok s' tt →
  ∃ d, ds_devices s !! dev = Some d ∧ s' = put_device dev (f d) s.
Proof. unfold upd_device. intros (s1 & d & [-> Hd]%get_device_inv & [= <-])%bind_inv. by exists d. Qed.

(** Setting a flag. *)
Lemma bit_lor f b c : Z.land b c = 0 → bit (Z.lor f b) c ↔ bit f c.
Proof. intros E. unfold bit. by rewrite Z.land_lor_distr_l, E, Z.lor_0_r. Qed.
Lemma bit_set f b : b ≠ 0 → bit (Z.lor f b) b.
Proof.
  intros Hb. unfold bit. rewrite Z.land_lor_distr_l, Z.land_diag. intros E.
  by apply Z.lor_eq_0_iff in E as [_ ?].
Qed.
Lemma bit_iff f b : bit f b ↔ negb (Z.land f b =? 0) = true.
Proof. unfold bit. destruct (Z.eqb_spec (Z.land f b) 0); split; done. Qed.

Lemma devices_ok_put dev d s : devices_ok s → dev_ok d → devices_ok (put_device dev d s).
Proof.
  intros Hs Hd dev' d' H. unfold put_device in H. simpl in H.
  destruct (decide (dev = dev')) as [<-|]; [rewrite lookup_insert_eq in H; by injection H as <-|].
  rewrite lookup_insert_ne in H by done. by eapply Hs.
Qed.
Lemma devices_ok_eq s s' : ds_devices s' = ds_devices s → devices_ok s → devices_ok s'.
Proof. intros E Hs dev d H. rewrite E in H. by eapply Hs. Qed.

Lemma dev_ok_activated d : dev_ok d → dev_ok (set_dev_flag (Z.lor (dev_flag d) RT_DEVICE_FLAG_ACTIVATED) d).
Proof.
  intros [H1 H2 H3 H4]. split; simpl; [done|done|intros; by apply bit_set|].
  intros H. apply H4. by apply bit_lor in H.
Qed.

(** Calls that keep the invariant. *)
Definition keeps {A} (m : DV A) : Prop := ∀ s s' a, devices_ok s → m s = Ok s' a → devices_ok s'.

Lemma keeps_quiet {A} (m : DV A) : quiet m → keeps m.
Proof. intros Hq s s' a Hs E. by eapply devices_ok_eq, Hs; eapply Hq. Qed.
Lemma keeps_bind {A B} (m : DV A) (f : A → DV B) : keeps m → (∀ a, keeps (f a)) → keeps (m ≫= f).
Proof. intros Hm Hf s s' b Hs (s1 & a & E1 & E2)%bind_inv. eapply Hf, E2. by eapply Hm. Qed.
Lemma keeps_upd dev f : (∀ d, dev_ok d → dev_ok (f d)) → keeps (upd_device dev f).
Proof. intros Hf s s' [] Hs (d & Hd & ->)%upd_device_inv. by eapply devices_ok_put, Hf, Hs. Qed.

(** ** The laws of drivers *)

(** The result of a function of a driver, and the device it leaves. *)
Definition result {A} (r : A * rt_device * D) : A := fst (fst r).
Definition left_device {A} (r : A * rt_device * D) : rt_device := snd (fst r).

(** What every call leaves of a device that has users. *)
Record in_use_kept (d d' : rt_device) : Prop := {
  ik_count : dev_ref_count d' = dev_ref_count d;
  ik_alone : bit (dev_flag d') RT_DEVICE_FLAG_STANDALONE → bit (dev_flag d) RT_DEVICE_FLAG_STANDALONE;
  ik_open : 0 < dev_ref_count d → bit (dev_open_flag d) RT_DEVICE_OFLAG_OPEN → bit (dev_open_flag d') RT_DEVICE_OFLAG_OPEN;
  ik_active : 0 < dev_ref_count d → bit (dev_flag d) RT_DEVICE_FLAG_ACTIVATED → bit (dev_flag d') RT_DEVICE_FLAG_ACTIVATED }.

(** Drivers do not count users, do not make a device stand-alone, and neither
    close nor deactivate one that has users; [open] may store any open flag when
    it accepts, and [init] and [close], which are asked when there is no user,
    may change everything but the count. *)
Class DriverLaws : Prop := {
  law_init dev d (v : D) : dev_ref_count d = 0 → dev_ref_count (left_device (drv_init dev d v)) = 0;
  law_close dev d (v : D) : dev_ref_count d = 0 → dev_ref_count (left_device (drv_close dev d v)) = 0;
  law_read dev pos n d (v : D) : in_use_kept d (left_device (drv_read dev pos n d v));
  law_write dev pos buf n d (v : D) : in_use_kept d (left_device (drv_write dev pos buf n d v));
  law_control dev cmd arg d (v : D) : in_use_kept d (left_device (drv_control dev cmd arg d v));
  law_open dev oflag d (v : D) : bit (dev_flag d) RT_DEVICE_FLAG_ACTIVATED →
    let r := drv_open dev oflag d v in
    dev_ref_count (left_device r) = dev_ref_count d ∧
    (bit (dev_flag (left_device r)) RT_DEVICE_FLAG_STANDALONE → bit (dev_flag d) RT_DEVICE_FLAG_STANDALONE) ∧
    bit (dev_flag (left_device r)) RT_DEVICE_FLAG_ACTIVATED ∧
    (result r ≠ RT_EOK → result r ≠ - RT_ENOSYS → 0 < dev_ref_count d →
     bit (dev_open_flag d) RT_DEVICE_OFLAG_OPEN → bit (dev_open_flag (left_device r)) RT_DEVICE_OFLAG_OPEN) }.

Lemma dev_ok_kept d d' : dev_ok d → in_use_kept d d' → dev_ok d'.
Proof.
  intros [H1 H2 H3 H4] [K1 K2 K3 K4]. split; rewrite ?K1; auto.
Qed.
Lemma dev_ok_idle d : dev_ref_count d = 0 → dev_ok d.
Proof. intros E. split; rewrite E; lia. Qed.

Lemma call_inv {A} dev (f : rt_device → D → A * rt_device * D) s s' a : call dev f s = Ok s' a →
  ∃ d, ds_devices s !! dev = Some d ∧ a = result (f d (ds_driver s)) ∧
    s' = put_driver (snd (f d (ds_driver s))) (put_device dev (left_device (f d (ds_driver s))) s).
Proof.
  unfold call. destruct (ds_devices s !! dev) as [d|] eqn:E; [|done]. destruct (f d (ds_driver s)) as [[x d'] v] eqn:Ef.
  intros [= <- <-]. exists d. by rewrite Ef.
Qed.
Lemma devices_ok_driver v s : devices_ok s → devices_ok (put_driver v s).
Proof. done. Qed.
Lemma keeps_call {A} dev (f : rt_device → D → A * rt_device * D) :
  (∀ d v, in_use_kept d (left_device (f d v))) → keeps (call dev f).
Proof.
  intros Hf s s' a Hs (d & Hd & _ & ->)%call_inv. apply devices_ok_driver, devices_ok_put; [done|].
  eapply dev_ok_kept, Hf. by eapply Hs.
Qed.
(** A call on a device without users. *)
Lemma call_idle {A} dev (f : rt_device → D → A * rt_device * D) d s s' a :
  (∀ d v, dev_ref_count d = 0 → dev_ref_count (left_device (f d v)) = 0) →
  devices_ok s → ds_devices s !! dev = Some d → dev_ref_count d = 0 → call dev f s = Ok s' a → devices_ok s'.
Proof.
  intros Hf Hs Hd Hr (d' & Hd' & _ & ->)%call_inv. rewrite Hd in Hd'. injection Hd' as <-.
  apply devices_ok_driver, devices_ok_put; [done|]. by apply dev_ok_idle, Hf.
Qed.
Lemma dev_ok_inactive d : dev_ok d → is_activated d = false → dev_ref_count d = 0.
Proof.
  intros [H1 H2 H3 H4] Ha. destruct (Z.eqb_spec (dev_ref_count d) 0) as [|Hr]; [done|].
  apply (not_true_iff_false (is_activated d)) in Ha. exfalso. apply Ha, bit_iff, H3. lia.
Qed.

Create HintDb keeps.
Ltac keeps := repeat first
  [solve [eauto with keeps] | solve [apply keeps_quiet; eauto with quiet] | apply keeps_bind; [|intros] | case_match].

Section invariant.
Context {laws : DriverLaws}.

Lemma keeps_read dev pos n : keeps (rt_device_read dev pos n).
Proof. pose proof law_read. pose proof @keeps_call. unfold rt_device_read, assert_device. keeps. Qed.
Lemma keeps_write dev pos buf n : keeps (rt_device_write dev pos buf n).
Proof. pose proof law_write. pose proof @keeps_call. unfold rt_device_write, assert_device. keeps. Qed.
Lemma keeps_control dev cmd a : keeps (rt_device_control dev cmd a).
Proof. pose proof law_control. pose proof @keeps_call. unfold rt_device_control, assert_device. keeps. Qed.

(** A write leaves the count of its device. *)
Lemma rt_device_write_count dev pos buf n s s' r d : rt_device_write dev pos buf n s = Ok s' r →
  ds_devices s !! dev = Some d → ∃ d', ds_devices s' !! dev = Some d' ∧ in_use_kept d d'.
Proof.
  intros H Hd. unfold rt_device_write in H. apply bind_inv in H as (s1 & [] & H1%quiet_on_k & H).
  apply bind_inv in H as (s2 & d1 & [-> Hd1]%get_device_inv & H). rewrite H1, Hd in Hd1. injection Hd1 as <-.
  assert (∀ s2, ds_devices s2 = ds_devices s → ∃ d', ds_devices s2 !! dev = Some d' ∧ in_use_kept d d') as Hq
    by (intros s2 ->; exists d; by repeat split).
  destruct (dev_ref_count d =? 0); [|destruct (dev_write d)].
  - apply bind_inv in H as (s2 & [] & H2%quiet_on_k & [= <- <-]). apply Hq. by rewrite H2.
  - apply call_inv in H as (d1 & Hd1 & _ & ->). rewrite H1, Hd in Hd1. injection Hd1 as <-.
    eexists. split; [apply lookup_put_device|]. apply law_write.
  - apply bind_inv in H as (s2 & [] & H2%quiet_on_k & [= <- <-]). apply Hq. by rewrite H2.
Qed.

Lemma dev_ok_open_flag d d' f : dev_ok d → dev_ok d' → dev_ref_count d' = dev_ref_count d →
  (bit (dev_open_flag d) RT_DEVICE_OFLAG_OPEN → bit f RT_DEVICE_OFLAG_OPEN) → dev_ok (set_dev_open_flag f d').
Proof. intros [H1 H2 H3 H4] [K1 K2 K3 K4] E Hf. split; cbn; auto. rewrite E. auto. Qed.

(** The console device has its open flag back after the output. *)
Lemma keeps_console_write str n : keeps (console_write str n).
Proof.
  intros s s' [] Hs H. unfold console_write in H. apply bind_inv in H as (s1 & c & [= <- <-] & H).
  destruct (ds_console s =? RT_NULL); [by injection H as <-|].
  apply bind_inv in H as (s1 & d & [-> Hd]%get_device_inv & H).
  apply bind_inv in H as (s1 & [] & (d1 & Hd1 & ->)%upd_device_inv & H).
  rewrite Hd in Hd1. injection Hd1 as <-. fold (streaming d) in H. pose proof (Hs _ _ Hd) as Hok.
  assert (devices_ok (put_device (ds_console s) (streaming d) s)) as Hs1.
  { apply devices_ok_put; [done|]. apply (dev_ok_open_flag d); [done..|]. by apply bit_lor. }
  apply bind_inv in H as (s2 & r & Hw & H).
  destruct (rt_device_write_count _ _ _ _ _ _ _ _ Hw (lookup_put_device _ _ _)) as (d2 & Hd2 & [K1 _ _ _]).
  apply keeps_write in Hw; [|done]. apply upd_device_inv in H as (d3 & Hd3 & ->).
  rewrite Hd2 in Hd3. injection Hd3 as <-. apply devices_ok_put; [done|].
  apply (dev_ok_open_flag d); [done| |done|done]. by eapply Hw.
Qed.
Hint Resolve keeps_read keeps_write keeps_control keeps_console_write : keeps.
Lemma keeps_kprintf fmt args : keeps (rt_kprintf fmt args).
Proof. unfold rt_kprintf. keeps. Qed.
Hint Resolve keeps_kprintf : keeps.
Lemma keeps_print_init_failed dev r : keeps (print_init_failed dev r).
Proof. unfold print_init_failed. keeps. Qed.
Hint Resolve keeps_print_init_failed : keeps.

(** ** Opening and closing *)

(** The part of [rt_device_open] after the initialisation. *)
Definition open_rest (dev : ptr) (oflag result : Z) : DV Z :=
  d ← get_device dev;
  if is_busy d then mret (- RT_EBUSY)
  else
    result ← (if dev_open d then call dev (drv_open dev oflag)
              else upd_device dev (set_dev_open_flag (Z.land oflag RT_DEVICE_OFLAG_MASK));; mret result);
    if (result =? RT_EOK) || (result =? - RT_ENOSYS) then
      upd_device dev (λ d, set_dev_open_flag (Z.lor (dev_open_flag d) RT_DEVICE_OFLAG_OPEN) d);;
      upd_device dev (λ d, set_dev_ref_count (u8 (dev_ref_count d + 1)) d);;
      d ← get_device dev;
      rt_assert (negb (dev_ref_count d =? 0));;
      mret result
    else mret result.

(** What the driver, or the default, leaves of the device [d] to be opened. *)
Record opening (r : Z) (d d' : rt_device) : Prop := {
  og_count : dev_ref_count d' = dev_ref_count d;
  og_alone : bit (dev_flag d') RT_DEVICE_FLAG_STANDALONE → bit (dev_flag d) RT_DEVICE_FLAG_STANDALONE;
  og_active : bit (dev_flag d') RT_DEVICE_FLAG_ACTIVATED;
  og_failed : r ≠ RT_EOK → r ≠ - RT_ENOSYS → 0 < dev_ref_count d →
    bit (dev_open_flag d) RT_DEVICE_OFLAG_OPEN → bit (dev_open_flag d') RT_DEVICE_OFLAG_OPEN }.

Lemma open_counts r d d' f : dev_ok d → is_busy d = false → opening r d d' → u8 (dev_ref_count d + 1) ≠ 0 →
  dev_ok (set_dev_ref_count (u8 (dev_ref_count d + 1)) (set_dev_open_flag (Z.lor f RT_DEVICE_OFLAG_OPEN) d')).
Proof.
  intros [H1 H2 H3 H4] Hb [G1 G2 G3 _] Hu.
  pose proof (Z.mod_pos_bound (dev_ref_count d + 1) (2 ^ 8) eq_refl) as Hr. change (_ mod 2 ^ 8) with (u8 (dev_ref_count d + 1)) in Hr.
  split; simpl; [lia|intros _; by apply bit_set|done|].
  intros Hs%G2. destruct (Z.eqb_spec (dev_ref_count d) 0) as [->|]; [done|].
  exfalso. unfold is_busy in Hb. apply bit_iff in Hs. rewrite Hs in Hb.
  assert (bit (dev_open_flag d) RT_DEVICE_OFLAG_OPEN) as Ho%bit_iff by (apply H2; lia). by rewrite Ho in Hb.
Qed.

Lemma call_open_inv dev oflag s s' r d : ds_devices s !! dev = Some d → bit (dev_flag d) RT_DEVICE_FLAG_ACTIVATED →
  (if dev_open d then call dev (drv_open dev oflag)
   else upd_device dev (set_dev_open_flag (Z.land oflag RT_DEVICE_OFLAG_MASK));; mret RT_EOK) s = Ok s' r →
  ∃ d', ds_devices s' = <[dev := d']> (ds_devices s) ∧ opening r d d'.
Proof.
  intros Hd Ha H. destruct (dev_open d).
  - apply call_inv in H as (d1 & Hd1 & -> & ->). rewrite Hd in Hd1. injection Hd1 as <-.
    eexists. split; [reflexivity|]. destruct (law_open dev oflag d (ds_driver s) Ha) as (L1 & L2 & L3 & L4). by split.
  - apply bind_inv in H as (s1 & [] & (d1 & Hd1 & ->)%upd_device_inv & [= <- <-]).
    rewrite Hd in Hd1. injection Hd1 as <-. eexists. split; [reflexivity|]. by split.
Qed.

Lemma open_rest_keeps dev oflag s s' r d : devices_ok s → ds_devices s !! dev = Some d →
  bit (dev_flag d) RT_DEVICE_FLAG_ACTIVATED → open_rest dev oflag RT_EOK s = Ok s' r → devices_ok s'.
Proof.
  intros Hs Hd Ha H. unfold open_rest in H. apply bind_inv in H as (s1 & d1 & [-> Hd1]%get_device_inv & H).
  rewrite Hd in Hd1. injection Hd1 as <-. destruct (is_busy d) eqn:Hb; [by injection H as <- <-|].
  apply bind_inv in H as (s2 & r2 & H2 & H). destruct (call_open_inv _ _ _ _ _ _ Hd Ha H2) as (d2 & E2 & Hop).
  pose proof (Hs _ _ Hd) as Hok.
  assert (Hput : ∀ d3, dev_ok d3 → ∀ s3, ds_devices s3 = <[dev := d3]> (ds_devices s) → devices_ok s3)
    by (intros d3 Hd3 s3 E3; eapply (devices_ok_eq (put_device dev d3 s)); [exact E3|by apply devices_ok_put]).
  assert ((r2 =? RT_EOK) || (r2 =? - RT_ENOSYS) = false → r2 ≠ RT_EOK ∧ r2 ≠ - RT_ENOSYS) as Hfail
    by (intros [?%Z.eqb_neq ?%Z.eqb_neq]%orb_false_iff; done).
  destruct (_ || _).
  - apply bind_inv in H as (s3 & [] & (d3 & Hd3 & ->)%upd_device_inv & H).
    apply bind_inv in H as (s4 & [] & (d4 & Hd4 & ->)%upd_device_inv & H).
    apply bind_inv in H as (s5 & d5 & [-> Hd5]%get_device_inv & H).
    rewrite lookup_put_device in Hd5. injection Hd5 as <-. rewrite lookup_put_device in Hd4. injection Hd4 as <-.
    rewrite E2, lookup_insert_eq in Hd3. injection Hd3 as <-.
    cbn [dev_ref_count set_dev_ref_count set_dev_open_flag] in H. rewrite (og_count _ _ _ Hop) in H.
    destruct (Z.eqb_spec (u8 (dev_ref_count d + 1)) 0) as [|Hu]; [done|]. injection H as <- <-.
    apply (Hput _ (open_counts r2 d d2 (dev_open_flag d2) Hok Hb Hop Hu)). rewrite put_put_device. cbn.
    by rewrite E2, insert_insert_eq.
  - injection H as <- <-. destruct (Hfail eq_refl) as [Hr1 Hr2]. apply (Hput d2); [|done].
    destruct Hok as [K1 K2 K3 K4], Hop as [G1 G2 G3 G4]. split; rewrite ?G1; auto.
Qed.

Lemma keeps_set_activated dev : keeps (set_activated dev).
Proof. apply keeps_upd, dev_ok_activated. Qed.

Lemma set_activated_inv dev s s' : devices_ok s → set_activated dev s = Ok s' tt →
  devices_ok s' ∧ ∃ d, ds_devices s' !! dev = Some d ∧ bit (dev_flag d) RT_DEVICE_FLAG_ACTIVATED.
Proof.
  intros Hs H. split; [by eapply keeps_set_activated|]. apply upd_device_inv in H as (d & Hd & ->).
  eexists. split; [apply lookup_put_device|]. by apply bit_set.
Qed.

(** The [init] of a device that is not activated has no users to disturb. *)
Lemma call_init_ok dev d s s' r : devices_ok s → ds_devices s !! dev = Some d → is_activated d = false →
  call dev (drv_init dev) s = Ok s' r → devices_ok s'.
Proof.
  intros Hs Hd Ha H. eapply call_idle; [|exact Hs|exact Hd| |exact H]; [intros; by apply law_init|].
  apply dev_ok_inactive; [by eapply Hs|done].
Qed.

Lemma keeps_init dev : keeps (rt_device_init dev).
Proof.
  intros s s' r Hs H. unfold rt_device_init in H. apply bind_inv in H as (s1 & [] & H1 & H).
  destruct (negb (dev =? RT_NULL)); [|done]. injection H1 as <-.
  apply bind_inv in H as (s1 & d & [-> Hd]%get_device_inv & H).
  destruct (dev_init d); [|by injection H as <- <-]. destruct (is_activated d) eqn:Ha; [by injection H as <- <-|].
  cbn [negb] in H. apply bind_inv in H as (s2 & r2 & H2 & H). apply (call_init_ok _ _ _ _ _ Hs Hd Ha) in H2.
  apply bind_inv in H as (s3 & [] & H3 & [= <- <-]).
  destruct (negb (r2 =? RT_EOK)); [by eapply keeps_print_init_failed|by eapply keeps_set_activated].
Qed.

(** After the initialisation the device is activated, when that went well. *)
Lemma open_init_keeps dev d s s' r : devices_ok s → ds_devices s !! dev = Some d →
  (if negb (is_activated d) then
     if dev_init d then
       result ← call dev (drv_init dev);
       if negb (result =? RT_EOK) then print_init_failed dev result;; mret result
       else set_activated dev;; mret result
     else set_activated dev;; mret RT_EOK
   else mret RT_EOK) s = Ok s' r →
  devices_ok s' ∧ (r = RT_EOK → ∃ d, ds_devices s' !! dev = Some d ∧ bit (dev_flag d) RT_DEVICE_FLAG_ACTIVATED).
Proof.
  intros Hs Hd H. destruct (is_activated d) eqn:Ha; cbn [negb] in H.
  { injection H as <- <-. split; [done|]. intros _. exists d. split; [done|]. by apply bit_iff. }
  destruct (dev_init d).
  - apply bind_inv in H as (s2 & r2 & H2 & H). apply (call_init_ok _ _ _ _ _ Hs Hd Ha) in H2.
    destruct (Z.eqb_spec r2 RT_EOK) as [->|Hr]; cbn [negb] in H;
      apply bind_inv in H as (s3 & [] & H3 & [= <- <-]).
    + apply set_activated_inv in H3 as [? ?]; done.
    + split; [|done]. by eapply keeps_print_init_failed.
  - apply bind_inv in H as (s3 & [] & H3 & [= <- <-]). apply set_activated_inv in H3 as [? ?]; done.
Qed.

Lemma keeps_open dev oflag : keeps (rt_device_open dev oflag).
Proof.
  intros s s' r Hs H. unfold rt_device_open in H.
  apply bind_inv in H as (s1 & [] & H1%quiet_on_k & H). apply (devices_ok_eq _ _ H1) in Hs. clear H1.
  apply bind_inv in H as (s2 & d & [-> Hd]%get_device_inv & H).
  apply bind_inv in H as (s3 & r3 & H3 & H). apply (open_init_keeps _ _ _ _ _ Hs Hd) in H3 as [Hs3 Ha3].
  destruct (Z.eqb_spec r3 RT_EOK) as [->|Hr]; cbn [negb] in H; [|by injection H as <- <-].
  destruct (Ha3 eq_refl) as (d3 & Hd3 & Ha). by apply (open_rest_keeps dev oflag s3 s' r d3).
Qed.

Lemma keeps_close dev : keeps (rt_device_close dev).
Proof.
  intros s s' r Hs H. unfold rt_device_close in H.
  apply bind_inv in H as (s1 & [] & H1%quiet_on_k & H). apply (devices_ok_eq _ _ H1) in Hs. clear H1.
  apply bind_inv in H as (s2 & d & [-> Hd]%get_device_inv & H).
  destruct (Z.eqb_spec (dev_ref_count d) 0) as [|Hr]; [by injection H as <- <-|].
  apply bind_inv in H as (s3 & [] & (d3 & Hd3 & ->)%upd_device_inv & H).
  rewrite Hd in Hd3. injection Hd3 as <-. destruct (Hs _ _ Hd) as [K1 K2 K3 K4].
  set (d1 := set_dev_ref_count (dev_ref_count d - 1) d) in H.
  assert (devices_ok (put_device dev d1 s1)) as Hs1.
  { apply devices_ok_put; [done|]. split; simpl; [lia|intros; apply K2; lia|intros; apply K3; lia|].
    intros Hb. specialize (K4 Hb). lia. }
  destruct (Z.eqb_spec (dev_ref_count d - 1) 0) as [E0|E0]; cbn [negb] in H; [|by injection H as <- <-].
  apply bind_inv in H as (s4 & r4 & H4 & H). apply bind_inv in H as (s5 & [] & H5 & [= <- <-]).
  assert (devices_ok s4 ∧ ∃ d4, ds_devices s4 !! dev = Some d4 ∧ dev_ref_count d4 = 0) as (Hs4 & d4 & Hd4 & Hr4).
  { destruct (dev_close d); [|injection H4 as <- <-; split; [done|]; exists d1; split; [apply lookup_put_device|exact E0]].
    split; [exact (call_idle dev _ d1 _ _ _ (law_close dev) Hs1 (lookup_put_device _ _ _) E0 H4)|].
    apply call_inv in H4 as (d5 & Hd5 & _ & ->). rewrite lookup_put_device in Hd5. injection Hd5 as <-.
    eexists. split; [apply lookup_put_device|]. apply law_close, E0. }
  destruct (_ || _); [|by injection H5 as <-].
  apply upd_device_inv in H5 as (d5 & Hd5 & ->). rewrite Hd4 in Hd5. injection Hd5 as <-.
  apply devices_ok_put; [done|]. by apply dev_ok_idle.
Qed.

Lemma keeps_register dev name flags : keeps (rt_device_register dev name flags).
Proof.
  intros s s' r Hs H. unfold rt_device_register in H. destruct (dev =? RT_NULL); [by injection H as <- <-|].
  apply bind_inv in H as (s1 & old & H1%quiet_on_k & H). apply (devices_ok_eq _ _ H1) in Hs.
  destruct (negb (old =? RT_NULL)); [by injection H as <- <-|].
  apply bind_inv in H as (s2 & [] & H2%quiet_on_k & H). apply (devices_ok_eq _ _ H2) in Hs.
  apply bind_inv in H as (s3 & [] & (d3 & Hd3 & ->)%upd_device_inv & H).
  apply bind_inv in H as (s4 & [] & (d4 & Hd4 & ->)%upd_device_inv & H).
  apply bind_inv in H as (s5 & [] & (d5 & Hd5 & ->)%upd_device_inv & [= <- <-]).
  rewrite lookup_put_device in Hd5. injection Hd5 as <-. rewrite lookup_put_device in Hd4. injection Hd4 as <-.
  rewrite !put_put_device. apply devices_ok_put; [done|]. by split.
Qed.

Lemma keeps_console_set_device name : keeps (rt_console_set_device name).
Proof.
  unfold rt_console_set_device. apply keeps_bind; [by apply keeps_quiet; quiet|intros old].
  apply keeps_bind; [by apply keeps_quiet; unfold rt_device_find; quiet|intros new].
  destruct (new =? old); [by apply keeps_quiet; quiet|].
  apply keeps_bind; [|by intros; apply keeps_quiet; quiet].
  destruct (negb (new =? RT_NULL)); [|by apply keeps_quiet; quiet].
  apply keeps_bind; [by apply keeps_quiet; quiet|intros c]. apply keeps_bind.
  - destruct (negb (c =? RT_NULL)); [|by apply keeps_quiet; quiet].
    apply keeps_bind; [apply keeps_close|by intros; apply keeps_quiet; quiet].
  - intros _. apply keeps_bind; [apply keeps_open|]. intros _ s s' [] Hs [= <-]. exact Hs.
Qed.

(** The calls of drivers and applications. *)
Inductive dev_call : Type :=
  | CRegister (dev : ptr) (name : list Z) (flags : Z)
  | CUnregister (dev : ptr)
  | CInit (dev : ptr)
  | COpen (dev : ptr) (oflag : Z)
  | CClose (dev : ptr)
  | CRead (dev : ptr) (pos size : Z)
  | CWrite (dev : ptr) (pos : Z) (buffer : list Z) (size : Z)
  | CControl (dev : ptr) (cmd arg : Z)
  | CSetRx (dev rx_ind : ptr)
  | CSetTx (dev tx_done : ptr)
  | CPuts (str : option (list Z))
  | CPrintf (fmt : list Z) (args : list arg)
  | CConsole (name : option (list Z)).
Definition drop {A} (m : DV A) : DV unit := m;; mret ().
Definition run_call (c : dev_call) : DV unit :=
  match c with
  | CRegister dev name flags => drop (rt_device_register dev name flags)
  | CUnregister dev => drop (rt_device_unregister dev)
  | CInit dev => drop (rt_device_init dev)
  | COpen dev oflag => drop (rt_device_open dev oflag)
  | CClose dev => drop (rt_device_close dev)
  | CRead dev pos size => drop (rt_device_read dev pos size)
  | CWrite dev pos buffer size => drop (rt_device_write dev pos buffer size)
  | CControl dev cmd a => drop (rt_device_control dev cmd a)
  | CSetRx dev rx => drop (rt_device_set_rx_indicate dev rx)
  | CSetTx dev tx => drop (rt_device_set_tx_complete dev tx)
  | CPuts str => rt_kputs str
  | CPrintf fmt args => rt_kprintf fmt args
  | CConsole name => drop (rt_console_set_device name)
  end.
Fixpoint run_calls (cs : list dev_call) : DV unit :=
  match cs with [] => mret () | c :: cs' => run_call c;; run_calls cs' end.

Lemma keeps_drop {A} (m : DV A) : keeps m → keeps (drop m).
Proof. intros Hm. apply keeps_bind; [done|]. intros _. by apply keeps_quiet; quiet. Qed.

Lemma run_call_keeps c : keeps (run_call c).
Proof.
  destruct c; cbn [run_call];
    first [apply keeps_drop|idtac];
    first [apply keeps_register|apply keeps_init|apply keeps_open|apply keeps_close|apply keeps_console_set_device|idtac].
  - unfold rt_device_unregister, assert_device, rt_assert. by apply keeps_quiet; quiet.
  - apply keeps_read.
  - apply keeps_write.
  - apply keeps_control.
  - apply keeps_bind; [by apply keeps_quiet, quiet_on_k|intros _].
    apply keeps_bind; [by apply keeps_upd; intros d []; split|intros; by apply keeps_quiet; quiet].
  - apply keeps_bind; [by apply keeps_quiet, quiet_on_k|intros _].
    apply keeps_bind; [by apply keeps_upd; intros d []; split|intros; by apply keeps_quiet; quiet].
  - unfold rt_kputs. keeps.
  - apply keeps_kprintf.
Qed.

(** C25: Whatever calls are made on the devices and the console, in any order: a
    device with users is initialised and marked open, a stand-alone device has
    one user at most, and no reference count leaves its byte. The drivers may
    change the structures of their devices, as long as they obey [DriverLaws]:
    they leave the reference count alone and make no device stand-alone; [read],
    [write] and [control] do not close or deactivate a device that has users,
    nor does an [open] that fails close it or any [open] deactivate it. The
    [close] of a driver may clear the flags, as the serial driver's does. *)
Theorem devices_invariant cs s s' : devices_ok s → run_calls cs s = Ok s' tt → devices_ok s'.
Proof.
  revert s. induction cs as [|c cs IH]; intros s Hs H; [by injection H as <-|].
  apply bind_inv in H as (s1 & [] & H1 & H). eapply IH, H. by eapply run_call_keeps.
Qed.
End invariant.

(** ** Opening and closing are counted *)

Definition accepted (r : Z) : bool := (r =? RT_EOK) || (r =? - RT_ENOSYS).

(** What the driver's [open], or the default, returns and leaves, and [close]. *)
Definition open_result (dev : ptr) (oflag : Z) (d : rt_device) (v : D) : Z * rt_device * D :=
  if dev_open d then drv_open dev oflag d v else (RT_EOK, set_dev_open_flag (Z.land oflag RT_DEVICE_OFLAG_MASK) d, v).
Definition close_result (dev : ptr) (d : rt_device) (v : D) : Z * rt_device * D :=
  if dev_close d then drv_close dev d v else (RT_EOK, d, v).

(** The driver accepts to open and to close, and leaves the count, and an
    activated device that can be shared so. *)
Definition opens_well (dev : ptr) (oflag : Z) : Prop := ∀ d v, is_activated d = true →
  let r := open_result dev oflag d v in
  accepted (result r) = true ∧ dev_ref_count (left_device r) = dev_ref_count d ∧ is_activated (left_device r) = true ∧
  (bit (dev_flag (left_device r)) RT_DEVICE_FLAG_STANDALONE → bit (dev_flag d) RT_DEVICE_FLAG_STANDALONE).


(** The device with one user more. *)
Definition one_more (d : rt_device) : rt_device :=
  set_dev_ref_count (u8 (dev_ref_count d + 1)) (set_dev_open_flag (Z.lor (dev_open_flag d) RT_DEVICE_OFLAG_OPEN) d).

Lemma rt_device_open_activated dev oflag d s : is_activated d = true → live dev s → ds_devices s !! dev = Some d →
  rt_device_open dev oflag s = open_rest dev oflag RT_EOK s.
Proof.
  intros Ha Hl Hd. unfold rt_device_open. do 2 dstep. rewrite Ha. cbn [negb].
  by erewrite bind_ok by reflexivity.
Qed.

(** The count goes up, unless it wraps. *)
Lemma open_rest_ok dev oflag d s : ds_devices s !! dev = Some d → is_busy d = false →
  accepted (result (open_result dev oflag d (ds_driver s))) = true →
  open_rest dev oflag RT_EOK s =
    (let '(r, d', v) := open_result dev oflag d (ds_driver s) in
     if u8 (dev_ref_count d' + 1) =? 0 then Err FAssert
     else Ok (put_driver v (put_device dev (one_more d') s)) r).
Proof.
  intros Hd Hb. unfold open_rest. dstep. rewrite Hb.
  assert (Hcall : (if dev_open d then call dev (drv_open dev oflag)
      else upd_device dev (set_dev_open_flag (Z.land oflag RT_DEVICE_OFLAG_MASK));; mret RT_EOK) s =
    (let '(r, d', v) := open_result dev oflag d (ds_driver s) in Ok (put_driver v (put_device dev d' s)) r)).
  { unfold open_result. destruct (dev_open d); [by apply call_ok|]. dstep. by destruct s. }
  destruct (open_result dev oflag d (ds_driver s)) as [[r d'] v]. unfold result. cbn [fst]. intros Hr.
  rewrite (bind_ok _ _ _ _ _ Hcall). cbv beta. fold (accepted r). rewrite Hr.
  set (s1 := put_driver v _). assert (ds_devices s1 !! dev = Some d') as Hd1 by apply lookup_put_device.
  rewrite (bind_ok _ _ _ _ _ (upd_device_ok dev d' _ s1 Hd1)).
  rewrite (bind_ok _ _ _ _ _ (upd_device_ok dev _ _ _ (lookup_put_device _ _ _))).
  rewrite (bind_ok _ _ _ _ _ (get_device_ok dev _ _ (lookup_put_device _ _ _))), !put_put_device.
  cbn [dev_ref_count set_dev_ref_count set_dev_open_flag]. fold (one_more d').
  destruct (u8 (dev_ref_count d' + 1) =? 0); [done|]. cbn. unfold mret, ST_ret. f_equal.
  unfold s1, put_device, put_driver, set_ds_devices. cbn. by rewrite insert_insert_eq.
Qed.

(** The 256th user of a device is one too many: the count would wrap to zero,
    and the assertion that guards it fails. *)
Theorem rt_device_open_overflow dev oflag d s : opens_well dev oflag → live dev s →
  ds_devices s !! dev = Some d → is_activated d = true → is_busy d = false → dev_ref_count d = 255 →
  rt_device_open dev oflag s = Err FAssert.
Proof.
  intros Hw Hl Hd Ha Hb Hr. rewrite (rt_device_open_activated dev oflag d) by done.
  destruct (Hw d (ds_driver s) Ha) as (W1 & W2 & _). rewrite (open_rest_ok dev oflag d s Hd Hb W1).
  revert W2. destruct (open_result _ _ _ _) as [[r d'] v]. unfold left_device. cbn [fst snd]. intros ->. by rewrite Hr.
Qed.

Lemma rt_device_close_last dev d s : live dev s → ds_devices s !! dev = Some d → dev_ref_count d = 1 →
  rt_device_close dev s =
    (let '(r, d', v) := close_result dev (set_dev_ref_count 0 d) (ds_driver s) in
     Ok (put_driver v (put_device dev (if accepted r then set_dev_open_flag RT_DEVICE_OFLAG_CLOSE d' else d') s)) r).
Proof.
  intros Hl Hd Hr. unfold rt_device_close. do 2 dstep. rewrite Hr. change (1 =? 0) with false. cbv iota.
  dstep. change (negb (1 - 1 =? 0)) with false. cbv iota. change (1 - 1) with 0.
  set (d0 := set_dev_ref_count 0 d). set (s1 := put_device dev d0 s).
  assert (Hcall : (if dev_close d then call dev (drv_close dev) else mret RT_EOK) s1 =
    (let '(r, d', v) := close_result dev d0 (ds_driver s) in Ok (put_driver v (put_device dev d' s)) r)).
  { unfold close_result. change (dev_close d0) with (dev_close d). destruct (dev_close d); [|by destruct s].
    rewrite (call_ok dev _ d0 s1) by apply lookup_put_device. change (ds_driver s1) with (ds_driver s).
    destruct (drv_close dev d0 (ds_driver s)) as [[r d'] v]. unfold s1. by rewrite put_put_device. }
  destruct (close_result dev d0 (ds_driver s)) as [[r d'] v].
  rewrite (bind_ok _ _ _ _ _ Hcall). cbv beta. fold (accepted r). destruct (accepted r); [|done].
  set (s2 := put_driver v _). assert (ds_devices s2 !! dev = Some d') as Hd2 by apply lookup_put_device.
  rewrite (bind_ok _ _ _ _ _ (upd_device_ok dev d' _ s2 Hd2)). unfold s2. by rewrite put_device_driver, put_put_device.
Qed.
Lemma rt_device_close_none dev d s : live dev s → ds_devices s !! dev = Some d → dev_ref_count d = 0 →
  rt_device_close dev s = Ok s (- RT_ERROR).
Proof. intros Hl Hd Hr. unfold rt_device_close. do 2 dstep. by rewrite Hr. Qed.








(** A stand-alone device whose driver fails to close, and leaves the structure
    alone, is lost: it counts no user but stays marked open, so every later open
    finds it busy and every later close is an error. *)
Theorem failed_close_blocks_device dev d s r v :
  live dev s → ds_devices s !! dev = Some d → is_activated d = true →
  bit (dev_flag d) RT_DEVICE_FLAG_STANDALONE → bit (dev_open_flag d) RT_DEVICE_OFLAG_OPEN → dev_ref_count d = 1 →
  close_result dev (set_dev_ref_count 0 d) (ds_driver s) = (r, set_dev_ref_count 0 d, v) → accepted r = false →
  ∃ s', rt_device_close dev s = Ok s' r ∧
    (∀ oflag, rt_device_open dev oflag s' = Ok s' (- RT_EBUSY)) ∧ rt_device_close dev s' = Ok s' (- RT_ERROR).
Proof.
  intros Hl Hd Ha Hst Hop Hr Hc Hacc. pose proof (rt_device_close_last dev d s Hl Hd Hr) as E. rewrite Hc, Hacc in E.
  set (d1 := set_dev_ref_count 0 d) in *. set (s1 := put_driver v _) in E. exists s1. split; [done|].
  assert (ds_devices s1 !! dev = Some d1) as Hd1 by apply lookup_put_device. split.
  - intros oflag. rewrite (rt_device_open_activated dev oflag d1) by done. unfold open_rest. dstep.
    assert (is_busy d1 = true) as ->; [|done]. apply andb_true_iff. by split; apply bit_iff.
  - by apply (rt_device_close_none dev d1).
Qed.

(** ** Creating and destroying *)

(** The object of [dev] is of no class, or static. *)
Definition undestroyable (dev : ptr) s : Prop :=
  ∃ x, k_objects (ds_kernel s) !! dev = Some x ∧ (obj_type x = 0 ∨ is_static x = true).

Lemma rt_device_destroy_asserts dev s : dev ≠ RT_NULL → undestroyable dev s → rt_device_destroy dev s = Err FAssert.
Proof.
  intros Hn (x & Hx & Ht). unfold rt_device_destroy.
  assert (Hget : rt_object_get_type dev (ds_kernel s) = Ok (ds_kernel s) (class_of x)) by (by apply rt_object_get_type_ok).
  destruct (Z.eqb_spec (class_of x) RT_Object_Class_Device) as [Hc|Hc].
  - assert (live dev s) as Hl by (split; [done|by exists x]). dstep.
    destruct Ht as [Ht|Ht]; [exfalso; unfold class_of in Hc; by rewrite Ht in Hc|].
    rewrite (bind_ok (on_k (rt_object_is_systemobject dev)) _ s s (is_static x));
      [|rewrite (on_kernel_run _ (ds_kernel s) (is_static x)); [by destruct s|by apply rt_object_is_systemobject_ok]].
    cbv beta. by rewrite Ht.
  - unfold mbind at 1, ST_bind at 1.
    assert (assert_device dev s = Err FAssert) as ->; [|done].
    unfold assert_device, on_k.
    assert (assert_class dev RT_Object_Class_Device (ds_kernel s) = Err FAssert) as ->; [|done].
    unfold assert_class. rewrite (proj2 (Z.eqb_neq dev RT_NULL)) by done.
    erewrite bind_ok by reflexivity. rewrite (bind_ok _ _ _ _ _ Hget). by rewrite (proj2 (Z.eqb_neq _ _)).
Qed.

(** Registering leaves a static object. *)
Lemma rt_object_init_static k k' o type name : rt_object_init o type name k = Ok k' tt →
  ∃ x, k_objects k' !! o = Some x ∧ obj_type x = Z.lor type RT_Object_Class_Static.
Proof.
  unfold rt_object_init. destruct (rt_object_get_information type) as [info|]; [|done].
  intros (k1 & [] & _ & H)%bind_inv. apply bind_inv in H as (k2 & l & _ & H).
  apply bind_inv in H as (k3 & [] & _ & H). apply bind_inv in H as (k4 & [] & _ & H).
  apply bind_inv in H as (k5 & [] & [= <-] & H). cbv zeta in H.
  apply bind_inv in H as (k6 & lv & H6 & H). apply bind_inv in H as (k7 & [] & H7 & [= <-]).
  apply bind_inv in H6 as (k8 & lv' & [= <- <-] & H6). apply bind_inv in H6 as (k9 & [] & [= <-] & [= <- <-]).
  apply bind_inv in H7 as (k10 & S & [= <- <-] & H7). destruct (decide _); [|done]. injection H7 as <-.
  cbn. rewrite lookup_insert_eq. by eexists.
Qed.
Lemma rt_object_detach_untyped k k' o : rt_object_detach o k = Ok k' tt →
  ∃ x, k_objects k' !! o = Some x ∧ obj_type x = 0.
Proof.
  unfold rt_object_detach. intros (k1 & [] & H1 & H)%bind_inv.
  apply bind_inv in H as (k2 & [] & H2 & H). apply bind_inv in H as (k3 & lv & H3 & H).
  apply bind_inv in H3 as (k8 & lv' & [= <- <-] & H3). apply bind_inv in H3 as (k9 & [] & [= <-] & [= <- <-]).
  apply bind_inv in H as (k4 & [] & [= <-] & [= <-]). cbn.
  unfold upd_object in H2. apply bind_inv in H2 as (k5 & x & H5 & [= <-]). cbn. rewrite lookup_insert_eq. by eexists.
Qed.

Lemma put_fields_kernel dev f s s' : upd_device dev f s = Ok s' tt → ds_kernel s' = ds_kernel s.
Proof. by intros (d & _ & ->)%upd_device_inv. Qed.

Lemma on_k_inv {A} (m : ST kstate A) s s' a : on_k m s = Ok s' a → m (ds_kernel s) = Ok (ds_kernel s') a.
Proof. unfold on_k. destruct (m _); [|done]. by intros [= <- <-]. Qed.

(** [rt_device_destroy] never destroys a device: what [rt_device_create] makes
    is of no class, what [rt_device_register] registers is a static object,
    and what [rt_device_unregister] leaves is of no class again; in each case
    an assertion of [rt_device_destroy] fails. *)
Theorem rt_device_destroy_never_returns dev s s' : dev ≠ RT_NULL →
  (∃ type, rt_device_create dev type s = Ok s' dev) ∨
  (∃ name flags, rt_device_register dev name flags s = Ok s' RT_EOK) ∨
  rt_device_unregister dev s = Ok s' RT_EOK →
  rt_device_destroy dev s' = Err FAssert.
Proof.
  intros Hn Hcases. apply rt_device_destroy_asserts; [done|]. destruct Hcases as [[type H]|[(name & flags & H)|H]].
  - unfold rt_device_create in H. rewrite (proj2 (Z.eqb_neq dev RT_NULL)) in H by done. cbn [negb] in H.
    apply bind_inv in H as (s1 & [] & H1 & [= <-]).
    apply bind_inv in H1 as (s2 & [] & [= <-] & H1). apply bind_inv in H1 as (s3 & [] & [= <-] & [= <-]).
    exists zero_object. cbn. rewrite lookup_insert_eq. split; [done|by left].
  - unfold rt_device_register in H. rewrite (proj2 (Z.eqb_neq dev RT_NULL)) in H by done.
    apply bind_inv in H as (s1 & old & _ & H). destruct (negb (old =? RT_NULL)); [done|].
    apply bind_inv in H as (s2 & [] & H2%on_k_inv%rt_object_init_static & H).
    apply bind_inv in H as (s3 & [] & H3%put_fields_kernel & H).
    apply bind_inv in H as (s4 & [] & H4%put_fields_kernel & H).
    apply bind_inv in H as (s5 & [] & H5%put_fields_kernel & [= <-]).
    destruct H2 as (x & Hx & Ht). exists x. rewrite H5, H4, H3. split; [done|]. right. unfold is_static. by rewrite Ht.
  - unfold rt_device_unregister in H. apply bind_inv in H as (s1 & [] & _ & H).
    apply bind_inv in H as (s2 & sys & _ & H). apply bind_inv in H as (s3 & [] & _ & H).
    apply bind_inv in H as (s4 & [] & H4%on_k_inv%rt_object_detach_untyped & [= <-]).
    destruct H4 as (x & Hx & Ht). exists x. split; [done|by left].
Qed.

(** ** The console device *)

(** A name that is not found: the old device is returned, as after a success. *)
Lemma rt_console_set_device_not_found name s s' :
  rt_device_find name s = Ok s' RT_NULL → ds_console s ≠ RT_NULL →
  rt_console_set_device name s = Ok s' (ds_console s).
Proof.
  intros Hf Hc. unfold rt_console_set_device. erewrite bind_ok by reflexivity. cbv beta.
  rewrite (bind_ok _ _ _ _ _ Hf). by rewrite (proj2 (Z.eqb_neq _ _)) by done.
Qed.
End device_spec.

(** ** Registering devices and finding them by name *)

(** ** Lookup by name *)

Definition name_of (k : kstate) (o : ptr) : list Z := obj_name (default zero_object (k_objects k !! o)).
Definition named (k : kstate) (o : ptr) (name : list Z) : bool := rt_strncmp (name_of k o) name RT_NAME_MAX =? 0.

(** The first object of that name; null when there is none. *)
Fixpoint first_named (k : kstate) (l : list ptr) (name : list Z) : ptr :=
  match l with
  | [] => RT_NULL
  | o :: l' => if named k o name then o else first_named k l' name
  end.

Definition all_live (k : kstate) (l : list ptr) : Prop := Forall (λ o, is_Some (k_objects k !! o)) l.

Lemma find_by_name_ok k l name : all_live k l → find_by_name l name k = Ok k (first_named k l name).
Proof.
  induction 1 as [|o l [x Hx] Hl IH]; [done|]. cbn [find_by_name first_named]. kstep.
  unfold named, name_of. rewrite Hx. simpl. by destruct (_ =? 0).
Qed.

Lemma first_named_locked k l name : first_named (set_k_lock_nest 1 k) l name = first_named k l name.
Proof. induction l as [|o l IH]; [done|]. cbn [first_named]. by rewrite IH. Qed.

Lemma rt_object_find_ok k type name :
  running k → k_interrupt_nest k = 0 → type ∈ rt_object_container →
  all_live k (Store.nodes (k_containers k) type) →
  rt_object_find (Some name) type k = Ok (schedule k) (first_named k (Store.nodes (k_containers k) type) name).
Proof.
  intros Hr Hn Ht Hl. unfold rt_object_find. rewrite get_information_some by done.
  erewrite bind_ok by (by apply not_in_interrupt_ok).
  erewrite bind_ok by (by apply rt_enter_critical_ok).
  erewrite bind_ok by reflexivity. cbv beta.
  change (k_containers (set_k_lock_nest 1 k)) with (k_containers k).
  rewrite (bind_ok _ _ _ _ _ (find_by_name_ok (set_k_lock_nest 1 k) _ name Hl)).
  rewrite (bind_ok _ _ _ _ _ (rt_exit_critical_ok k Hr)). by rewrite first_named_locked.
Qed.

Lemma running_again k : running k → running (schedule k).
Proof. intros (Hwf & Hl & _). by apply running_schedule. Qed.

Lemma first_named_nonnull k l name : RT_NULL ∉ l →
  first_named k l name = RT_NULL ↔ ∀ o, o ∈ l → named k o name = false.
Proof.
  induction l as [|o l IH]; intros Hn; simpl; [split; [by intros _ o ?%elem_of_nil|done]|].
  apply not_elem_of_cons in Hn as [Ho Hn]. destruct (named k o name) eqn:E.
  - split; [congruence|]. intros H. assert (named k o name = false) by (apply H; left). congruence.
  - rewrite (IH Hn). split; [|intros H o' ?; apply H; by right].
    intros H o' [->|?]%elem_of_cons; [done|by apply H].
Qed.

(** ** Registration *)

Section registry.
Context {D : Type} `{!DeviceDriver D}.
Implicit Types (s : dstate D) (dev : ptr).

Definition devices (s : dstate D) : list ptr := Store.nodes (k_containers (ds_kernel s)) RT_Object_Class_Device.

Lemma class_device : RT_Object_Class_Device ∈ rt_object_container.
Proof. unfold rt_object_container. do 7 right. left. Qed.

Lemma rt_device_find_ok s name :
  running (ds_kernel s) → k_interrupt_nest (ds_kernel s) = 0 → all_live (ds_kernel s) (devices s) →
  rt_device_find (Some name) s =
    Ok (mk_dstate (schedule (ds_kernel s)) (ds_devices s) (ds_driver s) (ds_console s) (ds_log_buf s))
      (first_named (ds_kernel s) (devices s) name).
Proof. intros. apply on_kernel_run. apply rt_object_find_ok; try done. apply class_device. Qed.

(** [rt_device_register] refuses a null device and a name another device has;
    any other device it puts first in the list of devices, idle, closed and
    with the given flags, the other devices unchanged, and [rt_device_find]
    finds it by its name. *)
Theorem rt_device_register_spec s dev name flags d :
  running (ds_kernel s) → k_interrupt_nest (ds_kernel s) = 0 → all_live (ds_kernel s) (devices s) →
  RT_NULL ∉ devices s → not_core (ds_kernel s) dev → Store.unlinked (k_containers (ds_kernel s)) dev →
  ds_devices s !! dev = Some d →
  (dev = RT_NULL → rt_device_register dev name flags s = Ok s (- RT_ERROR)) ∧
  (dev ≠ RT_NULL → (∃ o, o ∈ devices s ∧ named (ds_kernel s) o name = true) →
     ∃ s', rt_device_register dev name flags s = Ok s' (- RT_ERROR) ∧ ds_devices s' = ds_devices s ∧ devices s' = devices s) ∧
  (dev ≠ RT_NULL → (∀ o, o ∈ devices s → named (ds_kernel s) o name = false) →
     ∃ s', rt_device_register dev name flags s = Ok s' RT_EOK ∧ devices s' = dev :: devices s ∧ live dev s' ∧
       ds_devices s' = <[dev := set_dev_open_flag 0 (set_dev_ref_count 0 (set_dev_flag (u16 flags) d))]> (ds_devices s) ∧
       ∃ s'', rt_device_find (Some name) s' = Ok s'' dev).
Proof.
  intros Hr Hn Hl H0 Hc Hu Hd. unfold rt_device_register. split; [by intros ->|].
  pose proof (rt_device_find_ok s name Hr Hn Hl) as Hf. split; intros Hnz.
  - intros Hex. rewrite (proj2 (Z.eqb_neq dev RT_NULL)) by done. rewrite (bind_ok _ _ _ _ _ Hf).
    destruct (Z.eqb_spec (first_named (ds_kernel s) (devices s) name) RT_NULL) as [E|E]; [|by eexists].
    rewrite (first_named_nonnull _ _ _ H0) in E. destruct Hex as (o & Ho & Ht). by rewrite (E o Ho) in Ht.
  - intros Hnone. rewrite (proj2 (Z.eqb_neq dev RT_NULL)) by done. rewrite (bind_ok _ _ _ _ _ Hf).
    rewrite (proj2 (first_named_nonnull _ _ _ H0) Hnone). change (negb (RT_NULL =? RT_NULL)) with false. cbv iota.
    pose proof (rt_object_init_ok (schedule (ds_kernel s)) dev RT_Object_Class_Device name
      (running_again _ Hr) class_device Hu) as Hi.
    set (k' := object_init dev RT_Object_Class_Device name (schedule (schedule (ds_kernel s)))) in Hi.
    erewrite bind_ok by (by apply on_kernel_run).
    set (s1 := mk_dstate k' _ _ _ _).
    rewrite (bind_ok _ _ _ _ _ (upd_device_ok dev d _ s1 Hd)).
    rewrite (bind_ok _ _ _ _ _ (upd_device_ok dev _ _ _ (lookup_put_device _ _ _))).
    rewrite (bind_ok _ _ _ _ _ (upd_device_ok dev _ _ _ (lookup_put_device _ _ _))), !put_put_device.
    eexists. split; [reflexivity|].
    assert (Hnodes : Store.nodes (k_containers k') RT_Object_Class_Device = dev :: devices s).
    { change (Store.nodes (Store.push_front RT_Object_Class_Device dev (k_containers (ds_kernel s))) RT_Object_Class_Device
        = dev :: devices s). rewrite Store.nodes_push_front. by rewrite decide_True. }
    assert (Hx : k_objects k' !! dev = Some (new_header (schedule (schedule (ds_kernel s))) dev RT_Object_Class_Device name))
      by (apply lookup_insert_eq).
    destruct (class_or_static _ class_device (rt_strncpy (obj_name (default zero_object (k_objects (ds_kernel s) !! dev)))
      name RT_NAME_MAX) (obj_flag (default zero_object (k_objects (ds_kernel s) !! dev)))) as [Hcl _].
    split; [exact Hnodes|]. split; [split; [done|]; by eexists|]. split; [done|].
    eexists. unfold rt_device_find. erewrite on_kernel_run; [reflexivity|].
    assert (Hr' : running k').
    { apply object_init_running; [by apply running_again|]. exact Hc. }
    match goal with |- rt_object_find _ _ ?k = _ => change k with k' end.
    unfold rt_object_find. rewrite (get_information_some _ class_device).
    erewrite bind_ok by (by apply not_in_interrupt_ok).
    erewrite bind_ok by (by apply rt_enter_critical_ok).
    erewrite bind_ok by reflexivity. cbv beta.
    change (k_containers (set_k_lock_nest 1 k')) with (k_containers k'). rewrite Hnodes.
    erewrite bind_ok; [|eapply find_by_name_head; [exact Hx|]; by apply strncmp_stored].
    by erewrite bind_ok by (by apply rt_exit_critical_ok).
Qed.
End registry.
