(* ===== verification/Mempool.v ===== *)
(** * Memory pools ([mempool.c])

    The state is the kernel's and, by their addresses, the control blocks of
    the pools and the first word of every block: the link of a free block, the
    pool of a block in use. *)

From Stdlib Require Import ZArith Lia.
From stdpp Require Import base gmap list fin_maps.
From S2P Require Import RTThread.
From S2P Require Import Prelude.
From S2P Require Import ListModel.
From S2P Require Import Kernel.
From S2P Require Import Kservice.
From S2P Require Import Object.
From S2P Require Import TimerCore.
From S2P Require Import ThreadCore.
From S2P Require Import Timer.
From S2P Require Import Invariant.
From S2P Require Import Registry.
From S2P Require Import Thread.
From S2P Require Import IpcList.
From S2P Require Import Mailbox.
From S2P Require Import Chains.
From S2P Require Import Scheduler.

(** ** Data *)

Record rt_mempool : Set := mk_mempool {
  mp_start_address : ptr;
  mp_size : Z;
  mp_block_size : Z;
  mp_block_list : ptr;
  mp_block_total_count : Z;
  mp_block_free_count : Z }.
Definition set_mp_block_list x m := mk_mempool (mp_start_address m) (mp_size m)
  (mp_block_size m) x (mp_block_total_count m) (mp_block_free_count m).
Definition set_mp_free_count x m := mk_mempool (mp_start_address m) (mp_size m)
  (mp_block_size m) (mp_block_list m) (mp_block_total_count m) x.

Record mstate : Type := mk_mstate {
  ms_kernel : kstate;
  ms_pools : gmap ptr rt_mempool;
  ms_words : gmap ptr ptr }.
Notation MP := (ST mstate) (only parsing).

(** [sizeof(rt_uint8_t* )] *)
Definition WORD : Z := 4.

Definition on_k {A} (m : K A) : MP A := λ s,
  match m (ms_kernel s) with
  | Ok k a => Ok (mk_mstate k (ms_pools s) (ms_words s)) a
  | Err e => Err e
  end.
Definition get_pool (mp : ptr) : MP rt_mempool := λ s,
  from_option_or FNull (ms_pools s !! mp) s.
Definition put_pool (mp : ptr) (m : rt_mempool) : MP unit := λ s,
  Ok (mk_mstate (ms_kernel s) (<[mp := m]> (ms_pools s)) (ms_words s)) tt.
Definition get_word (a : ptr) : MP ptr := λ s,
  from_option_or FNull (ms_words s !! a) s.
Definition put_word (a v : ptr) : MP unit := λ s,
  Ok (mk_mstate (ms_kernel s) (ms_pools s) (<[a := v]> (ms_words s))) tt.
(** A word written into the memory from [start], [size] bytes long. *)
Definition put_word_in (start size a v : Z) : MP unit :=
  if (start <=? a) && (a + WORD <=? start + size) then put_word a v else fail FBounds.

(** ** Operations *)

(** The loop that links [n] blocks from number [offset] on, then the end of
    the list. *)
Fixpoint link_blocks (n : nat) (offset block_ptr size stride : Z) : MP unit :=
  match n with
  | O => mret ()
  | S n' =>
      put_word_in block_ptr size (block_ptr + offset * stride) (block_ptr + (offset + 1) * stride);;
      link_blocks n' (offset + 1) block_ptr size stride
  end.
Definition init_block_list (block_ptr size stride total : Z) : MP unit :=
  link_blocks (Z.to_nat total) 0 block_ptr size stride;;
  put_word_in block_ptr size (block_ptr + (total - 1) * stride) RT_NULL.

Definition rt_mp_init (mp : ptr) (name : list Z) (start : ptr) (size block_size : Z) : MP Z :=
  rt_assert (negb (mp =? RT_NULL));;
  rt_assert (negb (start =? RT_NULL));;
  rt_assert ((0 <? size) && (0 <? block_size));;
  on_k (rt_object_init mp RT_Object_Class_MemPool name);;
  let mp_sz := RT_ALIGN_DOWN size RT_ALIGN_SIZE in
  let block_size := RT_ALIGN block_size RT_ALIGN_SIZE in
  (if u32 (block_size + WORD) =? 0 then fail FDivide else mret ());;
  let total := mp_sz / u32 (block_size + WORD) in
  put_pool mp (mk_mempool start mp_sz block_size RT_NULL total total);;
  on_k (tlist_init (HSuspend mp));;
  init_block_list start mp_sz (u32 (block_size + WORD)) total;;
  m ← get_pool mp;
  put_pool mp (set_mp_block_list start m);;
  mret RT_EOK.

(** The loop that wakes every waiter with an error, as that of the IPC objects. *)
Definition mp_wake_all (mp : ptr) : MP unit :=
  n ← on_k (gets (λ s, length (Store.nodes (k_tlists s) (HSuspend mp))));
  on_k (resume_all_loop n (HSuspend mp) (- RT_ERROR)).

Definition rt_mp_detach (mp : ptr) : MP Z :=
  on_k (assert_static mp RT_Object_Class_MemPool);;
  mp_wake_all mp;;
  on_k (rt_object_detach mp);;
  mret RT_EOK.

(** [mem] and [start] are the addresses the two allocations return. *)
Definition rt_mp_create (mem : ptr) (name : list Z) (start : ptr) (block_count block_size : Z)
    : MP ptr :=
  on_k RT_DEBUG_NOT_IN_INTERRUPT;;
  rt_assert ((0 <? block_count) && (0 <? block_size));;
  mp ← on_k (rt_object_allocate mem RT_Object_Class_MemPool name);
  if mp =? RT_NULL then mret RT_NULL
  else
    let block_size := RT_ALIGN block_size RT_ALIGN_SIZE in
    let size := u32 (u32 (block_size + WORD) * block_count) in
    if start =? RT_NULL then
      on_k (rt_object_delete mp);;
      mret RT_NULL
    else
      put_pool mp (mk_mempool start size block_size RT_NULL block_count block_count);;
      on_k (tlist_init (HSuspend mp));;
      init_block_list start size (u32 (block_size + WORD)) block_count;;
      m ← get_pool mp;
      put_pool mp (set_mp_block_list start m);;
      mret mp.

(** The memory of the pool goes back to the allocator, whose state is not
    part of this one. *)
Definition rt_mp_delete (mp : ptr) : MP Z :=
  on_k RT_DEBUG_NOT_IN_INTERRUPT;;
  on_k (assert_dynamic mp RT_Object_Class_MemPool);;
  mp_wake_all mp;;
  on_k (rt_object_delete mp);;
  mret RT_EOK.

(** Taking the first free block. *)
Definition mp_take (mp level : Z) : MP ptr :=
  m ← get_pool mp;
  put_pool mp (set_mp_free_count (u32 (mp_block_free_count m - 1)) m);;
  let block_ptr := mp_block_list m in
  rt_assert (negb (block_ptr =? RT_NULL));;
  next ← get_word block_ptr;
  m ← get_pool mp;
  put_pool mp (set_mp_block_list next m);;
  put_word block_ptr mp;;
  on_k (rt_hw_interrupt_enable level);;
  mret (block_ptr + WORD).

(** One test of [while (mp->block_free_count == 0)]. *)
Definition mp_alloc_turn (mp : ptr) (w : wait_locals) (level : Z) : MP (outcome ptr wait_locals) :=
  m ← get_pool mp;
  if mp_block_free_count m =? 0 then
    if w_timeout w =? 0 then
      on_k (rt_hw_interrupt_enable level);;
      on_k (rt_set_errno (- RT_ETIMEOUT));;
      mret (Done RT_NULL)
    else
      on_k RT_DEBUG_NOT_IN_INTERRUPT;;
      on_k (upd_thread (w_thread w) (set_th_error RT_EOK));;
      on_k (rt_thread_suspend (w_thread w));;
      on_k (tlist_push_front (HSuspend mp) (w_thread w));;
      before_sleep ← on_k (if 0 <? w_timeout w then
                             tick ← rt_tick_get;
                             start_thread_timer (w_thread w) (w_timeout w);;
                             mret tick
                           else mret (w_tick_delta w));
      on_k (rt_hw_interrupt_enable level);;
      on_k rt_schedule;;
      mret (Wait (mk_wait (w_thread w) (w_timeout w) before_sleep))
  else
    block ← mp_take mp level;
    mret (Done block).

Definition rt_mp_alloc (mp : ptr) (time : Z) : MP (outcome ptr wait_locals) :=
  rt_assert (negb (mp =? RT_NULL));;
  thread ← on_k rt_thread_self;
  level ← on_k rt_hw_interrupt_disable;
  mp_alloc_turn mp (mk_wait thread time 0) level.

Definition rt_mp_alloc_resumed (mp : ptr) (w : wait_locals) : MP (outcome ptr wait_locals) :=
  th ← on_k (get_thread (w_thread w));
  if negb (th_error th =? RT_EOK) then mret (Done RT_NULL)
  else
    time ← on_k (remaining_time (w_timeout w) (w_tick_delta w));
    level ← on_k rt_hw_interrupt_disable;
    mp_alloc_turn mp (mk_wait (w_thread w) time (w_tick_delta w)) level.

Definition rt_mp_free (block : ptr) : MP unit :=
  if block =? RT_NULL then mret ()
  else
    let block_ptr := block - WORD in
    mp ← get_word block_ptr;
    level ← on_k rt_hw_interrupt_disable;
    m ← get_pool mp;
    put_pool mp (set_mp_free_count (u32 (mp_block_free_count m + 1)) m);;
    put_word block_ptr (mp_block_list m);;
    m ← get_pool mp;
    put_pool mp (set_mp_block_list block_ptr m);;
    empty ← on_k (tlist_isempty (HSuspend mp));
    if negb empty then
      thread ← on_k (tlist_first (HSuspend mp));
      on_k (upd_thread thread (set_th_error RT_EOK));;
      on_k (rt_thread_resume thread);;
      on_k (rt_hw_interrupt_enable level);;
      on_k rt_schedule;;
      mret ()
    else
      on_k (rt_hw_interrupt_enable level);;
      mret ().
