(* ===== verification/MempoolSpec.v ===== *)
(** * What the memory pools promise

    The blocks of a pool are partitioned between the chain of free blocks and
    the blocks in use, each of which points to its pool. *)

From Stdlib Require Import ZArith Lia.
From stdpp Require Import base gmap list fin_maps.
From S2P Require Import RTThread.
From S2P Require Import Prelude.
From S2P Require Import ListModel.
From S2P Require Import Kernel.
From S2P Require Import Kservice.
From S2P Require Import Object.
From S2P Require Import TimerCore.
From S2P Require Import ThreadCore.
From S2P Require Import Timer.
From S2P Require Import Invariant.
From S2P Require Import Registry.
From S2P Require Import Thread.
From S2P Require Import IpcList.
From S2P Require Import Mailbox.
From S2P Require Import Chains.
From S2P Require Import Scheduler.
From S2P Require Import Mempool.

(** ** The blocks of a pool *)

Definition mp_stride (m : rt_mempool) : Z := mp_block_size m + WORD.
Definition mp_block (m : rt_mempool) (i : Z) : ptr := mp_start_address m + i * mp_stride m.
Definition mp_blocks (m : rt_mempool) : list ptr :=
  map (mp_block m) (seqZ 0 (mp_block_total_count m)).

Record mp_ok (W : gmap ptr ptr) (mp : ptr) (m : rt_mempool) (free used : list ptr) : Prop := {
  po_start : 0 < mp_start_address m;
  po_stride : 0 < mp_stride m;
  po_total : 0 ≤ mp_block_total_count m < 2 ^ 32;
  po_blocks : free ++ used ≡ₚ mp_blocks m;
  po_count : mp_block_free_count m = Z.of_nat (length free);
  po_chain : chain W (mp_block_list m) free;
  po_used : ∀ b, b ∈ used → W !! b = Some mp
}.

(** What alloc and free do not change of a pool. *)
Definition same_pool (m m' : rt_mempool) : Prop :=
  mp_start_address m' = mp_start_address m ∧ mp_size m' = mp_size m ∧
  mp_block_size m' = mp_block_size m ∧ mp_block_total_count m' = mp_block_total_count m.

Section blocks.
Context (m : rt_mempool) (Hs : 0 < mp_stride m).

Lemma elem_of_mp_blocks b :
  b ∈ mp_blocks m ↔ ∃ i, b = mp_block m i ∧ 0 ≤ i < mp_block_total_count m.
Proof.
  unfold mp_blocks. rewrite list_elem_of_In, in_map_iff. setoid_rewrite <- list_elem_of_In.
  setoid_rewrite elem_of_seqZ. split; intros (i & <- & Hi) || intros (i & -> & Hi); exists i; split; lia || done.
Qed.
Lemma mp_blocks_nodup : NoDup (mp_blocks m).
Proof.
  unfold mp_blocks. apply NoDup_fmap_2_strong; [|apply NoDup_seqZ].
  intros i j _ _. unfold mp_block. nia.
Qed.
Lemma mp_blocks_length :
  0 ≤ mp_block_total_count m → Z.of_nat (length (mp_blocks m)) = mp_block_total_count m.
Proof. intros. unfold mp_blocks. rewrite length_map, length_seqZ. lia. Qed.
End blocks.

Section pool.
Context {W : gmap ptr ptr} {mp : ptr} {m : rt_mempool} {free used : list ptr}.
Context (Hok : mp_ok W mp m free used).

Lemma mp_nodup : NoDup (free ++ used).
Proof. rewrite (po_blocks _ _ _ _ _ Hok). apply mp_blocks_nodup, Hok. Qed.
Lemma mp_block_pos b : b ∈ free ++ used → 0 < b.
Proof.
  rewrite (po_blocks _ _ _ _ _ Hok). intros (i & -> & Hi)%elem_of_mp_blocks.
  pose proof (po_start _ _ _ _ _ Hok). pose proof (po_stride _ _ _ _ _ Hok).
  unfold mp_block. nia.
Qed.
Lemma mp_lengths :
  Z.of_nat (length free) + Z.of_nat (length used) = mp_block_total_count m.
Proof.
  rewrite <- (mp_blocks_length m) by (destruct (po_total _ _ _ _ _ Hok); lia).
  rewrite <- (po_blocks _ _ _ _ _ Hok), length_app. lia.
Qed.
Lemma mp_disjoint b : b ∈ free → b ∉ used.
Proof. pose proof mp_nodup as (_ & H & _)%list.NoDup_app. apply H. Qed.
End pool.

(** Taking the first free block, and putting a block back in front. *)
Definition mp_pop (next : ptr) (m : rt_mempool) : rt_mempool :=
  set_mp_block_list next (set_mp_free_count (u32 (mp_block_free_count m - 1)) m).
Definition mp_push (b : ptr) (m : rt_mempool) : rt_mempool :=
  set_mp_block_list b (set_mp_free_count (u32 (mp_block_free_count m + 1)) m).

Lemma mp_pop_ok W mp m b free used next :
  mp_ok W mp m (b :: free) used → W !! b = Some next → chain W next free →
  mp_ok (<[b := mp]> W) mp (mp_pop next m) free (b :: used).
Proof.
  intros Hok Hb Hc. pose proof (mp_nodup Hok) as Hnd. pose proof (mp_lengths Hok) as Hl.
  destruct Hok as [? ? Ht Hp Hn _ Hu]. cbn [app length] in *.
  apply list.NoDup_cons in Hnd as [[Hbf Hbu]%not_elem_of_app _].
  split; cbn; try done.
  - by rewrite <- Permutation_middle.
  - rewrite Hn, u32_small; lia.
  - eapply chain_ext; [|exact Hc]. intros x Hx. apply lookup_insert_ne. by intros <-.
  - intros x [->|Hx]%elem_of_cons; [by rewrite lookup_insert_eq|].
    rewrite lookup_insert_ne by (by intros <-). auto.
Qed.

Lemma mp_push_ok W mp m b free used used' :
  mp_ok W mp m free used → used ≡ₚ b :: used' →
  mp_ok (<[b := mp_block_list m]> W) mp (mp_push b m) (b :: free) used'.
Proof.
  intros Hok Eu. pose proof (mp_nodup Hok) as Hnd. pose proof (mp_lengths Hok) as Hl.
  pose proof (mp_block_pos Hok b) as Hpos. rewrite Eu in Hnd, Hl, Hpos.
  rewrite <- Permutation_middle in Hnd, Hpos.
  specialize (Hpos ltac:(by left)).
  apply list.NoDup_cons in Hnd as [[Hbf Hbu]%not_elem_of_app _].
  destruct Hok as [? ? Ht Hp Hn Hc Hu]. cbn [app length] in *.
  split; cbn [mp_push mp_start_address mp_block_total_count mp_block_free_count mp_block_list
    set_mp_block_list set_mp_free_count app length]; try done.
  - change (mp_blocks (mp_push b m)) with (mp_blocks m). rewrite <- Hp, Eu. by rewrite Permutation_middle.
  - rewrite Hn, u32_small; lia.
  - apply chain_push; [done|done|]. change RT_NULL with 0. lia.
  - intros x Hx. rewrite lookup_insert_ne by (by intros <-). apply Hu. rewrite Eu. by right.
Qed.

(** ** Running on the parts of the state *)

Lemma on_k_ok {A} (m : K A) k k' P W a :
  m k = Ok k' a → on_k m (mk_mstate k P W) = Ok (mk_mstate k' P W) a.
Proof. intros E. unfold on_k. cbn. by rewrite E. Qed.
Lemma get_pool_ok k P W mp m :
  P !! mp = Some m → get_pool mp (mk_mstate k P W) = Ok (mk_mstate k P W) m.
Proof. intros E. unfold get_pool. cbn. by rewrite E. Qed.
Lemma get_word_ok k P W a v :
  W !! a = Some v → get_word a (mk_mstate k P W) = Ok (mk_mstate k P W) v.
Proof. intros E. unfold get_word. cbn. by rewrite E. Qed.

Ltac mstep :=
  erewrite bind_ok;
  [|lazymatch goal with
    | |- get_pool _ _ = _ => apply get_pool_ok; klookup
    | |- get_word _ _ = _ => apply get_word_ok; klookup
    | |- on_k _ _ = _ => apply on_k_ok; solve [krun]
    | |- rt_assert _ _ = _ => apply rt_assert_ok; solve [eauto with krun]
    | |- _ => reflexivity
    end].
Tactic Notation "mstepk" tactic(t) := erewrite bind_ok; [|apply on_k_ok; t].

Lemma mp_take_ok k P W mp m b next level :
  P !! mp = Some m → mp_block_list m = b → b ≠ RT_NULL → W !! b = Some next →
  mp_take mp level (mk_mstate k P W)
  = Ok (mk_mstate (set_k_primask level k) (<[mp := mp_pop next m]> P) (<[b := mp]> W)) (b + WORD).
Proof.
  intros Hm <- Hn Hb. unfold mp_take. do 2 mstep. cbv zeta.
  erewrite bind_ok by (apply rt_assert_ok, not_null; exact Hn).
  do 5 mstep. cbn [ms_pools ms_kernel ms_words]. rewrite insert_insert_eq. reflexivity.
Qed.

(** Waiting: the caller goes to the front of the waiters of the pool. *)
Lemma lifo_suspend_ok k t th h :
  caller k t th → is_wait h →
  rt_thread_suspend t k = Ok (thread_suspend t th k) RT_EOK ∧
  tlist_push_front h t (thread_suspend t th k) = Ok (ipc_suspend h t th WAIT_LIFO k) tt.
Proof.
  intros Hc Hh. pose proof (caller_wf _ _ _ Hc) as Hwf. destruct Hc as [_ _ Ht Hr _ Hi]. split.
  - apply rt_thread_suspend_ok; [done|done|]. apply wf_thread_ok; [done|done|].
    by apply wf_ready_live.
  - unfold tlist_push_front. rewrite tlist_link_ok by apply Store.remove_unlinked. reflexivity.
Qed.

Lemma arm_wait_ok k t th h flag time d :
  caller k t th → is_wait h → time_ok time →
  (if 0 <? time then tick ← rt_tick_get; start_thread_timer t time;; mret tick else mret d)
    (ipc_suspend h t th flag k)
  = Ok (arm_timer t time (ipc_suspend h t th flag k)) (if 0 <? time then k_tick k else d).
Proof.
  intros Hc Hh Htime. pose proof (caller_wf _ _ _ Hc) as Hwf. destruct Hc as [_ _ Ht Hr _ Hi].
  rewrite arm_timer_eq. destruct (Z.ltb_spec 0 time) as [H0|]; [|reflexivity].
  kstep. erewrite bind_ok; [reflexivity|].
  eapply start_thread_timer_ok; eauto using wf_ipc_suspend, ipc_suspend_thread with lia.
Qed.

Lemma mp_wait_ok k P W t th mp m time d level :
  caller k t th → P !! mp = Some m → mp_block_free_count m = 0 → time ≠ 0 → time_ok time →
  mp_alloc_turn mp (mk_wait t time d) level (mk_mstate k P W)
  = Ok (mk_mstate (set_k_primask level
          (block (HSuspend mp) t (set_th_error RT_EOK th) WAIT_LIFO time (clear_error t th k))) P W)
      (Wait (mk_wait t time (if 0 <? time then k_tick k else d))).
Proof.
  intros Hc Hm H0 Hne Htime. pose proof (caller_clear _ _ _ Hc) as Hcb.
  unfold mp_alloc_turn. mstep. rewrite H0. cbn [w_timeout w_thread w_tick_delta].
  rewrite (proj2 (Z.eqb_neq _ _) Hne). cbn [Z.eqb].
  mstepk ltac:(by apply not_in_interrupt_ok, (ca_nest _ _ _ Hc)).
  mstepk ltac:(apply upd_thread_ok, (ca_thread _ _ _ Hc)).
  destruct (lifo_suspend_ok _ _ _ (HSuspend mp) Hcb I) as [E1 E2].
  mstepk ltac:(exact E1). mstepk ltac:(exact E2). mstepk ltac:(by apply arm_wait_ok).
  mstep. mstepk ltac:(apply rt_schedule_wf, wf_primask, wf_ipc_armed; try done;
    first [by eapply caller_wf | apply Hcb]).
  reflexivity.
Qed.

Lemma rt_set_errno_ok k t th e :
  caller k t th → rt_set_errno e k = Ok (put_thread t (set_th_error e th) k) tt.
Proof.
  intros Hc. pose proof (caller_nonnull _ _ _ Hc) as Hnz. destruct Hc as [_ Hs Ht _ Hn _].
  unfold rt_set_errno, rt_interrupt_get_nest. rewrite bind_assoc. kstep. rewrite bind_assoc. kstep.
  rewrite bind_assoc. do 2 kstep. cbn [k_interrupt_nest set_k_primask]. rewrite Hn. cbn [Z.eqb negb].
  kstep. cbn [k_current set_k_primask]. rewrite Hs. rewrite (proj2 (Z.eqb_neq _ _)) by done.
  by apply upd_thread_ok.
Qed.

Lemma mp_alloc_turn_done k P W t time d mp m b next free used level :
  P !! mp = Some m → mp_ok W mp m (b :: free) used → W !! b = Some next →
  mp_alloc_turn mp (mk_wait t time d) level (mk_mstate k P W)
  = Ok (mk_mstate (set_k_primask level k) (<[mp := mp_pop next m]> P) (<[b := mp]> W)) (Done (b + WORD)).
Proof.
  intros Hm Hok Hb. pose proof (po_count _ _ _ _ _ Hok) as Hn. cbn [length] in Hn.
  unfold mp_alloc_turn. mstep. rewrite (proj2 (Z.eqb_neq _ _)) by lia.
  destruct (po_chain _ _ _ _ _ Hok) as (Hl & Hnz & _).
  by erewrite bind_ok by (eapply mp_take_ok; eassumption).
Qed.

Lemma chain_next W p b l : chain W p (b :: l) → ∃ y, W !! b = Some y ∧ chain W y l.
Proof. by intros (_ & _ & ?). Qed.

(** C40: [rt_mp_alloc] takes the first free block, which becomes one of the
    blocks in use, the others and all other pools left as they are; with no
    block free it answers null with the caller's [errno] set when told not to
    wait, and otherwise suspends the caller, in front of those already
    waiting, with nothing of the pool changed. *)
Theorem rt_mp_alloc_spec k P W t th mp m free used time :
  caller k t th → mp ≠ RT_NULL → P !! mp = Some m → mp_ok W mp m free used → time_ok time →
  ∃ k' P' W' out,
    rt_mp_alloc mp time (mk_mstate k P W) = Ok (mk_mstate k' P' W') out ∧ running k' ∧
    match free with
    | b :: free' =>
        out = Done (b + WORD) ∧ k' = k ∧ (∀ a, a ≠ b → W' !! a = W !! a) ∧
        ∃ m', P' = <[mp := m']> P ∧ same_pool m m' ∧ mp_ok W' mp m' free' (b :: used)
    | [] =>
        P' = P ∧ W' = W ∧
        if time =? 0 then out = Done RT_NULL ∧ k' = put_thread t (set_th_error (- RT_ETIMEOUT) th) k
        else out = Wait (mk_wait t time (if 0 <? time then k_tick k else 0)) ∧
          blocked (HSuspend mp) t (set_th_error RT_EOK th) WAIT_LIFO (clear_error t th k) k'
    end.
Proof.
  intros Hc Hmp Hm Hok Htime.
  assert (Hstart : rt_mp_alloc mp time (mk_mstate k P W)
    = mp_alloc_turn mp (mk_wait t time 0) (k_primask k) (mk_mstate (set_k_primask 1 k) P W)).
  { unfold rt_mp_alloc. erewrite bind_ok by (apply rt_assert_ok, not_null; exact Hmp).
    do 2 mstep.
    rewrite <- (ca_self _ _ _ Hc). reflexivity. }
  rewrite Hstart. pose proof (caller_primask _ _ _ 1 Hc) as Hc1. destruct free as [|b free].
  - pose proof (po_count _ _ _ _ _ Hok) as H0. change (mp_block_free_count m = 0) in H0. destruct (Z.eqb_spec time 0) as [->|Hne].
    + exists (put_thread t (set_th_error (- RT_ETIMEOUT) th) k), P, W, (Done RT_NULL).
      split; [|split; [|done]].
      * unfold mp_alloc_turn. mstep. rewrite H0. cbn [w_timeout Z.eqb].
        mstep.
        mstepk ltac:(apply rt_set_errno_ok; apply caller_primask; exact Hc1). reflexivity.
      * eapply (ca_running _ t), caller_put; [exact Hc|done].
    + pose proof (mp_wait_ok _ P W _ _ mp m time 0 (k_primask k) Hc1 Hm H0 Hne Htime) as E.
      pose proof (caller_clear _ _ _ Hc) as Hcb.
      eexists (block (HSuspend mp) t (set_th_error RT_EOK th) WAIT_LIFO time (clear_error t th k)),
        P, W, _. split; [exact E|].
      split; [by apply running_block|]. split; [done|]. split; [done|]. split; [done|].
      by apply block_blocked.
  - destruct (chain_next _ _ _ _ (po_chain _ _ _ _ _ Hok)) as (next & Hb & Hch).
    exists k, (<[mp := mp_pop next m]> P), (<[b := mp]> W), (Done (b + WORD)).
    split; [|split; [by apply Hc|]].
    + by erewrite mp_alloc_turn_done.
    + split; [done|]. split; [done|]. split; [intros; by apply lookup_insert_ne|].
      exists (mp_pop next m). split; [done|]. split; [done|]. by apply mp_pop_ok.
Qed.

(** ** Freeing *)

(** Waking the first waiter of a pool, if there is one, and rescheduling. *)
Definition mp_wake (mp : ptr) (k : kstate) : kstate :=
  match Store.nodes (k_tlists k) (HSuspend mp) with
  | [] => k
  | u :: _ => schedule (wake u (set_th_error RT_EOK (default zero_thread (k_threads k !! u))) k)
  end.

Lemma rt_mp_free_ok k P W mp m b :
  wf k → P !! mp = Some m → 0 < b → W !! b = Some mp →
  rt_mp_free (b + WORD) (mk_mstate k P W)
  = Ok (mk_mstate (mp_wake mp k) (<[mp := mp_push b m]> P) (<[b := mp_block_list m]> W)) tt.
Proof.
  intros Hwf Hm Hb HW. unfold rt_mp_free, WORD.
  rewrite (proj2 (Z.eqb_neq _ _)) by (change RT_NULL with 0; lia).
  cbv zeta. rewrite Z.add_simpl_r. do 7 mstep. cbn [ms_kernel ms_pools ms_words].
  rewrite insert_insert_eq. mstep. cbn [ms_kernel].
  change (k_tlists (set_k_primask 1 k)) with (k_tlists k). unfold Store.isempty, mp_wake.
  destruct (Store.nodes (k_tlists k) (HSuspend mp)) as [|u q] eqn:Hq; cbn [negb]; [by mstep|].
  destruct (wf_wait_thread k (HSuspend mp) u Hwf I) as (thu & Hu & Hs); [rewrite Hq; by left|].
  rewrite Hu. cbn [default from_option id].
  mstepk ltac:(eapply tlist_first_ok; exact Hq).
  mstepk ltac:(apply upd_thread_ok; exact Hu).
  mstepk ltac:(apply (rt_thread_resume_wake _ u thu); [by apply wf_primask|done|done|done]).
  mstep. mstepk ltac:(apply rt_schedule_wf, wf_primask, (wake_wf _ u thu); try done; by apply wf_primask).
  reflexivity.
Qed.

Lemma mp_wake_spec mp k :
  wf k →
  wf (mp_wake mp k) ∧ (running k → running (mp_wake mp k)) ∧
  Store.nodes (k_tlists (mp_wake mp k)) (HSuspend mp) = tail (Store.nodes (k_tlists k) (HSuspend mp)) ∧
  k_threads (mp_wake mp k) = match head (Store.nodes (k_tlists k) (HSuspend mp)) with
    | Some u => <[u := set_th_stat RT_THREAD_READY
        (set_th_error RT_EOK (default zero_thread (k_threads k !! u)))]> (k_threads k)
    | None => k_threads k
    end.
Proof.
  intros Hwf. unfold mp_wake.
  destruct (Store.nodes (k_tlists k) (HSuspend mp)) as [|u q] eqn:Hq; cbn [head tail]; [by rewrite Hq|].
  destruct (wf_wait_thread k (HSuspend mp) u Hwf I) as (thu & Hu & Hs); [rewrite Hq; by left|].
  rewrite Hu. cbn [default from_option id].
  assert (Hw : wf (wake u (set_th_error RT_EOK thu) k)) by (by apply (wake_wf k u thu)).
  split; [by apply wf_schedule|]. split; [intros (_ & Hl & _); by apply running_schedule|].
  split; [|by rewrite <- wake_threads].
  change (Store.nodes (k_tlists (wake u (set_th_error RT_EOK thu) k)) (HSuspend mp) = q).
  rewrite wake_waiters by done. rewrite Hq.
  pose proof (Store.wf_nodup _ (lo_wf _ _ (wf_lists _ Hwf)) (HSuspend mp)) as Hnd. rewrite Hq in Hnd.
  apply list.NoDup_cons in Hnd as [Hin _]. rewrite filter_cons_False by (by intros []).
  apply filter_id. by intros x Hx ->.
Qed.

(** [rt_mp_free] gives a block in use back: it becomes the first of the
    free blocks, every other block and every other pool stays as it was, and
    the first waiter of the pool, if any, becomes ready without an error. *)
Theorem rt_mp_free_spec k P W mp m free used used' b :
  wf k → P !! mp = Some m → mp_ok W mp m free used → used ≡ₚ b :: used' →
  ∃ k' P' W', rt_mp_free (b + WORD) (mk_mstate k P W) = Ok (mk_mstate k' P' W') tt ∧
    wf k' ∧ (running k → running k') ∧ (∀ a, a ≠ b → W' !! a = W !! a) ∧
    (∃ m', P' = <[mp := m']> P ∧ same_pool m m' ∧ mp_ok W' mp m' (b :: free) used') ∧
    Store.nodes (k_tlists k') (HSuspend mp) = tail (Store.nodes (k_tlists k) (HSuspend mp)) ∧
    k_threads k' = match head (Store.nodes (k_tlists k) (HSuspend mp)) with
      | Some u => <[u := set_th_stat RT_THREAD_READY
          (set_th_error RT_EOK (default zero_thread (k_threads k !! u)))]> (k_threads k)
      | None => k_threads k
      end.
Proof.
  intros Hwf Hm Hok Eu. destruct (mp_wake_spec mp k Hwf) as (H1 & H2 & H3 & H4).
  assert (Hin : b ∈ used) by (rewrite Eu; by left).
  eexists _, _, _. split.
  { apply rt_mp_free_ok; [done|exact Hm| |by apply (po_used _ _ _ _ _ Hok)].
    apply (mp_block_pos Hok). set_solver. }
  split; [done|]. split; [done|]. split; [intros; by apply lookup_insert_ne|].
  split; [|done]. exists (mp_push b m). split; [done|]. split; [done|]. by eapply mp_push_ok.
Qed.

(** With a block free and nobody waiting, freeing the block just allocated
    restores the whole state: kernel, pools and links. *)
Theorem mp_alloc_free_roundtrip k P W t th mp m b free used time :
  caller k t th → mp ≠ RT_NULL → P !! mp = Some m → mp_ok W mp m (b :: free) used →
  Store.nodes (k_tlists k) (HSuspend mp) = [] →
  ∃ s', rt_mp_alloc mp time (mk_mstate k P W) = Ok s' (Done (b + WORD)) ∧
    rt_mp_free (b + WORD) s' = Ok (mk_mstate k P W) tt.
Proof.
  intros Hc Hmp Hm Hok Hq.
  destruct (chain_next _ _ _ _ (po_chain _ _ _ _ _ Hok)) as (next & Hb & Hch).
  exists (mk_mstate k (<[mp := mp_pop next m]> P) (<[b := mp]> W)). split.
  { unfold rt_mp_alloc. erewrite bind_ok by (apply rt_assert_ok, not_null; exact Hmp).
    do 2 mstep. by erewrite mp_alloc_turn_done. }
  rewrite (rt_mp_free_ok k _ _ mp (mp_pop next m)).
  - unfold mp_wake. rewrite Hq, insert_insert_eq, insert_insert_eq. cbn [mp_pop mp_block_list set_mp_block_list].
    rewrite (insert_id W b next) by done. rewrite insert_id; [done|]. rewrite Hm. f_equal.
    pose proof (mp_lengths Hok) as Hl. destruct (po_total _ _ _ _ _ Hok) as [_ Ht].
    pose proof (po_count _ _ _ _ _ Hok) as Hn. cbn [length] in Hn, Hl.
    destruct (po_chain _ _ _ _ _ Hok) as (Hbl & _). destruct m; cbn in *. subst.
    unfold mp_push, mp_pop, set_mp_block_list, set_mp_free_count. cbn. f_equal. rewrite (u32_small (_ - 1)), u32_small; lia.
  - by eapply caller_wf.
  - by rewrite lookup_insert_eq.
  - apply (mp_block_pos Hok). by left.
  - by rewrite lookup_insert_eq.
Qed.

(** A waiter that was woken by a free block takes the first one; one woken with
    an error gives up. *)
Lemma rt_mp_alloc_resumed_takes k P W mp m b free used w th :
  k_threads k !! w_thread w = Some th → th_error th = RT_EOK → P !! mp = Some m →
  mp_ok W mp m (b :: free) used →
  ∃ P' W', rt_mp_alloc_resumed mp w (mk_mstate k P W) = Ok (mk_mstate k P' W') (Done (b + WORD)).
Proof.
  intros Ht He Hm Hok. destruct (chain_next _ _ _ _ (po_chain _ _ _ _ _ Hok)) as (next & Hb & _).
  unfold rt_mp_alloc_resumed. mstep. rewrite He. cbn [Z.eqb negb RT_EOK].
  assert (Hr : ∃ v, remaining_time (w_timeout w) (w_tick_delta w) k = Ok k v).
  { unfold remaining_time. destruct (0 <? w_timeout w); [|by eexists]. eexists. kstep. reflexivity. }
  destruct Hr as [v Hr]. mstepk ltac:(exact Hr). mstep.
  eexists _, _. by erewrite mp_alloc_turn_done.
Qed.

(** ** Initialisation *)

Section init.
Context (base size stride : Z) (Hst : WORD ≤ stride).
Local Notation blk i := (base + i * stride).

Fixpoint link_words (n : nat) (off : Z) (W : gmap ptr ptr) : gmap ptr ptr :=
  match n with
  | O => W
  | S n' => link_words n' (off + 1) (<[blk off := blk (off + 1)]> W)
  end.

Lemma put_word_in_ok k P W i v :
  0 ≤ i → (i + 1) * stride ≤ size →
  put_word_in base size (blk i) v (mk_mstate k P W) = Ok (mk_mstate k P (<[blk i := v]> W)) tt.
Proof.
  intros Hi Hs. unfold put_word_in. rewrite (proj2 (Z.leb_le _ _)), (proj2 (Z.leb_le _ _)); [done| |];
    unfold WORD in *; nia.
Qed.
Lemma link_blocks_ok n off k P W :
  0 ≤ off → (off + Z.of_nat n) * stride ≤ size →
  link_blocks n off base size stride (mk_mstate k P W) = Ok (mk_mstate k P (link_words n off W)) tt.
Proof.
  revert off W. induction n as [|n IH]; intros off W Ho Hs; [done|]. cbn [link_blocks link_words].
  erewrite bind_ok by (apply put_word_in_ok; unfold WORD in *; nia). apply IH; [lia|].
  by replace (off + 1 + Z.of_nat n) with (off + Z.of_nat (S n)) by lia.
Qed.
Lemma link_words_other n off W a :
  (∀ i, off ≤ i < off + Z.of_nat n → a ≠ blk i) → link_words n off W !! a = W !! a.
Proof.
  revert off W. induction n as [|n IH]; intros off W Ha; [done|]. cbn [link_words].
  rewrite IH by (intros; apply Ha; lia). apply lookup_insert_ne. intros E. apply (Ha off); [lia|done].
Qed.
Lemma link_words_lookup n off W i :
  off ≤ i < off + Z.of_nat n → link_words n off W !! blk i = Some (blk (i + 1)).
Proof.
  revert off W. induction n as [|n IH]; intros off W Hi; [lia|]. cbn [link_words].
  destruct (decide (i = off)) as [->|]; [|apply IH; lia].
  rewrite link_words_other by (intros; unfold WORD in *; nia). apply lookup_insert_eq.
Qed.

(** Links from each block to the next, and null in the last, make a chain. *)
Lemma chain_blocks W n off :
  0 < base → 0 ≤ off →
  (∀ i, off ≤ i < off + Z.of_nat n → W !! blk i = Some (blk (i + 1))) →
  W !! blk (off + Z.of_nat n) = Some RT_NULL →
  chain W (blk off) (map (λ i, blk i) (seqZ off (Z.of_nat (S n)))).
Proof.
  intros Hb. revert off. induction n as [|n IH]; intros off Ho Hl Hn;
    rewrite seqZ_cons by lia; cbn [map chain]; (split; [done|]);
    (split; [unfold WORD, RT_NULL in *; nia|]).
  - exists RT_NULL. change (Z.of_nat 0) with 0 in Hn. rewrite Z.add_0_r in Hn. by rewrite Hn.
  - exists (blk (off + 1)). split; [apply Hl; lia|].
    replace (Z.pred (Z.of_nat (S (S n)))) with (Z.of_nat (S n)) by lia.
    apply IH; [lia|intros; apply Hl; lia|]. rewrite <- Hn. do 2 f_equal. lia.
Qed.

Lemma init_block_list_ok total k P W :
  0 < base → 0 < total → total * stride ≤ size →
  ∃ W', init_block_list base size stride total (mk_mstate k P W) = Ok (mk_mstate k P W') tt ∧
    chain W' base (map (λ i, blk i) (seqZ 0 total)) ∧
    ∀ a, (∀ i, 0 ≤ i < total → a ≠ blk i) → W' !! a = W !! a.
Proof.
  intros Hb Ht Hs. unfold init_block_list.
  exists (<[blk (total - 1) := RT_NULL]> (link_words (Z.to_nat total) 0 W)). split; [|split].
  - erewrite bind_ok by (apply link_blocks_ok; [done|]; by rewrite Z2Nat.id by lia).
    apply put_word_in_ok; [lia|]. by replace (total - 1 + 1) with total by lia.
  - replace (seqZ 0 total) with (seqZ 0 (Z.of_nat (S (Z.to_nat (total - 1))))) by (f_equal; lia).
    replace base with (blk 0) at 2 by lia. apply chain_blocks; [done|done| |].
    + intros i Hi. rewrite lookup_insert_ne by (unfold WORD in *; nia). apply link_words_lookup. lia.
    + replace (0 + Z.of_nat (Z.to_nat (total - 1))) with (total - 1) by lia. apply lookup_insert_eq.
  - intros a Ha. rewrite lookup_insert_ne by (intros E; apply (Ha (total - 1)); [lia|done]).
    apply link_words_other. intros i Hi. apply Ha. lia.
Qed.
End init.

(** [rt_mp_init] cuts the given memory, rounded down to words, into as many
    blocks of a word and the block size, rounded up to words, as fit, all of
    them free in one chain, and nobody waits. Memory too small for one block
    is not refused: the code then writes the end of the chain in front of it. *)
Theorem rt_mp_init_spec k P W mp name start size block_size :
  running k → Store.unlinked (k_containers k) mp → mp ≠ RT_NULL →
  0 < start → 0 < size < 2 ^ 32 → 0 < block_size ≤ 2 ^ 32 - 8 →
  let bs := RT_ALIGN block_size RT_ALIGN_SIZE in
  let n := (size - size mod 4) / (bs + WORD) in
  if n =? 0 then rt_mp_init mp name start size block_size (mk_mstate k P W) = Err FBounds
  else ∃ k' W' m,
    rt_mp_init mp name start size block_size (mk_mstate k P W)
      = Ok (mk_mstate k' (<[mp := m]> P) W') RT_EOK ∧
    mp_ok W' mp m (mp_blocks m) [] ∧ mp_start_address m = start ∧ mp_block_size m = bs ∧
    mp_block_total_count m = n ∧ block_size ≤ bs < block_size + 4 ∧
    Store.nodes (k_tlists k') (HSuspend mp) = [] ∧
    (∀ a, a < start ∨ start + size ≤ a → W' !! a = W !! a).
Proof.
  intros Hr Hu Hmp Hstart Hsize Hbs bs n.
  destruct (RT_ALIGN_up block_size) as [Hal Hal4]; [lia|]. fold bs in Hal, Hal4.
  assert (Hdown : RT_ALIGN_DOWN size RT_ALIGN_SIZE = size - size mod 4).
  { unfold RT_ALIGN_DOWN. change RT_ALIGN_SIZE with 4. rewrite land_align4 by apply u32_range.
    by rewrite u32_small by lia. }
  assert (Hmod : 0 ≤ size mod 4 ≤ size) by (pose proof (Z.mod_le size 4); pose proof (Z.mod_pos_bound size 4); lia).
  assert (Hstride : u32 (bs + WORD) = bs + WORD).
  { apply u32_small. assert (bs ≠ 2 ^ 32 - 4) by lia. assert (bs ≤ 2 ^ 32 - 8).
    { pose proof (Z.div_mod bs 4). change (2 ^ 32) with (4 * 2 ^ 30) in *. lia. }
    unfold WORD. lia. }
  set (sz := size - size mod 4) in *. set (stride := bs + WORD) in *.
  assert (Hn : 0 ≤ n ∧ n * stride ≤ sz).
  { unfold n. pose proof (Z.div_mod sz stride). pose proof (Z.mod_pos_bound sz stride).
    unfold WORD in *. split; [apply Z.div_pos; lia|]. lia. }
  assert (Hw : WORD ≤ stride) by lia.
  set (k1 := set_k_tlists (Store.init (HSuspend mp) (k_tlists (object_init mp RT_Object_Class_MemPool name (schedule k))))
    (object_init mp RT_Object_Class_MemPool name (schedule k))).
  set (m0 := mk_mempool start sz bs RT_NULL n n).
  assert (E : rt_mp_init mp name start size block_size (mk_mstate k P W)
    = (init_block_list start sz stride n;; m ← get_pool mp; put_pool mp (set_mp_block_list start m);;
       mret RT_EOK) (mk_mstate k1 (<[mp := m0]> P) W)).
  { unfold rt_mp_init. erewrite bind_ok by (apply rt_assert_ok, not_null; exact Hmp).
    erewrite bind_ok by (apply rt_assert_ok, not_null; change RT_NULL with 0; lia).
    rewrite (proj2 (Z.ltb_lt 0 size)), (proj2 (Z.ltb_lt 0 block_size)) by lia. mstep.
    mstepk ltac:(apply rt_object_init_ok; [done|by vm_compute; repeat (right; try by left)|done]).
    cbv zeta. fold bs; fold stride. rewrite Hstride, Hdown. rewrite (proj2 (Z.eqb_neq stride 0)) by (unfold WORD in *; lia).
    do 3 mstep. reflexivity. }
  rewrite E. destruct (Z.eqb_spec n 0) as [H0|H0].
  { unfold init_block_list. rewrite H0. rewrite bind_assoc.
    erewrite bind_ok by reflexivity. unfold put_word_in.
    rewrite (proj2 (Z.leb_gt _ _)); [done|]. unfold WORD in *. lia. }
  destruct (init_block_list_ok start sz stride Hw n k1 (<[mp := m0]> P) W) as (W' & E' & Hch & Ho); [lia..|].
  rewrite (bind_ok _ _ _ _ _ E'). mstep. mstep. cbn [ms_pools ms_kernel ms_words]. rewrite insert_insert_eq.
  eexists k1, W', _. split; [reflexivity|]. split; [|do 4 (split; [done|]); split].
  - split; cbn [mp_start_address mp_block_total_count mp_block_free_count mp_block_list set_mp_block_list m0];
      try done.
    + unfold mp_stride; cbn. unfold WORD in *; lia.
    + split; [lia|]. unfold n. apply Z.div_lt_upper_bound; unfold WORD in *; nia.
    + by rewrite app_nil_r.
    + rewrite mp_blocks_length; cbn; lia.
    + by intros b ?%not_elem_of_nil.
  - unfold k1. cbn. unfold Store.init. by rewrite Store.nodes_insert.
  - intros a Ha. apply Ho. intros i Hi. unfold WORD in *. nia.
Qed.

(** ** Detaching *)

Lemma mp_wake_all_ok k P W mp :
  wf k → mp_wake_all mp (mk_mstate k P W) = Ok (mk_mstate (resume_all (HSuspend mp) k) P W) tt.
Proof.
  intros Hwf. unfold mp_wake_all. mstep. apply on_k_ok. by apply resume_all_loop_ok.
Qed.

(** Detaching a pool wakes every waiter with [-RT_ERROR] and unregisters the
    object; the memory of the pool stays as it is. *)
Lemma rt_mp_detach_spec k P W mp x :
  wf k → valid k mp RT_Object_Class_MemPool x → is_static x = true →
  ∃ k', rt_mp_detach mp (mk_mstate k P W) = Ok (mk_mstate k' P W) RT_EOK ∧
    woken_all k (HSuspend mp) k' ∧ detached k mp k'.
Proof.
  intros Hwf Hv Hs. unfold rt_mp_detach. mstepk ltac:(by eapply assert_static_ok).
  erewrite bind_ok by (by apply mp_wake_all_ok).
  destruct (resume_all_valid k (HSuspend mp) mp _ x Hv) as (x' & (Hx' & ? & Hc') & _).
  mstepk ltac:(by apply rt_object_detach_ok).
  eexists. split; [done|]. split; [|apply object_detach_detached].
  eapply woken_all_ext; [by apply resume_all_woken| |done..].
  apply wf_object_detach; [by apply wf_resume_all|done|by rewrite Hc'..].
Qed.
