(* ===== verification/SpiFlash.v ===== *)
(** * The driver of the serial flash memory ([spi_flash.c])

    The driver talks to a W25Q chip byte by byte over SPI. The chip is not
    code: it is a parameter, [FlashChip], with a state of its own, of which the
    driver uses the chip-select pin and the exchange of one byte. *)

From Stdlib Require Import ZArith Lia.
From stdpp Require Import base list list_numbers.
From S2P Require Import RTThread.
From S2P Require Import Prelude.
From S2P Require Import Bytes.

(** ** The chip, as the driver sees it

    [chip_polls] bounds the status reads an operation of the chip takes. *)
Class FlashChip (C : Type) := {
  chip_select : bool → C → C;
  chip_xfer : Z → C → Z * C;
  chip_polls : nat }.

Definition W25Q128 : Z := 61207.
Definition W25Q256 : Z := 61208.

Definition W25X_WriteEnable : Z := 6.
Definition W25X_WriteDisable : Z := 4.
Definition W25X_ReadStatusReg1 : Z := 5.
Definition W25X_ReadStatusReg2 : Z := 53.
Definition W25X_ReadStatusReg3 : Z := 21.
Definition W25X_WriteStatusReg1 : Z := 1.
Definition W25X_WriteStatusReg2 : Z := 49.
Definition W25X_WriteStatusReg3 : Z := 17.
Definition W25X_ReadData : Z := 3.
Definition W25X_PageProgram : Z := 2.
Definition W25X_SectorErase : Z := 32.
Definition W25X_ChipErase : Z := 199.
Definition W25X_PowerDown : Z := 185.
Definition W25X_ReleasePowerDown : Z := 171.
Definition W25X_Enable4ByteAddr : Z := 183.

(** [W25QXX_TYPE], [W25QXX_BUFFER] and the chip. *)
Record flash_state (C : Type) : Type := mk_flash {
  fl_type : Z;
  fl_buffer : list Z;
  fl_chip : C }.
Arguments mk_flash {C} _ _ _.
Arguments fl_type {C} _.
Arguments fl_buffer {C} _.
Arguments fl_chip {C} _.
Definition set_fl_type {C} x (s : flash_state C) := mk_flash x (fl_buffer s) (fl_chip s).
Definition set_fl_buffer {C} x (s : flash_state C) := mk_flash (fl_type s) x (fl_chip s).
Definition set_fl_chip {C} (x : C) (s : flash_state C) := mk_flash (fl_type s) (fl_buffer s) x.

Section driver.
Context {C : Type} `{!FlashChip C}.
Notation F := (ST (flash_state C)) (only parsing).

(** ** Bytes and frames *)

Definition W25QXX_CS (n : bool) : F unit :=
  modify (λ s, set_fl_chip (chip_select n (fl_chip s)) s).
Definition SPI1_ReadWriteByte (TxData : Z) : F Z := λ s,
  let '(Rxdata, c) := chip_xfer TxData (fl_chip s) in Ok (set_fl_chip c s) Rxdata.

(** The address of a command: four bytes on a W25Q256, else three. *)
Definition send_address (addr : Z) : F unit :=
  type ← gets fl_type;
  (if type =? W25Q256 then SPI1_ReadWriteByte (u8 (Z.shiftr addr 24));; mret () else mret ());;
  SPI1_ReadWriteByte (u8 (Z.shiftr addr 16));;
  SPI1_ReadWriteByte (u8 (Z.shiftr addr 8));;
  SPI1_ReadWriteByte (u8 addr);;
  mret ().

(** [pBuffer[i]] *)
Definition load (pBuffer : list Z) (i : Z) : F Z :=
  if (0 <=? i) && (i <? zlen pBuffer) then mret (byte pBuffer i) else fail FBounds.
(** [for (i = 0; i < n; i++) SPI1_ReadWriteByte(pBuffer[i])] *)
Fixpoint send_bytes (n : nat) (pBuffer : list Z) (i : Z) : F unit :=
  match n with
  | O => mret ()
  | S n' =>
      b ← load pBuffer i;
      SPI1_ReadWriteByte b;;
      send_bytes n' pBuffer (i + 1)
  end.
(** [for (i = 0; i < n; i++) pBuffer[i] = SPI1_ReadWriteByte(0XFF)] *)
Fixpoint receive_bytes (n : nat) : F (list Z) :=
  match n with
  | O => mret []
  | S n' =>
      b ← SPI1_ReadWriteByte 255;
      bs ← receive_bytes n';
      mret (b :: bs)
  end.

(** ** Commands *)

Definition W25QXX_ReadSR (regno : Z) : F Z :=
  let command :=
    if regno =? 1 then W25X_ReadStatusReg1
    else if regno =? 2 then W25X_ReadStatusReg2
    else if regno =? 3 then W25X_ReadStatusReg3
    else W25X_ReadStatusReg1 in
  W25QXX_CS false;;
  SPI1_ReadWriteByte command;;
  byte ← SPI1_ReadWriteByte 255;
  W25QXX_CS true;;
  mret byte.

Definition W25QXX_Write_SR (regno sr : Z) : F unit :=
  let command :=
    if regno =? 1 then W25X_WriteStatusReg1
    else if regno =? 2 then W25X_WriteStatusReg2
    else if regno =? 3 then W25X_WriteStatusReg3
    else W25X_WriteStatusReg1 in
  W25QXX_CS false;;
  SPI1_ReadWriteByte command;;
  SPI1_ReadWriteByte sr;;
  W25QXX_CS true.

Definition W25QXX_Write_Enable : F unit :=
  W25QXX_CS false;;
  SPI1_ReadWriteByte W25X_WriteEnable;;
  W25QXX_CS true.

Definition W25QXX_Write_Disable : F unit :=
  W25QXX_CS false;;
  SPI1_ReadWriteByte W25X_WriteDisable;;
  W25QXX_CS true.

Definition W25QXX_ReadID : F Z :=
  W25QXX_CS false;;
  SPI1_ReadWriteByte 144;;
  SPI1_ReadWriteByte 0;;
  SPI1_ReadWriteByte 0;;
  SPI1_ReadWriteByte 0;;
  high ← SPI1_ReadWriteByte 255;
  let Temp := u16 (Z.lor 0 (Z.shiftl high 8)) in
  low ← SPI1_ReadWriteByte 255;
  let Temp := u16 (Z.lor Temp low) in
  W25QXX_CS true;;
  mret Temp.

Definition W25QXX_Read (ReadAddr NumByteToRead : Z) : F (list Z) :=
  W25QXX_CS false;;
  SPI1_ReadWriteByte W25X_ReadData;;
  send_address ReadAddr;;
  pBuffer ← receive_bytes (Z.to_nat NumByteToRead);
  W25QXX_CS true;;
  mret pBuffer.

Fixpoint wait_busy (fuel : nat) : F unit :=
  match fuel with
  | O => fail FHang
  | S fuel' =>
      sr ← W25QXX_ReadSR 1;
      if Z.land sr 1 =? 1 then wait_busy fuel' else mret ()
  end.
Definition W25QXX_Wait_Busy : F unit := wait_busy (S chip_polls).

Definition W25QXX_Write_Page (pBuffer : list Z) (off WriteAddr NumByteToWrite : Z) : F unit :=
  W25QXX_Write_Enable;;
  W25QXX_CS false;;
  SPI1_ReadWriteByte W25X_PageProgram;;
  send_address WriteAddr;;
  send_bytes (Z.to_nat NumByteToWrite) pBuffer off;;
  W25QXX_CS true;;
  W25QXX_Wait_Busy.

Definition W25QXX_Erase_Chip : F unit :=
  W25QXX_Write_Enable;;
  W25QXX_Wait_Busy;;
  W25QXX_CS false;;
  SPI1_ReadWriteByte W25X_ChipErase;;
  W25QXX_CS true;;
  W25QXX_Wait_Busy.

Definition W25QXX_Erase_Sector (Dst_Addr : Z) : F unit :=
  let Dst_Addr := u32 (Dst_Addr * 4096) in
  W25QXX_Write_Enable;;
  W25QXX_Wait_Busy;;
  W25QXX_CS false;;
  SPI1_ReadWriteByte W25X_SectorErase;;
  send_address Dst_Addr;;
  W25QXX_CS true;;
  W25QXX_Wait_Busy.

(** The delays after these two commands do not change the state. *)
Definition W25QXX_PowerDown : F unit :=
  W25QXX_CS false;;
  SPI1_ReadWriteByte W25X_PowerDown;;
  W25QXX_CS true.
Definition W25QXX_WAKEUP : F unit :=
  W25QXX_CS false;;
  SPI1_ReadWriteByte W25X_ReleasePowerDown;;
  W25QXX_CS true.

(** [MX_SPI1_Init] starts the bus with a byte sent to nobody. *)
Definition W25QXX_Init : F unit :=
  W25QXX_CS true;;
  SPI1_ReadWriteByte 255;;
  type ← W25QXX_ReadID;
  modify (set_fl_type type);;
  if type =? W25Q256 then
    temp ← W25QXX_ReadSR 3;
    if Z.land temp 1 =? 0 then
      W25QXX_CS false;;
      SPI1_ReadWriteByte W25X_Enable4ByteAddr;;
      W25QXX_CS true
    else mret ()
  else mret ().

(** ** Writing without a check, page by page

    [pBuffer += n] is [off + n]. The count falls with every turn but the last. *)
Fixpoint nocheck_loop (fuel : nat) (pBuffer : list Z)
    (off WriteAddr NumByteToWrite pageremain : Z) : F unit :=
  match fuel with
  | O => fail FHang
  | S fuel' =>
      W25QXX_Write_Page pBuffer off WriteAddr pageremain;;
      if NumByteToWrite =? pageremain then mret ()
      else
        let WriteAddr := u32 (WriteAddr + pageremain) in
        let NumByteToWrite := u16 (NumByteToWrite - pageremain) in
        nocheck_loop fuel' pBuffer (off + pageremain) WriteAddr NumByteToWrite
          (if 256 <? NumByteToWrite then 256 else NumByteToWrite)
  end.
Definition W25QXX_Write_NoCheck (pBuffer : list Z) (off WriteAddr NumByteToWrite : Z) : F unit :=
  let pageremain := u16 (256 - WriteAddr mod 256) in
  nocheck_loop (S (Z.to_nat NumByteToWrite)) pBuffer off WriteAddr NumByteToWrite
    (if NumByteToWrite <=? pageremain then NumByteToWrite else pageremain).

(** ** Writing with erasure, sector by sector *)

(** The first index below [i + n] whose byte is not erased, or [i + n]. *)
Fixpoint check_erased (n : nat) (secoff i : Z) : F Z :=
  match n with
  | O => mret i
  | S n' =>
      W25QXX_BUF ← gets fl_buffer;
      b ← load W25QXX_BUF (secoff + i);
      if negb (b =? 255) then mret i else check_erased n' secoff (i + 1)
  end.
(** [for (i = 0; i < secremain; i++) W25QXX_BUF[i + secoff] = pBuffer[i]] *)
Fixpoint copy_bytes (n : nat) (pBuffer : list Z) (off secoff i : Z) : F unit :=
  match n with
  | O => mret ()
  | S n' =>
      b ← load pBuffer (off + i);
      W25QXX_BUF ← gets fl_buffer;
      W25QXX_BUF ← from_option_or FBounds (wr W25QXX_BUF (i + secoff) [b]);
      modify (set_fl_buffer W25QXX_BUF);;
      copy_bytes n' pBuffer off secoff (i + 1)
  end.

(** One turn of the loop on the sector [secpos]. *)
Definition write_sector (pBuffer : list Z) (off WriteAddr secpos secoff secremain : Z) : F unit :=
  bs ← W25QXX_Read (u32 (secpos * 4096)) 4096;
  W25QXX_BUF ← gets fl_buffer;
  W25QXX_BUF ← from_option_or FBounds (wr W25QXX_BUF 0 bs);
  modify (set_fl_buffer W25QXX_BUF);;
  i ← check_erased (Z.to_nat secremain) secoff 0;
  if i <? secremain then
    W25QXX_Erase_Sector secpos;;
    copy_bytes (Z.to_nat secremain) pBuffer off secoff 0;;
    W25QXX_BUF ← gets fl_buffer;
    W25QXX_Write_NoCheck W25QXX_BUF 0 (u32 (secpos * 4096)) 4096
  else W25QXX_Write_NoCheck pBuffer off WriteAddr secremain.

Fixpoint write_loop (fuel : nat) (pBuffer : list Z)
    (off WriteAddr NumByteToWrite secpos secoff secremain : Z) : F unit :=
  match fuel with
  | O => fail FHang
  | S fuel' =>
      write_sector pBuffer off WriteAddr secpos secoff secremain;;
      if NumByteToWrite =? secremain then mret ()
      else
        let secpos := u32 (secpos + 1) in
        let WriteAddr := u32 (WriteAddr + secremain) in
        let NumByteToWrite := u16 (NumByteToWrite - secremain) in
        write_loop fuel' pBuffer (off + secremain) WriteAddr NumByteToWrite secpos 0
          (if 4096 <? NumByteToWrite then 4096 else NumByteToWrite)
  end.
Definition W25QXX_Write (pBuffer : list Z) (WriteAddr NumByteToWrite : Z) : F unit :=
  let secpos := WriteAddr / 4096 in
  let secoff := WriteAddr mod 4096 in
  let secremain := u16 (4096 - secoff) in
  write_loop (S (Z.to_nat NumByteToWrite)) pBuffer 0 WriteAddr NumByteToWrite secpos secoff
    (if NumByteToWrite <=? secremain then NumByteToWrite else secremain).
End driver.
