(* ===== verification/SpiFlashSpec.v ===== *)
(** * What the flash driver promises

    [NorFlash] states the documented behaviour of a W25Q chip by frames, the
    bytes exchanged while it is selected. Against it the driver is proved to
    make a byte-addressable memory of the chip, which can only clear bits and
    erase whole sectors by itself. *)

From Stdlib Require Import ZArith Lia.
From stdpp Require Import base list list_numbers.
From S2P Require Import RTThread.
From S2P Require Import Prelude.
From S2P Require Import Bytes.
From S2P Require Import SpiFlash.

(** ** Frames *)

Section frames.
Context {C : Type} `{!FlashChip C}.

Fixpoint xfers (bs : list Z) (c : C) : list Z * C :=
  match bs with
  | [] => ([], c)
  | b :: bs' =>
      let '(r, c1) := chip_xfer b c in
      let '(rs, c2) := xfers bs' c1 in
      (r :: rs, c2)
  end.
Definition frame (bs : list Z) (c : C) : list Z * C :=
  let '(rs, c') := xfers bs (chip_select false c) in (rs, chip_select true c').

Lemma xfers_app a b c :
  xfers (a ++ b) c =
  let '(ra, c1) := xfers a c in let '(rb, c2) := xfers b c1 in (ra ++ rb, c2).
Proof.
  revert c. induction a as [|x a IH]; intros c; simpl; [by destruct (xfers b c)|].
  destruct (chip_xfer x c) as [r c1]. rewrite IH. destruct (xfers a c1) as [ra c2].
  by destruct (xfers b c2).
Qed.
Lemma xfers_length bs c : length (fst (xfers bs c)) = length bs.
Proof.
  revert c. induction bs as [|b bs IH]; intros c; simpl; [done|].
  destruct (chip_xfer b c) as [r c1]. specialize (IH c1). destruct (xfers bs c1). simpl in *. lia.
Qed.
End frames.

Definition addr_bytes (four : bool) (a : Z) : list Z :=
  (if four then [u8 (Z.shiftr a 24)] else []) ++ [u8 (Z.shiftr a 16); u8 (Z.shiftr a 8); u8 a].

(** Programming clears bits; writing stores. *)
Definition at_range (a n x : Z) : bool := (a <=? x) && (x <? a + n).
Definition programmed (m : Z → Z) (a : Z) (data : list Z) (x : Z) : Z :=
  if at_range a (zlen data) x then Z.land (m x) (byte data (x - a)) else m x.
Definition written (m : Z → Z) (a : Z) (data : list Z) (x : Z) : Z :=
  if at_range a (zlen data) x then byte data (x - a) else m x.
Definition erased (m : Z → Z) (secpos : Z) (x : Z) : Z :=
  if x / 4096 =? secpos then 255 else m x.

Definition is_byte (b : Z) : Prop := 0 ≤ b < 256.

(** ** The chip

    Its capacity, identifier, contents, address mode, write-enable latch, the status reads
    for which it is still busy, and whether it is powered up and not selected. *)
Class NorState (C : Type) := {
  nor_size : Z;
  nor_id : Z;
  nor_mem : C → Z → Z;
  nor_four : C → bool;
  nor_wel : C → bool;
  nor_busy : C → nat;
  nor_idle : C → Prop }.

(** An address range the chip decodes in its mode, and a command that leaves
    the contents alone. *)
Definition nor_addr {C} `{!NorState C} (c : C) (a n : Z) : Prop :=
  0 ≤ a ∧ 0 ≤ n ∧ a + n ≤ nor_size ∧ (nor_four c = false → a + n ≤ 2 ^ 24).
Definition nor_same {C} `{!NorState C} (c c' : C) : Prop :=
  nor_idle c' ∧ nor_four c' = nor_four c ∧ ∀ x, nor_mem c' x = nor_mem c x.

(** The data sheet: the status register, and each command the driver sends. *)
Class NorFlash (C : Type) `{!FlashChip C, !NorState C} : Prop := {
  nor_size_ok : 0 < nor_size ≤ 2 ^ 32 ∧ nor_size mod 4096 = 0;
  nor_byte c a : nor_idle c → is_byte (nor_mem c a);
  nor_polls c : nor_idle c → (nor_busy c ≤ chip_polls)%nat;
  nor_status c : nor_idle c → ∃ r st c',
    frame [W25X_ReadStatusReg1; 255] c = ([r; st], c') ∧
    Z.land st 1 = (if Nat.eqb (nor_busy c) 0 then 0 else 1) ∧
    nor_same c c' ∧ nor_wel c' = nor_wel c ∧ nor_busy c' = pred (nor_busy c);
  (** A byte sent to nobody is ignored. *)
  nor_nobody c b : nor_idle c → nor_busy c = 0%nat →
    let c' := snd (chip_xfer b (chip_select true c)) in nor_same c c' ∧ nor_busy c' = 0%nat;
  nor_identify c : nor_idle c → nor_busy c = 0%nat → ∃ r1 r2 r3 r4 high low c',
    frame [144; 0; 0; 0; 255; 255] c = ([r1; r2; r3; r4; high; low], c') ∧
    is_byte high ∧ is_byte low ∧ nor_id = 256 * high + low ∧ nor_same c c' ∧ nor_busy c' = 0%nat;
  nor_mode c : nor_idle c → nor_busy c = 0%nat → ∃ r sr c',
    frame [W25X_ReadStatusReg3; 255] c = ([r; sr], c') ∧
    Z.land sr 1 = (if nor_four c then 1 else 0) ∧ nor_same c c' ∧ nor_busy c' = 0%nat;
  nor_enter_four c : nor_idle c → nor_busy c = 0%nat →
    let c' := snd (frame [W25X_Enable4ByteAddr] c) in
    nor_idle c' ∧ nor_four c' = true ∧ nor_busy c' = 0%nat ∧ ∀ x, nor_mem c' x = nor_mem c x;
  nor_write_enable c : nor_idle c → nor_busy c = 0%nat →
    let c' := snd (frame [W25X_WriteEnable] c) in
    nor_same c c' ∧ nor_wel c' = true ∧ nor_busy c' = 0%nat;
  nor_read c a n : nor_idle c → nor_busy c = 0%nat → nor_addr c a (Z.of_nat n) →
    let h := W25X_ReadData :: addr_bytes (nor_four c) a in
    let '(rs, c') := frame (h ++ replicate n 255) c in
    drop (length h) rs = fmap (nor_mem c) (seqZ a (Z.of_nat n)) ∧
    nor_same c c' ∧ nor_busy c' = 0%nat;
  nor_program c a data : nor_idle c → nor_busy c = 0%nat → nor_wel c = true →
    nor_addr c a (zlen data) → a mod 256 + zlen data ≤ 256 → Forall is_byte data →
    let c' := snd (frame ((W25X_PageProgram :: addr_bytes (nor_four c) a) ++ data) c) in
    nor_idle c' ∧ nor_four c' = nor_four c ∧
    ∀ x, nor_mem c' x = programmed (nor_mem c) a data x;
  nor_erase c a : nor_idle c → nor_busy c = 0%nat → nor_wel c = true → nor_addr c a 1 →
    let c' := snd (frame (W25X_SectorErase :: addr_bytes (nor_four c) a) c) in
    nor_idle c' ∧ nor_four c' = nor_four c ∧
    ∀ x, nor_mem c' x = erased (nor_mem c) (a / 4096) x;
  nor_erase_chip c : nor_idle c → nor_busy c = 0%nat → nor_wel c = true →
    let c' := snd (frame [W25X_ChipErase] c) in
    nor_idle c' ∧ nor_four c' = nor_four c ∧ ∀ x, 0 ≤ x < nor_size → nor_mem c' x = 255
}.

Lemma at_range_spec a n x : at_range a n x = true ↔ a ≤ x < a + n.
Proof. unfold at_range. rewrite andb_true_iff, Z.leb_le, Z.ltb_lt. done. Qed.

(** A case analysis on every range test of the goal. *)
Ltac range_cases :=
  repeat match goal with
    | |- context [at_range ?a ?n ?x] => destruct (at_range a n x) eqn:?
    end;
  repeat match goal with
    | H : at_range _ _ _ = true |- _ => rewrite at_range_spec in H
    | H : at_range _ _ _ = false |- _ => rewrite <- not_true_iff_false, at_range_spec in H
    end.

Lemma programmed_app m a d1 d2 x :
  programmed (programmed m a d1) (a + zlen d1) d2 x = programmed m a (d1 ++ d2) x.
Proof.
  pose proof (zlen_nonneg d1). pose proof (zlen_nonneg d2).
  unfold programmed. rewrite zlen_app. range_cases; try lia; rewrite ?byte_app by lia.
  - by rewrite (proj2 (Z.ltb_ge _ _)), Z.sub_add_distr by lia.
  - by rewrite (proj2 (Z.ltb_lt _ _)) by lia.
Qed.
Lemma written_app m a d1 d2 x :
  written (written m a d1) (a + zlen d1) d2 x = written m a (d1 ++ d2) x.
Proof.
  pose proof (zlen_nonneg d1). pose proof (zlen_nonneg d2).
  unfold written. rewrite zlen_app. range_cases; try lia; rewrite ?byte_app by lia.
  - by rewrite (proj2 (Z.ltb_ge _ _)), Z.sub_add_distr by lia.
  - by rewrite (proj2 (Z.ltb_lt _ _)) by lia.
Qed.
Lemma programmed_ext m m' a d x : (∀ x, m x = m' x) → programmed m a d x = programmed m' a d x.
Proof. intros E. unfold programmed. by rewrite E. Qed.

(** ** The driver's functions as frames *)

Section driver_frames.
Context {C : Type} `{!FlashChip C}.
Implicit Types s : flash_state C.

(** The state after bytes went out. *)
Definition after_xfers (bs : list Z) s : flash_state C :=
  set_fl_chip (snd (xfers bs (fl_chip s))) s.
Definition after_frame (bs : list Z) s : flash_state C :=
  set_fl_chip (snd (frame bs (fl_chip s))) s.

Lemma after_xfers_cons b bs s :
  after_xfers bs (after_xfers [b] s) = after_xfers (b :: bs) s.
Proof.
  unfold after_xfers. simpl. destruct (chip_xfer b (fl_chip s)) as [r c1]. simpl.
  by destruct (xfers bs c1).
Qed.
Lemma after_xfers_app a b s : after_xfers b (after_xfers a s) = after_xfers (a ++ b) s.
Proof.
  unfold after_xfers. simpl. rewrite xfers_app. destruct (xfers a (fl_chip s)) as [ra c1]. simpl.
  by destruct (xfers b c1).
Qed.

Lemma spi_ok b s :
  SPI1_ReadWriteByte b s = Ok (after_xfers [b] s) (fst (chip_xfer b (fl_chip s))).
Proof.
  unfold SPI1_ReadWriteByte, after_xfers. simpl. by destruct (chip_xfer b (fl_chip s)).
Qed.
Lemma send_address_ok a s :
  send_address a s = Ok (after_xfers (addr_bytes (fl_type s =? W25Q256) a) s) tt.
Proof.
  unfold send_address, addr_bytes. erewrite bind_ok by reflexivity. destruct (_ =? _); simpl.
  - rewrite bind_assoc. erewrite bind_ok by apply spi_ok. erewrite bind_ok by reflexivity.
    do 3 (erewrite bind_ok by apply spi_ok). rewrite !after_xfers_app. reflexivity.
  - erewrite bind_ok by reflexivity. do 3 (erewrite bind_ok by apply spi_ok).
    rewrite !after_xfers_app. reflexivity.
Qed.
Lemma load_ok buf i s : 0 ≤ i < zlen buf → load buf i s = Ok s (byte buf i).
Proof. intros. unfold load. by rewrite (proj2 (Z.leb_le _ _)), (proj2 (Z.ltb_lt _ _)) by lia. Qed.

Lemma slice_cons buf i n :
  0 ≤ i → i + Z.of_nat (S n) ≤ zlen buf →
  slice buf i (Z.of_nat (S n)) = byte buf i :: slice buf (i + 1) (Z.of_nat n).
Proof.
  intros Hi Hl. apply byte_eq.
  - rewrite zlen_cons, !zlen_slice; lia.
  - rewrite zlen_slice by lia. intros j Hj. rewrite byte_slice by lia.
    destruct (decide (j = 0)) as [->|]; [by rewrite Z.add_0_r|].
    change (byte buf i :: ?l) with ([byte buf i] ++ l). rewrite byte_app by lia.
    change (zlen [byte buf i]) with 1. rewrite (proj2 (Z.ltb_ge _ _)) by lia.
    rewrite byte_slice by lia. f_equal. lia.
Qed.
Lemma send_bytes_ok n buf i s :
  0 ≤ i → i + Z.of_nat n ≤ zlen buf →
  send_bytes n buf i s = Ok (after_xfers (slice buf i (Z.of_nat n)) s) tt.
Proof.
  revert i s. induction n as [|n IH]; intros i s Hi Hl.
  { unfold after_xfers, slice. rewrite take_0. by destruct s. }
  cbn [send_bytes]. erewrite bind_ok by (apply load_ok; lia). erewrite bind_ok by apply spi_ok.
  rewrite IH by lia. by rewrite after_xfers_cons, slice_cons by lia.
Qed.
Lemma receive_bytes_ok n s :
  receive_bytes n s = Ok (after_xfers (replicate n 255) s) (fst (xfers (replicate n 255) (fl_chip s))).
Proof.
  revert s. induction n as [|n IH]; intros s; [by destruct s|]. cbn [receive_bytes replicate].
  erewrite bind_ok by apply spi_ok. erewrite bind_ok by apply IH. rewrite after_xfers_cons.
  unfold after_xfers. simpl. destruct (chip_xfer 255 (fl_chip s)) as [r c1]. simpl.
  by destruct (xfers (replicate n 255) c1).
Qed.
Lemma select_xfers bs s :
  set_fl_chip (chip_select true (fl_chip (after_xfers bs (set_fl_chip (chip_select false (fl_chip s)) s))))
    (after_xfers bs (set_fl_chip (chip_select false (fl_chip s)) s)) = after_frame bs s.
Proof.
  unfold after_frame, after_xfers, frame. simpl. by destruct (xfers bs _).
Qed.
End driver_frames.

(** ** The commands *)

Section commands.
Context {C : Type} `{!FlashChip C, !NorState C, !NorFlash C}.
Implicit Types s : flash_state C.

(** The contents of the chip, and the first address the driver cannot reach. *)
Definition flash_mem s : Z → Z := nor_mem (fl_chip s).
Definition flash_top s : Z :=
  if fl_type s =? W25Q256 then nor_size else Z.min nor_size (2 ^ 24).

(** Between calls: the chip is idle, in the address mode of its type. *)
Record flash_ready s : Prop := {
  fr_idle : nor_idle (fl_chip s);
  fr_free : nor_busy (fl_chip s) = 0%nat;
  fr_four : nor_four (fl_chip s) = (fl_type s =? W25Q256);
  fr_buffer : zlen (fl_buffer s) = 4096
}.

(** What an operation on the chip leaves: the contents [m], the rest as it was. *)
Definition now_holds s s' (m : Z → Z) : Prop :=
  flash_ready s' ∧ fl_type s' = fl_type s ∧ ∀ x, flash_mem s' x = m x.

Lemma flash_top_size s : flash_top s ≤ nor_size ∧ flash_top s ≤ 2 ^ 32 ∧ flash_top s mod 4096 = 0.
Proof.
  destruct nor_size_ok as [H0 H4]. unfold flash_top. destruct (_ =? _); [lia|].
  destruct (Z.min_spec nor_size (2 ^ 24)) as [[? ->] | [? ->]]; (split; [lia|]); (split; [lia|done]).
Qed.
Lemma ready_addr s a n :
  flash_ready s → 0 ≤ a → 0 ≤ n → a + n ≤ flash_top s → nor_addr (fl_chip s) a n.
Proof.
  intros Hr Ha Hn Hl. destruct (flash_top_size s) as [H1 _]. split; [done|]. split; [done|].
  split; [lia|]. rewrite (fr_four _ Hr). intros E. unfold flash_top in Hl. rewrite E in Hl. lia.
Qed.
Lemma flash_byte s a : flash_ready s → is_byte (flash_mem s a).
Proof. intros Hr. apply nor_byte, Hr. Qed.
Lemma now_holds_top s s' m : now_holds s s' m → flash_top s' = flash_top s.
Proof. intros (_ & Ht & _). unfold flash_top. by rewrite Ht. Qed.
Lemma now_holds_trans s s1 s2 m m' :
  now_holds s s1 m → now_holds s1 s2 m' → now_holds s s2 m'.
Proof. intros (_ & Ht & _) (Hr & Ht' & Hm). split; [done|]. split; [congruence|done]. Qed.
Lemma now_holds_eq s s' m m' : (∀ x, m x = m' x) → now_holds s s' m → now_holds s s' m'.
Proof. intros E (Hr & Ht & Hm). split; [done|]. split; [done|]. intros x. by rewrite Hm. Qed.

Lemma ReadSR_ok s :
  nor_idle (fl_chip s) → ∃ st c', W25QXX_ReadSR 1 s = Ok (set_fl_chip c' s) st ∧
    Z.land st 1 = (if Nat.eqb (nor_busy (fl_chip s)) 0 then 0 else 1) ∧
    nor_same (fl_chip s) c' ∧ nor_wel c' = nor_wel (fl_chip s) ∧
    nor_busy c' = pred (nor_busy (fl_chip s)).
Proof.
  intros Hi. destruct (nor_status _ Hi) as (r & st & c' & E & Hst & Hs & Hw & Hb).
  exists st, c'. split; [|done]. unfold W25QXX_ReadSR. cbn [Z.eqb Pos.eqb].
  erewrite bind_ok by reflexivity. erewrite bind_ok by apply spi_ok.
  erewrite bind_ok by apply spi_ok. unfold frame in E. cbn [xfers] in E.
  unfold after_xfers. cbn [xfers fl_chip set_fl_chip].
  destruct (chip_xfer W25X_ReadStatusReg1 _) as [r1 c1]. cbn [fst snd].
  destruct (chip_xfer 255 c1) as [r2 c2]. cbn [fst snd]. simplify_eq. reflexivity.
Qed.

Lemma wait_busy_ok fuel s :
  nor_idle (fl_chip s) → (nor_busy (fl_chip s) < fuel)%nat →
  ∃ c', wait_busy fuel s = Ok (set_fl_chip c' s) tt ∧ nor_same (fl_chip s) c' ∧
    nor_wel c' = nor_wel (fl_chip s) ∧ nor_busy c' = 0%nat.
Proof.
  revert s. induction fuel as [|fuel IH]; intros s Hi Hf; [lia|]. cbn [wait_busy].
  destruct (ReadSR_ok s Hi) as (st & c' & E & Hst & Hs & Hw & Hb).
  rewrite (bind_ok _ _ _ _ _ E), Hst. destruct (Nat.eqb_spec (nor_busy (fl_chip s)) 0) as [H0|H0].
  { exists c'. rewrite H0 in Hb. done. }
  destruct (IH (set_fl_chip c' s)) as (c2 & E2 & Hs2 & Hw2 & Hb2); [apply Hs|simpl; lia|].
  exists c2. split; [exact E2|]. simpl in *. split; [|split; [congruence|done]].
  destruct Hs as (? & ? & Hm), Hs2 as (? & ? & Hm2). split; [done|]. split; [congruence|].
  intros x. by rewrite Hm2.
Qed.
Lemma Wait_Busy_ok s :
  nor_idle (fl_chip s) → ∃ c', W25QXX_Wait_Busy s = Ok (set_fl_chip c' s) tt ∧
    nor_same (fl_chip s) c' ∧ nor_wel c' = nor_wel (fl_chip s) ∧ nor_busy c' = 0%nat.
Proof. intros Hi. apply wait_busy_ok; [done|]. pose proof (nor_polls _ Hi). lia. Qed.

(** The end of a program or erase command: the chip has taken it and is waited for. *)
Lemma finish_ok s c1 m :
  zlen (fl_buffer s) = 4096 → nor_four (fl_chip s) = (fl_type s =? W25Q256) →
  nor_idle c1 → nor_four c1 = nor_four (fl_chip s) → (∀ x, nor_mem c1 x = m x) →
  ∃ s', W25QXX_Wait_Busy (set_fl_chip c1 s) = Ok s' tt ∧ now_holds s s' m ∧ fl_buffer s' = fl_buffer s.
Proof.
  intros Hb Hf Hi1 Hf1 Hm1. destruct (Wait_Busy_ok (set_fl_chip c1 s) Hi1) as (c2 & E & (Hi2 & Hf2 & Hm2) & _ & Hb2).
  exists (set_fl_chip c2 s). split; [exact E|]. split; [|done]. simpl in *.
  split; [split; simpl; congruence|]. split; [done|]. intros x. unfold flash_mem; simpl. by rewrite Hm2.
Qed.

Lemma Write_Enable_ok s :
  flash_ready s → ∃ c', W25QXX_Write_Enable s = Ok (set_fl_chip c' s) tt ∧
    nor_same (fl_chip s) c' ∧ nor_wel c' = true ∧ nor_busy c' = 0%nat.
Proof.
  intros [Hi Hb _ _]. destruct (nor_write_enable _ Hi Hb) as (Hs & Hw & Hb').
  exists (snd (frame [W25X_WriteEnable] (fl_chip s))). split; [|done].
  unfold W25QXX_Write_Enable. erewrite bind_ok by reflexivity. erewrite bind_ok by apply spi_ok.
  unfold W25QXX_CS, modify. f_equal. apply (select_xfers [W25X_WriteEnable] s).
Qed.
Lemma enabled_ready s c : flash_ready s → nor_same (fl_chip s) c → nor_busy c = 0%nat →
  flash_ready (set_fl_chip c s) ∧ ∀ x, flash_mem (set_fl_chip c s) x = flash_mem s x.
Proof. intros [] (? & ? & ?) ?. split; [split; simpl; congruence|done]. Qed.

(** Reading. *)
Lemma W25QXX_Read_ok s a n :
  flash_ready s → 0 ≤ a → 0 ≤ n → a + n ≤ flash_top s →
  ∃ s', W25QXX_Read a n s = Ok s' (fmap (flash_mem s) (seqZ a n)) ∧
    now_holds s s' (flash_mem s) ∧ fl_buffer s' = fl_buffer s.
Proof.
  intros Hr Ha Hn Hl. pose proof (ready_addr s a n Hr Ha Hn Hl) as Had.
  rewrite <- (Z2Nat.id n) in Had by done.
  pose proof (nor_read _ _ _ (fr_idle _ Hr) (fr_free _ Hr) Had) as H. cbv zeta in H.
  set (h := W25X_ReadData :: addr_bytes (nor_four (fl_chip s)) a) in H.
  destruct (frame (h ++ replicate (Z.to_nat n) 255) (fl_chip s)) as [rs c'] eqn:E.
  destruct H as (Hrs & Hs & Hb). rewrite Z2Nat.id in Hrs by done.
  exists (set_fl_chip c' s). destruct (enabled_ready s c' Hr Hs Hb) as [Hr' Hm'].
  split; [|split; [split; [done|split; [done|done]]|done]].
  unfold W25QXX_Read. erewrite bind_ok by reflexivity. erewrite bind_ok by apply spi_ok.
  erewrite bind_ok by apply send_address_ok. erewrite bind_ok by apply receive_bytes_ok.
  rewrite after_xfers_cons. set (sel := set_fl_chip (chip_select false (fl_chip s)) s).
  change (fl_type (after_xfers [W25X_ReadData] sel)) with (fl_type s).
  rewrite <- (fr_four _ Hr). fold h. rewrite after_xfers_app. unfold frame in E.
  rewrite xfers_app in E. unfold mbind, ST_bind, W25QXX_CS, modify, mret, ST_ret, after_xfers.
  rewrite xfers_app. change (fl_chip sel) with (chip_select false (fl_chip s)).
  pose proof (xfers_length h (chip_select false (fl_chip s))) as Hlen.
  destruct (xfers h (chip_select false (fl_chip s))) as [ra ca] eqn:Ea. cbn [fst snd fl_chip set_fl_chip] in *.
  destruct (xfers (replicate (Z.to_nat n) 255) ca) as [rb cb]. simplify_eq. cbn [fst snd fl_chip set_fl_chip].
  change (flash_mem s) with (nor_mem (fl_chip s)).
  rewrite <- Hrs, <- Hlen. by rewrite drop_app_length.
Qed.

(** Programming within a page. *)
Lemma W25QXX_Write_Page_ok s buf off a n :
  flash_ready s → 0 ≤ off → 0 ≤ n → off + n ≤ zlen buf → Forall is_byte buf →
  0 ≤ a → a + n ≤ flash_top s → a mod 256 + n ≤ 256 →
  ∃ s', W25QXX_Write_Page buf off a n s = Ok s' tt ∧ fl_buffer s' = fl_buffer s ∧
    now_holds s s' (programmed (flash_mem s) a (slice buf off n)).
Proof.
  intros Hr Ho Hn Hl Hb Ha Htop Hpage. pose proof (ready_addr s a n Hr Ha Hn Htop) as Had.
  destruct (Write_Enable_ok s Hr) as (c1 & E1 & Hs1 & Hw1 & Hb1).
  destruct (enabled_ready s c1 Hr Hs1 Hb1) as [Hr1 Hm1]. pose proof Hs1 as (Hi1 & Hf1 & _).
  assert (Hz : zlen (slice buf off n) = n) by (apply zlen_slice; lia).
  destruct (nor_program c1 a (slice buf off n)) as (Hi2 & Hf2 & Hm2); try done.
  { unfold nor_addr in *. rewrite Hz, Hf1. done. }
  { by rewrite Hz. }
  { unfold slice. by apply Forall_take, Forall_drop. }
  rewrite Hf1, (fr_four _ Hr) in Hi2, Hf2, Hm2.
  set (bs := (W25X_PageProgram :: addr_bytes (fl_type s =? W25Q256) a) ++ slice buf off n) in *.
  destruct (finish_ok (set_fl_chip c1 s) (snd (frame bs c1)) (programmed (nor_mem c1) a (slice buf off n)))
    as (s' & E & Hs' & Hbuf); [apply Hr1|apply Hr1|done|simpl; rewrite Hf1, (fr_four _ Hr); done|done|].
  exists s'. split; [|split; [done|]].
  - unfold W25QXX_Write_Page. rewrite (bind_ok _ _ _ _ _ E1). erewrite bind_ok by reflexivity.
    erewrite bind_ok by apply spi_ok. erewrite bind_ok by apply send_address_ok.
    erewrite bind_ok by (apply send_bytes_ok; lia). rewrite Z2Nat.id by done.
    rewrite after_xfers_cons, after_xfers_app. erewrite bind_ok by reflexivity.
    rewrite <- E. f_equal. apply (select_xfers bs (set_fl_chip c1 s)).
  - eapply now_holds_trans; [split; [exact Hr1|split; [done|exact Hm1]]|].
    eapply now_holds_eq; [|exact Hs']. intros x. unfold programmed. by rewrite <- Hm1.
Qed.

(** Erasing. *)
Lemma W25QXX_Erase_Sector_ok s secpos :
  flash_ready s → 0 ≤ secpos → secpos * 4096 < flash_top s →
  ∃ s', W25QXX_Erase_Sector secpos s = Ok s' tt ∧ fl_buffer s' = fl_buffer s ∧
    now_holds s s' (erased (flash_mem s) secpos).
Proof.
  intros Hr H0 Htop. destruct (flash_top_size s) as (_ & Ht & _).
  assert (Hu : u32 (secpos * 4096) = secpos * 4096) by (apply u32_small; lia).
  destruct (Write_Enable_ok s Hr) as (c1 & E1 & Hs1 & Hw1 & Hb1).
  destruct (enabled_ready s c1 Hr Hs1 Hb1) as [Hr1 Hm1].
  destruct (Wait_Busy_ok (set_fl_chip c1 s)) as (c2 & E2 & Hs2 & Hw2 & Hb2); [apply Hr1|].
  destruct (enabled_ready _ c2 Hr1 Hs2 Hb2) as [Hr2 Hm2]. cbn [fl_chip set_fl_chip] in *.
  set (s2 := set_fl_chip c2 (set_fl_chip c1 s)) in *.
  pose proof (ready_addr s2 (secpos * 4096) 1 Hr2) as Had.
  change (flash_top s2) with (flash_top s) in Had.
  destruct (nor_erase c2 (secpos * 4096)) as (Hi3 & Hf3 & Hm3);
    [apply Hr2|done|congruence|apply Had; lia|].
  pose proof (fr_four _ Hr2) as Hfour. change (fl_chip s2) with c2 in Hfour.
  change (fl_type s2) with (fl_type s) in Hfour. rewrite Hfour in Hi3, Hf3, Hm3.
  set (bs := W25X_SectorErase :: addr_bytes (fl_type s =? W25Q256) (secpos * 4096)) in *.
  destruct (finish_ok s2 (snd (frame bs c2)) (erased (nor_mem c2) secpos)) as (s' & E & Hs' & Hbuf);
    [apply Hr2|apply Hr2|done|simpl; by rewrite Hfour| |].
  { intros x. rewrite Hm3. by rewrite Z.div_mul. }
  exists s'. split; [|split; [done|]].
  - unfold W25QXX_Erase_Sector. cbv zeta. rewrite Hu, (bind_ok _ _ _ _ _ E1), (bind_ok _ _ _ _ _ E2).
    erewrite bind_ok by reflexivity.
    erewrite bind_ok by apply spi_ok. erewrite bind_ok by apply send_address_ok.
    rewrite after_xfers_cons. erewrite bind_ok by reflexivity.
    rewrite <- E. f_equal. apply (select_xfers bs s2).
  - eapply now_holds_trans; [split; [exact Hr2|split; [done|reflexivity]]|].
    eapply now_holds_eq; [|exact Hs']. intros x. unfold erased. rewrite <- Hm1, <- Hm2. done.
Qed.

(** ** Writing without erasing *)

Lemma nocheck_loop_ok fuel buf s off a n pageremain :
  flash_ready s → 0 ≤ off → 0 ≤ n < 65536 → off + n ≤ zlen buf → Forall is_byte buf →
  0 ≤ a → a + n ≤ flash_top s → 0 ≤ pageremain ≤ n → a mod 256 + pageremain ≤ 256 →
  pageremain = n ∨ 0 < pageremain ∧ (a + pageremain) mod 256 = 0 → (Z.to_nat n < fuel)%nat →
  ∃ s', nocheck_loop fuel buf off a n pageremain s = Ok s' tt ∧ fl_buffer s' = fl_buffer s ∧
    now_holds s s' (programmed (flash_mem s) a (slice buf off n)).
Proof.
  revert s off a n pageremain. induction fuel as [|fuel IH];
    intros s off a n pr Hr Ho Hn Hl Hb Ha Htop Hpr Hpage Hnext Hfuel; [lia|]. cbn [nocheck_loop].
  destruct (W25QXX_Write_Page_ok s buf off a pr) as (s1 & E1 & Hb1 & H1); try done; try lia.
  rewrite (bind_ok _ _ _ _ _ E1). destruct (Z.eqb_spec n pr) as [->|Hne]; [by exists s1|].
  destruct Hnext as [|[Hpos Hal]]; [lia|]. cbv zeta. destruct (flash_top_size s) as (_ & Ht & _).
  rewrite u16_small, u32_small by lia.
  destruct (IH s1 (off + pr) (a + pr) (n - pr) (if 256 <? n - pr then 256 else n - pr))
    as (s2 & E2 & Hb2 & H2); try done; try lia.
  - apply H1.
  - rewrite (now_holds_top _ _ _ H1). lia.
  - destruct (Z.ltb_spec 256 (n - pr)); lia.
  - rewrite Hal. destruct (Z.ltb_spec 256 (n - pr)); lia.
  - destruct (Z.ltb_spec 256 (n - pr)); [right|by left]. split; [lia|].
    rewrite Zplus_mod, Hal. done.
  - exists s2. split; [done|]. split; [congruence|]. eapply now_holds_trans; [exact H1|].
    eapply now_holds_eq; [|exact H2]. intros x.
    rewrite (slice_split buf off n pr) by lia. rewrite <- programmed_app, zlen_slice by lia.
    apply programmed_ext. apply H1.
Qed.

(** [W25QXX_Write_NoCheck] ends and programs the given bytes at the given
    address, across pages: each bit of the range that is one in the chip and
    in the data stays one, every other bit of the range becomes zero, and
    nothing else changes. *)
Lemma W25QXX_Write_NoCheck_ok s buf off a n :
  flash_ready s → 0 ≤ off → 0 ≤ n < 65536 → off + n ≤ zlen buf → Forall is_byte buf →
  0 ≤ a → a + n ≤ flash_top s →
  ∃ s', W25QXX_Write_NoCheck buf off a n s = Ok s' tt ∧ fl_buffer s' = fl_buffer s ∧
    now_holds s s' (programmed (flash_mem s) a (slice buf off n)).
Proof.
  intros Hr Ho Hn Hl Hb Ha Htop. unfold W25QXX_Write_NoCheck. cbv zeta.
  pose proof (Z.mod_pos_bound a 256). rewrite u16_small by lia.
  apply nocheck_loop_ok; try done; try lia.
  - destruct (Z.leb_spec n (256 - a mod 256)); lia.
  - destruct (Z.leb_spec n (256 - a mod 256)); lia.
  - destruct (Z.leb_spec n (256 - a mod 256)); [by left|right]. split; [lia|].
    replace (a + (256 - a mod 256)) with ((a / 256 + 1) * 256) by (pose proof (Z.div_mod a 256); lia).
    by apply Z.mod_mul.
Qed.

(** ** Writing *)

Lemma splice_all (l bs : list Z) : zlen bs = zlen l → splice l 0 bs = bs.
Proof.
  intros Hl. unfold splice. rewrite take_0. simpl. rewrite drop_ge, app_nil_r; [done|].
  unfold zlen in *. lia.
Qed.
Lemma splice_snoc (l bs : list Z) off b :
  0 ≤ off → off + 1 + zlen bs ≤ zlen l →
  splice (splice l off [b]) (off + 1) bs = splice l off (b :: bs).
Proof.
  intros Ho Hl. pose proof (zlen_nonneg bs). assert (zlen [b] = 1) as H1 by done.
  assert (zlen (b :: bs) = 1 + zlen bs) as Hc by apply zlen_cons.
  assert (zlen (splice l off [b]) = zlen l) as Hz by (apply zlen_splice; lia).
  assert (zlen (splice (splice l off [b]) (off + 1) bs) = zlen l) as Hz2 by (rewrite zlen_splice; lia).
  apply byte_eq; [rewrite Hz2, zlen_splice; lia|]. rewrite Hz2. intros i Hi.
  rewrite !byte_splice by lia. rewrite Hc, H1.
  change (b :: bs) with ([b] ++ bs). destruct (Z.leb_spec (off + 1) i), (Z.leb_spec off i),
    (Z.ltb_spec i (off + 1 + zlen bs)), (Z.ltb_spec i (off + (1 + zlen bs))),
    (Z.ltb_spec i (off + 1)); cbn [andb]; try lia; try done;
    rewrite byte_app, H1 by lia.
  - rewrite (proj2 (Z.ltb_ge _ _)) by lia. f_equal. lia.
  - by rewrite (proj2 (Z.ltb_lt _ _)) by lia.
Qed.

Lemma check_erased_ok k secoff i s :
  0 ≤ secoff + i → secoff + i + Z.of_nat k ≤ zlen (fl_buffer s) →
  ∃ j, check_erased k secoff i s = Ok s j ∧ i ≤ j ≤ i + Z.of_nat k ∧
    (∀ t, i ≤ t < j → byte (fl_buffer s) (secoff + t) = 255).
Proof.
  revert i. induction k as [|k IH]; intros i Hi Hl; cbn [check_erased].
  { exists i. split; [done|]. split; [lia|]. lia. }
  erewrite bind_ok by reflexivity. erewrite bind_ok by (apply load_ok; lia).
  destruct (Z.eqb_spec (byte (fl_buffer s) (secoff + i)) 255) as [E|E]; cbn [negb].
  - destruct (IH (i + 1)) as (j & Ej & Hj & Ht); [lia|lia|]. exists j. split; [done|].
    split; [lia|]. intros t Ht'. destruct (decide (t = i)) as [->|]; [done|]. apply Ht. lia.
  - exists i. split; [done|]. split; [lia|]. lia.
Qed.

Lemma copy_bytes_ok k buf off secoff i s :
  0 ≤ off + i → off + i + Z.of_nat k ≤ zlen buf →
  0 ≤ i + secoff → i + secoff + Z.of_nat k ≤ zlen (fl_buffer s) →
  copy_bytes k buf off secoff i s
  = Ok (set_fl_buffer (splice (fl_buffer s) (i + secoff) (slice buf (off + i) (Z.of_nat k))) s) tt.
Proof.
  revert i s. induction k as [|k IH]; intros i s Ho Hl Hi Hb; cbn [copy_bytes].
  { unfold slice. rewrite take_0. destruct s as [ty b c]. unfold mret, ST_ret, set_fl_buffer, splice.
    cbn [fl_buffer app]. rewrite Z.add_0_r. by rewrite take_drop. }
  erewrite bind_ok by (apply load_ok; lia). erewrite bind_ok by reflexivity.
  rewrite wr_ok by (change (zlen [byte buf (off + i)]) with 1; lia).
  erewrite bind_ok by reflexivity. erewrite bind_ok by reflexivity.
  rewrite IH; cbn [fl_buffer set_fl_buffer]; rewrite ?zlen_splice by (change (zlen [byte buf (off + i)]) with 1; lia);
    try lia.
  rewrite slice_cons by lia. replace (i + 1 + secoff) with (i + secoff + 1) by lia.
  replace (off + (i + 1)) with (off + i + 1) by lia.
  rewrite splice_snoc; [done|lia|]. rewrite zlen_slice; lia.
Qed.

Lemma land_255 b : is_byte b → Z.land 255 b = b.
Proof. intros Hb. change 255 with (Z.ones 8). rewrite Z.land_comm, Z.land_ones by lia. by apply Z.mod_small. Qed.
Lemma byte_is_byte l i : Forall is_byte l → is_byte (byte l i).
Proof.
  intros Hl. unfold byte. destruct (nth_in_or_default (Z.to_nat i) l 0) as [Hin| ->]; [|done].
  rewrite List.Forall_forall in Hl. by apply Hl.
Qed.

Lemma flash_fill s l : flash_ready s → zlen l = 4096 → flash_ready (set_fl_buffer l s).
Proof. intros [] ?. by split. Qed.

(** What a sector holds after it was erased and programmed with its old
    contents, the new data in their place. *)
Lemma rewritten m secpos secoff data old x :
  (∀ y, is_byte (m y)) → Forall is_byte data → 0 ≤ secoff → secoff + zlen data ≤ 4096 →
  old = m <$> seqZ (secpos * 4096) 4096 →
  programmed (erased m secpos) (secpos * 4096) (splice old secoff data) x
  = written m (secpos * 4096 + secoff) data x.
Proof.
  intros Hm Hd Ho Hl ->. pose proof (zlen_nonneg data).
  assert (Hz : zlen (m <$> seqZ (secpos * 4096) 4096) = 4096) by (by apply zlen_map_seqZ).
  assert (Hs : zlen (splice (m <$> seqZ (secpos * 4096) 4096) secoff data) = 4096)
    by (rewrite zlen_splice; lia).
  unfold programmed, erased, written. rewrite Hs.
  assert (Hdiv : secpos * 4096 ≤ x < secpos * 4096 + 4096 ↔ x / 4096 = secpos).
  { pose proof (Z.div_mod x 4096). pose proof (Z.mod_pos_bound x 4096). nia. }
  range_cases; destruct (Z.eqb_spec (x / 4096) secpos) as [E|E]; try (exfalso; lia); try reflexivity.
  - rewrite byte_splice by lia.
    rewrite (proj2 (Z.leb_le _ _)), (proj2 (Z.ltb_lt _ _)) by lia. cbn [andb].
    rewrite land_255 by (by apply byte_is_byte). f_equal. lia.
  - rewrite byte_splice, byte_map_seqZ by lia. replace (secpos * 4096 + (x - secpos * 4096)) with x by lia.
    destruct (Z.leb_spec secoff (x - secpos * 4096)), (Z.ltb_spec (x - secpos * 4096) (secoff + zlen data));
      cbn [andb]; try lia; by apply land_255.
Qed.

Lemma write_sector_ok s buf off secpos secoff n :
  flash_ready s → 0 ≤ off → 0 ≤ n → off + n ≤ zlen buf → Forall is_byte buf →
  0 ≤ secpos → 0 ≤ secoff → secoff + n ≤ 4096 → secpos * 4096 < flash_top s →
  ∃ s', write_sector buf off (secpos * 4096 + secoff) secpos secoff n s = Ok s' tt ∧
    now_holds s s' (written (flash_mem s) (secpos * 4096 + secoff) (slice buf off n)).
Proof.
  intros Hr Ho Hn Hl Hb Hs0 Hso Hn4 Htop. destruct (flash_top_size s) as (_ & Ht32 & Ht4).
  assert (Hend : secpos * 4096 + 4096 ≤ flash_top s) by (pose proof (Z.div_mod (flash_top s) 4096); lia).
  unfold write_sector. rewrite u32_small by lia.
  destruct (W25QXX_Read_ok s (secpos * 4096) 4096 Hr) as (s1 & E1 & H1 & Hb1); [lia..|].
  rewrite (bind_ok _ _ _ _ _ E1). erewrite bind_ok by reflexivity.
  remember (flash_mem s <$> seqZ (secpos * 4096) 4096) as old eqn:Eold.
  assert (Hold : zlen old = 4096) by (subst old; by apply zlen_map_seqZ).
  assert (Hfb : zlen (fl_buffer s1) = 4096) by (apply H1).
  rewrite wr_ok by lia. erewrite bind_ok by reflexivity. erewrite bind_ok by reflexivity.
  rewrite splice_all by lia. set (s2 := set_fl_buffer old s1).
  assert (Hr2 : flash_ready s2) by (apply flash_fill; [apply H1|done]).
  assert (Hd : zlen (slice buf off n) = n) by (apply zlen_slice; lia).
  assert (Hdb : Forall is_byte (slice buf off n)) by (by apply Forall_take, Forall_drop).
  assert (H2 : now_holds s s2 (flash_mem s)) by (split; [done|split; [apply H1|apply H1]]).
  destruct (check_erased_ok (Z.to_nat n) secoff 0 s2) as (j & Ej & Hj & Hff);
    [lia|cbn [fl_buffer s2 set_fl_buffer]; lia|].
  rewrite (bind_ok _ _ _ _ _ Ej). pose proof (now_holds_top _ _ _ H2) as Ht2.
  destruct (Z.ltb_spec j n) as [Hlt|Hge].
  - destruct (W25QXX_Erase_Sector_ok s2 secpos Hr2) as (s3 & E3 & Hb3 & H3); [done|by rewrite Ht2|].
    rewrite (bind_ok _ _ _ _ _ E3).
    assert (Hb3' : fl_buffer s3 = old) by exact Hb3.
    erewrite bind_ok by (apply copy_bytes_ok; rewrite ?Hb3', ?Hold; lia).
    erewrite bind_ok by reflexivity. cbn [fl_buffer set_fl_buffer].
    rewrite Hb3', Z2Nat.id, Z.add_0_r, Z.add_0_l by lia.
    set (new := splice old secoff (slice buf off n)).
    assert (Hnew : zlen new = 4096) by (unfold new; rewrite zlen_splice; lia).
    assert (H3' : flash_ready (set_fl_buffer new s3)) by (apply flash_fill; [apply H3|done]).
    assert (Holdb : Forall is_byte old).
    { apply Forall_forall. subst old. intros b (x & -> & _)%list_elem_of_fmap. by apply flash_byte. }
    assert (Hnewb : Forall is_byte new).
    { unfold new, splice. apply Forall_app. split; [by apply Forall_take|]. apply Forall_app.
      split; [done|by apply Forall_drop]. }
    destruct (W25QXX_Write_NoCheck_ok (set_fl_buffer new s3) new 0 (secpos * 4096) 4096)
      as (s4 & E4 & _ & H4); [exact H3'|lia|lia|lia|exact Hnewb|lia| |].
    { change (flash_top (set_fl_buffer new s3)) with (flash_top s3).
      rewrite (now_holds_top _ _ _ H3), Ht2. exact Hend. }
    exists s4. split; [done|].
    eapply now_holds_trans; [exact H2|]. eapply now_holds_trans; [exact H3|].
    eapply now_holds_eq; [|eapply (now_holds_trans s3 (set_fl_buffer new s3)); [split; [exact H3'|split; [done|reflexivity]]|exact H4]].
    intros x. replace (slice new 0 4096) with new by (unfold slice; by rewrite drop_0, take_ge by (unfold zlen in *; lia)).
    rewrite <- (rewritten (flash_mem s) secpos secoff (slice buf off n) old x);
      [|intros y; by apply flash_byte|exact Hdb|exact Hso|lia|exact Eold].
    apply programmed_ext. intros y. change (flash_mem (set_fl_buffer new s3) y) with (flash_mem s3 y).
    destruct H3 as (_ & _ & ->). unfold erased. by destruct H2 as (_ & _ & ->).
  - assert (j = n) as -> by lia.
    destruct (W25QXX_Write_NoCheck_ok s2 buf off (secpos * 4096 + secoff) n)
      as (s4 & E4 & _ & H4); [exact Hr2|lia|lia|lia|exact Hb|lia|lia|].
    exists s4. split; [done|]. eapply now_holds_trans; [exact H2|].
    eapply now_holds_eq; [|exact H4]. intros x. unfold programmed, written. rewrite Hd.
    destruct H2 as (_ & _ & Hm2). rewrite Hm2. range_cases; [|done].
    specialize (Hff (x - (secpos * 4096 + secoff)) ltac:(lia)).
    cbn [s2 fl_buffer set_fl_buffer] in Hff. rewrite Eold in Hff. rewrite byte_map_seqZ in Hff by lia.
    replace (secpos * 4096 + (secoff + (x - (secpos * 4096 + secoff)))) with x in Hff by lia.
    rewrite Hff. apply land_255. by apply byte_is_byte.
Qed.

Lemma write_loop_ok fuel buf s off a n secpos secoff secremain :
  flash_ready s → 0 ≤ off → 0 ≤ n < 65536 → off + n ≤ zlen buf → Forall is_byte buf →
  0 ≤ secpos → 0 ≤ secoff → a = secpos * 4096 + secoff → a < flash_top s → a + n ≤ flash_top s →
  0 ≤ secremain ≤ n → secoff + secremain ≤ 4096 →
  secremain = n ∨ 0 < secremain ∧ secoff + secremain = 4096 → (Z.to_nat n < fuel)%nat →
  ∃ s', write_loop fuel buf off a n secpos secoff secremain s = Ok s' tt ∧
    now_holds s s' (written (flash_mem s) a (slice buf off n)).
Proof.
  revert s off a n secpos secoff secremain.
  induction fuel as [|fuel IH]; intros s off a n secpos secoff rem Hr Ho Hn Hl Hb Hsp Hso Ha Htop Hend
    Hrem Hsec Hnext Hfuel; [lia|]. cbn [write_loop].
  destruct (write_sector_ok s buf off secpos secoff rem) as (s1 & E1 & H1);
    [exact Hr|lia|lia|lia|exact Hb|lia|lia|lia|lia|].
  rewrite <- Ha in E1, H1. rewrite (bind_ok _ _ _ _ _ E1).
  destruct (Z.eqb_spec n rem) as [->|Hne]; [by exists s1|].
  destruct Hnext as [|[Hpos Hal]]; [lia|]. cbv zeta. destruct (flash_top_size s) as (_ & Ht & _).
  rewrite u16_small, !u32_small by lia. pose proof (now_holds_top _ _ _ H1) as Ht1.
  destruct (IH s1 (off + rem) (a + rem) (n - rem) (secpos + 1) 0
    (if 4096 <? n - rem then 4096 else n - rem)) as (s2 & E2 & H2).
  1: exact (proj1 H1).
  all: rewrite ?Ht1; try exact Hb; try lia.
  - destruct (Z.ltb_spec 4096 (n - rem)); lia.
  - destruct (Z.ltb_spec 4096 (n - rem)); lia.
  - destruct (Z.ltb_spec 4096 (n - rem)); [right; lia|by left].
  - exists s2. split; [exact E2|]. eapply now_holds_trans; [exact H1|].
    eapply now_holds_eq; [|exact H2]. intros x.
    rewrite (slice_split buf off n rem) by lia. rewrite <- written_app, zlen_slice by lia.
    unfold written at 1 3. destruct H1 as (_ & _ & Hm1). by rewrite Hm1.
Qed.

Lemma W25QXX_Write_ok s pBuffer a n :
  flash_ready s → Forall is_byte pBuffer → 0 ≤ n < 65536 → n ≤ zlen pBuffer →
  0 ≤ a < flash_top s → a + n ≤ flash_top s →
  ∃ s', W25QXX_Write pBuffer a n s = Ok s' tt ∧
    now_holds s s' (written (flash_mem s) a (slice pBuffer 0 n)).
Proof.
  intros Hr Hb Hn Hl Ha Hend. pose proof (Z.mod_pos_bound a 4096 ltac:(lia)) as Hmod.
  pose proof (Z.div_mod a 4096 ltac:(lia)) as Hdm.
  pose proof (Z.div_pos a 4096 ltac:(lia) ltac:(lia)) as Hdp.
  unfold W25QXX_Write. rewrite u16_small by lia. set (rem := 4096 - a mod 4096).
  assert (Hrem : 0 < rem ≤ 4096) by (unfold rem; lia).
  apply write_loop_ok; try exact Hr; try exact Hb; try lia.
  all: destruct (Z.leb_spec n rem); try (left; reflexivity); try (right; unfold rem); unfold rem in *; lia.
Qed.

(** C12: [W25QXX_Write] ends and stores the given bytes at the given address,
    whatever the chip held there, across pages and sectors; every other byte of
    the memory, also of the sectors that had to be erased, stays as it was. *)
Theorem W25QXX_Write_spec s pBuffer WriteAddr n :
  flash_ready s → Forall is_byte pBuffer → 0 ≤ n < 65536 → n ≤ zlen pBuffer →
  0 ≤ WriteAddr < flash_top s → WriteAddr + n ≤ flash_top s →
  ∃ s', W25QXX_Write pBuffer WriteAddr n s = Ok s' tt ∧ flash_ready s' ∧
    fl_type s' = fl_type s ∧
    ∀ x, flash_mem s' x =
      if (WriteAddr <=? x) && (x <? WriteAddr + n) then byte pBuffer (x - WriteAddr)
      else flash_mem s x.
Proof.
  intros Hr Hb Hn Hl Ha Hend.
  destruct (W25QXX_Write_ok s pBuffer WriteAddr n) as (s' & E & Hr' & Ht & Hm); try done.
  exists s'. split; [exact E|]. split; [done|]. split; [done|]. intros x. rewrite Hm.
  unfold written, at_range. rewrite zlen_slice by lia.
  destruct (Z.leb_spec WriteAddr x), (Z.ltb_spec x (WriteAddr + n)); cbn [andb]; try done.
  by rewrite byte_slice by lia.
Qed.

(** C13: what was written with [W25QXX_Write] is what [W25QXX_Read] returns. *)
Theorem flash_write_read_roundtrip s pBuffer WriteAddr n :
  flash_ready s → Forall is_byte pBuffer → 0 ≤ n < 65536 → n ≤ zlen pBuffer →
  0 ≤ WriteAddr < flash_top s → WriteAddr + n ≤ flash_top s →
  ∃ s', (W25QXX_Write pBuffer WriteAddr n;; W25QXX_Read WriteAddr n) s
    = Ok s' (take (Z.to_nat n) pBuffer) ∧ flash_ready s'.
Proof.
  intros Hr Hb Hn Hl Ha Hend.
  destruct (W25QXX_Write_ok s pBuffer WriteAddr n) as (s1 & E1 & H1); try done.
  rewrite (bind_ok _ _ _ _ _ E1). pose proof (now_holds_top _ _ _ H1) as Ht1.
  destruct (W25QXX_Read_ok s1 WriteAddr n) as (s2 & E2 & H2 & _); [apply H1|lia..|].
  exists s2. split; [|apply H2]. rewrite E2. f_equal. apply byte_eq.
  - rewrite zlen_map_seqZ, zlen_take by lia. done.
  - rewrite zlen_map_seqZ by lia. intros i Hi. rewrite byte_map_seqZ, byte_take by lia.
    destruct H1 as (_ & _ & ->). unfold written, at_range. rewrite zlen_slice by lia.
    rewrite (proj2 (Z.leb_le _ _)), (proj2 (Z.ltb_lt _ _)) by lia. cbn [andb].
    rewrite byte_slice by lia. f_equal. lia.
Qed.

(** ** Initialisation *)

Lemma id_of_bytes high low :
  is_byte high → is_byte low → u16 (Z.lor (u16 (Z.lor 0 (Z.shiftl high 8))) low) = 256 * high + low.
Proof.
  intros Hh Hl. unfold is_byte in *. rewrite Z.lor_0_l, Z.shiftl_mul_pow2 by lia.
  rewrite (u16_small (high * 2 ^ 8)) by lia.
  assert (E : Z.lor (high * 2 ^ 8) low = high * 2 ^ 8 + low).
  { symmetry. rewrite <- Z.lxor_lor, Z.add_nocarry_lxor; [done| |]; apply Z.bits_inj'; intros k Hk;
      rewrite Z.land_spec, Z.bits_0; destruct (Z.ltb_spec k 8);
      first [by rewrite Z.mul_pow2_bits_low | rewrite (bits_high low 8) by (change (2 ^ 8) with 256; lia); apply andb_false_r]. }
  rewrite E, u16_small by lia. lia.
Qed.

(** A frame of a few bytes, byte by byte. *)
Lemma cs_spi_frame bs s :
  W25QXX_CS true (after_xfers bs (set_fl_chip (chip_select false (fl_chip s)) s)) = Ok (after_frame bs s) tt.
Proof. unfold W25QXX_CS, modify. f_equal. apply select_xfers. Qed.

Lemma W25QXX_ReadID_ok s :
  nor_idle (fl_chip s) → nor_busy (fl_chip s) = 0%nat →
  ∃ c', W25QXX_ReadID s = Ok (set_fl_chip c' s) nor_id ∧ nor_same (fl_chip s) c' ∧ nor_busy c' = 0%nat.
Proof.
  intros Hi Hb. destruct (nor_identify _ Hi Hb) as (r1 & r2 & r3 & r4 & high & low & c' & E & Hh & Hl & Hid & Hs & Hb').
  exists c'. split; [|done]. unfold W25QXX_ReadID. erewrite bind_ok by reflexivity.
  do 6 (erewrite bind_ok by apply spi_ok). rewrite !after_xfers_app; cbn [app]. cbv zeta.
  erewrite bind_ok by apply cs_spi_frame. unfold frame in E. cbn [xfers] in E.
  unfold mret, ST_ret, after_frame, after_xfers, frame. cbn [xfers fl_chip set_fl_chip].
  destruct (chip_xfer 144 _) as [a1 c1]. destruct (chip_xfer 0 c1) as [a2 c2].
  destruct (chip_xfer 0 c2) as [a3 c3]. destruct (chip_xfer 0 c3) as [a4 c4]. cbn [fst snd fl_chip set_fl_chip].
  destruct (chip_xfer 255 c4) as [a5 c5]. cbn [fst snd fl_chip set_fl_chip].
  destruct (chip_xfer 255 c5) as [a6 c6]. cbn [fst snd]. simplify_eq.
  by rewrite id_of_bytes, Hid.
Qed.

Lemma W25QXX_ReadSR3_ok s :
  nor_idle (fl_chip s) → nor_busy (fl_chip s) = 0%nat →
  ∃ sr c', W25QXX_ReadSR 3 s = Ok (set_fl_chip c' s) sr ∧
    Z.land sr 1 = (if nor_four (fl_chip s) then 1 else 0) ∧ nor_same (fl_chip s) c' ∧ nor_busy c' = 0%nat.
Proof.
  intros Hi Hb. destruct (nor_mode _ Hi Hb) as (r & sr & c' & E & Hsr & Hs & Hb').
  exists sr, c'. split; [|done]. unfold W25QXX_ReadSR. cbn [Z.eqb Pos.eqb].
  erewrite bind_ok by reflexivity. do 2 (erewrite bind_ok by apply spi_ok). rewrite !after_xfers_app; cbn [app].
  erewrite bind_ok by apply cs_spi_frame. unfold frame in E. cbn [xfers] in E.
  unfold mret, ST_ret, after_frame, after_xfers, frame. cbn [xfers fl_chip set_fl_chip].
  destruct (chip_xfer W25X_ReadStatusReg3 _) as [a1 c1]. cbn [fst snd fl_chip set_fl_chip].
  destruct (chip_xfer 255 c1) as [a2 c2]. cbn [fst snd]. by simplify_eq.
Qed.

(** [W25QXX_Init] identifies the chip, puts a W25Q256 into four-byte mode,
    and leaves the driver ready with the contents of the chip untouched; any
    other chip must come up in three-byte mode. *)
Theorem W25QXX_Init_spec s :
  nor_idle (fl_chip s) → nor_busy (fl_chip s) = 0%nat → zlen (fl_buffer s) = 4096 →
  nor_id = W25Q256 ∨ nor_four (fl_chip s) = false →
  ∃ s', W25QXX_Init s = Ok s' tt ∧ flash_ready s' ∧ fl_type s' = nor_id ∧
    ∀ x, flash_mem s' x = flash_mem s x.
Proof.
  intros Hi Hb Hbuf Hmode. destruct (nor_nobody _ 255 Hi Hb) as ((Hi1 & Hf1 & Hm1) & Hb1).
  set (s1 := after_xfers [255] (set_fl_chip (chip_select true (fl_chip s)) s)).
  assert (E1 : fl_chip s1 = snd (chip_xfer 255 (chip_select true (fl_chip s)))).
  { unfold s1, after_xfers. cbn. by destruct (chip_xfer 255 _). }
  rewrite <- E1 in Hi1, Hf1, Hm1, Hb1.
  destruct (W25QXX_ReadID_ok s1 Hi1 Hb1) as (c2 & E2 & (Hi2 & Hf2 & Hm2) & Hb2).
  set (s2 := set_fl_type nor_id (set_fl_chip c2 s1)).
  assert (Hstart : W25QXX_Init s = (if nor_id =? W25Q256 then
    temp ← W25QXX_ReadSR 3;
    if Z.land temp 1 =? 0 then
      W25QXX_CS false;; SPI1_ReadWriteByte W25X_Enable4ByteAddr;; W25QXX_CS true
    else mret () else mret ()) s2).
  { unfold W25QXX_Init. erewrite bind_ok by reflexivity. erewrite bind_ok by apply spi_ok.
    fold s1. rewrite (bind_ok _ _ _ _ _ E2). by erewrite bind_ok by reflexivity. }
  rewrite Hstart. destruct (Z.eqb_spec nor_id W25Q256) as [Hid|Hid].
  - destruct (W25QXX_ReadSR3_ok s2 Hi2 Hb2) as (sr & c3 & E3 & Hsr & (Hi3 & Hf3 & Hm3) & Hb3).
    rewrite (bind_ok _ _ _ _ _ E3), Hsr. change (fl_chip s2) with c2 in *.
    destruct (nor_four c2) eqn:Hf; cbn [Z.eqb].
    + exists (set_fl_chip c3 s2). split; [done|]. split; [split; try done|split; [done|]].
      * cbn. by rewrite Hf3, Hid.
      * intros x. unfold flash_mem. cbn. by rewrite Hm3, Hm2, Hm1.
    + destruct (nor_enter_four _ Hi3 Hb3) as (Hi4 & Hf4 & Hb4 & Hm4).
      exists (after_frame [W25X_Enable4ByteAddr] (set_fl_chip c3 s2)).
      split; [|split; [split; try done|split; [done|]]].
      * erewrite bind_ok by reflexivity. erewrite bind_ok by apply spi_ok. apply cs_spi_frame.
      * unfold after_frame. cbn [fl_chip set_fl_chip fl_type]. rewrite Hf4. cbn. by rewrite Hid.
      * intros x. unfold flash_mem, after_frame. cbn [fl_chip set_fl_chip]. by rewrite Hm4, Hm3, Hm2, Hm1.
  - exists s2. split; [done|]. split; [split; try done|split; [done|]].
    + cbn. rewrite Hf2, Hf1, (proj2 (Z.eqb_neq _ _) Hid). by destruct Hmode.
    + intros x. unfold flash_mem. cbn. by rewrite Hm2, Hm1.
Qed.
End commands.
