(* ===== verification/FlashChipModel.v ===== *)
(** * A W25Q chip

    A concrete chip that behaves as [NorFlash] asks, at the level of the bytes
    on the bus: it collects the bytes of a frame and carries the command out
    when it is deselected. It shows that the hypotheses of [SpiFlashSpec] can
    hold, and its theorems are applied to it. *)

From Stdlib Require Import ZArith Lia.
From stdpp Require Import base list list_numbers.
From S2P Require Import RTThread.
From S2P Require Import Prelude.
From S2P Require Import Bytes.
From S2P Require Import SpiFlash.
From S2P Require Import SpiFlashSpec.

Record w25q : Type := mk_w25q {
  wq_mem : Z → Z;
  wq_four : bool;
  wq_wel : bool;
  wq_busy : nat;
  wq_asleep : bool;
  wq_selected : bool;
  wq_rx : list Z }.
Definition set_wq_mem x c := mk_w25q x (wq_four c) (wq_wel c) (wq_busy c) (wq_asleep c) (wq_selected c) (wq_rx c).
Definition set_wq_four x c := mk_w25q (wq_mem c) x (wq_wel c) (wq_busy c) (wq_asleep c) (wq_selected c) (wq_rx c).
Definition set_wq_wel x c := mk_w25q (wq_mem c) (wq_four c) x (wq_busy c) (wq_asleep c) (wq_selected c) (wq_rx c).
Definition set_wq_busy x c := mk_w25q (wq_mem c) (wq_four c) (wq_wel c) x (wq_asleep c) (wq_selected c) (wq_rx c).
Definition set_wq_asleep x c := mk_w25q (wq_mem c) (wq_four c) (wq_wel c) (wq_busy c) x (wq_selected c) (wq_rx c).
Definition set_wq_bus x y c := mk_w25q (wq_mem c) (wq_four c) (wq_wel c) (wq_busy c) (wq_asleep c) x y.

Definition WQ_SIZE : Z := 2 ^ 24.
(** Status reads for which a program or erase command keeps the chip busy. *)
Definition WQ_BUSY : nat := 3.

Definition decode (bs : list Z) : Z := fold_left (λ a b, a * 256 + b) bs 0.
Definition addr_len (c : w25q) : nat := if wq_four c then 4 else 3.

Definition wq_reply (c : w25q) : Z :=
  match wq_rx c with
  | cmd :: r =>
      if cmd =? W25X_ReadStatusReg1
      then (if Nat.eqb (wq_busy c) 0 then 0 else 1) + (if wq_wel c then 2 else 0)
      else if cmd =? W25X_ReadStatusReg3 then (if wq_four c then 1 else 0)
      else if cmd =? 144 then (if Nat.eqb (length r) 3 then 239 else 23)
      else if cmd =? W25X_ReadData then
        wq_mem c ((decode (take (addr_len c) r) + Z.of_nat (length r - addr_len c)) mod WQ_SIZE)
      else 255
  | [] => 255
  end.
Definition wq_poll (c : w25q) : w25q :=
  match wq_rx c with
  | cmd :: _ => if cmd =? W25X_ReadStatusReg1 then set_wq_busy (pred (wq_busy c)) c else c
  | [] => c
  end.

Definition wq_program (a : Z) (data : list Z) (m : Z → Z) (x : Z) : Z :=
  let i := (x - a) mod 256 in
  if (x / 256 =? a / 256) && (i <? zlen data) then Z.land (m x) (byte data i) else m x.
Definition wq_execute (c : w25q) : w25q :=
  match wq_rx c with
  | cmd :: r =>
      if cmd =? W25X_WriteEnable then set_wq_wel true c
      else if cmd =? W25X_WriteDisable then set_wq_wel false c
      else if cmd =? W25X_Enable4ByteAddr then set_wq_four true c
      else if cmd =? W25X_PowerDown then set_wq_asleep true c
      else if cmd =? W25X_ReleasePowerDown then set_wq_asleep false c
      else if wq_wel c && Nat.eqb (wq_busy c) 0 then
        let a := decode (take (addr_len c) r) mod WQ_SIZE in
        if cmd =? W25X_PageProgram then
          set_wq_busy WQ_BUSY (set_wq_wel false
            (set_wq_mem (wq_program a (drop (addr_len c) r) (wq_mem c)) c))
        else if cmd =? W25X_SectorErase then
          set_wq_busy WQ_BUSY (set_wq_wel false (set_wq_mem (erased (wq_mem c) (a / 4096)) c))
        else if cmd =? W25X_ChipErase then
          set_wq_busy WQ_BUSY (set_wq_wel false (set_wq_mem (λ _, 255) c))
        else c
      else c
  | [] => c
  end.

#[global] Instance w25q_chip : FlashChip w25q := {
  chip_select high c :=
    if (high : bool) then set_wq_bus false [] (if wq_selected c then wq_execute c else c)
    else set_wq_bus true [] c;
  chip_xfer b c :=
    if wq_selected c then (wq_reply c, set_wq_bus true (wq_rx c ++ [b]) (wq_poll c)) else (255, c);
  chip_polls := WQ_BUSY }.

#[global] Instance w25q_state : NorState w25q := {
  nor_size := WQ_SIZE;
  nor_id := W25Q128;
  nor_mem := wq_mem;
  nor_four := wq_four;
  nor_wel := wq_wel;
  nor_busy := wq_busy;
  nor_idle c := wq_selected c = false ∧ wq_asleep c = false ∧ (wq_busy c ≤ WQ_BUSY)%nat ∧
    ∀ x, is_byte (wq_mem c x) }.

(** ** Frames on this chip *)

Lemma xfers_rx bs c :
  wq_selected c = true → head (wq_rx c ++ bs) ≠ Some W25X_ReadStatusReg1 →
  snd (xfers bs c) = set_wq_bus true (wq_rx c ++ bs) c.
Proof.
  revert c. induction bs as [|b bs IH]; intros c Hs Hh.
  { destruct c; cbn in *. by rewrite app_nil_r, Hs. }
  cbn [xfers chip_xfer w25q_chip]. rewrite Hs.
  assert (Hp : wq_poll c = c).
  { unfold wq_poll. destruct (wq_rx c) as [|cmd r]; [done|]. simpl in Hh.
    destruct (Z.eqb_spec cmd W25X_ReadStatusReg1) as [->|]; done. }
  rewrite Hp. set (c1 := set_wq_bus true (wq_rx c ++ [b]) c).
  specialize (IH c1 eq_refl). cbn [c1 wq_rx set_wq_bus] in IH. rewrite <- app_assoc in IH. cbn [app] in IH.
  specialize (IH Hh). destruct (xfers bs c1). simpl in *. by rewrite IH.
Qed.
Lemma frame_execute bs c :
  wq_selected c = false → head bs ≠ Some W25X_ReadStatusReg1 →
  snd (frame bs c) = set_wq_bus false [] (wq_execute (set_wq_bus true bs c)).
Proof.
  intros Hs Hh. unfold frame. pose proof (xfers_rx bs (set_wq_bus true [] c) eq_refl Hh) as H.
  change (chip_select false c) with (set_wq_bus true [] c).
  destruct (xfers bs _) as [rs c']. simpl in *. by rewrite H.
Qed.

Lemma shiftr_byte a k : 0 ≤ k → 0 ≤ a → u8 (Z.shiftr a k) = (a / 2 ^ k) mod 256.
Proof. intros. unfold u8. by rewrite Z.shiftr_div_pow2. Qed.
Lemma decode_addr c a n :
  nor_addr c a n → 0 < n → take (addr_len c) (addr_bytes (wq_four c) a) = addr_bytes (wq_four c) a ∧
    length (addr_bytes (wq_four c) a) = addr_len c ∧ decode (addr_bytes (wq_four c) a) mod WQ_SIZE = a.
Proof.
  intros (H0 & _ & Ht & Hf) Hn. change (nor_size (C := w25q)) with WQ_SIZE in Ht. unfold WQ_SIZE in *.
  assert (Hb : (a / 2 ^ 16 mod 256 * 256 + a / 2 ^ 8 mod 256) * 256 + a mod 256 = a).
  { replace (a / 2 ^ 16) with (a / 2 ^ 8 / 256) by (rewrite Z.div_div by lia; done).
    pose proof (Z.div_mod a 256). pose proof (Z.div_mod (a / 2 ^ 8) 256).
    change (2 ^ 8) with 256 in *. assert (a / 256 / 256 < 256).
    { rewrite Z.div_div by lia. apply Z.div_lt_upper_bound; lia. }
    rewrite (Z.mod_small (a / 256 / 256)) by (split; [apply Z.div_pos; [apply Z.div_pos|]|]; lia). lia. }
  unfold addr_len, addr_bytes. destruct (wq_four c); cbn [app take length]; (split; [done|]); (split; [done|]);
    unfold decode; cbn [fold_left]; rewrite !shiftr_byte by lia; change (u8 a) with (a mod 256); rewrite ?Z.mul_0_l, ?Z.add_0_l.
  - rewrite (Z.div_small a (2 ^ 24)) by lia.
    rewrite Z.mod_0_l by lia. rewrite Z.mul_0_l, Z.add_0_l. rewrite Hb. apply Z.mod_small. lia.
  - rewrite Hb. apply Z.mod_small. lia.
Qed.

Lemma read_replies n c r :
  wq_selected c = true → wq_rx c = W25X_ReadData :: r → (addr_len c ≤ length r)%nat →
  fst (xfers (replicate n 255) c) =
  (λ i, wq_mem c ((decode (take (addr_len c) r) + i) mod WQ_SIZE)) <$>
    seqZ (Z.of_nat (length r - addr_len c)) (Z.of_nat n).
Proof.
  revert c r. induction n as [|n IH]; intros c r Hs Hr Hl; [done|].
  cbn [replicate xfers chip_xfer w25q_chip]. rewrite Hs.
  assert (Hp : wq_poll c = c) by (unfold wq_poll; by rewrite Hr). rewrite Hp, Hr.
  set (c1 := set_wq_bus true ((W25X_ReadData :: r) ++ [255]) c).
  assert (Ht : take (addr_len c) (r ++ [255]) = take (addr_len c) r) by (by rewrite take_app_le).
  specialize (IH c1 (r ++ [255]) eq_refl eq_refl). change (addr_len c1) with (addr_len c) in IH.
  rewrite length_app in IH. specialize (IH ltac:(simpl; lia)). rewrite Ht in IH.
  change (wq_mem c1) with (wq_mem c) in IH.
  rewrite seqZ_cons by lia. replace (Z.pred (Z.of_nat (S n))) with (Z.of_nat n) by lia.
  cbn [fmap list_fmap]. destruct (xfers (replicate n 255) c1) as [rs c2]. cbn [fst] in *.
  f_equal; [unfold wq_reply; by rewrite Hr|]. rewrite IH. do 2 f_equal. simpl. lia.
Qed.

(** Carrying a command out keeps the bytes bytes. *)
Lemma wq_program_byte a data m x :
  (∀ y, is_byte (m y)) → Forall is_byte data → is_byte (wq_program a data m x).
Proof.
  intros Hm Hd. unfold wq_program. cbv zeta. destruct (_ && _); [|done]. unfold is_byte.
  destruct (Hm x) as [? ?]. split.
  - apply Z.land_nonneg. by left.
  - change 256 with (2 ^ 8). apply bits_lt_pow2; [lia|apply Z.land_nonneg; by left|].
    intros k Hk. rewrite Z.land_spec, (bits_high (m x) 8) by (split; lia || done). done.
Qed.
Lemma erased_byte m p x : (∀ y, is_byte (m y)) → is_byte (erased m p x).
Proof. intros Hm. unfold erased. destruct (_ =? _); [done|apply Hm]. Qed.

(** Within a page the chip programs what [programmed] says. *)
Lemma wq_program_page a data m x :
  a mod 256 + zlen data ≤ 256 → wq_program a data m x = programmed m a data x.
Proof.
  intros Hp. unfold wq_program, programmed, at_range. cbv zeta. pose proof (zlen_nonneg data).
  pose proof (Z.div_mod a 256). pose proof (Z.mod_pos_bound a 256).
  pose proof (Z.div_mod x 256). pose proof (Z.mod_pos_bound x 256).
  destruct (Z.leb_spec a x), (Z.ltb_spec x (a + zlen data)); cbn [andb].
  - assert (x / 256 = a / 256) as -> by nia. rewrite Z.eqb_refl.
    rewrite Z.mod_small by lia. by rewrite (proj2 (Z.ltb_lt _ _)) by lia.
  - destruct (Z.eqb_spec (x / 256) (a / 256)); cbn [andb]; [|done].
    rewrite Z.mod_small by lia. by rewrite (proj2 (Z.ltb_ge _ _)) by lia.
  - destruct (Z.eqb_spec (x / 256) (a / 256)); cbn [andb]; [|done].
    replace ((x - a) mod 256) with (x - a + 256) by (rewrite <- (Z.mod_add _ 1), Z.mod_small; lia).
    by rewrite (proj2 (Z.ltb_ge _ _)) by lia.
  - lia.
Qed.

(** A program or erase command on a chip that may carry it out. *)
Definition wq_act (cmd : Z) (r : list Z) (c : w25q) : w25q :=
  let a := decode (take (addr_len c) r) mod WQ_SIZE in
  set_wq_busy WQ_BUSY (set_wq_wel false (set_wq_mem
    (if cmd =? W25X_PageProgram then wq_program a (drop (addr_len c) r) (wq_mem c)
     else if cmd =? W25X_SectorErase then erased (wq_mem c) (a / 4096)
     else λ _, 255) c)).
Lemma wq_execute_armed c cmd r :
  wq_rx c = cmd :: r → wq_wel c = true → wq_busy c = 0%nat →
  cmd = W25X_PageProgram ∨ cmd = W25X_SectorErase ∨ cmd = W25X_ChipErase →
  wq_execute c = wq_act cmd r c.
Proof. intros Hr Hw Hb Hc. unfold wq_execute. rewrite Hr, Hw, Hb. by destruct Hc as [-> | [-> | ->]]. Qed.

#[global] Instance w25q_flash : NorFlash w25q.
Proof.
  split.
  - cbn [nor_size w25q_state]. unfold WQ_SIZE. split; [lia|reflexivity].
  - intros c a (_ & _ & _ & Hm). apply Hm.
  - intros c (_ & _ & Hb & _). exact Hb.
  - intros c (Hs & Ha & Hb & Hm).
    exists 255, ((if Nat.eqb (wq_busy c) 0 then 0 else 1) + (if wq_wel c then 2 else 0)),
      (set_wq_bus false [] (set_wq_busy (pred (wq_busy c)) c)).
    split; [|split; [|split; [|done]]].
    + unfold frame. cbn. by destruct (wq_wel c), (Nat.eqb (pred (wq_busy c)) 0).
    + change (nor_busy c) with (wq_busy c). by destruct (Nat.eqb (wq_busy c) 0), (wq_wel c).
    + split; [|done]. cbn. split; [done|]. split; [done|]. split; [lia|done].
  - intros c b (Hs & Ha & Hb & Hm) H0. cbv zeta. cbn. by rewrite Hs.
  - intros c (Hs & Ha & Hb & Hm) H0. exists 255, 23, 23, 23, 239, 23, (set_wq_bus false [] c).
    split; [|done]. unfold frame. cbn. by destruct (wq_wel c), (wq_busy c).
  - intros c (Hs & Ha & Hb & Hm) H0. exists 255, (if wq_four c then 1 else 0), (set_wq_bus false [] c).
    split; [|split; [by cbn; destruct (wq_four c)|done]].
    unfold frame. cbn. by destruct (wq_wel c), (wq_busy c).
  - intros c (Hs & Ha & Hb & Hm) H0. cbv zeta. rewrite frame_execute by done. cbn. done.
  - intros c (Hs & Ha & Hb & Hm) H0. cbv zeta. rewrite frame_execute by done. cbn. done.
  - intros c a n (Hs & Ha & Hb & Hm) H0 Had. cbv zeta.
    set (h := W25X_ReadData :: addr_bytes (nor_four c) a).
    assert (Hend : snd (frame (h ++ replicate n 255) c) = set_wq_bus false [] c).
    { rewrite frame_execute by done. unfold h, wq_execute. cbn. by destruct (wq_wel c), (wq_busy c). }
    unfold frame in *. rewrite xfers_app in *. change (chip_select false c) with (set_wq_bus true [] c) in *.
    pose proof (xfers_rx h (set_wq_bus true [] c) eq_refl) as Hrx.
    pose proof (xfers_length h (set_wq_bus true [] c)) as Hlen.
    destruct (xfers h (set_wq_bus true [] c)) as [ra c1]. cbn [fst snd] in Hrx, Hlen.
    specialize (Hrx ltac:(done)). subst c1.
    pose proof (read_replies n (set_wq_bus true (wq_rx (set_wq_bus true [] c) ++ h) (set_wq_bus true [] c))
      (addr_bytes (nor_four c) a) eq_refl eq_refl) as Hrr.
    change (addr_len (set_wq_bus true (wq_rx (set_wq_bus true [] c) ++ h) (set_wq_bus true [] c)))
      with (addr_len c) in Hrr.
    destruct (xfers (replicate n 255) _) as [rb c2]. cbn [fst snd] in Hend, Hrr. rewrite Hend.
    split; [|split; [done|done]]. rewrite <- Hlen, drop_app_length.
    assert (Hal : length (addr_bytes (nor_four c) a) = addr_len c)
      by (unfold addr_bytes, addr_len; cbn [nor_four w25q_state]; by destruct (wq_four c)).
    rewrite Hrr by lia. destruct n as [|n]; [done|].
    destruct (decode_addr c a _ Had) as (Ht & _ & Hd); [lia|].
    rewrite Hal, Nat.sub_diag. change (nor_four c) with (wq_four c). rewrite Ht.
    apply byte_eq; [by rewrite !zlen_map_seqZ by lia|]. rewrite zlen_map_seqZ by lia.
    intros i Hi. rewrite !byte_map_seqZ by lia. destruct Had as (? & _ & Hsz & _).
    change (nor_size (C := w25q)) with WQ_SIZE in Hsz.
    change (wq_mem c ((decode (addr_bytes (wq_four c) a) + (Z.of_nat 0 + i)) mod WQ_SIZE) = wq_mem c (a + i)).
    f_equal. rewrite <- Zplus_mod_idemp_l, Hd. apply Z.mod_small. lia.
  - intros c a data (Hs & Ha & Hb & Hm) H0 Hw Had Hpage Hdata. cbv zeta.
    change (nor_four c) with (wq_four c). rewrite frame_execute by done.
    assert (Hal : length (addr_bytes (wq_four c) a) = addr_len c)
      by (unfold addr_bytes, addr_len; by destruct (wq_four c)).
    rewrite (wq_execute_armed _ W25X_PageProgram (addr_bytes (wq_four c) a ++ data)) by (done || tauto). cbn -[decode addr_bytes].
    change (addr_len _) with (addr_len c). rewrite <- Hal, take_app_length, drop_app_length.
    split; [split; [done|split; [done|split; [lia|]]]|split; [done|]].
    + intros x. by apply wq_program_byte.
    + intros x. destruct data as [|b data].
      { unfold wq_program, programmed. cbv zeta. rewrite zlen_nil.
        rewrite (proj2 (Z.ltb_ge _ _)), andb_false_r by (apply Z.mod_pos_bound; lia).
        unfold at_range. destruct (Z.leb_spec a x), (Z.ltb_spec x (a + 0)); try done; lia. }
      destruct (decode_addr c a _ Had) as (_ & _ & Hd); [rewrite zlen_cons; pose proof (zlen_nonneg data); lia|].
      rewrite Hd. by apply wq_program_page.
  - intros c a (Hs & Ha & Hb & Hm) H0 Hw Had. cbv zeta.
    change (nor_four c) with (wq_four c). rewrite frame_execute by done.
    rewrite (wq_execute_armed _ W25X_SectorErase (addr_bytes (wq_four c) a)) by (done || tauto). cbn -[decode addr_bytes].
    change (addr_len _) with (addr_len c). destruct (decode_addr c a _ Had) as (-> & _ & ->); [lia|].
    split; [split; [done|split; [done|split; [lia|]]]|split; [done|done]].
    intros x. by apply erased_byte.
  - intros c (Hs & Ha & Hb & Hm) H0 Hw. cbv zeta. rewrite frame_execute by done.
    rewrite (wq_execute_armed _ W25X_ChipErase []) by (done || tauto). cbn -[decode].
    split; [split; [done|split; [done|split; [lia|]]]|split; [done|done]]. intros x. done.
Qed.

(** ** The driver on this chip *)

Definition fresh_chip : w25q := mk_w25q (λ x, x mod 251) false false 0 false false [].
Definition fresh_flash : flash_state w25q := mk_flash W25Q128 (replicate 4096 0) fresh_chip.
Definition some_text : list Z := [69; 120; 112; 108; 111; 114; 101; 114; 32; 83; 84; 77; 51; 50].

Lemma fresh_ready : flash_ready fresh_flash.
Proof.
  split; [|done|done|by vm_compute]. split; [done|]. split; [done|]. split; [cbn; lia|].
  intros x. cbn. unfold is_byte. pose proof (Z.mod_pos_bound x 251). lia.
Qed.
Lemma some_text_bytes : Forall is_byte some_text.
Proof. unfold some_text, is_byte. repeat (apply Forall_cons; split; [lia|]). by apply Forall_nil. Qed.
Lemma fresh_top : flash_top fresh_flash = 2 ^ 24.
Proof. reflexivity. Qed.

(** Fourteen bytes, across a page and a sector that are not erased. *)
Lemma W25QXX_Write_spec_witness :
  ∃ s', W25QXX_Write some_text 4090 14 fresh_flash = Ok s' tt ∧ flash_ready s' ∧
    flash_mem s' 4090 = 69 ∧ flash_mem s' 4104 = 4104 mod 251.
Proof.
  destruct (W25QXX_Write_spec fresh_flash some_text 4090 14) as (s' & H1 & H2 & _ & H3);
    [exact fresh_ready|exact some_text_bytes|lia|vm_compute; discriminate|
     rewrite fresh_top; lia|rewrite fresh_top; lia|].
  exists s'. split; [exact H1|]. split; [exact H2|]. split; [rewrite H3|rewrite H3]; reflexivity.
Defined.

Lemma flash_write_read_roundtrip_witness :
  ∃ s', (W25QXX_Write some_text 4090 14;; W25QXX_Read 4090 14) fresh_flash = Ok s' some_text.
Proof.
  destruct (flash_write_read_roundtrip fresh_flash some_text 4090 14) as (s' & H1 & _);
    [exact fresh_ready|exact some_text_bytes|lia|vm_compute; discriminate|
     rewrite fresh_top; lia|rewrite fresh_top; lia|].
  exists s'. exact H1.
Defined.

Lemma W25QXX_Init_spec_witness :
  ∃ s', W25QXX_Init (set_fl_type W25Q256 fresh_flash) = Ok s' tt ∧ flash_ready s' ∧ fl_type s' = W25Q128.
Proof.
  destruct (W25QXX_Init_spec (set_fl_type W25Q256 fresh_flash)) as (s' & H1 & H2 & H3 & _);
    [apply fresh_ready|done|by vm_compute|by right|].
  exists s'. exact (conj H1 (conj H2 H3)).
Defined.
