(* ===== verification/Jsmn.v ===== *)
(** * The JSON parser ([jsmn.c], with [JSMN_PARENT_LINKS] and without [JSMN_STRICT])

    The parser fills a caller's array of tokens, each a range of the text with
    the index of its parent. A state holds the fields of [jsmn_parser] and the
    array [tokens] points to ([None] for [NULL]); the text is the list of the
    bytes it can be read at. Reading or writing outside either is [FBounds]. *)

From Stdlib Require Import ZArith Lia.
From stdpp Require Import base list.
From S2P Require Import RTThread.
From S2P Require Import Prelude.
From S2P Require Import Bytes.

Inductive jsmntype_t : Set :=
  | JSMN_UNDEFINED
  | JSMN_OBJECT
  | JSMN_ARRAY
  | JSMN_STRING
  | JSMN_PRIMITIVE.
#[global] Instance jsmntype_t_eq_dec : EqDecision jsmntype_t.
Proof. solve_decision. Defined.

Definition JSMN_ERROR_NOMEM : Z := -1.
Definition JSMN_ERROR_INVAL : Z := -2.
Definition JSMN_ERROR_PART : Z := -3.

Record jsmntok_t : Set := mk_tok {
  tk_type : jsmntype_t;
  tk_start : Z;
  tk_end : Z;
  tk_size : Z;
  tk_parent : Z }.
#[global] Instance jsmntok_t_eq_dec : EqDecision jsmntok_t.
Proof. solve_decision. Defined.
Definition set_tk_type x (t : jsmntok_t) := mk_tok x (tk_start t) (tk_end t) (tk_size t) (tk_parent t).
Definition set_tk_start x (t : jsmntok_t) := mk_tok (tk_type t) x (tk_end t) (tk_size t) (tk_parent t).
Definition set_tk_end x (t : jsmntok_t) := mk_tok (tk_type t) (tk_start t) x (tk_size t) (tk_parent t).
Definition set_tk_size x (t : jsmntok_t) := mk_tok (tk_type t) (tk_start t) (tk_end t) x (tk_parent t).
Definition set_tk_parent x (t : jsmntok_t) := mk_tok (tk_type t) (tk_start t) (tk_end t) (tk_size t) x.

Record jsmn_parser : Set := mk_parser {
  pos : Z;
  toknext : Z;
  toksuper : Z;
  tokens : option (list jsmntok_t) }.
Definition set_pos x (s : jsmn_parser) := mk_parser x (toknext s) (toksuper s) (tokens s).
Definition set_toknext x (s : jsmn_parser) := mk_parser (pos s) x (toksuper s) (tokens s).
Definition set_toksuper x (s : jsmn_parser) := mk_parser (pos s) (toknext s) x (tokens s).
Definition set_tokens x (s : jsmn_parser) := mk_parser (pos s) (toknext s) (toksuper s) x.

Notation J := (ST jsmn_parser) (only parsing).

Definition jsmn_init (s : jsmn_parser) : jsmn_parser :=
  mk_parser 0 0 (-1) (tokens s).

(** ** Memory accesses *)

(** [js[i]] *)
Definition js_at (js : list Z) (i : Z) : J Z :=
  if (0 <=? i) && (i <? zlen js) then mret (byte js i) else fail FBounds.
Definition token_at (i : Z) : J jsmntok_t :=
  ts ← gets tokens;
  match ts with
  | None => fail FNull
  | Some ts =>
      if i <? 0 then fail FBounds else from_option_or FBounds (ts !! Z.to_nat i)
  end.
(** [tokens[i]], changed by [f] *)
Definition token_update (i : Z) (f : jsmntok_t → jsmntok_t) : J unit :=
  t ← token_at i;
  ts ← gets tokens;
  modify (set_tokens ((λ ts, <[Z.to_nat i := f t]> ts) <$> ts)).
Definition pos_add (d : Z) : J unit := modify (λ s, set_pos (u32 (pos s + d)) s).

(** [parser->pos < len && js[parser->pos] != '\0'] *)
Definition in_text (js : list Z) (len : Z) : J bool :=
  p ← gets pos;
  if p <? len then c ← js_at js p; mret (negb (c =? 0)) else mret false.

(** ** Tokens *)

Definition jsmn_alloc_token (num_tokens : Z) : J (option Z) :=
  next ← gets toknext;
  if num_tokens <=? next then mret None
  else
    modify (set_toknext (u32 (next + 1)));;
    token_update next (λ t, set_tk_parent (-1) (set_tk_size 0 (set_tk_end (-1) (set_tk_start (-1) t))));;
    mret (Some next).

Definition jsmn_fill_token (token : Z) (type : jsmntype_t) (start end_ : Z) : J unit :=
  token_update token (λ t, set_tk_size 0 (set_tk_end end_ (set_tk_start start (set_tk_type type t)))).

(** ** Primitives and strings *)

(** [: \t \r \n space , ] }] *)
Definition ends_primitive (c : Z) : bool :=
  (c =? 58) || (c =? 9) || (c =? 13) || (c =? 10) || (c =? 32) || (c =? 44) || (c =? 93) || (c =? 125).

(** The loop over the characters; [Some r] when the function returns [r]. *)
Fixpoint primitive_loop (fuel : nat) (js : list Z) (len start : Z) : J (option Z) :=
  match fuel with
  | O => fail FHang
  | S fuel' =>
      more ← in_text js len;
      if negb more then mret None
      else
        p ← gets pos;
        c ← js_at js p;
        if ends_primitive c then mret None
        else if (c <? 32) || (127 <=? c) then
          modify (set_pos (u32 start));;
          mret (Some JSMN_ERROR_INVAL)
        else
          pos_add 1;;
          primitive_loop fuel' js len start
  end.

Definition jsmn_parse_primitive (js : list Z) (len num_tokens : Z) : J Z :=
  p ← gets pos;
  let start := s32 p in
  r ← primitive_loop (S (Z.to_nat len)) js len start;
  match r with
  | Some r => mret r
  | None =>
      ts ← gets tokens;
      match ts with
      | None => pos_add (-1);; mret 0
      | Some _ =>
          token ← jsmn_alloc_token num_tokens;
          match token with
          | None => modify (set_pos (u32 start));; mret JSMN_ERROR_NOMEM
          | Some token =>
              p ← gets pos;
              jsmn_fill_token token JSMN_PRIMITIVE start (s32 p);;
              super ← gets toksuper;
              token_update token (set_tk_parent super);;
              pos_add (-1);;
              mret 0
          end
      end
  end.

Definition is_hex (c : Z) : bool :=
  ((48 <=? c) && (c <=? 57)) || ((65 <=? c) && (c <=? 70)) || ((97 <=? c) && (c <=? 102)).

(** The loop over the digits of an escaped [uXXXX]: [true] when it ends, [false]
    at a character that is not a digit. *)
Fixpoint hex_loop (n : nat) (js : list Z) (len : Z) : J bool :=
  match n with
  | O => mret true
  | S n' =>
      more ← in_text js len;
      if negb more then mret true
      else
        p ← gets pos;
        c ← js_at js p;
        if negb (is_hex c) then mret false
        else
          pos_add 1;;
          hex_loop n' js len
  end.

(** The characters a backslash may precede: quote, slash, backslash and [bfrnt]. *)
Definition simple_escape (c : Z) : bool :=
  (c =? 34) || (c =? 47) || (c =? 92) || (c =? 98) || (c =? 102) || (c =? 114) || (c =? 110) || (c =? 116).

(** The character after a backslash; [false] when it is an error. *)
Definition parse_escape (js : list Z) (len : Z) : J bool :=
  pos_add 1;;
  p ← gets pos;
  c ← js_at js p;
  if simple_escape c then mret true
  else if c =? 117 then
    pos_add 1;;
    ok ← hex_loop 4 js len;
    if negb ok then mret false
    else
      pos_add (-1);;
      mret true
  else mret false.

Definition close_string (start num_tokens : Z) : J Z :=
  ts ← gets tokens;
  match ts with
  | None => mret 0
  | Some _ =>
      token ← jsmn_alloc_token num_tokens;
      match token with
      | None => modify (set_pos (u32 start));; mret JSMN_ERROR_NOMEM
      | Some token =>
          p ← gets pos;
          jsmn_fill_token token JSMN_STRING (s32 (start + 1)) (s32 p);;
          super ← gets toksuper;
          token_update token (set_tk_parent super);;
          mret 0
      end
  end.

Fixpoint string_loop (fuel : nat) (js : list Z) (len num_tokens start : Z) : J Z :=
  match fuel with
  | O => fail FHang
  | S fuel' =>
      more ← in_text js len;
      if negb more then
        modify (set_pos (u32 start));;
        mret JSMN_ERROR_PART
      else
        p ← gets pos;
        c ← js_at js p;
        if c =? 34 then close_string start num_tokens
        else
          ok ← (if (c =? 92) && (u32 (p + 1) <? len) then parse_escape js len else mret true);
          if negb ok then
            modify (set_pos (u32 start));;
            mret JSMN_ERROR_INVAL
          else
            pos_add 1;;
            string_loop fuel' js len num_tokens start
  end.

Definition jsmn_parse_string (js : list Z) (len num_tokens : Z) : J Z :=
  p ← gets pos;
  let start := s32 p in
  pos_add 1;;
  string_loop (S (Z.to_nat len)) js len num_tokens start.

(** ** The parser *)

(** One step of the loop: [inl r] when the function returns [r], [inr count]
    when the loop goes on. *)
Notation step := (Z + Z)%type (only parsing).

Definition bracket_type (c : Z) : jsmntype_t :=
  if (c =? 123) || (c =? 125) then JSMN_OBJECT else JSMN_ARRAY.
Definition is_open (t : jsmntok_t) : bool := negb (tk_start t =? -1) && (tk_end t =? -1).

Definition parse_open (c num_tokens count : Z) : J step :=
  let count := s32 (count + 1) in
  ts ← gets tokens;
  match ts with
  | None => mret (inr count)
  | Some _ =>
      token ← jsmn_alloc_token num_tokens;
      match token with
      | None => mret (inl JSMN_ERROR_NOMEM)
      | Some token =>
          super ← gets toksuper;
          when (negb (super =? -1))
            (token_update super (λ t, set_tk_size (s32 (tk_size t + 1)) t);;
             token_update token (set_tk_parent super));;
          token_update token (set_tk_type (bracket_type c));;
          p ← gets pos;
          token_update token (set_tk_start (s32 p));;
          next ← gets toknext;
          modify (set_toksuper (s32 (u32 (next - 1))));;
          mret (inr count)
      end
  end.

(** The walk along the parents from token [i]: [Some r] when the function
    returns [r]. *)
Fixpoint close_loop (fuel : nat) (type : jsmntype_t) (i : Z) : J (option Z) :=
  match fuel with
  | O => fail FHang
  | S fuel' =>
      token ← token_at i;
      if is_open token then
        if negb (bool_decide (tk_type token = type)) then mret (Some JSMN_ERROR_INVAL)
        else
          p ← gets pos;
          token_update i (set_tk_end (s32 (u32 (p + 1))));;
          modify (set_toksuper (tk_parent token));;
          mret None
      else if tk_parent token =? -1 then
        super ← gets toksuper;
        if negb (bool_decide (tk_type token = type)) || (super =? -1) then mret (Some JSMN_ERROR_INVAL)
        else mret None
      else close_loop fuel' type (tk_parent token)
  end.

Definition parse_close (c count : Z) : J step :=
  ts ← gets tokens;
  match ts with
  | None => mret (inr count)
  | Some _ =>
      next ← gets toknext;
      if next <? 1 then mret (inl JSMN_ERROR_INVAL)
      else
        r ← close_loop (S (Z.to_nat next)) (bracket_type c) (next - 1);
        match r with
        | Some r => mret (inl r)
        | None => mret (inr count)
        end
  end.

(** What follows a call that parses a string or a primitive. *)
Definition after_scalar (r count : Z) : J step :=
  if r <? 0 then mret (inl r)
  else
    super ← gets toksuper;
    ts ← gets tokens;
    (if negb (super =? -1) && bool_decide (is_Some ts)
     then token_update super (λ t, set_tk_size (s32 (tk_size t + 1)) t) else mret ());;
    mret (inr (s32 (count + 1))).

Definition parse_comma (count : Z) : J step :=
  ts ← gets tokens;
  super ← gets toksuper;
  (if bool_decide (is_Some ts) && negb (super =? -1) then
     t ← token_at super;
     if negb (bool_decide (tk_type t = JSMN_ARRAY)) && negb (bool_decide (tk_type t = JSMN_OBJECT))
     then modify (set_toksuper (tk_parent t)) else mret ()
   else mret ());;
  mret (inr count).

Definition parse_char (c : Z) (js : list Z) (len num_tokens count : Z) : J step :=
  if (c =? 123) || (c =? 91) then parse_open c num_tokens count
  else if (c =? 125) || (c =? 93) then parse_close c count
  else if c =? 34 then
    r ← jsmn_parse_string js len num_tokens;
    after_scalar r count
  else if (c =? 9) || (c =? 13) || (c =? 10) || (c =? 32) then mret (inr count)
  else if c =? 58 then
    next ← gets toknext;
    modify (set_toksuper (s32 (u32 (next - 1))));;
    mret (inr count)
  else if c =? 44 then parse_comma count
  else
    r ← jsmn_parse_primitive js len num_tokens;
    after_scalar r count.

Fixpoint parse_loop (fuel : nat) (js : list Z) (len num_tokens count : Z) : J step :=
  match fuel with
  | O => fail FHang
  | S fuel' =>
      more ← in_text js len;
      if negb more then mret (inr count)
      else
        p ← gets pos;
        c ← js_at js p;
        r ← parse_char c js len num_tokens count;
        match r with
        | inl r => mret (inl r)
        | inr count =>
            pos_add 1;;
            parse_loop fuel' js len num_tokens count
        end
  end.

(** [for (i = n - 1; i >= 0; i--)]: is some token still open? *)
Fixpoint open_loop (n : nat) : J bool :=
  match n with
  | O => mret false
  | S n' =>
      t ← token_at (Z.of_nat n');
      if is_open t then mret true else open_loop n'
  end.

Definition jsmn_parse (js : list Z) (len num_tokens : Z) : J Z :=
  next ← gets toknext;
  r ← parse_loop (S (Z.to_nat len)) js len num_tokens (s32 next);
  match r with
  | inl r => mret r
  | inr count =>
      ts ← gets tokens;
      match ts with
      | None => mret count
      | Some _ =>
          next ← gets toknext;
          pending ← open_loop (Z.to_nat next);
          mret (if pending : bool then JSMN_ERROR_PART else count)
      end
  end.
