(* ===== verification/JsmnReference.v ===== *)
(** * A reference for [jsmn_parse]: a lexer and a builder of tokens

    The lexer works on the characters that remain to be parsed, by recursion on
    them, and the scanning loops of [jsmn.c] compute it without leaving the text.
    The builder appends or changes tokens in a list of exactly the tokens
    allocated, one lexeme at a time. *)

From Stdlib Require Import ZArith Lia.
From stdpp Require Import base list.
From S2P Require Import RTThread.
From S2P Require Import Prelude.
From S2P Require Import Bytes.
From S2P Require Import Jsmn.

(** ** Reference scanners *)

(** The number of characters of the primitive at the head of a text. *)
Fixpoint scan_primitive (l : list Z) : option nat :=
  match l with
  | [] => Some O
  | c :: l' =>
      if (c =? 0) || ends_primitive c then Some O
      else if (c <? 32) || (127 <=? c) then None
      else S <$> scan_primitive l'
  end.

(** Inside a string: plain text, after a backslash, or before [n] digits. *)
Inductive smode : Set :=
  | SText
  | SEsc
  | SHex (n : nat).

(** The number of characters before the closing quote, or the error. *)
Fixpoint scan_string (m : smode) (l : list Z) : Z + nat :=
  match l with
  | [] => inl JSMN_ERROR_PART
  | c :: l' =>
      let continue m' :=
        match scan_string m' l' with inl e => inl e | inr n => inr (S n) end in
      match m with
      | SEsc =>
          if simple_escape c then continue SText
          else if c =? 117 then continue (SHex 4)
          else inl JSMN_ERROR_INVAL
      | SHex (S n) =>
          if c =? 0 then inl JSMN_ERROR_PART
          else if is_hex c then continue (SHex n)
          else inl JSMN_ERROR_INVAL
      | SText | SHex O =>
          if c =? 0 then inl JSMN_ERROR_PART
          else if c =? 34 then inr O
          else if (c =? 92) && negb (bool_decide (l' = [])) then continue SEsc
          else continue SText
      end
  end.

(** ** Lexemes *)

Inductive lexeme : Set :=
  | LOpen (type : jsmntype_t)
  | LClose (type : jsmntype_t)
  | LString (n : nat)
  | LPrimitive (n : nat)
  | LColon
  | LComma
  | LBlank.
#[global] Instance lexeme_eq_dec : EqDecision lexeme.
Proof. solve_decision. Defined.

Definition width (lx : lexeme) : nat :=
  match lx with
  | LString n => S (S n)
  | LPrimitive n => n
  | _ => 1
  end.

(** The lexeme at the head of [c :: l]. *)
Definition scan (c : Z) (l : list Z) : Z + lexeme :=
  if (c =? 123) || (c =? 91) then inr (LOpen (bracket_type c))
  else if (c =? 125) || (c =? 93) then inr (LClose (bracket_type c))
  else if c =? 34 then
    match scan_string SText l with inl e => inl e | inr n => inr (LString n) end
  else if (c =? 9) || (c =? 13) || (c =? 10) || (c =? 32) then inr LBlank
  else if c =? 58 then inr LColon
  else if c =? 44 then inr LComma
  else
    match scan_primitive (c :: l) with
    | None => inl JSMN_ERROR_INVAL
    | Some n => inr (LPrimitive n)
    end.

(** ** What remains of a text *)

Definition remaining (js : list Z) (len p : Z) : list Z :=
  drop (Z.to_nat p) (take (Z.to_nat len) js).

Section text.
Context (js : list Z) (len : Z).
Hypothesis len_range : 0 ≤ len < 2 ^ 31.
Hypothesis len_js : len ≤ zlen js.

Lemma remaining_nil p : len ≤ p → remaining js len p = [].
Proof. intros. unfold remaining, zlen in *. apply drop_ge. rewrite length_take. lia. Qed.

Lemma remaining_cons p : 0 ≤ p < len →
  remaining js len p = byte js p :: remaining js len (p + 1).
Proof.
  intros. unfold remaining, byte, zlen in *.
  destruct (lookup_lt_is_Some_2 js (Z.to_nat p)) as [c Hc]; [lia|].
  rewrite nth_lookup, Hc, (drop_S _ c) by (rewrite lookup_take_lt by lia; done).
  simpl. do 2 f_equal. lia.
Qed.

Lemma remaining_drop p n : 0 ≤ p → 0 ≤ n →
  drop (Z.to_nat n) (remaining js len p) = remaining js len (p + n).
Proof. intros. unfold remaining. rewrite drop_drop. f_equal. lia. Qed.

Lemma length_remaining p : 0 ≤ p ≤ len → Z.of_nat (length (remaining js len p)) = len - p.
Proof. intros. unfold remaining, zlen in *. rewrite length_drop, length_take. lia. Qed.

Lemma js_at_ok i (s : jsmn_parser) : 0 ≤ i < len → js_at js i s = Ok s (byte js i).
Proof.
  intros. unfold js_at. rewrite (proj2 (Z.leb_le _ _)), (proj2 (Z.ltb_lt _ _)) by lia. done.
Qed.

Lemma in_text_end (s : jsmn_parser) : len ≤ pos s → in_text js len s = Ok s false.
Proof.
  intros. unfold in_text, gets, mbind, ST_bind. simpl.
  by rewrite (proj2 (Z.ltb_ge _ _)) by lia.
Qed.
Lemma in_text_at (s : jsmn_parser) : 0 ≤ pos s < len →
  in_text js len s = Ok s (negb (byte js (pos s) =? 0)).
Proof.
  intros. unfold in_text, gets, mbind, ST_bind. simpl.
  rewrite (proj2 (Z.ltb_lt _ _)) by lia. by rewrite js_at_ok.
Qed.

Lemma pos_add_ok d (s : jsmn_parser) : 0 ≤ pos s + d < 2 ^ 32 →
  pos_add d s = Ok (set_pos (pos s + d) s) tt.
Proof. intros. unfold pos_add, modify. by rewrite u32_small. Qed.

Lemma set_pos_pos p q (s : jsmn_parser) : set_pos p (set_pos q s) = set_pos p s.
Proof. done. Qed.
Lemma set_pos_id (s : jsmn_parser) : set_pos (pos s) s = s.
Proof. by destruct s. Qed.

(** ** The loops compute the reference scanners *)

Lemma primitive_loop_scan fuel start (s : jsmn_parser) :
  0 ≤ start ≤ pos s → pos s ≤ len → len - pos s < Z.of_nat fuel →
  primitive_loop fuel js len start s =
    match scan_primitive (remaining js len (pos s)) with
    | None => Ok (set_pos start s) (Some JSMN_ERROR_INVAL)
    | Some n => Ok (set_pos (pos s + Z.of_nat n) s) None
    end.
Proof.
  revert s. induction fuel as [|fuel IH]; intros s ???; [lia|]. simpl primitive_loop.
  destruct (decide (pos s = len)) as [E|Ep].
  { rewrite (bind_ok _ _ _ _ _ (in_text_end s ltac:(lia))), remaining_nil by lia.
    simpl. by rewrite Z.add_0_r, set_pos_id. }
  rewrite (bind_ok _ _ _ _ _ (in_text_at s ltac:(lia))), remaining_cons by lia. simpl.
  destruct (Z.eqb_spec (byte js (pos s)) 0) as [E0|E0]; simpl.
  { by rewrite Z.add_0_r, set_pos_id. }
  unfold gets at 1, mbind at 1, ST_bind at 1. simpl.
  rewrite (bind_ok _ _ _ _ _ (js_at_ok (pos s) s ltac:(lia))).
  destruct (ends_primitive _); simpl.
  { by rewrite Z.add_0_r, set_pos_id. }
  destruct ((_ <? 32) || _).
  { unfold modify, mbind, ST_bind. simpl. by rewrite u32_small by lia. }
  rewrite (bind_ok _ _ _ _ _ (pos_add_ok 1 s ltac:(lia))), IH by (simpl; lia). simpl.
  destruct (scan_primitive _) as [k|]; simpl; [|done]. rewrite set_pos_pos.
  do 2 f_equal. lia.
Qed.

(** A scan result that started [k] characters earlier. *)
Definition shift (k : Z) (r : Z + nat) : Z + nat :=
  match r with inl e => inl e | inr n => inr (Z.to_nat (k + Z.of_nat n)) end.
Lemma shift_0 r : shift 0 r = r.
Proof. destruct r as [|n]; unfold shift; [done|]. f_equal. lia. Qed.
Lemma shift_S k r : 0 ≤ k →
  match shift k r with inl e => inl e | inr n => inr (S n) end = shift (1 + k) r.
Proof. intros. destruct r as [|n]; simpl; [done|]. f_equal. lia. Qed.

Lemma hex_loop_scan n (s : jsmn_parser) : 0 ≤ pos s ≤ len →
  ∃ b p', hex_loop n js len s = Ok (set_pos p' s) b ∧ pos s ≤ p' ≤ len ∧
    scan_string (SHex n) (remaining js len (pos s)) =
      if b : bool then shift (p' - pos s) (scan_string SText (remaining js len p'))
      else inl JSMN_ERROR_INVAL.
Proof.
  revert s. induction n as [|n IH]; intros s ?.
  { exists true, (pos s). rewrite Z.sub_diag, shift_0, set_pos_id.
    split_and!; [done|lia..|]. by destruct (remaining _ _ _). }
  simpl hex_loop. destruct (decide (pos s = len)) as [E|Ep].
  { exists true, (pos s). rewrite Z.sub_diag, shift_0, set_pos_id.
    rewrite (bind_ok _ _ _ _ _ (in_text_end s ltac:(lia))), remaining_nil by lia.
    split_and!; [done|lia..|done]. }
  rewrite (bind_ok _ _ _ _ _ (in_text_at s ltac:(lia))), remaining_cons by lia. simpl.
  destruct (Z.eqb_spec (byte js (pos s)) 0) as [E0|E0]; simpl.
  { exists true, (pos s). rewrite Z.sub_diag, shift_0, set_pos_id.
    split_and!; [done|lia..|]. rewrite remaining_cons by lia. simpl. by rewrite E0. }
  unfold gets at 1, mbind at 1, ST_bind at 1. simpl.
  rewrite (bind_ok _ _ _ _ _ (js_at_ok (pos s) s ltac:(lia))).
  destruct (is_hex _); simpl.
  2:{ exists false, (pos s). rewrite set_pos_id. split_and!; [done|lia..|done]. }
  rewrite (bind_ok _ _ _ _ _ (pos_add_ok 1 s ltac:(lia))).
  destruct (IH (set_pos (pos s + 1) s)) as (b & p' & -> & Hp' & Hs); [simpl; lia|].
  simpl in Hp', Hs. exists b, p'. rewrite set_pos_pos. split_and!; [done|lia..|].
  rewrite Hs. destruct b; [|done]. rewrite shift_S by lia. f_equal. lia.
Qed.

#[local] Arguments hex_loop : simpl never.
Lemma parse_escape_scan (s : jsmn_parser) : 0 ≤ pos s → pos s + 1 < len →
  ∃ b p', parse_escape js len s = Ok (set_pos p' s) b ∧ pos s < p' ∧ (b = true → p' < len) ∧
    scan_string SEsc (remaining js len (pos s + 1)) =
      if b : bool then shift (p' - pos s) (scan_string SText (remaining js len (p' + 1)))
      else inl JSMN_ERROR_INVAL.
Proof.
  intros. unfold parse_escape.
  rewrite (bind_ok _ _ _ _ _ (pos_add_ok 1 s ltac:(lia))).
  unfold gets at 1, mbind at 1, ST_bind at 1. simpl.
  rewrite (bind_ok _ _ _ _ _ (js_at_ok (pos s + 1) (set_pos (pos s + 1) s) ltac:(lia))).
  rewrite remaining_cons by lia. simpl.
  destruct (simple_escape _).
  { exists true, (pos s + 1). split_and!; [done|lia|intros; first [done|lia]|].
    destruct (scan_string _ _); unfold shift; [done|]. f_equal. lia. }
  destruct (_ =? 117).
  2:{ exists false, (pos s + 1). split_and!; [done|lia|intros; first [done|lia]|done]. }
  erewrite bind_ok by (apply pos_add_ok; simpl; lia). simpl.
  destruct (hex_loop_scan 4 (set_pos (pos s + 1 + 1) (set_pos (pos s + 1) s)))
    as (b & q & Hq & Hb & Hs); [simpl; lia|].
  rewrite (bind_ok _ _ _ _ _ Hq). simpl in Hs, Hb. simpl. rewrite Hs.
  destruct b; simpl.
  - erewrite bind_ok by (apply pos_add_ok; simpl; lia). simpl.
    exists true, (q + -1). split_and!; [done|lia|intros; first [done|lia]|].
    replace (q + -1 + 1) with q by lia. rewrite shift_S by lia. f_equal. lia.
  - exists false, q. split_and!; [done|lia|intros; first [done|lia]|done].
Qed.

Lemma string_loop_scan fuel num_tokens start (s : jsmn_parser) :
  0 ≤ start ≤ pos s → pos s ≤ len → len - pos s < Z.of_nat fuel →
  string_loop fuel js len num_tokens start s =
    match scan_string SText (remaining js len (pos s)) with
    | inl e => Ok (set_pos start s) e
    | inr n => close_string start num_tokens (set_pos (pos s + Z.of_nat n) s)
    end.
Proof.
  revert s. induction fuel as [|fuel IH]; intros s ???; [lia|]. simpl string_loop.
  destruct (decide (pos s = len)) as [E|Ep].
  { rewrite (bind_ok _ _ _ _ _ (in_text_end s ltac:(lia))), remaining_nil by lia.
    unfold modify, mbind, ST_bind. simpl. by rewrite u32_small by lia. }
  rewrite (bind_ok _ _ _ _ _ (in_text_at s ltac:(lia))), remaining_cons by lia. simpl.
  destruct (Z.eqb_spec (byte js (pos s)) 0) as [E0|E0]; simpl.
  { unfold modify, mbind, ST_bind. simpl. by rewrite u32_small by lia. }
  unfold gets at 1, mbind at 1, ST_bind at 1. simpl.
  rewrite (bind_ok _ _ _ _ _ (js_at_ok (pos s) s ltac:(lia))).
  destruct (Z.eqb_spec (byte js (pos s)) 34) as [E34|E34]; simpl.
  { by rewrite Z.add_0_r, set_pos_id. }
  rewrite (u32_small (pos s + 1)) by lia.
  assert (bool_decide (remaining js len (pos s + 1) = []) = negb (pos s + 1 <? len)) as ->.
  { destruct (Z.ltb_spec (pos s + 1) len); simpl.
    - apply bool_decide_eq_false. rewrite remaining_cons by lia. done.
    - apply bool_decide_eq_true. apply remaining_nil. lia. }
  rewrite negb_involutive. destruct ((_ =? 92) && (_ <? _)) eqn:Eb.
  - apply andb_true_iff in Eb as [_ Hlt%Z.ltb_lt].
    destruct (parse_escape_scan s) as (b & p' & Hp & Hp' & Hlt' & ->); [lia..|].
    rewrite (bind_ok _ _ _ _ _ Hp). destruct b; simpl; [specialize (Hlt' eq_refl)|].
    + erewrite bind_ok by (apply pos_add_ok; simpl; lia). rewrite IH by (simpl; lia). simpl.
      destruct (scan_string _ _) as [e|k]; simpl; [done|].
      rewrite !set_pos_pos. do 2 f_equal. lia.
    + unfold modify, mbind, ST_bind. simpl. by rewrite u32_small by lia.
  - rewrite (bind_ok _ _ _ s true eq_refl). simpl.
    rewrite (bind_ok _ _ _ _ _ (pos_add_ok 1 s ltac:(lia))), IH by (simpl; lia). simpl.
    destruct (scan_string _ _) as [e|k]; simpl; [done|].
    rewrite !set_pos_pos. do 2 f_equal. lia.
Qed.
End text.

(** ** A lexeme fits in the text it was read from *)

Lemma scan_primitive_length l n : scan_primitive l = Some n → (n ≤ length l)%nat.
Proof.
  revert n. induction l as [|c l IH]; intros n; simpl; [intros [= <-]; done|].
  destruct (_ || ends_primitive c); [intros [= <-]; lia|]. destruct ((c <? 32) || _); [done|].
  intros (m & Hm & ->)%fmap_Some. apply IH in Hm. lia.
Qed.
Lemma scan_string_length m l n : scan_string m l = inr n → (n < length l)%nat.
Proof.
  revert m n. induction l as [|c l IH]; intros m n; simpl; [done|].
  destruct m as [| |[]]; repeat case_match; intros [= <-]; try lia;
    match goal with Hs : scan_string _ l = _ |- _ => apply IH in Hs; lia end.
Qed.
Lemma scan_width c l lx : c ≠ 0 → scan c l = inr lx → (1 ≤ width lx ≤ length (c :: l))%nat.
Proof.
  unfold scan. intros Hc.
  destruct ((c =? 123) || _) eqn:?; [intros [= <-]; simpl; lia|].
  destruct ((c =? 125) || _) eqn:?; [intros [= <-]; simpl; lia|].
  destruct (c =? 34) eqn:?.
  { destruct (scan_string _ _) as [|n] eqn:Hs; intros [= <-]. apply scan_string_length in Hs. simpl. lia. }
  destruct ((c =? 9) || _ || _ || _) eqn:?; [intros [= <-]; simpl; lia|].
  destruct (c =? 58) eqn:?; [intros [= <-]; simpl; lia|].
  destruct (c =? 44) eqn:?; [intros [= <-]; simpl; lia|].
  destruct (scan_primitive _) as [n|] eqn:Hs; intros [= <-]. split; [|by apply scan_primitive_length].
  simpl in *. unfold ends_primitive in Hs.
  rewrite (proj2 (Z.eqb_neq c 0)) in Hs by done.
  replace (_ || _ : bool) with false in Hs by (symmetry; rewrite !orb_false_iff in *; intuition).
  case_match; [done|]. apply fmap_Some in Hs as (? & ? & ->). lia.
Qed.
Lemma scan_error c l e : scan c l = inl e → e = JSMN_ERROR_INVAL ∨ e = JSMN_ERROR_PART.
Proof.
  assert (∀ m l e, scan_string m l = inl e → e = JSMN_ERROR_INVAL ∨ e = JSMN_ERROR_PART) as Hstr.
  { clear. intros m l. revert m. induction l as [|c l IH]; intros m e; simpl; [intros [= <-]; auto|].
    destruct m as [| |[]]; repeat case_match; intros [= <-]; eauto. }
  unfold scan. repeat case_match; intros [= <-]; eauto.
Qed.

(** ** The token builder *)

Record builder : Set := mk_builder {
  b_toks : list jsmntok_t;
  b_super : Z }.

(** ** Lexemes act on the builder *)

Definition grow (t : jsmntok_t) : jsmntok_t := set_tk_size (tk_size t + 1) t.
(** The superior token gets one more member. *)
Definition bump (super : Z) (ts : list jsmntok_t) : list jsmntok_t :=
  if super =? -1 then ts else alter grow (Z.to_nat super) ts.

Definition append (num_tokens : Z) (type : jsmntype_t) (start end_ : Z) (b : builder) : Z + builder :=
  if num_tokens <=? zlen (b_toks b) then inl JSMN_ERROR_NOMEM
  else inr (mk_builder (bump (b_super b) (b_toks b) ++ [mk_tok type start end_ 0 (b_super b)]) (b_super b)).

(** The bracket that ends at [p]: token [i], or the first of its ancestors that
    is open, is closed. *)
Fixpoint close_from (fuel : nat) (type : jsmntype_t) (p : Z) (b : builder) (i : nat) : Z + builder :=
  match fuel, b_toks b !! i with
  | S fuel', Some t =>
      if is_open t then
        if negb (bool_decide (tk_type t = type)) then inl JSMN_ERROR_INVAL
        else inr (mk_builder (<[i := set_tk_end (p + 1) t]> (b_toks b)) (tk_parent t))
      else if tk_parent t =? -1 then
        if negb (bool_decide (tk_type t = type)) || (b_super b =? -1) then inl JSMN_ERROR_INVAL
        else inr b
      else close_from fuel' type p b (Z.to_nat (tk_parent t))
  | _, _ => inl JSMN_ERROR_INVAL
  end.

Definition leave_scalar (b : builder) : builder :=
  if b_super b =? -1 then b
  else
    match b_toks b !! Z.to_nat (b_super b) with
    | Some t =>
        if negb (bool_decide (tk_type t = JSMN_ARRAY)) && negb (bool_decide (tk_type t = JSMN_OBJECT))
        then mk_builder (b_toks b) (tk_parent t) else b
    | None => b
    end.

Definition act (num_tokens p : Z) (lx : lexeme) (b : builder) : Z + builder :=
  match lx with
  | LOpen type =>
      match append num_tokens type p (-1) b with
      | inl e => inl e
      | inr b' => inr (mk_builder (b_toks b') (zlen (b_toks b)))
      end
  | LClose type => close_from (length (b_toks b)) type p b (pred (length (b_toks b)))
  | LString n => append num_tokens JSMN_STRING (p + 1) (p + 1 + Z.of_nat n) b
  | LPrimitive n => append num_tokens JSMN_PRIMITIVE p (p + Z.of_nat n) b
  | LColon => inr (mk_builder (b_toks b) (zlen (b_toks b) - 1))
  | LComma => inr (leave_scalar b)
  | LBlank => inr b
  end.

(** The result, the position reached and the builder. *)
Fixpoint tokenize (fuel : nat) (num_tokens p : Z) (l : list Z) (b : builder) : Z * Z * builder :=
  let finish := ((if existsb is_open (b_toks b) then JSMN_ERROR_PART else zlen (b_toks b)), p, b) in
  match fuel, l with
  | S fuel', c :: l' =>
      if c =? 0 then finish
      else
        match scan c l' with
        | inl e => (e, p, b)
        | inr lx =>
            match act num_tokens p lx b with
            | inl e => (e, p, b)
            | inr b' => tokenize fuel' num_tokens (p + Z.of_nat (width lx)) (drop (width lx) l) b'
            end
        end
  | _, _ => finish
  end.

(** ** Well-formed builders *)

Definition token_ok (p : Z) (n i : nat) (t : jsmntok_t) : Prop :=
  -1 ≤ tk_parent t < Z.of_nat i ∧ 0 ≤ tk_size t ≤ Z.of_nat n ∧ 0 ≤ tk_start t < p ∧
  match tk_type t with
  | JSMN_UNDEFINED => False
  | JSMN_OBJECT | JSMN_ARRAY => tk_end t = -1 ∨ tk_start t + 2 ≤ tk_end t ≤ p
  | JSMN_STRING => tk_start t ≤ tk_end t < p
  | JSMN_PRIMITIVE => tk_start t < tk_end t ≤ p
  end.
Record builder_ok (p : Z) (b : builder) : Prop := {
  bo_super : -1 ≤ b_super b < zlen (b_toks b);
  bo_toks i t : b_toks b !! i = Some t → token_ok p (length (b_toks b)) i t }.

Definition b_empty : builder := mk_builder [] (-1).
Lemma b_empty_ok p : builder_ok p b_empty.
Proof. split; [done|]. done. Qed.

Lemma token_ok_mono p p' n n' i t : p ≤ p' → (n ≤ n')%nat → token_ok p n i t → token_ok p' n' i t.
Proof. unfold token_ok. intros ?? (? & ? & ? & Ht). destruct (tk_type t); intuition lia. Qed.
Lemma builder_ok_mono p p' b : p ≤ p' → builder_ok p b → builder_ok p' b.
Proof. intros ? [? Ht]. split; [done|]. intros. eapply token_ok_mono; [..|by apply Ht]; lia. Qed.

Lemma length_bump super ts : length (bump super ts) = length ts.
Proof. unfold bump. case_match; [done|apply length_alter]. Qed.
Lemma lookup_bump super ts i t : bump super ts !! i = Some t →
  ∃ t0, ts !! i = Some t0 ∧ (t = t0 ∨ t = grow t0).
Proof.
  unfold bump. case_match; [eauto|]. rewrite list_lookup_alter.
  case_decide as Hi; [|eauto]. rewrite Hi. intros Ht. apply fmap_Some in Ht as (t0 & ? & ->). eauto.
Qed.

Lemma grow_ok p n i t : token_ok p n i t → token_ok p (S n) i (grow t).
Proof. unfold token_ok. destruct t as [[] ????]; simpl; intuition lia. Qed.

Lemma append_ok num p p' type start end_ b b' :
  builder_ok p b → p ≤ p' → append num type start end_ b = inr b' →
  token_ok p' (S (length (b_toks b))) (length (b_toks b))
    (mk_tok type start end_ 0 (b_super b)) →
  builder_ok p' b' ∧ length (b_toks b') = S (length (b_toks b)).
Proof.
  intros [Hs Ht] ? Ha Hn. unfold append in Ha. case_match; [done|]. injection Ha as <-.
  split; [split|]; simpl; unfold zlen in *; rewrite ?length_app, ?length_bump; simpl; [lia| |lia].
  intros i t Hi. replace (length (b_toks b) + 1)%nat with (S (length (b_toks b))) by lia.
  apply lookup_app_Some in Hi as [Hi|[Hi Hi']].
  - apply lookup_bump in Hi as (t0 & Hi & [-> | ->]).
    + eapply token_ok_mono; [..|by apply Ht]; lia.
    + apply grow_ok. eapply token_ok_mono; [..|by apply Ht]; lia.
  - rewrite length_bump in *. apply list_lookup_singleton_Some in Hi' as [Hi0 <-].
    replace i with (length (b_toks b)) by lia. done.
Qed.

Lemma close_from_ok fuel p type b i b' :
  0 ≤ p → builder_ok p b → close_from fuel type p b i = inr b' →
  builder_ok (p + 1) b' ∧ length (b_toks b') = length (b_toks b).
Proof.
  intros Hp Hb. revert i. induction fuel as [|fuel IH]; intros i; simpl; [done|].
  destruct (b_toks b !! i) as [t|] eqn:Hi; [|done].
  pose proof (bo_toks _ _ Hb i t Hi) as Ht. pose proof (lookup_lt_Some _ _ _ Hi).
  destruct (is_open t) eqn:Ho; [|destruct (tk_parent t =? -1)].
  - case_match; [done|]. intros [= <-]. simpl. rewrite length_insert. split; [|done]. split; simpl.
    + unfold zlen. rewrite length_insert. unfold token_ok in Ht. lia.
    + intros j u Hj. rewrite length_insert.
      apply list_lookup_insert_Some in Hj as [(-> & <- & _)|[? Hj]].
      * unfold token_ok, is_open in *. apply andb_true_iff in Ho as [_ Ho%Z.eqb_eq].
        destruct t as [[] ????]; simpl in *; intuition lia.
      * eapply token_ok_mono; [..|by apply (bo_toks _ _ Hb)]; lia.
  - destruct (_ || _); [done|]. intros [= <-]. split; [|done]. eapply builder_ok_mono; [|done]. lia.
  - apply IH.
Qed.

Lemma leave_scalar_ok p b : builder_ok p b → builder_ok p (leave_scalar b).
Proof.
  intros Hb. unfold leave_scalar. repeat case_match; try done.
  match goal with Hi : _ !! _ = Some ?t |- _ =>
    pose proof (bo_toks _ _ Hb _ _ Hi) as Ht; pose proof (lookup_lt_Some _ _ _ Hi) end.
  destruct Hb as [Hs Hts]. split; simpl; [|done]. unfold token_ok, zlen in *. lia.
Qed.
Lemma b_toks_leave_scalar b : b_toks (leave_scalar b) = b_toks b.
Proof. unfold leave_scalar. by repeat case_match. Qed.

(** The tokens an action adds. *)
Definition adds (lx : lexeme) : nat :=
  match lx with LOpen _ | LString _ | LPrimitive _ => 1 | _ => 0 end.

Definition lexeme_ok (lx : lexeme) : Prop :=
  match lx with
  | LOpen type | LClose type => type = JSMN_OBJECT ∨ type = JSMN_ARRAY
  | LPrimitive n => (0 < n)%nat
  | _ => True
  end.
Lemma scan_lexeme_ok c l lx : c ≠ 0 → scan c l = inr lx → lexeme_ok lx.
Proof.
  intros Hc Hs. pose proof (scan_width c l lx Hc Hs) as Hw. revert Hs. unfold scan, bracket_type.
  destruct lx as [type|type|n|n| | |]; simpl in *; try done; [| |lia];
    repeat (match goal with |- context [if ?b then _ else _] => destruct b end);
    repeat case_match; intros; simplify_eq; auto.
Qed.

Lemma act_ok num p lx b b' :
  0 ≤ p → lexeme_ok lx → builder_ok p b → act num p lx b = inr b' →
  builder_ok (p + Z.of_nat (width lx)) b' ∧
  length (b_toks b') = (length (b_toks b) + adds lx)%nat.
Proof.
  intros Hp Hlx Hb Ha. pose proof (bo_super _ _ Hb) as Hs. unfold zlen in Hs.
  destruct lx as [type|type|n|n| | |]; simpl in *.
  - destruct (append _ _ _ _ _) as [|b1] eqn:Ea; [done|]. injection Ha as <-.
    eapply (append_ok _ p (p + 1)) in Ea as [[? Ht] Hl]; [|done|lia|].
    + split; [|simpl; lia]. split; [simpl; unfold zlen; lia|done].
    + destruct Hlx as [-> | ->]; unfold token_ok; simpl; lia.
  - apply close_from_ok in Ha as [? ->]; [|done..]. split; [done|lia].
  - eapply (append_ok _ p (p + Z.of_nat (S (S n)))) in Ha as [? ->]; [|done|lia|].
    + split; [done|lia].
    + unfold token_ok; simpl; lia.
  - eapply (append_ok _ p (p + Z.of_nat n)) in Ha as [? ->]; [|done|lia|].
    + split; [done|lia].
    + unfold token_ok; simpl; lia.
  - injection Ha as <-. split; [|simpl; lia]. eapply (builder_ok_mono p) in Hb; [|shelve].
    destruct Hb as [? Ht]. split; [simpl; unfold zlen; lia|done].
    Unshelve. lia.
  - injection Ha as <-. rewrite b_toks_leave_scalar. split; [|lia].
    eapply builder_ok_mono, leave_scalar_ok; [|done]. lia.
  - injection Ha as <-. split; [|lia]. eapply builder_ok_mono; [|done]. lia.
Qed.
