(* ===== verification/JsmnRefine.v ===== *)
(** * [jsmn_parse] computes the reference parser

    On any text and on a pool of tokens that hold anything, the parser returns,
    without leaving the text or the pool, what [tokenize] gives; the tokens not
    allocated keep what they held. *)

From Stdlib Require Import ZArith Lia.
From stdpp Require Import base list.
From S2P Require Import RTThread.
From S2P Require Import Prelude.
From S2P Require Import Bytes.
From S2P Require Import Jsmn.
From S2P Require Import JsmnReference.

(** The state that represents a builder, over a pool that ends with [junk]. *)
Definition repr (p : Z) (b : builder) (junk : list jsmntok_t) : jsmn_parser :=
  mk_parser p (zlen (b_toks b)) (b_super b) (Some (b_toks b ++ junk)).

Lemma gets_bind {S A B} (f : S → A) (g : A → ST S B) s : (gets f ≫= g) s = g (f s) s.
Proof. done. Qed.
Lemma modify_bind {S B} (f : S → S) (g : unit → ST S B) s : (modify f ≫= g) s = g tt (f s).
Proof. done. Qed.
Lemma ret_bind {S A B} (a : A) (g : A → ST S B) s : (mret a ≫= g) s = g a s.
Proof. done. Qed.

Lemma token_at_ok p n sup ts i t : 0 ≤ i → ts !! Z.to_nat i = Some t →
  token_at i (mk_parser p n sup (Some ts)) = Ok (mk_parser p n sup (Some ts)) t.
Proof.
  intros ? Hi. unfold token_at. rewrite gets_bind. simpl.
  rewrite (proj2 (Z.ltb_ge i 0)) by lia. by rewrite Hi.
Qed.
Lemma token_update_ok p n sup ts i f t : 0 ≤ i → ts !! Z.to_nat i = Some t →
  token_update i f (mk_parser p n sup (Some ts)) =
    Ok (mk_parser p n sup (Some (<[Z.to_nat i := f t]> ts))) tt.
Proof.
  intros ? Hi. unfold token_update. rewrite (bind_ok _ _ _ _ _ (token_at_ok _ _ _ _ _ _ ltac:(done) Hi)).
  done.
Qed.

Lemma token_update_new p n sup toks f t junk :
  token_update (zlen toks) f (mk_parser p n sup (Some (toks ++ t :: junk))) =
    Ok (mk_parser p n sup (Some (toks ++ f t :: junk))) tt.
Proof.
  rewrite (token_update_ok _ _ _ _ _ _ t).
  - unfold zlen. rewrite Nat2Z.id. do 3 f_equal.
    replace (length toks) with (length toks + 0)%nat by lia. by rewrite insert_app_r.
  - apply zlen_nonneg.
  - unfold zlen. rewrite Nat2Z.id. by apply list_lookup_middle.
Qed.

Lemma alter_as_insert {A} (f : A → A) (l : list A) i x :
  l !! i = Some x → alter f i l = <[i := f x]> l.
Proof.
  revert i. induction l as [|y l IH]; intros [|i] Hi; [done..| |].
  - by injection Hi as ->.
  - simpl. f_equal. by apply IH.
Qed.

Lemma token_update_super p n sup toks rest :
  0 ≤ sup < zlen toks → (∀ t, toks !! Z.to_nat sup = Some t → 0 ≤ tk_size t < 2 ^ 31 - 1) →
  token_update sup (λ t, set_tk_size (s32 (tk_size t + 1)) t) (mk_parser p n sup (Some (toks ++ rest))) =
    Ok (mk_parser p n sup (Some (bump sup toks ++ rest))) tt.
Proof.
  intros Hs Hsz. unfold zlen in Hs.
  destruct (lookup_lt_is_Some_2 toks (Z.to_nat sup)) as [t Ht]; [lia|].
  rewrite (token_update_ok _ _ _ _ _ _ t); [|lia|by apply lookup_app_l_Some].
  rewrite s32_small by (specialize (Hsz t Ht); lia).
  rewrite insert_app_l by lia. unfold bump. rewrite (proj2 (Z.eqb_neq sup (-1))) by lia.
  do 4 f_equal. symmetry. exact (alter_as_insert grow _ _ _ Ht).
Qed.

Definition fresh (t : jsmntok_t) : jsmntok_t := mk_tok (tk_type t) (-1) (-1) 0 (-1).
Lemma jsmn_alloc_token_ok num p sup toks t junk :
  zlen toks < num < 2 ^ 31 →
  jsmn_alloc_token num (mk_parser p (zlen toks) sup (Some (toks ++ t :: junk))) =
    Ok (mk_parser p (zlen toks + 1) sup (Some (toks ++ fresh t :: junk))) (Some (zlen toks)).
Proof.
  intros. pose proof (zlen_nonneg toks). unfold jsmn_alloc_token. rewrite gets_bind. simpl.
  rewrite (proj2 (Z.leb_gt _ _)), modify_bind by lia. unfold set_toknext. simpl.
  rewrite u32_small by lia. by rewrite (bind_ok _ _ _ _ _ (token_update_new _ _ _ _ _ _ _)).
Qed.
Lemma jsmn_alloc_token_full num (s : jsmn_parser) :
  num ≤ toknext s → jsmn_alloc_token num s = Ok s None.
Proof. intros. unfold jsmn_alloc_token. rewrite gets_bind. by rewrite (proj2 (Z.leb_le _ _)). Qed.

(** ** One step of the parser *)

Section step.
Context (js : list Z) (len num : Z).
Hypothesis len_range : 0 ≤ len < 2 ^ 31 - 1.
Hypothesis len_js : len ≤ zlen js.
Hypothesis num_range : num < 2 ^ 31.

(** The pool holds all tokens the caller announces. *)
Definition pool_ok (b : builder) (junk : list jsmntok_t) : Prop :=
  num ≤ zlen (b_toks b) + zlen junk ∧ zlen (b_toks b) < 2 ^ 31.

Definition junk_after (b b' : builder) (junk : list jsmntok_t) : list jsmntok_t :=
  drop (length (b_toks b') - length (b_toks b)) junk.
Lemma junk_after_same b b' junk : length (b_toks b') = length (b_toks b) → junk_after b b' junk = junk.
Proof. intros. unfold junk_after. by rewrite H, Nat.sub_diag. Qed.

Lemma pool_room b junk : pool_ok b junk → zlen (b_toks b) < num → ∃ t junk', junk = t :: junk'.
Proof. intros [? ?] ?. destruct junk as [|t junk']; [rewrite zlen_nil in *; lia|eauto]. Qed.

Lemma super_size p b junk t : builder_ok p b → pool_ok b junk → zlen (b_toks b) < num →
  b_toks b !! Z.to_nat (b_super b) = Some t → 0 ≤ tk_size t < 2 ^ 31 - 1.
Proof.
  intros Hb _ ? Ht. pose proof (bo_toks _ _ Hb _ _ Ht) as (_ & ? & _). unfold zlen in *. lia.
Qed.

Lemma close_string_act start p b junk : 0 ≤ start < p → p < 2 ^ 31 → pool_ok b junk →
  close_string start num (repr p b junk) =
    if num <=? zlen (b_toks b) then Ok (repr start b junk) JSMN_ERROR_NOMEM
    else Ok (mk_parser p (zlen (b_toks b) + 1) (b_super b)
          (Some (b_toks b ++ mk_tok JSMN_STRING (start + 1) p 0 (b_super b) :: drop 1 junk))) 0.
Proof.
  intros ?? Hp. unfold close_string. rewrite gets_bind. simpl.
  destruct (Z.leb_spec num (zlen (b_toks b))).
  - rewrite (bind_ok _ _ _ _ _ (jsmn_alloc_token_full num (repr p b junk) ltac:(done))).
    rewrite modify_bind, u32_small by lia. done.
  - destruct (pool_room _ _ Hp ltac:(done)) as (t & junk' & ->). unfold repr.
    rewrite (bind_ok _ _ _ _ _ (jsmn_alloc_token_ok num p (b_super b) (b_toks b) t junk' ltac:(lia))), gets_bind. simpl.
    rewrite !s32_small by lia. unfold jsmn_fill_token.
    rewrite (bind_ok _ _ _ _ _ (token_update_new _ _ _ _ _ _ _)), gets_bind.
    by rewrite (bind_ok _ _ _ _ _ (token_update_new _ _ _ _ _ _ _)).
Qed.

Lemma after_scalar_act p b junk type start end_ q :
  builder_ok q b → pool_ok b junk → zlen (b_toks b) < num →
  after_scalar 0 (zlen (b_toks b)) (mk_parser p (zlen (b_toks b) + 1) (b_super b)
    (Some (b_toks b ++ mk_tok type start end_ 0 (b_super b) :: drop 1 junk))) =
  let b' := mk_builder (bump (b_super b) (b_toks b) ++ [mk_tok type start end_ 0 (b_super b)]) (b_super b) in
  Ok (repr p b' (junk_after b b' junk)) (inr (zlen (b_toks b'))).
Proof.
  intros Hb Hp ?. pose proof (zlen_nonneg (b_toks b)). unfold after_scalar.
  change (0 <? 0) with false. cbv iota. rewrite !gets_bind. simpl.
  unfold repr, junk_after. simpl. rewrite zlen_app, <- app_assoc. simpl.
  assert (Hl : zlen (bump (b_super b) (b_toks b)) = zlen (b_toks b)) by (unfold zlen; by rewrite length_bump).
  rewrite length_app, length_bump, Hl. simpl.
  replace (length (b_toks b) + 1 - length (b_toks b))%nat with 1%nat by lia.
  change (zlen [_]) with 1. rewrite s32_small by lia.
  destruct (Z.eqb_spec (b_super b) (-1)) as [E|E]; simpl.
  - unfold bump. by rewrite E.
  - pose proof (bo_super _ _ Hb).
    erewrite bind_ok by (apply token_update_super;
      [lia|intros; by apply (super_size q b junk)]).
    done.
Qed.

Lemma jsmn_parse_string_act p b junk :
  0 ≤ p < len → byte js p = 34 → builder_ok p b → pool_ok b junk →
  (r ← jsmn_parse_string js len num; after_scalar r (zlen (b_toks b))) (repr p b junk) =
  match scan_string SText (remaining js len (p + 1)) with
  | inl e => Ok (repr p b junk) (inl e)
  | inr n =>
      match append num JSMN_STRING (p + 1) (p + 1 + Z.of_nat n) b with
      | inl e => Ok (repr p b junk) (inl e)
      | inr b' => Ok (repr (p + 1 + Z.of_nat n) b' (junk_after b b' junk)) (inr (zlen (b_toks b')))
      end
  end.
Proof.
  intros Hp Hc Hb Hj. unfold jsmn_parse_string. rewrite bind_assoc, gets_bind. cbv zeta.
  change (pos (repr p b junk)) with p. rewrite s32_small by lia.
  rewrite bind_assoc, (bind_ok _ _ _ _ _ (pos_add_ok 1 (repr p b junk) ltac:(simpl; lia))).
  change (set_pos (pos (repr p b junk) + 1) (repr p b junk)) with (repr (p + 1) b junk).
  unfold mbind at 1, ST_bind at 1.
  rewrite (string_loop_scan js len) by (simpl; lia). simpl pos.
  destruct (scan_string _ _) as [e|n] eqn:Hn.
  - assert (e < 0) as He by (edestruct (scan_error 34 (remaining js len (p + 1)) e) as [-> | ->];
      [unfold scan; by rewrite Hn|done..]).
    unfold after_scalar. by rewrite (proj2 (Z.ltb_lt _ _) He).
  - pose proof (scan_string_length _ _ _ Hn) as Hlt.
    pose proof (length_remaining js len ltac:(lia) len_js (p + 1) ltac:(lia)).
    change (set_pos ?q (repr (p + 1) b junk)) with (repr q b junk).
    rewrite close_string_act by (done || lia). unfold append.
    destruct (Z.leb_spec num (zlen (b_toks b))); [done|].
    by rewrite (after_scalar_act _ _ _ _ _ _ p) by done.
Qed.

Lemma jsmn_parse_primitive_act p b junk :
  0 ≤ p < len → builder_ok p b → pool_ok b junk →
  (∀ n, scan_primitive (remaining js len p) = Some n → (0 < n)%nat) →
  (r ← jsmn_parse_primitive js len num; after_scalar r (zlen (b_toks b))) (repr p b junk) =
  match scan_primitive (remaining js len p) with
  | None => Ok (repr p b junk) (inl JSMN_ERROR_INVAL)
  | Some n =>
      match append num JSMN_PRIMITIVE p (p + Z.of_nat n) b with
      | inl e => Ok (repr p b junk) (inl e)
      | inr b' => Ok (repr (p + Z.of_nat n - 1) b' (junk_after b b' junk)) (inr (zlen (b_toks b')))
      end
  end.
Proof.
  intros Hp Hb Hj Hpos. unfold jsmn_parse_primitive. rewrite bind_assoc, gets_bind. cbv zeta.
  change (pos (repr p b junk)) with p. rewrite s32_small, bind_assoc by lia.
  unfold mbind at 1, ST_bind at 1.
  rewrite (primitive_loop_scan js len) by (simpl; lia). simpl pos.
  destruct (scan_primitive _) as [n|] eqn:Hn; [|done].
  pose proof (scan_primitive_length _ _ Hn) as Hlt. specialize (Hpos n eq_refl).
  pose proof (length_remaining js len ltac:(lia) len_js p ltac:(lia)).
  change (set_pos ?q (repr p b junk)) with (repr q b junk).
  rewrite bind_assoc, gets_bind. cbv beta iota. simpl tokens. cbv beta iota. unfold append.
  destruct (Z.leb_spec num (zlen (b_toks b))).
  - rewrite bind_assoc.
    rewrite (bind_ok _ _ _ _ _ (jsmn_alloc_token_full num (repr (p + Z.of_nat n) b junk) ltac:(done))).
    cbv iota. rewrite bind_assoc, modify_bind, u32_small by lia. done.
  - destruct (pool_room _ _ Hj ltac:(done)) as (t & junk' & Ej).
    unfold repr at 1. rewrite Ej, bind_assoc.
    erewrite bind_ok by (apply jsmn_alloc_token_ok; lia).
    cbv iota. rewrite bind_assoc, gets_bind. simpl pos. rewrite s32_small, bind_assoc by lia.
    unfold jsmn_fill_token. erewrite bind_ok by apply token_update_new.
    rewrite bind_assoc, gets_bind, bind_assoc. erewrite bind_ok by apply token_update_new.
    rewrite bind_assoc. erewrite bind_ok by (apply pos_add_ok; simpl; lia).
    rewrite ret_bind. unfold set_pos. simpl pos. rewrite <- Ej.
    pose proof (after_scalar_act (p + Z.of_nat n - 1) b junk JSMN_PRIMITIVE p (p + Z.of_nat n) p
      Hb Hj ltac:(done)) as Ha.
    rewrite Ej in Ha at 1. exact Ha.
Qed.

Lemma parse_open_act c p b junk :
  0 ≤ p < len → builder_ok p b → pool_ok b junk →
  parse_open c num (zlen (b_toks b)) (repr p b junk) =
  match append num (bracket_type c) p (-1) b with
  | inl e => Ok (repr p b junk) (inl e)
  | inr b1 =>
      let b' := mk_builder (b_toks b1) (zlen (b_toks b)) in
      Ok (repr p b' (junk_after b b' junk)) (inr (zlen (b_toks b')))
  end.
Proof.
  intros Hp Hb Hj. pose proof (zlen_nonneg (b_toks b)). pose proof (bo_super _ _ Hb).
  unfold parse_open, append. cbv zeta. rewrite gets_bind.
  change (tokens (repr p b junk)) with (Some (b_toks b ++ junk)). cbv iota.
  destruct (Z.leb_spec num (zlen (b_toks b))).
  { rewrite (bind_ok _ _ _ _ _ (jsmn_alloc_token_full num (repr p b junk) ltac:(done))). done. }
  destruct (pool_room _ _ Hj ltac:(done)) as (t & junk' & ->). unfold repr at 1.
  erewrite bind_ok by (apply jsmn_alloc_token_ok; lia). cbv iota.
  rewrite gets_bind. simpl toksuper.
  assert (Hl : zlen (bump (b_super b) (b_toks b)) = zlen (b_toks b)) by (unfold zlen; by rewrite length_bump).
  assert (when (negb (b_super b =? -1))
      (token_update (b_super b) (λ t, set_tk_size (s32 (tk_size t + 1)) t);;
       token_update (zlen (b_toks b)) (set_tk_parent (b_super b)))
      (mk_parser p (zlen (b_toks b) + 1) (b_super b) (Some (b_toks b ++ fresh t :: junk'))) =
    Ok (mk_parser p (zlen (b_toks b) + 1) (b_super b)
      (Some (bump (b_super b) (b_toks b) ++ set_tk_parent (b_super b) (fresh t) :: junk'))) tt) as Hw.
  { destruct (Z.eqb_spec (b_super b) (-1)) as [E|E]; simpl.
    - unfold bump. by rewrite E.
    - erewrite bind_ok by (apply token_update_super;
        [lia|intros; by apply (super_size p b (t :: junk'))]).
      rewrite <- Hl at 1. by rewrite token_update_new. }
  rewrite (bind_ok _ _ _ _ _ Hw), <- Hl.
  erewrite bind_ok by apply token_update_new. rewrite gets_bind. simpl pos.
  rewrite (s32_small p) by lia. erewrite bind_ok by apply token_update_new.
  rewrite gets_bind. simpl toknext. rewrite modify_bind. unfold set_toksuper. simpl.
  rewrite (u32_small (_ - 1)), !s32_small by lia. unfold repr, junk_after. simpl.
  rewrite zlen_app, length_app, length_bump, Hl, <- app_assoc.
  replace (length (b_toks b) + length [_] - length (b_toks b))%nat with 1%nat by (simpl; lia).
  replace (zlen (b_toks b) + 1 - 1) with (zlen (b_toks b)) by lia. done.
Qed.

Lemma close_loop_act type p b junk fuel fuel' i :
  0 ≤ p < len → builder_ok p b → (i < length (b_toks b))%nat → (i < fuel)%nat → (i < fuel')%nat →
  close_loop fuel type (Z.of_nat i) (repr p b junk) =
  match close_from fuel' type p b i with
  | inl e => Ok (repr p b junk) (Some e)
  | inr b' => Ok (repr p b' junk) None
  end.
Proof.
  intros Hp Hb. revert fuel' i. induction fuel as [|fuel IH]; intros [|fuel'] i Hi ??; [lia..|].
  destruct (lookup_lt_is_Some_2 _ _ Hi) as [t Ht]. simpl. rewrite Ht.
  assert ((b_toks b ++ junk) !! Z.to_nat (Z.of_nat i) = Some t) as Ht'.
  { rewrite Nat2Z.id. by apply lookup_app_l_Some. }
  unfold repr at 1. rewrite (bind_ok _ _ _ _ _ (token_at_ok p _ _ _ (Z.of_nat i) t ltac:(lia) Ht')).
  destruct (is_open t).
  - destruct (negb _); [done|]. rewrite gets_bind. simpl pos.
    rewrite (u32_small (p + 1)), s32_small by lia.
    rewrite (bind_ok _ _ _ _ _ (token_update_ok p _ _ _ (Z.of_nat i) _ t ltac:(lia) Ht')).
    rewrite modify_bind. unfold repr, set_toksuper, zlen. simpl.
    by rewrite length_insert, Nat2Z.id, insert_app_l.
  - pose proof (bo_toks _ _ Hb i t Ht) as [Hpar _].
    destruct (Z.eqb_spec (tk_parent t) (-1)).
    + rewrite gets_bind. simpl toksuper. by destruct (_ || _).
    + rewrite <- (IH fuel' (Z.to_nat (tk_parent t))) by lia. rewrite Z2Nat.id by lia. done.
Qed.

#[local] Arguments close_loop : simpl never.
Lemma parse_close_act c p b junk :
  0 ≤ p < len → builder_ok p b → pool_ok b junk →
  parse_close c (zlen (b_toks b)) (repr p b junk) =
  match close_from (length (b_toks b)) (bracket_type c) p b (pred (length (b_toks b))) with
  | inl e => Ok (repr p b junk) (inl e)
  | inr b' => Ok (repr p b' junk) (inr (zlen (b_toks b)))
  end.
Proof.
  intros Hp Hb Hj. unfold parse_close. rewrite !gets_bind. simpl. rewrite gets_bind. simpl.
  destruct (Z.ltb_spec (zlen (b_toks b)) 1) as [Hlt|Hlt]; unfold zlen in Hlt.
  { by replace (length (b_toks b)) with 0%nat by lia. }
  replace (zlen (b_toks b) - 1) with (Z.of_nat (pred (length (b_toks b)))) by (unfold zlen; lia).
  unfold mbind at 1, ST_bind at 1.
  erewrite (close_loop_act _ p b junk _ (length (b_toks b))) by (done || unfold zlen; lia).
  by destruct (close_from _ _ _ _ _).
Qed.

Lemma parse_comma_act p b junk count : builder_ok p b →
  parse_comma count (repr p b junk) = Ok (repr p (leave_scalar b) junk) (inr count).
Proof.
  intros Hb. pose proof (bo_super _ _ Hb) as Hs. unfold zlen in Hs.
  unfold parse_comma, leave_scalar. rewrite !gets_bind. simpl.
  destruct (Z.eqb_spec (b_super b) (-1)); [done|]. simpl.
  destruct (lookup_lt_is_Some_2 (b_toks b) (Z.to_nat (b_super b))) as [t Ht]; [lia|].
  rewrite Ht, bind_assoc.
  erewrite bind_ok by (apply token_at_ok; [lia|by apply lookup_app_l_Some]).
  by destruct (negb _ && negb _).
Qed.

Lemma parse_char_act p b junk :
  0 ≤ p < len → builder_ok p b → pool_ok b junk → byte js p ≠ 0 →
  parse_char (byte js p) js len num (zlen (b_toks b)) (repr p b junk) =
  match scan (byte js p) (remaining js len (p + 1)) with
  | inl e => Ok (repr p b junk) (inl e)
  | inr lx =>
      match act num p lx b with
      | inl e => Ok (repr p b junk) (inl e)
      | inr b' => Ok (repr (p + Z.of_nat (width lx) - 1) b' (junk_after b b' junk)) (inr (zlen (b_toks b')))
      end
  end.
Proof.
  intros Hp Hb Hj Hc. pose proof (zlen_nonneg (b_toks b)).
  assert (∀ n, scan (byte js p) (remaining js len (p + 1)) = inr (LPrimitive n) → (0 < n)%nat) as Hpos
    by (intros n Hn; apply scan_width in Hn; [simpl in Hn; lia|done]).
  revert Hpos. unfold parse_char, scan.
  destruct (_ || (byte js p =? 91)).
  { intros _. rewrite parse_open_act by done. simpl. destruct (append _ _ _ _ _); [done|].
    by replace (p + Z.of_nat 1 - 1) with p by lia. }
  destruct (_ || (byte js p =? 93)).
  { intros _. rewrite parse_close_act by done. simpl. destruct (close_from _ _ _ _ _) as [|b'] eqn:Hcl; [done|].
    eapply close_from_ok in Hcl as [_ Hl]; [|lia|done]. rewrite junk_after_same by done.
    unfold zlen. rewrite Hl. by replace (p + Z.of_nat 1 - 1) with p by lia. }
  destruct (Z.eqb_spec (byte js p) 34) as [E|E].
  { intros _. rewrite jsmn_parse_string_act by done. destruct (scan_string _ _) as [|n]; [done|]. unfold act.
    destruct (append _ _ _ _ _); [done|]. simpl width. do 2 f_equal; lia. }
  destruct (_ || (byte js p =? 32)).
  { intros _. simpl. rewrite junk_after_same by done. by replace (p + Z.of_nat 1 - 1) with p by lia. }
  destruct (byte js p =? 58).
  { intros _. rewrite gets_bind, modify_bind. simpl. rewrite junk_after_same by done.
    destruct Hj as [_ ?].
    replace (s32 (u32 (zlen (b_toks b) - 1))) with (zlen (b_toks b) - 1).
    - by replace (p + Z.of_nat 1 - 1) with p by lia.
    - destruct (Z.eq_dec (zlen (b_toks b)) 0) as [-> |]; [done|].
      by rewrite u32_small, s32_small by lia. }
  destruct (byte js p =? 44).
  { intros _. rewrite parse_comma_act by done. simpl. rewrite junk_after_same by (by rewrite b_toks_leave_scalar).
    rewrite b_toks_leave_scalar. by replace (p + Z.of_nat 1 - 1) with p by lia. }
  rewrite <- (remaining_cons js len len_js p) by lia. intros Hpos.
  rewrite jsmn_parse_primitive_act; [|done..|intros n Hn; apply Hpos; by rewrite Hn].
  destruct (scan_primitive _) as [n|]; [|done]. unfold act. by destruct (append _ _ _ _ _).
Qed.

(** ** The whole parser *)

Lemma append_room type start end_ b b' :
  append num type start end_ b = inr b' → zlen (b_toks b) < num.
Proof. unfold append. destruct (Z.leb_spec num (zlen (b_toks b))); [done|]. by intros _. Qed.
Lemma act_room p lx b b' : act num p lx b = inr b' → adds lx = 1%nat → zlen (b_toks b) < num.
Proof.
  destruct lx; simpl; try done.
  - destruct (append _ _ _ _ _) eqn:Ha; [done|]. intros _ _. by eapply append_room.
  - intros ? _. by eapply append_room.
  - intros ? _. by eapply append_room.
Qed.

Lemma pool_ok_act p lx b b' junk : act num p lx b = inr b' →
  length (b_toks b') = (length (b_toks b) + adds lx)%nat →
  pool_ok b junk → pool_ok b' (junk_after b b' junk).
Proof.
  intros Ha Hl [Hj1 Hj2]. unfold pool_ok, junk_after, zlen in *. rewrite length_drop, Hl.
  destruct (decide (adds lx = 1%nat)) as [E|E].
  - pose proof (act_room _ _ _ _ Ha E). unfold zlen in *. lia.
  - assert (adds lx = 0%nat) as -> by (by destruct lx). lia.
Qed.

Lemma junk_after_trans b b1 b2 junk :
  (length (b_toks b) ≤ length (b_toks b1) ≤ length (b_toks b2))%nat →
  junk_after b1 b2 (junk_after b b1 junk) = junk_after b b2 junk.
Proof. intros. unfold junk_after. rewrite drop_drop. f_equal. lia. Qed.

Lemma tokenize_grows fuel p l b r p' b' :
  0 ≤ p → builder_ok p b → tokenize fuel num p l b = (r, p', b') →
  (length (b_toks b) ≤ length (b_toks b'))%nat.
Proof.
  revert p l b. induction fuel as [|fuel IH]; intros p l b Hp Hb; simpl; [by intros [= _ _ <-]|].
  destruct l as [|c l]; [by intros [= _ _ <-]|].
  destruct (Z.eqb_spec c 0); [by intros [= _ _ <-]|].
  destruct (scan c l) as [|lx] eqn:Hs; [by intros [= _ _ <-]|].
  destruct (act num p lx b) as [|b1] eqn:Ha; [by intros [= _ _ <-]|].
  eapply act_ok in Ha as [Hb1 Hl]; [|done|by eapply scan_lexeme_ok|done].
  intros Ht. apply IH in Ht; [lia|lia|done].
Qed.

Lemma open_loop_act n p b junk : (n ≤ length (b_toks b))%nat →
  open_loop n (repr p b junk) = Ok (repr p b junk) (existsb is_open (take n (b_toks b))).
Proof.
  induction n as [|n IH]; intros Hn; [done|]. simpl open_loop.
  destruct (lookup_lt_is_Some_2 (b_toks b) n) as [t Ht]; [lia|]. unfold repr at 1.
  rewrite (bind_ok _ _ _ _ _ (token_at_ok p _ _ (b_toks b ++ junk) (Z.of_nat n) t ltac:(lia)
    ltac:(rewrite Nat2Z.id; by apply lookup_app_l_Some))).
  rewrite (take_S_r _ _ _ Ht), existsb_app. simpl. rewrite orb_false_r, orb_comm.
  destruct (is_open t); [done|]. apply IH. lia.
Qed.

(** The end of [jsmn_parse]. *)
Definition parse_end (r : Z + Z) : ST jsmn_parser Z :=
  match r with
  | inl r => mret r
  | inr count =>
      ts ← gets tokens;
      match ts with
      | None => mret count
      | Some _ =>
          next ← gets toknext;
          pending ← open_loop (Z.to_nat next);
          mret (if pending : bool then JSMN_ERROR_PART else count)
      end
  end.

Lemma parse_end_act p b junk :
  parse_end (inr (zlen (b_toks b))) (repr p b junk) =
  Ok (repr p b junk) (if existsb is_open (b_toks b) then JSMN_ERROR_PART else zlen (b_toks b)).
Proof.
  unfold parse_end. rewrite gets_bind. simpl. rewrite gets_bind. simpl.
  replace (Z.to_nat (zlen (b_toks b))) with (length (b_toks b)) by (unfold zlen; lia).
  rewrite (bind_ok _ _ _ _ _ (open_loop_act _ p b junk (le_n _))).
  by rewrite (firstn_all (b_toks b)).
Qed.

Lemma parse_loop_act fuel fuel' p b junk :
  0 ≤ p ≤ len → builder_ok p b → pool_ok b junk →
  len - p < Z.of_nat fuel → (length (remaining js len p) ≤ fuel')%nat →
  (parse_loop fuel js len num (zlen (b_toks b)) ≫= parse_end) (repr p b junk) =
  let '(r, p', b') := tokenize fuel' num p (remaining js len p) b in
  Ok (repr p' b' (junk_after b b' junk)) r.
Proof.
  revert fuel' p b junk. induction fuel as [|fuel IH]; intros fuel' p b junk Hp Hb Hj Hf Hf'; [lia|].
  simpl parse_loop. destruct (decide (p = len)) as [->|Hlt].
  { rewrite bind_assoc, (bind_ok _ _ _ _ _ (in_text_end js len (repr len b junk) ltac:(simpl; lia))).
    rewrite remaining_nil by lia. simpl negb. cbv iota. rewrite ret_bind, parse_end_act.
    destruct fuel'; simpl; by rewrite junk_after_same. }
  rewrite (remaining_cons js len len_js p) in Hf' |- * by lia.
  destruct fuel' as [|fuel']; simpl in Hf'; [lia|]. simpl tokenize.
  rewrite bind_assoc.
  rewrite (bind_ok _ _ _ _ _ (in_text_at js len len_js (repr p b junk) ltac:(simpl; lia))).
  simpl pos. destruct (Z.eqb_spec (byte js p) 0) as [E0|E0]; simpl negb; cbv iota.
  { rewrite ret_bind, parse_end_act. simpl. by rewrite junk_after_same. }
  rewrite bind_assoc, gets_bind, bind_assoc. simpl pos.
  rewrite (bind_ok _ _ _ _ _ (js_at_ok js len len_js p (repr p b junk) ltac:(lia))), bind_assoc.
  unfold mbind at 1, ST_bind at 1. rewrite parse_char_act by (done || lia).
  destruct (scan _ _) as [e|lx] eqn:Hs; [by rewrite ret_bind, junk_after_same|].
  destruct (act num p lx b) as [e|b1] eqn:Ha; [by rewrite ret_bind, junk_after_same|].
  pose proof (scan_width _ _ _ E0 Hs) as Hw. simpl in Hw.
  pose proof (length_remaining js len ltac:(lia) len_js (p + 1) ltac:(lia)).
  destruct (act_ok num p lx b b1 ltac:(lia) (scan_lexeme_ok _ _ _ E0 Hs) Hb Ha) as [Hb1 Hl].
  pose proof (pool_ok_act _ _ _ _ _ Ha Hl Hj) as Hj1. cbv iota.
  rewrite bind_assoc. erewrite bind_ok by (apply pos_add_ok; simpl; lia).
  replace (set_pos _ _) with (repr (p + Z.of_nat (width lx)) b1 (junk_after b b1 junk))
    by (unfold set_pos, repr; simpl; f_equal; lia).
  rewrite <- (remaining_cons js len len_js p) by lia.
  replace (drop (width lx) (remaining js len p)) with (remaining js len (p + Z.of_nat (width lx)))
    by (rewrite <- remaining_drop by lia; by rewrite Nat2Z.id).
  rewrite (IH fuel' _ b1) by (done || (pose proof (length_remaining js len ltac:(lia) len_js (p + Z.of_nat (width lx)) ltac:(lia)); lia)).
  destruct (tokenize _ _ _ _ b1) as [[r p'] b'] eqn:Ht.
  apply tokenize_grows in Ht; [|lia|done]. rewrite junk_after_trans by lia. done.
Qed.

Lemma jsmn_parse_act p b junk :
  0 ≤ p ≤ len → builder_ok p b → pool_ok b junk →
  jsmn_parse js len num (repr p b junk) =
  let '(r, p', b') := tokenize (Z.to_nat len) num p (remaining js len p) b in
  Ok (repr p' b' (junk_after b b' junk)) r.
Proof.
  intros Hp Hb Hj. unfold jsmn_parse. rewrite gets_bind. simpl toknext.
  pose proof (zlen_nonneg (b_toks b)). destruct Hj as [? Hlt]. rewrite s32_small by lia.
  pose proof (length_remaining js len ltac:(lia) len_js p Hp).
  apply (parse_loop_act _ (Z.to_nat len) p b junk); try done; lia.
Qed.
End step.
