(* ===== verification/JsmnSpec.v ===== *)
(** * What [jsmn_parse] promises

    Safety and termination on every text, the shape of the tokens, resumption
    after the pool was too small, and the counting mode: with [tokens == NULL]
    the parser returns what it returns with enough tokens. *)

From Stdlib Require Import ZArith Lia.
From stdpp Require Import base list.
From S2P Require Import RTThread.
From S2P Require Import Prelude.
From S2P Require Import Bytes.
From S2P Require Import Jsmn.
From S2P Require Import JsmnReference.
From S2P Require Import JsmnRefine.

(** ** The reference parser *)

(** How a run of the reference parser can end. *)
Definition parse_result (num p : Z) (l : list Z) (r p' : Z) (b' : builder) : Prop :=
  builder_ok p' b' ∧ p ≤ p' ≤ p + zlen l ∧
  (r = JSMN_ERROR_NOMEM ∧ num ≤ zlen (b_toks b') ∨
   r = JSMN_ERROR_INVAL ∨ r = JSMN_ERROR_PART ∨
   r = zlen (b_toks b') ∧ ∀ t, t ∈ b_toks b' → is_open t = false).

Lemma append_error num type start end_ b e :
  append num type start end_ b = inl e → e = JSMN_ERROR_NOMEM ∧ num ≤ zlen (b_toks b).
Proof. unfold append. destruct (Z.leb_spec num (zlen (b_toks b))); [|done]. by intros [= <-]. Qed.
Lemma close_from_error fuel type p b i e : close_from fuel type p b i = inl e → e = JSMN_ERROR_INVAL.
Proof.
  revert i. induction fuel as [|fuel IH]; intros i; simpl; [by intros [= <-]|].
  destruct (b_toks b !! i); [|by intros [= <-]].
  destruct (is_open _); [destruct (negb _); by intros [= <-]|].
  destruct (_ =? -1); [destruct (_ || _); by intros [= <-]|]. apply IH.
Qed.
Lemma act_error num p lx b e : act num p lx b = inl e →
  e = JSMN_ERROR_NOMEM ∧ num ≤ zlen (b_toks b) ∨ e = JSMN_ERROR_INVAL.
Proof.
  destruct lx; simpl; try done; eauto using append_error, close_from_error.
  destruct (append _ _ _ _ _) eqn:Ha; [|done]. intros [= <-]. eauto using append_error.
Qed.

Lemma finish_result num p l b : builder_ok p b →
  parse_result num p l (if existsb is_open (b_toks b) then JSMN_ERROR_PART else zlen (b_toks b)) p b.
Proof.
  intros Hb. pose proof (zlen_nonneg l). split_and!; [done|lia|lia|].
  destruct (existsb is_open (b_toks b)) eqn:He; [auto|]. do 3 right. split; [done|].
  intros t Ht. destruct (is_open t) eqn:Ho; [|done].
  rewrite (proj2 (existsb_exists _ _)) in He; [done|]. exists t. split; [by apply list_elem_of_In|done].
Qed.

Lemma tokenize_result fuel num p l b r p' b' :
  0 ≤ p → builder_ok p b → tokenize fuel num p l b = (r, p', b') → parse_result num p l r p' b'.
Proof.
  revert p l b. induction fuel as [|fuel IH]; intros p l b Hp Hb; simpl.
  { intros [= <- <- <-]. by apply finish_result. }
  destruct l as [|c l]; [intros [= <- <- <-]; by apply finish_result|].
  pose proof (zlen_nonneg (c :: l)).
  destruct (Z.eqb_spec c 0); [intros [= <- <- <-]; by apply finish_result|].
  destruct (scan c l) as [e|lx] eqn:Hs.
  { intros [= <- <- <-]. split_and!; [done|lia..|]. apply scan_error in Hs. tauto. }
  destruct (act num p lx b) as [e|b1] eqn:Ha.
  { intros [= <- <- <-]. split_and!; [done|lia..|]. apply act_error in Ha. tauto. }
  pose proof (scan_width _ _ _ n Hs) as Hw.
  eapply act_ok in Ha as [Hb1 _]; [|done|by eapply scan_lexeme_ok|done].
  intros Ht. apply IH in Ht as (? & Hp' & ?); [|lia|done].
  unfold parse_result, zlen in *. rewrite length_drop in Hp'. split_and!; [done|lia..|done].
Qed.

Lemma tokenize_bound fuel num p l b r p' b' :
  0 ≤ p → builder_ok p b → tokenize fuel num p l b = (r, p', b') →
  zlen (b_toks b') ≤ Z.max (zlen (b_toks b)) num.
Proof.
  revert p l b. induction fuel as [|fuel IH]; intros p l b Hp Hb; simpl.
  { intros [= _ _ <-]. lia. }
  destruct l as [|c l]; [intros [= _ _ <-]; lia|].
  destruct (Z.eqb_spec c 0); [intros [= _ _ <-]; lia|].
  destruct (scan c l) as [|lx] eqn:Hs; [intros [= _ _ <-]; lia|].
  destruct (act num p lx b) as [|b1] eqn:Ha; [intros [= _ _ <-]; lia|].
  pose proof (act_room _ _ _ _ _ Ha) as Hroom.
  eapply act_ok in Ha as [Hb1 Hl]; [|done|by eapply scan_lexeme_ok|done].
  intros Ht. apply IH in Ht; [|lia|done]. unfold zlen in *.
  destruct lx; simpl in Hl; try (specialize (Hroom eq_refl)); lia.
Qed.

(** More fuel than characters changes nothing. *)
Lemma tokenize_fuel f1 f2 num p l b : (length l ≤ f1)%nat → (length l ≤ f2)%nat →
  tokenize f1 num p l b = tokenize f2 num p l b.
Proof.
  revert f2 p l b. induction f1 as [|f1 IH]; intros f2 p l b H1 H2.
  { destruct l; [by destruct f2|simpl in H1; lia]. }
  destruct l as [|c l]; [by destruct f2|]. destruct f2 as [|f2]; [simpl in H2; lia|].
  simpl. destruct (Z.eqb_spec c 0); [done|]. destruct (scan c l) as [|lx] eqn:Hs; [done|].
  destruct (act num p lx b); [done|]. pose proof (scan_width _ _ _ n Hs).
  apply IH; rewrite length_drop; simpl in *; lia.
Qed.

(** ** The specification of [jsmn_parse] *)

(** A parser just initialised, over a pool of tokens. *)
Definition start (pool : list jsmntok_t) : jsmn_parser :=
  jsmn_init (mk_parser 0 0 0 (Some pool)).
Lemma start_repr pool : start pool = repr 0 b_empty pool.
Proof. done. Qed.

Definition text_in (js : list Z) (len : Z) : Prop := 0 ≤ len < 2 ^ 31 - 1 ∧ len ≤ zlen js.

Lemma jsmn_parse_repr js len num p b junk :
  text_in js len → num < 2 ^ 31 → 0 ≤ p ≤ len → builder_ok p b → pool_ok num b junk →
  jsmn_parse js len num (repr p b junk) =
  let '(r, p', b') := tokenize (length (remaining js len p)) num p (remaining js len p) b in
  Ok (repr p' b' (junk_after b b' junk)) r.
Proof.
  intros [??] ????. rewrite jsmn_parse_act by done.
  pose proof (length_remaining js len ltac:(lia) ltac:(done) p ltac:(lia)).
  by rewrite (tokenize_fuel (Z.to_nat len) (length (remaining js len p))) by lia.
Qed.

Lemma pool_ok_start num pool : num ≤ zlen pool → pool_ok num b_empty pool.
Proof. split; [done|]. change (zlen (b_toks b_empty)) with 0. lia. Qed.

(** The parser on a token array that holds anything, from any point at which
    an earlier call of it can have stopped, computes the reference parser: the
    lexemes of the rest of the text act one after the other on a list of exactly
    the tokens allocated, and the tokens of the array past them are not touched. *)
Theorem jsmn_parse_refines js len num p b junk :
  text_in js len → num < 2 ^ 31 → 0 ≤ p ≤ len → builder_ok p b → pool_ok num b junk →
  ∃ r p' b', tokenize (Z.to_nat len) num p (remaining js len p) b = (r, p', b') ∧
    jsmn_parse js len num (repr p b junk) = Ok (repr p' b' (junk_after b b' junk)) r.
Proof.
  intros [??] ????. destruct (tokenize _ _ _ _ _) as [[r p'] b'] eqn:Ht. exists r, p', b'.
  split; [done|]. rewrite jsmn_parse_act by done. by rewrite Ht.
Qed.

Lemma jsmn_parse_ends js len num pool :
  text_in js len → num < 2 ^ 31 → num ≤ zlen pool →
  ∃ r p' toks super, jsmn_parse js len num (start pool) =
      Ok (mk_parser p' (zlen toks) super (Some (toks ++ drop (length toks) pool))) r ∧
    0 ≤ p' ≤ len ∧ zlen toks ≤ Z.max 0 num ∧ -1 ≤ super < zlen toks ∧
    (∀ i t, toks !! i = Some t → token_ok p' (length toks) i t) ∧
    (r = JSMN_ERROR_NOMEM ∧ num ≤ zlen toks ∨ r = JSMN_ERROR_INVAL ∨ r = JSMN_ERROR_PART ∨
     r = zlen toks ∧ ∀ t, t ∈ toks → is_open t = false).
Proof.
  intros Hjs Hnum Hpool. rewrite start_repr, jsmn_parse_repr;
    [|done|done|destruct Hjs; lia|apply b_empty_ok|by apply pool_ok_start].
  destruct (tokenize _ _ _ _ _) as [[r p'] [toks super]] eqn:Ht.
  pose proof (tokenize_bound _ num 0 _ b_empty _ _ _ ltac:(lia) (b_empty_ok 0) Ht) as Hbd.
  apply tokenize_result in Ht as ([Hs Hts] & Hp' & Hr); [|lia|apply b_empty_ok].
  exists r, p', toks, super. destruct Hjs as [??].
  pose proof (length_remaining js len ltac:(lia) ltac:(done) 0 ltac:(lia)).
  split; [unfold repr, junk_after; simpl; by rewrite Nat.sub_0_r|].
  split; [unfold zlen in *; lia|]. split; [exact Hbd|]. exact (conj Hs (conj Hts Hr)).
Qed.

(** C15: On every text and every array of at least [num_tokens] tokens the parser
    returns without leaving either. The result is one of the three errors, and
    [JSMN_ERROR_NOMEM] only when the tokens ran out, or else the number of tokens,
    none of which is left open; the tokens are well formed: each has its range
    inside the text read so far and a parent before it. *)
Theorem jsmn_parse_safe js len num pool :
  text_in js len → num < 2 ^ 31 → num ≤ zlen pool →
  ∃ r p' toks super, jsmn_parse js len num (start pool) =
      Ok (mk_parser p' (zlen toks) super (Some (toks ++ drop (length toks) pool))) r ∧
    0 ≤ p' ≤ len ∧ zlen toks ≤ Z.max 0 num ∧ -1 ≤ super < zlen toks ∧
    (∀ i t, toks !! i = Some t → token_ok p' (length toks) i t) ∧
    (r = JSMN_ERROR_NOMEM ∧ num ≤ zlen toks ∨ r = JSMN_ERROR_INVAL ∨ r = JSMN_ERROR_PART ∨
     r = zlen toks ∧ ∀ t, t ∈ toks → is_open t = false).
Proof. apply jsmn_parse_ends. Qed.

(** ** Resumption *)

Lemma append_mono num1 num2 type start_ end_ b : num1 ≤ num2 →
  append num1 type start_ end_ b = inl JSMN_ERROR_NOMEM ∨
  append num1 type start_ end_ b = append num2 type start_ end_ b.
Proof.
  intros. unfold append. destruct (Z.leb_spec num1 (zlen (b_toks b))); [by left|right].
  by rewrite (proj2 (Z.leb_gt _ _)) by lia.
Qed.
Lemma act_mono num1 num2 p lx b : num1 ≤ num2 →
  act num1 p lx b = inl JSMN_ERROR_NOMEM ∨ act num1 p lx b = act num2 p lx b.
Proof.
  intros. destruct lx; simpl; auto using append_mono.
  destruct (append_mono num1 num2 type p (-1) b ltac:(done)) as [-> | ->]; auto.
Qed.

(** A run that ran out of tokens stopped between two lexemes: going on from
    there with more tokens is the run with more tokens. *)
Lemma tokenize_resumes fuel num1 num2 p l b p1 b1 :
  num1 ≤ num2 → (length l ≤ fuel)%nat →
  tokenize fuel num1 p l b = (JSMN_ERROR_NOMEM, p1, b1) →
  p ≤ p1 ∧
  tokenize fuel num2 p1 (drop (Z.to_nat (p1 - p)) l) b1 = tokenize fuel num2 p l b.
Proof.
  intros Hnum. assert (Hfin : ∀ p b,
    ((if existsb is_open (b_toks b) then JSMN_ERROR_PART else zlen (b_toks b)), p, b)
      ≠ (JSMN_ERROR_NOMEM, p1, b1)).
  { intros q b0 [= H _ _]. pose proof (zlen_nonneg (b_toks b0)).
    unfold JSMN_ERROR_PART, JSMN_ERROR_NOMEM in H. destruct (existsb _ _); lia. }
  revert p l b. induction fuel as [|fuel IH]; intros p l b Hl; [by intros ?%Hfin|].
  destruct l as [|c l]; [by intros ?%Hfin|].
  change (tokenize (S fuel) num1 p (c :: l) b) with (
    if c =? 0 then ((if existsb is_open (b_toks b) then JSMN_ERROR_PART else zlen (b_toks b)), p, b)
    else match scan c l with
      | inl e => (e, p, b)
      | inr lx => match act num1 p lx b with
        | inl e => (e, p, b)
        | inr b' => tokenize fuel num1 (p + Z.of_nat (width lx)) (drop (width lx) (c :: l)) b'
        end end).
  destruct (Z.eqb_spec c 0) as [|Hc]; [by intros ?%Hfin|].
  destruct (scan c l) as [e|lx] eqn:Hs.
  { apply scan_error in Hs as [-> | ->]; done. }
  pose proof (scan_width _ _ _ Hc Hs) as Hw.
  destruct (act num1 p lx b) as [e|b'] eqn:Ha.
  { intros [= -> -> ->]. by rewrite Z.sub_diag. }
  intros Ht. apply IH in Ht as [Hp Ht]; [|rewrite length_drop; simpl in *; lia].
  split; [lia|]. destruct (act_mono num1 num2 p lx b Hnum) as [E|E]; rewrite E in Ha; [done|].
  assert (tokenize (S fuel) num2 p (c :: l) b =
    tokenize fuel num2 (p + Z.of_nat (width lx)) (drop (width lx) (c :: l)) b') as ->.
  { simpl. by rewrite (proj2 (Z.eqb_neq c 0) Hc), Hs, Ha. }
  rewrite <- Ht, drop_drop.
  replace (width lx + _)%nat with (Z.to_nat (p1 - p)) by lia.
  apply tokenize_fuel; rewrite length_drop; simpl in *; lia.
Qed.

(** When the parser has returned [JSMN_ERROR_NOMEM], a second call with a
    larger array that starts with the old one goes on where the first stopped:
    it ends as one call with the larger array from the start would have. *)
Theorem jsmn_parse_resumes js len num1 num2 pool extra s1 :
  text_in js len → num1 ≤ num2 < 2 ^ 31 → num1 ≤ zlen pool → num2 ≤ zlen (pool ++ extra) →
  jsmn_parse js len num1 (start pool) = Ok s1 JSMN_ERROR_NOMEM →
  jsmn_parse js len num2 (set_tokens ((.++ extra) <$> tokens s1) s1) =
  jsmn_parse js len num2 (start (pool ++ extra)).
Proof.
  intros Hjs Hnum Hpool Hpool2. pose proof Hjs as [??]. rewrite (start_repr pool), (start_repr (pool ++ extra)).
  rewrite jsmn_parse_repr; [|done|lia|lia|apply b_empty_ok|by apply pool_ok_start].
  destruct (tokenize _ num1 _ _ _) as [[r p1] b1] eqn:Ht. intros [= <- ->].
  pose proof Ht as Hr. apply tokenize_result in Hr as (Hb1 & Hp1 & _); [|lia|apply b_empty_ok].
  pose proof (length_remaining js len ltac:(lia) ltac:(done) 0 ltac:(lia)) as Hl0. unfold zlen in Hp1.
  pose proof Ht as [Hp Hres]%(tokenize_resumes _ _ num2); [|lia|done].
  apply tokenize_bound in Ht; [|lia|apply b_empty_ok]. change (zlen (b_toks b_empty)) with 0 in Ht.
  assert (Hlen : (length (b_toks b1) ≤ length pool)%nat) by (unfold zlen in *; lia).
  replace (set_tokens _ _) with (repr p1 b1 (junk_after b_empty b1 (pool ++ extra))).
  2:{ unfold set_tokens, repr, junk_after. simpl.
      by rewrite <- app_assoc, drop_app_le by lia. }
  assert (pool_ok num2 b1 (junk_after b_empty b1 (pool ++ extra))).
  { unfold pool_ok, junk_after, zlen in *. rewrite length_drop. rewrite length_app in *. simpl. lia. }
  rewrite (jsmn_parse_act js len num2 ltac:(lia) ltac:(lia) ltac:(lia) p1) by (done || lia).
  rewrite (jsmn_parse_act js len num2 ltac:(lia) ltac:(lia) ltac:(lia) 0)
    by (lia || apply b_empty_ok || by apply pool_ok_start).
  rewrite (tokenize_fuel (Z.to_nat len) (length (remaining js len 0)) num2 0) by lia.
  replace (drop _ _) with (remaining js len p1) in Hres
    by (rewrite remaining_drop by lia; f_equal; lia).
  rewrite <- Hres. pose proof (length_remaining js len ltac:(lia) ltac:(done) p1 ltac:(lia)).
  rewrite (tokenize_fuel (Z.to_nat len) (length (remaining js len 0)) num2 p1) by lia.
  destruct (tokenize _ num2 p1 _ b1) as [[r' p'] b'] eqn:Ht'.
  apply tokenize_grows in Ht'; [|lia|done]. by rewrite junk_after_trans by (simpl; lia).
Qed.

(** ** Tokens are stable *)

(** What a later step may change of a token: an open one is closed, and the
    number of members grows. *)
Definition token_le (t t' : jsmntok_t) : Prop :=
  tk_type t' = tk_type t ∧ tk_start t' = tk_start t ∧ tk_parent t' = tk_parent t ∧
  tk_size t ≤ tk_size t' ∧ (tk_end t' = tk_end t ∨ is_open t = true).
Definition tokens_le (ts ts' : list jsmntok_t) : Prop :=
  ∀ i t, ts !! i = Some t → ∃ t', ts' !! i = Some t' ∧ token_le t t'.

Lemma token_le_refl t : token_le t t.
Proof. unfold token_le. intuition lia. Qed.
Lemma token_le_trans t1 t2 t3 : token_le t1 t2 → token_le t2 t3 → token_le t1 t3.
Proof.
  unfold token_le, is_open. intros (? & E2 & ? & ? & He) (? & E3 & ? & ? & He').
  split_and!; try congruence; [lia|]. destruct He as [He|?]; [|by right].
  rewrite E2, He in He'. destruct He' as [?|?]; [left; congruence|by right].
Qed.
Lemma tokens_le_refl ts : tokens_le ts ts.
Proof. intros i t Hi. exists t. split; [done|apply token_le_refl]. Qed.
Lemma tokens_le_trans ts1 ts2 ts3 : tokens_le ts1 ts2 → tokens_le ts2 ts3 → tokens_le ts1 ts3.
Proof.
  intros H12 H23 i t Hi. destruct (H12 i t Hi) as (t2 & H2 & ?). destruct (H23 i t2 H2) as (t3 & H3 & ?).
  exists t3. split; [done|by eapply token_le_trans].
Qed.
#[export] Instance tokens_le_preorder : PreOrder tokens_le.
Proof. split; [exact tokens_le_refl|exact tokens_le_trans]. Qed.

Lemma append_le num type start_ end_ b b' :
  append num type start_ end_ b = inr b' → tokens_le (b_toks b) (b_toks b').
Proof.
  unfold append. destruct (num <=? _); [done|]. intros [= <-] i t Hi. simpl.
  pose proof (lookup_lt_Some _ _ _ Hi). rewrite lookup_app_l by (by rewrite length_bump).
  unfold bump. destruct (_ =? -1); [exists t; split; [done|apply token_le_refl]|].
  rewrite list_lookup_alter. case_decide as E; [|exists t; split; [done|apply token_le_refl]].
  rewrite E, Hi. exists (grow t). split; [done|]. unfold token_le, grow. simpl. intuition lia.
Qed.
Lemma close_from_le fuel type p b i b' :
  close_from fuel type p b i = inr b' → tokens_le (b_toks b) (b_toks b').
Proof.
  revert i. induction fuel as [|fuel IH]; intros i; simpl; [done|].
  destruct (b_toks b !! i) as [t|] eqn:Hi; [|done]. destruct (is_open t) eqn:Ho.
  - destruct (negb _); [done|]. intros [= <-] j u Hj. simpl. destruct (decide (i = j)) as [<-|Hne].
    + rewrite list_lookup_insert_eq by by eapply lookup_lt_Some. eexists. split; [done|].
      rewrite Hj in Hi. injection Hi as ->. unfold token_le, set_tk_end. simpl. intuition lia.
    + rewrite list_lookup_insert_ne by done. exists u. split; [done|apply token_le_refl].
  - destruct (_ =? -1); [|apply IH]. destruct (_ || _); [done|]. by intros [= <-].
Qed.
Lemma act_le num p lx b b' : act num p lx b = inr b' → tokens_le (b_toks b) (b_toks b').
Proof.
  destruct lx; simpl; eauto using append_le, close_from_le.
  - destruct (append _ _ _ _ _) eqn:Ha; [done|]. intros [= <-]. simpl. by eapply append_le.
  - by intros [= <-].
  - intros [= <-]. by rewrite b_toks_leave_scalar.
  - by intros [= <-].
Qed.
Lemma tokenize_le fuel num p l b r p' b' :
  tokenize fuel num p l b = (r, p', b') → tokens_le (b_toks b) (b_toks b').
Proof.
  revert p l b. induction fuel as [|fuel IH]; intros p l b; simpl; [by intros [= _ _ <-]|].
  destruct l as [|c l]; [by intros [= _ _ <-]|]. destruct (c =? 0); [by intros [= _ _ <-]|].
  destruct (scan c l) as [|lx]; [by intros [= _ _ <-]|].
  destruct (act num p lx b) as [|b1] eqn:Ha; [by intros [= _ _ <-]|].
  intros Ht%IH. apply act_le in Ha. by transitivity (b_toks b1).
Qed.

(** C30: Well-formed tokens stay well formed through every call, whatever it
    returns, and what an earlier call found out stands: each token keeps its
    type, its start and its parent, its number of members only grows, and its end
    changes only when it was open. *)
Theorem jsmn_parse_keeps_tokens js len num p b junk :
  text_in js len → num < 2 ^ 31 → 0 ≤ p ≤ len → builder_ok p b → pool_ok num b junk →
  ∃ r p' b', jsmn_parse js len num (repr p b junk) = Ok (repr p' b' (junk_after b b' junk)) r ∧
    p ≤ p' ≤ len ∧ builder_ok p' b' ∧ tokens_le (b_toks b) (b_toks b').
Proof.
  intros Hjs ????. pose proof Hjs as [??]. rewrite jsmn_parse_repr by done.
  pose proof (length_remaining js len ltac:(lia) ltac:(done) p ltac:(lia)).
  destruct (tokenize _ _ _ _ _) as [[r p'] b'] eqn:Ht. exists r, p', b'. split; [done|].
  pose proof (tokenize_le _ _ _ _ _ _ _ _ Ht). apply tokenize_result in Ht as (? & ? & _); [|lia|done].
  unfold zlen in *. split_and!; done || lia.
Qed.

(** ** Counting without tokens *)

(** The number of tokens of a text, or the error of its first bad lexeme. *)
Fixpoint count_tokens (fuel : nat) (l : list Z) (count : Z) : Z :=
  match fuel, l with
  | S fuel', c :: l' =>
      if c =? 0 then count
      else
        match scan c l' with
        | inl e => e
        | inr lx => count_tokens fuel' (drop (width lx) l) (count + Z.of_nat (adds lx))
        end
  | _, _ => count
  end.

Section count.
Context (js : list Z) (len num : Z).
Hypothesis len_range : 0 ≤ len < 2 ^ 31 - 1.
Hypothesis len_js : len ≤ zlen js.

Definition count_super (next super : Z) (lx : lexeme) : Z :=
  match lx with LColon => s32 (u32 (next - 1)) | _ => super end.

Lemma after_scalar_null count p next super : 0 ≤ count < 2 ^ 31 - 1 →
  after_scalar 0 count (mk_parser p next super None) = Ok (mk_parser p next super None) (inr (count + 1)).
Proof.
  intros. unfold after_scalar. change (0 <? 0) with false. cbv iota. rewrite !gets_bind. simpl.
  by rewrite andb_false_r, s32_small by lia.
Qed.

Lemma parse_char_null count p next super :
  0 ≤ p < len → 0 ≤ count < 2 ^ 31 - 1 → byte js p ≠ 0 →
  parse_char (byte js p) js len num count (mk_parser p next super None) =
  match scan (byte js p) (remaining js len (p + 1)) with
  | inl e => Ok (mk_parser p next super None) (inl e)
  | inr lx => Ok (mk_parser (p + Z.of_nat (width lx) - 1) next (count_super next super lx) None)
      (inr (count + Z.of_nat (adds lx)))
  end.
Proof.
  intros Hp Hn Hc.
  assert (∀ n, scan (byte js p) (remaining js len (p + 1)) = inr (LPrimitive n) → (0 < n)%nat) as Hpos
    by (intros n Hs; apply scan_width in Hs; [simpl in Hs; lia|done]).
  revert Hpos. unfold parse_char, scan.
  assert (p + Z.of_nat 1 - 1 = p) as Hp1 by lia.
  destruct (_ || (byte js p =? 91)).
  { intros _. unfold parse_open. cbv zeta. rewrite gets_bind. simpl tokens. cbv iota.
    rewrite s32_small by lia. simpl. by rewrite Hp1. }
  destruct (_ || (byte js p =? 93)).
  { intros _. unfold parse_close. rewrite gets_bind. simpl. by rewrite Hp1, Z.add_0_r. }
  destruct (Z.eqb_spec (byte js p) 34) as [E|E].
  { intros _. unfold jsmn_parse_string. rewrite bind_assoc, gets_bind. cbv zeta. simpl pos.
    rewrite s32_small, bind_assoc by lia. erewrite bind_ok by (apply pos_add_ok; simpl; lia).
    unfold mbind at 1, ST_bind at 1. unfold set_pos. simpl pos.
    rewrite (string_loop_scan js len) by (simpl; lia). simpl pos.
    destruct (scan_string _ _) as [e|n] eqn:Hs.
    - unfold set_pos. simpl. assert (e < 0) as He by (edestruct (scan_error 34 (remaining js len (p + 1)) e) as [-> | ->];
        [unfold scan; by rewrite Hs|done..]).
      unfold after_scalar. by rewrite (proj2 (Z.ltb_lt _ _) He).
    - unfold set_pos. simpl. change (close_string p num ?s) with (@Ok jsmn_parser Z s 0). cbv iota.
      rewrite after_scalar_null by lia. simpl width. simpl count_super. do 2 f_equal. lia. }
  destruct (_ || (byte js p =? 32)); [intros _; simpl; by rewrite Hp1, Z.add_0_r|].
  destruct (byte js p =? 58).
  { intros _. rewrite gets_bind, modify_bind. simpl. unfold set_toksuper. simpl. by rewrite Hp1, Z.add_0_r. }
  destruct (byte js p =? 44).
  { intros _. unfold parse_comma. rewrite !gets_bind. simpl. by rewrite Hp1, Z.add_0_r. }
  rewrite <- (remaining_cons js len len_js p) by lia. intros Hpos.
  unfold jsmn_parse_primitive. rewrite bind_assoc, gets_bind. cbv zeta. simpl pos.
  rewrite s32_small, bind_assoc by lia. unfold mbind at 1, ST_bind at 1.
  rewrite (primitive_loop_scan js len) by (simpl; lia). simpl pos.
  destruct (scan_primitive _) as [n|] eqn:Hs; [|done]. specialize (Hpos n eq_refl).
  pose proof (scan_primitive_length _ _ Hs).
  pose proof (length_remaining js len ltac:(lia) len_js p ltac:(lia)).
  rewrite bind_assoc, gets_bind. simpl tokens. cbv iota. rewrite bind_assoc.
  erewrite bind_ok by (apply pos_add_ok; simpl; lia). rewrite ret_bind. unfold set_pos. simpl.
  by rewrite after_scalar_null by lia.
Qed.

Lemma parse_loop_null fuel fuel' count p next super :
  0 ≤ p ≤ len → 0 ≤ count ≤ p →
  len - p < Z.of_nat fuel → (length (remaining js len p) ≤ fuel')%nat →
  ∃ p' super', (parse_loop fuel js len num count ≫= parse_end) (mk_parser p next super None) =
    Ok (mk_parser p' next super' None) (count_tokens fuel' (remaining js len p) count).
Proof.
  revert fuel' count p super. induction fuel as [|fuel IH]; intros fuel' count p super Hp Hn Hf Hf'; [lia|].
  simpl parse_loop. destruct (decide (p = len)) as [->|Hlt].
  { rewrite bind_assoc, (bind_ok _ _ _ _ _ (in_text_end js len (mk_parser len next super None) ltac:(simpl; lia))).
    rewrite remaining_nil by lia. exists len, super. by destruct fuel'. }
  rewrite (remaining_cons js len len_js p) in Hf' |- * by lia.
  destruct fuel' as [|fuel']; simpl in Hf'; [lia|]. simpl count_tokens. rewrite bind_assoc.
  rewrite (bind_ok _ _ _ _ _ (in_text_at js len len_js (mk_parser p next super None) ltac:(simpl; lia))).
  simpl pos. destruct (Z.eqb_spec (byte js p) 0) as [E0|E0]; simpl negb; cbv iota.
  { exists p, super. done. }
  rewrite bind_assoc, gets_bind, bind_assoc. simpl pos.
  rewrite (bind_ok _ _ _ _ _ (js_at_ok js len len_js p (mk_parser p next super None) ltac:(lia))), bind_assoc.
  unfold mbind at 1, ST_bind at 1. rewrite parse_char_null by (done || lia).
  destruct (scan _ _) as [e|lx] eqn:Hs; [by exists p, super|].
  pose proof (scan_width _ _ _ E0 Hs) as Hw. simpl in Hw.
  pose proof (length_remaining js len ltac:(lia) len_js (p + 1) ltac:(lia)).
  assert (adds lx ≤ 1)%nat by (destruct lx; simpl; lia). cbv iota.
  rewrite bind_assoc. erewrite bind_ok by (apply pos_add_ok; simpl; lia).
  unfold set_pos. simpl pos. simpl toknext. simpl toksuper. simpl tokens.
  replace (p + Z.of_nat (width lx) - 1 + 1) with (p + Z.of_nat (width lx)) by lia.
  rewrite <- (remaining_cons js len len_js p) by lia.
  replace (drop (width lx) (remaining js len p)) with (remaining js len (p + Z.of_nat (width lx)))
    by (rewrite <- remaining_drop by lia; by rewrite Nat2Z.id).
  apply IH; pose proof (length_remaining js len ltac:(lia) len_js (p + Z.of_nat (width lx)) ltac:(lia)); lia.
Qed.
End count.

Lemma count_tokens_error fuel l count e : count_tokens fuel l count = e → 0 ≤ count →
  0 ≤ e ∨ e = JSMN_ERROR_INVAL ∨ e = JSMN_ERROR_PART.
Proof.
  revert l count. induction fuel as [|fuel IH]; intros l count; simpl; [intros <-; auto|].
  destruct l as [|c l]; [intros <-; auto|]. destruct (c =? 0); [intros <-; auto|].
  destruct (scan c l) as [e'|lx] eqn:Hs; [intros <- _; apply scan_error in Hs; auto|].
  intros ? ?. eapply IH; [done|lia].
Qed.

Lemma tokenize_count fuel num p l b r p' b' : 0 ≤ p → builder_ok p b → 0 ≤ r →
  tokenize fuel num p l b = (r, p', b') → count_tokens fuel l (zlen (b_toks b)) = r.
Proof.
  intros Hp Hb Hr. assert (Hfin : ∀ p b,
    ((if existsb is_open (b_toks b) then JSMN_ERROR_PART else zlen (b_toks b)), p, b) = (r, p', b') →
    zlen (b_toks b) = r).
  { intros q b0 [= H _ _]. destruct (existsb _ _); unfold JSMN_ERROR_PART in *; lia. }
  revert p l b Hp Hb. induction fuel as [|fuel IH]; intros p l b Hp Hb; simpl; [apply Hfin|].
  destruct l as [|c l]; [apply Hfin|]. destruct (Z.eqb_spec c 0); [apply Hfin|].
  destruct (scan c l) as [e|lx] eqn:Hs.
  { intros [= <- _ _]. apply scan_error in Hs. unfold JSMN_ERROR_INVAL, JSMN_ERROR_PART in *. lia. }
  destruct (act num p lx b) as [e|b1] eqn:Ha.
  { intros [= <- _ _]. apply act_error in Ha.
    unfold JSMN_ERROR_INVAL, JSMN_ERROR_NOMEM in *. lia. }
  eapply act_ok in Ha as [Hb1 Hl]; [|done|by eapply scan_lexeme_ok|done].
  intros Ht. replace (_ + _) with (zlen (b_toks b1)) by (unfold zlen; lia).
  eapply IH; [|done..]. lia.
Qed.

(** The parser in counting mode. *)
Definition count_mode : jsmn_parser := jsmn_init (mk_parser 0 0 0 None).

(** The counting mode: when the parser succeeds with some token array, a call
    with [tokens == NULL] returns the same number, so that the caller may size
    the array with it; and the counting call itself never fails for lack of
    tokens. *)
Theorem jsmn_parse_counts js len num num' pool s r :
  text_in js len → num < 2 ^ 31 → num ≤ zlen pool →
  jsmn_parse js len num (start pool) = Ok s r →
  ∃ s' n, jsmn_parse js len num' count_mode = Ok s' n ∧ n ≠ JSMN_ERROR_NOMEM ∧ (0 ≤ r → n = r).
Proof.
  intros Hjs Hnum Hpool. pose proof Hjs as [??].
  rewrite start_repr, jsmn_parse_repr; [|done|done|lia|apply b_empty_ok|by apply pool_ok_start].
  destruct (tokenize _ num _ _ _) as [[r0 p1] b1] eqn:Ht. intros [= _ ->].
  pose proof (length_remaining js len ltac:(lia) ltac:(done) 0 ltac:(lia)).
  destruct (parse_loop_null js len num' ltac:(lia) ltac:(done) (S (Z.to_nat len))
    (length (remaining js len 0)) 0 0 0 (-1)) as (p' & super' & Hn); [lia..|].
  exists (mk_parser p' 0 super' None), (count_tokens (length (remaining js len 0)) (remaining js len 0) 0).
  split_and!; [exact Hn| |].
  - edestruct (count_tokens_error (length (remaining js len 0)) (remaining js len 0) 0) as [?|[E|E]];
      [done|lia| |rewrite E; done..]. unfold JSMN_ERROR_NOMEM. lia.
  - intros Hr. by eapply (tokenize_count _ num 0 _ b_empty); [|apply b_empty_ok| |].
Qed.
