(* ===== verification/JsmnTree.v ===== *)
(** * JSON documents and their tokens

    A document is a concrete syntax tree: values with the blanks between them.
    [vtext] prints it; [vtoks] lists the tokens it stands for. The parser, run on
    the text of a document, returns exactly its tokens. *)

From Stdlib Require Import ZArith Lia.
From stdpp Require Import base list.
From S2P Require Import RTThread.
From S2P Require Import Prelude.
From S2P Require Import Bytes.
From S2P Require Import Jsmn.
From S2P Require Import JsmnReference.
From S2P Require Import JsmnRefine.
From S2P Require Import JsmnSpec.

(** ** Documents *)

(** [w]s are blanks; a string and a key are the characters between the quotes. *)
Inductive jval : Set :=
  | VString (s : list Z)
  | VPrimitive (s : list Z)
  | VArray (w : list Z) (e : elems)
  | VObject (w : list Z) (m : members)
with elems : Set :=
  | ENil
  | ECons (v : jval) (w1 w2 : list Z) (e : elems)
with members : Set :=
  | MNil
  | MCons (k w1 w2 : list Z) (v : jval) (w3 w4 : list Z) (m : members).

Scheme jval_mut := Induction for jval Sort Prop
  with elems_mut := Induction for elems Sort Prop
  with members_mut := Induction for members Sort Prop.
Combined Scheme document_ind from jval_mut, elems_mut, members_mut.

(** An element is followed by the blanks [w1], and by a comma and the blanks
    [w2] when it is not the last. *)
Fixpoint vtext (v : jval) : list Z :=
  match v with
  | VString s => 34 :: s ++ [34]
  | VPrimitive s => s
  | VArray w e => 91 :: w ++ etext e ++ [93]
  | VObject w m => 123 :: w ++ mtext m ++ [125]
  end
with etext (e : elems) : list Z :=
  match e with
  | ENil => []
  | ECons v w1 w2 e' =>
      vtext v ++ w1 ++ match e' with ENil => [] | _ => 44 :: w2 ++ etext e' end
  end
with mtext (m : members) : list Z :=
  match m with
  | MNil => []
  | MCons k w1 w2 v w3 w4 m' =>
      34 :: k ++ 34 :: w1 ++ 58 :: w2 ++ vtext v ++ w3 ++
      match m' with MNil => [] | _ => 44 :: w4 ++ mtext m' end
  end.

Fixpoint ecount (e : elems) : nat :=
  match e with ENil => O | ECons _ _ _ e' => S (ecount e') end.
Fixpoint mcount (m : members) : nat :=
  match m with MNil => O | MCons _ _ _ _ _ _ m' => S (mcount m') end.

(** The tokens of a value that starts at position [p], whose first token has
    index [n] and whose parent has index [par]. *)
Fixpoint vtoks (p n par : Z) (v : jval) : list jsmntok_t :=
  match v with
  | VString s => [mk_tok JSMN_STRING (p + 1) (p + 1 + zlen s) 0 par]
  | VPrimitive s => [mk_tok JSMN_PRIMITIVE p (p + zlen s) 0 par]
  | VArray w e =>
      mk_tok JSMN_ARRAY p (p + zlen (vtext v)) (Z.of_nat (ecount e)) par ::
      etoks (p + 1 + zlen w) (n + 1) n e
  | VObject w m =>
      mk_tok JSMN_OBJECT p (p + zlen (vtext v)) (Z.of_nat (mcount m)) par ::
      mtoks (p + 1 + zlen w) (n + 1) n m
  end
with etoks (p n par : Z) (e : elems) : list jsmntok_t :=
  match e with
  | ENil => []
  | ECons v w1 w2 e' =>
      vtoks p n par v ++
      etoks (p + zlen (vtext v) + zlen w1 + 1 + zlen w2) (n + zlen (vtoks p n par v)) par e'
  end
with mtoks (p n par : Z) (m : members) : list jsmntok_t :=
  match m with
  | MNil => []
  | MCons k w1 w2 v w3 w4 m' =>
      let q := p + zlen k + zlen w1 + zlen w2 + 3 in
      mk_tok JSMN_STRING (p + 1) (p + 1 + zlen k) 1 par ::
      vtoks q (n + 1) n v ++
      mtoks (q + zlen (vtext v) + zlen w3 + 1 + zlen w4) (n + 1 + zlen (vtoks q (n + 1) n v)) par m'
  end.

(** ** Which documents are valid *)

Definition blank (w : list Z) : bool :=
  forallb (λ c, (c =? 9) || (c =? 13) || (c =? 10) || (c =? 32)) w.
(** The characters of a string: escapes are complete, and no quote is bare. *)
Definition valid_string (s : list Z) : bool :=
  match scan_string SText (s ++ [34]) with
  | inr n => Nat.eqb n (length s)
  | inl _ => false
  end.
Definition prim_char (c : Z) : bool := (33 <=? c) && (c <? 127) && negb (ends_primitive c).
(** A word that does not start like another lexeme. *)
Definition valid_primitive (s : list Z) : bool :=
  match s with
  | [] => false
  | c :: _ => negb ((c =? 34) || (c =? 91) || (c =? 123)) && forallb prim_char s
  end.
Fixpoint valid (v : jval) : bool :=
  match v with
  | VString s => valid_string s
  | VPrimitive s => valid_primitive s
  | VArray w e => blank w && evalid e
  | VObject w m => blank w && mvalid m
  end
with evalid (e : elems) : bool :=
  match e with
  | ENil => true
  | ECons v w1 w2 e' => valid v && blank w1 && blank w2 && evalid e'
  end
with mvalid (m : members) : bool :=
  match m with
  | MNil => true
  | MCons k w1 w2 v w3 w4 m' =>
      valid_string k && blank w1 && blank w2 && valid v && blank w3 && blank w4 && mvalid m'
  end.

(** ** Lexing printed lexemes *)

Definition tok (num p : Z) (l : list Z) (b : builder) : Z * Z * builder :=
  tokenize (length l) num p l b.

Lemma tok_step num p c l lx b b' :
  c ≠ 0 → scan c l = inr lx → act num p lx b = inr b' →
  tok num p (c :: l) b = tok num (p + Z.of_nat (width lx)) (drop (width lx) (c :: l)) b'.
Proof.
  intros Hc Hs Ha. pose proof (scan_width _ _ _ Hc Hs) as Hw. unfold tok. simpl tokenize at 1.
  rewrite (proj2 (Z.eqb_neq c 0) Hc), Hs, Ha. apply tokenize_fuel; [|done].
  rewrite length_drop. simpl in *. lia.
Qed.

Lemma tok_blank num p w l b : blank w = true → tok num p (w ++ l) b = tok num (p + zlen w) l b.
Proof.
  revert p. induction w as [|c w IH]; intros p Hw; [by rewrite zlen_nil, Z.add_0_r|].
  simpl in Hw. apply andb_true_iff in Hw as [Hc Hw].
  assert (c = 9 ∨ c = 13 ∨ c = 10 ∨ c = 32) as Hc'
    by (rewrite !orb_true_iff, !Z.eqb_eq in Hc; tauto).
  change ((c :: w) ++ l) with (c :: w ++ l).
  rewrite (tok_step _ _ _ _ LBlank b b); [|lia|by destruct Hc' as [-> |[-> |[-> | ->]]]|done].
  rewrite zlen_cons. change (drop (width LBlank) (c :: w ++ l)) with (w ++ l).
  rewrite IH by done. f_equal. simpl. lia.
Qed.

Lemma scan_string_app m s r n : scan_string m s = inr n → scan_string m (s ++ r) = inr n.
Proof.
  revert m n. induction s as [|c s IH]; intros m n; [done|]. simpl.
  assert (∀ m', (match scan_string m' s with inl e => inl e | inr n => inr (S n) end = inr n) →
    (match scan_string m' (s ++ r) with inl e => inl e | inr n => inr (S n) end = inr n)) as Hgo.
  { intros m'. destruct (scan_string m' s) as [|k] eqn:Hk; [done|]. by rewrite (IH _ _ Hk). }
  destruct (decide (s = [])) as [->|Hne].
  - destruct m as [| |[|k]]; repeat (match goal with |- context [if ?b then _ else _] => destruct b end);
      simpl; done.
  - rewrite !bool_decide_eq_false_2 by (try intros [? ?]%app_eq_nil; done).
    destruct m as [| |[|k]]; repeat (match goal with |- context [if ?b then _ else _] => destruct b end);
      auto; done.
Qed.

Lemma append_inr num type start_ end_ b :
  zlen (b_toks b) < num →
  append num type start_ end_ b =
    inr (mk_builder (bump (b_super b) (b_toks b) ++ [mk_tok type start_ end_ 0 (b_super b)]) (b_super b)).
Proof. intros. unfold append. by rewrite (proj2 (Z.leb_gt _ _)) by lia. Qed.

Lemma tok_string num p s l b :
  valid_string s = true → zlen (b_toks b) < num →
  tok num p (34 :: s ++ 34 :: l) b =
  tok num (p + zlen s + 2) l
    (mk_builder (bump (b_super b) (b_toks b) ++ [mk_tok JSMN_STRING (p + 1) (p + 1 + zlen s) 0 (b_super b)]) (b_super b)).
Proof.
  unfold valid_string. destruct (scan_string SText (s ++ [34])) as [|n] eqn:Hs; [done|].
  intros ->%Nat.eqb_eq Hn. apply (scan_string_app _ _ l) in Hs. rewrite <- app_assoc in Hs.
  erewrite (tok_step _ _ _ _ (LString (length s))); [|done|unfold scan; simpl in *; by rewrite Hs|].
  2:{ simpl. by rewrite append_inr. }
  simpl width. change (34 :: s ++ 34 :: l) with ([34] ++ s ++ [34] ++ l).
  rewrite !app_assoc, drop_app_length' by (rewrite !length_app; simpl; lia).
  f_equal. unfold zlen. lia.
Qed.

(** The text after a value ends a primitive. *)
Definition delimited (l : list Z) : bool :=
  match l with [] => true | c :: _ => (c =? 0) || ends_primitive c end.

Lemma scan_primitive_app s l : forallb prim_char s = true → delimited l = true →
  scan_primitive (s ++ l) = Some (length s).
Proof.
  intros Hs Hl. induction s as [|c s IH]; simpl in *.
  - destruct l as [|c l]; [done|]. simpl in *. by rewrite Hl.
  - apply andb_true_iff in Hs as [Hc Hs]. rewrite IH by done. unfold prim_char in Hc.
    apply andb_true_iff in Hc as [[Hc1 Hc2]%andb_true_iff Hc3%negb_true_iff].
    rewrite Hc3, (proj2 (Z.eqb_neq c 0)), (proj2 (Z.ltb_ge c 32)), (proj2 (Z.leb_gt 127 c)) by lia. done.
Qed.

Lemma tok_primitive num p s l b :
  valid_primitive s = true → delimited l = true → zlen (b_toks b) < num →
  tok num p (s ++ l) b =
  tok num (p + zlen s) l
    (mk_builder (bump (b_super b) (b_toks b) ++ [mk_tok JSMN_PRIMITIVE p (p + zlen s) 0 (b_super b)]) (b_super b)).
Proof.
  unfold valid_primitive. destruct s as [|c s]; [done|]. intros [Hc Hs]%andb_true_iff Hl Hn.
  pose proof (scan_primitive_app _ _ Hs Hl) as Hsc.
  simpl in Hs. apply andb_true_iff in Hs as [Hpc _]. unfold prim_char in Hpc.
  apply andb_true_iff in Hpc as [[Hc1 Hc2]%andb_true_iff Hc3%negb_true_iff].
  unfold ends_primitive in Hc3. rewrite !orb_false_iff in Hc3. rewrite negb_true_iff, !orb_false_iff in Hc.
  destruct Hc as [[E34 E91] E123]. destruct Hc3 as (((((((E58 & E9) & E13) & E10) & E32) & E44) & E93) & E125).
  change ((c :: s) ++ l) with (c :: s ++ l) in *.
  erewrite (tok_step _ _ _ _ (LPrimitive (length (c :: s)))); [|lia| |].
  - simpl width. change (c :: s ++ l) with ((c :: s) ++ l).
    rewrite (drop_app_length' (c :: s)) by done. done.
  - unfold scan. by rewrite E34, E91, E123, E58, E9, E13, E10, E32, E44, E93, E125, Hsc.
  - simpl. by rewrite append_inr.
Qed.

(** ** The tokens of a document are closed *)

(** Tokens [ts], the first of which has index [n], are closed and their parents
    lie between [a] and themselves. *)
Definition closed_in (a n : Z) (ts : list jsmntok_t) : Prop :=
  ∀ j t, ts !! j = Some t → is_open t = false ∧ a ≤ tk_parent t < n + Z.of_nat j.

Lemma closed_in_nil a n : closed_in a n [].
Proof. done. Qed.
Lemma closed_in_cons a n t ts :
  is_open t = false → a ≤ tk_parent t < n → closed_in a (n + 1) ts → closed_in a n (t :: ts).
Proof.
  intros Ho Hp Hts [|j] u Hu; simpl in Hu; [injection Hu as <-; split; [done|lia]|].
  destruct (Hts j u Hu). split; [done|lia].
Qed.
Lemma closed_in_app a n ts us :
  closed_in a n ts → closed_in a (n + zlen ts) us → closed_in a n (ts ++ us).
Proof.
  intros Hts Hus j t [Hj|[Hl Hj]]%lookup_app_Some; [by apply Hts|].
  destruct (Hus _ _ Hj). split; [done|]. unfold zlen in *. lia.
Qed.
Lemma closed_in_weaken a a' n ts : a' ≤ a → closed_in a n ts → closed_in a' n ts.
Proof. intros ? Hts j t Hj. destruct (Hts j t Hj). split; [done|lia]. Qed.

Lemma is_open_end ty s e z par : 0 ≤ e → is_open (mk_tok ty s e z par) = false.
Proof. intros. unfold is_open. simpl. rewrite (proj2 (Z.eqb_neq e (-1))) by lia. apply andb_false_r. Qed.

Lemma vtoks_closed_all :
  (∀ v p n par, 0 ≤ p → 0 ≤ n → par < n → closed_in par n (vtoks p n par v)) ∧
  (∀ e p n par, 0 ≤ p → 0 ≤ n → par < n → closed_in par n (etoks p n par e)) ∧
  (∀ m p n par, 0 ≤ p → 0 ≤ n → par < n → closed_in par n (mtoks p n par m)).
Proof.
  apply document_ind.
  - intros s p n par ???. apply closed_in_cons; [|simpl; lia|apply closed_in_nil].
    apply is_open_end. pose proof (zlen_nonneg s). lia.
  - intros s p n par ???. apply closed_in_cons; [|simpl; lia|apply closed_in_nil].
    apply is_open_end. pose proof (zlen_nonneg s). lia.
  - intros w e IH p n par ???. pose proof (zlen_nonneg w). apply closed_in_cons; [|simpl; lia|].
    + apply is_open_end. pose proof (zlen_nonneg (vtext (VArray w e))). lia.
    + apply (closed_in_weaken n); [lia|]. apply IH; lia.
  - intros w m IH p n par ???. pose proof (zlen_nonneg w). apply closed_in_cons; [|simpl; lia|].
    + apply is_open_end. pose proof (zlen_nonneg (vtext (VObject w m))). lia.
    + apply (closed_in_weaken n); [lia|]. apply IH; lia.
  - intros. apply closed_in_nil.
  - intros v IHv w1 w2 e IHe p n par ???. simpl. pose proof (zlen_nonneg (vtext v)).
    pose proof (zlen_nonneg w1). pose proof (zlen_nonneg w2). pose proof (zlen_nonneg (vtoks p n par v)).
    apply closed_in_app; [by apply IHv|apply IHe; lia].
  - intros. apply closed_in_nil.
  - intros k w1 w2 v IHv w3 w4 m IHm p n par ???. simpl. pose proof (zlen_nonneg (vtext v)).
    pose proof (zlen_nonneg k). pose proof (zlen_nonneg w1). pose proof (zlen_nonneg w2).
    pose proof (zlen_nonneg w3). pose proof (zlen_nonneg w4).
    set (q := p + zlen k + zlen w1 + zlen w2 + 3).
    pose proof (zlen_nonneg (vtoks q (n + 1) n v)).
    apply closed_in_cons; [apply is_open_end; lia|simpl; lia|].
    apply closed_in_app; [apply (closed_in_weaken n); [lia|apply IHv; lia]|].
    apply IHm; lia.
Qed.

(** Closing from the last token: the walk passes over closed tokens to the open
    one. *)
Lemma close_from_walk fuel type p b i a t0 :
  b_toks b !! a = Some t0 → is_open t0 = true → tk_type t0 = type → (a ≤ i)%nat → (i < fuel)%nat →
  (i < length (b_toks b))%nat →
  (∀ j t, (a < j)%nat → b_toks b !! j = Some t → is_open t = false ∧ Z.of_nat a ≤ tk_parent t < Z.of_nat j) →
  close_from fuel type p b i = inr (mk_builder (<[a := set_tk_end (p + 1) t0]> (b_toks b)) (tk_parent t0)).
Proof.
  intros Ha Ho Hty. revert i. induction fuel as [|fuel IH]; intros i Hi Hf Hl Hin; [lia|]. simpl.
  destruct (decide (i = a)) as [->|Hne].
  - rewrite Ha, Ho. by rewrite (bool_decide_eq_true_2 _ Hty).
  - destruct (lookup_lt_is_Some_2 _ _ Hl) as [t Ht]. rewrite Ht.
    destruct (Hin i t) as [-> Hp]; [lia|done|].
    rewrite (proj2 (Z.eqb_neq _ (-1))) by lia. apply IH; try done; lia.
Qed.

Lemma close_last p ty s z par inner pre super :
  0 ≤ s → closed_in (zlen pre) (zlen pre + 1) inner →
  let ts := pre ++ mk_tok ty s (-1) z par :: inner in
  close_from (length ts) ty p (mk_builder ts super) (pred (length ts)) =
    inr (mk_builder (pre ++ mk_tok ty s (p + 1) z par :: inner) par).
Proof.
  intros Hs Hin ts. rewrite (close_from_walk _ ty p _ _ (length pre) (mk_tok ty s (-1) z par));
    unfold ts; simpl; rewrite ?length_app; simpl; try lia; try done.
  - do 2 f_equal. replace (length pre) with (length pre + 0)%nat by lia. by rewrite insert_app_r.
  - by apply list_lookup_middle.
  - unfold is_open. simpl. by rewrite (proj2 (Z.eqb_neq s (-1))) by lia.
  - intros j t Hj Ht. apply lookup_app_Some in Ht as [Ht%lookup_lt_Some|[_ Ht]]; [lia|].
    destruct (j - length pre)%nat as [|j'] eqn:Ej; [lia|]. destruct (Hin j' t Ht).
    split; [done|]. unfold zlen in *. lia.
Qed.

(** ** Parsing a printed document *)

Definition grow_n (k : nat) (t : jsmntok_t) : jsmntok_t := set_tk_size (tk_size t + Z.of_nat k) t.
Lemma grow_n_0 t : grow_n 0 t = t.
Proof. destruct t. unfold grow_n. simpl. by rewrite Z.add_0_r. Qed.
Lemma grow_n_S k t : grow_n k (grow t) = grow_n (S k) t.
Proof. destruct t. unfold grow_n, grow, set_tk_size. simpl. f_equal. lia. Qed.

Lemma bump_at pre t post : bump (zlen pre) (pre ++ t :: post) = pre ++ grow t :: post.
Proof.
  unfold bump. pose proof (zlen_nonneg pre). rewrite (proj2 (Z.eqb_neq _ _)) by lia.
  unfold zlen. rewrite Nat2Z.id. rewrite (alter_as_insert grow _ _ t) by by apply list_lookup_middle.
  replace (length pre) with (length pre + 0)%nat by lia. by rewrite insert_app_r.
Qed.
Lemma lookup_at {A} (pre : list A) t post : (pre ++ t :: post) !! Z.to_nat (zlen pre) = Some t.
Proof. unfold zlen. rewrite Nat2Z.id. by apply list_lookup_middle. Qed.

Lemma delimited_blank w l : blank w = true → delimited l = true → delimited (w ++ l) = true.
Proof.
  destruct w as [|c w]; [done|]. simpl. intros [Hc _]%andb_true_iff _.
  rewrite !orb_true_iff, !Z.eqb_eq in Hc. by destruct Hc as [[[-> | ->]| ->]| ->].
Qed.

Lemma tok_colon num p l ts super :
  tok num p (58 :: l) (mk_builder ts super) = tok num (p + 1) l (mk_builder ts (zlen ts - 1)).
Proof. by rewrite (tok_step _ _ _ _ LColon _ (mk_builder ts (zlen ts - 1))). Qed.

Lemma tok_comma num p l b : tok num p (44 :: l) b = tok num (p + 1) l (leave_scalar b).
Proof. by rewrite (tok_step _ _ _ _ LComma _ (leave_scalar b)). Qed.

Lemma tok_open num p c ty l b :
  scan c l = inr (LOpen ty) → c ≠ 0 → zlen (b_toks b) < num →
  tok num p (c :: l) b = tok num (p + 1) l
    (mk_builder (bump (b_super b) (b_toks b) ++ [mk_tok ty p (-1) 0 (b_super b)]) (zlen (b_toks b))).
Proof.
  intros Hs ? Hn. rewrite (tok_step _ _ _ _ (LOpen ty) _
    (mk_builder (bump (b_super b) (b_toks b) ++ [mk_tok ty p (-1) 0 (b_super b)]) (zlen (b_toks b))));
    try done. simpl. by rewrite append_inr.
Qed.

Lemma tok_close num p c ty l s z par inner pre super :
  scan c l = inr (LClose ty) → c ≠ 0 → 0 ≤ s → closed_in (zlen pre) (zlen pre + 1) inner →
  tok num p (c :: l) (mk_builder (pre ++ mk_tok ty s (-1) z par :: inner) super) =
  tok num (p + 1) l (mk_builder (pre ++ mk_tok ty s (p + 1) z par :: inner) par).
Proof.
  intros Hs ???. rewrite (tok_step _ _ _ _ (LClose ty) _
    (mk_builder (pre ++ mk_tok ty s (p + 1) z par :: inner) par)); try done.
  unfold act. simpl b_toks. by apply close_last.
Qed.

Definition value_parsed (v : jval) : Prop := ∀ num p ts super l,
  valid v = true → delimited l = true → 0 ≤ p → -1 ≤ super < zlen ts →
  zlen ts + zlen (vtoks p (zlen ts) super v) ≤ num →
  tok num p (vtext v ++ l) (mk_builder ts super) =
  tok num (p + zlen (vtext v)) l (mk_builder (bump super ts ++ vtoks p (zlen ts) super v) super).
Definition elems_parsed (e : elems) : Prop := ∀ num p pre t inner l,
  evalid e = true → delimited l = true → 0 ≤ p → tk_type t = JSMN_ARRAY →
  let n := zlen (pre ++ t :: inner) in
  n + zlen (etoks p n (zlen pre) e) ≤ num →
  tok num p (etext e ++ l) (mk_builder (pre ++ t :: inner) (zlen pre)) =
  tok num (p + zlen (etext e)) l
    (mk_builder (pre ++ grow_n (ecount e) t :: inner ++ etoks p n (zlen pre) e) (zlen pre)).
Definition members_parsed (m : members) : Prop := ∀ num p pre t inner l,
  mvalid m = true → delimited l = true → 0 ≤ p → tk_type t = JSMN_OBJECT →
  let n := zlen (pre ++ t :: inner) in
  n + zlen (mtoks p n (zlen pre) m) ≤ num →
  ∃ super, tok num p (mtext m ++ l) (mk_builder (pre ++ t :: inner) (zlen pre)) =
  tok num (p + zlen (mtext m)) l
    (mk_builder (pre ++ grow_n (mcount m) t :: inner ++ mtoks p n (zlen pre) m) super).

(** Lengths of lists built from their parts. *)
Ltac zlens := repeat first [rewrite zlen_app | rewrite zlen_cons | rewrite zlen_nil].

Lemma zlen_bump super ts : zlen (bump super ts) = zlen ts.
Proof. unfold zlen. by rewrite length_bump. Qed.

Lemma array_parsed w e : elems_parsed e → value_parsed (VArray w e).
Proof.
  intros IH num p ts super l Hv Hl Hp Hs Hn. simpl in Hv. apply andb_true_iff in Hv as [Hw He].
  pose proof (zlen_nonneg w). pose proof (zlen_nonneg ts).
  simpl vtoks in Hn |- *. rewrite zlen_cons in Hn.
  pose proof (zlen_nonneg (etoks (p + 1 + zlen w) (zlen ts + 1) (zlen ts) e)).
  simpl vtext. change ((91 :: ?x) ++ l) with (91 :: x ++ l). rewrite <- !app_assoc.
  erewrite tok_open by (done || simpl; lia). simpl b_toks. simpl b_super. rewrite tok_blank by done.
  pose proof (IH num (p + 1 + zlen w) (bump super ts) (mk_tok JSMN_ARRAY p (-1) 0 super) [] (93 :: l)
    He eq_refl ltac:(lia) eq_refl) as IHe.
  cbv zeta in IHe. rewrite zlen_app, zlen_bump in IHe. change (zlen [_]) with 1 in IHe.
  change ([93] ++ l) with (93 :: l). change (bracket_type 91) with JSMN_ARRAY. rewrite IHe by lia.
  unfold grow_n, set_tk_size. simpl. rewrite tok_close; [|done..|].
  - f_equal; [zlens; lia|]. do 4 f_equal. zlens. lia.
  - rewrite zlen_bump. by apply vtoks_closed_all; lia.
Qed.

Lemma object_parsed w m : members_parsed m → value_parsed (VObject w m).
Proof.
  intros IH num p ts super l Hv Hl Hp Hs Hn. simpl in Hv. apply andb_true_iff in Hv as [Hw Hm].
  pose proof (zlen_nonneg w). pose proof (zlen_nonneg ts).
  simpl vtoks in Hn |- *. rewrite zlen_cons in Hn.
  pose proof (zlen_nonneg (mtoks (p + 1 + zlen w) (zlen ts + 1) (zlen ts) m)).
  simpl vtext. change ((123 :: ?x) ++ l) with (123 :: x ++ l). rewrite <- !app_assoc.
  erewrite tok_open by (done || simpl; lia). simpl b_toks. simpl b_super. rewrite tok_blank by done.
  pose proof (IH num (p + 1 + zlen w) (bump super ts) (mk_tok JSMN_OBJECT p (-1) 0 super) [] (125 :: l)
    Hm eq_refl ltac:(lia) eq_refl) as IHm.
  cbv zeta in IHm. rewrite zlen_app, zlen_bump in IHm. change (zlen [_]) with 1 in IHm.
  destruct IHm as [super' IHm]; [lia|].
  change ([125] ++ l) with (125 :: l). change (bracket_type 123) with JSMN_OBJECT. rewrite IHm.
  unfold grow_n, set_tk_size. simpl. rewrite tok_close; [|done..|].
  - f_equal; [zlens; lia|]. do 4 f_equal. zlens. lia.
  - rewrite zlen_bump. by apply vtoks_closed_all; lia.
Qed.

Lemma elems_step v w1 w2 e : value_parsed v → elems_parsed e → elems_parsed (ECons v w1 w2 e).
Proof.
  intros IHv IHe num p pre t inner l Hv Hl Hp Ht n Hn. simpl in Hv.
  rewrite !andb_true_iff in Hv. destruct Hv as [[[Hv Hw1] Hw2] He].
  simpl etoks in Hn |- *. rewrite zlen_app in Hn. pose proof (zlen_nonneg pre).
  pose proof (zlen_nonneg (vtext v)). pose proof (zlen_nonneg w1). pose proof (zlen_nonneg w2).
  assert (n = zlen pre + 1 + zlen inner) as En by (unfold n; zlens; lia).
  pose proof (zlen_nonneg inner).
  set (vt := vtoks p n (zlen pre) v) in *. pose proof (zlen_nonneg vt).
  pose proof (zlen_nonneg (etoks (p + zlen (vtext v) + zlen w1 + 1 + zlen w2) (n + zlen vt) (zlen pre) e)).
  simpl etext. rewrite <- !app_assoc.
  rewrite (IHv num p (pre ++ t :: inner) (zlen pre)); [|done| |done|fold n; lia|fold n; fold vt; lia].
  2:{ apply delimited_blank; [done|]. by destruct e. }
  fold n. fold vt. rewrite bump_at, <- app_assoc, tok_blank by done. simpl.
  assert (e = ENil ∨ match e with ENil => [] | _ => 44 :: w2 ++ etext e end = 44 :: w2 ++ etext e)
    as [-> | ->] by (destruct e; auto).
  - simpl. rewrite !app_nil_r. rewrite <- (grow_n_0 (grow t)), grow_n_S.
    f_equal. zlens. lia.
  - simpl app. rewrite tok_comma, <- app_assoc, tok_blank by done.
    unfold leave_scalar. simpl b_super. simpl b_toks.
    rewrite (proj2 (Z.eqb_neq (zlen pre) (-1))) by lia.
    rewrite lookup_at. simpl tk_type. rewrite Ht. simpl. rewrite app_assoc.
    pose proof (IHe num (p + zlen (vtext v) + zlen w1 + 1 + zlen w2) pre (grow t) (inner ++ vt) l
      He Hl ltac:(lia) Ht) as Hrest. cbv zeta in Hrest.
    assert (zlen (pre ++ grow t :: inner ++ vt) = n + zlen vt) as En' by (zlens; lia).
    rewrite En' in Hrest. rewrite Hrest by lia. rewrite grow_n_S, <- app_assoc. f_equal.
    zlens. lia.
Qed.

Lemma members_step k w1 w2 v w3 w4 m :
  value_parsed v → members_parsed m → members_parsed (MCons k w1 w2 v w3 w4 m).
Proof.
  intros IHv IHm num p pre t inner l Hv Hl Hp Ht n Hn. simpl in Hv.
  rewrite !andb_true_iff in Hv. destruct Hv as [[[[[[Hk Hw1] Hw2] Hv] Hw3] Hw4] Hm].
  simpl mtoks in Hn |- *. rewrite zlen_cons, zlen_app in Hn. pose proof (zlen_nonneg pre).
  pose proof (zlen_nonneg k). pose proof (zlen_nonneg w1). pose proof (zlen_nonneg w2).
  pose proof (zlen_nonneg w3). pose proof (zlen_nonneg w4). pose proof (zlen_nonneg (vtext v)).
  pose proof (zlen_nonneg inner).
  assert (n = zlen pre + 1 + zlen inner) as En by (unfold n; zlens; lia).
  set (q := p + zlen k + zlen w1 + zlen w2 + 3) in *.
  set (vt := vtoks q (n + 1) n v) in *. pose proof (zlen_nonneg vt).
  set (q' := q + zlen (vtext v) + zlen w3 + 1 + zlen w4) in *.
  pose proof (zlen_nonneg (mtoks q' (n + 1 + zlen vt) (zlen pre) m)).
  set (kt := mk_tok JSMN_STRING (p + 1) (p + 1 + zlen k) 0 (zlen pre)).
  simpl mtext. simpl app. repeat (rewrite <- app_assoc; simpl app).
  rewrite tok_string by (done || fold n; simpl; lia). simpl b_toks. simpl b_super. fold n. fold kt.
  rewrite bump_at, <- app_assoc. simpl app. rewrite tok_blank, tok_colon, tok_blank by done.
  set (ts := pre ++ grow t :: inner ++ [kt]).
  assert (zlen ts = n + 1) as Ets by (unfold ts; zlens; lia). rewrite Ets.
  replace (n + 1 - 1) with n by lia.
  replace (p + zlen k + 2 + zlen w1 + 1 + zlen w2) with q by (unfold q; lia).
  rewrite (IHv num q ts n); [|done| |unfold q; lia|lia|rewrite Ets; fold vt; lia].
  2:{ apply delimited_blank; [done|]. by destruct m. }
  rewrite Ets. fold vt.
  assert (bump n ts = pre ++ grow t :: inner ++ [grow kt]) as ->.
  { unfold ts. replace (pre ++ grow t :: inner ++ [kt]) with ((pre ++ grow t :: inner) ++ [kt])
      by (rewrite <- app_assoc; done).
    replace n with (zlen (pre ++ grow t :: inner)) by (unfold n; zlens; lia).
    by rewrite bump_at, <- app_assoc. }
  rewrite <- app_assoc. simpl app. rewrite <- app_assoc. simpl app. rewrite tok_blank by done.
  change (grow kt) with (mk_tok JSMN_STRING (p + 1) (p + 1 + zlen k) 1 (zlen pre)).
  set (kt1 := mk_tok JSMN_STRING (p + 1) (p + 1 + zlen k) 1 (zlen pre)).
  assert (m = MNil ∨ match m with MNil => [] | _ => 44 :: w4 ++ mtext m end = 44 :: w4 ++ mtext m)
    as [-> | ->] by (destruct m; auto).
  - exists n. simpl. rewrite !app_nil_r. rewrite <- (grow_n_0 (grow t)), grow_n_S.
    f_equal. unfold q. repeat (zlens; simpl app). lia.
  - simpl app. rewrite tok_comma, <- ?app_assoc.
    assert (leave_scalar (mk_builder (pre ++ grow t :: inner ++ kt1 :: vt) n) =
      mk_builder (pre ++ grow t :: inner ++ kt1 :: vt) (zlen pre)) as ->.
    { unfold leave_scalar. simpl b_super. simpl b_toks. rewrite (proj2 (Z.eqb_neq n (-1))) by lia.
      replace (pre ++ grow t :: inner ++ kt1 :: vt) with ((pre ++ grow t :: inner) ++ kt1 :: vt)
        by (rewrite <- app_assoc; done).
      replace n with (zlen (pre ++ grow t :: inner)) at 1 by (unfold n; zlens; lia).
      by rewrite lookup_at. }
    rewrite tok_blank by done.
    pose proof (IHm num q' pre (grow t) (inner ++ kt1 :: vt) l Hm Hl ltac:(unfold q', q; lia) Ht) as Hrest.
    cbv zeta in Hrest.
    assert (zlen (pre ++ grow t :: inner ++ kt1 :: vt) = n + 1 + zlen vt) as En' by (zlens; lia).
    rewrite En' in Hrest. destruct Hrest as [super Hrest]; [lia|]. exists super.
    replace (q + zlen (vtext v) + zlen w3 + 1 + zlen w4) with q' by done.
    rewrite Hrest, grow_n_S, <- app_assoc. f_equal. unfold q', q. repeat (zlens; simpl app). lia.
Qed.

Lemma document_parsed :
  (∀ v, value_parsed v) ∧ (∀ e, elems_parsed e) ∧ (∀ m, members_parsed m).
Proof.
  apply document_ind.
  - intros s num p ts super l Hv Hl Hp Hs Hn. change (zlen (vtoks _ _ _ _)) with 1 in Hn.
    change (vtext (VString s) ++ l) with (34 :: (s ++ [34]) ++ l). rewrite <- app_assoc. simpl app.
    rewrite tok_string by (done || simpl; lia). f_equal. simpl vtext. zlens. lia.
  - intros s num p ts super l Hv Hl Hp Hs Hn. change (zlen (vtoks _ _ _ _)) with 1 in Hn.
    simpl vtext. by rewrite tok_primitive by (done || simpl; lia).
  - apply array_parsed.
  - apply object_parsed.
  - intros num p pre t inner l _ Hl Hp Ht n Hn. simpl.
    by rewrite zlen_nil, Z.add_0_r, grow_n_0, app_nil_r.
  - intros. by apply elems_step.
  - intros num p pre t inner l _ Hl Hp Ht n Hn. simpl. exists (zlen pre).
    by rewrite zlen_nil, Z.add_0_r, grow_n_0, app_nil_r.
  - intros. by apply members_step.
Qed.

Lemma closed_in_none_open a n ts : closed_in a n ts → existsb is_open ts = false.
Proof.
  intros Hts. destruct (existsb is_open ts) eqn:He; [|done].
  apply existsb_exists in He as (t & Ht & Ho). apply list_elem_of_In, list_elem_of_lookup in Ht as [j Hj].
  destruct (Hts j t Hj). congruence.
Qed.

(** The text of a document, with blanks around it. *)
Definition document (w0 : list Z) (v : jval) (w1 : list Z) : list Z := w0 ++ vtext v ++ w1.
Definition document_ok (w0 : list Z) (v : jval) (w1 : list Z) : bool :=
  blank w0 && valid v && blank w1.

Lemma document_run num w0 v w1 :
  document_ok w0 v w1 = true → zlen (vtoks (zlen w0) 0 (-1) v) ≤ num →
  let ts := vtoks (zlen w0) 0 (-1) v in
  tok num 0 (document w0 v w1) b_empty = (zlen ts, zlen (document w0 v w1), mk_builder ts (-1)).
Proof.
  intros Hok Hnum ts. unfold document_ok in Hok.
  rewrite !andb_true_iff in Hok. destruct Hok as [[Hw0 Hv] Hw1]. pose proof (zlen_nonneg w0).
  unfold document at 1. rewrite tok_blank, Z.add_0_l by done. change b_empty with (mk_builder [] (-1)).
  rewrite (proj1 document_parsed v); [|done| |done|rewrite zlen_nil; lia|rewrite zlen_nil; lia].
  2:{ rewrite <- (app_nil_r w1). by apply delimited_blank. }
  change (bump (-1) [] ++ vtoks (zlen w0) (zlen []) (-1) v) with ts.
  rewrite <- (app_nil_r w1) at 1. rewrite tok_blank by done. unfold tok. simpl.
  rewrite (closed_in_none_open (-1) 0) by (apply vtoks_closed_all; lia).
  unfold document. rewrite !zlen_app. do 2 f_equal. lia.
Qed.

Lemma document_tokens_ok w0 v w1 : document_ok w0 v w1 = true →
  builder_ok (zlen (document w0 v w1)) (mk_builder (vtoks (zlen w0) 0 (-1) v) (-1)).
Proof.
  intros Hok. pose proof (document_run (zlen (vtoks (zlen w0) 0 (-1) v)) w0 v w1 Hok ltac:(lia)) as Hr.
  apply tokenize_result in Hr as [? _]; [done|lia|apply b_empty_ok].
Qed.

Lemma document_tokens js len num pool w0 v w1 :
  text_in js len → take (Z.to_nat len) js = document w0 v w1 → document_ok w0 v w1 = true →
  zlen (vtoks (zlen w0) 0 (-1) v) ≤ num < 2 ^ 31 → num ≤ zlen pool →
  let ts := vtoks (zlen w0) 0 (-1) v in
  jsmn_parse js len num (start pool) =
    Ok (mk_parser len (zlen ts) (-1) (Some (ts ++ drop (length ts) pool))) (zlen ts).
Proof.
  intros Hjs Hjl Hok Hnum Hpool ts. pose proof Hjs as [??].
  rewrite start_repr, jsmn_parse_repr; [|done|lia|lia|apply b_empty_ok|by apply pool_ok_start].
  unfold remaining. change (Z.to_nat 0) with 0%nat. rewrite drop_0, Hjl.
  change (tokenize _ num 0 ?l b_empty) with (tok num 0 l b_empty). rewrite document_run by (done || lia).
  rewrite <- Hjl at 1. rewrite zlen_take by lia.
  unfold repr, junk_after. simpl. by rewrite Nat.sub_0_r.
Qed.

(** C14: Parsing undoes printing: on the text of any document, with any blanks
    between its lexemes and whatever the token array held, the parser returns the
    number of the document's tokens and leaves exactly these tokens in the array:
    type, range, number of members and parent of every value and key. *)
Theorem jsmn_parse_document js len num pool w0 v w1 :
  text_in js len → take (Z.to_nat len) js = document w0 v w1 → document_ok w0 v w1 = true →
  zlen (vtoks (zlen w0) 0 (-1) v) ≤ num < 2 ^ 31 → num ≤ zlen pool →
  ∃ s, jsmn_parse js len num (start pool) = Ok s (zlen (vtoks (zlen w0) 0 (-1) v)) ∧
    pos s = len ∧ tokens s = Some (vtoks (zlen w0) 0 (-1) v ++ drop (length (vtoks (zlen w0) 0 (-1) v)) pool).
Proof.
  intros Hjs Hjl Hok Hnum Hpool. pose proof (document_tokens _ _ _ _ _ _ _ Hjs Hjl Hok Hnum Hpool) as Hd.
  eexists. split; [exact Hd|done].
Qed.
