(* ===== verification/JsmnUtil.v ===== *)
(** * Access to a parsed document ([jsmn_util.c]) and its client ([usart_net.c])

    The memory the accessors work on: the text, the token array and the caller's
    buffer. A pointer to a token is its index in the array; [None] is [NULL]. *)

From Stdlib Require Import ZArith Lia.
From stdpp Require Import base list.
From S2P Require Import RTThread.
From S2P Require Import Prelude.
From S2P Require Import Bytes.
From S2P Require Import Kservice.
From S2P Require Import Jsmn.

Record jmem : Set := mk_jmem {
  m_js : option (list Z);
  m_tokens : list jsmntok_t;
  m_buf : option (list Z) }.
Definition set_m_js x (m : jmem) := mk_jmem x (m_tokens m) (m_buf m).
Definition set_m_buf x (m : jmem) := mk_jmem (m_js m) (m_tokens m) x.
Notation U := (ST jmem) (only parsing).

Record jsmn_item_t : Set := mk_item {
  it_t : Z;
  it_index : Z;
  it_left_num : Z }.

(** [*t] *)
Definition load_token (t : Z) : U jsmntok_t :=
  ts ← gets m_tokens;
  if t <? 0 then fail FBounds else from_option_or FBounds (ts !! Z.to_nat t).

Definition load_js : U (list Z) := js ← gets m_js; from_option_or FNull js.

(** ** Strings of the C library *)

(** [strncmp(a, b, n) == 0] on the bytes from each pointer on. *)
Fixpoint strncmp_eq (n : nat) (a b : list Z) : bool :=
  match n with
  | O => true
  | S n' =>
      let ca := nth 0 a 0 in
      let cb := nth 0 b 0 in
      (ca =? cb) && ((ca =? 0) || strncmp_eq n' (tail a) (tail b))
  end.

(** The token's range has to lie in the text. *)
Definition json_token_streq (t : jsmntok_t) (s : list Z) : U bool :=
  js ← load_js;
  let n := u32 (tk_end t - tk_start t) in
  if (tk_start t <? 0) || (zlen js <? tk_start t + n) then fail FBounds
  else mret (strncmp_eq (Z.to_nat n) (drop (Z.to_nat (tk_start t)) js) s && (zlen s =? n)).

(** ** Items *)

Definition JSMN_ItemInit (t index tokens_len : Z) : jsmn_item_t :=
  mk_item t index (s32 (tokens_len - index - 1)).

(** The item of the value after a key, or [None]. *)
Definition next_item (item : jsmn_item_t) : jsmn_item_t :=
  mk_item (it_t item + 1) (it_index item + 1) (it_left_num item - 1).

(** [for (i = first; i <= left_num; i++)] over the keys of an object. *)
Fixpoint object_loop (n : nat) (i : Z) (ob : jsmn_item_t) (string : list Z) : U (option jsmn_item_t) :=
  match n with
  | O => mret None
  | S n' =>
      t ← load_token (it_t ob + i);
      same ← (if bool_decide (tk_type t = JSMN_STRING) && (tk_parent t =? it_index ob)
              then json_token_streq t string else mret false);
      if same : bool
      then mret (Some (mk_item (it_t ob + i) (it_index ob + i) (it_left_num ob - i)))
      else object_loop n' (i + 1) ob string
  end.

(** The object an item is, or that follows the key it is. *)
Definition object_of (object : jsmn_item_t) : U (option jsmn_item_t) :=
  t ← load_token (it_t object);
  if bool_decide (tk_type t = JSMN_OBJECT) then mret (Some object)
  else if negb (bool_decide (tk_type t = JSMN_STRING)) || negb (tk_size t =? 1) || (it_left_num object <=? 0)
  then mret None
  else
    t ← load_token (it_t object + 1);
    if negb (bool_decide (tk_type t = JSMN_OBJECT)) || negb (tk_parent t =? it_index object) then mret None
    else mret (Some (next_item object)).

Definition get_object_item (object : jsmn_item_t) (string : list Z) : U (Z * option jsmn_item_t) :=
  ob ← object_of object;
  match ob with
  | None => mret (-1, None)
  | Some ob_item =>
      if it_left_num ob_item <=? 0 then mret (-1, None)
      else
        item ← object_loop (Z.to_nat (it_left_num ob_item)) 1 ob_item string;
        match item with
        | Some item => mret (0, Some item)
        | None => mret (-1, None)
        end
  end.

(** [item] tells whether the pointer for the result is not [NULL]; the result is
    the return value and what is stored there, if anything. *)
Definition JSMN_GetObjectItem (object : option jsmn_item_t) (string : option (list Z)) (item : bool) :
    U (Z * option jsmn_item_t) :=
  js ← gets m_js;
  match js, object, string, item with
  | Some _, Some object, Some string, true => get_object_item object string
  | _, _, _, _ => mret (-1, None)
  end.

Definition get_string (item : jsmn_item_t) : U (option Z) :=
  t ← load_token (it_t item);
  if negb (bool_decide (tk_type t = JSMN_STRING)) && negb (bool_decide (tk_type t = JSMN_PRIMITIVE))
  then mret None
  else
    js ← load_js;
    js' ← from_option_or FBounds (wr js (tk_end t) [0]);
    modify (set_m_js (Some js'));;
    mret (Some (tk_start t)).

(** The position in the text of the string returned. *)
Definition JSMN_GetString (item : option jsmn_item_t) : U (option Z) :=
  js ← gets m_js;
  match js, item with
  | Some _, Some item => get_string item
  | _, _ => mret None
  end.

(** [memset(buf, 0, bufsz)]: the size is converted to [size_t]. *)
Definition memset_buf (bufsz : Z) : U unit :=
  b ← gets m_buf;
  let n := u32 bufsz in
  match b with
  | None => if n =? 0 then mret () else fail FNull
  | Some b =>
      if zlen b <? n then fail FBounds
      else modify (set_m_buf (Some (splice b 0 (replicate (Z.to_nat n) 0))))
  end.

Definition JSMN_GetStringBuffered (item : option jsmn_item_t) (bufsz : Z) : U Z :=
  memset_buf bufsz;;
  js ← gets m_js;
  b ← gets m_buf;
  match js, item, b with
  | Some js, Some item, Some b =>
      if bufsz <=? 0 then mret (-1)
      else
        t ← load_token (it_t item);
        if negb (bool_decide (tk_type t = JSMN_STRING)) && negb (bool_decide (tk_type t = JSMN_PRIMITIVE))
        then mret (-1)
        else
          let len := tk_end t - tk_start t in
          let len := if bufsz <=? len then bufsz - 1 else len in
          b' ← memcpy b 0 js (tk_start t) (u32 len);
          modify (set_m_buf (Some b'));;
          mret len
  | _, _, _ => mret (-1)
  end.

(** [size != 1]: the item is no key with a value. *)
Definition is_key (t : jsmntok_t) (item : jsmn_item_t) : bool :=
  bool_decide (tk_type t = JSMN_STRING) && (tk_size t =? 1) && negb (it_left_num item <=? 0).

Definition JSMN_GetValueString (item : option jsmn_item_t) : U (option Z) :=
  js ← gets m_js;
  match js, item with
  | Some _, Some item =>
      t ← load_token (it_t item);
      if negb (is_key t item) then mret None else JSMN_GetString (Some (next_item item))
  | _, _ => mret None
  end.

Definition JSMN_GetValueStringBuffered (item : option jsmn_item_t) (bufsz : Z) : U Z :=
  js ← gets m_js;
  b ← gets m_buf;
  match js, item, b with
  | Some _, Some item, Some _ =>
      if bufsz <=? 0 then mret (-1)
      else
        t ← load_token (it_t item);
        if negb (is_key t item) then mret (-1)
        else JSMN_GetStringBuffered (Some (next_item item)) bufsz
  | _, _, _ => mret (-1)
  end.

Definition JSMN_GetArraySize (array : option jsmn_item_t) : U Z :=
  match array with
  | None => mret (-1)
  | Some array =>
      t ← load_token (it_t array);
      if bool_decide (tk_type t = JSMN_ARRAY) then mret (tk_size t)
      else if negb (is_key t array) then mret (-1)
      else
        t ← load_token (it_t array + 1);
        if negb (bool_decide (tk_type t = JSMN_ARRAY)) || negb (tk_parent t =? it_index array) then mret (-1)
        else mret (tk_size t)
  end.

Fixpoint array_loop (n : nat) (i index : Z) (arr : jsmn_item_t) : U (option jsmn_item_t) :=
  match n with
  | O => mret None
  | S n' =>
      t ← load_token (it_t arr + i);
      if tk_parent t =? it_index arr then
        if 0 <? index then array_loop n' (i + 1) (index - 1) arr
        else mret (Some (mk_item (it_t arr + i) (it_index arr + i) (it_left_num arr - i)))
      else array_loop n' (i + 1) index arr
  end.

Definition JSMN_GetArrayItem (array : option jsmn_item_t) (index : Z) (item : bool) :
    U (Z * option jsmn_item_t) :=
  match array, item with
  | Some arr, true =>
      if index <? 0 then mret (-1, None)
      else
        size ← JSMN_GetArraySize array;
        if size <=? index then mret (-1, None)
        else
          t ← load_token (it_t arr);
          let array_tok := if bool_decide (tk_type t = JSMN_ARRAY) then arr else next_item arr in
          found ← array_loop (Z.to_nat (it_left_num array_tok)) 1 index array_tok;
          match found with
          | Some found => mret (0, Some found)
          | None => mret (-1, None)
          end
  | _, _ => mret (-1, None)
  end.

(** ** The command parser of [usart_net.c] *)

(** What a frame makes the program print or send. *)
Inductive frame_event : Set :=
  | EDisconnected
  | EParseError (ret : Z)
  | ENotObject
  | EMissing (key : list Z)
  | EValue (key value : list Z).

(** [%s] of a buffer: its bytes up to a NUL. *)
Fixpoint c_string (l : list Z) : option (list Z) :=
  match l with
  | [] => None
  | c :: l' => if c =? 0 then Some [] else cons c <$> c_string l'
  end.
Definition frame_length (l : list Z) : option Z := zlen <$> c_string l.

(** The strings [U2E SENT ERR], [age], [email] and [name]. *)
Definition str_disconnect : list Z := [85; 50; 69; 32; 83; 69; 78; 84; 32; 69; 82; 82].
Definition str_age : list Z := [97; 103; 101].
Definition str_email : list Z := [101; 109; 97; 105; 108].
Definition str_name : list Z := [110; 97; 109; 101].

(** [JSMN_GetValueStringBuffered(...); rt_kprintf(...)] *)
Definition print_value (item : jsmn_item_t) (key : list Z) : U frame_event :=
  JSMN_GetValueStringBuffered (Some item) 64;;
  b ← gets m_buf;
  value ← from_option_or FBounds (b ≫= c_string);
  mret (EValue key value).

(** The body after the parser succeeded: the result and the events. *)
Definition deal_object (ret : Z) : U (Z * list frame_event) :=
  let item_array := JSMN_ItemInit 0 0 ret in
  r ← JSMN_GetObjectItem (Some item_array) (Some str_age) true;
  match r with
  | (ret, None) => mret (ret, [EMissing str_age])
  | (_, Some item_age) =>
      r ← JSMN_GetObjectItem (Some item_array) (Some str_email) true;
      match r with
      | (ret, None) => mret (ret, [EMissing str_email])
      | (_, Some item_email) =>
          r ← JSMN_GetObjectItem (Some item_array) (Some str_name) true;
          match r with
          | (ret, None) => mret (ret, [EMissing str_name])
          | (_, Some item_name) =>
              e1 ← print_value item_age str_age;
              e2 ← print_value item_email str_email;
              e3 ← print_value item_name str_name;
              mret (1, [e1; e2; e3])
          end
      end
  end.

(** [tk] and [json_age] are what the locals hold at first. *)
Definition json_deal_cmd (js : list Z) (tk : list jsmntok_t) (json_age : list Z) :
    res jmem (Z * list frame_event) :=
  match frame_length js with
  | None => Err FBounds
  | Some len =>
      if (12 <=? len) && (rt_strncmp js str_disconnect 12 =? 0)
      then Ok (mk_jmem (Some js) tk (Some json_age)) (-2, [EDisconnected])
      else
        match jsmn_parse js len 256 (jsmn_init (mk_parser 0 0 0 (Some tk))) with
        | Err e => Err e
        | Ok s ret =>
            let m := mk_jmem (Some js) (default [] (tokens s)) (Some json_age) in
            if ret <? 0 then Ok m (-1, [EParseError ret])
            else
              match m_tokens m !! 0%nat with
              | None => Err FBounds
              | Some t0 =>
                  if (ret <? 1) || negb (bool_decide (tk_type t0 = JSMN_OBJECT))
                  then Ok m (-1, [ENotObject])
                  else deal_object ret m
              end
        end
  end.
