(* ===== verification/JsmnAccess.v ===== *)
(** * The accessors on parsed documents

    Lookup by key finds the first member with that key, on any tokens and, for
    the tokens of a document, the member's value; what the client prints is the
    value's text. *)

From Stdlib Require Import ZArith Lia.
From stdpp Require Import base list.
From S2P Require Import RTThread.
From S2P Require Import Prelude.
From S2P Require Import Bytes.
From S2P Require Import Kservice.
From S2P Require Import Jsmn.
From S2P Require Import JsmnReference.
From S2P Require Import JsmnRefine.
From S2P Require Import JsmnSpec.
From S2P Require Import JsmnTree.
From S2P Require Import JsmnUtil.

(** ** Comparing a token with a key *)

Definition no_nul (s : list Z) : Prop := 0 ∉ s.

Lemma strncmp_eq_spec s a : no_nul s → (length s ≤ length a)%nat →
  strncmp_eq (length s) a s = bool_decide (take (length s) a = s).
Proof.
  revert a. induction s as [|c s IH]; intros a Hs Ha; [by rewrite bool_decide_eq_true_2|].
  destruct a as [|d a]; [simpl in Ha; lia|]. simpl in *. unfold no_nul in *.
  rewrite not_elem_of_cons in Hs. destruct Hs as [Hc Hs].
  destruct (Z.eqb_spec d c) as [->|Hne]; simpl.
  - rewrite (proj2 (Z.eqb_neq c 0)) by lia. simpl. rewrite IH by (done || lia).
    apply bool_decide_ext. split; [by intros ->|congruence].
  - symmetry. apply bool_decide_eq_false. congruence.
Qed.

(** The range of a token lies in the text. *)
Definition range_ok (js : list Z) (t : jsmntok_t) : Prop :=
  0 ≤ tk_start t ≤ tk_end t ∧ tk_end t ≤ zlen js.
Definition token_text (js : list Z) (t : jsmntok_t) : list Z :=
  slice js (tk_start t) (tk_end t - tk_start t).

Lemma load_js_ok js m : m_js m = Some js → load_js m = Ok m js.
Proof. intros H. unfold load_js. rewrite gets_bind. by rewrite H. Qed.

Lemma json_token_streq_ok js t s m :
  m_js m = Some js → zlen js < 2 ^ 31 → range_ok js t → no_nul s →
  json_token_streq t s m = Ok m (bool_decide (token_text js t = s)).
Proof.
  intros Hm Hl [[? ?] ?] Hs. unfold json_token_streq. rewrite (bind_ok _ _ _ _ _ (load_js_ok _ _ Hm)).
  rewrite u32_small by lia.
  rewrite (proj2 (Z.ltb_ge (tk_start t) 0)), (proj2 (Z.ltb_ge (zlen js) _)) by lia. simpl.
  unfold mret, ST_ret. f_equal. pose proof (zlen_slice js (tk_start t) (tk_end t - tk_start t)) as Hz.
  destruct (Z.eqb_spec (zlen s) (tk_end t - tk_start t)) as [E|E].
  - assert (Z.to_nat (zlen s) = length s) as Es by (unfold zlen; lia).
    unfold token_text, slice. rewrite andb_true_r, <- E, Es. apply strncmp_eq_spec; [done|].
    unfold zlen in *. rewrite length_drop. lia.
  - rewrite andb_false_r. symmetry. apply bool_decide_eq_false. intros <-. apply E.
    unfold token_text. apply Hz; lia.
Qed.

(** ** Lookup by key *)

Definition is_member (js : list Z) (a : Z) (key : list Z) (t : jsmntok_t) : Prop :=
  tk_type t = JSMN_STRING ∧ tk_parent t = a ∧ token_text js t = key.
#[global] Instance is_member_dec js a key t : Decision (is_member js a key t).
Proof. unfold is_member. apply _. Defined.

(** The tokens that follow an item. *)
Definition following (ts : list jsmntok_t) (item : jsmn_item_t) : list jsmntok_t :=
  take (Z.to_nat (it_left_num item)) (drop (Z.to_nat (it_t item + 1)) ts).
Definition item_ok (ts : list jsmntok_t) (item : jsmn_item_t) : Prop :=
  0 ≤ it_t item ∧ 0 ≤ it_left_num item ∧ it_t item + it_left_num item < zlen ts.
Definition ranges_ok (js : list Z) (ts : list jsmntok_t) : Prop :=
  ∀ t, t ∈ ts → tk_type t = JSMN_STRING → range_ok js t.

Lemma load_token_ok m i t : 0 ≤ i → m_tokens m !! Z.to_nat i = Some t → load_token i m = Ok m t.
Proof.
  intros ? Hi. unfold load_token. rewrite gets_bind, (proj2 (Z.ltb_ge i 0)) by lia. by rewrite Hi.
Qed.

Lemma object_loop_ok js m ob key n i :
  m_js m = Some js → zlen js < 2 ^ 31 → no_nul key → 0 ≤ it_t ob → 0 ≤ i →
  it_t ob + i + Z.of_nat n ≤ zlen (m_tokens m) →
  let l := take n (drop (Z.to_nat (it_t ob + i)) (m_tokens m)) in
  ranges_ok js l →
  object_loop n i ob key m = Ok m
    match list_find (is_member js (it_index ob) key) l with
    | Some (j, _) => Some (mk_item (it_t ob + i + Z.of_nat j) (it_index ob + i + Z.of_nat j)
                                   (it_left_num ob - i - Z.of_nat j))
    | None => None
    end.
Proof.
  intros Hm Hl Hk Ht. revert i. induction n as [|n IH]; intros i Hi Hn l Hr; [done|].
  simpl object_loop. unfold zlen in Hn.
  destruct (lookup_lt_is_Some_2 (m_tokens m) (Z.to_nat (it_t ob + i))) as [t Hi']; [lia|].
  rewrite (bind_ok _ _ _ _ _ (load_token_ok m (it_t ob + i) t ltac:(lia) Hi')).
  assert (l = t :: take n (drop (Z.to_nat (it_t ob + (i + 1))) (m_tokens m))) as El.
  { unfold l. rewrite (drop_S _ t) by done. simpl. do 2 f_equal. f_equal. lia. }
  rewrite El in Hr |- *. simpl list_find.
  assert ((if bool_decide (tk_type t = JSMN_STRING) && (tk_parent t =? it_index ob)
           then json_token_streq t key else mret false) m =
    Ok m (bool_decide (is_member js (it_index ob) key t))) as Hc.
  { case_bool_decide as Hty; simpl.
    - destruct (Z.eqb_spec (tk_parent t) (it_index ob)) as [Hp|Hp]; simpl.
      + rewrite (json_token_streq_ok js) by (done || (apply Hr; [by left|done])).
        f_equal. apply bool_decide_ext. unfold is_member. tauto.
      + unfold mret, ST_ret. f_equal. symmetry. apply bool_decide_eq_false. unfold is_member. tauto.
    - unfold mret, ST_ret. f_equal. symmetry. apply bool_decide_eq_false. unfold is_member. tauto. }
  rewrite (bind_ok _ _ _ _ _ Hc). destruct (decide (is_member js (it_index ob) key t)) as [Hd|Hd].
  - rewrite bool_decide_eq_true_2 by done. simpl. unfold mret, ST_ret. do 2 f_equal. f_equal; lia.
  - rewrite bool_decide_eq_false_2 by done.
    rewrite IH; [|lia|unfold zlen; lia|intros u Hu; apply Hr; by right]. f_equal.
    destruct (list_find _ _) as [[j u]|]; simpl; [|done]. do 2 f_equal; lia.
Qed.

(** Lookup by key, on any token array: for an item that is an object, the
    call leaves memory as it is and returns 0 with the first following token that
    is a string, has the object as its parent and whose text is the key, or -1
    when there is none. *)
Lemma get_object_item_ok js m object key t0 :
  m_js m = Some js → zlen js < 2 ^ 31 → no_nul key → item_ok (m_tokens m) object →
  m_tokens m !! Z.to_nat (it_t object) = Some t0 → tk_type t0 = JSMN_OBJECT →
  ranges_ok js (following (m_tokens m) object) →
  JSMN_GetObjectItem (Some object) (Some key) true m = Ok m
    match list_find (is_member js (it_index object) key) (following (m_tokens m) object) with
    | Some (j, _) =>
        let d := Z.of_nat j + 1 in
        (0, Some (mk_item (it_t object + d) (it_index object + d) (it_left_num object - d)))
    | None => (-1, None)
    end.
Proof.
  intros Hm Hl Hk (? & ? & Hn) Ht0 Hty Hr. unfold JSMN_GetObjectItem. rewrite gets_bind, Hm.
  unfold get_object_item, object_of. rewrite bind_assoc.
  rewrite (bind_ok _ _ _ _ _ (load_token_ok m (it_t object) t0 ltac:(lia) Ht0)).
  rewrite bool_decide_eq_true_2, ret_bind by done.
  destruct (Z.leb_spec (it_left_num object) 0) as [Hz|Hz].
  { unfold following. by replace (Z.to_nat (it_left_num object)) with 0%nat by lia. }
  unfold mbind, ST_bind. rewrite (object_loop_ok js) by (done || lia).
  fold (following (m_tokens m) object). destruct (list_find _ _) as [[j u]|]; [|done].
  unfold mret, ST_ret. do 4 f_equal; lia.
Qed.


(** The buffer is cleared before the arguments are checked: without a buffer the
    call faults where it is documented to return an error. *)
Lemma get_string_buffered_null item bufsz m :
  m_buf m = None → u32 bufsz ≠ 0 → JSMN_GetStringBuffered item bufsz m = Err FNull.
Proof.
  intros Hb Hn. unfold JSMN_GetStringBuffered, memset_buf. rewrite bind_assoc, gets_bind. cbv zeta.
  by rewrite Hb, (proj2 (Z.eqb_neq _ _) Hn).
Qed.

(** ** Members of a document *)

(** The text [s] stands at position [p]. *)
Definition text_at (js : list Z) (p : Z) (s : list Z) : Prop :=
  0 ≤ p ∧ p + zlen s ≤ zlen js ∧ slice js p (zlen s) = s.

Lemma slice_app_parts (js : list Z) p s t : 0 ≤ p →
  slice js p (zlen (s ++ t)) = s ++ t → slice js p (zlen s) = s ∧ slice js (p + zlen s) (zlen t) = t.
Proof.
  intros Hp. unfold slice, zlen. rewrite length_app.
  replace (Z.to_nat (Z.of_nat (length s + length t))) with (length s + length t)%nat by lia.
  replace (Z.to_nat (p + Z.of_nat (length s))) with (Z.to_nat p + length s)%nat by lia.
  rewrite !Nat2Z.id, <- drop_drop, <- take_take_drop. intros H.
  apply app_inj_1 in H; [done|]. apply (f_equal length) in H. rewrite !length_app, !length_take, !length_drop in H.
  rewrite length_take, length_drop. lia.
Qed.
Lemma text_at_app js p s t : text_at js p (s ++ t) → text_at js p s ∧ text_at js (p + zlen s) t.
Proof.
  intros (? & Hl & Hs). apply slice_app_parts in Hs as [? ?]; [|done]. rewrite zlen_app in Hl.
  pose proof (zlen_nonneg s). pose proof (zlen_nonneg t). unfold text_at. split_and!; done || lia.
Qed.
Lemma text_at_cons js p c s : text_at js p (c :: s) → text_at js (p + 1) s.
Proof. intros H. change (c :: s) with ([c] ++ s) in H. by apply text_at_app in H as [_ ?]. Qed.

(** The value of the first member with a key. *)
Fixpoint mlookup (key : list Z) (m : members) : option jval :=
  match m with
  | MNil => None
  | MCons k _ _ v _ _ m' => if bool_decide (k = key) then Some v else mlookup key m'
  end.

Lemma not_member_inner js a n key ts : a < n → closed_in n (n + 1) ts →
  list_find (is_member js a key) ts = None.
Proof.
  intros Ha Hts. apply list_find_None, Forall_forall. intros t Ht (_ & Hp & _).
  apply list_elem_of_lookup in Ht as [j Hj]. destruct (Hts j t Hj). lia.
Qed.

Lemma list_find_app_None {A} (P : A → Prop) `{∀ x, Decision (P x)} l k :
  list_find P l = None → list_find P (l ++ k) = prod_map (Nat.add (length l)) id <$> list_find P k.
Proof.
  induction l as [|x l IH]; simpl.
  - intros _. destruct (list_find P k) as [[]|]; done.
  - destruct (decide (P x)); [done|]. destruct (list_find P l) as [[]|]; [done|]. intros _.
    rewrite IH by done. by destruct (list_find P k) as [[]|].
Qed.

Lemma mtoks_lookup js key m p n a :
  text_at js p (mtext m) → 0 ≤ n → a < n →
  let l := mtoks p n a m in
  match mlookup key m with
  | None => list_find (is_member js a key) l = None
  | Some v => ∃ j kt q rest, list_find (is_member js a key) l = Some (j, kt) ∧
      tk_type kt = JSMN_STRING ∧ tk_size kt = 1 ∧ text_at js q (vtext v) ∧
      drop (S j) l = vtoks q (n + Z.of_nat j + 1) (n + Z.of_nat j) v ++ rest
  end.
Proof.
  revert p n. induction m as [|k w1 w2 v w3 w4 m IH]; intros p n Ht Hn Ha l; [done|].
  simpl in Ht. pose proof (text_at_cons _ _ _ _ Ht) as Ht1.
  apply text_at_app in Ht1 as [Hk Ht1]. apply text_at_cons, text_at_app in Ht1 as [_ Ht1].
  apply text_at_cons, text_at_app in Ht1 as [_ Ht1]. apply text_at_app in Ht1 as [Hv Ht1].
  apply text_at_app in Ht1 as [_ Ht1].
  set (q := p + zlen k + zlen w1 + zlen w2 + 3).
  replace (p + 1 + zlen k + 1 + zlen w1 + 1 + zlen w2) with q in * by (unfold q; lia).
  set (kt := mk_tok JSMN_STRING (p + 1) (p + 1 + zlen k) 1 a).
  change l with (kt :: vtoks q (n + 1) n v ++ mtoks (q + zlen (vtext v) + zlen w3 + 1 + zlen w4)
    (n + 1 + zlen (vtoks q (n + 1) n v)) a m).
  set (vt := vtoks q (n + 1) n v). set (rest := mtoks _ _ a m).
  assert (token_text js kt = k) as Hkt.
  { unfold token_text. simpl. replace (p + 1 + zlen k - (p + 1)) with (zlen k) by lia. apply Hk. }
  simpl mlookup. simpl list_find. case_bool_decide as Ek.
  - rewrite decide_True by (unfold is_member; simpl; rewrite Hkt; done).
    exists 0%nat, kt, q, rest. rewrite Z.add_0_r. done.
  - rewrite decide_False by (unfold is_member; rewrite Hkt; tauto).
    assert (list_find (is_member js a key) vt = None) as Hvt.
    { apply (not_member_inner _ _ n); [done|]. apply vtoks_closed_all; destruct Hv; lia. }
    rewrite (list_find_app_None _ _ _ Hvt).
    assert (m = MNil ∨ match m with MNil => [] | _ => 44 :: w4 ++ mtext m end = 44 :: w4 ++ mtext m)
      as [-> | Em] by (destruct m; auto); [done|].
    rewrite Em in Ht1. apply text_at_cons, text_at_app in Ht1 as [_ Ht1].
    pose proof (zlen_nonneg vt).
    specialize (IH (q + zlen (vtext v) + zlen w3 + 1 + zlen w4) (n + 1 + zlen vt) Ht1 ltac:(lia) ltac:(lia)).
    cbv zeta in IH. fold rest in IH. destruct (mlookup key m) as [v'|]; [|by rewrite IH].
    destruct IH as (j & kt' & q' & rest' & -> & ? & ? & ? & Hd).
    exists (S (length vt + j)), kt', q', rest'. split_and!; [done..|].
    change (drop (S (S (length vt + j))) (kt :: vt ++ rest)) with (drop (S (length vt + j)) (vt ++ rest)).
    replace (S (length vt + j)) with (length vt + S j)%nat by lia. rewrite <- drop_drop, drop_app_length, Hd.
    do 2 f_equal; unfold zlen; lia.
Qed.

(** ** What the client prints *)

(** The text of a string or primitive as it fits in a buffer of [n] bytes with
    its NUL; nothing for an array or an object. *)
Definition shown (n : Z) (v : jval) : list Z :=
  match v with
  | VString s | VPrimitive s => take (Z.to_nat (n - 1)) s
  | _ => []
  end.

Lemma scan_string_no_nul m s : scan_string m (s ++ [34]) = inr (length s) → no_nul s.
Proof.
  unfold no_nul. revert m. induction s as [|c s IH]; intros m; [intros _; apply not_elem_of_nil|].
  simpl. rewrite not_elem_of_cons.
  assert (∀ m', match scan_string m' (s ++ [34]) with inl e => inl e | inr n => inr (S n) end
    = @inr Z nat (S (length s)) → 0 ∉ s) as Hgo.
  { intros m'. destruct (scan_string m' (s ++ [34])) eqn:E; [done|]. intros [= ->]. by eapply IH. }
  destruct (Z.eqb_spec c 0) as [->|Hc].
  - destruct m as [| |[]]; simpl; done.
  - destruct m as [| |[]]; simpl;
      repeat (match goal with |- context [if ?b then _ else _] => destruct b end);
      intros H; try done; split; try lia; by eapply Hgo.
Qed.
Lemma valid_text_no_nul v s : valid v = true → v = VString s ∨ v = VPrimitive s → no_nul s.
Proof.
  intros Hv [-> | ->]; simpl in Hv.
  - unfold valid_string in Hv. destruct (scan_string _ _) as [|n] eqn:Hs; [done|].
    apply Nat.eqb_eq in Hv as ->. by eapply scan_string_no_nul.
  - unfold valid_primitive in Hv. destruct s as [|c s]; [done|].
    apply andb_true_iff in Hv as [_ Hv]. rewrite forallb_forall in Hv.
    intros H0. apply list_elem_of_In, Hv in H0. done.
Qed.

Lemma c_string_app s r : no_nul s → c_string (s ++ 0 :: r) = Some s.
Proof.
  unfold no_nul. induction s as [|c s IH]; intros Hs; [done|]. simpl. rewrite not_elem_of_cons in Hs.
  destruct Hs as [Hc Hs]. rewrite (proj2 (Z.eqb_neq c 0)) by lia. by rewrite IH.
Qed.
Lemma no_nul_take n s : no_nul s → no_nul (take n s).
Proof. unfold no_nul. intros Hs H. apply Hs. rewrite <- (take_drop n s). apply elem_of_app. by left. Qed.

Lemma zero_buffer (b : list Z) n : zlen b = n → splice b 0 (replicate (Z.to_nat n) 0) = replicate (Z.to_nat n) 0.
Proof.
  intros <-. unfold splice, zlen. rewrite length_replicate. simpl.
  rewrite drop_ge by lia. by rewrite app_nil_r.
Qed.
Lemma splice_zeros n (s : list Z) : zlen s < n →
  ∃ r, splice (replicate (Z.to_nat n) 0) 0 s = s ++ 0 :: r ∧ zlen (s ++ 0 :: r) = n.
Proof.
  intros Hs. unfold splice, zlen in *. exists (replicate (pred (Z.to_nat n - length s)) 0). split.
  - change (take (Z.to_nat 0) _ ++ ?x) with x. rewrite drop_replicate. f_equal.
    change (0 :: replicate ?k 0) with (replicate (S k) 0). f_equal. lia.
  - rewrite length_app. simpl. rewrite length_replicate. lia.
Qed.
Lemma memset_buf_ok m b n : m_buf m = Some b → zlen b = n → 0 ≤ n < 2 ^ 31 →
  memset_buf n m = Ok (set_m_buf (Some (replicate (Z.to_nat n) 0)) m) tt.
Proof.
  intros Hb Hl ?. unfold memset_buf. rewrite gets_bind, Hb. rewrite u32_small by lia.
  rewrite Hl, Z.ltb_irrefl. unfold modify. by rewrite zero_buffer.
Qed.

(** A range of the text, copied and cut. *)
Lemma copied_text js p s n : text_at js p s → 0 < n →
  let len := if n <=? zlen s then n - 1 else zlen s in
  0 ≤ len < n ∧ p + len ≤ zlen js ∧ slice js p len = take (Z.to_nat (n - 1)) s.
Proof.
  intros (? & ? & Hs) Hn len. pose proof (zlen_nonneg s).
  assert (len = Z.min (n - 1) (zlen s)) as E by (unfold len; destruct (Z.leb_spec n (zlen s)); lia).
  split_and!; [lia..|]. rewrite <- Hs. unfold slice. rewrite take_take. f_equal. lia.
Qed.

Lemma get_buffered_text js b m item n t s :
  m_js m = Some js → m_buf m = Some b → zlen b = n → 0 < n < 2 ^ 31 → zlen js < 2 ^ 31 →
  0 ≤ it_t item → m_tokens m !! Z.to_nat (it_t item) = Some t →
  tk_type t = JSMN_STRING ∨ tk_type t = JSMN_PRIMITIVE →
  tk_end t = tk_start t + zlen s → text_at js (tk_start t) s → no_nul s →
  ∃ b', JSMN_GetStringBuffered (Some item) n m =
      Ok (set_m_buf (Some b') m) (zlen (take (Z.to_nat (n - 1)) s)) ∧
    zlen b' = n ∧ c_string b' = Some (take (Z.to_nat (n - 1)) s).
Proof.
  intros Hm Hb Hl Hn Hjs Hi Ht Hty He Htx Hnul. unfold JSMN_GetStringBuffered.
  rewrite (bind_ok _ _ _ _ _ (memset_buf_ok m b n Hb Hl ltac:(lia))). rewrite !gets_bind.
  simpl. rewrite Hm. rewrite (proj2 (Z.leb_gt n 0)) by lia.
  rewrite (bind_ok _ _ _ _ _ (load_token_ok (set_m_buf (Some (replicate (Z.to_nat n) 0)) m) (it_t item) t Hi Ht)).
  replace (negb _ && negb _) with false
    by (destruct Hty as [-> | ->]; simpl; done).
  rewrite He. replace (tk_start t + zlen s - tk_start t) with (zlen s) by lia.
  destruct (copied_text js (tk_start t) s n Htx ltac:(lia)) as (Hlen & Hend & Hcopy).
  set (len := if n <=? zlen s then n - 1 else zlen s) in *. cbv zeta.
  rewrite u32_small by lia.
  erewrite bind_ok by (apply memcpy_ok; try (destruct Htx; lia);
    unfold zlen; rewrite length_replicate; lia).
  rewrite modify_bind, Hcopy.
  assert (zlen (take (Z.to_nat (n - 1)) s) = len) as Elen
    by (rewrite <- Hcopy; destruct Htx; apply zlen_slice; lia).
  destruct (splice_zeros n (take (Z.to_nat (n - 1)) s)) as (r & -> & Hr); [lia|].
  eexists. split_and!; [by rewrite Elen|done|]. apply c_string_app. by apply no_nul_take.
Qed.

Lemma get_buffered_nested b m item n js t :
  m_js m = Some js → m_buf m = Some b → zlen b = n → 0 < n < 2 ^ 31 →
  0 ≤ it_t item → m_tokens m !! Z.to_nat (it_t item) = Some t →
  tk_type t ≠ JSMN_STRING → tk_type t ≠ JSMN_PRIMITIVE →
  JSMN_GetStringBuffered (Some item) n m = Ok (set_m_buf (Some (replicate (Z.to_nat n) 0)) m) (-1).
Proof.
  intros Hm Hb Hl Hn Hi Ht H1 H2. unfold JSMN_GetStringBuffered.
  rewrite (bind_ok _ _ _ _ _ (memset_buf_ok m b n Hb Hl ltac:(lia))). rewrite !gets_bind.
  simpl. rewrite Hm. rewrite (proj2 (Z.leb_gt n 0)) by lia.
  rewrite (bind_ok _ _ _ _ _ (load_token_ok (set_m_buf (Some (replicate (Z.to_nat n) 0)) m) (it_t item) t Hi Ht)).
  by rewrite !bool_decide_eq_false_2.
Qed.

Lemma zero_string n : 0 < n →
  zlen (replicate (Z.to_nat n) 0) = n ∧ c_string (replicate (Z.to_nat n) 0) = Some [].
Proof.
  intros. unfold zlen. rewrite length_replicate. split; [lia|].
  by destruct (Z.to_nat n) eqn:E; [lia|].
Qed.

Lemma get_buffered_value js b m item n v q i par t :
  m_js m = Some js → m_buf m = Some b → zlen b = n → 0 < n < 2 ^ 31 → zlen js < 2 ^ 31 →
  0 ≤ it_t item → m_tokens m !! Z.to_nat (it_t item) = Some t →
  vtoks q i par v !! 0%nat = Some t → text_at js q (vtext v) → valid v = true →
  ∃ b' r, JSMN_GetStringBuffered (Some item) n m = Ok (set_m_buf (Some b') m) r ∧
    zlen b' = n ∧ c_string b' = Some (shown n v).
Proof.
  intros Hm Hb Hl Hn Hjs Hi Ht Hv Htx Hok.
  destruct v as [s|s|w e|w mm]; simpl in Hv; injection Hv as Hv.
  - destruct (get_buffered_text js b m item n t s) as (b' & ? & ? & ?); try (by subst t); eauto.
    + subst t. by left.
    + subst t. simpl in *. apply text_at_cons in Htx. by apply text_at_app in Htx as [? _].
    + by eapply valid_text_no_nul; [|left].
  - destruct (get_buffered_text js b m item n t s) as (b' & ? & ? & ?); try (by subst t); eauto.
    + subst t. by right.
    + by eapply valid_text_no_nul; [|right].
  - eexists _, _. split; [eapply (get_buffered_nested b m item n js t); by subst t|]. apply zero_string; lia.
  - eexists _, _. split; [eapply (get_buffered_nested b m item n js t); by subst t|]. apply zero_string; lia.
Qed.

Lemma mvalid_lookup key m v : mvalid m = true → mlookup key m = Some v → valid v = true.
Proof.
  induction m as [|k w1 w2 v' w3 w4 m IH]; [done|]. simpl. rewrite !andb_true_iff.
  intros [[[[[[? ?] ?] ?] ?] ?] ?]. case_bool_decide; [by intros [= <-]|]. auto.
Qed.

(** ** An object that has been parsed *)

(** The memory after a document that is an object has been parsed: its text at
    the head of [js], its tokens at the head of the array. *)
Record parsed_object (js w0 w : list Z) (m : members) (w1 : list Z) (mem : jmem) : Prop := {
  po_js : m_js mem = Some js;
  po_len : zlen js < 2 ^ 31;
  po_text : text_at js 0 (document w0 (VObject w m) w1);
  po_ok : document_ok w0 (VObject w m) w1 = true;
  po_tokens : ∃ junk, m_tokens mem = vtoks (zlen w0) 0 (-1) (VObject w m) ++ junk }.

(** The item of the document's root. *)
Definition root_item (w0 w : list Z) (m : members) : jsmn_item_t :=
  JSMN_ItemInit 0 0 (zlen (vtoks (zlen w0) 0 (-1) (VObject w m))).
Definition root_members (w0 w : list Z) (m : members) : list jsmntok_t :=
  mtoks (zlen w0 + 1 + zlen w) 1 0 m.

Section object.
Context (js w0 w : list Z) (m : members) (w1 : list Z) (mem : jmem).
Hypothesis Hpo : parsed_object js w0 w m w1 mem.
Hypothesis few : zlen (vtoks (zlen w0) 0 (-1) (VObject w m)) < 2 ^ 31.

Lemma root_item_eq : root_item w0 w m = mk_item 0 0 (zlen (root_members w0 w m)).
Proof.
  unfold root_item, JSMN_ItemInit. f_equal. simpl vtoks in *.
  change (mtoks (zlen w0 + 1 + zlen w) (0 + 1) 0 m) with (root_members w0 w m) in *.
  rewrite zlen_cons in *. pose proof (zlen_nonneg (root_members w0 w m)).
  rewrite s32_small by lia. lia.
Qed.

Lemma root_tokens : ∃ t0 junk, m_tokens mem = t0 :: root_members w0 w m ++ junk ∧ tk_type t0 = JSMN_OBJECT.
Proof. destruct (po_tokens _ _ _ _ _ _ Hpo) as [junk ->]. by eexists _, junk. Qed.

Lemma root_following : following (m_tokens mem) (root_item w0 w m) = root_members w0 w m.
Proof.
  destruct root_tokens as (t0 & junk & -> & _). rewrite root_item_eq. unfold following. simpl.
  change (Z.to_nat (0 + 1)) with 1%nat. simpl.
  replace (Z.to_nat (zlen (root_members w0 w m))) with (length (root_members w0 w m)) by (unfold zlen; lia).
  by rewrite drop_0, take_app_length.
Qed.

Lemma root_ranges : ranges_ok js (root_members w0 w m).
Proof.
  intros t Ht Hty. pose proof (document_tokens_ok _ _ _ (po_ok _ _ _ _ _ _ Hpo)) as Hb.
  apply list_elem_of_lookup in Ht as [j Hj].
  destruct (bo_toks _ _ Hb (S j) t Hj) as (_ & _ & ? & Hend). rewrite Hty in Hend.
  destruct (po_text _ _ _ _ _ _ Hpo) as (_ & ? & _). unfold range_ok. lia.
Qed.

Lemma members_text : text_at js (zlen w0 + 1 + zlen w) (mtext m).
Proof.
  pose proof (po_text _ _ _ _ _ _ Hpo) as Ht. unfold document in Ht.
  apply text_at_app in Ht as [_ Ht]. apply text_at_app in Ht as [Ht _]. simpl in Ht.
  apply text_at_cons, text_at_app in Ht as [_ Ht]. apply text_at_app in Ht as [Ht _].
  by rewrite Z.add_0_l in Ht.
Qed.

Lemma vtoks_head v q i par : ∃ t, vtoks q i par v !! 0%nat = Some t.
Proof. destruct v; by eexists. Qed.

(** What a lookup gives: the key's token, followed by the tokens of the value. *)
Lemma root_lookup key : no_nul key →
  match mlookup key m with
  | None => JSMN_GetObjectItem (Some (root_item w0 w m)) (Some key) true mem = Ok mem (-1, None)
  | Some v => ∃ item kt t q i par,
      JSMN_GetObjectItem (Some (root_item w0 w m)) (Some key) true mem = Ok mem (0, Some item) ∧
      0 ≤ it_t item ∧ 0 < it_left_num item ∧
      m_tokens mem !! Z.to_nat (it_t item) = Some kt ∧ tk_type kt = JSMN_STRING ∧ tk_size kt = 1 ∧
      m_tokens mem !! Z.to_nat (it_t item + 1) = Some t ∧
      vtoks q i par v !! 0%nat = Some t ∧ text_at js q (vtext v)
  end.
Proof.
  intros Hk. destruct root_tokens as (t0 & junk & Et & Ht0).
  pose proof (mtoks_lookup js key m _ 1 0 members_text ltac:(lia) ltac:(lia)) as Hl.
  cbv zeta in Hl. fold (root_members w0 w m) in Hl. set (l := root_members w0 w m) in *.
  pose proof (zlen_nonneg l). pose proof (zlen_nonneg junk).
  assert (Hspec : JSMN_GetObjectItem (Some (root_item w0 w m)) (Some key) true mem = Ok mem
    match list_find (is_member js 0 key) l with
    | Some (j, _) => (0, Some (mk_item (Z.of_nat j + 1) (Z.of_nat j + 1) (zlen l - (Z.of_nat j + 1))))
    | None => (-1, None)
    end).
  { rewrite (get_object_item_ok js mem _ key t0); [|apply Hpo|apply Hpo|done| |by rewrite Et, root_item_eq|done|].
    - rewrite root_following, root_item_eq. simpl. by destruct (list_find _ _) as [[]|].
    - rewrite root_item_eq, Et. unfold item_ok. simpl. rewrite zlen_cons, zlen_app. fold l. lia.
    - rewrite root_following. apply root_ranges. }
  rewrite Hspec. destruct (mlookup key m) as [v|]; [|by rewrite Hl].
  destruct Hl as (j & kt & q & rest & Hf & ? & ? & ? & Hd). rewrite Hf.
  apply list_find_Some in Hf as (Hj & _ & _). pose proof (lookup_lt_Some _ _ _ Hj).
  destruct (vtoks_head v q (1 + Z.of_nat j + 1) (1 + Z.of_nat j)) as [t Ht].
  assert (l !! S j = Some t) as HSj.
  { rewrite <- (Nat.add_0_r (S j)), <- lookup_drop, Hd. by apply lookup_app_l_Some. }
  pose proof (lookup_lt_Some _ _ _ HSj).
  eexists _, kt, t, q, _, _. split; [done|]. simpl. unfold zlen.
  replace (Z.to_nat (Z.of_nat j + 1)) with (S j) by lia.
  replace (Z.to_nat (Z.of_nat j + 1 + 1)) with (S (S j)) by lia. rewrite Et. simpl.
  rewrite !lookup_app_l by lia. split_and!; try done; lia.
Qed.

(** A lookup, then the value as a string in a buffer of [n] bytes. *)
Lemma root_value key v n : no_nul key → mlookup key m = Some v → 0 < n < 2 ^ 31 →
  ∃ item, JSMN_GetObjectItem (Some (root_item w0 w m)) (Some key) true mem = Ok mem (0, Some item) ∧
    ∀ b, zlen b = n → ∃ b' r,
      JSMN_GetValueStringBuffered (Some item) n (set_m_buf (Some b) mem) = Ok (set_m_buf (Some b') mem) r ∧
      zlen b' = n ∧ c_string b' = Some (shown n v).
Proof.
  intros Hk Hv Hn. pose proof (root_lookup key Hk) as Hlk. rewrite Hv in Hlk.
  destruct Hlk as (item & kt & t & q & i & par & Hget & Hi & Hleft & Hkt & Hty & Hsz & Ht & Hvt & Htx).
  pose proof (po_ok _ _ _ _ _ _ Hpo) as Hok. unfold document_ok in Hok. simpl in Hok.
  rewrite !andb_true_iff in Hok. destruct Hok as [[_ [_ Hm]] _].
  exists item. split; [done|]. intros b Hl.
  destruct (get_buffered_value js b (set_m_buf (Some b) mem) (next_item item) n v q i par t)
    as (b' & r & Hget' & Hb'); try done; [apply Hpo|apply Hpo|simpl; lia|by eapply mvalid_lookup|].
  exists b', r. split; [|done].
  unfold JSMN_GetValueStringBuffered. rewrite !gets_bind. simpl.
  rewrite (po_js _ _ _ _ _ _ Hpo), (proj2 (Z.leb_gt n 0)) by lia.
  rewrite (bind_ok _ _ _ _ _ (load_token_ok (set_m_buf (Some b) mem) _ _ Hi Hkt)).
  unfold is_key. rewrite Hty, Hsz, (proj2 (Z.leb_gt _ 0)) by lia. done.
Qed.
End object.

(** After a document that is an object has been parsed, looking up a key of
    it and fetching the value as a string gives the text of the first member with
    that key, cut to the buffer: every string and number comes out as it was
    printed, an array or an object as the empty string, and a key the document
    does not have is reported. *)
Theorem document_member js w0 w m w1 mem key b n :
  parsed_object js w0 w m w1 mem → zlen (vtoks (zlen w0) 0 (-1) (VObject w m)) < 2 ^ 31 →
  no_nul key → m_buf mem = Some b → zlen b = n → 0 < n < 2 ^ 31 →
  match mlookup key m with
  | None => JSMN_GetObjectItem (Some (root_item w0 w m)) (Some key) true mem = Ok mem (-1, None)
  | Some v => ∃ item b' r,
      JSMN_GetObjectItem (Some (root_item w0 w m)) (Some key) true mem = Ok mem (0, Some item) ∧
      JSMN_GetValueStringBuffered (Some item) n mem = Ok (set_m_buf (Some b') mem) r ∧
      zlen b' = n ∧ c_string b' = Some (shown n v)
  end.
Proof.
  intros Hpo Hfew Hk Hb Hl Hn. pose proof (root_lookup js w0 w m w1 mem Hpo Hfew key Hk) as Hlk.
  destruct (mlookup key m) as [v|] eqn:Hv; [|done].
  destruct (root_value js w0 w m w1 mem Hpo Hfew key v n) as (item & Hget & Hval); [done..|].
  destruct (Hval b Hl) as (b' & r & Hb'). exists item, b', r. split; [done|].
  destruct mem as [mjs mts mbuf]. simpl in Hb. by subst mbuf.
Qed.
