(* ===== verification/JsmnClient.v ===== *)
(** * The frames the network module receives ([json_deal_cmd])

    From the bytes of a frame to what is printed: parser and accessors together. *)

From Stdlib Require Import ZArith Lia.
From stdpp Require Import base list.
From S2P Require Import RTThread.
From S2P Require Import Prelude.
From S2P Require Import Bytes.
From S2P Require Import Kservice.
From S2P Require Import Jsmn.
From S2P Require Import JsmnReference.
From S2P Require Import JsmnRefine.
From S2P Require Import JsmnSpec.
From S2P Require Import JsmnTree.
From S2P Require Import JsmnUtil.
From S2P Require Import JsmnAccess.

(** ** A document holds no NUL *)

Lemma no_nul_nil : no_nul [].
Proof. apply not_elem_of_nil. Qed.
Lemma no_nul_cons c s : c ≠ 0 → no_nul s → no_nul (c :: s).
Proof. unfold no_nul. rewrite not_elem_of_cons. done. Qed.
Lemma no_nul_app s t : no_nul s → no_nul t → no_nul (s ++ t).
Proof. unfold no_nul. rewrite not_elem_of_app. done. Qed.
Lemma blank_no_nul w : blank w = true → no_nul w.
Proof. unfold blank. rewrite forallb_forall. intros Hw H0. apply list_elem_of_In, Hw in H0. done. Qed.

#[local] Hint Resolve no_nul_nil no_nul_cons no_nul_app blank_no_nul : kernel.

Lemma document_no_nul_all :
  (∀ v, valid v = true → no_nul (vtext v)) ∧
  (∀ e, evalid e = true → no_nul (etext e)) ∧
  (∀ m, mvalid m = true → no_nul (mtext m)).
Proof.
  assert (∀ s, valid_string s = true → no_nul s) as Hstr
    by (intros s Hs; by apply (valid_text_no_nul (VString s)); [|left]).
  apply document_ind; simpl.
  - intros s Hs. apply no_nul_cons; [done|]. apply no_nul_app; [auto|].
    by apply no_nul_cons; [|apply no_nul_nil].
  - intros s Hs. by apply (valid_text_no_nul (VPrimitive s)); [|right].
  - intros w e IH [? ?]%andb_true_iff. auto 8 with kernel.
  - intros w m IH [? ?]%andb_true_iff. auto 8 with kernel.
  - intros _. apply no_nul_nil.
  - intros v IHv w1 w2 e IHe. rewrite !andb_true_iff. intros [[[? ?] ?] ?].
    destruct e; auto 8 with kernel.
  - intros _. apply no_nul_nil.
  - intros k w1 w2 v IHv w3 w4 m IHm. rewrite !andb_true_iff. intros [[[[[[? ?] ?] ?] ?] ?] ?].
    apply no_nul_cons; [done|]. apply no_nul_app; [auto|]. apply no_nul_cons; [done|].
    apply no_nul_app; [auto with kernel|]. apply no_nul_cons; [done|].
    repeat (apply no_nul_app; [auto with kernel|]).
    destruct m; [apply no_nul_nil|]. apply no_nul_cons; [done|]. auto with kernel.
Qed.

Lemma document_no_nul w0 v w1 : document_ok w0 v w1 = true → no_nul (document w0 v w1).
Proof.
  unfold document_ok, document. rewrite !andb_true_iff. intros [[? ?] ?].
  apply no_nul_app; [auto with kernel|]. apply no_nul_app; [by apply document_no_nul_all|auto with kernel].
Qed.

(** ** The client on a document *)

(** A frame: an object, its NUL and whatever else the buffer holds. *)
Definition frame (w0 w : list Z) (m : members) (w1 rest : list Z) : list Z :=
  document w0 (VObject w m) w1 ++ 0 :: rest.

(** What the client returns and prints for a document. *)
Definition deal_expected (m : members) : Z * list frame_event :=
  match mlookup str_age m, mlookup str_email m, mlookup str_name m with
  | None, _, _ => (-1, [EMissing str_age])
  | _, None, _ => (-1, [EMissing str_email])
  | _, _, None => (-1, [EMissing str_name])
  | Some a, Some e, Some n =>
      (1, [EValue str_age (shown 64 a); EValue str_email (shown 64 e); EValue str_name (shown 64 n)])
  end.

Lemma str_age_no_nul : no_nul str_age.
Proof. by apply (bool_decide_unpack (0 ∉ str_age)). Qed.
Lemma str_email_no_nul : no_nul str_email.
Proof. by apply (bool_decide_unpack (0 ∉ str_email)). Qed.
Lemma str_name_no_nul : no_nul str_name.
Proof. by apply (bool_decide_unpack (0 ∉ str_name)). Qed.

Section client.
Context (js w0 w : list Z) (m : members) (w1 : list Z) (mem : jmem).
Hypothesis Hpo : parsed_object js w0 w m w1 mem.
Hypothesis few : zlen (vtoks (zlen w0) 0 (-1) (VObject w m)) < 2 ^ 31.

(** The item found prints its value, whatever the buffer holds. *)
Definition prints (item : jsmn_item_t) (key : list Z) (v : jval) : Prop :=
  ∀ b, zlen b = 64 → ∃ b', zlen b' = 64 ∧
    print_value item key (set_m_buf (Some b) mem) = Ok (set_m_buf (Some b') mem) (EValue key (shown 64 v)).

Lemma find_and_print key : no_nul key →
  match mlookup key m with
  | None => JSMN_GetObjectItem (Some (root_item w0 w m)) (Some key) true mem = Ok mem (-1, None)
  | Some v => ∃ item, JSMN_GetObjectItem (Some (root_item w0 w m)) (Some key) true mem = Ok mem (0, Some item) ∧
      prints item key v
  end.
Proof.
  intros Hk. pose proof (root_lookup js w0 w m w1 mem Hpo few key Hk) as Hlk.
  destruct (mlookup key m) as [v|] eqn:Hv; [|done].
  destruct (root_value js w0 w m w1 mem Hpo few key v 64 Hk Hv ltac:(lia)) as (item & Hget & Hval).
  exists item. split; [done|]. intros b Hb. destruct (Hval b Hb) as (b' & r & Hr & Hl & Hc).
  exists b'. split; [done|]. unfold print_value. rewrite (bind_ok _ _ _ _ _ Hr), gets_bind. simpl.
  by rewrite Hc.
Qed.

Lemma deal_object_document b : m_buf mem = Some b → zlen b = 64 →
  ∃ mem', deal_object (zlen (vtoks (zlen w0) 0 (-1) (VObject w m))) mem = Ok mem' (deal_expected m).
Proof.
  intros Hb Hl. unfold deal_object, deal_expected.
  change (JSMN_ItemInit 0 0 _) with (root_item w0 w m).
  assert (mem = set_m_buf (Some b) mem) as Emem by (destruct mem; simpl in *; by subst).
  pose proof (find_and_print str_age str_age_no_nul) as Ha.
  pose proof (find_and_print str_email str_email_no_nul) as He.
  pose proof (find_and_print str_name str_name_no_nul) as Hn.
  destruct (mlookup str_age m) as [va|]; [|by rewrite (bind_ok _ _ _ _ _ Ha); eexists].
  destruct Ha as (ia & Ha & Pa). rewrite (bind_ok _ _ _ _ _ Ha).
  destruct (mlookup str_email m) as [ve|]; [|by rewrite (bind_ok _ _ _ _ _ He); eexists].
  destruct He as (ie & He & Pe). rewrite (bind_ok _ _ _ _ _ He).
  destruct (mlookup str_name m) as [vn|]; [|by rewrite (bind_ok _ _ _ _ _ Hn); eexists].
  destruct Hn as (iname & Hn & Pn). rewrite (bind_ok _ _ _ _ _ Hn).
  destruct (Pa b Hl) as (b1 & Hl1 & P1). destruct (Pe b1 Hl1) as (b2 & Hl2 & P2).
  destruct (Pn b2 Hl2) as (b3 & Hl3 & P3).
  rewrite <- Emem in P1. rewrite (bind_ok _ _ _ _ _ P1), (bind_ok _ _ _ _ _ P2), (bind_ok _ _ _ _ _ P3).
  by eexists.
Qed.
End client.

(** ** Whole frames *)

(** A frame that starts with a blank or a brace is not the module's message. *)
Lemma not_disconnect w0 l : blank w0 = true →
  (rt_strncmp (w0 ++ 123 :: l) str_disconnect 12 =? 0) = false.
Proof.
  intros Hw. unfold rt_strncmp. change (Z.to_nat 12) with 12%nat. unfold str_disconnect.
  assert (∃ c r, w0 ++ 123 :: l = c :: r ∧ (c = 9 ∨ c = 13 ∨ c = 10 ∨ c = 32 ∨ c = 123))
    as (c & r & -> & Hc).
  { destruct w0 as [|c w0]; [exists 123, l; auto 6|]. exists c, (w0 ++ 123 :: l). split; [done|].
    simpl in Hw. apply andb_true_iff in Hw as [Hw _].
    rewrite !orb_true_iff, !Z.eqb_eq in Hw. tauto. }
  by destruct Hc as [-> |[-> |[-> |[-> | ->]]]].
Qed.

(** C16: A frame that holds a JSON object, in any layout, with at most 256 tokens:
    the client finds the first members called age, email and name and prints
    their texts, cut to 63 characters, in this order, and returns 1; when one of
    them is missing it reports the first that is and returns -1. *)
Theorem json_deal_cmd_document w0 w m w1 rest tk json_age :
  document_ok w0 (VObject w m) w1 = true →
  zlen (frame w0 w m w1 rest) < 2 ^ 31 - 1 → zlen tk = 256 → zlen json_age = 64 →
  zlen (vtoks (zlen w0) 0 (-1) (VObject w m)) ≤ 256 →
  ∃ mem, json_deal_cmd (frame w0 w m w1 rest) tk json_age = Ok mem (deal_expected m).
Proof.
  intros Hok Hlen Htk Hage Hfew. set (doc := document w0 (VObject w m) w1).
  pose proof (zlen_nonneg doc). pose proof (zlen_nonneg rest).
  assert (zlen (frame w0 w m w1 rest) = zlen doc + 1 + zlen rest) as Hfl
    by (unfold frame; fold doc; zlens; lia).
  unfold json_deal_cmd, frame_length. unfold frame at 1. fold doc.
  rewrite c_string_app by (by apply document_no_nul). simpl.
  assert ((rt_strncmp (frame w0 w m w1 rest) str_disconnect 12 =? 0) = false) as ->.
  { unfold frame, document. simpl vtext. rewrite <- !app_assoc. apply not_disconnect.
    unfold document_ok in Hok. rewrite !andb_true_iff in Hok. by destruct Hok as [[? _] _]. }
  rewrite andb_false_r. fold (start tk).
  rewrite (document_tokens _ _ _ _ w0 (VObject w m) w1); [|split; lia| |done|lia|lia].
  2:{ unfold frame. fold doc. unfold zlen. rewrite Nat2Z.id. by rewrite take_app_length. }
  assert (1 ≤ zlen (vtoks (zlen w0) 0 (-1) (VObject w m))) as Hone
    by (simpl vtoks; rewrite zlen_cons; pose proof (zlen_nonneg (mtoks (zlen w0 + 1 + zlen w) (0 + 1) 0 m)); lia).
  rewrite (proj2 (Z.ltb_ge _ 0)) by lia. simpl default.
  rewrite (proj2 (Z.ltb_ge _ 1)) by lia.
  apply (deal_object_document (frame w0 w m w1 rest) w0 w m w1 _) with json_age; try done; [|lia].
  split; [done|lia| |done|by eexists].
  split; [lia|]. split; [fold doc; lia|]. unfold frame. fold doc. unfold slice, zlen.
  rewrite Nat2Z.id. apply take_app_length.
Qed.

(** ** Any frame *)

Section safe.
Context (js doc : list Z) (toks : list jsmntok_t).
Hypothesis js_len : zlen js < 2 ^ 31.
Hypothesis js_doc : take (length doc) js = doc.
Hypothesis doc_nul : no_nul doc.
Hypothesis toks_ok : ∀ i t, toks !! i = Some t → token_ok (zlen doc) (length toks) i t.
Hypothesis toks_closed : ∀ t, t ∈ toks → is_open t = false.

(** Memory in which the client can go on: the buffer holds a string. *)
Definition client_ok (mem : jmem) : Prop :=
  m_js mem = Some js ∧ (∃ junk, m_tokens mem = toks ++ junk) ∧
  ∃ b, m_buf mem = Some b ∧ zlen b = 64 ∧ is_Some (c_string b).

Lemma client_token mem i t : client_ok mem → toks !! i = Some t → m_tokens mem !! i = Some t.
Proof. intros (_ & [junk ->] & _) Hi. by apply lookup_app_l_Some. Qed.

Lemma doc_len : zlen doc ≤ zlen js.
Proof.
  assert (length doc = length (take (length doc) js)) as Hl by by rewrite js_doc.
  rewrite length_take in Hl. unfold zlen. lia.
Qed.

Lemma token_range i t : toks !! i = Some t → 0 ≤ tk_start t ≤ tk_end t ∧ tk_end t ≤ zlen doc.
Proof.
  intros Hi. destruct (toks_ok i t Hi) as (_ & _ & ? & Hend).
  pose proof (toks_closed t (list_elem_of_lookup_2 _ _ _ Hi)) as Hc.
  unfold is_open in Hc. apply andb_false_iff in Hc.
  rewrite negb_false_iff, Z.eqb_eq, Z.eqb_neq in Hc.
  destruct (tk_type t); [done|lia..].
Qed.

Lemma token_text_ok i t : toks !! i = Some t →
  text_at js (tk_start t) (token_text js t) ∧ no_nul (token_text js t) ∧
  tk_end t = tk_start t + zlen (token_text js t).
Proof.
  intros Hi. pose proof (token_range i t Hi) as [? ?]. pose proof doc_len.
  assert (zlen (token_text js t) = tk_end t - tk_start t) as Hz by (apply zlen_slice; lia).
  split_and!; [split; [lia|split; [lia|by rewrite Hz]]| |lia].
  unfold token_text. intros Hz0. apply doc_nul. rewrite <- js_doc. unfold slice in Hz0.
  apply list_elem_of_lookup in Hz0 as [j Hj]. apply lookup_take_Some in Hj as [Hj Hlt].
  rewrite lookup_drop in Hj. apply (list_elem_of_lookup_2 _ (Z.to_nat (tk_start t) + j)).
  apply lookup_take_Some. split; [done|]. unfold zlen in *. lia.
Qed.

Lemma print_value_safe item key mem :
  client_ok mem → item_ok toks item →
  ∃ mem' v, print_value item key mem = Ok mem' (EValue key v) ∧ client_ok mem'.
Proof.
  intros Hc (Hi & Hl & Hlt). pose proof Hc as (Hjs & [junk Ht] & b & Hb & Hbl & [v0 Hv0]).
  unfold print_value. unfold zlen in Hlt.
  destruct (lookup_lt_is_Some_2 toks (Z.to_nat (it_t item))) as [kt Hkt]; [lia|].
  assert (∃ mem' r, JSMN_GetValueStringBuffered (Some item) 64 mem = Ok mem' r ∧ client_ok mem')
    as (mem' & r & Hget & Hc').
  2:{ rewrite (bind_ok _ _ _ _ _ Hget), gets_bind. pose proof Hc' as (_ & _ & b' & Hb' & _ & [v Hv]).
      rewrite Hb'. simpl. rewrite Hv. exists mem', v. done. }
  unfold JSMN_GetValueStringBuffered. rewrite !gets_bind, Hjs, Hb.
  change (64 <=? 0) with false. cbv iota.
  rewrite (bind_ok _ _ _ _ _ (load_token_ok _ _ _ Hi (client_token _ _ _ Hc Hkt))).
  destruct (is_key kt item) eqn:Hk; [|by exists mem, (-1)]. unfold is_key in Hk.
  rewrite !andb_true_iff, negb_true_iff, Z.leb_gt in Hk. destruct Hk as [_ Hleft]. simpl negb. cbv iota.
  destruct (lookup_lt_is_Some_2 toks (Z.to_nat (it_t item + 1))) as [t Hvt]; [lia|].
  pose proof (client_token _ _ _ Hc Hvt) as Hmt.
  destruct (token_text_ok _ _ Hvt) as (Htx & Hnul & Hend).
  assert (∀ b', zlen b' = 64 → is_Some (c_string b') → client_ok (set_m_buf (Some b') mem)) as Hset.
  { intros b' ??. split; [done|]. split; [by exists junk|]. by exists b'. }
  destruct (decide (tk_type t = JSMN_STRING ∨ tk_type t = JSMN_PRIMITIVE)) as [Hty|Hty].
  - destruct (get_buffered_text js b mem (next_item item) 64 t (token_text js t)) as (b' & Hg & Hl' & Hs');
      try done; [simpl; lia|]. eexists _, _. split; [exact Hg|]. apply Hset; eauto.
  - eexists _, _. split.
    + eapply (get_buffered_nested b mem (next_item item) 64 js t); try done; [simpl; lia|tauto|tauto].
    + destruct (zero_string 64) as [? Hz]; [done|]. apply Hset; [done|]. rewrite Hz. eauto.
Qed.

Lemma find_safe key mem t0 :
  client_ok mem → no_nul key → toks !! 0%nat = Some t0 → tk_type t0 = JSMN_OBJECT → zlen toks < 2 ^ 31 →
  JSMN_GetObjectItem (Some (JSMN_ItemInit 0 0 (zlen toks))) (Some key) true mem = Ok mem (-1, None) ∨
  ∃ item, JSMN_GetObjectItem (Some (JSMN_ItemInit 0 0 (zlen toks))) (Some key) true mem = Ok mem (0, Some item) ∧
    item_ok toks item.
Proof.
  intros Hc Hk Ht0 Hty Hlen. pose proof Hc as (Hjs & [junk Ht] & _).
  pose proof (lookup_lt_Some _ _ _ Ht0). pose proof (zlen_nonneg junk).
  assert (JSMN_ItemInit 0 0 (zlen toks) = mk_item 0 0 (zlen toks - 1)) as ->.
  { unfold JSMN_ItemInit, zlen in *. rewrite s32_small by lia. f_equal; lia. }
  assert (following (m_tokens mem) (mk_item 0 0 (zlen toks - 1)) = drop 1 toks) as Hfol.
  { rewrite Ht. unfold following. simpl. change (Z.to_nat (0 + 1)) with 1%nat.
    rewrite drop_app_le by lia. replace (Z.to_nat (zlen toks - 1)) with (length (drop 1 toks))
      by (rewrite length_drop; unfold zlen; lia). by rewrite take_app_length. }
  rewrite (get_object_item_ok js mem _ key t0); try done.
  - rewrite Hfol. simpl it_t. simpl it_index. simpl it_left_num.
    destruct (list_find _ _) as [[j u]|] eqn:Hf; [right|by left]. eexists. split; [done|].
    apply list_find_Some in Hf as (Hj & _). apply lookup_lt_Some in Hj. rewrite length_drop in Hj.
    unfold item_ok, zlen. simpl. lia.
  - unfold item_ok. simpl. rewrite Ht, zlen_app. unfold zlen in *. lia.
  - by apply (client_token mem 0).
  - rewrite Hfol. intros t Hin _. apply list_elem_of_lookup in Hin as [j Hj]. rewrite lookup_drop in Hj.
    pose proof (token_range _ _ Hj). pose proof doc_len. unfold range_ok. lia.
Qed.

Lemma deal_object_safe mem t0 :
  client_ok mem → toks !! 0%nat = Some t0 → tk_type t0 = JSMN_OBJECT → zlen toks < 2 ^ 31 →
  ∃ mem' r evs, deal_object (zlen toks) mem = Ok mem' (r, evs) ∧ (r = 1 ∨ r = -1).
Proof.
  intros Hc Ht0 Hty Hlen. unfold deal_object. cbv zeta.
  destruct (find_safe str_age mem t0 Hc str_age_no_nul Ht0 Hty Hlen) as [Ha|(ia & Ha & Hia)];
    rewrite (bind_ok _ _ _ _ _ Ha); [by eexists _, _, _; split; [done|right]|].
  destruct (find_safe str_email mem t0 Hc str_email_no_nul Ht0 Hty Hlen) as [He|(ie & He & Hie)];
    rewrite (bind_ok _ _ _ _ _ He); [by eexists _, _, _; split; [done|right]|].
  destruct (find_safe str_name mem t0 Hc str_name_no_nul Ht0 Hty Hlen) as [Hn|(iname & Hn & Hin)];
    rewrite (bind_ok _ _ _ _ _ Hn); [by eexists _, _, _; split; [done|right]|].
  destruct (print_value_safe ia str_age mem Hc Hia) as (m1 & v1 & P1 & Hc1).
  destruct (print_value_safe ie str_email m1 Hc1 Hie) as (m2 & v2 & P2 & Hc2).
  destruct (print_value_safe iname str_name m2 Hc2 Hin) as (m3 & v3 & P3 & Hc3).
  rewrite (bind_ok _ _ _ _ _ P1), (bind_ok _ _ _ _ _ P2), (bind_ok _ _ _ _ _ P3).
  eexists _, _, _. split; [done|by left].
Qed.
End safe.

Lemma c_string_Some l s : c_string l = Some s → no_nul s ∧ take (length s) l = s ∧ zlen s < zlen l.
Proof.
  revert s. induction l as [|c l IH]; intros s; [done|]. simpl. destruct (Z.eqb_spec c 0) as [->|Hc].
  - intros [= <-]. split; [apply no_nul_nil|]. split; [done|]. rewrite zlen_cons. pose proof (zlen_nonneg l).
    rewrite zlen_nil. lia.
  - intros (s' & Hs & ->)%fmap_Some. apply IH in Hs as (? & Ht & ?).
    split; [by apply no_nul_cons|]. split; [simpl; by rewrite Ht|]. rewrite !zlen_cons. lia.
Qed.

(** C17: On any NUL-terminated frame, well formed or not, the client comes back
    with 1, -1 or -2, having read and written only the frame, its token array and
    its buffer, provided the buffer [json_age] holds some string beforehand. *)
Theorem json_deal_cmd_safe js doc tk json_age :
  c_string js = Some doc → zlen js < 2 ^ 31 - 1 → zlen tk = 256 → zlen json_age = 64 →
  is_Some (c_string json_age) →
  ∃ mem r evs, json_deal_cmd js tk json_age = Ok mem (r, evs) ∧ (r = 1 ∨ r = -1 ∨ r = -2).
Proof.
  intros Hdoc Hlen Htk Hage Hinit. destruct (c_string_Some _ _ Hdoc) as (Hnul & Htake & Hlt).
  unfold json_deal_cmd, frame_length. rewrite Hdoc. simpl.
  destruct (_ && _); [by eexists _, _, _; split; [done|auto]|].
  pose proof (zlen_nonneg doc). fold (start tk).
  destruct (jsmn_parse_ends js (zlen doc) 256 tk) as (r & p' & toks & super & -> & Hp & Hfew & Hs & Hok & Hr);
    [split; lia|lia|lia|]. simpl.
  destruct (Z.ltb_spec r 0) as [Hneg|Hneg]; [by eexists _, _, _; split; [done|auto]|].
  destruct Hr as [[-> _]|[->|[->|[-> Hclosed]]]]; [done..|].
  simpl default.
  destruct ((toks ++ drop (length toks) tk) !! 0%nat) as [t0|] eqn:Ht0.
  2:{ apply lookup_ge_None in Ht0. rewrite length_app, length_drop in Ht0. unfold zlen in *. lia. }
  destruct (_ || _) eqn:Hty; [by eexists _, _, _; split; [done|auto]|].
  rewrite orb_false_iff, negb_false_iff, bool_decide_eq_true, Z.ltb_ge in Hty. destruct Hty as [Hone Hty].
  rewrite lookup_app_l in Ht0 by (unfold zlen in *; lia).
  destruct (deal_object_safe js doc toks ltac:(lia) Htake Hnul) with
    (mem := mk_jmem (Some js) (toks ++ drop (length toks) tk) (Some json_age)) (t0 := t0)
    as (mem & r & evs & Hd & Hr); try done; [| |lia|].
  - intros i t Hi. eapply token_ok_mono; [..|by apply Hok]; lia.
  - split; [done|]. split; [by eexists|]. by exists json_age.
  - exists mem, r, evs. split; [exact Hd|tauto].
Qed.
