(* ===== verification/FinshVm.v ===== *)
(** * The virtual machine of the shell ([finsh_vm.c], [finsh_ops.c])

    A stack of 64 unions of four bytes, a text segment of 128 bytes, and the
    memory its programs read and write, in which an address is an index. A slot
    is the number its four bytes make, least significant first. The functions a
    program calls are a parameter: what each does to memory, and its result. *)

From Stdlib Require Import ZArith Lia.
From stdpp Require Import base list.
From S2P Require Import RTThread.
From S2P Require Import Prelude.
From S2P Require Import Bytes.

Definition FINSH_STACK_MAX : Z := 64.
Definition FINSH_TEXT_MAX : Z := 128.

(** Function address, arguments, memory; nothing where there is no function. *)
Class Syscalls := syscall_at : Z → list Z → list Z → option (list Z * Z).

Record vm : Set := mk_vm {
  finsh_vm_stack : list Z;
  finsh_sp : Z;
  text_segment : list Z;
  finsh_pc : Z;
  vm_memory : list Z }.
Definition set_stack (v : list Z) (s : vm) : vm :=
  mk_vm v (finsh_sp s) (text_segment s) (finsh_pc s) (vm_memory s).
Definition set_sp (v : Z) (s : vm) : vm :=
  mk_vm (finsh_vm_stack s) v (text_segment s) (finsh_pc s) (vm_memory s).
Definition set_text (v : list Z) (s : vm) : vm :=
  mk_vm (finsh_vm_stack s) (finsh_sp s) v (finsh_pc s) (vm_memory s).
Definition set_pc (v : Z) (s : vm) : vm :=
  mk_vm (finsh_vm_stack s) (finsh_sp s) (text_segment s) v (vm_memory s).
Definition set_memory (v : list Z) (s : vm) : vm :=
  mk_vm (finsh_vm_stack s) (finsh_sp s) (text_segment s) (finsh_pc s) v.

Notation VM := (ST vm) (only parsing).

(** ** Numbers in bytes *)

Fixpoint le_value (bs : list Z) : Z :=
  match bs with [] => 0 | b :: bs => b + 256 * le_value bs end.
Fixpoint le_bytes (n : nat) (v : Z) : list Z :=
  match n with O => [] | S n => u8 v :: le_bytes n (v / 256) end.

(** The three sizes of data. [view] is what a [char] (unsigned on the target),
    a [short] or a [long] reads in a slot; [put_in] is the slot once one is written. *)
Inductive width : Set := BYTE | WORD | DWORD.
Definition bytes_of (w : width) : Z := match w with BYTE => 1 | WORD => 2 | DWORD => 4 end.
Definition modulus (w : width) : Z := 256 ^ bytes_of w.
Definition view (w : width) (slot : Z) : Z :=
  match w with BYTE => u8 slot | WORD => s16 slot | DWORD => s32 slot end.
Definition put_in (w : width) (slot v : Z) : Z := slot - slot mod modulus w + v mod modulus w.

(** ** Accesses *)

Definition get_slot (i : Z) : VM Z :=
  s ← get;
  if i <? 0 then fail FBounds
  else from_option_or FBounds (finsh_vm_stack s !! Z.to_nat i).
Definition set_slot (i v : Z) : VM unit :=
  _ ← get_slot i;
  modify (λ s, set_stack (<[Z.to_nat i := v]> (finsh_vm_stack s)) s).
(** [(finsh_sp - k)->x_value], read and written. *)
Definition sp_value (w : width) (k : Z) : VM Z :=
  s ← get; v ← get_slot (finsh_sp s - k); mret (view w v).
Definition set_sp_value (w : width) (k v : Z) : VM unit :=
  s ← get;
  old ← get_slot (finsh_sp s - k);
  set_slot (finsh_sp s - k) (put_in w old v).
Definition move_sp (d : Z) : VM unit := modify (λ s, set_sp (finsh_sp s + d) s).
Definition move_pc (d : Z) : VM unit := modify (λ s, set_pc (finsh_pc s + d) s).
(** [n] bytes at [finsh_pc]: [*finsh_pc], [FINSH_GET16], [FINSH_GET32]. *)
Definition pc_value (n : Z) : VM Z :=
  s ← get;
  bs ← from_option_or FBounds (rd (text_segment s) (finsh_pc s) n);
  mret (le_value bs).
(** [*(T * )a] in a memory, read and written. *)
Definition peek (w : width) (m : list Z) (a : Z) : option Z :=
  view w ∘ le_value <$> rd m (u32 a) (bytes_of w).
Definition poke (w : width) (m : list Z) (a v : Z) : option (list Z) :=
  wr m (u32 a) (le_bytes (Z.to_nat (bytes_of w)) v).
Definition vm_load (w : width) (a : Z) : VM Z :=
  s ← get; from_option_or FBounds (peek w (vm_memory s) a).
Definition vm_store (w : width) (a v : Z) : VM unit :=
  s ← get;
  m ← from_option_or FBounds (poke w (vm_memory s) a v);
  modify (set_memory m).

(** ** The operators, on promoted operands *)

Inductive binop : Set := Add | Sub | Div | Mod | Mul | And | Or | Xor | Shl | Shr.
Definition c_binop {S} (op : binop) (a b : Z) : ST S Z :=
  match op with
  | Add => mret (a + b)
  | Sub => mret (a - b)
  | Mul => mret (a * b)
  | Div => if b =? 0 then fail FDivide else mret (Z.quot a b)
  | Mod => if b =? 0 then fail FDivide else mret (Z.rem a b)
  | And => mret (Z.land a b)
  | Or => mret (Z.lor a b)
  | Xor => mret (Z.lxor a b)
  | Shl => if (0 <=? b) && (b <? 32) then mret (Z.shiftl a b) else fail FShift
  | Shr => if (0 <=? b) && (b <? 32) then mret (Z.shiftr a b) else fail FShift
  end.
(** The macros [OP_BIN_BYTE], [OP_BIN_WORD] and [OP_BIN_DWORD]. *)
Definition OP_BIN (w : width) (op : binop) : VM unit :=
  a ← sp_value w 2;
  b ← sp_value w 1;
  r ← c_binop op a b;
  set_sp_value w 2 r;;
  move_sp (-1).
Definition OP_BIN_BYTE : binop → VM unit := OP_BIN BYTE.
Definition OP_BIN_WORD : binop → VM unit := OP_BIN WORD.
Definition OP_BIN_DWORD : binop → VM unit := OP_BIN DWORD.

(** ** The operations *)

Definition OP_no_op : VM unit := mret ().

Definition OP_add_byte : VM unit := OP_BIN_BYTE Add.
Definition OP_add_word : VM unit := OP_BIN_WORD Add.
Definition OP_add_dword : VM unit := OP_BIN_DWORD Add.
Definition OP_sub_byte : VM unit := OP_BIN_BYTE Sub.
Definition OP_sub_word : VM unit := OP_BIN_WORD Sub.
Definition OP_sub_dword : VM unit := OP_BIN_DWORD Sub.
Definition OP_div_byte : VM unit := OP_BIN_BYTE Div.
Definition OP_div_word : VM unit := OP_BIN_WORD Div.
Definition OP_div_dword : VM unit := OP_BIN_DWORD Div.
Definition OP_mod_byte : VM unit := OP_BIN_BYTE Mod.
Definition OP_mod_word : VM unit := OP_BIN_WORD Mod.
Definition OP_mod_dword : VM unit := OP_BIN_DWORD Mod.
Definition OP_mul_byte : VM unit := OP_BIN_BYTE Mul.
Definition OP_mul_word : VM unit := OP_BIN_WORD Mul.
Definition OP_mul_dword : VM unit := OP_BIN_DWORD Mul.
Definition OP_and_byte : VM unit := OP_BIN_BYTE And.
Definition OP_and_word : VM unit := OP_BIN_WORD And.
Definition OP_and_dword : VM unit := OP_BIN_DWORD And.
Definition OP_or_byte : VM unit := OP_BIN_BYTE Or.
Definition OP_or_word : VM unit := OP_BIN_WORD Or.
Definition OP_or_dword : VM unit := OP_BIN_DWORD Or.
Definition OP_xor_byte : VM unit := OP_BIN_BYTE Xor.
Definition OP_xor_word : VM unit := OP_BIN_WORD Xor.
Definition OP_xor_dword : VM unit := OP_BIN_DWORD Xor.

(** [~] of the operand, promoted. *)
Definition OP_bw (w : width) : VM unit := a ← sp_value w 1; set_sp_value w 1 (Z.lnot a).
Definition OP_bw_byte : VM unit := OP_bw BYTE.
Definition OP_bw_word : VM unit := OP_bw WORD.
Definition OP_bw_dword : VM unit := OP_bw DWORD.

Definition OP_shl_byte : VM unit := OP_BIN_BYTE Shl.
Definition OP_shl_word : VM unit := OP_BIN_WORD Shl.
Definition OP_shl_dword : VM unit := OP_BIN_DWORD Shl.
Definition OP_shr_byte : VM unit := OP_BIN_BYTE Shr.
Definition OP_shr_word : VM unit := OP_BIN_WORD Shr.
Definition OP_shr_dword : VM unit := OP_BIN_DWORD Shr.

Definition OP_ld (w : width) : VM unit :=
  v ← pc_value (bytes_of w);
  set_sp_value w 0 v;;
  move_sp 1;;
  move_pc (bytes_of w).
Definition OP_ld_byte : VM unit := OP_ld BYTE.
Definition OP_ld_word : VM unit := OP_ld WORD.
Definition OP_ld_dword : VM unit := OP_ld DWORD.

Definition OP_ld_value (w : width) : VM unit :=
  c ← pc_value 4;
  v ← vm_load w c;
  set_sp_value w 0 v;;
  move_sp 1;;
  move_pc 4.
Definition OP_ld_value_byte : VM unit := OP_ld_value BYTE.
Definition OP_ld_value_word : VM unit := OP_ld_value WORD.
Definition OP_ld_value_dword : VM unit := OP_ld_value DWORD.

Definition OP_ld_value_stack (w : width) : VM unit :=
  c ← sp_value DWORD 1;
  v ← vm_load w c;
  set_sp_value w 1 v.
Definition OP_ld_value_byte_stack : VM unit := OP_ld_value_stack BYTE.
Definition OP_ld_value_word_stack : VM unit := OP_ld_value_stack WORD.
Definition OP_ld_value_dword_stack : VM unit := OP_ld_value_stack DWORD.

Definition OP_st (w : width) : VM unit :=
  a ← sp_value DWORD 2;
  v ← sp_value w 1;
  vm_store w a v;;
  move_sp (-1).
Definition OP_st_byte : VM unit := OP_st BYTE.
Definition OP_st_word : VM unit := OP_st WORD.
Definition OP_st_dword : VM unit := OP_st DWORD.

Definition OP_pop : VM unit := move_sp (-1).

Section vm.
Context `{!Syscalls}.

(** The loop that fills [parameterv], sixteen words, from the last parameter;
    [n] parameters are left to take. *)
Fixpoint take_parameters (n : nat) (parameterv : list Z) : VM (list Z) :=
  match n with
  | O => mret parameterv
  | S n' =>
      v ← sp_value DWORD 0;
      if 16 <=? Z.of_nat n' then fail FBounds
      else
        move_sp (-1);;
        take_parameters n' (<[n' := u32 v]> parameterv)
  end.
Definition invoke (f : Z) (args : list Z) : VM Z :=
  s ← get;
  '(m, r) ← from_option_or FNull (syscall_at (u32 f) args (vm_memory s));
  modify (set_memory m);;
  mret r.
(** A call without parameters passes a zero; above sixteen there is no call,
    but the loop has left the array by then. *)
Definition OP_call : VM unit :=
  parameters ← pc_value 1;
  move_pc 1;;
  move_sp (-1);;
  parameterv ← take_parameters (Z.to_nat parameters) (replicate 16 0);
  f ← sp_value DWORD 0;
  r ← (if parameters =? 0 then invoke f [0]
       else if parameters <=? 16 then invoke f (take (Z.to_nat parameters) parameterv)
       else mret 0);
  set_sp_value DWORD 0 r;;
  move_sp 1.

Definition op_table : list (VM unit) := [
  OP_no_op;
  OP_add_byte; OP_add_word; OP_add_dword;
  OP_sub_byte; OP_sub_word; OP_sub_dword;
  OP_div_byte; OP_div_word; OP_div_dword;
  OP_mod_byte; OP_mod_word; OP_mod_dword;
  OP_mul_byte; OP_mul_word; OP_mul_dword;
  OP_and_byte; OP_and_word; OP_and_dword;
  OP_or_byte; OP_or_word; OP_or_dword;
  OP_xor_byte; OP_xor_word; OP_xor_dword;
  OP_bw_byte; OP_bw_word; OP_bw_dword;
  OP_shl_byte; OP_shl_word; OP_shl_dword;
  OP_shr_byte; OP_shr_word; OP_shr_dword;
  OP_ld_byte; OP_ld_word; OP_ld_dword;
  OP_ld_value_byte; OP_ld_value_word; OP_ld_value_dword;
  OP_st_byte; OP_st_word; OP_st_dword;
  OP_pop; OP_call;
  OP_ld_value_byte_stack; OP_ld_value_word_stack; OP_ld_value_dword_stack ].

(** ** The machine *)

Definition vm_running (s : vm) : bool := (0 <=? finsh_pc s) && (finsh_pc s <? FINSH_TEXT_MAX).
(** One round of the loop; an operation past the table is no function. *)
Definition vm_step : VM unit :=
  op ← pc_value 1;
  move_pc 1;;
  nth (Z.to_nat op) op_table (fail FNull).
Fixpoint vm_loop (fuel : nat) : VM unit := λ s,
  if vm_running s then
    match fuel with
    | O => Err FHang
    | S fuel => (vm_step;; vm_loop fuel) s
    end
  else Ok s tt.
Definition finsh_vm_run : VM unit :=
  modify (set_sp 0);;
  modify (set_pc 0);;
  vm_loop (Z.to_nat FINSH_TEXT_MAX).
Definition finsh_stack_bottom : VM Z := v ← get_slot 0; mret (view DWORD v).
End vm.
