(* ===== verification/FinshVmSpec.v ===== *)
(** * Running the virtual machine of the shell

    The machine has no jumps: every operation moves on, and a run ends within
    the length of the text segment. [run] is the loop with enough fuel. *)

From Stdlib Require Import ZArith Lia.
From stdpp Require Import base list.
From S2P Require Import RTThread.
From S2P Require Import Prelude.
From S2P Require Import Bytes.
From S2P Require Import FinshVm.

(** ** Numbers in bytes *)

Lemma zlen_le_bytes n v : zlen (le_bytes n v) = Z.of_nat n.
Proof. revert v. induction n as [|n IH]; intros v; [done|]. simpl. rewrite zlen_cons, IH. lia. Qed.
Lemma le_value_bytes n v : le_value (le_bytes n v) = v mod 256 ^ Z.of_nat n.
Proof.
  revert v. induction n as [|n IH]; intros v; [by rewrite Z.mod_1_r|]. cbn [le_bytes le_value]. rewrite IH.
  rewrite Nat2Z.inj_succ, Z.pow_succ_r by lia. unfold u8. change (2 ^ 8) with 256.
  rewrite Z.rem_mul_r by (pose proof (Z.pow_pos_nonneg 256 (Z.of_nat n)); lia). done.
Qed.
Lemma modulus_pos w : 0 < modulus w.
Proof. by destruct w. Qed.
Lemma le_value_width w v : le_value (le_bytes (Z.to_nat (bytes_of w)) v) = v mod modulus w.
Proof. rewrite le_value_bytes. by destruct w. Qed.
Lemma zlen_width w v : zlen (le_bytes (Z.to_nat (bytes_of w)) v) = bytes_of w.
Proof. rewrite zlen_le_bytes. by destruct w. Qed.

(** Narrower widths see what wider ones left in the low bytes. *)
Definition narrower (w w' : width) : bool := bytes_of w <=? bytes_of w'.
Lemma mod_narrower w w' x : narrower w w' = true → (x mod modulus w') mod modulus w = x mod modulus w.
Proof.
  intros Hw. destruct w, w'; try done; unfold modulus; simpl; apply Z.mod_mod_divide.
  1,4,6: done.
  - by exists 256.
  - by exists (256 * 65536).
  - by exists 65536.
Qed.
Lemma put_mod w old v : put_in w old v mod modulus w = v mod modulus w.
Proof.
  unfold put_in. pose proof (modulus_pos w). rewrite Z.add_mod, Zminus_mod, Z.mod_mod, Z.sub_diag by lia.
  rewrite Z.mod_0_l, Z.add_0_l, !Z.mod_mod by lia. done.
Qed.
Lemma view_mod w x : view w (x mod modulus w) = view w x.
Proof.
  destruct w; simpl; unfold modulus, u8, s16, s32; simpl.
  - by rewrite Z.mod_mod.
  - f_equal. change (256 ^ 2) with (2 ^ 16). by rewrite Zplus_mod_idemp_l.
  - f_equal. change (256 ^ 4) with (2 ^ 32). by rewrite Zplus_mod_idemp_l.
Qed.
Lemma view_eq w x y : x mod modulus w = y mod modulus w → view w x = view w y.
Proof. intros H. by rewrite <- (view_mod w x), H, view_mod. Qed.
Lemma mod_view w x : view w x mod modulus w = x mod modulus w.
Proof.
  destruct w; simpl; unfold modulus, u8, s16, s32; simpl.
  - by rewrite Z.mod_mod.
  - change (256 ^ 2) with (2 ^ 16). rewrite Zminus_mod, Z.mod_mod, <- Zminus_mod by lia. f_equal. lia.
  - change (256 ^ 4) with (2 ^ 32). rewrite Zminus_mod, Z.mod_mod, <- Zminus_mod by lia. f_equal. lia.
Qed.
Lemma u32_view x : u32 (view DWORD x) = u32 x.
Proof. exact (mod_view DWORD x). Qed.

(** ** Accesses *)

Lemma get_slot_ok i x (s : vm) : 0 ≤ i → finsh_vm_stack s !! Z.to_nat i = Some x → get_slot i s = Ok s x.
Proof.
  intros Hi Hx. unfold get_slot. rewrite get_bind. rewrite (proj2 (Z.ltb_ge _ _)) by lia. by rewrite Hx.
Qed.
Lemma set_slot_ok i v (s : vm) : 0 ≤ i < zlen (finsh_vm_stack s) →
  set_slot i v s = Ok (set_stack (<[Z.to_nat i := v]> (finsh_vm_stack s)) s) tt.
Proof.
  intros Hi. unfold zlen in Hi. destruct (lookup_lt_is_Some_2 (finsh_vm_stack s) (Z.to_nat i)) as [x Hx]; [lia|].
  unfold set_slot. rewrite (bind_ok _ _ _ _ _ (get_slot_ok i x s ltac:(lia) Hx)). done.
Qed.
Lemma sp_value_ok w k x (s : vm) : k ≤ finsh_sp s →
  finsh_vm_stack s !! Z.to_nat (finsh_sp s - k) = Some x → sp_value w k s = Ok s (view w x).
Proof.
  intros Hk Hx. unfold sp_value. rewrite get_bind.
  by rewrite (bind_ok _ _ _ _ _ (get_slot_ok (finsh_sp s - k) x s ltac:(lia) Hx)).
Qed.
Lemma set_sp_value_ok w k v x (s : vm) : k ≤ finsh_sp s →
  finsh_vm_stack s !! Z.to_nat (finsh_sp s - k) = Some x →
  set_sp_value w k v s =
    Ok (set_stack (<[Z.to_nat (finsh_sp s - k) := put_in w x v]> (finsh_vm_stack s)) s) tt.
Proof.
  intros Hk Hx. unfold set_sp_value. rewrite get_bind.
  rewrite (bind_ok _ _ _ _ _ (get_slot_ok (finsh_sp s - k) x s ltac:(lia) Hx)). apply set_slot_ok.
  apply lookup_lt_Some in Hx. unfold zlen. lia.
Qed.
Lemma pc_value_ok n (s : vm) bs : zlen bs = n → 0 ≤ finsh_pc s →
  finsh_pc s + n ≤ zlen (text_segment s) → slice (text_segment s) (finsh_pc s) n = bs →
  pc_value n s = Ok s (le_value bs).
Proof.
  intros Hn H0 Hl Hs. pose proof (zlen_nonneg bs). unfold pc_value. rewrite get_bind.
  rewrite rd_ok by lia. rewrite some_bind. by rewrite Hs.
Qed.

Section run.
Context `{!Syscalls}.

(** ** Progress: no operation moves the program counter back, or loops *)

Definition advances {A} (m : VM A) : Prop := ∀ s,
  match m s with Ok s' _ => finsh_pc s ≤ finsh_pc s' | Err e => e ≠ FHang end.
Lemma advances_bind {A B} (m : VM A) (f : A → VM B) :
  advances m → (∀ a, advances (f a)) → advances (m ≫= f).
Proof.
  intros Hm Hf s. specialize (Hm s). unfold mbind, ST_bind. destruct (m s) as [s1 a|]; [|done].
  specialize (Hf a s1). destruct (f a s1); [lia|done].
Qed.
Lemma advances_ret {A} (a : A) : advances (mret a).
Proof. intros s. simpl. lia. Qed.
Lemma advances_fail {A} e : e ≠ FHang → advances (@fail vm A e).
Proof. by intros ??. Qed.
Lemma advances_option {A} e (o : option A) : e ≠ FHang → advances (from_option_or e o).
Proof. destruct o; [intros _; apply advances_ret|apply advances_fail]. Qed.
Lemma advances_get : advances get.
Proof. intros s. simpl. lia. Qed.
Lemma advances_modify f : (∀ s, finsh_pc (f s) = finsh_pc s) → advances (modify f).
Proof. intros Hf s. simpl. rewrite Hf. lia. Qed.
Lemma advances_move_sp d : advances (move_sp d).
Proof. by apply advances_modify. Qed.
Lemma advances_move_pc d : 0 ≤ d → advances (move_pc d).
Proof. intros Hd s. simpl. lia. Qed.

Ltac advance := repeat first
  [ apply advances_bind; [|intros ?] | apply advances_ret | by apply advances_fail | by apply advances_option
  | apply advances_get | apply advances_move_sp | by apply advances_modify
  | apply advances_move_pc; first [lia | match goal with |- 0 ≤ bytes_of ?w => by destruct w end] | case_match ].

Lemma advances_get_slot i : advances (get_slot i).
Proof. unfold get_slot. advance. Qed.
Lemma advances_set_slot i v : advances (set_slot i v).
Proof. unfold set_slot. advance. Qed.
Lemma advances_sp_value w k : advances (sp_value w k).
Proof. unfold sp_value. advance. Qed.
Lemma advances_set_sp_value w k v : advances (set_sp_value w k v).
Proof. unfold set_sp_value. advance. Qed.
Lemma advances_pc_value n : advances (pc_value n).
Proof. unfold pc_value. advance. Qed.
Lemma advances_load w a : advances (vm_load w a).
Proof. unfold vm_load. advance. Qed.
Lemma advances_store w a v : advances (vm_store w a v).
Proof. unfold vm_store. advance. Qed.
Lemma advances_c_binop op a b : advances (c_binop (S:=vm) op a b).
Proof. unfold c_binop. advance. Qed.
Lemma advances_invoke f args : advances (invoke f args).
Proof. unfold invoke. advance. Qed.
Lemma advances_take n l : advances (take_parameters n l).
Proof. revert l. induction n as [|n IH]; intros l; simpl; advance; auto. Qed.
Ltac advance_op := repeat first
  [ progress advance | apply advances_sp_value | apply advances_set_sp_value | apply advances_pc_value
  | apply advances_load | apply advances_store | apply advances_c_binop | apply advances_invoke
  | apply advances_take ].

Lemma op_table_advances : Forall advances op_table.
Proof.
  assert (∀ w op, advances (OP_BIN w op)) as Hbin by (intros; unfold OP_BIN; advance_op).
  assert (∀ w, advances (OP_bw w)) as Hbw by (intros; unfold OP_bw; advance_op).
  assert (∀ w, advances (OP_ld w)) as Hld by (intros; unfold OP_ld; advance_op).
  assert (∀ w, advances (OP_ld_value w)) as Hldv by (intros; unfold OP_ld_value; advance_op).
  assert (∀ w, advances (OP_ld_value_stack w)) as Hlds by (intros; unfold OP_ld_value_stack; advance_op).
  assert (∀ w, advances (OP_st w)) as Hst by (intros; unfold OP_st; advance_op).
  assert (advances OP_call) as Hcall by (unfold OP_call; advance_op).
  repeat constructor; first [apply Hbin | apply Hbw | apply Hld | apply Hldv | apply Hlds | apply Hst
    | apply Hcall | apply advances_ret | apply advances_move_sp].
Qed.
Lemma vm_step_moves s :
  match vm_step s with Ok s' _ => finsh_pc s < finsh_pc s' | Err e => e ≠ FHang end.
Proof.
  unfold vm_step, mbind, ST_bind. destruct (pc_value 1 s) as [s1 op|e] eqn:E1.
  2:{ pose proof (advances_pc_value 1 s) as Ha. by rewrite E1 in Ha. }
  assert (finsh_pc s1 = finsh_pc s) as Hpc.
  { revert E1. unfold pc_value. rewrite get_bind. destruct (rd _ _ _); [|done]. by intros [= <- _]. }
  unfold move_pc, modify at 1.
  assert (advances (nth (Z.to_nat op) op_table (fail FNull))) as Ha.
  { destruct (nth_in_or_default (Z.to_nat op) op_table (fail FNull)) as [Hin| ->]; [|by apply advances_fail].
    pose proof op_table_advances as Hall. rewrite Forall_forall in Hall. apply Hall.
    by apply list_elem_of_In. }
  specialize (Ha (set_pc (finsh_pc s1 + 1) s1)). revert Ha. case_match; [|done]. simpl. lia.
Qed.

(** ** Running *)

Lemma vm_loop_fuel n m s : FINSH_TEXT_MAX - finsh_pc s ≤ Z.of_nat n →
  FINSH_TEXT_MAX - finsh_pc s ≤ Z.of_nat m → vm_loop n s = vm_loop m s.
Proof.
  revert m s. induction n as [|n IH]; intros m s Hn Hm.
  - assert (vm_running s = false) as Hr by (unfold vm_running; destruct (Z.ltb_spec (finsh_pc s) FINSH_TEXT_MAX); [lia|apply andb_false_r]).
    destruct m; simpl; by rewrite Hr.
  - destruct m as [|m].
    + assert (vm_running s = false) as Hr by (unfold vm_running; destruct (Z.ltb_spec (finsh_pc s) FINSH_TEXT_MAX); [lia|apply andb_false_r]).
      simpl. by rewrite Hr.
    + simpl. destruct (vm_running s) eqn:Hr; [|done]. unfold mbind, ST_bind.
      pose proof (vm_step_moves s) as E. destruct (vm_step s) as [s' []|]; [|done].
      assert (finsh_pc s < FINSH_TEXT_MAX) by (unfold vm_running in Hr; apply andb_true_iff in Hr as [_ Hr]; by apply Z.ltb_lt).
      apply IH; lia.
Qed.
Definition run : VM unit := λ s, vm_loop (Z.to_nat (FINSH_TEXT_MAX - finsh_pc s)) s.
Lemma finsh_vm_run_run s : finsh_vm_run s = run (set_pc 0 (set_sp 0 s)).
Proof. done. Qed.
Lemma run_step s : 0 ≤ finsh_pc s < FINSH_TEXT_MAX → run s = (vm_step;; run) s.
Proof.
  intros Hpc. unfold run at 1. destruct (Z.to_nat (FINSH_TEXT_MAX - finsh_pc s)) as [|n] eqn:En; [lia|].
  simpl. unfold vm_running. rewrite (proj2 (Z.leb_le _ _)), (proj2 (Z.ltb_lt _ _)) by lia. simpl.
  unfold mbind, ST_bind. pose proof (vm_step_moves s) as E. destruct (vm_step s) as [s' []|]; [|done].
  unfold run. apply vm_loop_fuel; lia.
Qed.
Lemma run_end s : finsh_pc s = FINSH_TEXT_MAX → run s = Ok s tt.
Proof. intros Hpc. unfold run. rewrite Hpc. simpl. unfold vm_running. by rewrite Hpc. Qed.
Lemma vm_loop_ends n s : FINSH_TEXT_MAX - finsh_pc s ≤ Z.of_nat n → 0 ≤ finsh_pc s →
  match vm_loop n s with Ok s' _ => FINSH_TEXT_MAX ≤ finsh_pc s' | Err e => e ≠ FHang end.
Proof.
  revert s. induction n as [|n IH]; intros s Hn H0.
  - assert (vm_running s = false) as Hr by (unfold vm_running; destruct (Z.ltb_spec (finsh_pc s) FINSH_TEXT_MAX); [lia|apply andb_false_r]).
    simpl. rewrite Hr. lia.
  - simpl. destruct (vm_running s) eqn:Hr; unfold vm_running in Hr; rewrite (proj2 (Z.leb_le _ _)) in Hr by lia; simpl in Hr.
    + unfold mbind, ST_bind. pose proof (vm_step_moves s) as E. destruct (vm_step s) as [s' []|]; [|done].
      apply Z.ltb_lt in Hr. apply IH; lia.
    + apply Z.ltb_ge in Hr. lia.
Qed.

(** C22: the virtual machine ends: from any stack, text and memory, a run
    reaches the end of the text segment or stops at a fault of an operation;
    it never loops. *)
Theorem finsh_vm_run_ends s :
  match finsh_vm_run s with
  | Ok s' _ => FINSH_TEXT_MAX ≤ finsh_pc s'
  | Err e => e ≠ FHang
  end.
Proof. rewrite finsh_vm_run_run. apply vm_loop_ends; simpl; lia. Qed.
End run.
