(* ===== verification/Finsh.v ===== *)
(** * The expression shell: its data, errors and variables

    [finsh.h], [finsh_node.h], [finsh_error.c], [finsh_var.c] and the symbol
    lookup of [finsh_vm.c]. Names are the bytes before their NUL. The names and
    types of the variables are kept in a table; their values, and the heap of
    the shell, are in the memory of the virtual machine, at addresses the linker
    chooses. *)

From Stdlib Require Import String ZArith Lia.
From stdpp Require Import base list.
From S2P Require Import RTThread.
From S2P Require Import Prelude.
From S2P Require Import Bytes.
From S2P Require Import FinshVm.

Definition FINSH_NAME_MAX : Z := 16.
Definition FINSH_NODE_MAX : Z := 16.
Definition FINSH_HEAP_MAX : Z := 128.
Definition FINSH_STRING_MAX : Z := 128.
Definition FINSH_VARIABLE_MAX : Z := 8.

(** ** Enumerations *)

Inductive finsh_error : Set :=
  | FINSH_ERROR_OK
  | FINSH_ERROR_INVALID_TOKEN
  | FINSH_ERROR_EXPECT_TYPE
  | FINSH_ERROR_UNKNOWN_TYPE
  | FINSH_ERROR_VARIABLE_EXIST
  | FINSH_ERROR_EXPECT_OPERATOR
  | FINSH_ERROR_MEMORY_FULL
  | FINSH_ERROR_UNKNOWN_OP
  | FINSH_ERROR_UNKNOWN_NODE
  | FINSH_ERROR_EXPECT_CHAR
  | FINSH_ERROR_UNEXPECT_END
  | FINSH_ERROR_UNKNOWN_TOKEN
  | FINSH_ERROR_NO_FLOAT
  | FINSH_ERROR_UNKNOWN_SYMBOL
  | FINSH_ERROR_NULL_NODE.
#[export] Instance finsh_error_eq_dec : EqDecision finsh_error.
Proof. solve_decision. Defined.

Inductive finsh_type : Set :=
  | finsh_type_unknown | finsh_type_void | finsh_type_voidp
  | finsh_type_char | finsh_type_uchar | finsh_type_charp
  | finsh_type_short | finsh_type_ushort | finsh_type_shortp
  | finsh_type_int | finsh_type_uint | finsh_type_intp
  | finsh_type_long | finsh_type_ulong | finsh_type_longp.
#[export] Instance finsh_type_eq_dec : EqDecision finsh_type.
Proof. solve_decision. Defined.
Definition finsh_type_code (t : finsh_type) : Z :=
  match t with
  | finsh_type_unknown => 0 | finsh_type_void => 1 | finsh_type_voidp => 2
  | finsh_type_char => 3 | finsh_type_uchar => 4 | finsh_type_charp => 5
  | finsh_type_short => 6 | finsh_type_ushort => 7 | finsh_type_shortp => 8
  | finsh_type_int => 9 | finsh_type_uint => 10 | finsh_type_intp => 11
  | finsh_type_long => 12 | finsh_type_ulong => 13 | finsh_type_longp => 14
  end.

Inductive node_kind : Set :=
  | FINSH_NODE_UNKNOWN | FINSH_NODE_ID
  | FINSH_NODE_VALUE_CHAR | FINSH_NODE_VALUE_INT | FINSH_NODE_VALUE_LONG
  | FINSH_NODE_VALUE_STRING | FINSH_NODE_VALUE_NULL
  | FINSH_NODE_SYS_ADD | FINSH_NODE_SYS_SUB | FINSH_NODE_SYS_MUL | FINSH_NODE_SYS_DIV
  | FINSH_NODE_SYS_MOD | FINSH_NODE_SYS_AND | FINSH_NODE_SYS_OR | FINSH_NODE_SYS_XOR
  | FINSH_NODE_SYS_BITWISE | FINSH_NODE_SYS_SHL | FINSH_NODE_SYS_SHR
  | FINSH_NODE_SYS_FUNC | FINSH_NODE_SYS_ASSIGN | FINSH_NODE_SYS_CAST
  | FINSH_NODE_SYS_PREINC | FINSH_NODE_SYS_PREDEC | FINSH_NODE_SYS_INC | FINSH_NODE_SYS_DEC
  | FINSH_NODE_SYS_GETVALUE | FINSH_NODE_SYS_GETADDR | FINSH_NODE_SYS_NULL.
#[export] Instance node_kind_eq_dec : EqDecision node_kind.
Proof. solve_decision. Defined.

Definition FINSH_IDTYPE_VAR : Z := 1.
Definition FINSH_IDTYPE_SYSVAR : Z := 2.
Definition FINSH_IDTYPE_SYSCALL : Z := 4.
Definition FINSH_IDTYPE_ADDRESS : Z := 8.
Definition FINSH_DATA_TYPE_VOID : Z := 0.
Definition FINSH_DATA_TYPE_BYTE : Z := 1.
Definition FINSH_DATA_TYPE_WORD : Z := 2.
Definition FINSH_DATA_TYPE_DWORD : Z := 3.
Definition FINSH_NODE_VALUE : Z := 0.

(** ** Data *)

(** The tables of symbols; [sc_at] and [sv_at] are where an entry is. *)
Record finsh_syscall : Set := mk_syscall {
  sc_at : Z; sc_name : list Z; sc_desc : list Z; sc_func : Z }.
Record finsh_sysvar : Set := mk_sysvar {
  sv_at : Z; sv_name : list Z; sv_desc : list Z; sv_type : finsh_type; sv_var : Z }.
Record finsh_var : Set := mk_var { var_name : list Z; var_type : finsh_type }.

(** What the pointer in a node's [id] union was set to. *)
Inductive idref : Set :=
  | id_null
  | id_var (i : nat)
  | id_sysvar (v : finsh_sysvar)
  | id_syscall (c : finsh_syscall).

(** A node without its links, and with them; a link is an index in the table. *)
Record node_data : Set := mk_data {
  node_type : node_kind;
  data_type : Z;
  idtype : Z;
  node_value : Z;
  node_id : idref }.
Record finsh_node : Set := mk_node {
  nd : node_data;
  sibling : option nat;
  child : option nat }.
Definition zero_data : node_data := mk_data FINSH_NODE_UNKNOWN 0 0 0 id_null.
Definition zero_node : finsh_node := mk_node zero_data None None.

Definition set_data_type (v : Z) (n : node_data) : node_data :=
  mk_data (node_type n) v (idtype n) (node_value n) (node_id n).
Definition set_idtype (v : Z) (n : node_data) : node_data :=
  mk_data (node_type n) (data_type n) v (node_value n) (node_id n).
Definition set_node_value (v : Z) (n : node_data) : node_data :=
  mk_data (node_type n) (data_type n) (idtype n) v (node_id n).
Definition set_node_id (v : idref) (n : node_data) : node_data :=
  mk_data (node_type n) (data_type n) (idtype n) (node_value n) v.
Definition set_nd (v : node_data) (n : finsh_node) : finsh_node := mk_node v (sibling n) (child n).
Definition set_sibling (v : option nat) (n : finsh_node) : finsh_node := mk_node (nd n) v (child n).
Definition set_child (v : option nat) (n : finsh_node) : finsh_node := mk_node (nd n) (sibling n) v.

Record finsh : Set := mk_finsh {
  global_node_table : list finsh_node;
  global_variable : list finsh_var;
  global_errno : finsh_error;
  finsh_compile_pc : Z;
  free_list : Z;
  allocate_list : Z;
  sysvar_table : list finsh_sysvar;
  global_sysvar_list : list finsh_sysvar;
  syscall_table : list finsh_syscall;
  global_syscall_list : list finsh_syscall;
  the_vm : vm }.
Definition set_nodes (v : list finsh_node) (s : finsh) : finsh :=
  mk_finsh v (global_variable s) (global_errno s) (finsh_compile_pc s)
    (free_list s) (allocate_list s) (sysvar_table s) (global_sysvar_list s)
    (syscall_table s) (global_syscall_list s) (the_vm s).
Definition set_variables (v : list finsh_var) (s : finsh) : finsh :=
  mk_finsh (global_node_table s) v (global_errno s) (finsh_compile_pc s)
    (free_list s) (allocate_list s) (sysvar_table s) (global_sysvar_list s)
    (syscall_table s) (global_syscall_list s) (the_vm s).
Definition set_errno (v : finsh_error) (s : finsh) : finsh :=
  mk_finsh (global_node_table s) (global_variable s) v (finsh_compile_pc s)
    (free_list s) (allocate_list s) (sysvar_table s) (global_sysvar_list s)
    (syscall_table s) (global_syscall_list s) (the_vm s).
Definition set_compile_pc (v : Z) (s : finsh) : finsh :=
  mk_finsh (global_node_table s) (global_variable s) (global_errno s) v
    (free_list s) (allocate_list s) (sysvar_table s) (global_sysvar_list s)
    (syscall_table s) (global_syscall_list s) (the_vm s).
Definition set_free_list (v : Z) (s : finsh) : finsh :=
  mk_finsh (global_node_table s) (global_variable s) (global_errno s) (finsh_compile_pc s)
    v (allocate_list s) (sysvar_table s) (global_sysvar_list s)
    (syscall_table s) (global_syscall_list s) (the_vm s).
Definition set_allocate_list (v : Z) (s : finsh) : finsh :=
  mk_finsh (global_node_table s) (global_variable s) (global_errno s) (finsh_compile_pc s)
    (free_list s) v (sysvar_table s) (global_sysvar_list s)
    (syscall_table s) (global_syscall_list s) (the_vm s).
Definition set_vm (v : vm) (s : finsh) : finsh :=
  mk_finsh (global_node_table s) (global_variable s) (global_errno s) (finsh_compile_pc s)
    (free_list s) (allocate_list s) (sysvar_table s) (global_sysvar_list s)
    (syscall_table s) (global_syscall_list s) v.

Notation F := (ST finsh) (only parsing).

Definition on_vm {A} (m : VM A) : F A := λ s,
  match m (the_vm s) with Ok v a => Ok (set_vm v s) a | Err e => Err e end.
Definition get_node (i : nat) : F finsh_node := λ s,
  from_option_or FNull (global_node_table s !! i) s.
Definition upd_node (i : nat) (f : finsh_node → finsh_node) : F unit :=
  n ← get_node i;
  modify (λ s, set_nodes (<[i := f n]> (global_node_table s)) s).
Definition upd_data (i : nat) (f : node_data → node_data) : F unit :=
  upd_node i (λ n, set_nd (f (nd n)) n).

(** ** Errors *)

Definition finsh_error_init : F unit := modify (set_errno FINSH_ERROR_OK).
Definition finsh_error_set (type : finsh_error) : F unit := modify (set_errno type).
Definition finsh_errno : F finsh_error := gets global_errno.
Definition finsh_error_string (type : finsh_error) : list Z :=
  chars (match type with
  | FINSH_ERROR_OK => "No error"
  | FINSH_ERROR_INVALID_TOKEN => "Invalid token"
  | FINSH_ERROR_EXPECT_TYPE => "Expect a type"
  | FINSH_ERROR_UNKNOWN_TYPE => "Unknown type"
  | FINSH_ERROR_VARIABLE_EXIST => "Variable exist"
  | FINSH_ERROR_EXPECT_OPERATOR => "Expect a operater"
  | FINSH_ERROR_MEMORY_FULL => "Memory full"
  | FINSH_ERROR_UNKNOWN_OP => "Unknown operator"
  | FINSH_ERROR_UNKNOWN_NODE => "Unknown node"
  | FINSH_ERROR_EXPECT_CHAR => "Expect a character"
  | FINSH_ERROR_UNEXPECT_END => "Unexpect end"
  | FINSH_ERROR_UNKNOWN_TOKEN => "Unknown token"
  | FINSH_ERROR_NO_FLOAT => "Float not supported"
  | FINSH_ERROR_UNKNOWN_SYMBOL => "Unknown symbol"
  | FINSH_ERROR_NULL_NODE => "Null node"
  end)%string.

(** ** Variables *)

(** Where the linker puts [global_variable] and [finsh_heap]. *)
Class FinshLayout := { variables_at : Z; heap_at : Z }.

(** [strncmp(a, b, n) == 0], and [strcmp(a, b) == 0] with an array [b] of which
    only [FINSH_NAME_MAX] characters are set. *)
Definition strn_eq (n : Z) (a b : list Z) : bool :=
  bool_decide (take (Z.to_nat n) a = take (Z.to_nat n) b).
Definition str_eq (a b : list Z) : F bool :=
  if zlen b <? FINSH_NAME_MAX then mret (bool_decide (a = b))
  else if strn_eq FINSH_NAME_MAX a b then fail FBounds else mret false.

Section variables.
Context `{!FinshLayout}.

(** [struct finsh_var]: the name, 17 bytes; the type, one; the value, at 20. *)
Definition sizeof_finsh_var : Z := 24.
Definition value_offset : Z := 20.
Definition var_at (i : nat) : Z := variables_at + sizeof_finsh_var * Z.of_nat i.
Definition var_value_at (i : nat) : Z := var_at i + value_offset.

Definition wipe (a n : Z) : F unit :=
  on_vm (s ← get;
         m ← from_option_or FBounds (wr (vm_memory s) a (replicate (Z.to_nat n) 0));
         modify (set_memory m)).
Definition no_var : finsh_var := mk_var [] finsh_type_unknown.

Definition finsh_var_init : F unit :=
  modify (set_variables (replicate (Z.to_nat FINSH_VARIABLE_MAX) no_var));;
  wipe variables_at (FINSH_VARIABLE_MAX * sizeof_finsh_var).

(** The loop: [None] is its early return; [empty] the first free entry seen. *)
Fixpoint insert_scan (vs : list finsh_var) (i : nat) (name : list Z) (empty : option nat) :
    option (option nat) :=
  match vs with
  | [] => Some empty
  | v :: vs =>
      if strn_eq FINSH_NAME_MAX (var_name v) name then None
      else insert_scan vs (S i) name
             (match empty with
              | None => if decide (var_type v = finsh_type_unknown) then Some i else None
              | Some _ => empty
              end)
  end.
Definition finsh_var_insert (name : list Z) (type : finsh_type) : F Z :=
  s ← get;
  match insert_scan (global_variable s) 0 name None with
  | Some (Some empty) =>
      modify (set_variables (<[empty := mk_var (take (Z.to_nat FINSH_NAME_MAX) name) type]> (global_variable s)));;
      mret (Z.of_nat empty)
  | _ => mret (-1)
  end.

Definition find_var (name : list Z) (vs : list finsh_var) : option nat :=
  fst <$> list_find (λ v, strn_eq FINSH_NAME_MAX (var_name v) name = true) vs.
Definition finsh_var_delete (name : list Z) : F Z :=
  s ← get;
  match find_var name (global_variable s) with
  | None => mret (-1)
  | Some i =>
      modify (set_variables (<[i := no_var]> (global_variable s)));;
      wipe (var_at i) sizeof_finsh_var;;
      mret 0
  end.
Definition finsh_var_lookup (name : list Z) : F (option nat) :=
  s ← get; mret (find_var name (global_variable s)).

(** ** System variables and calls *)

Fixpoint find_entry {A} (entry_name : A → list Z) (l : list A) (name : list Z) : F (option A) :=
  match l with
  | [] => mret None
  | x :: l =>
      b ← str_eq (entry_name x) name;
      if (b : bool) then mret (Some x) else find_entry entry_name l name
  end.
(** The lists of appended symbols are searched by prefix: [strncmp] up to the
    length of the name looked for, which reads its end. *)
Definition find_prefix {A} (entry_name : A → list Z) (l : list A) (name : list Z) : F (option A) :=
  if bool_decide (l = []) then mret None
  else if FINSH_NAME_MAX <=? zlen name then fail FBounds
  else mret (snd <$> list_find (λ x : A, strn_eq (zlen name) (entry_name x) name = true) l).
Definition lookup_symbol {A} (entry_name : A → list Z) (table appended : list A) (name : list Z) :
    F (option A) :=
  r ← find_entry entry_name table name;
  match r with
  | Some x => mret (Some x)
  | None => find_prefix entry_name appended name
  end.
Definition finsh_sysvar_lookup (name : list Z) : F (option finsh_sysvar) :=
  s ← get; lookup_symbol sv_name (sysvar_table s) (global_sysvar_list s) name.
Definition finsh_syscall_lookup (name : list Z) : F (option finsh_syscall) :=
  s ← get; lookup_symbol sc_name (syscall_table s) (global_syscall_list s) name.
End variables.
