(* ===== verification/FinshHeap.v ===== *)
(** * The heap of the expression shell ([finsh_heap.c])

    Blocks of a heap of 128 bytes, each with a header of two words, its length
    and the next block, in two lists sorted by address: free and allocated. The
    headers are in memory, where the code keeps them; [NULL] is 0. *)

From Stdlib Require Import ZArith Lia.
From stdpp Require Import base list.
From S2P Require Import RTThread.
From S2P Require Import Prelude.
From S2P Require Import Bytes.
From S2P Require Import FinshVm.
From S2P Require Import Finsh.

Definition HEADER_SIZE : Z := 8.
Definition HEAP_ALIGN_SIZE (size : Z) : Z := Z.land (u32 (size + 4 - 1)) (u32 (Z.lnot (4 - 1))).

Section heap.
Context `{!FinshLayout}.

(** [header->length] and [header->next]. *)
Definition block_length (h : Z) : F Z := v ← on_vm (vm_load DWORD h); mret (u32 v).
Definition block_next (h : Z) : F Z := v ← on_vm (vm_load DWORD (h + 4)); mret (u32 v).
Definition set_block_length (h v : Z) : F unit := on_vm (vm_store DWORD h v).
Definition set_block_next (h v : Z) : F unit := on_vm (vm_store DWORD (h + 4) v).
Definition finsh_block_get_header (data : Z) : Z := data - HEADER_SIZE.
Definition finsh_block_get_data (header : Z) : Z := header + HEADER_SIZE.

(** The two lists [free_list] and [allocate_list]. *)
Inductive heap_list : Set := Free | Allocated.
Definition list_head (l : heap_list) : F Z :=
  gets (match l with Free => free_list | Allocated => allocate_list end).
Definition set_list_head (l : heap_list) (v : Z) : F unit :=
  modify (match l with Free => set_free_list v | Allocated => set_allocate_list v end).

(** A block takes eight bytes at least, and no list is longer. *)
Definition heap_fuel : nat := Z.to_nat (FINSH_HEAP_MAX / HEADER_SIZE + 1).

Definition finsh_heap_init : F unit :=
  wipe heap_at FINSH_HEAP_MAX;;
  set_list_head Free heap_at;;
  set_block_length heap_at (FINSH_HEAP_MAX - HEADER_SIZE);;
  set_block_next heap_at 0;;
  set_list_head Allocated 0.

(** The loop of [finsh_block_insert]: the block after which to insert. *)
Fixpoint insert_point (fuel : nat) (node header : Z) : F Z :=
  match fuel with
  | O => fail FHang
  | S fuel =>
      next ← block_next node;
      if header <? next then mret node
      else if next =? 0 then mret node
      else insert_point fuel next header
  end.
Definition finsh_block_insert (l : heap_list) (header : Z) : F unit :=
  node ← list_head l;
  if node =? 0 then set_list_head l header
  else if header <? node then
    set_block_next header node;;
    set_list_head l header
  else
    node ← insert_point heap_fuel node header;
    next ← block_next node;
    (if negb (next =? 0) then set_block_next header next else mret ());;
    set_block_next node header.

Fixpoint unlink (fuel : nat) (node header : Z) : F unit :=
  if node =? 0 then mret ()
  else
    match fuel with
    | O => fail FHang
    | S fuel =>
        next ← block_next node;
        if next =? header then
          hnext ← block_next header;
          set_block_next node hnext
        else unlink fuel next header
    end.
Definition finsh_block_remove (l : heap_list) (header : Z) : F unit :=
  node ← list_head l;
  if node =? header then
    hnext ← block_next header;
    set_list_head l hnext;;
    set_block_next header 0
  else unlink heap_fuel node header.

Definition finsh_block_split (header size : Z) : F unit :=
  let next := header + HEADER_SIZE + size in
  len ← block_length header;
  set_block_length next (len - HEADER_SIZE - size);;
  set_block_length header size;;
  hnext ← block_next header;
  set_block_next next hnext;;
  set_block_next header next.

(** The block before [header] in a list; 0 when there is none. *)
Fixpoint find_previous (fuel : nat) (node header : Z) : F Z :=
  if node =? 0 then mret 0
  else
    match fuel with
    | O => fail FHang
    | S fuel =>
        next ← block_next node;
        if next =? header then mret node else find_previous fuel next header
    end.
(** Does [a], if not null, end where [b] begins? *)
Definition adjacent (a b : Z) : F bool :=
  len ← block_length a; mret (a + len + HEADER_SIZE =? b).
Definition finsh_block_merge (l : heap_list) (header : Z) : F unit :=
  next_node ← block_next header;
  head ← list_head l;
  prev_node ← (if head =? header then mret 0 else find_previous heap_fuel head header);
  before ← (if prev_node =? 0 then mret false else adjacent prev_node header);
  after ← (if next_node =? 0 then mret false else adjacent header next_node);
  if (before : bool) then
    plen ← block_length prev_node;
    hlen ← block_length header;
    if (after : bool) then
      nlen ← block_length next_node;
      set_block_length prev_node (plen + (hlen + nlen + 2 * HEADER_SIZE));;
      nnext ← block_next next_node;
      set_block_next prev_node nnext
    else
      set_block_length prev_node (plen + (hlen + HEADER_SIZE));;
      hnext ← block_next header;
      set_block_next prev_node hnext
  else if (after : bool) then
    hlen ← block_length header;
    nlen ← block_length next_node;
    set_block_length header (hlen + (nlen + HEADER_SIZE));;
    nnext ← block_next next_node;
    set_block_next header nnext
  else mret ().

Definition finsh_heap_free (ptr : Z) : F unit :=
  let header := finsh_block_get_header ptr in
  finsh_block_remove Allocated header;;
  finsh_block_insert Free header;;
  finsh_block_merge Free header.

(** Is the data at [p] the value of a variable in use? *)
Fixpoint held_by (vs : list finsh_var) (i : nat) (p : Z) : F bool :=
  match vs with
  | [] => mret false
  | v :: vs =>
      if decide (var_type v = finsh_type_unknown) then held_by vs (S i) p
      else
        w ← on_vm (vm_load DWORD (var_value_at i));
        if u32 w =? p then mret true else held_by vs (S i) p
  end.
Fixpoint gc_loop (fuel : nat) (header : Z) : F unit :=
  if header =? 0 then mret ()
  else
    match fuel with
    | O => fail FHang
    | S fuel =>
        s ← get;
        held ← held_by (global_variable s) 0 (finsh_block_get_data header);
        next ← block_next header;
        (if (held : bool) then mret () else finsh_heap_free (finsh_block_get_data header));;
        gc_loop fuel next
    end.
Definition finsh_heap_gc : F unit := h ← list_head Allocated; gc_loop heap_fuel h.

(** The first block of a list that [fits], by its length. *)
Fixpoint first_fit (fuel : nat) (fits : Z → bool) (header : Z) : F Z :=
  if header =? 0 then mret 0
  else
    match fuel with
    | O => fail FHang
    | S fuel =>
        len ← block_length header;
        if fits len then mret header
        else next ← block_next header; first_fit fuel fits next
    end.
(** The block [header] becomes the allocated block. *)
Definition take_block (header size : Z) : F Z :=
  finsh_block_split header size;;
  finsh_block_remove Free header;;
  set_block_next header 0;;
  finsh_block_insert Allocated header;;
  wipe (finsh_block_get_data header) size;;
  mret (finsh_block_get_data header).
Definition finsh_heap_allocate (size : Z) : F Z :=
  let size := HEAP_ALIGN_SIZE size in
  head ← list_head Free;
  header ← first_fit heap_fuel (λ len, u32 (size + HEADER_SIZE) <? len) head;
  if header =? 0 then
    finsh_heap_gc;;
    head ← list_head Free;
    header ← first_fit heap_fuel (λ len, u32 (size + HEADER_SIZE) <=? len) head;
    if header =? 0 then mret 0 else take_block header size
  else take_block header size.
End heap.
