(* ===== verification/FinshNode.v ===== *)
(** * The nodes of the expression shell ([finsh_node.c]) *)

From Stdlib Require Import ZArith Lia.
From stdpp Require Import base list.
From S2P Require Import RTThread.
From S2P Require Import Prelude.
From S2P Require Import Bytes.
From S2P Require Import FinshVm.
From S2P Require Import Finsh.
From S2P Require Import FinshHeap.

Section nodes.
Context `{!FinshLayout}.

Definition finsh_node_init : F unit :=
  modify (set_nodes (replicate (Z.to_nat FINSH_NODE_MAX) zero_node)).

Definition finsh_node_allocate (type : node_kind) : F (option nat) :=
  s ← get;
  match list_find (λ n, node_type (nd n) = FINSH_NODE_UNKNOWN) (global_node_table s) with
  | None => mret None
  | Some (i, _) =>
      upd_data i (λ n, mk_data type (data_type n) (idtype n) (node_value n) (node_id n));;
      mret (Some i)
  end.
(** A node of a type whose [idtype], [value] or [id] is then filled in. *)
Definition new_node (type : node_kind) (fill : node_data → node_data) : F (option nat) :=
  node ← finsh_node_allocate type;
  match node with
  | None => finsh_error_set FINSH_ERROR_MEMORY_FULL;; mret None
  | Some i => upd_data i fill;; mret (Some i)
  end.

(** What a name is: a variable, then a system variable, then a system call. *)
Definition find_symbol (id : list Z) : F (option (idref * Z)) :=
  v ← finsh_var_lookup id;
  match v with
  | Some i => mret (Some (id_var i, FINSH_IDTYPE_VAR))
  | None =>
      sv ← finsh_sysvar_lookup id;
      match sv with
      | Some v => mret (Some (id_sysvar v, FINSH_IDTYPE_SYSVAR))
      | None =>
          sc ← finsh_syscall_lookup id;
          mret ((λ c, (id_syscall c, FINSH_IDTYPE_SYSCALL)) <$> sc)
      end
  end.
Definition finsh_node_new_id (id : list Z) : F (option nat) :=
  symbol ← find_symbol id;
  match symbol with
  | Some (r, type) => new_node FINSH_NODE_ID (λ n, set_idtype type (set_node_id r n))
  | None => finsh_error_set FINSH_ERROR_UNKNOWN_SYMBOL;; mret None
  end.
(** The members of the [value] union overlap; a [char] fills its low byte. *)
Definition finsh_node_new_char (c : Z) : F (option nat) :=
  new_node FINSH_NODE_VALUE_CHAR (λ n, set_node_value (put_in BYTE (node_value n) c) n).
Definition finsh_node_new_int (i : Z) : F (option nat) :=
  new_node FINSH_NODE_VALUE_INT (set_node_value (u32 i)).
Definition finsh_node_new_long (l : Z) : F (option nat) :=
  new_node FINSH_NODE_VALUE_LONG (set_node_value (u32 l)).
Definition finsh_node_new_ptr (p : Z) : F (option nat) :=
  new_node FINSH_NODE_VALUE_NULL (set_node_value (u32 p)).

(** [strncpy] to the heap block and its NUL; a null block is written to all the
    same, and address zero is not memory of the shell. *)
Definition finsh_node_new_string (s : list Z) : F (option nat) :=
  node ← finsh_node_allocate FINSH_NODE_VALUE_STRING;
  match node with
  | None => finsh_error_set FINSH_ERROR_MEMORY_FULL;; mret None
  | Some i =>
      p ← finsh_heap_allocate (zlen s + 1);
      upd_data i (set_node_value p);;
      if p =? 0 then fail FNull
      else
        on_vm (v ← get;
               m ← from_option_or FBounds (wr (vm_memory v) p (s ++ [0]));
               modify (set_memory m));;
        mret (Some i)
  end.
End nodes.
