(* ===== verification/FinshCompile.v ===== *)
(** * The compiler of the expression shell ([finsh_compiler.c])

    The type check walks the tree of nodes and sets the attributes of each; the
    compiler walks it and writes the code of the virtual machine into the text
    segment. Both recurse on the links: no path in a tree is longer than the
    table of nodes, and a walk that is longer goes in circles. *)

From Stdlib Require Import ZArith Lia.
From stdpp Require Import base list.
From S2P Require Import RTThread.
From S2P Require Import Prelude.
From S2P Require Import Bytes.
From S2P Require Import FinshVm.
From S2P Require Import Finsh.

(** ** Operation codes *)

Definition FINSH_OP_LD_BYTE : Z := 34.
Definition FINSH_OP_LD_WORD : Z := 35.
Definition FINSH_OP_LD_DWORD : Z := 36.
Definition FINSH_OP_LD_VALUE_BYTE : Z := 37.
Definition FINSH_OP_LD_VALUE_WORD : Z := 38.
Definition FINSH_OP_LD_VALUE_DWORD : Z := 39.
Definition FINSH_OP_ST_BYTE : Z := 40.
Definition FINSH_OP_ST_WORD : Z := 41.
Definition FINSH_OP_ST_DWORD : Z := 42.
Definition FINSH_OP_POP : Z := 43.
Definition FINSH_OP_SYSCALL : Z := 44.
Definition FINSH_OP_LD_VALUE_BYTE_STACK : Z := 45.
Definition FINSH_OP_LD_VALUE_WORD_STACK : Z := 46.
Definition FINSH_OP_LD_VALUE_DWORD_STACK : Z := 47.
(** The three operations of an operator; the first is the one on bytes. *)
Definition FINSH_OP_BIN (op : binop) : Z :=
  match op with
  | Add => 1 | Sub => 4 | Div => 7 | Mod => 10 | Mul => 13
  | And => 16 | Or => 19 | Xor => 22 | Shl => 28 | Shr => 31
  end.
Definition FINSH_OP_BITWISE : Z := 25.
Definition by_width (w : width) (byte_op : Z) : Z :=
  byte_op + match w with BYTE => 0 | WORD => 1 | DWORD => 2 end.

(** [FINSH_DATA_TYPE_BYTE], [_WORD] and [_DWORD]. *)
Definition data_width (data_type : Z) : option width :=
  if data_type =? FINSH_DATA_TYPE_BYTE then Some BYTE
  else if data_type =? FINSH_DATA_TYPE_WORD then Some WORD
  else if data_type =? FINSH_DATA_TYPE_DWORD then Some DWORD
  else None.
(** The cases of the compiler's switches on the type of a variable. *)
Definition load_width (t : finsh_type) : option width :=
  match t with
  | finsh_type_char | finsh_type_uchar => Some BYTE
  | finsh_type_short | finsh_type_ushort => Some WORD
  | finsh_type_int | finsh_type_uint | finsh_type_long | finsh_type_ulong
  | finsh_type_charp | finsh_type_shortp | finsh_type_intp | finsh_type_longp => Some DWORD
  | finsh_type_unknown | finsh_type_void | finsh_type_voidp => None
  end.
(** Those of the type check; [finsh_type_unknown] is an error. *)
Definition type_data (t : finsh_type) : option Z :=
  match t with
  | finsh_type_void => Some FINSH_DATA_TYPE_VOID
  | finsh_type_char | finsh_type_uchar => Some FINSH_DATA_TYPE_BYTE
  | finsh_type_short | finsh_type_ushort => Some FINSH_DATA_TYPE_WORD
  | finsh_type_int | finsh_type_uint | finsh_type_long | finsh_type_ulong
  | finsh_type_charp | finsh_type_voidp | finsh_type_shortp | finsh_type_intp
  | finsh_type_longp => Some FINSH_DATA_TYPE_DWORD
  | finsh_type_unknown => None
  end.
Definition node_binop (k : node_kind) : option binop :=
  match k with
  | FINSH_NODE_SYS_ADD => Some Add | FINSH_NODE_SYS_SUB => Some Sub
  | FINSH_NODE_SYS_MUL => Some Mul | FINSH_NODE_SYS_DIV => Some Div
  | FINSH_NODE_SYS_MOD => Some Mod | FINSH_NODE_SYS_AND => Some And
  | FINSH_NODE_SYS_OR => Some Or | FINSH_NODE_SYS_XOR => Some Xor
  | FINSH_NODE_SYS_SHL => Some Shl | FINSH_NODE_SYS_SHR => Some Shr
  | _ => None
  end.

(** ** Writing code *)

Definition finsh_code_byte (x : Z) : F unit :=
  s ← get;
  text ← from_option_or FBounds (wr (text_segment (the_vm s)) (finsh_compile_pc s) [u8 x]);
  modify (λ s, set_vm (set_text text (the_vm s)) s);;
  modify (λ s, set_compile_pc (finsh_compile_pc s + 1) s).
Definition finsh_code_word (x : Z) : F unit :=
  finsh_code_byte x;; finsh_code_byte (Z.shiftr x 8).
Definition finsh_code_dword (x : Z) : F unit :=
  finsh_code_byte x;; finsh_code_byte (Z.shiftr x 8);;
  finsh_code_byte (Z.shiftr x 16);; finsh_code_byte (Z.shiftr x 24).
Definition code_of_width (w : width) (x : Z) : F unit :=
  match w with
  | BYTE => finsh_code_byte x
  | WORD => finsh_code_word x
  | DWORD => finsh_code_dword x
  end.

(** ** The type check *)

Definition link_data (p : option nat) : F (option node_data) :=
  match p with None => mret None | Some i => n ← get_node i; mret (Some (nd n)) end.

(** The attributes of a node without children. *)
Definition check_leaf (i : nat) (n : node_data) : F unit :=
  let var_check t := match type_data t with
                     | Some d => upd_data i (set_data_type d)
                     | None => finsh_error_set FINSH_ERROR_UNKNOWN_TYPE
                     end in
  match node_type n with
  | FINSH_NODE_ID =>
      if flag_on (idtype n) FINSH_IDTYPE_VAR then
        match node_id n with
        | id_var v =>
            s ← get;
            x ← from_option_or FNull (global_variable s !! v);
            var_check (var_type x)
        | id_null => mret ()
        | _ => fail FNull
        end
      else if flag_on (idtype n) FINSH_IDTYPE_SYSVAR then
        match node_id n with
        | id_sysvar v => var_check (sv_type v)
        | id_null => mret ()
        | _ => fail FNull
        end
      else mret ()
  | FINSH_NODE_VALUE_CHAR => upd_data i (set_data_type FINSH_DATA_TYPE_BYTE)
  | FINSH_NODE_VALUE_INT | FINSH_NODE_VALUE_LONG | FINSH_NODE_VALUE_STRING
  | FINSH_NODE_VALUE_NULL => upd_data i (set_data_type FINSH_DATA_TYPE_DWORD)
  | _ => mret ()
  end.
(** The flag the child of a node is checked with; that of a [GETVALUE] is 0 for
    an address and, passed on, for a value. *)
Definition child_flag (k : node_kind) (is_addr : Z) : Z :=
  match k with
  | FINSH_NODE_SYS_ASSIGN | FINSH_NODE_SYS_PREINC | FINSH_NODE_SYS_PREDEC
  | FINSH_NODE_SYS_GETADDR => FINSH_IDTYPE_ADDRESS
  | FINSH_NODE_SYS_GETVALUE => 0
  | _ => is_addr
  end.
Fixpoint finsh_type_check (fuel : nat) (node : option nat) (is_addr : Z) : F unit :=
  match node with
  | None => mret ()
  | Some i =>
      match fuel with
      | O => fail FHang
      | S fuel =>
          n ← get_node i;
          finsh_type_check fuel (child n) (child_flag (node_type (nd n)) is_addr);;
          n ← get_node i;
          finsh_type_check fuel (sibling n) FINSH_NODE_VALUE;;
          (n ← get_node i;
           if negb (idtype (nd n) =? FINSH_IDTYPE_SYSCALL)
           then upd_data i (λ d, set_idtype (Z.lor (idtype d) is_addr) d) else mret ());;
          n ← get_node i;
          c ← link_data (child n);
          match c with
          | Some c => upd_data i (set_data_type (data_type c))
          | None => check_leaf i (nd n)
          end
      end
  end.

(** ** The compiler *)

Section compile.
Context `{!FinshLayout}.

(** The value of the identifier's pointer, which the code for [++] and [--]
    takes for that of a variable whatever it points to. *)
Definition id_at (r : idref) : Z :=
  match r with
  | id_null => 0
  | id_var i => var_at i
  | id_sysvar v => sv_at v
  | id_syscall c => sc_at c
  end.

(** Code for a variable at [a] of a type: its address or its value. *)
Definition compile_variable (t : finsh_type) (a idtype : Z) : F unit :=
  match load_width t with
  | None => mret ()
  | Some w =>
      finsh_code_byte (if flag_on idtype FINSH_IDTYPE_ADDRESS then FINSH_OP_LD_DWORD
                       else by_width w FINSH_OP_LD_VALUE_BYTE);;
      finsh_code_dword a
  end.
Definition compile_id (n : node_data) : F unit :=
  if flag_on (idtype n) FINSH_IDTYPE_SYSCALL then
    match node_id n with
    | id_syscall c => finsh_code_byte FINSH_OP_LD_DWORD;; finsh_code_dword (sc_func c)
    | _ => fail FNull
    end
  else if flag_on (idtype n) FINSH_IDTYPE_SYSVAR then
    match node_id n with
    | id_null => mret ()
    | id_sysvar v => compile_variable (sv_type v) (sv_var v) (idtype n)
    | _ => fail FNull
    end
  else
    match node_id n with
    | id_null => mret ()
    | id_var i =>
        s ← get;
        x ← from_option_or FNull (global_variable s !! i);
        compile_variable (var_type x) (var_value_at i) (idtype n)
    | _ => fail FNull
    end.
(** The operation of an operator, for the width of the node; none for others. *)
Definition compile_op (data_type byte_op : Z) : F unit :=
  match data_width data_type with
  | Some w => finsh_code_byte (by_width w byte_op)
  | None => mret ()
  end.
Definition compile_store (data_type : Z) : F unit :=
  match data_width data_type with
  | Some w =>
      finsh_code_byte (by_width w FINSH_OP_ST_BYTE);;
      finsh_code_byte (by_width w FINSH_OP_LD_VALUE_BYTE_STACK)
  | None => finsh_error_set FINSH_ERROR_UNKNOWN_TYPE
  end.
Definition compile_assign (c : option node_data) : F unit :=
  match c with
  | None => fail FNull
  | Some c =>
      match node_type c with
      | FINSH_NODE_ID => compile_store (data_type c)
      | FINSH_NODE_SYS_GETVALUE => compile_store (Z.land (data_type c) 15)
      | _ => mret ()
      end
  end.
(** [x_value] of the variable, one added or subtracted, stored. *)
Definition compile_step (w : width) (a : Z) (op : binop) : F unit :=
  finsh_code_byte (by_width w FINSH_OP_LD_VALUE_BYTE);;
  finsh_code_dword a;;
  finsh_code_byte (by_width w FINSH_OP_LD_BYTE);;
  code_of_width w 1;;
  finsh_code_byte (by_width w (FINSH_OP_BIN op));;
  finsh_code_byte (by_width w FINSH_OP_ST_BYTE).
Definition on_id (c : option node_data) (data_type : Z) (f : width → Z → F unit) : F unit :=
  match c with
  | Some c =>
      if decide (node_type c = FINSH_NODE_ID) then
        match data_width data_type with
        | Some w => f w (id_at (node_id c) + value_offset)
        | None => mret ()
        end
      else mret ()
  | None => mret ()
  end.
Definition compile_pre (c : option node_data) (data_type : Z) (op : binop) : F unit :=
  on_id c data_type (λ w a,
    compile_step w a op;;
    finsh_code_byte FINSH_OP_LD_VALUE_DWORD_STACK).
Definition compile_post (c : option node_data) (data_type : Z) (op : binop) : F unit :=
  on_id c data_type (λ w a,
    finsh_code_byte FINSH_OP_LD_DWORD;;
    finsh_code_dword a;;
    compile_step w a op;;
    finsh_code_byte FINSH_OP_POP).

(** The siblings of a node, for the number of parameters of a call. *)
Fixpoint count_siblings (fuel : nat) (p : option nat) : F Z :=
  match p with
  | None => mret 0
  | Some i =>
      match fuel with
      | O => fail FHang
      | S fuel => n ← get_node i; k ← count_siblings fuel (sibling n); mret (1 + k)
      end
  end.
Definition node_fuel : nat := Z.to_nat (FINSH_NODE_MAX + 1).
Definition compile_func (c : option nat) : F unit :=
  match c with
  | None => mret ()
  | Some i =>
      n ← get_node i;
      parameters ← count_siblings node_fuel (sibling n);
      finsh_code_byte FINSH_OP_SYSCALL;;
      finsh_code_byte parameters
  end.

(** The switch on the type of the node. *)
Definition compile_switch (d : node_data) (child : option nat) (c : option node_data) : F unit :=
  match node_type d with
  | FINSH_NODE_ID => compile_id d
  | FINSH_NODE_VALUE_CHAR =>
      finsh_code_byte FINSH_OP_LD_BYTE;; finsh_code_byte (node_value d)
  | FINSH_NODE_VALUE_INT | FINSH_NODE_VALUE_LONG | FINSH_NODE_VALUE_NULL
  | FINSH_NODE_VALUE_STRING =>
      finsh_code_byte FINSH_OP_LD_DWORD;; finsh_code_dword (node_value d)
  | FINSH_NODE_SYS_BITWISE => compile_op (data_type d) FINSH_OP_BITWISE
  | FINSH_NODE_SYS_FUNC => compile_func child
  | FINSH_NODE_SYS_ASSIGN => compile_assign c
  | FINSH_NODE_SYS_PREINC => compile_pre c (data_type d) Add
  | FINSH_NODE_SYS_PREDEC => compile_pre c (data_type d) Sub
  | FINSH_NODE_SYS_INC => compile_post c (data_type d) Add
  | FINSH_NODE_SYS_DEC => compile_post c (data_type d) Sub
  | FINSH_NODE_SYS_NULL => finsh_code_dword 0
  | FINSH_NODE_SYS_GETVALUE =>
      if flag_on (idtype d) FINSH_IDTYPE_ADDRESS then mret ()
      else compile_op (data_type d) FINSH_OP_LD_VALUE_BYTE_STACK
  | FINSH_NODE_SYS_GETADDR => mret ()
  | k =>
      match node_binop k with
      | Some op => compile_op (data_type d) (FINSH_OP_BIN op)
      | None => finsh_error_set FINSH_ERROR_UNKNOWN_NODE
      end
  end.
Definition compile_node (n : finsh_node) : F unit :=
  c ← link_data (child n); compile_switch (nd n) (child n) c.
Fixpoint finsh_compile (fuel : nat) (node : option nat) : F unit :=
  match node with
  | None => mret ()
  | Some i =>
      match fuel with
      | O => fail FHang
      | S fuel =>
          n ← get_node i;
          finsh_compile fuel (child n);;
          compile_node n;;
          finsh_compile fuel (sibling n)
      end
  end.

(** One statement after another; each loses its link to the next. *)
Fixpoint compile_statements (fuel : nat) (node : option nat) : F unit :=
  match node with
  | None => mret ()
  | Some i =>
      match fuel with
      | O => fail FHang
      | S fuel =>
          n ← get_node i;
          upd_node i (set_sibling None);;
          finsh_compile node_fuel (Some i);;
          (if decide (sibling n = None) then mret () else finsh_code_byte FINSH_OP_POP);;
          compile_statements fuel (sibling n)
      end
  end.
(** The text segment is cleared, and of the stack its first slot. *)
Definition finsh_compiler_run (node : option nat) : F unit :=
  finsh_type_check node_fuel node FINSH_NODE_VALUE;;
  modify (λ s, set_vm (set_text (replicate (Z.to_nat FINSH_TEXT_MAX) 0) (the_vm s)) s);;
  on_vm (set_slot 0 0);;
  modify (set_compile_pc 0);;
  compile_statements node_fuel node.
End compile.
