(* ===== verification/FinshCompileSpec.v ===== *)
(** * What the compiler of the expression shell computes

    The nodes form a tree, first child and next sibling; [linked] finds it in
    the table. [check_tree] gives the attributes, [code_tree] the code; the type
    check and the compiler, which walk the links, compute them, and the code
    that does not fit leaves the text segment. *)

From Stdlib Require Import ZArith Lia.
From stdpp Require Import base list sets fin_sets.
From S2P Require Import RTThread.
From S2P Require Import Prelude.
From S2P Require Import Bytes.
From S2P Require Import FinshVm.
From S2P Require Import FinshVmSpec.
From S2P Require Import Finsh.
From S2P Require Import FinshCompile.

(** ** Trees, with the index of each node or without *)

Inductive tree (A : Type) : Type :=
  | Leaf
  | Node (x : A) (d : node_data) (c s : tree A).
Arguments Leaf {A}.
Arguments Node {A} _ _ _ _.

Fixpoint strip {A} (t : tree A) : tree unit :=
  match t with Leaf => Leaf | Node _ d c s => Node tt d (strip c) (strip s) end.
Definition root {A} (t : tree A) : option A :=
  match t with Leaf => None | Node i _ _ _ => Some i end.
Definition root_data {A} (t : tree A) : option node_data :=
  match t with Leaf => None | Node _ d _ _ => Some d end.
Fixpoint labels {A} (t : tree A) : list A :=
  match t with Leaf => [] | Node i _ c s => i :: labels c ++ labels s end.
Fixpoint height {A} (t : tree A) : nat :=
  match t with Leaf => 0 | Node _ _ c s => S (Nat.max (height c) (height s)) end.
Fixpoint width_of {A} (t : tree A) : nat :=
  match t with Leaf => 0 | Node _ _ _ s => S (width_of s) end.

(** The siblings of a first child: the parameters of a call. *)
Definition arguments {A} (c : tree A) : nat := match c with Leaf => 0 | Node _ _ _ s => width_of s end.

Fixpoint linked (nodes : list finsh_node) (t : tree nat) : Prop :=
  match t with
  | Leaf => True
  | Node i d c s =>
      nodes !! i = Some (mk_node d (root s) (root c)) ∧ linked nodes c ∧ linked nodes s
  end.

(** ** The attributes *)

Section check.
Context (vars : list finsh_var).

(** The type of the variable a node designates. *)
Definition id_type (d : node_data) : option finsh_type :=
  if flag_on (idtype d) FINSH_IDTYPE_VAR then
    match node_id d with id_var v => var_type <$> vars !! v | _ => None end
  else if flag_on (idtype d) FINSH_IDTYPE_SYSVAR then
    match node_id d with id_sysvar v => Some (sv_type v) | _ => None end
  else None.
Definition leaf_type (d : node_data) : option Z :=
  match node_type d with
  | FINSH_NODE_ID => id_type d ≫= type_data
  | FINSH_NODE_VALUE_CHAR => Some FINSH_DATA_TYPE_BYTE
  | FINSH_NODE_VALUE_INT | FINSH_NODE_VALUE_LONG | FINSH_NODE_VALUE_STRING
  | FINSH_NODE_VALUE_NULL => Some FINSH_DATA_TYPE_DWORD
  | _ => None
  end.
Definition check_data (is_addr : Z) (d : node_data) (c : option node_data) : node_data :=
  let d := if idtype d =? FINSH_IDTYPE_SYSCALL then d else set_idtype (Z.lor (idtype d) is_addr) d in
  match c with
  | Some c => set_data_type (data_type c) d
  | None => match leaf_type d with Some v => set_data_type v d | None => d end
  end.
Fixpoint check_tree {A} (is_addr : Z) (t : tree A) : tree A :=
  match t with
  | Leaf => Leaf
  | Node i d c s =>
      let c' := check_tree (child_flag (node_type d) is_addr) c in
      Node i (check_data is_addr d (root_data c')) c' (check_tree 0 s)
  end.

(** An identifier's pointer is of the kind its type says; a variable has a type. *)
Definition id_ok (d : node_data) : bool :=
  match node_type d with
  | FINSH_NODE_ID =>
      match node_id d with
      | id_null => false
      | id_var v =>
          (idtype d =? FINSH_IDTYPE_VAR) &&
          match vars !! v with
          | Some x => negb (bool_decide (var_type x = finsh_type_unknown))
          | None => false
          end
      | id_sysvar v =>
          (idtype d =? FINSH_IDTYPE_SYSVAR) && negb (bool_decide (sv_type v = finsh_type_unknown))
      | id_syscall _ => idtype d =? FINSH_IDTYPE_SYSCALL
      end
  | _ => true
  end.
Fixpoint ids_ok {A} (t : tree A) : bool :=
  match t with Leaf => true | Node _ d c s => id_ok d && ids_ok c && ids_ok s end.
End check.

(** ** The code *)

Section code.
Context `{!FinshLayout}.
Context (vars : list finsh_var).

Definition dword (x : Z) : list Z := le_bytes 4 x.
Definition code_variable (t : finsh_type) (a idtype : Z) : list Z :=
  match load_width t with
  | None => []
  | Some w =>
      (if flag_on idtype FINSH_IDTYPE_ADDRESS then FINSH_OP_LD_DWORD
       else by_width w FINSH_OP_LD_VALUE_BYTE) :: dword a
  end.
Definition code_id (d : node_data) : list Z :=
  match node_id d with
  | id_null => []
  | id_syscall c => FINSH_OP_LD_DWORD :: dword (sc_func c)
  | id_sysvar v => code_variable (sv_type v) (sv_var v) (idtype d)
  | id_var i =>
      match vars !! i with
      | Some x => code_variable (var_type x) (var_value_at i) (idtype d)
      | None => []
      end
  end.
Definition code_op (data_type byte_op : Z) : list Z :=
  match data_width data_type with Some w => [by_width w byte_op] | None => [] end.
Definition code_store (data_type : Z) : list Z :=
  match data_width data_type with
  | Some w => [by_width w FINSH_OP_ST_BYTE; by_width w FINSH_OP_LD_VALUE_BYTE_STACK]
  | None => []
  end.
Definition code_assign (c : option node_data) : list Z :=
  match c with
  | None => []
  | Some c =>
      match node_type c with
      | FINSH_NODE_ID => code_store (data_type c)
      | FINSH_NODE_SYS_GETVALUE => code_store (Z.land (data_type c) 15)
      | _ => []
      end
  end.
Definition code_step (w : width) (a : Z) (op : binop) : list Z :=
  by_width w FINSH_OP_LD_VALUE_BYTE :: dword a ++
  by_width w FINSH_OP_LD_BYTE :: le_bytes (Z.to_nat (bytes_of w)) 1 ++
  [by_width w (FINSH_OP_BIN op); by_width w FINSH_OP_ST_BYTE].
Definition code_on_id (c : option node_data) (data_type : Z) (f : width → Z → list Z) : list Z :=
  match c with
  | Some c =>
      if decide (node_type c = FINSH_NODE_ID) then
        match data_width data_type with
        | Some w => f w (id_at (node_id c) + value_offset)
        | None => []
        end
      else []
  | None => []
  end.
Definition code_node (d : node_data) (c : option node_data) (siblings : nat) : list Z :=
  match node_type d with
  | FINSH_NODE_ID => code_id d
  | FINSH_NODE_VALUE_CHAR => [FINSH_OP_LD_BYTE; u8 (node_value d)]
  | FINSH_NODE_VALUE_INT | FINSH_NODE_VALUE_LONG | FINSH_NODE_VALUE_NULL
  | FINSH_NODE_VALUE_STRING => FINSH_OP_LD_DWORD :: dword (node_value d)
  | FINSH_NODE_SYS_BITWISE => code_op (data_type d) FINSH_OP_BITWISE
  | FINSH_NODE_SYS_FUNC =>
      match c with Some _ => [FINSH_OP_SYSCALL; u8 (Z.of_nat siblings)] | None => [] end
  | FINSH_NODE_SYS_ASSIGN => code_assign c
  | FINSH_NODE_SYS_PREINC =>
      code_on_id c (data_type d) (λ w a, code_step w a Add ++ [FINSH_OP_LD_VALUE_DWORD_STACK])
  | FINSH_NODE_SYS_PREDEC =>
      code_on_id c (data_type d) (λ w a, code_step w a Sub ++ [FINSH_OP_LD_VALUE_DWORD_STACK])
  | FINSH_NODE_SYS_INC =>
      code_on_id c (data_type d)
        (λ w a, FINSH_OP_LD_DWORD :: dword a ++ code_step w a Add ++ [FINSH_OP_POP])
  | FINSH_NODE_SYS_DEC =>
      code_on_id c (data_type d)
        (λ w a, FINSH_OP_LD_DWORD :: dword a ++ code_step w a Sub ++ [FINSH_OP_POP])
  | FINSH_NODE_SYS_NULL => dword 0
  | FINSH_NODE_SYS_GETVALUE =>
      if flag_on (idtype d) FINSH_IDTYPE_ADDRESS then []
      else code_op (data_type d) FINSH_OP_LD_VALUE_BYTE_STACK
  | FINSH_NODE_SYS_GETADDR => []
  | k => match node_binop k with Some op => code_op (data_type d) (FINSH_OP_BIN op) | None => [] end
  end.
Fixpoint code_tree {A} (t : tree A) : list Z :=
  match t with
  | Leaf => []
  | Node _ d c s =>
      code_tree c ++
      code_node d (root_data c) (arguments c) ++
      code_tree s
  end.
(** Statements, and a [POP] between them. *)
Fixpoint code_program {A} (t : tree A) : list Z :=
  match t with
  | Leaf => []
  | Node i d c s =>
      code_tree (Node i d c Leaf) ++
      match s with Leaf => [] | _ => FINSH_OP_POP :: code_program s end
  end.

(** The error the compiler reports on a node, and on a tree: the last one. *)
Definition store_error (data_type : Z) : option finsh_error :=
  match data_width data_type with Some _ => None | None => Some FINSH_ERROR_UNKNOWN_TYPE end.
Definition node_error (d : node_data) (c : option node_data) : option finsh_error :=
  match node_type d, c with
  | FINSH_NODE_SYS_ASSIGN, Some c =>
      match node_type c with
      | FINSH_NODE_ID => store_error (data_type c)
      | FINSH_NODE_SYS_GETVALUE => store_error (Z.land (data_type c) 15)
      | _ => None
      end
  | (FINSH_NODE_UNKNOWN | FINSH_NODE_SYS_CAST), _ => Some FINSH_ERROR_UNKNOWN_NODE
  | _, _ => None
  end.
Definition later {A} (e1 e2 : option A) : option A := match e2 with Some _ => e2 | None => e1 end.
Fixpoint tree_error {A} (t : tree A) : option finsh_error :=
  match t with
  | Leaf => None
  | Node _ d c s => later (later (tree_error c) (node_error d (root_data c))) (tree_error s)
  end.

(** Assignments have a left side. *)
Fixpoint shape_ok {A} (t : tree A) : bool :=
  match t with
  | Leaf => true
  | Node _ d c s =>
      match node_type d, c with FINSH_NODE_SYS_ASSIGN, Leaf => false | _, _ => true end &&
      shape_ok c && shape_ok s
  end.
End code.

(** ** The compiler computes them *)

(** ** Nodes *)

Lemma on_vm_ok {A} (m : VM A) s v a : m (the_vm s) = Ok v a → on_vm m s = Ok (set_vm v s) a.
Proof. intros H. unfold on_vm. by rewrite H. Qed.
Lemma get_node_ok i n s : global_node_table s !! i = Some n → get_node i s = Ok s n.
Proof. intros H. unfold get_node. by rewrite H. Qed.
Lemma upd_node_ok i f n s : global_node_table s !! i = Some n →
  upd_node i f s = Ok (set_nodes (<[i := f n]> (global_node_table s)) s) tt.
Proof. intros H. unfold upd_node. by rewrite (bind_ok _ _ _ _ _ (get_node_ok i n s H)). Qed.
Lemma set_nodes_same s : set_nodes (global_node_table s) s = s.
Proof. by destruct s. Qed.

Lemma labels_check vars a {A} (t : tree A) : labels (check_tree vars a t) = labels t.
Proof. revert a. induction t as [|i d c IHc t IHt]; intros a; [done|]. simpl. by rewrite IHc, IHt. Qed.
Lemma root_check vars a {A} (t : tree A) : root (check_tree vars a t) = root t.
Proof. by destruct t. Qed.
Lemma linked_ext nodes nodes' t :
  (∀ i, i ∈ labels t → nodes' !! i = nodes !! i) → linked nodes t → linked nodes' t.
Proof.
  induction t as [|i d c IHc t IHt]; [done|]. simpl. intros He (Hi & Hc & Ht).
  rewrite He by set_solver. split; [done|]. split; [apply IHc|apply IHt]; try done; set_solver.
Qed.
Lemma link_data_ok (t : tree nat) s : linked (global_node_table s) t →
  link_data (root t) s = Ok s (root_data t).
Proof.
  destruct t as [|i d c t]; [done|]. simpl. intros (Hi & _). by rewrite (bind_ok _ _ _ _ _ (get_node_ok i _ s Hi)).
Qed.

(** ** The type check *)

Section check.
Context (vars : list finsh_var).

Lemma check_leaf_ok i d a s n : global_variable s = vars → global_node_table s !! i = Some n →
  id_ok vars d = true →
  let d1 := if idtype d =? FINSH_IDTYPE_SYSCALL then d else set_idtype (Z.lor (idtype d) a) d in
  (a = 0 ∨ a = FINSH_IDTYPE_ADDRESS) → nd n = d1 →
  check_leaf i d1 s =
    Ok (set_nodes (<[i := set_nd (check_data vars a d None) n]> (global_node_table s)) s) tt.
Proof.
  intros Hv Hi Hok d1 Ha Hd.
  assert (∀ f, upd_data i f s = Ok (set_nodes (<[i := set_nd (f d1) n]> (global_node_table s)) s) tt) as Hu.
  { intros f. unfold upd_data. by rewrite (upd_node_ok i _ n) by done; rewrite Hd. }
  assert (node_type d1 = node_type d ∧ node_id d1 = node_id d) as [Ht Hn]
    by (unfold d1; by destruct (idtype d =? FINSH_IDTYPE_SYSCALL)).
  assert (set_nodes (<[i := set_nd d1 n]> (global_node_table s)) s = s) as Hsame.
  { rewrite <- (set_nodes_same s) at 3. f_equal. apply list_insert_id. rewrite Hi. f_equal.
    rewrite <- Hd. by destruct n. }
  unfold check_data. fold d1. unfold check_leaf, leaf_type. rewrite Ht. unfold id_ok in Hok.
  destruct (node_type d) eqn:Hk; try (by rewrite Hsame); try apply Hu.
  unfold id_type. rewrite Hn.
  destruct (node_id d) as [|v|v|c] eqn:Hid; [done| | |].
  - apply andb_true_iff in Hok as [H1 H2]. apply Z.eqb_eq in H1.
    assert (flag_on (idtype d1) FINSH_IDTYPE_VAR = true) as ->
      by (unfold d1; rewrite H1; destruct Ha as [-> | ->]; done).
    cbv iota. rewrite get_bind, Hv.
    destruct (vars !! v) as [x|] eqn:Hx; [|done]. rewrite some_bind.
    change ((var_type <$> Some x) ≫= type_data) with (type_data (var_type x)).
    apply negb_true_iff, bool_decide_eq_false in H2. destruct (var_type x) eqn:Hvt; try done; apply Hu.
  - apply andb_true_iff in Hok as [H1 H2]. apply Z.eqb_eq in H1.
    assert (flag_on (idtype d1) FINSH_IDTYPE_VAR = false) as ->
      by (unfold d1; rewrite H1; destruct Ha as [-> | ->]; done).
    assert (flag_on (idtype d1) FINSH_IDTYPE_SYSVAR = true) as ->
      by (unfold d1; rewrite H1; destruct Ha as [-> | ->]; done).
    apply negb_true_iff, bool_decide_eq_false in H2. simpl. destruct (sv_type v) eqn:Hvt; try done; apply Hu.
  - apply Z.eqb_eq in Hok. assert (d1 = d) as E by (unfold d1; by rewrite Hok).
    rewrite E, Hok in *. simpl. by rewrite Hsame.
Qed.

Lemma child_flag_range k a : a = 0 ∨ a = FINSH_IDTYPE_ADDRESS →
  child_flag k a = 0 ∨ child_flag k a = FINSH_IDTYPE_ADDRESS.
Proof. destruct k; simpl; auto. Qed.

Lemma finsh_type_check_ok t : ∀ fuel a s, global_variable s = vars →
  linked (global_node_table s) t → NoDup (labels t) → ids_ok vars t = true → (height t ≤ fuel)%nat →
  a = 0 ∨ a = FINSH_IDTYPE_ADDRESS →
  ∃ nodes, finsh_type_check fuel (root t) a s = Ok (set_nodes nodes s) tt ∧
    linked nodes (check_tree vars a t) ∧ (∀ i, i ∉ labels t → nodes !! i = global_node_table s !! i).
Proof.
  induction t as [|i d c IHc t IHt]; intros fuel a s Hv Hl Hnd Hids Hh Ha.
  { exists (global_node_table s). rewrite set_nodes_same. by destruct fuel. }
  destruct fuel as [|fuel]; [simpl in Hh; lia|]. simpl in Hl, Hnd, Hids, Hh.
  destruct Hl as (Hi & Hlc & Hlt). apply NoDup_cons in Hnd as [Hni Hnd].
  apply NoDup_app in Hnd as (Hndc & Hdisj & Hndt).
  apply andb_true_iff in Hids as [Hids Hidt]. apply andb_true_iff in Hids as [Hidd Hidc].
  destruct (IHc fuel (child_flag (node_type d) a) s) as (n1 & H1 & L1 & E1); try done; [lia|by apply child_flag_range|].
  destruct (IHt fuel 0 (set_nodes n1 s)) as (n2 & H2 & L2 & E2); try done; [|lia|by left|].
  { eapply linked_ext; [|exact Hlt]. intros j Hj. apply E1. intros ?. by apply (Hdisj j). }
  set (c' := check_tree vars (child_flag (node_type d) a) c) in *. set (t' := check_tree vars 0 t) in *.
  assert (n1 !! i = Some (mk_node d (root t) (root c))) as Hi1 by (rewrite E1 by set_solver; done).
  assert (n2 !! i = Some (mk_node d (root t) (root c))) as Hi2
    by (rewrite E2 by set_solver; done).
  assert (linked n2 c') as L2c.
  { eapply linked_ext; [|exact L1]. intros j Hj. apply E2. unfold c' in Hj. rewrite labels_check in Hj. by apply Hdisj. }
  set (d1 := if idtype d =? FINSH_IDTYPE_SYSCALL then d else set_idtype (Z.lor (idtype d) a) d).
  set (n3 := <[i := mk_node d1 (root t) (root c)]> n2).
  assert (i < length n2)%nat as Hlen by (by eapply lookup_lt_Some).
  assert (n3 !! i = Some (mk_node d1 (root t) (root c))) as Hi3 by (unfold n3; by apply list_lookup_insert_eq).
  assert (linked n3 c') as L3c.
  { eapply linked_ext; [|exact L2c]. intros j Hj. unfold c' in Hj. rewrite labels_check in Hj. unfold n3.
    apply list_lookup_insert_ne. set_solver. }
  set (n4 := <[i := mk_node (check_data vars a d (root_data c')) (root t) (root c)]> n3).
  exists n4. split_and!.
  - cbn [finsh_type_check root]. rewrite (bind_ok _ _ _ _ _ (get_node_ok i _ s Hi)). cbn [child nd].
    rewrite (bind_ok _ _ _ _ _ H1). rewrite (bind_ok _ _ _ _ _ (get_node_ok i _ (set_nodes n1 s) Hi1)). cbn [sibling].
    unfold FINSH_NODE_VALUE. rewrite (bind_ok _ _ _ _ _ H2). change (set_nodes n2 (set_nodes n1 s)) with (set_nodes n2 s).
    assert ((n ← get_node i;
             if negb (idtype (nd n) =? FINSH_IDTYPE_SYSCALL)
             then upd_data i (λ d0, set_idtype (Z.lor (idtype d0) a) d0) else mret ()) (set_nodes n2 s)
            = Ok (set_nodes n3 s) tt) as H3.
    { rewrite (bind_ok _ _ _ _ _ (get_node_ok i _ (set_nodes n2 s) Hi2)). cbn [nd]. unfold n3, d1.
      destruct (idtype d =? FINSH_IDTYPE_SYSCALL); simpl.
      - rewrite list_insert_id by done. done.
      - unfold upd_data. rewrite (upd_node_ok i _ _ (set_nodes n2 s) Hi2). done. }
    rewrite (bind_ok _ _ _ _ _ H3). rewrite (bind_ok _ _ _ _ _ (get_node_ok i _ (set_nodes n3 s) Hi3)).
    cbn [child nd]. rewrite <- (root_check vars (child_flag (node_type d) a) c). fold c'.
    rewrite (bind_ok _ _ _ _ _ (link_data_ok c' (set_nodes n3 s) L3c)).
    destruct (root_data c') as [dc|] eqn:Hdc.
    + unfold upd_data. rewrite (upd_node_ok i _ _ (set_nodes n3 s) Hi3). unfold n4. cbn [set_nd nd sibling child].
      unfold check_data. rewrite <- (root_check vars (child_flag (node_type d) a) c). done.
    + etrans; [exact (check_leaf_ok i d a (set_nodes n3 s) _ Hv Hi3 Hidd Ha eq_refl)|done].
  - cbn [check_tree linked]. fold c' t'. unfold t', c'. rewrite !root_check. fold c' t'.
    split_and!.
    + unfold n4. apply list_lookup_insert_eq. unfold n3. by rewrite length_insert.
    + eapply linked_ext; [|exact L3c]. intros j Hj. unfold c' in Hj. rewrite labels_check in Hj.
      apply list_lookup_insert_ne. set_solver.
    + eapply linked_ext; [|exact L2]. intros j Hj. unfold t' in Hj. rewrite labels_check in Hj.
      unfold n4, n3. rewrite !list_lookup_insert_ne by set_solver. done.
  - intros j Hj. simpl in Hj. unfold n4, n3. rewrite !list_lookup_insert_ne by set_solver.
    rewrite E2 by set_solver. simpl. apply E1. set_solver.
Qed.
End check.

(** ** Emitting code *)

Section emit.
Context `{!FinshLayout} (nodes : list finsh_node) (vars : list finsh_var).

(** The state once the bytes [bs] are written and, maybe, an error reported. *)
Definition emitted (bs : list Z) (e : option finsh_error) (s : finsh) : finsh :=
  set_errno (default (global_errno s) e)
    (set_compile_pc (finsh_compile_pc s + zlen bs)
       (set_vm (set_text (splice (text_segment (the_vm s)) (finsh_compile_pc s) bs) (the_vm s)) s)).
Definition emitting (s : finsh) : Prop :=
  global_node_table s = nodes ∧ global_variable s = vars ∧
  zlen (text_segment (the_vm s)) = FINSH_TEXT_MAX ∧ 0 ≤ finsh_compile_pc s ≤ FINSH_TEXT_MAX.
(** [m] writes [bs], or leaves the text segment when they do not fit. *)
Definition emits (m : F unit) (bs : list Z) (e : option finsh_error) : Prop :=
  ∀ s, emitting s →
    m s = if finsh_compile_pc s + zlen bs <=? FINSH_TEXT_MAX then Ok (emitted bs e s) tt else Err FBounds.

Lemma emitting_emitted bs e s : emitting s → finsh_compile_pc s + zlen bs ≤ FINSH_TEXT_MAX →
  emitting (emitted bs e s).
Proof.
  intros (H1 & H2 & H3 & H4) Hf. pose proof (zlen_nonneg bs). split_and!; try done; simpl; [|lia..].
  rewrite zlen_splice; lia.
Qed.
Lemma emits_seq m1 m2 b1 b2 e1 e2 : emits m1 b1 e1 → emits m2 b2 e2 →
  emits (m1;; m2) (b1 ++ b2) (later e1 e2).
Proof.
  intros H1 H2 s Hs. pose proof (zlen_nonneg b1). pose proof (zlen_nonneg b2). rewrite zlen_app.
  specialize (H1 s Hs). destruct (Z.leb_spec (finsh_compile_pc s + zlen b1) FINSH_TEXT_MAX) as [Hf|Hf].
  - rewrite (bind_ok _ _ _ _ _ H1). rewrite (H2 _ (emitting_emitted b1 e1 s Hs Hf)). simpl finsh_compile_pc.
    rewrite Z.add_assoc. destruct (Z.leb_spec (finsh_compile_pc s + zlen b1 + zlen b2) FINSH_TEXT_MAX); [|done].
    f_equal. unfold emitted. simpl. destruct Hs as (_ & _ & Hl & Hp).
    rewrite splice_splice_app by lia. rewrite zlen_app, Z.add_assoc. by destruct e2.
  - rewrite (bind_err _ _ _ _ H1). destruct (Z.leb_spec (finsh_compile_pc s + (zlen b1 + zlen b2)) FINSH_TEXT_MAX); [lia|done].
Qed.
Lemma emits_nothing : emits (mret tt) [] None.
Proof.
  intros s (_ & _ & Hl & Hp). change (zlen (@nil Z)) with 0. rewrite (proj2 (Z.leb_le _ _)) by lia.
  unfold emitted. rewrite splice_nil by lia. change (zlen (@nil Z)) with 0. rewrite Z.add_0_r. by destruct s as [????????? ? []].
Qed.
Lemma emits_error e : emits (finsh_error_set e) [] (Some e).
Proof.
  intros s (_ & _ & Hl & Hp). change (zlen (@nil Z)) with 0. rewrite (proj2 (Z.leb_le _ _)) by lia.
  unfold emitted. rewrite splice_nil by lia. change (zlen (@nil Z)) with 0. rewrite Z.add_0_r. by destruct s as [????????? ? []].
Qed.
Lemma emits_byte x b : b = u8 x → emits (finsh_code_byte x) [b] None.
Proof.
  intros -> s (_ & _ & Hl & Hp). unfold finsh_code_byte. rewrite get_bind. unfold wr. rewrite Hl.
  change (zlen [u8 x]) with 1. rewrite (proj2 (Z.leb_le 0 (finsh_compile_pc s))) by lia.
  by destruct (Z.leb_spec (finsh_compile_pc s + 1) FINSH_TEXT_MAX).
Qed.
Lemma emits_cons x b m bs e : emits (finsh_code_byte x) [b] None → emits m bs e →
  emits (finsh_code_byte x;; m) (b :: bs) e.
Proof. intros H1 H2. pose proof (emits_seq _ _ _ _ _ _ H1 H2) as Hb. by destruct e. Qed.
Lemma emits_app m1 m2 b1 b2 e : emits m1 b1 None → emits m2 b2 e → emits (m1;; m2) (b1 ++ b2) e.
Proof. intros H1 H2. pose proof (emits_seq _ _ _ _ _ _ H1 H2) as Hb. by destruct e. Qed.
Lemma shiftr_8 x : Z.shiftr x 8 = x / 256.
Proof. by rewrite Z.shiftr_div_pow2 by lia. Qed.
Lemma emits_dword x : emits (finsh_code_dword x) (dword x) None.
Proof.
  unfold finsh_code_dword, dword. simpl.
  replace (Z.shiftr x 24) with (x / 256 / 256 / 256)
    by (rewrite <- !shiftr_8, !Z.shiftr_shiftr by lia; done).
  replace (Z.shiftr x 16) with (x / 256 / 256) by (rewrite <- !shiftr_8, !Z.shiftr_shiftr by lia; done).
  rewrite shiftr_8. repeat (apply emits_cons; [by apply emits_byte|]). by apply emits_byte.
Qed.
Lemma emits_of_width w x : emits (code_of_width w x) (le_bytes (Z.to_nat (bytes_of w)) x) None.
Proof.
  destruct w; [by apply emits_byte| |apply emits_dword].
  unfold code_of_width, finsh_code_word. simpl. rewrite shiftr_8.
  apply emits_cons; [by apply emits_byte|]. by apply emits_byte.
Qed.
Lemma u8_by_width w o : 0 ≤ o < 253 → u8 (by_width w o) = by_width w o.
Proof. intros. apply Z.mod_small. unfold by_width. destruct w; lia. Qed.
Lemma emits_op w o : 0 ≤ o < 253 → emits (finsh_code_byte (by_width w o)) [by_width w o] None.
Proof. intros. apply emits_byte. by rewrite u8_by_width. Qed.

(** ** Nodes *)

Definition node_shape (d : node_data) (c : option node_data) : bool :=
  match node_type d, c with FINSH_NODE_SYS_ASSIGN, None => false | _, _ => true end.
Definition id_checked (d : node_data) : bool :=
  match node_type d with
  | FINSH_NODE_ID =>
      match node_id d with
      | id_null => false
      | id_var v => ((idtype d =? 1) || (idtype d =? 9)) && bool_decide (is_Some (vars !! v))
      | id_sysvar _ => (idtype d =? 2) || (idtype d =? 10)
      | id_syscall _ => idtype d =? 4
      end
  | _ => true
  end.

Lemma emits_variable t a f : emits (compile_variable t a f) (code_variable t a f) None.
Proof.
  unfold compile_variable, code_variable. destruct (load_width t) as [w|]; [|apply emits_nothing].
  destruct (flag_on f FINSH_IDTYPE_ADDRESS); (apply emits_cons; [|apply emits_dword]).
  - by apply emits_byte.
  - by apply emits_op.
Qed.
Lemma emits_id d : node_type d = FINSH_NODE_ID → id_checked d = true →
  emits (compile_id d) (code_id vars d) None.
Proof.
  intros Ht Hok. unfold id_checked in Hok. rewrite Ht in Hok. unfold compile_id, code_id.
  destruct (node_id d) as [|v|v|c] eqn:Hid; [done| | |].
  - apply andb_true_iff in Hok as [Hf Hv]. apply bool_decide_eq_true in Hv as [x Hx].
    assert (flag_on (idtype d) FINSH_IDTYPE_SYSCALL = false ∧ flag_on (idtype d) FINSH_IDTYPE_SYSVAR = false) as [-> ->]
      by (apply orb_true_iff in Hf as [Hf|Hf]; apply Z.eqb_eq in Hf; rewrite Hf; done).
    intros s Hs. rewrite get_bind. destruct Hs as (H1 & H2 & H3). rewrite H2, Hx. rewrite some_bind.
    by apply emits_variable.
  - assert (flag_on (idtype d) FINSH_IDTYPE_SYSCALL = false ∧ flag_on (idtype d) FINSH_IDTYPE_SYSVAR = true) as [-> ->]
      by (apply orb_true_iff in Hok as [Hf|Hf]; apply Z.eqb_eq in Hf; rewrite Hf; done).
    apply emits_variable.
  - apply Z.eqb_eq in Hok. rewrite Hok. apply emits_cons; [by apply emits_byte|apply emits_dword].
Qed.
Lemma emits_code_op dt o : 0 ≤ o < 253 → emits (compile_op dt o) (code_op dt o) None.
Proof.
  intros. unfold compile_op, code_op. destruct (data_width dt) as [w|]; [by apply emits_op|apply emits_nothing].
Qed.
Lemma emits_store dt : emits (compile_store dt) (code_store dt) (store_error dt).
Proof.
  unfold compile_store, code_store, store_error. destruct (data_width dt) as [w|]; [|apply emits_error].
  apply emits_cons; by apply emits_op.
Qed.
Lemma emits_step w a op : emits (compile_step w a op) (code_step w a op) None.
Proof.
  unfold compile_step, code_step. assert (0 ≤ FINSH_OP_BIN op < 253) by (destruct op; done).
  apply emits_cons; [by apply emits_op|]. apply emits_app; [apply emits_dword|].
  apply emits_cons; [by apply emits_op|]. apply emits_app; [apply emits_of_width|].
  apply emits_cons; [by apply emits_op|]. by apply emits_op.
Qed.
Lemma emits_on_id c dt f g : (∀ w a, emits (f w a) (g w a) None) →
  emits (on_id c dt f) (code_on_id c dt g) None.
Proof.
  intros Hf. unfold on_id, code_on_id. destruct c as [c|]; [|apply emits_nothing].
  destruct (decide _); [|apply emits_nothing]. destruct (data_width dt); [apply Hf|apply emits_nothing].
Qed.
Lemma emits_pre c dt op : emits (compile_pre c dt op)
  (code_on_id c dt (λ w a, code_step w a op ++ [FINSH_OP_LD_VALUE_DWORD_STACK])) None.
Proof.
  apply emits_on_id. intros w a. apply emits_app; [apply emits_step|by apply emits_byte].
Qed.
Lemma emits_post c dt op : emits (compile_post c dt op)
  (code_on_id c dt (λ w a, FINSH_OP_LD_DWORD :: dword a ++ code_step w a op ++ [FINSH_OP_POP])) None.
Proof.
  apply emits_on_id. intros w a. apply emits_cons; [by apply emits_byte|].
  apply emits_app; [apply emits_dword|]. apply emits_app; [apply emits_step|by apply emits_byte].
Qed.

Lemma count_siblings_ok t : ∀ fuel s, linked (global_node_table s) t → (width_of t ≤ fuel)%nat →
  count_siblings fuel (root t) s = Ok s (Z.of_nat (width_of t)).
Proof.
  induction t as [|i d c _ t IH]; intros fuel s Hl Hf; [by destruct fuel|].
  destruct fuel as [|fuel]; simpl in Hf; [lia|]. simpl in Hl. destruct Hl as (Hi & _ & Hl).
  cbn [count_siblings root]. rewrite (bind_ok _ _ _ _ _ (get_node_ok i _ s Hi)). cbn [sibling].
  assert (width_of t ≤ fuel)%nat as Hf' by lia. rewrite (bind_ok _ _ _ _ _ (IH fuel s Hl Hf')).
  cbv beta. unfold mret, ST_ret. cbn [width_of]. f_equal. lia.
Qed.
Lemma emits_func (c : tree nat) : linked nodes c → (arguments c ≤ node_fuel)%nat →
  emits (compile_func (root c))
    (match root_data c with Some _ => [FINSH_OP_SYSCALL; u8 (Z.of_nat (arguments c))] | None => [] end) None.
Proof.
  destruct c as [|i d c t]; intros Hl Hf; [apply emits_nothing|]. simpl in Hl. destruct Hl as (Hi & _ & Hl).
  intros s Hs. assert (global_node_table s = nodes) as Hn by apply Hs. simpl.
  rewrite (bind_ok _ _ _ _ _ (get_node_ok i _ s ltac:(by rewrite Hn))). cbn [sibling].
  rewrite (bind_ok _ _ _ _ _ (count_siblings_ok t node_fuel s ltac:(by rewrite Hn) Hf)).
  revert s Hs Hn. intros s Hs _. refine (emits_cons _ _ _ _ _ _ _ s Hs); by apply emits_byte.
Qed.

Lemma emits_node d (c : tree nat) sib : linked nodes c → (arguments c ≤ node_fuel)%nat →
  id_checked d = true → node_shape d (root_data c) = true →
  emits (compile_node (mk_node d sib (root c)))
    (code_node vars d (root_data c) (arguments c)) (node_error d (root_data c)).
Proof.
  intros Hl Hf Hid Hsh s Hs. assert (global_node_table s = nodes) as Hn by apply Hs.
  unfold compile_node. cbn [child nd].
  rewrite (bind_ok _ _ _ _ _ (link_data_ok c s ltac:(by rewrite Hn))). revert s Hs Hn. intros s Hs _. revert s Hs.
  change (emits (compile_switch d (root c) (root_data c))
    (code_node vars d (root_data c) (arguments c)) (node_error d (root_data c))).
  unfold compile_switch, code_node, node_error. unfold node_shape in Hsh.
  destruct (node_type d) eqn:Hk; try apply emits_nothing; try apply emits_error;
    try apply emits_pre; try apply emits_post; try (by apply emits_code_op); try apply emits_dword.
  - by apply emits_id.
  - apply emits_cons; by apply emits_byte.
  - apply emits_cons; [by apply emits_byte|apply emits_dword].
  - apply emits_cons; [by apply emits_byte|apply emits_dword].
  - apply emits_cons; [by apply emits_byte|apply emits_dword].
  - apply emits_cons; [by apply emits_byte|apply emits_dword].
  - by apply emits_func.
  - destruct (root_data c) as [dc|]; [|done]. unfold compile_assign, code_assign.
    destruct (node_type dc); try apply emits_nothing; apply emits_store.
  - destruct (flag_on _ _); [apply emits_nothing|by apply emits_code_op].
Qed.

(** ** Trees *)

Fixpoint tree_ok {A} (t : tree A) : bool :=
  match t with
  | Leaf => true
  | Node _ d c s => id_checked d && node_shape d (root_data c) && tree_ok c && tree_ok s
  end.
Lemma width_height {A} (t : tree A) : (width_of t ≤ height t)%nat.
Proof. induction t; simpl; lia. Qed.
Lemma arguments_height {A} (t : tree A) : (arguments t ≤ height t)%nat.
Proof. destruct t as [|i d c t]; simpl; [lia|]. pose proof (width_height t). lia. Qed.

Lemma emits_tree (t : tree nat) : ∀ fuel, linked nodes t → tree_ok t = true →
  (height t ≤ fuel)%nat → (height t ≤ node_fuel)%nat →
  emits (finsh_compile fuel (root t)) (code_tree vars t) (tree_error t).
Proof.
  induction t as [|i d c IHc t IHt]; intros fuel Hl Hok Hf Hn; [destruct fuel; apply emits_nothing|].
  destruct fuel as [|fuel]; simpl in Hf, Hn; [lia|]. simpl in Hl, Hok. destruct Hl as (Hi & Hlc & Hlt).
  apply andb_true_iff in Hok as [Hok Hokt]. apply andb_true_iff in Hok as [Hok Hokc].
  apply andb_true_iff in Hok as [Hid Hsh].
  assert (emits (finsh_compile fuel (root c);; compile_node (mk_node d (root t) (root c));;
                 finsh_compile fuel (root t)) (code_tree vars (Node i d c t)) (tree_error (Node i d c t))) as Hall.
  { cbn [code_tree tree_error]. pose proof (arguments_height c).
    assert (emits (compile_node (mk_node d (root t) (root c));; finsh_compile fuel (root t))
      (code_node vars d (root_data c) (arguments c) ++ code_tree vars t)
      (later (node_error d (root_data c)) (tree_error t))) as H2
      by (apply emits_seq; [apply emits_node; done || lia|apply IHt; done || lia]).
    assert (emits (finsh_compile fuel (root c)) (code_tree vars c) (tree_error c)) as H1
      by (apply IHc; done || lia).
    pose proof (emits_seq _ _ _ _ _ _ H1 H2) as H3.
    destruct (tree_error t), (node_error d (root_data c)); exact H3. }
  intros s Hs. assert (global_node_table s = nodes) as Hns by apply Hs.
  cbn [finsh_compile root]. rewrite (bind_ok _ _ _ _ _ (get_node_ok i _ s ltac:(by rewrite Hns))).
  by apply Hall.
Qed.
End emit.

(** ** Programs *)

Section program.
Context `{!FinshLayout} (vars : list finsh_var).

Fixpoint program_error {A} (t : tree A) : option finsh_error :=
  match t with
  | Leaf => None
  | Node i d c s => later (tree_error (Node i d c Leaf)) (program_error s)
  end.
Lemma linked_cut nodes i d c t : linked nodes (Node i d c t) → NoDup (i :: labels c ++ labels t) →
  linked (<[i := mk_node d None (root c)]> nodes) (Node i d c Leaf) ∧
  linked (<[i := mk_node d None (root c)]> nodes) t.
Proof.
  intros (Hi & Hc & Ht) Hnd. apply NoDup_cons in Hnd as [Hni Hnd].
  split; [simpl; split_and!; [|..|done]|].
  - apply list_lookup_insert_eq. by eapply lookup_lt_Some.
  - eapply linked_ext; [|exact Hc]. intros j Hj. apply list_lookup_insert_ne. set_solver.
  - eapply linked_ext; [|exact Ht]. intros j Hj. apply list_lookup_insert_ne. set_solver.
Qed.
Lemma root_leaf {A} (t : tree A) : root t = None ↔ t = Leaf.
Proof. by destruct t. Qed.

Lemma emitted_twice nodes cut b1 b2 e1 e2 s : 0 ≤ finsh_compile_pc s →
  finsh_compile_pc s + zlen b1 + zlen b2 ≤ zlen (text_segment (the_vm s)) →
  set_nodes nodes (emitted b2 e2 (emitted b1 e1 (set_nodes cut s))) =
  set_nodes nodes (emitted (b1 ++ b2) (later e1 e2) s).
Proof.
  intros. unfold emitted. simpl. rewrite splice_splice_app by lia. rewrite zlen_app, Z.add_assoc.
  by destruct e2.
Qed.

Lemma compile_statements_ok (t : tree nat) : ∀ fuel s,
  linked (global_node_table s) t → NoDup (labels t) → tree_ok vars t = true →
  (height t ≤ fuel)%nat → (height t ≤ node_fuel)%nat → global_variable s = vars →
  zlen (text_segment (the_vm s)) = FINSH_TEXT_MAX → 0 ≤ finsh_compile_pc s ≤ FINSH_TEXT_MAX →
  if finsh_compile_pc s + zlen (code_program vars t) <=? FINSH_TEXT_MAX
  then ∃ nodes, compile_statements fuel (root t) s =
    Ok (set_nodes nodes (emitted (code_program vars t) (program_error t) s)) tt
  else compile_statements fuel (root t) s = Err FBounds.
Proof.
  induction t as [|i d c _ t IH]; intros fuel s Hl Hnd Hok Hf Hn Hv Htext Hpc.
  { destruct (emits_nothing (global_node_table s) vars s ltac:(done)).
    simpl. change (zlen (@nil Z)) with 0. rewrite (proj2 (Z.leb_le _ _)) by lia. exists (global_node_table s).
    pose proof (emits_nothing (global_node_table s) vars s ltac:(done)) as Hr.
    change (zlen (@nil Z)) with 0 in Hr. rewrite (proj2 (Z.leb_le _ _)) in Hr by lia.
    destruct fuel; exact Hr. }
  destruct fuel as [|fuel]; simpl in Hf; [lia|]. cbn [height] in Hn.
  destruct (linked_cut _ _ _ _ _ Hl Hnd) as [Hl1 Hl2]. simpl in Hl, Hok. destruct Hl as (Hi & _ & _).
  apply NoDup_cons in Hnd as [_ Hnd]. apply NoDup_app in Hnd as (_ & _ & Hnd).
  apply andb_true_iff in Hok as [Hok Hokt].
  set (cut := <[i := mk_node d None (root c)]> (global_node_table s)) in *.
  set (s1 := set_nodes cut s). set (one := Node i d c Leaf).
  assert (emits cut vars (finsh_compile node_fuel (Some i)) (code_tree vars one) (tree_error one)) as Hone.
  { apply (emits_tree cut vars one); try done; simpl; [by rewrite Hok|lia..]. }
  assert (emitting cut vars s1) as Hs1 by done.
  cbn [compile_statements root]. rewrite (bind_ok _ _ _ _ _ (get_node_ok i _ s Hi)).
  rewrite (bind_ok _ _ _ _ _ (upd_node_ok i _ _ s Hi)). cbn [set_sibling nd child sibling]. fold cut s1.
  destruct t as [|j d' c' t'].
  - cbn [code_program program_error]. rewrite app_nil_r. fold one. cbn [later].
    specialize (Hone s1 Hs1). change (finsh_compile_pc s1) with (finsh_compile_pc s) in Hone.
    destruct (finsh_compile_pc s + zlen (code_tree vars one) <=? FINSH_TEXT_MAX).
    + exists cut. rewrite (bind_ok _ _ _ _ _ Hone). by destruct fuel.
    + by rewrite (bind_err _ _ _ _ Hone).
  - set (rest := Node j d' c' t') in *.
    assert (code_program vars (Node i d c rest) =
      (code_tree vars one ++ [FINSH_OP_POP]) ++ code_program vars rest) as Hcode
      by (unfold one, rest; by rewrite <- app_assoc).
    rewrite Hcode. set (b := code_tree vars one ++ [FINSH_OP_POP]) in *.
    assert (emits cut vars (finsh_compile node_fuel (Some i);; finsh_code_byte FINSH_OP_POP) b (tree_error one)) as Hb.
    { pose proof (emits_seq cut vars _ _ _ _ _ _ Hone (emits_byte cut vars FINSH_OP_POP FINSH_OP_POP eq_refl)) as Hb.
      exact Hb. }
    specialize (Hb s1 Hs1). change (finsh_compile_pc s1) with (finsh_compile_pc s) in Hb.
    assert (∀ (k : F unit), (finsh_compile node_fuel (Some i);; finsh_code_byte FINSH_OP_POP;; k) s1 =
      ((finsh_compile node_fuel (Some i);; finsh_code_byte FINSH_OP_POP);; k) s1) as Hassoc
      by (intros k; by rewrite bind_assoc).
    cbn [root rest]. rewrite decide_False by done. rewrite Hassoc. fold rest.
    rewrite zlen_app, Z.add_assoc. pose proof (zlen_nonneg (code_program vars rest)).
    destruct (Z.leb_spec (finsh_compile_pc s + zlen b) FINSH_TEXT_MAX) as [Hfit|Hfit].
    2:{ rewrite (proj2 (Z.leb_gt _ _)) by lia. by rewrite (bind_err _ _ _ _ Hb). }
    rewrite (bind_ok _ _ _ _ _ Hb).
    assert (emitting cut vars (emitted b (tree_error one) s1)) as (E1 & E2 & E3 & E4)
      by (by apply emitting_emitted).
    assert (height rest ≤ fuel)%nat as Hf' by lia. assert (height rest ≤ node_fuel)%nat as Hn' by lia.
    specialize (IH fuel (emitted b (tree_error one) s1) Hl2 Hnd Hokt Hf' Hn' E2 E3 E4).
    change (finsh_compile_pc (emitted b (tree_error one) s1)) with (finsh_compile_pc s + zlen b) in IH.
    change (Some j) with (root rest).
    destruct (finsh_compile_pc s + zlen b + zlen (code_program vars rest) <=? FINSH_TEXT_MAX) eqn:Hle; [|exact IH].
    destruct IH as [nodes ->]. exists nodes. f_equal. apply Z.leb_le in Hle.
    apply emitted_twice; lia.
Qed.

(** ** The whole compiler *)

Lemma height_check a {A} (t : tree A) : height (check_tree vars a t) = height t.
Proof. revert a. induction t as [|i d c IHc t IHt]; intros a; [done|]. simpl. by rewrite IHc, IHt. Qed.
Lemma root_data_none {A} a (t : tree A) : root_data (check_tree vars a t) = None ↔ t = Leaf.
Proof. by destruct t. Qed.
Lemma check_data_kept a d c :
  node_type (check_data vars a d c) = node_type d ∧ node_id (check_data vars a d c) = node_id d ∧
  idtype (check_data vars a d c) = if idtype d =? FINSH_IDTYPE_SYSCALL then idtype d else Z.lor (idtype d) a.
Proof.
  unfold check_data. destruct (idtype d =? FINSH_IDTYPE_SYSCALL), c; try done;
    by (destruct (leaf_type vars _)).
Qed.
Lemma tree_ok_check {A} (t : tree A) : ∀ a, a = 0 ∨ a = FINSH_IDTYPE_ADDRESS →
  ids_ok vars t = true → shape_ok t = true → tree_ok vars (check_tree vars a t) = true.
Proof.
  induction t as [|i d c IHc t IHt]; intros a Ha Hids Hsh; [done|]. simpl in Hids, Hsh.
  apply andb_true_iff in Hids as [Hids Hidt]. apply andb_true_iff in Hids as [Hid Hidc].
  apply andb_true_iff in Hsh as [Hsh Hsht]. apply andb_true_iff in Hsh as [Hsh Hshc].
  cbn [check_tree tree_ok]. set (c' := check_tree vars (child_flag (node_type d) a) c).
  assert (tree_ok vars c' = true) as -> by (apply IHc; [by apply child_flag_range|done..]).
  rewrite (IHt 0) by (done || by left).
  rewrite !andb_true_r. destruct (check_data_kept a d (root_data c')) as (Hk & Hi & Hf).
  apply andb_true_iff. split.
  - unfold id_checked. rewrite Hk, Hi, Hf. unfold id_ok in Hid. destruct (node_type d); try done.
    destruct (node_id d) as [|v|v|x]; [done| | |].
    + apply andb_true_iff in Hid as [E Hx]. apply Z.eqb_eq in E. rewrite E.
      rewrite bool_decide_eq_true_2 by (by destruct (vars !! v)). by destruct Ha as [-> | ->].
    + apply andb_true_iff in Hid as [E _]. apply Z.eqb_eq in E. rewrite E. by destruct Ha as [-> | ->].
    + apply Z.eqb_eq in Hid. by rewrite Hid.
  - unfold node_shape. rewrite Hk. destruct (node_type d); try done.
    by destruct c.
Qed.
Lemma labels_bound nodes t : linked nodes t → Forall (λ i, (i < length nodes)%nat) (labels t).
Proof.
  induction t as [|i d c IHc t IHt]; simpl; [constructor|]. intros (Hi & Hc & Ht). constructor.
  - by eapply lookup_lt_Some.
  - apply Forall_app. auto.
Qed.
Lemma height_labels {A} (t : tree A) : (height t ≤ length (labels t))%nat.
Proof. induction t; simpl; [lia|]. rewrite length_app. lia. Qed.
Lemma height_table nodes t : linked nodes t → NoDup (labels t) → (height t ≤ length nodes)%nat.
Proof.
  intros Hl Hnd. etrans; [apply height_labels|]. rewrite <- (length_seq (length nodes) 0).
  apply submseteq_length, NoDup_submseteq; [done|]. intros i Hi.
  apply elem_of_seq. pose proof (labels_bound nodes t Hl) as Hb. rewrite Forall_forall in Hb.
  specialize (Hb i Hi). lia.
Qed.

(** The state the compiler starts to write code in. *)
Definition cleared (s : finsh) : finsh :=
  let v := the_vm s in
  set_compile_pc 0
    (set_vm (set_stack (<[0%nat := 0]> (finsh_vm_stack v))
       (set_text (replicate (Z.to_nat FINSH_TEXT_MAX) 0) v)) s).

Lemma finsh_compiler_run_ok (t : tree nat) s :
  linked (global_node_table s) t → NoDup (labels t) → length (global_node_table s) = 16%nat →
  global_variable s = vars → ids_ok vars t = true → shape_ok t = true →
  zlen (finsh_vm_stack (the_vm s)) = FINSH_STACK_MAX →
  let code := code_program vars (check_tree vars 0 t) in
  if zlen code <=? FINSH_TEXT_MAX
  then ∃ nodes, finsh_compiler_run (root t) s =
    Ok (set_nodes nodes (emitted code (program_error (check_tree vars 0 t)) (cleared s))) tt
  else finsh_compiler_run (root t) s = Err FBounds.
Proof.
  intros Hl Hnd Hlen Hv Hids Hsh Hst code.
  assert (height t ≤ node_fuel)%nat as Hh.
  { pose proof (height_table _ _ Hl Hnd). assert (node_fuel = 17%nat) by done. lia. }
  destruct (finsh_type_check_ok vars t node_fuel 0 s) as (n1 & H1 & L1 & _); try done; [by left|].
  unfold finsh_compiler_run, FINSH_NODE_VALUE. rewrite (bind_ok _ _ _ _ _ H1).
  set (s2 := cleared (set_nodes n1 s)).
  assert (∀ k : F unit, (modify (λ s, set_vm (set_text (replicate (Z.to_nat FINSH_TEXT_MAX) 0) (the_vm s)) s);;
    on_vm (set_slot 0 0);; modify (set_compile_pc 0);; k) (set_nodes n1 s) = k s2) as Hk.
  { intros k. set (s1 := set_vm (set_text (replicate (Z.to_nat FINSH_TEXT_MAX) 0) (the_vm s)) (set_nodes n1 s)).
    change ((on_vm (set_slot 0 0);; modify (set_compile_pc 0);; k) s1 = k s2).
    assert (0 ≤ 0 < zlen (finsh_vm_stack (the_vm s1))) as Hz by (unfold s1; simpl; rewrite Hst; done).
    by rewrite (bind_ok _ _ _ _ _ (on_vm_ok _ _ _ _ (set_slot_ok 0 0 (the_vm s1) Hz))). }
  rewrite Hk. set (t' := check_tree vars 0 t) in *.
  pose proof (compile_statements_ok t' node_fuel s2) as Hc.
  assert (root t' = root t) as Hr by apply root_check. rewrite Hr in Hc.
  assert (NoDup (labels t')) as Hnd' by (unfold t'; by rewrite labels_check).
  assert (height t' ≤ node_fuel)%nat as Hh' by (unfold t'; by rewrite height_check).
  assert (tree_ok vars t' = true) as Hok by (apply tree_ok_check; [by left|done..]).
  assert (0 ≤ 0 ≤ FINSH_TEXT_MAX) as H0 by done.
  specialize (Hc L1 Hnd' Hok Hh' Hh' Hv eq_refl H0). fold code in Hc.
  change (finsh_compile_pc s2 + zlen code) with (0 + zlen code) in Hc. rewrite Z.add_0_l in Hc.
  destruct (zlen code <=? FINSH_TEXT_MAX); exact Hc.
Qed.
End program.
