(* ===== verification/FinshExpr.v ===== *)
(** * The expressions of the shell: what they mean, and the code for them

    An expression evaluates in a memory to a value, or to the fault of a
    division, a shift or an access. [raw] is the tree of nodes an expression
    stands for, [code_expr] its code. The type of an expression is that of its
    first operand; [typed] are those whose operands are as wide as their use. *)

From Stdlib Require Import ZArith Lia.
From stdpp Require Import base list.
From S2P Require Import RTThread.
From S2P Require Import Prelude.
From S2P Require Import Bytes.
From S2P Require Import FinshVm.
From S2P Require Import FinshVmSpec.
From S2P Require Import Finsh.
From S2P Require Import FinshCompile.
From S2P Require Import FinshCompileSpec.

Inductive expr : Set :=
  | EChar (c : Z)
  | EInt (n : Z)
  | ELong (n : Z)
  | EString (p : Z)
  | ENull
  | EId (r : idref)
  | EBin (op : binop) (a b : expr)
  | ENot (a : expr)
  | EAssign (r : idref) (a : expr)
  | EStore (p a : expr)
  | EPre (up : bool) (i : nat)
  | EPost (up : bool) (i : nat)
  | EDeref (p : expr)
  | EAddr (r : idref)
  | ECall (f : expr) (args : exprs)
with exprs : Set :=
  | ENil
  | ECons (e : expr) (es : exprs).
Scheme expr_mind := Induction for expr Sort Prop
  with exprs_mind := Induction for exprs Sort Prop.
Combined Scheme expr_exprs_ind from expr_mind, exprs_mind.

(** [- a] is [0 - a], the zero a [long]. *)
Definition ENeg (a : expr) : expr := EBin Sub (ELong 0) a.
Definition step_op (up : bool) : binop := if up then Add else Sub.
Fixpoint count_args (es : exprs) : nat := match es with ENil => 0 | ECons _ es => S (count_args es) end.

(** ** Trees of nodes *)

Definition binop_kind (op : binop) : node_kind :=
  match op with
  | Add => FINSH_NODE_SYS_ADD | Sub => FINSH_NODE_SYS_SUB | Mul => FINSH_NODE_SYS_MUL
  | Div => FINSH_NODE_SYS_DIV | Mod => FINSH_NODE_SYS_MOD | And => FINSH_NODE_SYS_AND
  | Or => FINSH_NODE_SYS_OR | Xor => FINSH_NODE_SYS_XOR | Shl => FINSH_NODE_SYS_SHL
  | Shr => FINSH_NODE_SYS_SHR
  end.
Definition sys (k : node_kind) : node_data := mk_data k 0 0 0 id_null.
Definition value_data (k : node_kind) (v : Z) : node_data := mk_data k 0 0 v id_null.
Definition id_data (r : idref) : node_data :=
  mk_data FINSH_NODE_ID 0
    (match r with
     | id_null => 0
     | id_var _ => FINSH_IDTYPE_VAR
     | id_sysvar _ => FINSH_IDTYPE_SYSVAR
     | id_syscall _ => FINSH_IDTYPE_SYSCALL
     end) 0 r.
Fixpoint raw (e : expr) (s : tree unit) : tree unit :=
  match e with
  | EChar c => Node tt (value_data FINSH_NODE_VALUE_CHAR (u8 c)) Leaf s
  | EInt n => Node tt (value_data FINSH_NODE_VALUE_INT (u32 n)) Leaf s
  | ELong n => Node tt (value_data FINSH_NODE_VALUE_LONG (u32 n)) Leaf s
  | EString p => Node tt (value_data FINSH_NODE_VALUE_STRING (u32 p)) Leaf s
  | ENull => Node tt (value_data FINSH_NODE_VALUE_NULL 0) Leaf s
  | EId r => Node tt (id_data r) Leaf s
  | EBin op a b => Node tt (sys (binop_kind op)) (raw a (raw b Leaf)) s
  | ENot a => Node tt (sys FINSH_NODE_SYS_BITWISE) (raw a Leaf) s
  | EAssign r a =>
      Node tt (sys FINSH_NODE_SYS_ASSIGN) (Node tt (id_data r) Leaf (raw a Leaf)) s
  | EStore p a =>
      Node tt (sys FINSH_NODE_SYS_ASSIGN)
        (Node tt (sys FINSH_NODE_SYS_GETVALUE) (raw p Leaf) (raw a Leaf)) s
  | EPre up i =>
      Node tt (sys (if up then FINSH_NODE_SYS_PREINC else FINSH_NODE_SYS_PREDEC))
        (Node tt (id_data (id_var i)) Leaf Leaf) s
  | EPost up i =>
      Node tt (sys (if up then FINSH_NODE_SYS_INC else FINSH_NODE_SYS_DEC))
        (Node tt (id_data (id_var i)) Leaf Leaf) s
  | EDeref p => Node tt (sys FINSH_NODE_SYS_GETVALUE) (raw p Leaf) s
  | EAddr r => Node tt (sys FINSH_NODE_SYS_GETADDR) (Node tt (id_data r) Leaf Leaf) s
  | ECall f args => Node tt (sys FINSH_NODE_SYS_FUNC) (raw f (raws args)) s
  end
with raws (es : exprs) : tree unit :=
  match es with ENil => Leaf | ECons e es => raw e (raws es) end.

Section expr.
Context `{!FinshLayout, !Syscalls}.
Context (vars : list finsh_var).

(** ** Types *)

Definition ref_type (r : idref) : option finsh_type :=
  match r with
  | id_var i => var_type <$> vars !! i
  | id_sysvar v => Some (sv_type v)
  | _ => None
  end.
Definition ref_data (r : idref) : Z := default 0 (ref_type r ≫= type_data).
Definition ref_width (r : idref) : option width := ref_type r ≫= load_width.
(** The address of a variable's value. *)
Definition ref_at (r : idref) : Z :=
  match r with
  | id_var i => var_value_at i
  | id_sysvar v => sv_var v
  | id_syscall c => sc_func c
  | id_null => 0
  end.
(** The [data_type] the type check gives. *)
Fixpoint data_of (e : expr) : Z :=
  match e with
  | EChar _ => FINSH_DATA_TYPE_BYTE
  | EInt _ | ELong _ | EString _ | ENull => FINSH_DATA_TYPE_DWORD
  | EId r | EAssign r _ | EAddr r => ref_data r
  | EPre _ i | EPost _ i => ref_data (id_var i)
  | EBin _ a _ | ENot a | EStore a _ | EDeref a | ECall a _ => data_of a
  end.
(** How much of a stack slot its value fills. *)
Definition width_of_expr (e : expr) : option width :=
  match e with
  | EChar _ => Some BYTE
  | EInt _ | ELong _ | EString _ | ENull | EAddr _ | ECall _ _ => Some DWORD
  | EId (id_syscall _) => Some DWORD
  | EId r | EAssign r _ => ref_width r
  | EPre _ i | EPost _ i => ref_width (id_var i)
  | EBin _ a _ | ENot a | EStore a _ | EDeref a => data_width (data_of a)
  end.

(** [e] fills a width [w]. *)
Definition fills (e : expr) (w : width) : bool :=
  match width_of_expr e with Some w' => narrower w w' | None => false end.
Definition is_ref (r : idref) : bool := bool_decide (is_Some (ref_width r)).
Definition on_width (o : option width) (f : width → bool) : bool :=
  match o with Some w => f w | None => false end.
Fixpoint typed (e : expr) : bool :=
  match e with
  | EChar _ | EInt _ | ELong _ | EString _ | ENull => true
  | EId r => match r with id_syscall _ => true | _ => is_ref r end
  | EBin _ a b => typed a && typed b && on_width (data_width (data_of a)) (λ w, fills a w && fills b w)
  | ENot a => typed a && on_width (data_width (data_of a)) (fills a)
  | EAssign r a => is_ref r && typed a && on_width (ref_width r) (fills a)
  | EStore p a =>
      typed p && typed a && fills p DWORD && on_width (data_width (data_of p)) (fills a)
  | EPre _ i | EPost _ i => is_ref (id_var i)
  | EDeref p => typed p && fills p DWORD && bool_decide (is_Some (data_width (data_of p)))
  | EAddr r => is_ref r
  | ECall f args => typed f && fills f DWORD && typeds args && (Z.of_nat (count_args args) <=? 16)
  end
with typeds (es : exprs) : bool :=
  match es with ENil => true | ECons e es => typed e && fills e DWORD && typeds es end.

(** ** Evaluation *)

Definition m_load (w : width) (a : Z) : ST (list Z) Z :=
  m ← get; from_option_or FBounds (peek w m a).
Definition m_store (w : width) (a v : Z) : ST (list Z) unit :=
  m ← get; m' ← from_option_or FBounds (poke w m a v); modify (λ _, m').
Definition m_call (f : Z) (args : list Z) : ST (list Z) Z :=
  m ← get;
  '(m', r) ← from_option_or FNull (syscall_at f args m);
  modify (λ _, m');;
  mret r.
(** One added to or subtracted from a variable: the old value and the new. *)
Definition m_step (up : bool) (w : width) (a : Z) : ST (list Z) (Z * Z) :=
  x ← m_load w a;
  let y := view w (if up then x + 1 else x - 1) in
  m_store w a y;;
  mret (x, y).
Definition with_width {A} (o : option width) (f : width → ST (list Z) A) : ST (list Z) A :=
  match o with Some w => f w | None => fail FNull end.
Fixpoint eval (e : expr) : ST (list Z) Z :=
  match e with
  | EChar c => mret (u8 c)
  | EInt n | ELong n | EString n => mret (s32 n)
  | ENull => mret 0
  | EId r =>
      match r with
      | id_syscall c => mret (s32 (sc_func c))
      | _ => with_width (ref_width r) (λ w, m_load w (ref_at r))
      end
  | EBin op a b =>
      x ← eval a;
      y ← eval b;
      with_width (data_width (data_of a)) (λ w,
        r ← c_binop op (view w x) (view w y); mret (view w r))
  | ENot a =>
      x ← eval a; with_width (data_width (data_of a)) (λ w, mret (view w (Z.lnot (view w x))))
  | EAssign r a =>
      x ← eval a; with_width (ref_width r) (λ w, m_store w (ref_at r) x;; mret (view w x))
  | EStore p a =>
      q ← eval p;
      x ← eval a;
      with_width (data_width (data_of p)) (λ w, m_store w q x;; mret (view w x))
  | EPre up i => with_width (ref_width (id_var i)) (λ w, xy ← m_step up w (var_value_at i); mret (snd xy))
  | EPost up i => with_width (ref_width (id_var i)) (λ w, xy ← m_step up w (var_value_at i); mret (fst xy))
  | EDeref p => q ← eval p; with_width (data_width (data_of p)) (λ w, m_load w q)
  | EAddr r => mret (s32 (ref_at r))
  | ECall f args =>
      g ← eval f;
      xs ← evals args;
      r ← m_call (u32 g) (if bool_decide (xs = []) then [0] else xs);
      mret (s32 r)
  end
with evals (es : exprs) : ST (list Z) (list Z) :=
  match es with
  | ENil => mret []
  | ECons e es => x ← eval e; xs ← evals es; mret (u32 x :: xs)
  end.

(** ** Code *)

Definition code_ref (r : idref) (address : bool) : list Z :=
  match r with
  | id_syscall c => FINSH_OP_LD_DWORD :: dword (sc_func c)
  | _ =>
      match ref_width r with
      | Some w =>
          (if address then FINSH_OP_LD_DWORD else by_width w FINSH_OP_LD_VALUE_BYTE) :: dword (ref_at r)
      | None => []
      end
  end.
Definition code_update (data_type : Z) (f : width → list Z) : list Z :=
  match data_width data_type with Some w => f w | None => [] end.
Fixpoint code_expr (e : expr) : list Z :=
  match e with
  | EChar c => [FINSH_OP_LD_BYTE; u8 c]
  | EInt n | ELong n | EString n => FINSH_OP_LD_DWORD :: dword (u32 n)
  | ENull => FINSH_OP_LD_DWORD :: dword 0
  | EId r => code_ref r false
  | EBin op a b => code_expr a ++ code_expr b ++ code_op (data_of a) (FINSH_OP_BIN op)
  | ENot a => code_expr a ++ code_op (data_of a) FINSH_OP_BITWISE
  | EAssign r a => code_ref r true ++ code_expr a ++ code_store (ref_data r)
  | EStore p a => code_expr p ++ code_expr a ++ code_store (Z.land (data_of p) 15)
  | EPre up i =>
      code_ref (id_var i) true ++
      code_update (ref_data (id_var i)) (λ w,
        code_step w (var_value_at i) (step_op up) ++ [FINSH_OP_LD_VALUE_DWORD_STACK])
  | EPost up i =>
      code_ref (id_var i) false ++
      code_update (ref_data (id_var i)) (λ w,
        FINSH_OP_LD_DWORD :: dword (var_value_at i) ++
        code_step w (var_value_at i) (step_op up) ++ [FINSH_OP_POP])
  | EDeref p => code_expr p ++ code_op (data_of p) FINSH_OP_LD_VALUE_BYTE_STACK
  | EAddr r => code_ref r true
  | ECall f args =>
      code_expr f ++ code_exprs args ++ [FINSH_OP_SYSCALL; u8 (Z.of_nat (count_args args))]
  end
with code_exprs (es : exprs) : list Z :=
  match es with ENil => [] | ECons e es => code_expr e ++ code_exprs es end.

(** ** The compiler gives this code *)

Lemma data_ref r : leaf_type vars (set_idtype (idtype (id_data r)) (id_data r)) = ref_type r ≫= type_data.
Proof. by destruct r as [|i|v|c]. Qed.
Lemma check_id a r : a = 0 ∨ a = FINSH_IDTYPE_ADDRESS →
  let d := check_data vars a (id_data r) None in
  node_type d = FINSH_NODE_ID ∧ node_id d = r ∧ data_type d = ref_data r ∧
  code_id vars d = code_ref r (negb (a =? 0)).
Proof.
  intros Ha d. unfold d, check_data, leaf_type, id_type, ref_data, code_id, code_ref, ref_width.
  destruct r as [|i|v|c]; destruct Ha as [-> | ->]; simpl; try done.
  1,2: destruct (vars !! i) as [x|] eqn:Hx; [|simpl; rewrite ?Hx; by split_and!];
    change ((var_type <$> Some x) ≫= type_data) with (type_data (var_type x));
    change ((var_type <$> Some x) ≫= load_width) with (load_width (var_type x));
    destruct (type_data (var_type x)); split_and!; try done; simpl; rewrite ?Hx;
    unfold code_variable; by destruct (load_width _).
  all: destruct (type_data (sv_type v)); split_and!; try done; simpl; unfold code_variable; by destruct (load_width _).
Qed.

Lemma width_check a {A} (t : tree A) : width_of (check_tree vars a t) = width_of t.
Proof. revert a. induction t as [|i d c _ t IH]; intros a; [done|]. simpl. by rewrite IH. Qed.
Lemma arguments_check a {A} (t : tree A) : arguments (check_tree vars a t) = arguments t.
Proof. destruct t; [done|]. simpl. apply width_check. Qed.

(** What the type check and the compiler make of the tree of [e] with [s] next to it. *)
Definition compiles (e : expr) (s : tree unit) : Prop :=
  (∃ d, root_data (check_tree vars 0 (raw e s)) = Some d ∧ data_type d = data_of e) ∧
  code_tree vars (check_tree vars 0 (raw e s)) = code_expr e ++ code_tree vars (check_tree vars 0 s) ∧
  arguments (raw e s) = width_of s.

(** A node of an operator with the code of its children. *)
Lemma compiles_sys k (c s : tree unit) code dt : child_flag k 0 = 0 →
  (∃ d, root_data (check_tree vars 0 c) = Some d ∧ data_type d = dt) →
  code_tree vars (check_tree vars 0 c) = code →
  let t := check_tree vars 0 (Node tt (sys k) c s) in
  ∃ d dc, root_data t = Some d ∧ data_type d = dt ∧ node_type d = k ∧ idtype d = 0 ∧
    data_type dc = dt ∧
    code_tree vars t = code ++ code_node vars d (Some dc) (arguments c) ++ code_tree vars (check_tree vars 0 s).
Proof.
  intros Hk (dc & Hdc & Hdt) Hcode t. unfold t. cbn [check_tree sys node_type]. rewrite Hk.
  cbn [code_tree root_data]. rewrite Hdc, Hcode. exists (set_data_type (data_type dc) (set_idtype 0 (sys k))), dc.
  split_and!; try done. by rewrite arguments_check.
Qed.
Lemma compiles_all :
  (∀ e s, compiles e s) ∧
  (∀ es, code_tree vars (check_tree vars 0 (raws es)) = code_exprs es ∧ width_of (raws es) = count_args es).
Proof.
  apply expr_exprs_ind.
  - intros c s. split_and!; [by eexists| |done]. cbn -[u8]. unfold u8. by rewrite Z.mod_mod.
  - intros n s. by split_and!; [by eexists| |].
  - intros n s. by split_and!; [by eexists| |].
  - intros p s. by split_and!; [by eexists| |].
  - intros s. by split_and!; [by eexists| |].
  - intros r s. destruct (check_id 0 r ltac:(by left)) as (Hk & Hi & Hd & Hc).
    split_and!; [eexists; split; [done|exact Hd]| |done].
    cbn [raw check_tree code_tree root_data app]. unfold code_node. rewrite Hk, Hc. done.
  - intros op a IHa b IHb s. destruct (IHa (raw b Leaf)) as (Hda & Hca & _). destruct (IHb Leaf) as (_ & Hcb & _).
    assert (child_flag (binop_kind op) 0 = 0) as Hk by (by destruct op).
    destruct (compiles_sys _ _ s _ _ Hk Hda Hca) as (d & dc & Hd & Hdt & Hkd & _ & _ & Hc).
    split_and!; [by exists d| |done]. cbn [raw]. rewrite Hc, Hcb. cbn [code_expr check_tree code_tree]. rewrite app_nil_r, <- !app_assoc.
    do 3 f_equal. unfold code_node. rewrite Hkd. destruct op; cbn [binop_kind node_binop]; by rewrite Hdt.
  - intros a IHa s. destruct (IHa Leaf) as (Hda & Hca & _).
    destruct (compiles_sys FINSH_NODE_SYS_BITWISE _ s _ _ eq_refl Hda Hca) as (d & dc & Hd & Hdt & Hkd & _ & _ & Hc).
    split_and!; [by exists d| |done]. cbn [raw]. rewrite Hc. cbn [code_expr check_tree code_tree]. rewrite app_nil_r, <- !app_assoc.
    do 2 f_equal. unfold code_node. by rewrite Hkd, Hdt.
  - intros r a IHa s. destruct (IHa Leaf) as (_ & Hca & _). destruct (check_id FINSH_IDTYPE_ADDRESS r ltac:(by right)) as (Hk & Hi & Hd & Hc).
    split_and!; [eexists; split; [done|exact Hd]| |done].
    cbn [raw check_tree code_tree root_data app child_flag sys node_type].
    set (d := check_data vars FINSH_IDTYPE_ADDRESS (id_data r) None) in *. clearbody d. rewrite Hca. cbn [check_tree code_tree]. rewrite app_nil_r. unfold code_node at 1. rewrite Hk, Hc. cbn [code_expr].
    rewrite <- !app_assoc. do 3 f_equal. unfold code_node. cbn [check_data sys idtype set_idtype set_data_type node_type].
    unfold code_assign. by rewrite Hk, Hd.
  - intros p IHp a IHa s. destruct (IHp Leaf) as (Hdp & Hcp & _). destruct (IHa Leaf) as (_ & Hca & _).
    destruct Hdp as (dp & Hdp & Hdt).
    split_and!; [|..|done]; cbn [raw check_tree root_data code_tree child_flag sys node_type].
    + rewrite Hdp. by eexists.
    + rewrite Hdp, Hca. rewrite Hcp. cbn [check_tree code_tree]. rewrite !app_nil_r. cbn [code_expr]. rewrite <- !app_assoc.
      f_equal. change (code_node vars _ _ _) with ([] : list Z) at 1. cbn [app]. f_equal. f_equal.
      unfold code_node. cbn [check_data sys idtype set_idtype set_data_type node_type root_data code_assign data_type]. by rewrite Hdt.
  - intros up i s. destruct (check_id FINSH_IDTYPE_ADDRESS (id_var i) ltac:(by right)) as (Hk & Hi & Hd & Hc).
    assert (child_flag (if up then FINSH_NODE_SYS_PREINC else FINSH_NODE_SYS_PREDEC) 0 = FINSH_IDTYPE_ADDRESS) as Hf by (by destruct up).
    split_and!; [| |done]; cbn [raw check_tree code_tree root_data app sys node_type]; rewrite Hf.
    all: set (d := check_data vars _ (id_data (id_var i)) None) in *; clearbody d.
    + eexists. split; [done|exact Hd].
    + unfold code_node at 1. rewrite Hk, Hc, app_nil_r. cbn [code_expr]. rewrite <- app_assoc. f_equal. f_equal.
      unfold code_node, code_on_id, code_update. cbn [check_data sys idtype set_idtype set_data_type node_type data_type].
      rewrite Hk, Hi, Hd. by destruct up.
  - intros up i s. destruct (check_id 0 (id_var i) ltac:(by left)) as (Hk & Hi & Hd & Hc).
    assert (child_flag (if up then FINSH_NODE_SYS_INC else FINSH_NODE_SYS_DEC) 0 = 0) as Hf by (by destruct up).
    split_and!; [| |done]; cbn [raw check_tree code_tree root_data app sys node_type]; rewrite Hf.
    all: set (d := check_data vars _ (id_data (id_var i)) None) in *; clearbody d.
    + eexists. split; [done|exact Hd].
    + unfold code_node at 1. rewrite Hk, Hc, app_nil_r. cbn [code_expr]. rewrite <- app_assoc. f_equal. f_equal.
      unfold code_node, code_on_id, code_update. cbn [check_data sys idtype set_idtype set_data_type node_type data_type].
      rewrite Hk, Hi, Hd. by destruct up.
  - intros p IHp s. destruct (IHp Leaf) as (Hda & Hca & _).
    destruct (compiles_sys FINSH_NODE_SYS_GETVALUE _ s _ _ eq_refl Hda Hca) as (d & dc & Hd & Hdt & Hkd & Hid & _ & Hc).
    split_and!; [by exists d| |done]. cbn [raw]. rewrite Hc. cbn [code_expr check_tree code_tree]. rewrite app_nil_r, <- !app_assoc.
    do 2 f_equal. unfold code_node. by rewrite Hkd, Hdt, Hid.
  - intros r s. destruct (check_id FINSH_IDTYPE_ADDRESS r ltac:(by right)) as (Hk & Hi & Hd & Hc).
    split_and!; [eexists; split; [done|exact Hd]| |done].
    cbn [raw check_tree code_tree root_data app child_flag sys node_type].
    unfold code_node at 1. by rewrite Hk, Hc, app_nil_r.
  - intros f IHf args [IHargs IHw] s. destruct (IHf (raws args)) as (Hda & Hca & Har).
    destruct (compiles_sys FINSH_NODE_SYS_FUNC _ s _ _ eq_refl Hda Hca) as (d & dc & Hd & Hdt & Hkd & Hid & _ & Hc).
    split_and!; [by exists d| |done]. cbn [raw]. rewrite Hc, IHargs, Har, IHw. cbn [code_expr]. rewrite <- !app_assoc.
    do 3 f_equal. unfold code_node. by rewrite Hkd.
  - done.
  - intros e IHe es [IHes IHw]. destruct (IHe (raws es)) as (_ & Hc & Ha). cbn [raws code_exprs count_args].
    rewrite Hc, IHes. split; [done|]. rewrite <- IHw, <- Ha. by destruct e.
Qed.
Lemma compile_raw e s :
  code_tree vars (check_tree vars 0 (raw e s)) = code_expr e ++ code_tree vars (check_tree vars 0 s).
Proof. apply compiles_all. Qed.

(** ** Typed expressions compile without error *)

Lemma ref_known r : is_ref r = true → ∃ t w, ref_type r = Some t ∧ load_width t = Some w ∧
  ref_width r = Some w ∧ data_width (ref_data r) = Some w ∧ t ≠ finsh_type_unknown.
Proof.
  unfold is_ref. intros [w Hw]%bool_decide_eq_true. unfold ref_width, ref_data in *.
  destruct (ref_type r) as [t|] eqn:Ht; [|done]. exists t, w. split_and!; try done; simpl in *; by destruct t.
Qed.
Lemma id_ok_ref r : is_ref r = true → id_ok vars (id_data r) = true.
Proof.
  intros (t & w & Ht & Hl & _ & _ & Hu)%ref_known. unfold id_ok. simpl.
  destruct r as [|i|v|c]; try done; simpl in Ht.
  - destruct (vars !! i) as [x|]; [|done]. injection Ht as ->. by rewrite bool_decide_eq_false_2.
  - injection Ht as ->. by rewrite bool_decide_eq_false_2.
Qed.
Lemma narrower_refl w : narrower w w = true.
Proof. by destruct w. Qed.
Lemma raw_ids_all :
  (∀ e, typed e = true → ∀ s, ids_ok vars (raw e s) = ids_ok vars s ∧ shape_ok (raw e s) = shape_ok s) ∧
  (∀ es, typeds es = true → ids_ok vars (raws es) = true ∧ shape_ok (raws es) = true).
Proof.
  assert (∀ r, match r with id_syscall _ => true | _ => is_ref r end = true → id_ok vars (id_data r) = true) as Hid
    by (intros [|i|v|c] Hr; [done|by apply id_ok_ref..|done]).
  apply expr_exprs_ind; simpl; intros; split_and?; try done;
    repeat match goal with Ht : _ && _ = true |- _ => apply andb_true_iff in Ht as [? Ht] end;
    repeat match goal with
      | IH : typed ?a = true → ∀ s, _ ∧ _, Ht : typed ?a = true |- _ => specialize (IH Ht)
      | IH : typeds ?a = true → _ ∧ _, Ht : typeds ?a = true |- _ => specialize (IH Ht) as [? ?]
      end;
    repeat match goal with
      | IH : ∀ s, ids_ok vars (raw ?a s) = _ ∧ _ |- context [ids_ok vars (raw ?a ?t)] => rewrite (proj1 (IH t))
      | IH : ∀ s, _ ∧ shape_ok (raw ?a s) = _ |- context [shape_ok (raw ?a ?t)] => rewrite (proj2 (IH t))
      | Hi : ids_ok vars ?t = true |- context [ids_ok vars ?t] => rewrite Hi
      | Hi : shape_ok ?t = true |- context [shape_ok ?t] => rewrite Hi
      | Hr : is_ref ?r = true |- context [id_ok vars (id_data ?r)] => rewrite (id_ok_ref r Hr)
      | Hr : match ?r with _ => _ end = true |- _ => rewrite (Hid r Hr)
      end; rewrite ?andb_true_r; try done.
  - by destruct op.
  - by destruct op, (raw a (raw b Leaf)).
  - by destruct up.
  - by destruct up.
  - by destruct up.
  - by destruct up.
Qed.

Lemma later_none {A} (x : option A) : later None x = x.
Proof. by destruct x. Qed.
Lemma root_data_raw e s : ∃ d, root_data (check_tree vars 0 (raw e s)) = Some d ∧ data_type d = data_of e.
Proof. apply compiles_all. Qed.
Lemma node_error_other d c : match node_type d with
  | FINSH_NODE_SYS_ASSIGN | FINSH_NODE_UNKNOWN | FINSH_NODE_SYS_CAST => False | _ => True end → node_error d c = None.
Proof. unfold node_error. by destruct (node_type d). Qed.
Lemma error_node a d (c s : tree unit) : tree_error (check_tree vars a (Node tt d c s)) =
  let c' := check_tree vars (child_flag (node_type d) a) c in
  later (later (tree_error c') (node_error (check_data vars a d (root_data c')) (root_data c')))
    (tree_error (check_tree vars 0 s)).
Proof. done. Qed.
(** One node over children without error. *)
Lemma error_sys k a (c s : tree unit) :
  match k with FINSH_NODE_SYS_ASSIGN | FINSH_NODE_UNKNOWN | FINSH_NODE_SYS_CAST => False | _ => True end →
  tree_error (check_tree vars (child_flag k a) c) = None →
  tree_error (check_tree vars a (Node tt (sys k) c s)) = tree_error (check_tree vars 0 s).
Proof.
  intros Hk Hc. cbn [check_tree tree_error sys node_type]. rewrite Hc, node_error_other, !later_none; [done|].
  destruct (check_data_kept vars a (sys k) (root_data (check_tree vars (child_flag k a) c))) as (-> & _). done.
Qed.
Lemma error_id a r (s : tree unit) : a = 0 ∨ a = FINSH_IDTYPE_ADDRESS →
  tree_error (check_tree vars a (Node tt (id_data r) Leaf s)) = tree_error (check_tree vars 0 s).
Proof.
  intros Ha. cbn [check_tree tree_error root_data]. rewrite node_error_other, !later_none; [done|].
  by destruct (check_id a r Ha) as (-> & _).
Qed.
Lemma store_error_width dt w : data_width dt = Some w → store_error dt = None ∧ store_error (Z.land dt 15) = None.
Proof.
  unfold store_error, data_width. intros Hw.
  destruct (Z.eqb_spec dt FINSH_DATA_TYPE_BYTE) as [->|]; [done|].
  destruct (Z.eqb_spec dt FINSH_DATA_TYPE_WORD) as [->|]; [done|].
  by destruct (Z.eqb_spec dt FINSH_DATA_TYPE_DWORD) as [->|].
Qed.
Lemma raw_error_all :
  (∀ e, typed e = true → ∀ s, tree_error (check_tree vars 0 (raw e s)) = tree_error (check_tree vars 0 s)) ∧
  (∀ es, typeds es = true → tree_error (check_tree vars 0 (raws es)) = None).
Proof.
  apply expr_exprs_ind; cbn [typed typeds raw raws]; intros;
    repeat match goal with Ht : _ && _ = true |- _ => apply andb_true_iff in Ht as [? Ht] end;
    repeat match goal with
      | IH : typed ?a = true → ∀ s, _, Ht : typed ?a = true |- _ => specialize (IH Ht)
      | IH : typeds ?a = true → _, Ht : typeds ?a = true |- _ => specialize (IH Ht)
      end; try (by cbn; rewrite later_none); try (by apply error_id; auto).
  - assert (child_flag (binop_kind op) 0 = 0) as Hk by (by destruct op). apply error_sys; [by destruct op|].
    rewrite Hk. match goal with IH : ∀ s, tree_error (check_tree _ _ (raw a s)) = _ |- _ => rewrite IH end. auto.
  - apply error_sys; [done|]. auto.
  - rewrite error_node. cbn [sys node_type child_flag]. cbv zeta. rewrite error_id by auto.
    match goal with IH : ∀ s, tree_error (check_tree _ _ (raw a s)) = _ |- _ => rewrite IH end.
    cbn [tree_error check_tree root_data].
    destruct (check_id FINSH_IDTYPE_ADDRESS r ltac:(by right)) as (Hk & _ & Hd & _).
    match goal with Hr : is_ref r = true |- _ => destruct (ref_known r Hr) as (t & w & _ & _ & _ & Hw & _) end.
    set (d := check_data vars FINSH_IDTYPE_ADDRESS (id_data r) None) in *. clearbody d. cbn [root_data].
    unfold node_error. cbn [check_data sys idtype set_idtype set_data_type node_type data_type]. rewrite Hk, Hd.
    destruct (store_error_width _ _ Hw) as [-> _]. exact (later_none _).
  - cbn [check_tree tree_error sys node_type child_flag].
    match goal with IH : ∀ s, tree_error (check_tree _ _ (raw a s)) = _ |- _ => rewrite IH end.
    match goal with IH : ∀ s, tree_error (check_tree _ _ (raw p s)) = _ |- _ => rewrite IH end.
    cbn [tree_error check_tree]. destruct (root_data_raw p Leaf) as (d & Hd & Hdt). rewrite Hd. cbn [root_data].
    match goal with Hr : on_width _ _ = true |- _ => unfold on_width in Hr; destruct (data_width (data_of p)) as [w|] eqn:Hw; [|done] end.
    unfold node_error. cbn [check_data sys idtype set_idtype set_data_type node_type data_type]. rewrite Hdt.
    destruct (store_error_width _ _ Hw) as [_ ->]. exact (later_none _).
  - apply error_sys; [by destruct up|].
    destruct up; cbn [child_flag]; by rewrite error_id by auto.
  - apply error_sys; [by destruct up|].
    destruct up; cbn [child_flag]; by rewrite error_id by auto.
  - apply error_sys; [done|]. cbn [child_flag]. auto.
  - apply error_sys; [done|]. cbn [child_flag].
    match goal with IH : ∀ s, tree_error (check_tree _ _ (raw f s)) = _ |- _ => rewrite IH end. done.
  - done.
  - match goal with IH : ∀ s, tree_error (check_tree _ _ (raw e s)) = _ |- _ => rewrite IH end. done.
Qed.

(** ** Statements *)

(** Statements are a list of expressions, the last one's value the result. *)
Fixpoint code_statements (es : exprs) : list Z :=
  match es with
  | ENil => []
  | ECons e es =>
      code_expr e ++ match es with ENil => [] | _ => FINSH_OP_POP :: code_statements es end
  end.
Fixpoint all_typed (es : exprs) : bool :=
  match es with ENil => true | ECons e es => typed e && all_typed es end.
Fixpoint eval_statements (es : exprs) : ST (list Z) Z :=
  match es with
  | ENil => mret 0
  | ECons e es => x ← eval e; match es with ENil => mret x | _ => eval_statements es end
  end.
Fixpoint last_expr (e : expr) (es : exprs) : expr :=
  match es with ENil => e | ECons e es => last_expr e es end.

Lemma raw_node e : ∃ d c, ∀ s, raw e s = Node tt d c s.
Proof. destruct e; do 2 eexists; intros s; done. Qed.
Lemma code_program_raws es : code_program vars (check_tree vars 0 (raws es)) = code_statements es.
Proof.
  induction es as [|e es IH]; [done|]. cbn [raws code_statements]. destruct (raw_node e) as (d & c & Hr).
  pose proof (compile_raw e Leaf) as Hc. rewrite Hr in Hc |- *. cbn [check_tree code_program]. rewrite <- IH.
  cbn [check_tree] in Hc. rewrite Hc. cbn [code_tree]. rewrite app_nil_r. f_equal.
  destruct es as [|e' es]; [done|]. cbn [raws]. by destruct (raw_node e') as (d' & c' & ->).
Qed.
Lemma program_error_raws es : all_typed es = true → program_error (check_tree vars 0 (raws es)) = None.
Proof.
  induction es as [|e es IH]; [done|]. cbn [raws all_typed]. intros [He Hes]%andb_true_iff.
  destruct (raw_node e) as (d & c & Hr). pose proof (proj1 raw_error_all e He Leaf) as Hc. rewrite Hr in Hc |- *.
  cbn [check_tree program_error] in *. by rewrite Hc, (IH Hes).
Qed.
Lemma ids_raws es : all_typed es = true → ids_ok vars (raws es) = true ∧ shape_ok (raws es) = true.
Proof.
  induction es as [|e es IH]; [done|]. cbn [raws all_typed]. intros [He Hes]%andb_true_iff.
  destruct (proj1 raw_ids_all e He (raws es)) as [-> ->]. auto.
Qed.
End expr.

(** The table's tree has indices; nothing above looks at them. *)
Section strip.
Context `{!FinshLayout} (vars : list finsh_var) {A : Type}.
Implicit Types t : tree A.
Lemma strip_check a t : strip (check_tree vars a t) = check_tree vars a (strip t).
Proof.
  revert a. induction t as [|i d c IHc t IHt]; intros a; [done|]. cbn [check_tree strip].
  rewrite <- IHc, <- IHt. by destruct (check_tree vars (child_flag (node_type d) a) c).
Qed.
Lemma strip_facts t : root_data (strip t) = root_data t ∧ width_of (strip t) = width_of t ∧ arguments (strip t) = arguments t.
Proof.
  assert (∀ t, width_of (strip t) = width_of t) as Hw by (intros u; induction u as [|i d c _ u IH]; simpl; congruence).
  destruct t as [|i d c t]; split_and!; try done; simpl; by rewrite ?Hw.
Qed.
Lemma strip_code t : code_tree vars (strip t) = code_tree vars t ∧ tree_error (strip t) = tree_error t.
Proof.
  induction t as [|i d c [IHc IHc'] t [IHt IHt']]; [done|]. cbn [strip code_tree tree_error].
  destruct (strip_facts c) as (-> & _ & ->). rewrite IHc, IHt, IHc', IHt'. done.
Qed.
Lemma strip_program t : code_program vars (strip t) = code_program vars t ∧ program_error (strip t) = program_error t.
Proof.
  induction t as [|i d c _ t [IH IH']]; [done|]. destruct (strip_code (Node i d c Leaf)) as [Hc He].
  cbn [strip code_program program_error] in *. rewrite Hc, He, IH, IH'. split; [|done]. by destruct t.
Qed.
Lemma strip_ids t : ids_ok vars (strip t) = ids_ok vars t ∧ shape_ok (strip t) = shape_ok t.
Proof.
  induction t as [|i d c [IHc IHc'] t [IHt IHt']]; [done|]. cbn [strip ids_ok shape_ok].
  rewrite IHc, IHt, IHc', IHt'. split; [done|]. by destruct (node_type d), c.
Qed.
End strip.
