(* ===== verification/FinshCorrect.v ===== *)
(** * Compiled expressions compute their value

    The code of a typed expression, run by the virtual machine, leaves the value
    [eval] gives on the stack and memory as [eval] does, or stops at its fault;
    the slots below are kept. *)

From Stdlib Require Import ZArith Lia.
From stdpp Require Import base list.
From S2P Require Import RTThread.
From S2P Require Import Prelude.
From S2P Require Import Bytes.
From S2P Require Import FinshVm.
From S2P Require Import FinshVmSpec.
From S2P Require Import Finsh.
From S2P Require Import FinshCompile.
From S2P Require Import FinshCompileSpec.
From S2P Require Import FinshExpr.

(** ** Memory *)

Lemma le_bytes_mod n v : le_bytes n (v mod 256 ^ Z.of_nat n) = le_bytes n v.
Proof.
  revert v. induction n as [|n IH]; intros v; [done|]. cbn [le_bytes].
  rewrite Nat2Z.inj_succ, Z.pow_succ_r by lia. pose proof (Z.pow_pos_nonneg 256 (Z.of_nat n)).
  rewrite Z.rem_mul_r by lia. f_equal.
  - unfold u8. change (2 ^ 8) with 256. rewrite Z.mul_comm, Z.mod_add, Z.mod_mod by lia. done.
  - rewrite Z.mul_comm, Z.div_add by lia. rewrite (Z.div_small (v mod 256)) by (apply Z.mod_pos_bound; lia).
    rewrite Z.add_0_l. apply IH.
Qed.
Lemma le_bytes_width w v v' : v mod modulus w = v' mod modulus w →
  le_bytes (Z.to_nat (bytes_of w)) v = le_bytes (Z.to_nat (bytes_of w)) v'.
Proof.
  intros Hv. rewrite <- (le_bytes_mod _ v), <- (le_bytes_mod _ v').
  assert (256 ^ Z.of_nat (Z.to_nat (bytes_of w)) = modulus w) as -> by (by destruct w). by rewrite Hv.
Qed.
Lemma le_value_app xs ys : le_value (xs ++ ys) = le_value xs + 256 ^ zlen xs * le_value ys.
Proof.
  induction xs as [|x xs IH]; [simpl; change (zlen (@nil Z)) with 0; lia|].
  cbn [app le_value]. rewrite IH, zlen_cons, Z.pow_add_r by (pose proof (zlen_nonneg xs); lia). lia.
Qed.
Lemma peek_u32 w m a a' : u32 a = u32 a' → peek w m a = peek w m a'.
Proof. unfold peek. by intros ->. Qed.
Lemma poke_eq w m a a' v v' : u32 a = u32 a' → v mod modulus w = v' mod modulus w → poke w m a v = poke w m a' v'.
Proof. unfold poke. intros -> Hv. by rewrite (le_bytes_width w v v'). Qed.
Lemma peek_poke w m m' a v : poke w m a v = Some m' → peek w m' a = Some (view w v) ∧ zlen m' = zlen m.
Proof.
  unfold poke, peek, wr. pose proof (u32_range a). rewrite zlen_width.
  destruct (Z.leb_spec 0 (u32 a)); [|done]. destruct (Z.leb_spec (u32 a + bytes_of w) (zlen m)); [|done].
  assert (0 < bytes_of w) by (by destruct w).
  intros [= <-]. rewrite zlen_splice by (rewrite ?zlen_width; lia). split; [|done].
  rewrite rd_ok by (rewrite ?zlen_splice, ?zlen_width; rewrite ?zlen_width; lia).
  rewrite <- (zlen_width w v) at 2. rewrite slice_splice_same by (rewrite ?zlen_width; lia).
  simpl. unfold compose. rewrite le_value_width. f_equal. apply view_mod.
Qed.
Lemma peek_dword w m a v : peek w m a = Some v → u32 a + 4 ≤ zlen m →
  ∃ v', peek DWORD m a = Some v' ∧ v' mod modulus w = v mod modulus w.
Proof.
  unfold peek. intros Hp Hm. pose proof (u32_range a).
  rewrite rd_ok in Hp by (destruct w; simpl; lia). rewrite rd_ok by (simpl; lia).
  injection Hp as <-. eexists. split; [done|]. unfold compose. rewrite mod_view.
  assert (narrower w DWORD = true) as Hn by (by destruct w).
  rewrite <- (mod_narrower w DWORD (view _ _)), mod_view, mod_narrower by done.
  rewrite (slice_split m (u32 a) (bytes_of DWORD) (bytes_of w)) by (destruct w; simpl; lia).
  rewrite le_value_app, zlen_slice by (destruct w; simpl; lia). fold (modulus w).
  rewrite Z.mul_comm, Z.mod_add; [done|].
  pose proof (modulus_pos w). lia.
Qed.

(** ** Code in the text segment *)

Definition code_at (text : list Z) (pc : Z) (code : list Z) : Prop :=
  zlen text = FINSH_TEXT_MAX ∧ 0 ≤ pc ∧ pc + zlen code ≤ FINSH_TEXT_MAX ∧ slice text pc (zlen code) = code.
Lemma code_at_app text pc a b : code_at text pc (a ++ b) → code_at text pc a ∧ code_at text (pc + zlen a) b.
Proof.
  intros (Ht & H0 & Hl & Hs). rewrite zlen_app in Hl, Hs. pose proof (zlen_nonneg a). pose proof (zlen_nonneg b).
  rewrite (slice_split text pc _ (zlen a)) in Hs by lia. replace (zlen a + zlen b - zlen a) with (zlen b) in Hs by lia.
  apply app_inj_1 in Hs as [Ha Hb].
  2:{ apply Nat2Z.inj. change (zlen (slice text pc (zlen a)) = zlen a). apply zlen_slice; lia. }
  split; split_and!; done || lia.
Qed.
Lemma code_at_cons text pc x b : code_at text pc (x :: b) → code_at text pc [x] ∧ code_at text (pc + 1) b.
Proof. apply (code_at_app text pc [x] b). Qed.

(** ** Slots *)

(** The slot at [n] holds a value as wide as [w]. *)
Definition top (st : list Z) (n : nat) (w : width) (v : Z) : Prop :=
  ∃ x, st !! n = Some x ∧ x mod modulus w = v mod modulus w.
Definition put_top (st : list Z) (n : nat) (w : width) (v : Z) : list Z :=
  <[n := put_in w (default 0 (st !! n)) v]> st.
Lemma length_put_top st n w v : length (put_top st n w v) = length st.
Proof. apply length_insert. Qed.
Lemma take_put_top st n k w v : (n ≤ k)%nat → take n (put_top st k w v) = take n st.
Proof. intros. unfold put_top. apply take_insert_ge. lia. Qed.
Lemma lookup_take_eq (st st' : list Z) n k : take n st' = take n st → (k < n)%nat → st' !! k = st !! k.
Proof. intros Ht Hk. by rewrite <- (lookup_take_lt st' n k), Ht, lookup_take_lt. Qed.
Lemma top_put_top st n w v : (n < length st)%nat → top (put_top st n w v) n w v.
Proof. intros Hn. eexists. split; [by apply list_lookup_insert_eq|]. apply put_mod. Qed.
Lemma top_put_other st n k w w' v v' : n ≠ k → top st n w v → top (put_top st k w' v') n w v.
Proof. intros Hn (x & Hx & Hv). exists x. unfold put_top. by rewrite list_lookup_insert_ne by done. Qed.
Lemma top_same st st' n k w v : take n st' = take n st → (k < n)%nat → top st k w v → top st' k w v.
Proof. intros Ht Hk (x & Hx & Hv). exists x. by rewrite (lookup_take_eq st st' n k). Qed.
Lemma top_narrow st n w w' v : narrower w w' = true → top st n w' v → top st n w v.
Proof.
  intros Hn (x & Hx & Hv). exists x. split; [done|].
  by rewrite <- (mod_narrower w w' x), <- (mod_narrower w w' v), Hv by done.
Qed.
Lemma top_view st n w v v' : v mod modulus w = v' mod modulus w → top st n w v → top st n w v'.
Proof. intros Hv (x & Hx & Hx'). exists x. split; [done|congruence]. Qed.

(** ** Operations *)

Section ops.
Context `{!Syscalls}.
Notation at_ st n text pc m := (mk_vm st (Z.of_nat n) text pc m).

Lemma run_op st sp text pc m op f : code_at text pc [op] → 0 ≤ op →
  op_table !! Z.to_nat op = Some f →
  run (mk_vm st sp text pc m) = (f;; run) (mk_vm st sp text (pc + 1) m).
Proof.
  intros (Ht & H0 & Hl & Hs) Hop Hf. change (zlen [op]) with 1 in Hl, Hs. rewrite run_step by (simpl; lia).
  unfold vm_step. rewrite bind_assoc.
  rewrite (bind_ok _ _ _ _ _ (pc_value_ok 1 (mk_vm st sp text pc m) [op] eq_refl H0 ltac:(simpl; lia) Hs)).
  rewrite bind_assoc. change (le_value [op]) with (op + 256 * 0). rewrite Z.add_0_r.
  change ((move_pc 1 ≫= ?k) (mk_vm st sp text pc m)) with (k tt (mk_vm st sp text (pc + 1) m)). cbv beta.
  by rewrite (nth_lookup_Some _ _ _ _ Hf).
Qed.
Lemma by_width_nonneg w o : 0 ≤ o → 0 ≤ by_width w o.
Proof. unfold by_width. destruct w; lia. Qed.

Lemma sp_top (st : list Z) n k text pc m w v x : st !! (n - k)%nat = Some x → x mod modulus w = v mod modulus w → (k ≤ n)%nat →
  sp_value w (Z.of_nat k) (at_ st n text pc m) = Ok (at_ st n text pc m) (view w v).
Proof.
  intros Hx Hv Hk. erewrite sp_value_ok; [by rewrite (view_eq w x v)|simpl; lia|].
  simpl. replace (Z.to_nat (Z.of_nat n - Z.of_nat k)) with (n - k)%nat by lia. done.
Qed.
Lemma set_sp_top (st : list Z) n k text pc m w v : (k ≤ n)%nat → (n - k < length st)%nat →
  set_sp_value w (Z.of_nat k) v (at_ st n text pc m) = Ok (at_ (put_top st (n - k) w v) n text pc m) tt.
Proof.
  intros Hk Hn. destruct (lookup_lt_is_Some_2 st (n - k) Hn) as [x Hx].
  erewrite set_sp_value_ok; [|simpl; lia|].
  - unfold put_top. rewrite Hx. simpl. replace (Z.to_nat (Z.of_nat n - Z.of_nat k)) with (n - k)%nat by lia. done.
  - simpl. replace (Z.to_nat (Z.of_nat n - Z.of_nat k)) with (n - k)%nat by lia. done.
Qed.
Lemma pc_value_at st sp text pc m code : code_at text pc code →
  pc_value (zlen code) (mk_vm st sp text pc m) = Ok (mk_vm st sp text pc m) (le_value code).
Proof. intros (Ht & H0 & Hl & Hs). apply pc_value_ok; simpl; done || lia. Qed.

Lemma run_ld w v st n text pc m :
  code_at text pc (by_width w FINSH_OP_LD_BYTE :: le_bytes (Z.to_nat (bytes_of w)) v) → (n < length st)%nat →
  run (at_ st n text pc m) = run (at_ (put_top st n w v) (n + 1) text (pc + 1 + bytes_of w) m).
Proof.
  intros [Ho Hc]%code_at_cons Hn. rewrite (run_op _ _ _ _ _ _ (OP_ld w) Ho) by (destruct w; done).
  unfold OP_ld. rewrite !bind_assoc. rewrite <- (zlen_width w v) at 1.
  rewrite (bind_ok _ _ _ _ _ (pc_value_at _ _ _ _ _ _ Hc)). rewrite le_value_width. cbv beta. rewrite !bind_assoc.
  pose proof (set_sp_top st n 0 text (pc + 1) m w (v mod modulus w) ltac:(lia) ltac:(lia)) as Hs.
  rewrite Nat.sub_0_r in Hs. change (Z.of_nat 0) with 0 in Hs. rewrite (bind_ok _ _ _ _ _ Hs).
  unfold put_top, put_in. rewrite Z.mod_mod by (pose proof (modulus_pos w); lia).
  unfold mbind, ST_bind, move_sp, move_pc, modify. simpl. by rewrite Nat2Z.inj_add.
Qed.
Lemma run_ld_value w a st n text pc m :
  code_at text pc (by_width w FINSH_OP_LD_VALUE_BYTE :: dword a) → (n < length st)%nat →
  run (at_ st n text pc m) =
    match peek w m a with
    | Some v => run (at_ (put_top st n w v) (n + 1) text (pc + 5) m)
    | None => Err FBounds
    end.
Proof.
  intros [Ho Hc]%code_at_cons Hn. rewrite (run_op _ _ _ _ _ _ (OP_ld_value w) Ho) by (destruct w; done).
  unfold OP_ld_value. rewrite !bind_assoc.
  rewrite (bind_ok _ _ _ _ _ (pc_value_at _ _ _ _ _ _ Hc)). cbv beta. rewrite !bind_assoc.
  unfold vm_load. rewrite !bind_assoc, get_bind. cbn [vm_memory].
  rewrite (peek_u32 w m (le_value (dword a)) a) by (unfold dword; rewrite le_value_bytes; by apply Z.mod_mod).
  destruct (peek w m a) as [v|]; [|done]. rewrite some_bind. rewrite !bind_assoc.
  pose proof (set_sp_top st n 0 text (pc + 1) m w v ltac:(lia) ltac:(lia)) as Hs.
  rewrite Nat.sub_0_r in Hs. change (Z.of_nat 0) with 0 in Hs. rewrite (bind_ok _ _ _ _ _ Hs).
  unfold mbind, ST_bind, move_sp, move_pc, modify. simpl. rewrite Nat2Z.inj_add. by rewrite <- Z.add_assoc.
Qed.
Lemma c_binop_state {S S'} op a b (s : S) (s' : S') :
  c_binop op a b s = match c_binop op a b s' with Ok _ r => Ok s r | Err e => Err e end.
Proof. unfold c_binop. destruct op; try done; by destruct (_ : bool). Qed.
Lemma move_back st n k text pc m : (k ≤ n)%nat →
  (move_sp (- Z.of_nat k);; run) (at_ st n text pc m) = run (at_ st (n - k) text pc m).
Proof.
  intros Hk. unfold mbind, ST_bind, move_sp, modify. simpl. by replace (Z.of_nat n + - Z.of_nat k) with (Z.of_nat (n - k)) by lia.
Qed.
Lemma run_bin w op st n text pc m x y : code_at text pc [by_width w (FINSH_OP_BIN op)] →
  top st n w x → top st (n + 1) w y →
  run (at_ st (n + 2) text pc m) =
    match c_binop op (view w x) (view w y) m with
    | Ok _ r => run (at_ (put_top st n w r) (n + 1) text (pc + 1) m)
    | Err e => Err e
    end.
Proof.
  intros Ho (x' & Hx & Hxv) (y' & Hy & Hyv).
  rewrite (run_op _ _ _ _ _ _ (OP_BIN w op) Ho) by (destruct op, w; done).
  unfold OP_BIN. rewrite !bind_assoc.
  erewrite (bind_ok (sp_value w 2)) by (apply (sp_top st (n + 2) 2 _ _ _ _ x x'); [by replace (n + 2 - 2)%nat with n by lia|done|lia]).
  cbv beta. rewrite !bind_assoc.
  erewrite (bind_ok (sp_value w 1)) by (apply (sp_top st (n + 2) 1 _ _ _ _ y y'); [by replace (n + 2 - 1)%nat with (n + 1)%nat by lia|done|lia]).
  cbv beta. rewrite !bind_assoc. unfold mbind at 1, ST_bind at 1. rewrite (c_binop_state op _ _ _ m).
  destruct (c_binop op (view w x) (view w y) m) as [? r|]; [|done]. rewrite !bind_assoc.
  apply lookup_lt_Some in Hx.
  rewrite (bind_ok _ _ _ _ _ (set_sp_top st (n + 2) 2 text (pc + 1) m w r ltac:(lia) ltac:(lia))).
  replace (n + 2 - 2)%nat with n by lia. rewrite (move_back _ (n + 2) 1) by lia. by replace (n + 2 - 1)%nat with (n + 1)%nat by lia.
Qed.
Lemma run_bw w st n text pc m x : code_at text pc [by_width w FINSH_OP_BITWISE] → top st n w x →
  run (at_ st (n + 1) text pc m) = run (at_ (put_top st n w (Z.lnot (view w x))) (n + 1) text (pc + 1) m).
Proof.
  intros Ho (x' & Hx & Hxv). rewrite (run_op _ _ _ _ _ _ (OP_bw w) Ho) by (destruct w; done).
  unfold OP_bw. rewrite !bind_assoc.
  erewrite (bind_ok (sp_value w 1)) by (apply (sp_top st (n + 1) 1 _ _ _ _ x x'); [by replace (n + 1 - 1)%nat with n by lia|done|lia]).
  apply lookup_lt_Some in Hx. cbv beta.
  rewrite (bind_ok _ _ _ _ _ (set_sp_top st (n + 1) 1 text (pc + 1) m w _ ltac:(lia) ltac:(lia))).
  by replace (n + 1 - 1)%nat with n by lia.
Qed.
Lemma run_st w st n text pc m a v : code_at text pc [by_width w FINSH_OP_ST_BYTE] →
  top st n DWORD a → top st (n + 1) w v →
  run (at_ st (n + 2) text pc m) =
    match poke w m a v with
    | Some m' => run (at_ st (n + 1) text (pc + 1) m')
    | None => Err FBounds
    end.
Proof.
  intros Ho (x & Hx & Hxv) (y & Hy & Hyv). rewrite (run_op _ _ _ _ _ _ (OP_st w) Ho) by (destruct w; done).
  unfold OP_st. rewrite !bind_assoc.
  erewrite (bind_ok (sp_value DWORD 2)) by (apply (sp_top st (n + 2) 2 _ _ _ _ a x); [by replace (n + 2 - 2)%nat with n by lia|done|lia]).
  cbv beta. rewrite !bind_assoc.
  erewrite (bind_ok (sp_value w 1)) by (apply (sp_top st (n + 2) 1 _ _ _ _ v y); [by replace (n + 2 - 1)%nat with (n + 1)%nat by lia|done|lia]).
  cbv beta. unfold vm_store. rewrite !bind_assoc, get_bind. cbn [vm_memory].
  rewrite (poke_eq w m (view DWORD a) a (view w v) v) by (apply u32_view || apply mod_view).
  destruct (poke w m a v) as [m'|]; [|done]. rewrite !bind_assoc, some_bind.
  change ((modify (set_memory m') ≫= ?k) (at_ st (n + 2) text (pc + 1) m)) with (k tt (at_ st (n + 2) text (pc + 1) m')).
  cbv beta. rewrite (move_back _ (n + 2) 1) by lia. by replace (n + 2 - 1)%nat with (n + 1)%nat by lia.
Qed.
Lemma run_ld_stack w st n text pc m a : code_at text pc [by_width w FINSH_OP_LD_VALUE_BYTE_STACK] →
  top st n DWORD a →
  run (at_ st (n + 1) text pc m) =
    match peek w m a with
    | Some v => run (at_ (put_top st n w v) (n + 1) text (pc + 1) m)
    | None => Err FBounds
    end.
Proof.
  intros Ho (x & Hx & Hxv). rewrite (run_op _ _ _ _ _ _ (OP_ld_value_stack w) Ho) by (destruct w; done).
  unfold OP_ld_value_stack. rewrite !bind_assoc.
  erewrite (bind_ok (sp_value DWORD 1)) by (apply (sp_top st (n + 1) 1 _ _ _ _ a x); [by replace (n + 1 - 1)%nat with n by lia|done|lia]).
  cbv beta. unfold vm_load. rewrite !bind_assoc, get_bind. cbn [vm_memory].
  rewrite (peek_u32 w m (view DWORD a) a) by apply u32_view.
  destruct (peek w m a) as [v|]; [|done]. rewrite some_bind. apply lookup_lt_Some in Hx.
  rewrite (bind_ok _ _ _ _ _ (set_sp_top st (n + 1) 1 text (pc + 1) m w v ltac:(lia) ltac:(lia))).
  by replace (n + 1 - 1)%nat with n by lia.
Qed.
Lemma run_pop st n text pc m : code_at text pc [FINSH_OP_POP] →
  run (at_ st (n + 1) text pc m) = run (at_ st n text (pc + 1) m).
Proof.
  intros Ho. rewrite (run_op _ _ _ _ _ _ OP_pop Ho) by done. unfold OP_pop.
  rewrite (move_back _ (n + 1) 1) by lia. by replace (n + 1 - 1)%nat with n by lia.
Qed.

(** The parameters at [n + 1], ..., [n + k]. *)
Lemma take_parameters_ok st n text pc m k : ∀ l, (k ≤ length l)%nat → (k ≤ 16)%nat → (n + k < length st)%nat →
  ∃ l', take_parameters k l (at_ st (n + k) text pc m) = Ok (at_ st n text pc m) l' ∧ length l' = length l ∧
    (∀ j x, (j < k)%nat → st !! (n + 1 + j)%nat = Some x → l' !! j = Some (u32 x)) ∧
    (∀ j, (k ≤ j)%nat → l' !! j = l !! j).
Proof.
  induction k as [|k IH]; intros l Hl H16 Hn.
  { exists l. rewrite Nat.add_0_r. split_and!; [done..|lia|done]. }
  destruct (lookup_lt_is_Some_2 st (n + S k) Hn) as [x Hx].
  destruct (IH (<[k := u32 x]> l)) as (l' & Ht & Hlen & Hin & Hout); [rewrite length_insert; lia|lia..|].
  exists l'. rewrite length_insert in Hlen. split_and!; [|done|..].
  - cbn [take_parameters].
    erewrite (bind_ok (sp_value DWORD 0)) by (apply (sp_top st (n + S k) 0 _ _ _ _ x x); [by rewrite Nat.sub_0_r|done|lia]).
    cbv beta. rewrite (proj2 (Z.leb_gt _ _)) by lia.
    assert (∀ A (f : VM A), (move_sp (-1);; f) (at_ st (n + S k) text pc m) = f (at_ st (n + k) text pc m)) as Hm.
    { intros A f. unfold mbind, ST_bind, move_sp, modify. simpl.
      by replace (Z.of_nat (n + S k) + -1) with (Z.of_nat (n + k)) by lia. }
    rewrite Hm, u32_view. exact Ht.
  - intros j y Hj Hy. destruct (decide (j = k)) as [->|]; [|apply Hin; [lia|done]].
    rewrite Hout by lia. replace (n + 1 + k)%nat with (n + S k)%nat in Hy by lia. rewrite Hx in Hy. injection Hy as <-.
    apply list_lookup_insert_eq. lia.
  - intros j Hj. rewrite Hout by lia. apply list_lookup_insert_ne. lia.
Qed.
End ops.

Section call.
Context `{!Syscalls}.
Notation at_ st n text pc m := (mk_vm st (Z.of_nat n) text pc m).

Definition holds_args (st : list Z) (n : nat) (xs : list Z) : Prop :=
  ∀ j v, xs !! j = Some v → ∃ x, st !! (n + j)%nat = Some x ∧ u32 x = v.
Lemma OP_call_ok st n text pc m g xs : code_at text pc [u8 (zlen xs)] → zlen xs ≤ 16 →
  (n + length xs < length st)%nat → top st n DWORD g → holds_args st (n + 1) xs →
  OP_call (at_ st (n + 1 + length xs) text pc m) =
    match syscall_at (u32 g) (if bool_decide (xs = []) then [0] else xs) m with
    | Some (m', r) => Ok (at_ (put_top st n DWORD r) (n + 1) text (pc + 1) m') tt
    | None => Err FNull
    end.
Proof.
  intros Hc H16 Hn (x & Hx & Hxv) Hargs. pose proof (zlen_nonneg xs). unfold OP_call.
  rewrite (bind_ok _ _ _ _ _ (pc_value_at _ _ _ _ _ _ Hc)). cbv beta.
  assert (u8 (zlen xs) = zlen xs) as Hu by (apply Z.mod_small; lia).
  change (le_value [u8 (zlen xs)]) with (u8 (zlen xs) + 256 * 0). rewrite Hu, Z.add_0_r.
  assert (∀ A (f : VM A), (move_pc 1;; move_sp (-1);; f) (at_ st (n + 1 + length xs) text pc m) =
    f (at_ st (n + length xs) text (pc + 1) m)) as Hm.
  { intros A f. unfold mbind, ST_bind, move_sp, move_pc, modify. simpl.
    by replace (Z.of_nat (n + 1 + length xs) + -1) with (Z.of_nat (n + length xs)) by lia. }
  rewrite Hm. change (Z.to_nat (zlen xs)) with (Z.to_nat (Z.of_nat (length xs))). rewrite Nat2Z.id.
  destruct (take_parameters_ok st n text (pc + 1) m (length xs) (replicate 16 0)) as (l' & Ht & Hl' & Hin & _);
    [rewrite length_replicate; unfold zlen in *; lia|unfold zlen in *; lia|done|].
  rewrite (bind_ok _ _ _ _ _ Ht). cbv beta.
  erewrite (bind_ok (sp_value DWORD 0)) by (apply (sp_top st n 0 _ _ _ _ g x); [by rewrite Nat.sub_0_r|done|lia]).
  cbv beta.
  assert (take (length xs) l' = xs) as Htake.
  { apply list_eq. intros j. destruct (decide (j < length xs)%nat) as [Hj|Hj].
    - rewrite lookup_take_lt by done. destruct (lookup_lt_is_Some_2 xs j Hj) as [v Hv]. rewrite Hv.
      destruct (Hargs j v Hv) as (y & Hy & <-). by apply Hin.
    - rewrite lookup_take_ge by lia. symmetry. apply lookup_ge_None. lia. }
  assert ((if zlen xs =? 0 then invoke (view DWORD g) [0]
           else if zlen xs <=? 16 then invoke (view DWORD g) (take (length xs) l') else mret 0)
          = invoke (view DWORD g) (if bool_decide (xs = []) then [0] else xs)) as ->.
  { rewrite Htake. destruct xs as [|y xs]; [done|]. rewrite bool_decide_eq_false_2 by done.
    rewrite (proj2 (Z.eqb_neq _ _)) by (rewrite zlen_cons; pose proof (zlen_nonneg xs); lia).
    by rewrite (proj2 (Z.leb_le _ _)) by lia. }
  unfold invoke. rewrite bind_assoc, get_bind. cbn [vm_memory]. rewrite u32_view.
  destruct (syscall_at _ _ m) as [[m' r]|]; [|done]. rewrite bind_assoc, some_bind.
  change ((modify (set_memory m') ;; mret r) ≫= ?f) with ((modify (set_memory m') ;; mret r) ≫= f).
  pose proof (set_sp_top st n 0 text (pc + 1) m' DWORD r ltac:(lia) ltac:(lia)) as Hs.
  rewrite Nat.sub_0_r in Hs. change (Z.of_nat 0) with 0 in Hs.
  change (((modify (set_memory m');; mret r) ≫= ?f) (at_ st n text (pc + 1) m)) with (f r (at_ st n text (pc + 1) m')).
  cbv beta. rewrite (bind_ok _ _ _ _ _ Hs). unfold move_sp, modify. simpl. by rewrite Nat2Z.inj_add.
Qed.
Lemma run_call st n text pc m g xs : code_at text pc [FINSH_OP_SYSCALL; u8 (zlen xs)] → zlen xs ≤ 16 →
  (n + length xs < length st)%nat → top st n DWORD g → holds_args st (n + 1) xs →
  run (at_ st (n + 1 + length xs) text pc m) =
    match syscall_at (u32 g) (if bool_decide (xs = []) then [0] else xs) m with
    | Some (m', r) => run (at_ (put_top st n DWORD r) (n + 1) text (pc + 2) m')
    | None => Err FNull
    end.
Proof.
  intros [Ho Hc]%code_at_cons H16 Hn Hx Hargs. rewrite (run_op _ _ _ _ _ _ OP_call Ho) by done.
  pose proof (OP_call_ok st n text (pc + 1) m g xs Hc H16 Hn Hx Hargs) as Hop.
  destruct (syscall_at _ _ m) as [[m' r]|].
  - rewrite (bind_ok _ _ _ _ _ Hop). by replace (pc + 2) with (pc + 1 + 1) by lia.
  - by rewrite (bind_err _ _ _ _ Hop).
Qed.
End call.

(** ** Expressions *)

(** The slots an expression needs above the ones in use. *)
Fixpoint need (e : expr) : nat :=
  match e with
  | EChar _ | EInt _ | ELong _ | EString _ | ENull | EId _ | EAddr _ => 1
  | EBin _ a b => Nat.max (need a) (S (need b))
  | ENot a | EDeref a => need a
  | EAssign _ a => S (need a)
  | EStore p a => Nat.max (need p) (S (need a))
  | EPre _ _ => 3
  | EPost _ _ => 4
  | ECall f args => Nat.max (need f) (S (needs args))
  end
with needs (es : exprs) : nat :=
  match es with ENil => 0 | ECons e es => Nat.max (need e) (S (needs es)) end.

Fixpoint nodes (e : expr) : nat :=
  match e with
  | EChar _ | EInt _ | ELong _ | EString _ | ENull | EId _ => 1
  | EBin _ a b => S (nodes a + nodes b)
  | ENot a | EDeref a => S (nodes a)
  | EAssign _ a => S (S (nodes a))
  | EStore p a => S (S (nodes p + nodes a))
  | EPre _ _ | EPost _ _ | EAddr _ => 2
  | ECall f args => S (nodes f + nodes_all args)
  end
with nodes_all (es : exprs) : nat :=
  match es with ENil => 0 | ECons e es => nodes e + nodes_all es end.

Section correct.
Context `{!FinshLayout, !Syscalls} (vars : list finsh_var) (size : Z).
Notation at_ st n text pc m := (mk_vm st (Z.of_nat n) text pc m).

(** Functions leave the memory its size; the variables lie in it. *)
Definition calls_keep_size : Prop := ∀ f args m m' r,
  syscall_at f args m = Some (m', r) → zlen m' = zlen m.
Definition variables_in_memory : Prop :=
  Z.of_nat (length vars) ≤ FINSH_VARIABLE_MAX ∧ 0 ≤ variables_at ∧
  variables_at + FINSH_VARIABLE_MAX * sizeof_finsh_var ≤ size ∧ size ≤ 2 ^ 32.
Context (Hcalls : calls_keep_size) (Hvars : variables_in_memory).

Lemma var_address i : is_Some (vars !! i) → 0 ≤ var_value_at i ∧ var_value_at i + 4 ≤ size ∧
  u32 (var_value_at i) = var_value_at i.
Proof.
  intros Hi%lookup_lt_is_Some_1. destruct Hvars as (Hl & Hv0 & Hs & Hz).
  unfold var_value_at, var_at, sizeof_finsh_var, value_offset, FINSH_VARIABLE_MAX in *.
  split_and!; [lia..|apply u32_small; lia].
Qed.

(** [code] computes [ev] into the slot above, with room for [k]. *)
Definition computes (code : list Z) (k : nat) (w : width) (ev : ST (list Z) Z) : Prop :=
  ∀ st n text pc m, length st = 64%nat → (n + k ≤ 64)%nat → code_at text pc code → zlen m = size →
  match ev m with
  | Ok m' v => ∃ st', run (at_ st n text pc m) = run (at_ st' (n + 1) text (pc + zlen code) m') ∧
      length st' = 64%nat ∧ take n st' = take n st ∧ top st' n w v ∧ zlen m' = size
  | Err e => run (at_ st n text pc m) = Err e
  end.
Definition computes_all (code : list Z) (k : nat) (ev : ST (list Z) (list Z)) (len : nat) : Prop :=
  ∀ st n text pc m, length st = 64%nat → (n + k ≤ 64)%nat → code_at text pc code → zlen m = size →
  match ev m with
  | Ok m' xs => ∃ st', run (at_ st n text pc m) = run (at_ st' (n + len) text (pc + zlen code) m') ∧
      length st' = 64%nat ∧ take n st' = take n st ∧ length xs = len ∧ holds_args st' n xs ∧ zlen m' = size
  | Err e => run (at_ st n text pc m) = Err e
  end.

Lemma computes_dword v x : u32 x = u32 v → computes (FINSH_OP_LD_DWORD :: dword x) 1 DWORD (mret v).
Proof.
  intros Hv st n text pc m Hst Hn Hc Hm. simpl. pose proof (run_ld DWORD x st n text pc m Hc ltac:(lia)) as Hr.
  rewrite <- Z.add_assoc in Hr. eexists. split; [exact Hr|]. rewrite length_put_top, take_put_top by done. split_and!; try done.
  eapply top_view; [|apply top_put_top; lia]. exact Hv.
Qed.
Lemma computes_byte c : computes [FINSH_OP_LD_BYTE; u8 c] 1 BYTE (mret (u8 c)).
Proof.
  intros st n text pc m Hst Hn Hc Hm. simpl.
  assert (code_at text pc (by_width BYTE FINSH_OP_LD_BYTE :: le_bytes (Z.to_nat (bytes_of BYTE)) (u8 c))) as Hc'.
  { replace (le_bytes (Z.to_nat (bytes_of BYTE)) (u8 c)) with [u8 c]; [done|]. simpl. unfold u8. by rewrite Z.mod_mod. }
  pose proof (run_ld BYTE (u8 c) st n text pc m Hc' ltac:(lia)) as Hr.
  rewrite <- Z.add_assoc in Hr. eexists. split; [exact Hr|]. rewrite length_put_top, take_put_top by done. split_and!; try done.
  apply top_put_top. lia.
Qed.
Lemma computes_load w a : computes (by_width w FINSH_OP_LD_VALUE_BYTE :: dword a) 1 w (m_load w a).
Proof.
  intros st n text pc m Hst Hn Hc Hm. pose proof (run_ld_value w a st n text pc m Hc ltac:(lia)) as Hr.
  unfold m_load. rewrite get_bind. destruct (peek w m a) as [v|]; [|exact Hr]. simpl.
  eexists. split; [exact Hr|]. rewrite length_put_top, take_put_top by done. split_and!; try done.
  apply top_put_top. lia.
Qed.
Lemma computes_width code k w w' ev : narrower w w' = true → computes code k w' ev → computes code k w ev.
Proof.
  intros Hn Hc st n text pc m Hst Hk Hcode Hm. specialize (Hc st n text pc m Hst Hk Hcode Hm).
  destruct (ev m) as [m' v|]; [|done]. destruct Hc as (st' & Hr & Hl & Ht & Htop & Hz).
  exists st'. split_and!; try done. by eapply top_narrow.
Qed.
(** An operand, then code on its value. *)
Lemma computes_then code code2 k w w2 ev (f : Z → ST (list Z) Z) :
  computes code k w ev →
  (∀ v st n text pc m, (∃ m0 m1, ev m0 = Ok m1 v) →
     length st = 64%nat → (n + k ≤ 64)%nat → code_at text pc code2 → zlen m = size →
     top st n w v →
     match f v m with
     | Ok m' x => ∃ st', run (at_ st (n + 1) text pc m) = run (at_ st' (n + 1) text (pc + zlen code2) m') ∧
         length st' = 64%nat ∧ take n st' = take n st ∧ top st' n w2 x ∧ zlen m' = size
     | Err e => run (at_ st (n + 1) text pc m) = Err e
     end) →
  computes (code ++ code2) k w2 (ev ≫= f).
Proof.
  intros H1 H2 st n text pc m Hst Hn [Hc1 Hc2]%code_at_app Hm.
  specialize (H1 st n text pc m Hst Hn Hc1 Hm). unfold mbind, ST_bind.
  destruct (ev m) as [m1 v|] eqn:Hev; [|done].
  destruct H1 as (st1 & Hr1 & Hl1 & Ht1 & Htop1 & Hz1). rewrite Hr1.
  specialize (H2 v st1 n text _ m1 ltac:(eauto) Hl1 Hn Hc2 Hz1 Htop1). destruct (f v m1) as [m2 x|]; [|done].
  destruct H2 as (st2 & -> & Hl2 & Ht2 & Htop2 & Hz2). exists st2. rewrite zlen_app, Z.add_assoc.
  split_and!; try done. by rewrite Ht2.
Qed.
Lemma computes_ret code k w a (f : Z → ST (list Z) Z) :
  computes code k w (mret a ≫= f) → computes code k w (f a).
Proof. done. Qed.
(** Two operands, the second above the first, then code on both. *)
Lemma computes_two ca cb c3 ka kb wa wb w eva evb (g : Z → Z → ST (list Z) Z) :
  computes ca ka wa eva → computes cb kb wb evb →
  (∀ x y st n text pc m, length st = 64%nat → (n + 2 ≤ 64)%nat → code_at text pc c3 → zlen m = size →
     top st n wa x → top st (n + 1) wb y →
     match g x y m with
     | Ok m' r => ∃ st', run (at_ st (n + 2) text pc m) = run (at_ st' (n + 1) text (pc + zlen c3) m') ∧
         length st' = 64%nat ∧ take n st' = take n st ∧ top st' n w r ∧ zlen m' = size
     | Err e => run (at_ st (n + 2) text pc m) = Err e
     end) →
  (1 ≤ kb)%nat →
  computes (ca ++ cb ++ c3) (Nat.max ka (S kb)) w (x ← eva; y ← evb; g x y).
Proof.
  intros Ha Hb Hg Hkb. apply (computes_then _ _ _ wa).
  { intros st n text pc m Hst Hn. apply Ha; [done|lia]. }
  intros x st n text pc m _ Hst Hn [Hc1 Hc2]%code_at_app Hm Htop.
  specialize (Hb st (n + 1)%nat text pc m Hst ltac:(lia) Hc1 Hm). unfold mbind, ST_bind.
  destruct (evb m) as [m1 y|]; [|done]. destruct Hb as (st1 & Hr1 & Hl1 & Ht1 & Htop1 & Hz1). rewrite Hr1.
  assert (top st1 n wa x) as Htop' by (apply (top_same st st1 (n + 1)); [done|lia|done]).
  specialize (Hg x y st1 n text _ m1 Hl1 ltac:(lia) Hc2 Hz1 Htop' Htop1).
  replace (n + 1 + 1)%nat with (n + 2)%nat by lia. destruct (g x y m1) as [m2 r|]; [|done].
  destruct Hg as (st2 & -> & Hl2 & Ht2 & Htop2 & Hz2). exists st2. rewrite zlen_app, Z.add_assoc. split_and!; try done.
  rewrite Ht2. replace n with (n `min` (n + 1))%nat by lia. by rewrite <- !take_take, Ht1.
Qed.

Lemma binop_after w op x y st n text pc m : length st = 64%nat → (n + 2 ≤ 64)%nat →
  code_at text pc [by_width w (FINSH_OP_BIN op)] → zlen m = size → top st n w x → top st (n + 1) w y →
  match (r ← c_binop op (view w x) (view w y); mret (view w r)) m with
  | Ok m' r => ∃ st', run (at_ st (n + 2) text pc m) = run (at_ st' (n + 1) text (pc + 1) m') ∧
      length st' = 64%nat ∧ take n st' = take n st ∧ top st' n w r ∧ zlen m' = size
  | Err e => run (at_ st (n + 2) text pc m) = Err e
  end.
Proof.
  intros Hst Hn Hc Hm Hx Hy. pose proof (run_bin w op st n text pc m x y Hc Hx Hy) as Hr.
  unfold mbind, ST_bind. rewrite (c_binop_state op _ _ m m) in Hr |- *.
  destruct (c_binop op (view w x) (view w y) m) as [m' r|e]; [|exact Hr]. simpl.
  eexists. split; [exact Hr|]. rewrite length_put_top, take_put_top by lia. split_and!; try done.
  eapply top_view; [|apply top_put_top; lia]. by rewrite mod_view.
Qed.
Lemma store_after w q x st n text pc m : length st = 64%nat → (n + 2 ≤ 64)%nat →
  code_at text pc [by_width w FINSH_OP_ST_BYTE; by_width w FINSH_OP_LD_VALUE_BYTE_STACK] → zlen m = size →
  top st n DWORD q → top st (n + 1) w x →
  match (m_store w q x;; mret (view w x)) m with
  | Ok m' r => ∃ st', run (at_ st (n + 2) text pc m) = run (at_ st' (n + 1) text (pc + 2) m') ∧
      length st' = 64%nat ∧ take n st' = take n st ∧ top st' n w r ∧ zlen m' = size
  | Err e => run (at_ st (n + 2) text pc m) = Err e
  end.
Proof.
  intros Hst Hn [Hc1 Hc2]%code_at_cons Hm Hq Hx. rewrite (run_st w st n text pc m q x Hc1 Hq Hx).
  unfold m_store. rewrite bind_assoc, get_bind. destruct (poke w m q x) as [m'|] eqn:Hp; [|done].
  destruct (peek_poke w m m' q x Hp) as [Hpk Hz]. rewrite bind_assoc, some_bind. simpl.
  rewrite (run_ld_stack w st n text (pc + 1) m' q Hc2 Hq), Hpk.
  eexists. replace (pc + 2) with (pc + 1 + 1) by lia. split; [reflexivity|].
  rewrite length_put_top, take_put_top by lia. split_and!; [done..|apply top_put_top; lia|lia].
Qed.
(** [++] and [--] of a variable whose address is on the stack. *)
Lemma step_after up w a st n text pc m : length st = 64%nat → (n + 3 ≤ 64)%nat →
  code_at text pc (code_step w a (step_op up)) → zlen m = size → top st n DWORD a →
  match m_step up w a m with
  | Ok m' (x, y) => peek w m a = Some x ∧ poke w m a y = Some m' ∧ view w y = y ∧
      ∃ st', run (at_ st (n + 1) text pc m) = run (at_ st' (n + 1) text (pc + zlen (code_step w a (step_op up))) m') ∧
      length st' = 64%nat ∧ take (n + 1) st' = take (n + 1) st ∧ zlen m' = size
  | Err e => run (at_ st (n + 1) text pc m) = Err e
  end.
Proof.
  intros Hst Hn Hc Hm Hq. unfold code_step in Hc.
  change (by_width w FINSH_OP_LD_VALUE_BYTE :: dword a ++ ?r) with ((by_width w FINSH_OP_LD_VALUE_BYTE :: dword a) ++ r) in Hc.
  apply code_at_app in Hc as [Hc1 Hc].
  change (by_width w FINSH_OP_LD_BYTE :: ?l ++ ?r) with ((by_width w FINSH_OP_LD_BYTE :: l) ++ r) in Hc.
  apply code_at_app in Hc as [Hc2 Hc]. apply code_at_cons in Hc as [Hc3 Hc4].
  rewrite (run_ld_value w a st (n + 1) text pc m Hc1) by lia. unfold m_step, m_load, m_store. rewrite bind_assoc, get_bind.
  destruct (peek w m a) as [x|] eqn:Hp; [|done]. rewrite some_bind.
  change (zlen (by_width w FINSH_OP_LD_VALUE_BYTE :: dword a)) with 5 in Hc2, Hc3, Hc4.
  rewrite (run_ld w 1 _ (n + 1 + 1) text (pc + 5) m Hc2) by (rewrite length_put_top; lia).
  set (st1 := put_top st (n + 1) w x). set (st2 := put_top st1 (n + 1 + 1) w 1).
  assert (top st2 (n + 1) w x) as Hx by (apply top_put_other; [lia|apply top_put_top; lia]).
  assert (top st2 (n + 1 + 1) w 1) as H1 by (apply top_put_top; unfold st1; rewrite length_put_top; lia).
  assert (zlen (by_width w FINSH_OP_LD_BYTE :: le_bytes (Z.to_nat (bytes_of w)) 1) = 1 + bytes_of w) as Hz2
    by (rewrite zlen_cons, zlen_width; done).
  rewrite Hz2 in Hc3, Hc4. replace (pc + 5 + (1 + bytes_of w)) with (pc + 5 + 1 + bytes_of w) in Hc3, Hc4 by lia.
  replace (n + 1 + 1 + 1)%nat with (n + 1 + 2)%nat by lia.
  rewrite (run_bin w (step_op up) st2 (n + 1) text _ m x 1 Hc3 Hx H1).
  assert (view w x = x ∧ view w 1 = 1) as [Hvx ->].
  { split; [|by destruct w]. unfold peek in Hp. destruct (rd m (u32 a) (bytes_of w)); [|done]. injection Hp as <-.
    unfold compose. apply view_eq. by rewrite mod_view. }
  rewrite Hvx.
  assert (c_binop (step_op up) x 1 m = Ok m (if up then x + 1 else x - 1)) as -> by (by destruct up).
  set (y := if up then x + 1 else x - 1). set (st3 := put_top st2 (n + 1) w y).
  assert (length st3 = 64%nat) as Hl3 by (unfold st3, st2, st1; by rewrite !length_put_top).
  assert (take (n + 1) st3 = take (n + 1) st) as Ht3 by (unfold st3, st2, st1; by rewrite !take_put_top by lia).
  assert (top st3 n DWORD a) as Hq3 by (eapply top_same; [exact Ht3|lia|exact Hq]).
  assert (top st3 (n + 1) w (view w y)) as Hy3.
  { eapply top_view; [|apply top_put_top; unfold st2, st1; rewrite !length_put_top; lia]. by rewrite mod_view. }
  replace (n + 1 + 1)%nat with (n + 2)%nat by lia. rewrite (run_st w st3 n text _ m a (view w y) Hc4 Hq3 Hy3).
  rewrite bind_assoc, get_bind. fold y. destruct (poke w m a (view w y)) as [m'|] eqn:Hpk; [|done]. rewrite bind_assoc, some_bind.
  simpl. split_and!; [done|done|apply view_eq, mod_view|]. exists st3.
  unfold code_step. split_and!; try done; [|by apply (peek_poke w m m' a (view w y)) in Hpk as [_ ->]].
  do 2 f_equal. rewrite zlen_cons, zlen_app, zlen_cons, zlen_app, zlen_width.
  change (zlen (dword a)) with 4. change (zlen [_; _]) with 2. lia.
Qed.

Lemma need_pos e : (1 ≤ need e)%nat.
Proof. induction e; simpl; lia. Qed.
Lemma fills_computes e w : fills vars e w = true →
  (∃ w', width_of_expr vars e = Some w' ∧ computes (code_expr vars e) (need e) w' (eval vars e)) →
  computes (code_expr vars e) (need e) w (eval vars e).
Proof.
  unfold fills. intros Hf (w' & Hw & Hc). rewrite Hw in Hf. by eapply computes_width.
Qed.
Lemma data_width_15 d w : data_width d = Some w → Z.land d 15 = d.
Proof.
  unfold data_width. destruct (Z.eqb_spec d FINSH_DATA_TYPE_BYTE) as [->|]; [done|].
  destruct (Z.eqb_spec d FINSH_DATA_TYPE_WORD) as [->|]; [done|].
  by destruct (Z.eqb_spec d FINSH_DATA_TYPE_DWORD) as [->|].
Qed.
Lemma ref_address r : is_ref vars r = true →
  code_ref vars r true = FINSH_OP_LD_DWORD :: dword (ref_at r).
Proof.
  intros (t & w & Ht & _ & Hw & _)%ref_known. unfold code_ref. rewrite Hw. by destruct r.
Qed.

Lemma computes_ref r : is_ref vars r = true → ∃ w, ref_width vars r = Some w ∧
  code_ref vars r false = by_width w FINSH_OP_LD_VALUE_BYTE :: dword (ref_at r) ∧
  computes (code_ref vars r false) 1 w (m_load w (ref_at r)).
Proof.
  intros (t & w & Ht & _ & Hw & _)%ref_known. exists w. split; [done|].
  assert (code_ref vars r false = by_width w FINSH_OP_LD_VALUE_BYTE :: dword (ref_at r)) as E
    by (unfold code_ref; rewrite Hw; by destruct r).
  rewrite E. split; [done|]. apply computes_load.
Qed.
Lemma computes_bin op a b w : data_width (data_of vars a) = Some w →
  computes (code_expr vars a) (need a) w (eval vars a) → computes (code_expr vars b) (need b) w (eval vars b) →
  computes (code_expr vars (EBin op a b)) (need (EBin op a b)) w (eval vars (EBin op a b)).
Proof.
  intros Hw Ha Hb. cbn [code_expr need eval]. unfold code_op. rewrite Hw.
  apply (computes_two _ _ _ _ _ w w); [done|done| |apply need_pos].
  intros x y st n text pc m Hst Hn Hc Hm Hx Hy. by apply binop_after.
Qed.
Lemma computes_not a w : data_width (data_of vars a) = Some w →
  computes (code_expr vars a) (need a) w (eval vars a) →
  computes (code_expr vars (ENot a)) (need (ENot a)) w (eval vars (ENot a)).
Proof.
  intros Hw Ha. cbn [code_expr eval need]. unfold code_op. rewrite Hw. apply (computes_then _ _ _ w); [done|].
  intros x st n text pc m _ Hst Hn Hc Hm Htop. pose proof (need_pos a). cbn [with_width].
  rewrite (run_bw w st n text pc m x Hc Htop). unfold mret, ST_ret.
  eexists. split; [reflexivity|]. rewrite length_put_top, take_put_top by lia. split_and!; try done.
  eapply top_view; [|apply top_put_top; lia]. by rewrite mod_view.
Qed.
Lemma computes_deref p w : data_width (data_of vars p) = Some w →
  computes (code_expr vars p) (need p) DWORD (eval vars p) →
  computes (code_expr vars (EDeref p)) (need (EDeref p)) w (eval vars (EDeref p)).
Proof.
  intros Hw Hp. cbn [code_expr eval need]. unfold code_op. rewrite Hw. apply (computes_then _ _ _ DWORD); [done|].
  intros q st n text pc m _ Hst Hn Hc Hm Htop. pose proof (need_pos p). cbn [with_width].
  rewrite (run_ld_stack w st n text pc m q Hc Htop). unfold m_load. rewrite get_bind.
  destruct (peek w m q) as [v|]; [|done]. unfold from_option_or, mret, ST_ret.
  eexists. split; [reflexivity|]. rewrite length_put_top, take_put_top by lia. split_and!; try done.
  apply top_put_top. lia.
Qed.
Lemma computes_store p a w : data_width (data_of vars p) = Some w →
  computes (code_expr vars p) (need p) DWORD (eval vars p) →
  computes (code_expr vars a) (need a) w (eval vars a) →
  computes (code_expr vars (EStore p a)) (need (EStore p a)) w (eval vars (EStore p a)).
Proof.
  intros Hw Hp Ha. cbn [code_expr need eval]. unfold code_store. rewrite (data_width_15 _ _ Hw), Hw.
  apply (computes_two _ _ _ _ _ DWORD w); [done|done| |apply need_pos].
  intros q x st n text pc m Hst Hn Hc Hm Hq Hx. by apply store_after.
Qed.
Lemma computes_assign r a w : is_ref vars r = true → ref_width vars r = Some w →
  computes (code_expr vars a) (need a) w (eval vars a) →
  computes (code_expr vars (EAssign r a)) (need (EAssign r a)) w (eval vars (EAssign r a)).
Proof.
  intros Hr Hw Ha. destruct (ref_known vars r Hr) as (t & w' & _ & _ & Hw' & Hd & _).
  rewrite Hw in Hw'. injection Hw' as <-.
  cbn [code_expr need eval]. unfold code_store. rewrite Hd, (ref_address r Hr), Hw.
  apply (computes_ret _ _ _ (s32 (ref_at r)) (λ q, x ← eval vars a; with_width (Some w) (λ w, m_store w (ref_at r) x;; mret (view w x)))).
  pose proof (computes_two (FINSH_OP_LD_DWORD :: dword (ref_at r)) (code_expr vars a)
    [by_width w FINSH_OP_ST_BYTE; by_width w FINSH_OP_LD_VALUE_BYTE_STACK] 1 (need a) DWORD w w
    (mret (ref_at r)) (eval vars a) (λ q x, m_store w q x;; mret (view w x))) as Htwo.
  pose proof (need_pos a). replace (Nat.max 1 (S (need a))) with (S (need a)) in Htwo by lia.
  apply Htwo; [by apply computes_dword|done| |lia].
  intros q x st n text pc m Hst Hn Hc Hm Hq Hx. by apply store_after.
Qed.
Lemma computes_pre up i w : ref_width vars (id_var i) = Some w → data_width (ref_data vars (id_var i)) = Some w →
  is_ref vars (id_var i) = true → is_Some (vars !! i) →
  computes (code_expr vars (EPre up i)) 3 w (eval vars (EPre up i)).
Proof.
  intros Hw Hd Hr Hi. destruct (var_address i Hi) as (Ha0 & Ha & Hu).
  cbn [code_expr eval]. unfold code_update. rewrite ref_address, Hd, Hw by done. cbn [with_width ref_at].
  set (a := var_value_at i) in *.
  apply (computes_ret _ _ _ (s32 a) (λ _, xy ← m_step up w a; mret (snd xy))), (computes_then _ _ _ DWORD).
  { intros st n text pc m Hst Hn. apply computes_dword; [by rewrite u32_s32|done|lia]. }
  intros q st n text pc m (m0 & m1 & [= _ <-]) Hst Hn [Hc1 Hc2]%code_at_app Hm Htop.
  assert (top st n DWORD a) as Htop' by (eapply top_view; [|exact Htop]; apply u32_s32).
  pose proof (step_after up w a st n text pc m Hst ltac:(lia) Hc1 Hm Htop') as Hs.
  unfold mbind, ST_bind. destruct (m_step up w a m) as [m' [x y]|]; [|done]. unfold mret, ST_ret. cbn [snd].
  destruct Hs as (Hp & Hpk & Hy & st1 & Hr1 & Hl1 & Ht1 & Hz1). rewrite Hr1.
  assert (top st1 n DWORD a) as Htop1 by (eapply top_same; [exact Ht1|lia|done]).
  rewrite (run_ld_stack DWORD st1 n text _ m' a Hc2 Htop1).
  destruct (peek_poke w m m' a y Hpk) as [Hp' Hz'].
  destruct (peek_dword w m' a (view w y) Hp' ltac:(lia)) as (v & Hv & Hvm). rewrite Hv.
  eexists. split; [rewrite zlen_app, Z.add_assoc; reflexivity|]. rewrite length_put_top, take_put_top by lia.
  split_and!; [done| |..].
  - replace n with (n `min` (n + 1))%nat by lia. by rewrite <- !take_take, Ht1.
  - eapply top_view; [|eapply (top_narrow _ _ w DWORD); [by destruct w|apply top_put_top; lia]].
    by rewrite Hvm, Hy.
  - done.
Qed.
Lemma computes_post up i w : ref_width vars (id_var i) = Some w → data_width (ref_data vars (id_var i)) = Some w →
  is_ref vars (id_var i) = true →
  computes (code_expr vars (EPost up i)) 4 w (eval vars (EPost up i)).
Proof.
  intros Hw Hd Hr. cbn [code_expr eval]. unfold code_update. rewrite Hd, Hw. cbn [with_width].
  destruct (computes_ref (id_var i) Hr) as (w' & Hw' & Hcode & _). rewrite Hw in Hw'. injection Hw' as <-.
  rewrite Hcode. cbn [ref_at]. set (a := var_value_at i).
  intros st n text pc m Hst Hn [Hc1 Hc]%code_at_app Hm.
  change (FINSH_OP_LD_DWORD :: dword a ++ ?r) with ((FINSH_OP_LD_DWORD :: dword a) ++ r) in Hc |- *.
  apply code_at_app in Hc as [Hc2 Hc]. apply code_at_app in Hc as [Hc3 Hc4].
  rewrite (run_ld_value w a st n text pc m Hc1) by lia.
  destruct (peek w m a) as [x|] eqn:Hp.
  2:{ unfold m_step, m_load. rewrite !bind_assoc, get_bind, Hp. done. }
  change (zlen (by_width w FINSH_OP_LD_VALUE_BYTE :: dword a)) with 5 in *.
  set (st1 := put_top st n w x).
  assert (length st1 = 64%nat) as Hl1 by (unfold st1; by rewrite length_put_top).
  rewrite (run_ld DWORD a st1 (n + 1) text (pc + 5) m Hc2) by lia.
  set (st2 := put_top st1 (n + 1) DWORD a).
  assert (length st2 = 64%nat) as Hl2 by (unfold st2; by rewrite length_put_top).
  change (zlen (FINSH_OP_LD_DWORD :: dword a)) with (1 + 4) in *. change (bytes_of DWORD) with 4.
  replace (pc + 5 + 1 + 4) with (pc + 5 + (1 + 4)) by lia.
  pose proof (step_after up w a st2 (n + 1) text _ m Hl2 ltac:(lia) Hc3 Hm ltac:(apply top_put_top; lia)) as Hs.
  unfold mbind, ST_bind. destruct (m_step up w a m) as [m' [x' y]|]; [|done]. unfold mret, ST_ret. cbn [fst].
  destruct Hs as (Hp' & Hpk & Hy & st3 & Hr3 & Hl3 & Ht3 & Hz3). rewrite Hr3. rewrite Hp in Hp'. injection Hp' as ->.
  rewrite (run_pop st3 (n + 1) text _ m' Hc4).
  exists st3. split_and!; try done.
  - f_equal. f_equal. rewrite !zlen_app. change (zlen (by_width w FINSH_OP_LD_VALUE_BYTE :: dword a)) with 5.
    change (zlen (FINSH_OP_LD_DWORD :: dword a)) with (1 + 4). change (zlen [FINSH_OP_POP]) with 1. lia.
  - replace n with (n `min` (n + 1 + 1))%nat by lia. rewrite <- !take_take, Ht3. rewrite !take_take.
    replace (n `min` (n + 1 + 1))%nat with n by lia. unfold st2, st1. by rewrite !take_put_top by lia.
  - eapply (top_same st2); [exact Ht3|lia|]. apply top_put_other; [lia|]. apply top_put_top. lia.
Qed.
Lemma code_ECall f args : code_expr vars (ECall f args) =
  code_expr vars f ++ code_exprs vars args ++ [FINSH_OP_SYSCALL; u8 (Z.of_nat (count_args args))].
Proof. done. Qed.
Lemma eval_ECall f args : eval vars (ECall f args) =
  (g ← eval vars f;
   xs ← evals vars args;
   r ← m_call (u32 g) (if bool_decide (xs = []) then [0] else xs);
   mret (s32 r)).
Proof. done. Qed.
Lemma code_ECons e es : code_exprs vars (ECons e es) = code_expr vars e ++ code_exprs vars es.
Proof. done. Qed.
Lemma evals_ECons e es : evals vars (ECons e es) =
  (x ← eval vars e; xs ← evals vars es; mret (u32 x :: xs)).
Proof. done. Qed.
Lemma computes_call f args : (∃ w, width_of_expr vars f = Some w ∧ computes (code_expr vars f) (need f) w (eval vars f)) →
  fills vars f DWORD = true → computes_all (code_exprs vars args) (needs args) (evals vars args) (count_args args) →
  Z.of_nat (count_args args) ≤ 16 →
  computes (code_expr vars (ECall f args)) (need (ECall f args)) DWORD (eval vars (ECall f args)).
Proof.
  intros Hf Hfill Hargs H16. apply (fills_computes f DWORD Hfill) in Hf.
  rewrite code_ECall, eval_ECall. cbn [need].
  apply (computes_then _ _ _ DWORD).
  { intros st n text pc m Hst Hn. apply Hf; [done|lia]. }
  intros g st n text pc m _ Hst Hn [Hc1 Hc2]%code_at_app Hm Htop.
  specialize (Hargs st (n + 1)%nat text pc m Hst ltac:(lia) Hc1 Hm). unfold mbind, ST_bind.
  destruct (evals vars args m) as [m1 xs|]; [|exact Hargs].
  destruct Hargs as (st1 & Hr1 & Hl1 & Ht1 & Hlen & Hh & Hz1). rewrite Hr1.
  assert (Z.of_nat (count_args args) = zlen xs) as Hz by (unfold zlen; by rewrite Hlen).
  rewrite Hz in Hc2, H16 |- *. rewrite <- Hlen.
  assert (top st1 n DWORD g) as Htop1 by (eapply top_same; [exact Ht1|lia|done]).
  assert (count_args args ≤ needs args)%nat as Hna.
  { clear. induction args as [|e es IH]; simpl; [lia|]. pose proof (need_pos e). lia. }
  rewrite (run_call st1 n text _ m1 g xs Hc2 H16) by (done || lia).
  unfold m_call. unfold mbind, ST_bind. simpl. fold (zlen xs).
  assert (u32 (u32 g) = u32 g) as Hu by (by apply Z.mod_mod).
  destruct (syscall_at (u32 g) _ m1) as [[m2 r]|] eqn:Hcall; [|done]. simpl.
  eexists. rewrite zlen_app, Z.add_assoc. split; [reflexivity|].
  rewrite length_put_top, take_put_top by lia. split_and!; [done| |..].
  - replace n with (n `min` (n + 1))%nat by lia. by rewrite <- !take_take, Ht1.
  - eapply top_view; [|apply top_put_top; lia]. symmetry. exact (mod_view DWORD r).
  - rewrite (Hcalls _ _ _ _ _ Hcall). done.
Qed.

Lemma computes_cons ca cs ka ks eva evs len :
  computes ca ka DWORD eva → computes_all cs ks evs len →
  computes_all (ca ++ cs) (Nat.max ka (S ks)) (x ← eva; xs ← evs; mret (u32 x :: xs)) (S len).
Proof.
  intros Ha Hs st n text pc m Hst Hn [Hc1 Hc2]%code_at_app Hm.
  specialize (Ha st n text pc m Hst ltac:(lia) Hc1 Hm). unfold mbind, ST_bind.
  destruct (eva m) as [m1 x|]; [|done]. destruct Ha as (st1 & -> & Hl1 & Ht1 & Htop1 & Hz1).
  specialize (Hs st1 (n + 1)%nat text _ m1 Hl1 ltac:(lia) Hc2 Hz1).
  destruct (evs m1) as [m2 xs|]; [|done]. destruct Hs as (st2 & -> & Hl2 & Ht2 & Hlen & Hh & Hz2).
  unfold mret, ST_ret. exists st2. rewrite zlen_app, Z.add_assoc. replace (n + S len)%nat with (n + 1 + len)%nat by lia.
  split_and!; try done.
  - replace n with (n `min` (n + 1))%nat by lia. rewrite <- !take_take, Ht2, !take_take.
    by replace (n `min` (n + 1))%nat with n by lia.
  - simpl. by rewrite Hlen.
  - assert (top st2 n DWORD x) as (y & Hy & Hyx) by (eapply top_same; [exact Ht2|lia|done]).
    intros [|j] v; simpl.
    + intros [= <-]. exists y. rewrite Nat.add_0_r. split; [done|exact Hyx].
    + intros Hv. destruct (Hh j v Hv) as (z & Hz & Hzv). exists z. by replace (n + S j)%nat with (n + 1 + j)%nat by lia.
Qed.

Lemma compiled_all :
  (∀ e, typed vars e = true →
     ∃ w, width_of_expr vars e = Some w ∧ computes (code_expr vars e) (need e) w (eval vars e)) ∧
  (∀ es, typeds vars es = true →
     computes_all (code_exprs vars es) (needs es) (evals vars es) (count_args es)).
Proof.
  apply expr_exprs_ind; cbn [typed typeds]; intros;
    repeat match goal with Ht : _ && _ = true |- _ => apply andb_true_iff in Ht as [? Ht] end;
    repeat match goal with
      | IH : typed vars ?a = true → _, Ht : typed vars ?a = true |- _ => specialize (IH Ht)
      | IH : typeds vars ?a = true → _, Ht : typeds vars ?a = true |- _ => specialize (IH Ht)
      end.
  - exists BYTE. split; [done|]. apply computes_byte.
  - exists DWORD. split; [done|]. apply computes_dword. rewrite u32_s32. by apply Z.mod_mod.
  - exists DWORD. split; [done|]. apply computes_dword. rewrite u32_s32. by apply Z.mod_mod.
  - exists DWORD. split; [done|]. apply computes_dword. rewrite u32_s32. by apply Z.mod_mod.
  - exists DWORD. split; [done|]. by apply computes_dword.
  - destruct r as [|i|v|c]; try (by match goal with Ht : is_ref vars ?r = true |- _ =>
      destruct (computes_ref r Ht) as (w & Hw & _ & Hc); exists w; cbn [eval width_of_expr]; rewrite Hw end).
    exists DWORD. split; [done|]. apply computes_dword. by rewrite u32_s32.
  - match goal with Hw : on_width _ _ = true |- _ => rename Hw into Hon end.
    cbn [width_of_expr]. destruct (data_width (data_of vars a)) as [w|] eqn:Hw; [|done].
    apply andb_true_iff in Hon as [Hfa Hfb]. exists w. split; [done|]. apply computes_bin; [done|by apply fills_computes..].
  - match goal with Hw : on_width _ _ = true |- _ => rename Hw into Hon end.
    cbn [width_of_expr]. destruct (data_width (data_of vars a)) as [w|] eqn:Hw; [|done].
    exists w. split; [done|]. apply computes_not; [done|by apply fills_computes].
  - match goal with Hw : on_width _ _ = true |- _ => rename Hw into Hon end.
    cbn [width_of_expr]. destruct (ref_width vars r) as [w|] eqn:Hw; [|done].
    exists w. split; [done|]. apply computes_assign; [done..|by apply fills_computes].
  - match goal with Hw : on_width _ _ = true |- _ => rename Hw into Hon end.
    cbn [width_of_expr]. destruct (data_width (data_of vars p)) as [w|] eqn:Hw; [|done].
    exists w. split; [done|]. apply computes_store; [done|by apply fills_computes..].
  - match goal with Hw : is_ref _ _ = true |- _ => rename Hw into Hr end.
    destruct (ref_known vars _ Hr) as (t & w & Ht & _ & Hw & Hd & _). exists w. split; [done|].
    apply computes_pre; try done. simpl in Ht. by destruct (vars !! i).
  - match goal with Hw : is_ref _ _ = true |- _ => rename Hw into Hr end.
    destruct (ref_known vars _ Hr) as (t & w & Ht & _ & Hw & Hd & _). exists w. split; [done|].
    by apply computes_post.
  - match goal with Hw : bool_decide _ = true |- _ => apply bool_decide_eq_true in Hw as [w Hw] end.
    exists w. split; [done|]. apply computes_deref; [done|by apply fills_computes].
  - exists DWORD. split; [done|]. cbn [code_expr eval]. rewrite ref_address by done. apply computes_dword. by rewrite u32_s32.
  - exists DWORD. split; [done|]. apply computes_call; try done. by apply Z.leb_le.
  - intros st n text pc m Hst Hn Hc Hm. exists st. simpl. rewrite Nat.add_0_r.
    change (zlen (@nil Z)) with 0. rewrite Z.add_0_r. split_and!; try done.
  - rewrite code_ECons, evals_ECons. cbn [needs count_args]. apply computes_cons; [by apply fills_computes|done].
Qed.

(** ** Statements *)

Fixpoint needs_statements (es : exprs) : nat :=
  match es with ENil => 0 | ECons e es => Nat.max (need e) (needs_statements es) end.
Lemma code_statements_cons e e' es : code_statements vars (ECons e (ECons e' es)) =
  code_expr vars e ++ FINSH_OP_POP :: code_statements vars (ECons e' es).
Proof. done. Qed.
Lemma eval_statements_cons e e' es : eval_statements vars (ECons e (ECons e' es)) =
  (_ ← eval vars e; eval_statements vars (ECons e' es)).
Proof. done. Qed.
Lemma computes_more code k k' w ev : (k ≤ k')%nat → computes code k w ev → computes code k' w ev.
Proof. intros Hk Hc st n text pc m Hst Hn. apply Hc; [done|lia]. Qed.
Lemma computes_statements es : ∀ e, all_typed vars (ECons e es) = true →
  ∃ w, width_of_expr vars (last_expr e es) = Some w ∧
    computes (code_statements vars (ECons e es)) (needs_statements (ECons e es)) w
      (eval_statements vars (ECons e es)).
Proof.
  induction es as [|e' es IH]; intros e Ht; cbn [all_typed] in Ht; apply andb_true_iff in Ht as [He Hes];
    destruct (proj1 compiled_all e He) as (w & Hw & Hc).
  - exists w. split; [done|]. simpl. rewrite app_nil_r, Nat.max_0_r.
    intros st n text pc m Hst Hn Hcode Hm. specialize (Hc st n text pc m Hst Hn Hcode Hm).
    unfold mbind, ST_bind. by destruct (eval vars e m).
  - destruct (IH e' Hes) as (w' & Hw' & Hc'). exists w'. split; [done|].
    rewrite code_statements_cons, eval_statements_cons. apply (computes_then _ _ _ w).
    { eapply computes_more; [|exact Hc]. cbn [needs_statements]. lia. }
    intros v st n text pc m _ Hst Hn [Hc1 Hc2]%code_at_cons Hm _.
    rewrite (run_pop st n text pc m Hc1).
    specialize (Hc' st n text (pc + 1) m Hst). cbn [needs_statements] in Hn, Hc'.
    specialize (Hc' ltac:(lia) Hc2 Hm). destruct (eval_statements vars (ECons e' es) m) as [m' r|]; [|done].
    destruct Hc' as (st' & Hr & Hrest). exists st'. split; [|done].
    rewrite Hr, zlen_cons. do 2 f_equal. lia.
Qed.

(** Expressions that are one load: nothing is in their slot before. *)
Definition loaded (e : expr) : bool := match e with EChar _ | EId _ => true | _ => false end.
Lemma loaded_runs e w st n text pc m : loaded e = true → typed vars e = true → width_of_expr vars e = Some w →
  code_at text pc (code_expr vars e) → (n < length st)%nat →
  match eval vars e m with
  | Ok m' v => run (at_ st n text pc m) = run (at_ (put_top st n w v) (n + 1) text (pc + zlen (code_expr vars e)) m')
  | Err _ => True
  end.
Proof.
  intros Hl Ht Hw Hc Hn.
  assert (Hdw : ∀ x v, FINSH_OP_LD_DWORD :: dword x = code_expr vars e → v mod modulus DWORD = x mod modulus DWORD →
    run (at_ st n text pc m) = run (at_ (put_top st n DWORD v) (n + 1) text (pc + zlen (code_expr vars e)) m)).
  { intros x v E Hv. rewrite <- E in *. pose proof (run_ld DWORD x st n text pc m Hc Hn) as Hr.
    rewrite <- Z.add_assoc in Hr. rewrite Hr. unfold put_top, put_in. by rewrite Hv. }
  destruct e as [c| | | | |r| | | | | | | | |]; try done.
  - injection Hw as <-. simpl.
    assert (code_at text pc (by_width BYTE FINSH_OP_LD_BYTE :: le_bytes (Z.to_nat (bytes_of BYTE)) (u8 c))) as Hc'.
    { replace (le_bytes (Z.to_nat (bytes_of BYTE)) (u8 c)) with [u8 c]; [done|]. simpl. unfold u8. by rewrite Z.mod_mod. }
    pose proof (run_ld BYTE (u8 c) st n text pc m Hc' Hn) as Hr. by rewrite <- Z.add_assoc in Hr.
  - destruct r as [|i|v|c].
    1-3: destruct (computes_ref _ Ht) as (w' & Hw' & Hcode & _); cbn [width_of_expr] in Hw; rewrite Hw' in Hw;
      injection Hw as ->; cbn [code_expr] in *; rewrite Hcode in *; cbn [eval]; rewrite Hw'; cbn [with_width];
      pose proof (run_ld_value w _ st n text pc m Hc Hn) as Hr; unfold m_load; rewrite get_bind;
      destruct (peek w m _) as [x|]; [exact Hr|done].
    injection Hw as <-. apply (Hdw (sc_func c)); [done|]. change (modulus DWORD) with (2 ^ 32). apply u32_s32.
Qed.

(** What follows the code is zeros, which do nothing. *)
Lemma run_noops st n text m k : ∀ pc, zlen text = FINSH_TEXT_MAX → 0 ≤ pc → pc + Z.of_nat k = FINSH_TEXT_MAX →
  (∀ i, pc ≤ i < FINSH_TEXT_MAX → byte text i = 0) →
  run (at_ st n text pc m) = Ok (at_ st n text FINSH_TEXT_MAX m) tt.
Proof.
  induction k as [|k IH]; intros pc Ht Hp0 Hk Hz.
  - rewrite run_end; [|simpl; lia]. do 2 f_equal. lia.
  - assert (code_at text pc [0]) as Hc.
    { split_and!; [done|lia|change (zlen [0]) with 1; lia|]. change (zlen [0]) with 1.
      apply byte_eq; [by rewrite zlen_slice by lia|]. rewrite zlen_slice by lia. intros i Hi.
      rewrite byte_slice by lia. rewrite Hz by lia. by replace i with 0 by lia. }
    rewrite (run_op _ _ _ _ _ _ OP_no_op Hc) by done. unfold OP_no_op.
    change ((mret ();; run) ?s) with (run s). apply IH; [done|lia..|]. intros i Hi. apply Hz. lia.
Qed.

Lemma nodes_labels_all :
  (∀ e s, length (labels (raw e s)) = (nodes e + length (labels s))%nat) ∧
  (∀ es, length (labels (raws es)) = nodes_all es).
Proof.
  apply expr_exprs_ind; simpl; intros; rewrite ?length_app; simpl; rewrite ?length_app;
    repeat match goal with IH : ∀ s, length (labels (raw ?e s)) = _ |- _ => rewrite IH; clear IH end; simpl; lia.
Qed.
Lemma nodes_pos e : (1 ≤ nodes e)%nat.
Proof. destruct e; simpl; lia. Qed.
Lemma need_nodes_all :
  (∀ e, (need e ≤ 2 * nodes e)%nat) ∧ (∀ es, (needs es ≤ 2 * nodes_all es)%nat).
Proof.
  apply expr_exprs_ind; cbn [need needs nodes nodes_all]; intros; try lia.
  pose proof (nodes_pos e). lia.
Qed.
Lemma needs_statements_labels es : (needs_statements es ≤ 2 * length (labels (raws es)))%nat.
Proof.
  induction es as [|e es IH]; simpl; [lia|]. rewrite (proj1 nodes_labels_all).
  pose proof (proj1 need_nodes_all e). lia.
Qed.
End correct.

(** ** From the nodes to the result *)

Section whole.
Context `{!FinshLayout, !Syscalls}.

(** A table whose nodes from [t] on are the statements [es]. *)
Definition program_at (s : finsh) (t : tree nat) (es : exprs) : Prop :=
  length (global_node_table s) = 16%nat ∧ linked (global_node_table s) t ∧ NoDup (labels t) ∧
  strip t = raws es ∧ zlen (finsh_vm_stack (the_vm s)) = FINSH_STACK_MAX.

Lemma program_compiles s t es : program_at s t es → all_typed (global_variable s) es = true →
  let code := code_statements (global_variable s) es in
  if zlen code <=? FINSH_TEXT_MAX
  then ∃ nodes, finsh_compiler_run (root t) s = Ok (set_nodes nodes (emitted code None (cleared s))) tt
  else finsh_compiler_run (root t) s = Err FBounds.
Proof.
  intros (Hlen & Hl & Hnd & Hst & Hsp) Ht code. set (vars := global_variable s) in *.
  destruct (ids_raws vars es Ht) as [Hids Hsh]. rewrite <- Hst in Hids, Hsh.
  destruct (strip_ids vars t) as [E1 E2]. rewrite E1 in Hids. rewrite E2 in Hsh.
  pose proof (finsh_compiler_run_ok vars t s Hl Hnd Hlen eq_refl Hids Hsh Hsp) as Hc. cbv zeta in Hc.
  destruct (strip_program vars (check_tree vars 0 t)) as [E3 E4]. rewrite strip_check, Hst in E3, E4.
  rewrite <- E3, <- E4, code_program_raws, program_error_raws in Hc by done. exact Hc.
Qed.
Lemma strip_labels {A} (t : tree A) : length (labels (strip t)) = length (labels t).
Proof. induction t as [|i d c IHc t IHt]; [done|]. simpl. rewrite !length_app. lia. Qed.

(** The value fills its slot: it has four bytes, or it is all the line computes. *)
Definition fills_slot (w : width) (e : expr) (es : exprs) : Prop := w = DWORD ∨ loaded e = true ∧ es = ENil.

Lemma fills_slot_bottom w e es x v : (w = DWORD → x mod modulus w = v mod modulus w) →
  (loaded e = true → es = ENil → x = put_in w 0 v) → fills_slot w e es → view DWORD x = view DWORD (v mod modulus w).
Proof.
  intros H1 H2 [->|[Hl ->]].
  - rewrite view_mod. apply view_eq. by apply H1.
  - rewrite H2 by done. unfold put_in. by rewrite Z.mod_0_l by (pose proof (modulus_pos w); lia).
Qed.

(** The compiler and the machine together. *)
Lemma compile_run_ok s t e es : program_at s t (ECons e es) →
  all_typed (global_variable s) (ECons e es) = true → calls_keep_size →
  variables_in_memory (global_variable s) (zlen (vm_memory (the_vm s))) →
  zlen (code_statements (global_variable s) (ECons e es)) ≤ FINSH_TEXT_MAX →
  ∃ s1 w, finsh_compiler_run (root t) s = Ok s1 tt ∧ global_errno s1 = global_errno s ∧
    global_variable s1 = global_variable s ∧
    width_of_expr (global_variable s) (last_expr e es) = Some w ∧
    match eval_statements (global_variable s) (ECons e es) (vm_memory (the_vm s)) with
    | Ok m v => ∃ vm' x, on_vm finsh_vm_run s1 = Ok (set_vm vm' s1) tt ∧ vm_memory vm' = m ∧
        zlen m = zlen (vm_memory (the_vm s)) ∧
        zlen (finsh_vm_stack vm') = FINSH_STACK_MAX ∧
        finsh_vm_stack vm' !! 0%nat = Some x ∧ x mod modulus w = v mod modulus w ∧
        (fills_slot w e es → view DWORD x = view DWORD (v mod modulus w))
    | Err f => on_vm finsh_vm_run s1 = Err f
    end.
Proof.
  intros Hp Ht Hcalls Hvars Hfit. pose proof (program_compiles s t _ Hp Ht) as Hc. cbv zeta in Hc.
  rewrite (proj2 (Z.leb_le _ _)) in Hc by done. destruct Hc as [nodes Hc].
  set (vars := global_variable s) in *. set (code := code_statements vars (ECons e es)) in *.
  destruct (computes_statements vars _ Hcalls Hvars es e Ht) as (w & Hw & Hcomp). fold code in Hcomp.
  destruct Hp as (Hlen & Hl & Hnd & Hst & Hsp).
  set (s1 := set_nodes nodes (emitted code None (cleared s))) in *. exists s1, w. split_and!; try done.
  set (st := finsh_vm_stack (the_vm s1)). set (text := text_segment (the_vm s1)). set (m := vm_memory (the_vm s)).
  assert (length st = 64%nat) as Hst64.
  { unfold st, s1. simpl. rewrite length_insert. unfold zlen, FINSH_STACK_MAX in Hsp. lia. }
  assert (text = splice (replicate 128 0) 0 code) as Htext by done.
  assert (zlen text = FINSH_TEXT_MAX) as Htlen by (rewrite Htext, zlen_splice; done || lia).
  pose proof (zlen_nonneg code).
  assert (code_at text 0 code) as Hcode.
  { split_and!; [done|lia|lia|]. rewrite Htext. apply slice_splice_same; done || lia. }
  assert (needs_statements (ECons e es) ≤ 32)%nat as Hneed.
  { pose proof (needs_statements_labels (ECons e es)) as Hn.
    rewrite <- Hst, strip_labels in Hn. assert (length (labels t) ≤ 16)%nat; [|lia].
    rewrite <- Hlen, <- (length_seq (length (global_node_table s)) 0).
    apply submseteq_length, NoDup_submseteq; [done|]. intros i Hi. apply elem_of_seq.
    pose proof (labels_bound _ t Hl) as Hb. rewrite Forall_forall in Hb. specialize (Hb i Hi). lia. }
  specialize (Hcomp st 0%nat text 0 m Hst64 ltac:(lia) Hcode eq_refl). fold m in Hcomp.
  assert (∀ r, run (mk_vm st (Z.of_nat 0) text 0 m) = r → finsh_vm_run (the_vm s1) = r) as Hrun.
  { intros r <-. done. }
  assert (Hload : loaded e = true → es = ENil → match eval_statements vars (ECons e es) m with
      | Ok m' v => run (mk_vm st (Z.of_nat 0) text 0 m) = run (mk_vm (put_top st 0 w v) (Z.of_nat (0 + 1)) text (0 + zlen code) m')
      | Err _ => True end).
  { intros Hld ->. cbn [eval_statements]. apply andb_true_iff in Ht as [Ht _].
    assert (code = code_expr vars e) as Ecode by apply app_nil_r. rewrite Ecode in *.
    pose proof (loaded_runs vars 0 e w st 0%nat text 0 m Hld Ht Hw Hcode ltac:(lia)) as Hr.
    unfold mbind, ST_bind. by destruct (eval vars e m). }
  assert (Hnoops : ∀ st' m', run (mk_vm st' (Z.of_nat (0 + 1)) text (0 + zlen code) m') =
    Ok (mk_vm st' (Z.of_nat (0 + 1)) text FINSH_TEXT_MAX m') tt).
  2:{ destruct (eval_statements vars (ECons e es) m) as [m' v|f].
    2:{ unfold on_vm. by rewrite (Hrun _ Hcomp). }
    destruct Hcomp as (st' & Hr & Hl' & _ & (x & Hx & Hxv) & Hz). rewrite Hnoops in Hr.
    exists (mk_vm st' (Z.of_nat 1) text FINSH_TEXT_MAX m'), x. split_and!; try done.
    - apply on_vm_ok. exact (Hrun _ Hr).
    - simpl. unfold zlen. by rewrite Hl'.
    - apply fills_slot_bottom; [done|]. intros Hld Hes. specialize (Hload Hld Hes). rewrite Hr, Hnoops in Hload.
      injection Hload as ->. unfold put_top in Hx. assert (st !! 0%nat = Some 0) as Hz0 by (apply list_lookup_insert_eq; unfold zlen, FINSH_STACK_MAX in Hsp; simpl; lia).
      rewrite Hz0, list_lookup_insert_eq in Hx by lia. by injection Hx as <-. }
  intros st' m'. apply (run_noops st' (0 + 1) text m' (Z.to_nat (FINSH_TEXT_MAX - zlen code))); [done|lia| |].
  - unfold FINSH_TEXT_MAX in *. lia.
  - intros i Hi. rewrite Htext, byte_splice by (done || lia).
    rewrite (proj2 (Z.ltb_ge i (0 + zlen code))) by lia. rewrite andb_false_r.
    unfold byte. rewrite nth_lookup. rewrite lookup_replicate_2; [done|]. unfold FINSH_TEXT_MAX in *. lia.
Qed.

(** C21: the compiler. From nodes that are the typed statements [es] it fills
    the text segment with their code and no-operations after it, reports no
    error and changes neither the variables nor the memory; code of more than
    128 bytes it writes past the end of the segment. *)
Theorem finsh_compiler_run_spec s t es : program_at s t es → all_typed (global_variable s) es = true →
  let code := code_statements (global_variable s) es in
  if zlen code <=? FINSH_TEXT_MAX
  then ∃ s', finsh_compiler_run (root t) s = Ok s' tt ∧
    text_segment (the_vm s') = code ++ replicate (Z.to_nat (FINSH_TEXT_MAX - zlen code)) 0 ∧
    finsh_compile_pc s' = zlen code ∧ global_errno s' = global_errno s ∧
    global_variable s' = global_variable s ∧ vm_memory (the_vm s') = vm_memory (the_vm s)
  else finsh_compiler_run (root t) s = Err FBounds.
Proof.
  intros Hp Ht code. pose proof (program_compiles s t es Hp Ht) as Hc. cbv zeta in Hc. fold code in Hc.
  destruct (Z.leb_spec (zlen code) FINSH_TEXT_MAX) as [Hle|]; [|done]. destruct Hc as [nodes Hc].
  eexists. split_and!; [exact Hc| |done..]. cbn -[splice]. unfold splice, slice, FINSH_TEXT_MAX in *.
  rewrite take_0. cbn [app]. f_equal. pose proof (zlen_nonneg code).
  change (replicate 128 0) with (replicate (Z.to_nat 128) 0). rewrite drop_replicate. f_equal. lia.
Qed.

(** C19: compiling and running. Nodes that are the typed statements [e; es]
    compile, and the virtual machine then does to memory what the statements
    mean and leaves the value of the last one at the bottom of the stack, in as
    many bytes as its type has; a fault of the run is a fault of the statements. *)
Theorem compile_run_spec s t e es : program_at s t (ECons e es) →
  all_typed (global_variable s) (ECons e es) = true → calls_keep_size →
  variables_in_memory (global_variable s) (zlen (vm_memory (the_vm s))) →
  zlen (code_statements (global_variable s) (ECons e es)) ≤ FINSH_TEXT_MAX →
  ∃ s1 w, finsh_compiler_run (root t) s = Ok s1 tt ∧ global_errno s1 = global_errno s ∧
    width_of_expr (global_variable s) (last_expr e es) = Some w ∧
    match eval_statements (global_variable s) (ECons e es) (vm_memory (the_vm s)) with
    | Ok m v => ∃ vm' x, on_vm finsh_vm_run s1 = Ok (set_vm vm' s1) tt ∧ vm_memory vm' = m ∧
        finsh_vm_stack vm' !! 0%nat = Some x ∧ x mod modulus w = v mod modulus w
    | Err f => on_vm finsh_vm_run s1 = Err f
    end.
Proof.
  intros Hp Ht Hcalls Hvars Hfit.
  destruct (compile_run_ok s t e es Hp Ht Hcalls Hvars Hfit) as (s1 & w & Hc & He & _ & Hw & Hr).
  exists s1, w. split_and!; try done. destruct (eval_statements _ _ _) as [m v|f]; [|done].
  destruct Hr as (vm' & x & Hr & Hm & _ & _ & Hx & Hv & _). by exists vm', x.
Qed.
End whole.
