(* ===== verification/FinshToken.v ===== *)
(** * The tokens of the expression shell ([finsh_token.c])

    A line is the list of its bytes before the NUL. A token is read at the
    position reached; [replay] gives the last one again. *)

From Stdlib Require Import ZArith Lia.
From stdpp Require Import base list.
From S2P Require Import RTThread.
From S2P Require Import Prelude.
From S2P Require Import Bytes.
From S2P Require Import FinshVm.
From S2P Require Import Finsh.

Inductive token_type : Set :=
  | token_none
  | token_left_paren | token_right_paren | token_comma | token_semicolon
  | token_mul | token_add | token_inc | token_sub | token_dec | token_div | token_mod
  | token_assign | token_and | token_or | token_xor | token_bitwise | token_shl | token_shr
  | token_comments
  | token_void | token_char | token_short | token_int | token_long | token_unsigned
  | token_value_char | token_value_int | token_value_long | token_value_string | token_value_null
  | token_identifier | token_bad | token_eof.
#[export] Instance token_type_eq_dec : EqDecision token_type.
Proof. solve_decision. Defined.

(** [tk_value] is the union's four bytes, [tk_string] the array of 128. *)
Record finsh_token : Set := mk_token {
  tk_eof : bool;
  tk_replay : bool;
  tk_position : Z;
  tk_current : token_type;
  tk_value : Z;
  tk_string : list Z;
  tk_line : list Z }.
Definition set_tk_eof (v : bool) (t : finsh_token) : finsh_token :=
  mk_token v (tk_replay t) (tk_position t) (tk_current t) (tk_value t) (tk_string t) (tk_line t).
Definition set_tk_replay (v : bool) (t : finsh_token) : finsh_token :=
  mk_token (tk_eof t) v (tk_position t) (tk_current t) (tk_value t) (tk_string t) (tk_line t).
Definition set_tk_position (v : Z) (t : finsh_token) : finsh_token :=
  mk_token (tk_eof t) (tk_replay t) v (tk_current t) (tk_value t) (tk_string t) (tk_line t).
Definition set_tk_current (v : token_type) (t : finsh_token) : finsh_token :=
  mk_token (tk_eof t) (tk_replay t) (tk_position t) v (tk_value t) (tk_string t) (tk_line t).
Definition set_tk_value (v : Z) (t : finsh_token) : finsh_token :=
  mk_token (tk_eof t) (tk_replay t) (tk_position t) (tk_current t) v (tk_string t) (tk_line t).
Definition set_tk_string (v : list Z) (t : finsh_token) : finsh_token :=
  mk_token (tk_eof t) (tk_replay t) (tk_position t) (tk_current t) (tk_value t) v (tk_line t).

(** [struct finsh_parser], and the rest of the shell. *)
Record fparser : Set := mk_fparser {
  fp_token : finsh_token;
  fp_root : option nat;
  fp_finsh : finsh }.
Notation P := (ST fparser) (only parsing).
Definition on_token {A} (m : ST finsh_token A) : P A := λ s,
  match m (fp_token s) with Ok t a => Ok (mk_fparser t (fp_root s) (fp_finsh s)) a | Err e => Err e end.
Definition on_finsh {A} (m : ST finsh A) : P A := λ s,
  match m (fp_finsh s) with Ok f a => Ok (mk_fparser (fp_token s) (fp_root s) f) a | Err e => Err e end.
Definition upd_token (f : finsh_token → finsh_token) : P unit := on_token (modify f).
Definition parse_error (e : finsh_error) : P unit := on_finsh (finsh_error_set e).

(** ** Characters *)

Definition is_digit (ch : Z) : bool := (48 <=? ch) && (ch <=? 57).
Definition is_alpha (ch : Z) : bool := u32 (Z.lor ch 32 - 97) <? 26.
Definition is_xdigit (ch : Z) : bool := is_digit ch || (u32 (Z.lor ch 32 - 97) <? 6).
Definition is_separator (ch : Z) : bool :=
  negb (((97 <=? ch) && (ch <=? 122)) || ((65 <=? ch) && (ch <=? 90)) || is_digit ch || (ch =? 95)).
Definition is_octal (ch : Z) : bool := u32 (ch - 48) <? 8.

Definition no_string : list Z := replicate (Z.to_nat FINSH_STRING_MAX) 0.
Definition zero_token : finsh_token := mk_token false false 0 token_none 0 no_string [].
Definition finsh_token_init (line : list Z) : P unit :=
  upd_token (λ _, mk_token false false 0 token_none 0 no_string line).
Definition finsh_token_replay : P unit := upd_token (set_tk_replay true).

Definition token_next_char : P Z :=
  s ← get;
  let t := fp_token s in
  if tk_eof t then mret 0
  else if (tk_position t =? zlen (tk_line t)) || (byte (tk_line t) (tk_position t) =? 10) then
    upd_token (λ t, set_tk_position 0 (set_tk_eof true t));;
    mret 0
  else
    upd_token (set_tk_position (tk_position t + 1));;
    mret (byte (tk_line t) (tk_position t)).
Definition token_prev_char : P unit :=
  s ← get;
  let t := fp_token s in
  if tk_eof t then mret ()
  else if tk_position t =? 0 then mret ()
  else upd_token (set_tk_position (tk_position t - 1)).
Definition is_eof : P bool := gets (λ s, tk_eof (fp_token s)).

(** A line has no more characters than its length, and the end. *)
Definition char_fuel : P nat := gets (λ s, S (S (length (tk_line (fp_token s))))).

(** ** Names and blanks *)

Fixpoint trim_loop (fuel : nat) : P unit :=
  match fuel with
  | O => fail FHang
  | S fuel =>
      ch ← token_next_char;
      if (ch =? 32) || (ch =? 9) || (ch =? 13) then trim_loop fuel else mret ()
  end.
Definition token_trim_space : P unit := fuel ← char_fuel; trim_loop fuel;; token_prev_char.

(** The characters of a name; the array has room for 127 and the NUL. *)
Fixpoint name_loop (fuel : nat) (ch : Z) (p : list Z) : P (list Z) :=
  e ← is_eof;
  if negb (is_separator ch) && negb e then
    match fuel with
    | O => fail FHang
    | S fuel =>
        ch' ← token_next_char;
        name_loop fuel ch' (p ++ [ch])
    end
  else mret p.
(** Characters over the first of an array, and a string up to its NUL. *)
Definition over (l old : list Z) : list Z := l ++ drop (length l) old.
Definition up_to_end (l : list Z) : list Z :=
  match list_find (λ x, x = 0) l with Some (i, _) => take i l | None => l end.
Definition write_string (l : list Z) : P unit := upd_token (λ t, set_tk_string (over l (tk_string t)) t).
Definition set_string (l : list Z) : P unit :=
  if zlen l <? FINSH_STRING_MAX then write_string (l ++ [0]) else fail FBounds.
Definition token_get_string : P Z :=
  ch ← token_next_char;
  e ← is_eof;
  if (e : bool) then mret (-1)
  else
    set_string [];;
    if is_digit ch then token_prev_char;; mret (-1)
    else
      fuel ← char_fuel;
      p ← name_loop fuel ch [];
      upd_token (set_tk_eof false);;
      token_prev_char;;
      set_string p;;
      mret 0.

Definition finsh_name_table : list (list Z * token_type) := [
  ([118; 111; 105; 100], token_void);
  ([99; 104; 97; 114], token_char);
  ([115; 104; 111; 114; 116], token_short);
  ([105; 110; 116], token_int);
  ([108; 111; 110; 103], token_long);
  ([117; 110; 115; 105; 103; 110; 101; 100], token_unsigned);
  ([78; 85; 76; 76], token_value_null);
  ([110; 117; 108; 108], token_value_null)].
Definition token_match_name (str : list Z) : P bool :=
  match list_find (λ e, fst e = str) finsh_name_table with
  | Some (_, (_, type)) => upd_token (set_tk_current type);; mret true
  | None => mret false
  end.

(** ** Characters and strings in quotes *)

(** Digits after a backslash: each but the first goes to an array of four, the
    NUL after them; what is then converted is the empty string after them. *)
Fixpoint char_digits (fuel : nat) (ch count : Z) : P Z :=
  if is_digit ch then
    match fuel with
    | O => fail FHang
    | S fuel =>
        ch' ← token_next_char;
        if 4 <=? count then fail FBounds else char_digits fuel ch' (count + 1)
    end
  else mret count.
Definition token_proc_char : P Z :=
  ch ← token_next_char;
  ch ← (if ch =? 92 then
          ch ← token_next_char;
          if ch =? 110 then mret 10
          else if ch =? 116 then mret 9
          else if ch =? 118 then mret 11
          else if ch =? 98 then mret 8
          else if ch =? 114 then mret 13
          else if ch =? 92 then mret 92
          else if ch =? 39 then mret 39
          else
            fuel ← char_fuel;
            count ← char_digits fuel ch 0;
            token_prev_char;;
            if 4 <=? count then fail FBounds else mret 0
        else mret ch);
  next ← token_next_char;
  if negb (next =? 39) then
    token_prev_char;;
    parse_error FINSH_ERROR_EXPECT_CHAR;;
    mret ch
  else mret ch.

Fixpoint escape_loop (fuel : nat) (digit : Z → bool) (value : Z → Z → Z) (ch result : Z) : P Z :=
  if digit ch then
    match fuel with
    | O => fail FHang
    | S fuel =>
        ch' ← token_next_char;
        escape_loop fuel digit value ch' (value result ch)
    end
  else mret result.
Definition hex_value (result ch : Z) : Z :=
  s32 (result * 16 + (if ch <? 65 then ch - 48 else Z.lor ch 32 - 97 + 10)).
Definition octal_value (result ch : Z) : Z := s32 (result * 8 + ch - 48).
Definition token_proc_escape : P Z :=
  ch ← token_next_char;
  if ch =? 110 then mret 10
  else if ch =? 116 then mret 9
  else if ch =? 118 then mret 11
  else if ch =? 98 then mret 8
  else if ch =? 114 then mret 13
  else if ch =? 102 then mret 12
  else if ch =? 97 then mret 7
  else if ch =? 34 then mret 34
  else if (ch =? 120) || (ch =? 88) then
    ch ← token_next_char;
    fuel ← char_fuel;
    result ← escape_loop fuel is_xdigit hex_value ch 0;
    token_prev_char;;
    mret result
  else if is_octal ch then
    fuel ← char_fuel;
    result ← escape_loop fuel is_octal octal_value ch 0;
    token_prev_char;;
    mret result
  else mret 0.

(** Without an end quote no NUL is written, at the end of the line or of the array. *)
Fixpoint quoted_loop (fuel : nat) (p : list Z) : P unit :=
  match fuel with
  | O => write_string p
  | S fuel =>
      ch ← token_next_char;
      e ← is_eof;
      if (e : bool) then
        write_string p;;
        parse_error FINSH_ERROR_UNEXPECT_END
      else if ch =? 92 then
        ch' ← token_proc_escape;
        quoted_loop fuel (p ++ [u8 ch'])
      else if ch =? 34 then write_string (p ++ [0])
      else quoted_loop fuel (p ++ [ch])
  end.
Definition token_proc_string : P unit := quoted_loop (Z.to_nat FINSH_STRING_MAX) [].

(** ** Numbers *)

(** The digits that satisfy a test, and the character after them. *)
Fixpoint digits_loop (fuel : nat) (digit : Z → bool) (ch : Z) (p : list Z) : P (Z * list Z) :=
  if digit ch then
    match fuel with
    | O => fail FHang
    | S fuel =>
        ch' ← token_next_char;
        digits_loop fuel digit ch' (p ++ [ch])
    end
  else mret (ch, p).
(** The digits after a prefix are copied to an array of 128, with their NUL. *)
Definition in_buffer (p : list Z) : P unit := if zlen p <? 128 then mret () else fail FBounds.
Definition digit_of (t : Z) : Z :=
  if (97 <=? t) && (t <=? 102) then t - 97 + 10
  else if (65 <=? t) && (t <=? 70) then t - 65 + 10
  else t - 48.
(** Two words, the low one the result; [shift] bits a digit. *)
Definition number_digit (shift : Z) (bn : Z * Z) (t : Z) : Z * Z :=
  let t := u32 (digit_of t) in
  let low := Z.lor (u32 (Z.shiftl (fst bn) shift)) t in
  let t := s32 (Z.shiftr (fst bn) (32 - shift)) in
  (low, Z.lor (u32 (Z.shiftl (snd bn) shift)) (u32 t)).
Definition token_spec_number (string : list Z) (b : Z) : Z :=
  let shift := if b =? 16 then 4 else if b =? 8 then 3 else 1 in
  s32 (fst (foldl (number_digit shift) (0, 0) string)).
Definition decimal_number (string : list Z) : Z :=
  foldl (λ value ch, s32 (value * 10 + (ch - 48))) 0 string.
Definition set_int (v : Z) : P unit :=
  upd_token (λ t, set_tk_current token_value_int (set_tk_value (u32 v) t)).
(** An [l] after the number makes it a [long]. *)
Definition number_suffix (ch : Z) : P unit :=
  if (ch =? 108) || (ch =? 76) then upd_token (set_tk_current token_value_long)
  else token_prev_char.
Definition token_proc_number : P unit :=
  ch ← token_next_char;
  fuel ← char_fuel;
  if ch =? 48 then
    ch ← token_next_char;
    if (ch =? 120) || (ch =? 88) then
      ch ← token_next_char;
      '(ch, p) ← digits_loop fuel (λ ch, is_digit ch || is_alpha ch) ch [];
      in_buffer p;;
      set_int (token_spec_number p 16);;
      number_suffix ch
    else if (ch =? 98) || (ch =? 66) then
      ch ← token_next_char;
      '(ch, p) ← digits_loop fuel (λ ch, (ch =? 48) || (ch =? 49)) ch [];
      in_buffer p;;
      set_int (token_spec_number p 2);;
      number_suffix ch
    else if (48 <=? ch) && (ch <=? 55) then
      '(ch, p) ← digits_loop fuel (λ ch, (48 <=? ch) && (ch <=? 55)) ch [];
      in_buffer p;;
      set_int (token_spec_number p 8);;
      number_suffix ch
    else
      token_prev_char;;
      set_int 0
  else
    '(ch, p) ← digits_loop fuel is_digit ch [];
    set_int (decimal_number p);;
    number_suffix ch.

(** ** The next token *)

Definition set_current (t : token_type) : P unit := upd_token (set_tk_current t).
(** Two characters that make one token, or the first alone another. *)
Definition pair_token (second : Z) (both alone : token_type) : P unit :=
  ch ← token_next_char;
  if ch =? second then set_current both else token_prev_char;; set_current alone.
Definition token_operator (ch : Z) : P unit :=
  if ch =? 40 then set_current token_left_paren
  else if ch =? 41 then set_current token_right_paren
  else if ch =? 44 then set_current token_comma
  else if ch =? 59 then set_current token_semicolon
  else if ch =? 38 then set_current token_and
  else if ch =? 42 then set_current token_mul
  else if ch =? 43 then pair_token 43 token_inc token_add
  else if ch =? 45 then pair_token 45 token_dec token_sub
  else if ch =? 47 then pair_token 47 token_eof token_div
  else if ch =? 60 then pair_token 60 token_shl token_bad
  else if ch =? 62 then pair_token 62 token_shr token_bad
  else if ch =? 124 then set_current token_or
  else if ch =? 37 then set_current token_mod
  else if ch =? 126 then set_current token_bitwise
  else if ch =? 94 then set_current token_xor
  else if ch =? 61 then set_current token_assign
  else if ch =? 39 then
    c ← token_proc_char;
    upd_token (λ t, set_tk_value (put_in BYTE (tk_value t) c) t);;
    set_current token_value_char
  else if ch =? 34 then token_proc_string;; set_current token_value_string
  else if is_digit ch then token_prev_char;; token_proc_number
  else parse_error FINSH_ERROR_UNKNOWN_TOKEN;; set_current token_bad.
Definition token_run : P unit :=
  token_trim_space;;
  _ ← token_get_string;
  e ← is_eof;
  if (e : bool) then set_current token_eof
  else
    s ← get;
    let str := up_to_end (tk_string (fp_token s)) in
    if negb (bool_decide (str = [])) then
      m ← token_match_name str;
      if (m : bool) then mret () else set_current token_identifier
    else
      ch ← token_next_char;
      token_operator ch.
Definition finsh_token_token : P token_type :=
  s ← get;
  (if tk_replay (fp_token s) then upd_token (set_tk_replay false) else token_run);;
  gets (λ s, tk_current (fp_token s)).
