(* ===== verification/FinshParser.v ===== *)
(** * The parser of the expression shell ([finsh_parser.c])

    Recursive descent over the tokens, each function one of the grammar. A node
    is its index in the table. [proc_assign_expr] and [proc_cast_expr], through
    which every recursion goes, have fuel for its depth; the loops have a turn
    for each character of the line. *)

From Stdlib Require Import ZArith Lia.
From stdpp Require Import base list.
From S2P Require Import RTThread.
From S2P Require Import Prelude.
From S2P Require Import Bytes.
From S2P Require Import FinshVm.
From S2P Require Import Finsh.
From S2P Require Import FinshHeap.
From S2P Require Import FinshNode.
From S2P Require Import FinshToken.

Notation P := (ST fparser) (only parsing).

Section parser.
Context `{!FinshLayout}.

(** ** Tokens and nodes *)

Definition check_token (token type : token_type) : P unit :=
  if decide (token = type) then mret ()
  else parse_error FINSH_ERROR_INVALID_TOKEN;; finsh_token_replay.
Definition match_token (type : token_type) : P unit :=
  token ← finsh_token_token;
  check_token token type.
Definition is_base_type (token : token_type) : bool :=
  match token with
  | token_void | token_char | token_short | token_int | token_long => true
  | _ => false
  end.

Definition link_sibling (i : nat) (v : option nat) : P unit := on_finsh (upd_node i (set_sibling v)).
Definition make_sys_node (type : node_kind) (node1 node2 : option nat) : P (option nat) :=
  node ← on_finsh (finsh_node_allocate type);
  (match node1, node with
   | Some i, Some n =>
       on_finsh (upd_node n (set_child (Some i)));;
       link_sibling i node2
   | _, _ => parse_error FINSH_ERROR_NULL_NODE
   end);;
  mret node.

(** The 16 characters [strncpy] takes of the token's string. *)
Definition proc_identifier : P (list Z) :=
  match_token token_identifier;;
  gets (λ s, take (Z.to_nat FINSH_NAME_MAX) (up_to_end (tk_string (fp_token s)))).

(** ** Types *)

Definition base_type (token : token_type) : finsh_type :=
  match token with
  | token_void => finsh_type_void
  | token_char => finsh_type_char
  | token_short => finsh_type_short
  | token_int => finsh_type_int
  | token_long => finsh_type_long
  | _ => finsh_type_unknown
  end.
Definition unsigned_type (token : token_type) : finsh_type :=
  match token with
  | token_char => finsh_type_uchar
  | token_short => finsh_type_ushort
  | token_int => finsh_type_uint
  | token_long => finsh_type_ulong
  | _ => finsh_type_unknown
  end.
Definition pointer_type (type : finsh_type) : finsh_type :=
  match type with
  | finsh_type_void => finsh_type_voidp
  | finsh_type_char | finsh_type_uchar => finsh_type_charp
  | finsh_type_short | finsh_type_ushort => finsh_type_shortp
  | finsh_type_int | finsh_type_uint => finsh_type_intp
  | finsh_type_long | finsh_type_ulong => finsh_type_longp
  | _ => finsh_type_voidp
  end.
Definition pointer_suffix (type : finsh_type) : P finsh_type :=
  token ← finsh_token_token;
  if decide (token = token_mul) then mret (pointer_type type)
  else finsh_token_replay;; mret type.
Definition unknown_type : P finsh_type :=
  finsh_token_replay;;
  parse_error FINSH_ERROR_UNKNOWN_TYPE;;
  mret finsh_type_unknown.
Definition proc_type : P finsh_type :=
  token ← finsh_token_token;
  if is_base_type token then pointer_suffix (base_type token)
  else if decide (token = token_unsigned) then
    token ← finsh_token_token;
    if is_base_type token then
      if decide (token = token_void) then unknown_type
      else pointer_suffix (unsigned_type token)
    else
      finsh_token_replay;;
      parse_error FINSH_ERROR_EXPECT_TYPE;;
      pointer_suffix finsh_type_unknown
  else unknown_type.

(** ** Binary operators *)

Definition or_op (t : token_type) : option node_kind :=
  match t with token_or => Some FINSH_NODE_SYS_OR | _ => None end.
Definition xor_op (t : token_type) : option node_kind :=
  match t with token_xor => Some FINSH_NODE_SYS_XOR | _ => None end.
Definition and_op (t : token_type) : option node_kind :=
  match t with token_and => Some FINSH_NODE_SYS_AND | _ => None end.
Definition shift_op (t : token_type) : option node_kind :=
  match t with
  | token_shl => Some FINSH_NODE_SYS_SHL
  | token_shr => Some FINSH_NODE_SYS_SHR
  | _ => None
  end.
Definition additive_op (t : token_type) : option node_kind :=
  match t with
  | token_sub => Some FINSH_NODE_SYS_SUB
  | token_add => Some FINSH_NODE_SYS_ADD
  | _ => None
  end.
Definition multiplicative_op (t : token_type) : option node_kind :=
  match t with
  | token_mul => Some FINSH_NODE_SYS_MUL
  | token_div => Some FINSH_NODE_SYS_DIV
  | token_mod => Some FINSH_NODE_SYS_MOD
  | _ => None
  end.
(** [next] is the function for the operands. *)
Fixpoint binary_loop (fuel : nat) (op : token_type → option node_kind) (next : P (option nat))
    (node : option nat) : P (option nat) :=
  token ← finsh_token_token;
  match op token with
  | None => finsh_token_replay;; mret node
  | Some type =>
      match fuel with
      | O => fail FHang
      | S fuel =>
          new ← next;
          node ← (match new with
                  | None => parse_error FINSH_ERROR_EXPECT_OPERATOR;; mret node
                  | Some _ => make_sys_node type node new
                  end);
          binary_loop fuel op next node
      end
  end.
Definition binary_expr (op : token_type → option node_kind) (next : P (option nat)) : P (option nat) :=
  node ← next;
  fuel ← char_fuel;
  binary_loop fuel op next node.
Definition proc_multiplicative_expr (cast : P (option nat)) : P (option nat) :=
  binary_expr multiplicative_op cast.
Definition proc_additive_expr (cast : P (option nat)) : P (option nat) :=
  binary_expr additive_op (proc_multiplicative_expr cast).
Definition proc_shift_expr (cast : P (option nat)) : P (option nat) :=
  binary_expr shift_op (proc_additive_expr cast).
Definition proc_and_expr (cast : P (option nat)) : P (option nat) :=
  binary_expr and_op (proc_shift_expr cast).
Definition proc_exclusive_or_expr (cast : P (option nat)) : P (option nat) :=
  binary_expr xor_op (proc_and_expr cast).
Definition proc_inclusive_or_expr (cast : P (option nat)) : P (option nat) :=
  binary_expr or_op (proc_exclusive_or_expr cast).

(** ** Operands; [assign] and [cast] are the functions for the inner expressions *)

Fixpoint param_loop (fuel : nat) (assign : P (option nat)) (node : nat) : P unit :=
  token ← finsh_token_token;
  if decide (token = token_comma) then
    match fuel with
    | O => fail FHang
    | S fuel =>
        new ← assign;
        link_sibling node new;;
        match new with
        | Some i => param_loop fuel assign i
        | None => parse_error FINSH_ERROR_EXPECT_OPERATOR;; param_loop fuel assign node
        end
    end
  else finsh_token_replay.
Definition proc_param_list (assign : P (option nat)) : P (option nat) :=
  node ← assign;
  match node with
  | None => mret None
  | Some i =>
      fuel ← char_fuel;
      param_loop fuel assign i;;
      mret (Some i)
  end.

(** The token's string, which has to have an end. *)
Definition token_string : P (list Z) :=
  s ← get;
  let l := tk_string (fp_token s) in
  if (zlen (up_to_end l) <? FINSH_STRING_MAX) then mret (up_to_end l) else fail FBounds.
Definition proc_primary_expr (assign : P (option nat)) : P (option nat) :=
  token ← finsh_token_token;
  v ← gets (λ s, tk_value (fp_token s));
  match token with
  | token_identifier =>
      finsh_token_replay;;
      id ← proc_identifier;
      on_finsh (finsh_node_new_id id)
  | token_left_paren =>
      expr ← assign;
      match_token token_right_paren;;
      mret expr
  | token_value_int => on_finsh (finsh_node_new_int (s32 v))
  | token_value_long => on_finsh (finsh_node_new_long (s32 v))
  | token_value_char => on_finsh (finsh_node_new_char (u8 v))
  | token_value_string =>
      l ← token_string;
      on_finsh (finsh_node_new_string l)
  | token_value_null => on_finsh (finsh_node_new_ptr 0)
  | _ => parse_error FINSH_ERROR_INVALID_TOKEN;; mret None
  end.

(** The parameters, after the left parenthesis. *)
Definition call_params (assign : P (option nat)) : P (option nat) :=
  token ← finsh_token_token;
  if decide (token = token_right_paren) then mret None
  else
    finsh_token_replay;;
    params ← proc_param_list assign;
    match_token token_right_paren;;
    mret params.
Fixpoint postfix_loop (fuel : nat) (assign : P (option nat)) (node : option nat) : P (option nat) :=
  token ← finsh_token_token;
  match token, fuel with
  | token_inc, S fuel =>
      node ← make_sys_node FINSH_NODE_SYS_INC node None;
      postfix_loop fuel assign node
  | token_dec, S fuel =>
      node ← make_sys_node FINSH_NODE_SYS_DEC node None;
      postfix_loop fuel assign node
  | token_left_paren, S fuel =>
      params ← call_params assign;
      node ← make_sys_node FINSH_NODE_SYS_FUNC node params;
      postfix_loop fuel assign node
  | token_inc, O | token_dec, O | token_left_paren, O => fail FHang
  | _, _ => finsh_token_replay;; mret node
  end.
Definition proc_postfix_expr (assign : P (option nat)) : P (option nat) :=
  node ← proc_primary_expr assign;
  fuel ← char_fuel;
  postfix_loop fuel assign node.

Definition unary_node (type : node_kind) (cast : P (option nat)) : P (option nat) :=
  node ← cast; make_sys_node type node None.
Definition proc_unary_expr (assign cast : P (option nat)) : P (option nat) :=
  token ← finsh_token_token;
  match token with
  | token_add => cast
  | token_inc => unary_node FINSH_NODE_SYS_PREINC cast
  | token_sub =>
      node ← cast;
      zero ← on_finsh (finsh_node_new_long 0);
      make_sys_node FINSH_NODE_SYS_SUB zero node
  | token_dec => unary_node FINSH_NODE_SYS_PREDEC cast
  | token_bitwise => unary_node FINSH_NODE_SYS_BITWISE cast
  | token_mul => unary_node FINSH_NODE_SYS_GETVALUE cast
  | token_and => unary_node FINSH_NODE_SYS_GETADDR cast
  | _ => finsh_token_replay;; proc_postfix_expr assign
  end.

(** Every left parenthesis here begins a cast. *)
Definition cast_body (assign cast : P (option nat)) : P (option nat) :=
  token ← finsh_token_token;
  if decide (token = token_left_paren) then
    type ← proc_type;
    match_token token_right_paren;;
    node ← cast;
    match node with
    | Some i =>
        on_finsh (upd_data i (set_data_type (finsh_type_code type)));;
        mret node
    | None => finsh_token_replay;; proc_unary_expr assign cast
    end
  else finsh_token_replay;; proc_unary_expr assign cast.
Definition assign_body (assign cast : P (option nat)) : P (option nat) :=
  node ← proc_inclusive_or_expr cast;
  token ← finsh_token_token;
  if decide (token = token_assign) then
    new ← assign;
    make_sys_node FINSH_NODE_SYS_ASSIGN node new
  else finsh_token_replay;; mret node.
Fixpoint proc_assign_expr (depth : nat) : P (option nat) :=
  match depth with
  | O => fail FHang
  | S depth => assign_body (λ s, proc_assign_expr depth s) (λ s, proc_cast_expr depth s)
  end
with proc_cast_expr (depth : nat) : P (option nat) :=
  match depth with
  | O => fail FHang
  | S depth => cast_body (λ s, proc_assign_expr depth s) (λ s, proc_cast_expr depth s)
  end.
(** An inner expression is entered by a token, through a cast or an assignment. *)
Definition depth_fuel : P nat := n ← char_fuel; mret (2 * n)%nat.
Definition proc_expr : P (option nat) := depth ← depth_fuel; proc_assign_expr depth.

(** ** Statements and declarations *)

Definition proc_expr_statement : P (option nat) :=
  token ← finsh_token_token;
  if decide (token = token_semicolon) then mret None
  else
    finsh_token_replay;;
    expr ← proc_expr;
    match_token token_semicolon;;
    mret expr.

Definition declare (type : finsh_type) : P (list Z) :=
  id ← proc_identifier;
  r ← on_finsh (finsh_var_insert id type);
  (if r <? 0 then parse_error FINSH_ERROR_VARIABLE_EXIST else mret ());;
  mret id.
(** The initialiser of a declarator, after [=]: the token reached, the first
    and the last of the nodes made. *)
Definition decl_assign (id : list Z) (node last : option nat) :
    P (token_type * option nat * option nat) :=
  assign ← proc_expr;
  match assign with
  | None => mret (token_assign, node, last)
  | Some _ =>
      idnode ← on_finsh (finsh_node_new_id id);
      new ← make_sys_node FINSH_NODE_SYS_ASSIGN idnode assign;
      (match node, last with
       | Some _, Some e => link_sibling e new
       | Some _, None => fail FNull
       | None, _ => mret ()
       end);;
      token ← finsh_token_token;
      mret (token, (match node with Some _ => node | None => new end), new)
  end.
Fixpoint decl_loop (fuel : nat) (type : finsh_type) (token : token_type) (node last : option nat) :
    P (token_type * option nat) :=
  if decide (token = token_comma) then
    match fuel with
    | O => fail FHang
    | S fuel =>
        id ← declare type;
        token ← finsh_token_token;
        if decide (token = token_assign) then
          '(token, node, last) ← decl_assign id node last;
          decl_loop fuel type token node last
        else decl_loop fuel type token node last
    end
  else mret (token, node).
Definition proc_variable_decl : P (option nat) :=
  type ← proc_type;
  id ← declare type;
  token ← finsh_token_token;
  match token with
  | token_comma =>
      fuel ← char_fuel;
      '(token, node) ← decl_loop (S fuel) type token None None;
      check_token token token_semicolon;;
      mret node
  | token_assign =>
      fuel ← char_fuel;
      '(token, node, last) ← decl_assign id None None;
      '(token, node) ← decl_loop fuel type token node last;
      check_token token token_semicolon;;
      mret node
  | token_semicolon => mret None
  | _ => parse_error FINSH_ERROR_EXPECT_TYPE;; mret None
  end.

(** ** The parser *)

(** A statement or a declaration, linked behind the last node; [None] for the
    last node stands where there is no root. *)
Definition parse_item (token : token_type) (node : option nat) : P (option nat) :=
  finsh_token_replay;;
  s ← get;
  let is_decl := is_base_type token || bool_decide (token = token_unsigned) in
  let item := if is_decl then proc_variable_decl else proc_expr_statement in
  match fp_root s with
  | None =>
      new ← item;
      modify (λ s, mk_fparser (fp_token s) new (fp_finsh s));;
      mret new
  | Some _ =>
      new ← item;
      (match node with Some i => link_sibling i new | None => fail FNull end);;
      match new with
      | Some _ => mret new
      | None =>
          (if is_decl || bool_decide (token = token_identifier) then mret ()
           else finsh_token_token;; mret ());;
          mret node
      end
  end.
Fixpoint parser_loop (fuel : nat) (token : token_type) (node : option nat) : P unit :=
  match token with
  | token_eof | token_bad => mret ()
  | _ =>
      match fuel with
      | O => fail FHang
      | S fuel =>
          node ← parse_item token node;
          s ← get;
          match fp_root s with
          | None => mret ()
          | Some _ => token ← finsh_token_token; parser_loop fuel token node
          end
      end
  end.
Definition finsh_parser_run (string : list Z) : P unit :=
  finsh_token_init string;;
  token ← finsh_token_token;
  fuel ← char_fuel;
  parser_loop fuel token None.
Definition finsh_parser_init : P unit :=
  modify (λ s, mk_fparser zero_token None (fp_finsh s)).

(** ** [finsh_init.c] *)

Definition finsh_init : P unit :=
  finsh_parser_init;;
  on_finsh (finsh_node_init;; finsh_var_init;; finsh_error_init;; finsh_heap_init).
Definition finsh_flush : P unit :=
  finsh_parser_init;;
  on_finsh (finsh_node_init;; finsh_error_init).
Definition finsh_reset : P unit :=
  on_finsh (finsh_node_init;; finsh_var_init;; finsh_error_init;; finsh_heap_init).
End parser.
