(* ===== verification/FinshParse.v ===== *)
(** * The syntax of expressions, and the parser on their tokens

    An expression as it is written, the tokens that spell it, and the nodes the
    parser is to make of it. Parentheses only enclose parameters, since a left
    parenthesis before an operand begins a cast; casts and strings are left out.
    [ahead t ls]: the tokens [ls] are what is read from [t] on. [yields]: the
    nodes made are the tree meant, in entries of the table that were free. *)

From Stdlib Require Import ZArith Lia.
From stdpp Require Import base list.
From S2P Require Import RTThread.
From S2P Require Import Prelude.
From S2P Require Import Bytes.
From S2P Require Import FinshVm.
From S2P Require Import Finsh.
From S2P Require Import FinshNode.
From S2P Require Import FinshCompileSpec.
From S2P Require Import FinshExpr.
From S2P Require Import FinshToken.
From S2P Require Import FinshParser.

(** ** Expressions *)

Inductive unop : Set := UPlus | UNeg | UNot | UDeref | UAddr | UInc | UDec.
Inductive sexp : Set :=
  | SChar (c : Z)
  | SInt (n : Z)
  | SLong (n : Z)
  | SNull
  | SId (name : list Z)
  | SBin (op : binop) (a b : sexp)
  | SUn (u : unop) (a : sexp)
  | SPost (up : bool) (a : sexp)
  | SAssign (a b : sexp)
  | SCall (f : sexp) (args : sexps)
with sexps : Set :=
  | SNil
  | SCons (a : sexp) (args : sexps).
Scheme sexp_mind := Induction for sexp Sort Prop
  with sexps_mind := Induction for sexps Sort Prop.
Combined Scheme sexp_sexps_ind from sexp_mind, sexps_mind.

(** ** Tokens *)

Inductive lexeme : Set :=
  | LOp (t : token_type)
  | LChar (c : Z)
  | LInt (n : Z)
  | LLong (n : Z)
  | LId (name : list Z).
Definition kind (l : lexeme) : token_type :=
  match l with
  | LOp t => t
  | LChar _ => token_value_char
  | LInt _ => token_value_int
  | LLong _ => token_value_long
  | LId _ => token_identifier
  end.

Definition binop_token (op : binop) : token_type :=
  match op with
  | Add => token_add | Sub => token_sub | Mul => token_mul | Div => token_div | Mod => token_mod
  | And => token_and | Or => token_or | Xor => token_xor | Shl => token_shl | Shr => token_shr
  end.
Definition unop_token (u : unop) : token_type :=
  match u with
  | UPlus => token_add | UNeg => token_sub | UNot => token_bitwise | UDeref => token_mul
  | UAddr => token_and | UInc => token_inc | UDec => token_dec
  end.
Definition post_token (up : bool) : token_type := if up then token_inc else token_dec.
Fixpoint toks (e : sexp) : list lexeme :=
  match e with
  | SChar c => [LChar c]
  | SInt n => [LInt n]
  | SLong n => [LLong n]
  | SNull => [LOp token_value_null]
  | SId name => [LId name]
  | SBin op a b => toks a ++ LOp (binop_token op) :: toks b
  | SUn u a => LOp (unop_token u) :: toks a
  | SPost up a => toks a ++ [LOp (post_token up)]
  | SAssign a b => toks a ++ LOp token_assign :: toks b
  | SCall f args => toks f ++ LOp token_left_paren :: toks_args args ++ [LOp token_right_paren]
  end
with toks_args (args : sexps) : list lexeme :=
  match args with
  | SNil => []
  | SCons a args => toks a ++ match args with SNil => [] | _ => LOp token_comma :: toks_args args end
  end.

(** ** Precedence *)

Definition binop_level (op : binop) : nat :=
  match op with
  | Or => 1 | Xor => 2 | And => 3 | Shl | Shr => 4 | Add | Sub => 5 | Mul | Div | Mod => 6
  end.
Definition level (e : sexp) : nat :=
  match e with
  | SAssign _ _ => 0
  | SBin op _ _ => binop_level op
  | SUn _ _ => 7
  | SPost _ _ | SCall _ _ => 8
  | _ => 9
  end.
(** Operands bind tighter than their operators, those on the right of a binary
    operator strictly. *)
Fixpoint well_formed (e : sexp) : bool :=
  match e with
  | SBin op a b =>
      (binop_level op <=? level a)%nat && (binop_level op <? level b)%nat && well_formed a && well_formed b
  | SUn _ a => (7 <=? level a)%nat && well_formed a
  | SPost _ a => (8 <=? level a)%nat && well_formed a
  | SAssign a b => (1 <=? level a)%nat && well_formed a && well_formed b
  | SCall f args => (8 <=? level f)%nat && well_formed f && well_formed_args args
  | _ => true
  end
with well_formed_args (args : sexps) : bool :=
  match args with SNil => true | SCons a args => well_formed a && well_formed_args args end.

(** ** Nodes *)

Fixpoint node_count (e : sexp) : nat :=
  match e with
  | SBin _ a b | SAssign a b => S (node_count a + node_count b)
  | SUn UPlus a => node_count a
  | SUn UNeg a => S (S (node_count a))
  | SUn _ a | SPost _ a => S (node_count a)
  | SCall f args => S (node_count f + node_count_args args)
  | _ => 1
  end
with node_count_args (args : sexps) : nat :=
  match args with SNil => 0 | SCons a args => node_count a + node_count_args args end.

Definition unop_kind (u : unop) : node_kind :=
  match u with
  | UNot => FINSH_NODE_SYS_BITWISE
  | UDeref => FINSH_NODE_SYS_GETVALUE
  | UAddr => FINSH_NODE_SYS_GETADDR
  | UInc => FINSH_NODE_SYS_PREINC
  | UDec => FINSH_NODE_SYS_PREDEC
  | UPlus | UNeg => FINSH_NODE_SYS_SUB
  end.
Definition post_kind (up : bool) : node_kind := if up then FINSH_NODE_SYS_INC else FINSH_NODE_SYS_DEC.

Section nodes.
Context (resolve : list Z → option idref).

Fixpoint node_tree (e : sexp) (s : tree unit) : tree unit :=
  match e with
  | SChar c => Node tt (value_data FINSH_NODE_VALUE_CHAR (u8 c)) Leaf s
  | SInt n => Node tt (value_data FINSH_NODE_VALUE_INT (u32 n)) Leaf s
  | SLong n => Node tt (value_data FINSH_NODE_VALUE_LONG (u32 n)) Leaf s
  | SNull => Node tt (value_data FINSH_NODE_VALUE_NULL 0) Leaf s
  | SId name => Node tt (id_data (default id_null (resolve name))) Leaf s
  | SBin op a b => Node tt (sys (binop_kind op)) (node_tree a (node_tree b Leaf)) s
  | SUn UPlus a => node_tree a s
  | SUn UNeg a =>
      Node tt (sys FINSH_NODE_SYS_SUB) (Node tt (value_data FINSH_NODE_VALUE_LONG 0) Leaf (node_tree a Leaf)) s
  | SUn u a => Node tt (sys (unop_kind u)) (node_tree a Leaf) s
  | SPost up a => Node tt (sys (post_kind up)) (node_tree a Leaf) s
  | SAssign a b => Node tt (sys FINSH_NODE_SYS_ASSIGN) (node_tree a (node_tree b Leaf)) s
  | SCall f args => Node tt (sys FINSH_NODE_SYS_FUNC) (node_tree f (node_trees args)) s
  end
with node_trees (args : sexps) : tree unit :=
  match args with SNil => Leaf | SCons a args => node_tree a (node_trees args) end.

Definition resolved (name : list Z) : bool := match resolve name with Some _ => true | None => false end.
(** Every name is known. *)
Fixpoint known (e : sexp) : bool :=
  match e with
  | SId name => resolved name
  | SBin _ a b | SAssign a b => known a && known b
  | SUn _ a | SPost _ a => known a
  | SCall f args => known f && known_args args
  | _ => true
  end
with known_args (args : sexps) : bool :=
  match args with SNil => true | SCons a args => known a && known_args args end.

(** The expression that is meant; assignments are to names and dereferences,
    and a step is of a variable. *)
Definition elab_un (u : unop) (a : expr) : option expr :=
  match u, a with
  | UPlus, _ => Some a
  | UNeg, _ => Some (ENeg a)
  | UNot, _ => Some (ENot a)
  | UDeref, _ => Some (EDeref a)
  | UAddr, EId r => Some (EAddr r)
  | UInc, EId (id_var i) => Some (EPre true i)
  | UDec, EId (id_var i) => Some (EPre false i)
  | _, _ => None
  end.
Definition elab_post (up : bool) (a : expr) : option expr :=
  match a with EId (id_var i) => Some (EPost up i) | _ => None end.
Definition elab_assign (a b : expr) : option expr :=
  match a with EId r => Some (EAssign r b) | EDeref p => Some (EStore p b) | _ => None end.
Fixpoint elab (e : sexp) : option expr :=
  match e with
  | SChar c => Some (EChar c)
  | SInt n => Some (EInt n)
  | SLong n => Some (ELong n)
  | SNull => Some ENull
  | SId name => EId <$> resolve name
  | SBin op a b => a ← elab a; b ← elab b; Some (EBin op a b)
  | SUn u a => a ← elab a; elab_un u a
  | SPost up a => a ← elab a; elab_post up a
  | SAssign a b => a ← elab a; b ← elab b; elab_assign a b
  | SCall f args => f ← elab f; args ← elabs args; Some (ECall f args)
  end
with elabs (args : sexps) : option exprs :=
  match args with
  | SNil => Some ENil
  | SCons a args => a ← elab a; args ← elabs args; Some (ECons a args)
  end.

Lemma elab_tree_all :
  (∀ e x s, elab e = Some x → node_tree e s = raw x s) ∧
  (∀ es xs, elabs es = Some xs → node_trees es = raws xs).
Proof.
  apply sexp_sexps_ind; cbn [elab elabs]; intros;
    repeat match goal with
      | He : _ ≫= _ = Some _ |- _ => apply bind_Some in He as (? & ? & He)
      | He : Some _ = Some _ |- _ => injection He as <-
      | IH : ∀ x s, elab ?a = Some x → _, He : elab ?a = Some ?y |- _ =>
          pose proof (λ s, IH y s He); clear IH
      | IH : ∀ xs, elabs ?a = Some xs → _, He : elabs ?a = Some ?y |- _ => specialize (IH y He)
      end; try done; cbn [node_tree node_trees raw raws].
  - destruct (resolve name); [|done]. by simplify_eq/=.
  - congruence.
  - match goal with Hu : elab_un _ ?y = _, Ha : ∀ s, _ = raw ?y s |- _ =>
      destruct u; simpl in Hu; try destruct y; try done; repeat case_match; simplify_eq; cbn [raw];
      try by rewrite Ha end.
  - match goal with Hu : elab_post _ ?y = _, Ha : ∀ s, _ = raw ?y s |- _ =>
      destruct y; try done; simpl in Hu; repeat case_match; simplify_eq; cbn [raw]; by rewrite Ha end.
  - match goal with Hu : elab_assign ?y _ = _, Ha : ∀ s, _ = raw ?y s |- _ =>
      destruct y; try done; simpl in Hu; simplify_eq; rewrite Ha; cbn [raw]; congruence end.
  - congruence.
  - congruence.
Qed.
Lemma elab_known_all :
  (∀ e x, elab e = Some x → known e = true) ∧ (∀ es xs, elabs es = Some xs → known_args es = true).
Proof.
  apply sexp_sexps_ind; cbn [elab elabs known known_args]; intros;
    repeat match goal with
      | He : _ ≫= _ = Some _ |- _ => apply bind_Some in He as (? & ? & He)
      end; rewrite ?andb_true_iff; split_and?; eauto.
  unfold resolved. by destruct (resolve name).
Qed.
End nodes.

(** ** The symbols of a state *)

Section symbols.
Context `{!FinshLayout}.
Definition symbol_of (f : finsh) (name : list Z) : option idref :=
  match find_symbol name f with Ok _ (Some (r, _)) => Some r | _ => None end.

Lemma lookup_symbol_pure {A} (n : A → list Z) l l' name f :
  match lookup_symbol n l l' name f with Ok f' _ => f' = f | Err _ => True end ∧
  (∀ nodes, lookup_symbol n l l' name (set_nodes nodes f) =
    match lookup_symbol n l l' name f with Ok _ x => Ok (set_nodes nodes f) x | Err e => Err e end).
Proof.
  unfold lookup_symbol. assert (∀ f, match find_entry n l name f with Ok f' _ => f' = f | Err _ => True end ∧
    (∀ nodes, find_entry n l name (set_nodes nodes f) =
      match find_entry n l name f with Ok _ x => Ok (set_nodes nodes f) x | Err e => Err e end)) as Hf.
  { clear f. intros f. induction l as [|x l IH]; [done|]. cbn [find_entry]. unfold str_eq, mbind, ST_bind.
    destruct (zlen name <? FINSH_NAME_MAX).
    - destruct (bool_decide (n x = name)); [done|exact IH].
    - destruct (strn_eq FINSH_NAME_MAX (n x) name); [done|exact IH]. }
  destruct (Hf f) as [Hp Hn]. unfold mbind, ST_bind.
  split.
  - destruct (find_entry n l name f) as [f' [y|]|]; [done| |done]. subst. unfold find_prefix.
    destruct (bool_decide (l' = [])); [done|]. by destruct (FINSH_NAME_MAX <=? zlen name).
  - intros nodes. rewrite Hn. destruct (find_entry n l name f) as [f' [y|]|]; [done| |done]. subst.
    unfold find_prefix. destruct (bool_decide (l' = [])); [done|]. by destruct (FINSH_NAME_MAX <=? zlen name).
Qed.
Lemma symbol_found f name r nodes : symbol_of f name = Some r →
  find_symbol name (set_nodes nodes f) = Ok (set_nodes nodes f) (Some (r, idtype (id_data r))).
Proof.
  unfold symbol_of, find_symbol, finsh_var_lookup, finsh_sysvar_lookup, finsh_syscall_lookup.
  unfold mbind, ST_bind, get, mret, ST_ret. cbn [global_variable set_nodes sysvar_table global_sysvar_list syscall_table global_syscall_list].
  destruct (find_var name (global_variable f)); [intros; by simplify_eq|].
  destruct (lookup_symbol_pure sv_name (sysvar_table f) (global_sysvar_list f) name f) as [Hp Hn]. rewrite Hn.
  destruct (lookup_symbol sv_name _ _ name f) as [f' [v|]|]; [|subst|done]; [intros; by simplify_eq|].
  destruct (lookup_symbol_pure sc_name (syscall_table f) (global_syscall_list f) name f) as [_ Hn']. rewrite Hn'.
  destruct (lookup_symbol sc_name _ _ name f) as [f'' [c|]|]; simpl; intros; by simplify_eq.
Qed.
End symbols.

(** ** The states of the parser *)

(** ** Tokens ahead *)

Definition shows (t : finsh_token) (l : lexeme) : Prop :=
  tk_current t = kind l ∧
  match l with
  | LOp _ => True
  | LChar c => u8 (tk_value t) = u8 c
  | LInt n | LLong n => tk_value t = u32 n
  | LId name => take (Z.to_nat FINSH_NAME_MAX) (up_to_end (tk_string t)) = name
  end.

Section ahead.
Context (L : nat).

Definition runs_to (t t' : finsh_token) : Prop :=
  ∀ r f, token_run (mk_fparser t r f) = Ok (mk_fparser t' r f) tt.
Fixpoint reads (t : finsh_token) (ls : list lexeme) : Prop :=
  length (tk_line t) = L ∧
  match ls with
  | [] => True
  | l :: ls => ∃ t', runs_to t t' ∧ shows t' l ∧ tk_replay t' = false ∧ reads t' ls
  end.
Definition past (t : finsh_token) (l : lexeme) (ls : list lexeme) : Prop :=
  shows t l ∧ tk_replay t = false ∧ reads t ls.
Definition ahead (t : finsh_token) (ls : list lexeme) : Prop :=
  (tk_replay t = false ∧ reads t ls) ∨
  ∃ l ls', ls = l :: ls' ∧ tk_replay t = true ∧ past (set_tk_replay false t) l ls'.

Lemma reads_length t ls : reads t ls → length (tk_line t) = L.
Proof. by destruct ls; intros []. Qed.
Lemma ahead_length t ls : ahead t ls → length (tk_line t) = L.
Proof. intros [[_ Hr]|(l & ls' & _ & _ & _ & _ & Hr)]; exact (reads_length _ _ Hr). Qed.
Lemma past_ahead t l ls : past t l ls → ahead t ls.
Proof. intros (_ & Hr & Hs). by left. Qed.

(** ** States of the parser *)

Context `{!FinshLayout}.
Context (r : option nat) (F0 : finsh).
Definition st (t : finsh_token) (n : list finsh_node) : fparser := mk_fparser t r (set_nodes n F0).

Lemma take_token t n l ls : ahead t (l :: ls) → ∃ t',
  finsh_token_token (st t n) = Ok (st t' n) (kind l) ∧ past t' l ls.
Proof.
  intros [[Hr (_ & t' & Hrun & Hs & Hr' & Hls)]|(l' & ls' & [= <- <-] & Hr & Hs & Hr' & Hls)].
  - exists t'. split; [|done]. unfold finsh_token_token, st. rewrite get_bind. cbn [fp_token]. rewrite Hr.
    rewrite (bind_ok _ _ _ _ _ (Hrun _ _)). unfold gets. simpl. by destruct Hs as [-> _].
  - exists (set_tk_replay false t). split; [|done]. unfold finsh_token_token, st. rewrite get_bind. cbn [fp_token].
    rewrite Hr. erewrite bind_ok by done. unfold gets. simpl. by destruct Hs as [<- _].
Qed.
Lemma give_back t n l ls : past t l ls → ∃ t', finsh_token_replay (st t n) = Ok (st t' n) tt ∧
  ahead t' (l :: ls) ∧ shows t' l.
Proof.
  intros (Hs & Hr & Hls). exists (set_tk_replay true t). split_and!; [done| |done]. right. exists l, ls.
  split_and!; try done. destruct t. simpl in *. by subst.
Qed.
Lemma replayed t n l ls : ahead t (l :: ls) → ∃ t', (finsh_token_token ≫= λ _, finsh_token_replay) (st t n) = Ok (st t' n) tt ∧
  ahead t' (l :: ls) ∧ shows t' l.
Proof.
  intros Ha. destruct (take_token t n l ls Ha) as (t1 & E1 & Hp). destruct (give_back t1 n l ls Hp) as (t2 & E2 & H2).
  exists t2. by rewrite (bind_ok _ _ _ _ _ E1).
Qed.
Lemma match_token_ok t n l ls type : ahead t (l :: ls) → kind l = type → ∃ t',
  match_token type (st t n) = Ok (st t' n) tt ∧ past t' l ls.
Proof.
  intros Ha Hk. destruct (take_token t n l ls Ha) as (t' & E & Hp). exists t'. split; [|done].
  unfold match_token. rewrite (bind_ok _ _ _ _ _ E). unfold check_token. by rewrite decide_True.
Qed.
Lemma char_fuel_ok t n ls : ahead t ls → char_fuel (st t n) = Ok (st t n) (S (S L)).
Proof. intros Ha. unfold char_fuel, gets. simpl. by rewrite (ahead_length _ _ Ha). Qed.

(** ** Nodes *)

(** The first [k] entries are in use, the others as [finsh_node_init] left them. *)
Definition fresh (k : nat) (n : list finsh_node) : Prop :=
  length n = 16%nat ∧ (k ≤ 16)%nat ∧
  (∀ i x, n !! i = Some x → (i < k)%nat → node_type (nd x) ≠ FINSH_NODE_UNKNOWN) ∧
  (∀ i, (k ≤ i < 16)%nat → n !! i = Some zero_node).
Definition agree (lo : nat) (n n' : list finsh_node) : Prop := ∀ i, (i < lo)%nat → n' !! i = n !! i.
Definition built (lo hi : nat) (n : list finsh_node) (o : option nat) (T : tree unit) : Prop :=
  ∃ t, linked n t ∧ root t = o ∧ NoDup (labels t) ∧ Forall (λ j, lo ≤ j < hi)%nat (labels t) ∧ strip t = T.
Definition yields (lo : nat) (n n' : list finsh_node) (hi : nat) (o : option nat) (T : tree unit) : Prop :=
  fresh hi n' ∧ (lo ≤ hi)%nat ∧ agree lo n n' ∧ built lo hi n' o T.

Definition new_data (type : node_kind) : node_data := mk_data type 0 0 0 id_null.
Lemma upd_node_set i g x n : n !! i = Some x →
  upd_node i g (set_nodes n F0) = Ok (set_nodes (<[i := g x]> n) F0) tt.
Proof. intros Hx. by rewrite (upd_node_ok i g x). Qed.
Lemma allocate_ok k n type : fresh k n → (k < 16)%nat →
  finsh_node_allocate type (set_nodes n F0) =
    Ok (set_nodes (<[k := mk_node (new_data type) None None]> n) F0) (Some k).
Proof.
  intros (Hl & _ & Hu & Hz) Hk. unfold finsh_node_allocate. rewrite get_bind. cbn [global_node_table set_nodes].
  assert (list_find (λ n, node_type (nd n) = FINSH_NODE_UNKNOWN) n = Some (k, zero_node)) as ->.
  { apply list_find_Some. split_and!; [by apply Hz; lia|done|]. intros j y Hy Hj. by apply (Hu j y). }
  unfold upd_data. by rewrite (bind_ok _ _ _ _ _ (upd_node_set k _ zero_node n (Hz k ltac:(lia)))).
Qed.
Lemma fresh_insert k n d o c : fresh k n → (k < 16)%nat → node_type d ≠ FINSH_NODE_UNKNOWN →
  fresh (S k) (<[k := mk_node d o c]> n).
Proof.
  intros (Hl & _ & Hu & Hz) Hk Hd. split_and!; [by rewrite length_insert|lia| |].
  - intros i x Hi Hlt. destruct (decide (i = k)) as [->|].
    + rewrite list_lookup_insert_eq in Hi by lia. by injection Hi as <-.
    + rewrite list_lookup_insert_ne in Hi by done. apply (Hu i x); [done|lia].
  - intros i Hi. rewrite list_lookup_insert_ne by lia. apply Hz. lia.
Qed.
(** Changing the links of a node in use. *)
Lemma fresh_relink k n i d o c o' c' : fresh k n → n !! i = Some (mk_node d o c) → (i < k)%nat →
  fresh k (<[i := mk_node d o' c']> n).
Proof.
  intros (Hl & Hk & Hu & Hz) Hi Hik. split_and!; [by rewrite length_insert|done| |].
  - intros j x Hj Hlt. destruct (decide (j = i)) as [->|].
    + rewrite list_lookup_insert_eq in Hj by lia. injection Hj as <-. exact (Hu i _ Hi Hik).
    + rewrite list_lookup_insert_ne in Hj by done. by apply (Hu j x).
  - intros j Hj. rewrite list_lookup_insert_ne by lia. by apply Hz.
Qed.
Lemma agree_trans lo lo' n n' n'' : agree lo n n' → agree lo' n' n'' → (lo ≤ lo')%nat → agree lo n n''.
Proof. intros H1 H2 Hle i Hi. rewrite H2 by lia. by apply H1. Qed.
Lemma agree_insert lo n i x : (lo ≤ i)%nat → agree lo n (<[i := x]> n).
Proof. intros Hi j Hj. apply list_lookup_insert_ne. lia. Qed.
Lemma linked_agree lo hi n n' t : linked n t → Forall (λ j, lo ≤ j < hi)%nat (labels t) → agree hi n n' → linked n' t.
Proof.
  intros Hl Hf Ha. eapply linked_ext; [|exact Hl]. intros i Hi. rewrite Forall_forall in Hf. apply Ha.
  specialize (Hf i Hi). lia.
Qed.
Lemma linked_insert n i x t : linked n t → i ∉ labels t → linked (<[i := x]> n) t.
Proof.
  intros Hl Hi. eapply linked_ext; [|exact Hl]. intros j Hj. apply list_lookup_insert_ne. by intros ->.
Qed.
Lemma built_agree lo hi n n' o T : built lo hi n o T → agree hi n n' → built lo hi n' o T.
Proof.
  intros (t & Hl & Hr & Hnd & Hf & Hs) Ha. exists t. split_and!; try done. by eapply linked_agree.
Qed.
Lemma built_none lo hi n : built lo hi n None Leaf.
Proof. exists Leaf. split_and!; try done; constructor. Qed.
Lemma yields_none k n : fresh k n → yields k n n k None Leaf.
Proof. intros Hf. split_and!; try done. apply built_none. Qed.

Lemma new_node_ok k n type fill : fresh k n → (k < 16)%nat → type ≠ FINSH_NODE_UNKNOWN →
  node_type (fill (new_data type)) = type → ∃ n',
  new_node type fill (set_nodes n F0) = Ok (set_nodes n' F0) (Some k) ∧
  yields k n n' (S k) (Some k) (Node tt (fill (new_data type)) Leaf Leaf).
Proof.
  intros Hf Hk Ht Hty. eexists. split.
  - unfold new_node. rewrite (bind_ok _ _ _ _ _ (allocate_ok k n type Hf Hk)). unfold upd_data.
    erewrite bind_ok; [done|]. apply upd_node_set. apply list_lookup_insert_eq. by destruct Hf as [-> _].
  - rewrite list_insert_insert_eq. unfold set_nd. cbn [nd sibling child]. split_and!.
    + apply fresh_insert; try done. congruence.
    + lia.
    + by apply agree_insert.
    + exists (Node k (fill (new_data type)) Leaf Leaf). split_and!; try done.
      * simpl. split_and!; try done. apply list_lookup_insert_eq. by destruct Hf as [-> _].
      * simpl. apply NoDup_singleton.
      * simpl. constructor; [lia|constructor].
Qed.

(** An operator over a node and what is put beside it, made before or after. *)
Lemma make_sys_node_any t lo n n2 k2 type i d c o T a1 b1 a2 b2 :
  fresh k2 n2 → agree lo n n2 → built a1 b1 n2 (Some i) (Node tt d c Leaf) → built a2 b2 n2 o T →
  (lo ≤ a1 ∧ lo ≤ a2 ∧ b1 ≤ k2 ∧ b2 ≤ k2)%nat → (b1 ≤ a2 ∨ b2 ≤ a1)%nat → (k2 < 16)%nat →
  type ≠ FINSH_NODE_UNKNOWN → ∃ n3,
  make_sys_node type (Some i) o (st t n2) = Ok (st t n3) (Some k2) ∧
  yields lo n n3 (S k2) (Some k2) (Node tt (sys type) (Node tt d c T) Leaf).
Proof.
  intros Hf2 Ha (t1 & Hl1 & Hr1 & Hnd1 & Hb1 & Hs1) (t2 & Hl2 & Hr2 & Hnd2 & Hb2 & Hs2) Hin Hsep Hk Hty.
  destruct t1 as [|i' d1 c1 [|]]; try done. injection Hr1 as ->. injection Hs1 as -> Hs1.
  cbn [labels] in Hnd1, Hb1. rewrite app_nil_r in Hnd1, Hb1. simpl in Hl1. destruct Hl1 as (Hi2 & Hc1 & _).
  apply NoDup_cons in Hnd1 as [Hnd1 Hndc]. apply Forall_cons in Hb1 as [Hbi Hbc].
  rewrite Forall_forall in Hbc, Hb2.
  set (n3 := <[k2 := mk_node (new_data type) None (Some i)]> n2).
  assert (length n2 = 16%nat) as Hlen by apply Hf2.
  assert (n3 !! i = Some (mk_node d None (root c1))) as Hi3 by (unfold n3; rewrite list_lookup_insert_ne by lia; done).
  exists (<[i := mk_node d o (root c1)]> n3). split.
  - unfold make_sys_node. erewrite bind_ok; [|unfold on_finsh; cbn [fp_finsh st]; by rewrite (allocate_ok k2 n2 type Hf2 Hk)].
    lazy beta iota. rewrite bind_assoc. erewrite bind_ok.
    2:{ unfold on_finsh. cbn [fp_finsh fp_token fp_root].
        rewrite (upd_node_set k2 _ (mk_node (new_data type) None None)); [done|]. apply list_lookup_insert_eq. lia. }
    rewrite list_insert_insert_eq. unfold set_child. cbn [nd sibling child]. fold n3. erewrite bind_ok.
    2:{ unfold link_sibling, on_finsh. cbn [fp_finsh fp_token fp_root].
        by rewrite (upd_node_set i _ (mk_node d None (root c1))). }
    done.
  - assert (fresh (S k2) n3) as Hf3 by (apply fresh_insert; done).
    split_and!; [by eapply fresh_relink; [done|exact Hi3|lia]|lia| |].
    + intros j Hj. unfold n3. rewrite !list_lookup_insert_ne by lia. by apply Ha.
    + exists (Node k2 (sys type) (Node i d c1 t2) Leaf). cbn [linked root labels strip]. split_and!; try done.
      * rewrite list_lookup_insert_ne by lia. apply list_lookup_insert_eq. lia.
      * rewrite list_lookup_insert_eq by (unfold n3; rewrite length_insert; lia). by rewrite Hr2.
      * apply linked_insert; [|done]. apply linked_insert; [done|]. intros Hj. specialize (Hbc k2 Hj). lia.
      * apply linked_insert; [apply linked_insert; [done|]|]; intros Hj; specialize (Hb2 _ Hj); lia.
      * rewrite app_nil_r. apply NoDup_cons. split.
        { rewrite elem_of_cons, elem_of_app. intros [->|[Hj|Hj]]; [lia|specialize (Hbc k2 Hj); lia|specialize (Hb2 k2 Hj); lia]. }
        apply NoDup_cons. split.
        { rewrite elem_of_app. intros [Hj|Hj]; [done|specialize (Hb2 i Hj); lia]. }
        apply NoDup_app. split_and!; [done| |done]. intros j Hj Hj'. specialize (Hbc j Hj). specialize (Hb2 j Hj'). lia.
      * rewrite app_nil_r. apply Forall_cons. split; [lia|]. apply Forall_cons. split; [lia|].
        apply Forall_app. split; apply Forall_forall; intros j Hj; [specialize (Hbc j Hj)|specialize (Hb2 j Hj)]; lia.
      * by rewrite Hs1, Hs2.
Qed.
Lemma make_sys_node_ok t lo n n1 n2 k1 k2 type i d c o T :
  yields lo n n1 k1 (Some i) (Node tt d c Leaf) → yields k1 n1 n2 k2 o T → (k2 < 16)%nat →
  type ≠ FINSH_NODE_UNKNOWN → ∃ n3,
  make_sys_node type (Some i) o (st t n2) = Ok (st t n3) (Some k2) ∧
  yields lo n n3 (S k2) (Some k2) (Node tt (sys type) (Node tt d c T) Leaf).
Proof.
  intros (Hf1 & Hle1 & Ha1 & Hb1) (Hf2 & Hle2 & Ha2 & Hb2) Hk Hty.
  apply (make_sys_node_any t lo n n2 k2 type i d c o T lo k1 k1 k2); try done; [|by eapply built_agree|lia].
  intros j Hj. rewrite Ha2 by lia. by apply Ha1.
Qed.
(** With nothing beside the node. *)
Lemma make_sys_node_one t lo n n1 k1 type i d c :
  yields lo n n1 k1 (Some i) (Node tt d c Leaf) → (k1 < 16)%nat → type ≠ FINSH_NODE_UNKNOWN → ∃ n2,
  make_sys_node type (Some i) None (st t n1) = Ok (st t n2) (Some k1) ∧
  yields lo n n2 (S k1) (Some k1) (Node tt (sys type) (Node tt d c Leaf) Leaf).
Proof.
  intros Hy Hk Hty. eapply make_sys_node_ok; [done| |done|done]. apply yields_none. apply Hy.
Qed.
End ahead.
