(* ===== verification/FinshGrammar.v ===== *)
(** * The functions of the grammar, on the tokens of expressions and lines

    One lemma for each production, at the level of the expression; [lift] takes
    it to the other levels. [parses] puts them together by induction. Then the
    line: from the tokens of expressions, each ended by a semicolon,
    [finsh_parser_run] makes their nodes, one statement beside the other. *)

From Stdlib Require Import ZArith Lia.
From stdpp Require Import base list.
From S2P Require Import RTThread.
From S2P Require Import Prelude.
From S2P Require Import Bytes.
From S2P Require Import FinshVm.
From S2P Require Import Finsh.
From S2P Require Import FinshNode.
From S2P Require Import FinshCompileSpec.
From S2P Require Import FinshExpr.
From S2P Require Import FinshToken.
From S2P Require Import FinshParser.
From S2P Require Import FinshParse.

Section grammar.
Context `{!FinshLayout}.
Context (L : nat) (r : option nat) (F0 : finsh).
Notation st := (st r F0).
Notation ahead := (ahead L).
Notation past := (past L).
Notation tree_of := (node_tree (symbol_of F0)).
Notation trees_of := (node_trees (symbol_of F0)).

(** The level of the operator a token continues an expression with. *)
Definition continues (t : token_type) : option nat :=
  match t with
  | token_assign => Some 0
  | token_or => Some 1
  | token_xor => Some 2
  | token_and => Some 3
  | token_shl | token_shr => Some 4
  | token_add | token_sub => Some 5
  | token_mul | token_div | token_mod => Some 6
  | token_inc | token_dec | token_left_paren => Some 8
  | _ => None
  end%nat.
Definition stops (n : nat) (t : token_type) : bool :=
  match continues t with Some m => (m <? n)%nat | None => true end.
Lemma stops_le n m t : stops n t = true → (n ≤ m)%nat → stops m t = true.
Proof. unfold stops. destruct (continues t); [|done]. rewrite !Nat.ltb_lt. lia. Qed.

Definition level_op (n : nat) : token_type → option node_kind :=
  match n with
  | 1 => or_op | 2 => xor_op | 3 => and_op | 4 => shift_op | 5 => additive_op | 6 => multiplicative_op
  | _ => λ _, None
  end%nat.
Definition level_expr (n : nat) (cast : ST fparser (option nat)) : ST fparser (option nat) :=
  match n with
  | 1 => proc_inclusive_or_expr cast | 2 => proc_exclusive_or_expr cast | 3 => proc_and_expr cast
  | 4 => proc_shift_expr cast | 5 => proc_additive_expr cast | 6 => proc_multiplicative_expr cast
  | _ => cast
  end%nat.
Lemma level_step n cast : (1 ≤ n ≤ 6)%nat →
  level_expr n cast = binary_expr (level_op n) (level_expr (S n) cast).
Proof. intros Hn. do 7 (destruct n as [|n]; [first [lia|done]|]). lia. Qed.
Lemma level_op_continues n t k : level_op n t = Some k → continues t = Some n.
Proof. do 7 (destruct n as [|n]; [by destruct t|]). done. Qed.
Lemma level_op_stops n t : stops n t = true → level_op n t = None.
Proof.
  unfold stops. destruct (level_op n t) as [k|] eqn:Hk; [|done]. rewrite (level_op_continues n t k Hk).
  rewrite Nat.ltb_lt. lia.
Qed.
Lemma level_op_binop op : level_op (binop_level op) (binop_token op) = Some (binop_kind op) ∧
  (1 ≤ binop_level op ≤ 6)%nat.
Proof. destruct op; simpl; split; done || lia. Qed.
Lemma stops_binop op : stops (S (binop_level op)) (binop_token op) = true.
Proof. by destruct op. Qed.

(** [p] goes through the tokens of [e] and on with [cont], its nodes made; the
    token after them is of a level below [m]. *)
Definition reaches (p : ST fparser (option nat)) (m : nat) (e : sexp)
    (cont : nat → nat → ST fparser (option nat)) : Prop :=
  ∀ t nd k l ls, fresh k nd → (k + node_count e ≤ 16)%nat → (length (toks e) ≤ L)%nat →
    ahead t (toks e ++ l :: ls) → stops m (kind l) = true →
    ∃ F t' nd' i, p (st t nd) = cont F i (st t' nd') ∧ (S (S L) ≤ F + length (toks e))%nat ∧
      ahead t' (l :: ls) ∧ yields k nd nd' (k + node_count e) (Some i) (tree_of e Leaf).
Definition full (p : ST fparser (option nat)) (m : nat) (e : sexp) : Prop :=
  reaches p m e (λ _ i, mret (Some i)).
Definition binary (d n : nat) (e : sexp) : Prop :=
  reaches (level_expr n (proc_cast_expr d)) (S n) e
    (λ F i, binary_loop F (level_op n) (level_expr (S n) (proc_cast_expr d)) (Some i)).
Definition postfix (d : nat) (e : sexp) : Prop :=
  reaches (proc_postfix_expr (proc_assign_expr d)) 9 e
    (λ F i, postfix_loop F (proc_assign_expr d) (Some i)).
Definition parses (e : sexp) : Prop :=
  (∀ d, (2 * length (toks e) ≤ d)%nat → (8 ≤ level e)%nat → postfix d e) ∧
  (∀ d, (2 * length (toks e) + 1 ≤ d)%nat → (7 ≤ level e)%nat → full (proc_cast_expr d) 7 e) ∧
  (∀ d n, (2 * length (toks e) + 1 ≤ d)%nat → (1 ≤ n ≤ 6)%nat → (n ≤ level e)%nat → binary d n e) ∧
  (∀ d, (2 * length (toks e) + 2 ≤ d)%nat → full (proc_assign_expr d) 0 e).

(** ** The ends of the loops *)

Lemma binary_stop F op next o t nd l ls : ahead t (l :: ls) → op (kind l) = None →
  ∃ t', binary_loop F op next o (st t nd) = Ok (st t' nd) o ∧ ahead t' (l :: ls).
Proof.
  intros Ha Ho. destruct (take_token L r F0 t nd l ls Ha) as (t1 & E1 & H1).
  destruct (give_back L r F0 t1 nd l ls H1) as (t2 & E2 & H2 & _). exists t2. split; [|done].
  destruct F; cbn [binary_loop]; rewrite (bind_ok _ _ _ _ _ E1), Ho; by rewrite (bind_ok _ _ _ _ _ E2).
Qed.
Lemma postfix_stop F assign o t nd l ls : ahead t (l :: ls) → stops 8 (kind l) = true →
  ∃ t', postfix_loop F assign o (st t nd) = Ok (st t' nd) o ∧ ahead t' (l :: ls).
Proof.
  intros Ha Ho. destruct (take_token L r F0 t nd l ls Ha) as (t1 & E1 & H1).
  destruct (give_back L r F0 t1 nd l ls H1) as (t2 & E2 & H2 & _). exists t2. split; [|done].
  destruct F; cbn [postfix_loop]; rewrite (bind_ok _ _ _ _ _ E1); unfold stops in Ho;
    destruct (kind l); try done; by rewrite (bind_ok _ _ _ _ _ E2).
Qed.

(** ** From a level to those below *)

Lemma full_of_binary d n e : binary d n e → full (level_expr n (proc_cast_expr d)) n e.
Proof.
  intros Hb t nd k l ls Hf Hk Hlen Ha Hs.
  destruct (Hb t nd k l ls Hf Hk Hlen Ha) as (F & t1 & nd1 & i & E & HF & Ha1 & Hy).
  { apply (stops_le n); [done|lia]. }
  destruct (binary_stop F (level_op n) (level_expr (S n) (proc_cast_expr d)) (Some i) t1 nd1 l ls Ha1 (level_op_stops _ _ Hs))
    as (t2 & E2 & Ha2).
  exists F, t2, nd1, i. rewrite E, E2. done.
Qed.
Lemma binary_of_full d n e : (1 ≤ n ≤ 6)%nat → full (level_expr (S n) (proc_cast_expr d)) (S n) e → binary d n e.
Proof.
  intros Hn Hb t nd k l ls Hf Hk Hlen Ha Hs.
  destruct (Hb t nd k l ls Hf Hk Hlen Ha Hs) as (F & t1 & nd1 & i & E & HF & Ha1 & Hy).
  exists (S (S L)), t1, nd1, i. rewrite level_step by done. unfold binary_expr. rewrite (bind_ok _ _ _ _ _ E).
  rewrite (bind_ok _ _ _ _ _ (char_fuel_ok L r F0 t1 nd1 _ Ha1)). split_and!; [done|lia|done|done].
Qed.
Lemma binary_below d n m e : (n ≤ m)%nat → (1 ≤ n)%nat → (m ≤ 6)%nat → binary d m e → binary d n e.
Proof.
  intros Hle H1 H6 Hm. remember (m - n)%nat as j eqn:Hj. revert n Hle H1 Hj.
  induction j as [|j IH]; intros n Hle H1 Hj; [by replace n with m by lia|].
  apply binary_of_full; [lia|]. apply full_of_binary. apply IH; lia.
Qed.
Lemma assign_of_full d e : full (level_expr 1 (proc_cast_expr d)) 1 e → full (proc_assign_expr (S d)) 0 e.
Proof.
  intros Hb t nd k l ls Hf Hk Hlen Ha Hs.
  destruct (Hb t nd k l ls Hf Hk Hlen Ha) as (F & t1 & nd1 & i & E & HF & Ha1 & Hy).
  { apply (stops_le 0); [done|lia]. }
  destruct (take_token L r F0 t1 nd1 l ls Ha1) as (t2 & E2 & H2).
  destruct (give_back L r F0 t2 nd1 l ls H2) as (t3 & E3 & H3 & _).
  exists F, t3, nd1, i. split_and!; try done. cbn [proc_assign_expr]. unfold assign_body.
  cbn [level_expr] in E. rewrite (bind_ok _ _ _ _ _ E). rewrite (bind_ok _ _ _ _ _ E2).
  rewrite decide_False; [by rewrite (bind_ok _ _ _ _ _ E3)|]. intros Hk'. by rewrite Hk' in Hs.
Qed.
(** A level of binary operators gives those below and assignment. *)
Lemma lift_binary m e : (1 ≤ m ≤ 6)%nat → level e = m →
  (∀ d, (2 * length (toks e) + 1 ≤ d)%nat → binary d m e) → parses e.
Proof.
  intros Hm Hl Hb. split_and!.
  - intros d _ ?. lia.
  - intros d _ ?. lia.
  - intros d n Hd Hn Hle. apply (binary_below d n m); [lia..|]. by apply Hb.
  - intros [|d] Hd; [lia|]. apply assign_of_full, full_of_binary. apply (binary_below d 1 m); [lia..|].
    apply Hb. lia.
Qed.
Lemma lift_cast e : (7 ≤ level e)%nat → (∀ d, (2 * length (toks e) ≤ d)%nat → (8 ≤ level e)%nat → postfix d e) →
  (∀ d, (2 * length (toks e) + 1 ≤ d)%nat → full (proc_cast_expr d) 7 e) → parses e.
Proof.
  intros Hl Hp Hc. assert (∀ d n, (2 * length (toks e) + 1 ≤ d)%nat → (1 ≤ n ≤ 6)%nat → binary d n e) as Hb.
  { intros d n Hd Hn. apply (binary_below d n 6); [lia..|]. apply binary_of_full; [lia|]. by apply Hc. }
  split_and!; [done|auto|auto|]. intros [|d] Hd; [lia|]. apply assign_of_full, full_of_binary. apply Hb; lia.
Qed.

(** Tokens that begin an operand of no prefix operator. *)
Definition atomic (t : token_type) : bool :=
  match t with
  | token_value_char | token_value_int | token_value_long | token_value_null | token_identifier => true
  | _ => false
  end.
Lemma head_atomic e : (8 ≤ level e)%nat → well_formed e = true → ∃ l ls, toks e = l :: ls ∧ atomic (kind l) = true.
Proof.
  induction e using sexp_mind with (P0 := λ _, True); try (intros; exact I); cbn [level well_formed toks]; intros Hl Hw;
    try done; try (by eexists _, []); try lia.
  - destruct op; simpl in Hl; lia.
  - apply andb_true_iff in Hw as [Hle Hw]. apply Nat.leb_le in Hle. destruct (IHe Hle Hw) as (l & ls & -> & Ht).
    by eexists _, _.
  - apply andb_true_iff in Hw as [Hw _]. apply andb_true_iff in Hw as [Hle Hw]. apply Nat.leb_le in Hle.
    destruct (IHe Hle Hw) as (l & ls & -> & Ht). by eexists _, _.
Qed.
Lemma lift_postfix e : (8 ≤ level e)%nat → well_formed e = true →
  (∀ d, (2 * length (toks e) ≤ d)%nat → postfix d e) → parses e.
Proof.
  intros Hl Hw Hp. apply lift_cast; [lia|auto|]. intros [|d] Hd; [lia|]. intros t nd k l ls Hf Hk Hlen Ha Hs.
  destruct (head_atomic e Hl Hw) as (x & xs & Hx & Hat). rewrite Hx in Ha. cbn [app] in Ha.
  destruct (take_token L r F0 t nd _ _ Ha) as (t1 & E1 & H1).
  destruct (give_back L r F0 t1 nd _ _ H1) as (t2 & E2 & H2 & _).
  destruct (take_token L r F0 t2 nd _ _ H2) as (t3 & E3 & H3).
  destruct (give_back L r F0 t3 nd _ _ H3) as (t4 & E4 & H4 & _).
  rewrite app_comm_cons, <- Hx in H4.
  destruct (Hp d ltac:(lia) t4 nd k l ls Hf Hk Hlen H4) as (F & t5 & nd5 & i & E5 & HF & Ha5 & Hy).
  { apply (stops_le 7); [done|lia]. }
  destruct (postfix_stop F (proc_assign_expr d) (Some i) t5 nd5 l ls Ha5) as (t6 & E6 & Ha6).
  { apply (stops_le 7); [done|lia]. }
  exists F, t6, nd5, i. split_and!; try done. cbn [proc_cast_expr]. unfold cast_body.
  rewrite (bind_ok _ _ _ _ _ E1), decide_False by (intros Ht; by rewrite Ht in Hat).
  rewrite (bind_ok _ _ _ _ _ E2). unfold proc_unary_expr. rewrite (bind_ok _ _ _ _ _ E3).
  etransitivity; [|exact E6]. rewrite <- E5. destruct (kind x); try done; by rewrite (bind_ok _ _ _ _ _ E4).
Qed.

(** ** The productions *)

Lemma parses_full d n e : parses e → (1 ≤ n ≤ 7)%nat → (n ≤ level e)%nat → (2 * length (toks e) + 1 ≤ d)%nat →
  full (level_expr n (proc_cast_expr d)) n e.
Proof.
  intros (_ & Hc & Hb & _) Hn Hl Hd. destruct (decide (n = 7%nat)) as [->|]; [by apply Hc|].
  apply full_of_binary, Hb; lia.
Qed.
Lemma tree_shape e : ∃ d c, ∀ s, tree_of e s = Node tt d c s.
Proof.
  induction e as [| | | | |op a IHa b IHb|u a IHa|up a IHa|a IHa b IHb|f IHf args| |] using sexp_mind with (P0 := λ _, True);
    try exact I; cbn [node_tree]; try (by do 2 eexists).
  destruct u; [exact IHa|by do 2 eexists..].
Qed.
Lemma node_count_pos e : (1 ≤ node_count e)%nat ∧ (1 ≤ length (toks e))%nat.
Proof.
  induction e as [| | | | |op a IHa b IHb|u a IHa|up a IHa|a IHa b IHb|f IHf args| |] using sexp_mind with (P0 := λ _, True);
    try exact I; cbn [node_count toks]; rewrite ?length_app; simpl; try lia.
  destruct u; lia.
Qed.
Lemma on_finsh_ok {A} (m : ST finsh A) t nd nd' a : m (set_nodes nd F0) = Ok (set_nodes nd' F0) a →
  on_finsh m (st t nd) = Ok (st t nd') a.
Proof. intros Hm. unfold on_finsh. cbn [fp_finsh FinshParse.st]. by rewrite Hm. Qed.

(** An operand of one token. *)
Lemma parses_atom e l : toks e = [l] → level e = 9%nat → well_formed e = true → node_count e = 1%nat →
  (∀ assign t nd k ls, fresh k nd → (k < 16)%nat → ahead t (l :: ls) → ∃ t' nd',
    proc_primary_expr assign (st t nd) = Ok (st t' nd') (Some k) ∧ ahead t' ls ∧
    yields k nd nd' (S k) (Some k) (tree_of e Leaf)) → parses e.
Proof.
  intros Ht Hl Hw Hn Hp. apply lift_postfix; [lia|done|]. intros d Hd t nd k x ls Hf Hk Hlen Ha _.
  rewrite Ht in *. cbn [app] in Ha.
  destruct (Hp (proc_assign_expr d) t nd k (x :: ls) Hf ltac:(lia) Ha) as (t1 & nd1 & E1 & Ha1 & Hy).
  exists (S (S L)), t1, nd1, k. rewrite Hn.
  split_and!; [|simpl; lia|done|by rewrite Nat.add_1_r].
  unfold proc_postfix_expr. rewrite (bind_ok _ _ _ _ _ E1).
  by rewrite (bind_ok _ _ _ _ _ (char_fuel_ok L r F0 t1 nd1 _ Ha1)).
Qed.
(** A value: the node's type, and the value it is filled with. *)
Lemma parses_value e l type v : toks e = [l] → level e = 9%nat → well_formed e = true → node_count e = 1%nat →
  type ≠ FINSH_NODE_UNKNOWN → tree_of e Leaf = Node tt (value_data type v) Leaf Leaf →
  (∀ assign t nd ls, past t l ls → ∃ fill, fill (new_data type) = value_data type v ∧
    match proc_primary_expr assign with p => ∀ t0,
      finsh_token_token (st t0 nd) = Ok (st t nd) (kind l) →
      p (st t0 nd) = on_finsh (new_node type fill) (st t nd) end) → parses e.
Proof.
  intros Ht Hl Hw Hn Hty Htr Hp. apply (parses_atom e l); try done. intros assign t nd k ls Hf Hk Ha.
  destruct (take_token L r F0 t nd l ls Ha) as (t1 & E1 & H1).
  destruct (Hp assign t1 nd ls H1) as (fill & Hv & Hpr).
  destruct (new_node_ok F0 k nd type fill Hf Hk Hty) as (nd1 & E2 & Hy).
  { by rewrite Hv. }
  exists t1, nd1. rewrite (Hpr t E1), (on_finsh_ok _ _ _ _ _ E2). split_and!; [done|by eapply past_ahead|].
  by rewrite Htr, <- Hv.
Qed.
Lemma parses_char c : parses (SChar c).
Proof.
  apply (parses_value _ (LChar c) FINSH_NODE_VALUE_CHAR (u8 c)); try done. intros assign t nd ls ((_ & Hs) & _ & _).
  eexists. split; [|intros t0 E; unfold proc_primary_expr; rewrite (bind_ok _ _ _ _ _ E); reflexivity].
  unfold new_data, set_node_value, value_data. cbn. f_equal. unfold put_in. cbn. change (modulus BYTE) with 256.
  rewrite Hs. unfold u8. by rewrite Z.mod_mod.
Qed.
Lemma parses_number e l type n : toks e = [l] → level e = 9%nat → well_formed e = true → node_count e = 1%nat →
  (l = LInt n ∧ type = FINSH_NODE_VALUE_INT ∨ l = LLong n ∧ type = FINSH_NODE_VALUE_LONG) →
  tree_of e Leaf = Node tt (value_data type (u32 n)) Leaf Leaf → parses e.
Proof.
  intros Ht Hl Hw Hn Hty Htr. apply (parses_value e l type (u32 n)); try done; [by destruct Hty as [[_ ->]|[_ ->]]|].
  intros assign t nd ls ((_ & Hs) & _ & _). exists (set_node_value (u32 n)).
  split; [done|]. intros t0 E. unfold proc_primary_expr. rewrite (bind_ok _ _ _ _ _ E).
  assert (u32 (s32 (tk_value t)) = u32 n) as Hv.
  { rewrite u32_s32. destruct Hty as [[-> _]|[-> _]]; simpl in Hs; rewrite Hs; apply u32_u32. }
  destruct Hty as [[-> ->]|[-> ->]]; cbn [kind]; unfold gets, mbind, ST_bind; cbn [fp_token FinshParse.st];
    unfold finsh_node_new_int, finsh_node_new_long; by rewrite Hv.
Qed.
Lemma parses_int n : parses (SInt n).
Proof. apply (parses_number _ (LInt n) FINSH_NODE_VALUE_INT n); try done. by left. Qed.
Lemma parses_long n : parses (SLong n).
Proof. apply (parses_number _ (LLong n) FINSH_NODE_VALUE_LONG n); try done. by right. Qed.
Lemma parses_null : parses SNull.
Proof.
  apply (parses_value _ (LOp token_value_null) FINSH_NODE_VALUE_NULL 0); try done. intros assign t nd ls _.
  exists (set_node_value (u32 0)). split; [done|]. intros t0 E. unfold proc_primary_expr.
  by rewrite (bind_ok _ _ _ _ _ E).
Qed.
Lemma parses_id name : known (symbol_of F0) (SId name) = true → parses (SId name).
Proof.
  intros Hk. cbn [known] in Hk. unfold resolved in Hk. destruct (symbol_of F0 name) as [x|] eqn:Hx; [|done].
  apply (parses_atom _ (LId name)); try done. intros assign t nd k ls Hf Hk16 Ha.
  destruct (take_token L r F0 t nd _ ls Ha) as (t1 & E1 & H1).
  destruct (give_back L r F0 t1 nd _ ls H1) as (t2 & E2 & H2 & _).
  destruct (match_token_ok L r F0 t2 nd _ ls token_identifier H2 eq_refl) as (t3 & E3 & H3).
  destruct (new_node_ok F0 k nd FINSH_NODE_ID (λ n, set_idtype (idtype (id_data x)) (set_node_id x n)) Hf Hk16) as (nd1 & E4 & Hy);
    [done..|].
  assert (finsh_node_new_id name (set_nodes nd F0) = Ok (set_nodes nd1 F0) (Some k)) as E5.
  { unfold finsh_node_new_id. rewrite (bind_ok _ _ _ _ _ (symbol_found F0 name x nd Hx)). exact E4. }
  exists t3, nd1. split_and!; [|by eapply past_ahead|].
  - unfold proc_primary_expr. rewrite (bind_ok _ _ _ _ _ E1). cbn [kind].
    erewrite bind_ok by done. rewrite (bind_ok _ _ _ _ _ E2). unfold proc_identifier. rewrite bind_assoc.
    rewrite (bind_ok _ _ _ _ _ E3). erewrite bind_ok by done. cbn [fp_token FinshParse.st].
    destruct H3 as ((_ & ->) & _ & _). by apply on_finsh_ok.
  - cbn [node_tree]. rewrite Hx. exact Hy.
Qed.

Lemma parses_bin op a b : well_formed (SBin op a b) = true → parses a → parses b → parses (SBin op a b).
Proof.
  cbn [well_formed]. intros Hw Hpa Hpb. apply andb_true_iff in Hw as [Hw _]. apply andb_true_iff in Hw as [Hw _].
  apply andb_true_iff in Hw as [Hla Hlb]. apply Nat.leb_le in Hla. apply Nat.ltb_lt in Hlb.
  destruct (level_op_binop op) as [Hop Hn]. set (n := binop_level op) in *.
  apply (lift_binary n); [done|done|]. intros d Hd t nd k l ls Hf Hk Hlen Ha Hs.
  cbn [toks node_count] in *. rewrite length_app in *. cbn [length] in *. rewrite <- app_assoc in Ha. cbn [app] in Ha.
  destruct Hpa as (_ & _ & Hpa & _).
  destruct (Hpa d n ltac:(lia) Hn Hla t nd k _ _ Hf ltac:(lia) ltac:(lia) Ha (stops_binop op))
    as (F & t1 & nd1 & i & E1 & HF & Ha1 & Hy1).
  destruct F as [|F]; [lia|]. destruct (take_token L r F0 t1 nd1 _ _ Ha1) as (t2 & E2 & H2).
  destruct (parses_full d (S n) b Hpb ltac:(lia) ltac:(lia) ltac:(lia) t2 nd1 (k + node_count a)%nat l ls)
    as (F' & t3 & nd3 & j & E3 & _ & Ha3 & Hy3); try done; [apply Hy1|lia|lia|by eapply past_ahead|].
  destruct (tree_shape a) as (da & ca & Hta). destruct (tree_shape b) as (db & cb & Htb).
  rewrite Hta in Hy1.
  destruct (make_sys_node_ok r F0 t3 k nd nd1 nd3 (k + node_count a) (k + node_count a + node_count b) (binop_kind op)
    i da ca (Some j) (tree_of b Leaf)) as (nd4 & E4 & Hy4); [done|done|lia|by destruct op|].
  exists F, t3, nd4, (k + node_count a + node_count b)%nat. split_and!; [|lia|done|].
  - rewrite E1. cbn [binary_loop]. rewrite (bind_ok _ _ _ _ _ E2). cbn [kind]. rewrite Hop.
    rewrite (bind_ok _ _ _ _ _ E3). by rewrite (bind_ok _ _ _ _ _ E4).
  - cbn [node_tree]. rewrite Hta. rewrite Nat.add_succ_r, Nat.add_assoc. exact Hy4.
Qed.

Lemma parses_un u a : well_formed (SUn u a) = true → parses a → parses (SUn u a).
Proof.
  cbn [well_formed]. intros [Hla _]%andb_true_iff Hpa. apply Nat.leb_le in Hla.
  apply lift_cast; [simpl; lia|simpl; lia|]. intros [|d] Hd; [lia|]. intros t nd k l ls Hf Hk Hlen Ha Hs.
  cbn [toks length app] in *.
  destruct (take_token L r F0 t nd _ _ Ha) as (t1 & E1 & H1).
  destruct (give_back L r F0 t1 nd _ _ H1) as (t2 & E2 & H2 & _).
  destruct (take_token L r F0 t2 nd _ _ H2) as (t3 & E3 & H3). apply past_ahead in H3.
  assert (node_count a ≤ node_count (SUn u a))%nat as Hna by (destruct u; simpl; lia).
  destruct Hpa as (_ & Hpa & _).
  destruct (Hpa d ltac:(lia) Hla t3 nd k l ls Hf ltac:(lia) ltac:(lia) H3 Hs) as (F & t4 & nd4 & i & E4 & _ & Ha4 & Hy4).
  destruct (tree_shape a) as (da & ca & Hta).
  assert (∀ p, proc_unary_expr (proc_assign_expr d) (proc_cast_expr d) (st t2 nd) = p →
    proc_cast_expr (S d) (st t nd) = p) as Hstart.
  { intros p <-. cbn [proc_cast_expr]. unfold cast_body. rewrite (bind_ok _ _ _ _ _ E1), decide_False by (by destruct u).
    by rewrite (bind_ok _ _ _ _ _ E2). }
  assert (∀ type, unop_kind u = type → match u with UPlus | UNeg => False | _ => True end →
    ∃ F' t' nd' j, proc_cast_expr (S d) (st t nd) = Ok (st t' nd') (Some j) ∧
      (S (S L) ≤ F' + S (length (toks a)))%nat ∧ ahead t' (l :: ls) ∧
      yields k nd nd' (k + node_count (SUn u a)) (Some j) (tree_of (SUn u a) Leaf)) as Hone.
  { intros type Hty Hu. rewrite Hta in Hy4.
    assert (k + node_count a < 16)%nat as Hlt by (destruct u; simpl in Hk; done || lia).
    destruct (make_sys_node_one r F0 t4 k nd nd4 _ type i da ca Hy4 Hlt) as (nd5 & E5 & Hy5).
    { subst. by destruct u. }
    exists (S (S L)), t4, nd5, (k + node_count a)%nat. split_and!; [|lia|done|].
    - apply Hstart. unfold proc_unary_expr. rewrite (bind_ok _ _ _ _ _ E3). cbn [kind].
      subst type. destruct u; try done; cbn [unop_token]; unfold unary_node; by rewrite (bind_ok _ _ _ _ _ E4).
    - subst type. destruct u; try done; cbn [node_tree node_count]; rewrite Hta, Nat.add_succ_r; exact Hy5. }
  destruct u; try (by apply (Hone _ eq_refl)); clear Hone.
  - exists (S (S L)), t4, nd4, i. split_and!; [|lia|done|done]. apply Hstart. unfold proc_unary_expr.
    by rewrite (bind_ok _ _ _ _ _ E3).
  - cbn [node_count] in Hk. destruct Hy4 as (Hf4 & Hle4 & Hag4 & Hb4).
    destruct (new_node_ok F0 _ nd4 FINSH_NODE_VALUE_LONG (set_node_value (u32 0)) Hf4 ltac:(lia)) as (nd5 & E5 & Hf5 & Hle5 & Hag5 & Hb5);
      [done..|].
    destruct (make_sys_node_any r F0 t4 k nd nd5 (S (k + node_count a)) FINSH_NODE_SYS_SUB (k + node_count a)
      (set_node_value (u32 0) (new_data FINSH_NODE_VALUE_LONG)) Leaf (Some i) (tree_of a Leaf)
      (k + node_count a) (S (k + node_count a)) k (k + node_count a)) as (nd6 & E6 & Hy6); try done; try lia.
    { intros j Hj. rewrite Hag5 by lia. by apply Hag4. }
    { by eapply built_agree. }
    exists (S (S L)), t4, nd6, (S (k + node_count a)). split_and!; [|lia|done|].
    + apply Hstart. unfold proc_unary_expr. rewrite (bind_ok _ _ _ _ _ E3). cbn [kind unop_token].
      rewrite (bind_ok _ _ _ _ _ E4). rewrite (bind_ok _ _ _ _ _ (on_finsh_ok _ t4 _ _ _ E5)). exact E6.
    + cbn [node_tree node_count]. rewrite !Nat.add_succ_r. exact Hy6.
Qed.

Lemma parses_post up a : well_formed (SPost up a) = true → parses a → parses (SPost up a).
Proof.
  intros Hw Hpa. apply lift_postfix; [simpl; lia|done|]. cbn [well_formed] in Hw.
  apply andb_true_iff in Hw as [Hla _]. apply Nat.leb_le in Hla.
  intros d Hd t nd k l ls Hf Hk Hlen Ha _. cbn [toks node_count] in *. rewrite length_app in *. cbn [length] in *.
  rewrite <- app_assoc in Ha. cbn [app] in Ha. destruct Hpa as (Hpa & _).
  destruct (Hpa d ltac:(lia) Hla t nd k _ _ Hf ltac:(lia) ltac:(lia) Ha) as (F & t1 & nd1 & i & E1 & HF & Ha1 & Hy1).
  { by destruct up. }
  destruct F as [|F]; [lia|]. destruct (take_token L r F0 t1 nd1 _ _ Ha1) as (t2 & E2 & H2).
  destruct (tree_shape a) as (da & ca & Hta). rewrite Hta in Hy1.
  destruct (make_sys_node_one r F0 t2 k nd nd1 _ (post_kind up) i da ca Hy1) as (nd3 & E3 & Hy3); [lia|by destruct up|].
  exists F, t2, nd3, (k + node_count a)%nat. split_and!; [|lia|by eapply past_ahead|].
  - rewrite E1. cbn [postfix_loop]. rewrite (bind_ok _ _ _ _ _ E2). cbn [kind].
    destruct up; cbn [post_token post_kind] in *; by rewrite (bind_ok _ _ _ _ _ E3).
  - cbn [node_tree]. rewrite Hta, Nat.add_succ_r. exact Hy3.
Qed.

Lemma parses_assign a b : well_formed (SAssign a b) = true → parses a → parses b → parses (SAssign a b).
Proof.
  cbn [well_formed]. intros Hw Hpa Hpb. apply andb_true_iff in Hw as [Hw _]. apply andb_true_iff in Hw as [Hla _].
  apply Nat.leb_le in Hla.
  split_and!; [intros ? ? Hl; simpl in Hl; lia|intros ? ? Hl; simpl in Hl; lia|intros ? n ? Hn Hl; simpl in Hl; lia|].
  intros [|d] Hd; [lia|]. intros t nd k l ls Hf Hk Hlen Ha Hs.
  cbn [toks node_count] in *. rewrite length_app in *. cbn [length] in *. rewrite <- app_assoc in Ha. cbn [app] in Ha.
  destruct (parses_full d 1 a Hpa ltac:(lia) Hla ltac:(lia) t nd k _ _ Hf ltac:(lia) ltac:(lia) Ha eq_refl)
    as (F & t1 & nd1 & i & E1 & _ & Ha1 & Hy1).
  destruct (take_token L r F0 t1 nd1 _ _ Ha1) as (t2 & E2 & H2). apply past_ahead in H2.
  destruct Hpb as (_ & _ & _ & Hpb).
  destruct (Hpb d ltac:(lia) t2 nd1 (k + node_count a)%nat l ls ltac:(apply Hy1) ltac:(lia) ltac:(lia) H2 Hs)
    as (F' & t3 & nd3 & j & E3 & _ & Ha3 & Hy3).
  destruct (tree_shape a) as (da & ca & Hta). rewrite Hta in Hy1.
  destruct (make_sys_node_ok r F0 t3 k nd nd1 nd3 (k + node_count a) (k + node_count a + node_count b) FINSH_NODE_SYS_ASSIGN
    i da ca (Some j) (tree_of b Leaf)) as (nd4 & E4 & Hy4); [done|done|lia|done|].
  exists (S (S L)), t3, nd4, (k + node_count a + node_count b)%nat. split_and!; [|lia|done|].
  - cbn [proc_assign_expr]. unfold assign_body. cbn [level_expr] in E1. rewrite (bind_ok _ _ _ _ _ E1).
    rewrite (bind_ok _ _ _ _ _ E2), decide_True by done. rewrite (bind_ok _ _ _ _ _ E3). exact E4.
  - cbn [node_tree]. rewrite Hta. rewrite Nat.add_succ_r, Nat.add_assoc. exact Hy4.
Qed.

(** ** Parameters and calls *)

(** A token an expression may begin with. *)
Definition begins (t : token_type) : bool :=
  atomic t || match t with
  | token_add | token_sub | token_bitwise | token_mul | token_and | token_inc | token_dec => true
  | _ => false
  end.
Lemma head_begins e : ∃ l ls, toks e = l :: ls ∧ begins (kind l) = true.
Proof.
  induction e as [| | | | |op a IHa b IHb|u a IHa|up a IHa|a IHa b IHb|f IHf args| |] using sexp_mind with (P0 := λ _, True);
    try exact I; cbn [toks]; try (by eexists _, _).
  - destruct IHa as (l & ls & -> & Ht). by eexists _, _.
  - eexists _, _. split; [done|]. by destruct u.
  - destruct IHa as (l & ls & -> & Ht). by eexists _, _.
  - destruct IHa as (l & ls & -> & Ht). by eexists _, _.
  - destruct IHf as (l & ls & -> & Ht). by eexists _, _.
Qed.
Definition more (args : sexps) : list lexeme :=
  match args with SNil => [] | _ => LOp token_comma :: toks_args args end.
Lemma toks_args_cons a args : toks_args (SCons a args) = toks a ++ more args.
Proof. by destruct args. Qed.
Lemma more_head args ls : ∃ x xs, more args ++ LOp token_right_paren :: ls = x :: xs ∧ stops 0 (kind x) = true.
Proof. destruct args; by eexists _, _. Qed.

(** The loop over the parameters after the first, whose node is [i]. *)
Definition parses_args (args : sexps) : Prop :=
  ∀ d F t nd0 nd k lo i dd c ls, (2 * length (more args) + 2 ≤ d)%nat → (length (more args) ≤ F)%nat →
    (length (more args) ≤ L)%nat → (k + node_count_args args ≤ 16)%nat →
    yields lo nd0 nd k (Some i) (Node tt dd c Leaf) → ahead t (more args ++ LOp token_right_paren :: ls) →
    ∃ t' nd', param_loop F (proc_assign_expr d) i (st t nd) = Ok (st t' nd') tt ∧
      ahead t' (LOp token_right_paren :: ls) ∧
      yields lo nd0 nd' (k + node_count_args args) (Some i) (Node tt dd c (trees_of args)).
Lemma parses_args_nil : parses_args SNil.
Proof.
  intros d F t nd0 nd k lo i dd c ls _ _ _ _ Hy Ha. cbn [more app] in Ha.
  destruct (take_token L r F0 t nd _ _ Ha) as (t1 & E1 & H1).
  destruct (give_back L r F0 t1 nd _ _ H1) as (t2 & E2 & H2 & _). exists t2, nd. split_and!; [|done|].
  - destruct F; cbn [param_loop]; rewrite (bind_ok _ _ _ _ _ E1); cbn [kind]; rewrite decide_False by done; exact E2.
  - cbn [node_count_args node_trees]. by rewrite Nat.add_0_r.
Qed.
Lemma link_sibling_ok t lo nd0 nd k k1 i dd c j Ta nd1 :
  yields lo nd0 nd k (Some i) (Node tt dd c Leaf) → yields k nd nd1 k1 (Some j) Ta → ∃ nd2,
  link_sibling i (Some j) (st t nd1) = Ok (st t nd2) tt ∧ yields k nd2 nd2 k1 (Some j) Ta ∧
  (∀ k2 nd3 T, yields k nd2 nd3 k2 (Some j) T → yields lo nd0 nd3 k2 (Some i) (Node tt dd c T)).
Proof.
  intros (Hf & Hle & Hag & t1 & Hl1 & Hr1 & Hnd1 & Hb1 & Hs1) (Hf1 & Hle1 & Hag1 & t2 & Hl2 & Hr2 & Hnd2 & Hb2 & Hs2).
  destruct t1 as [|i' d1 c1 [|]]; try done. injection Hr1 as ->. injection Hs1 as -> Hs1.
  cbn [labels] in Hnd1, Hb1. rewrite app_nil_r in Hnd1, Hb1. simpl in Hl1. destruct Hl1 as (Hi1 & Hc1 & _).
  apply NoDup_cons in Hnd1 as [Hnd1 Hndc]. apply Forall_cons in Hb1 as [Hbi Hbc].
  assert (nd1 !! i = Some (mk_node dd None (root c1))) as Hi2 by (rewrite Hag1 by lia; done).
  set (nd2 := <[i := mk_node dd (Some j) (root c1)]> nd1).
  assert (fresh k1 nd2) as Hf2 by (eapply fresh_relink; [done|exact Hi2|lia]).
  exists nd2. split_and!; [| |].
  - unfold link_sibling. apply on_finsh_ok. by rewrite (upd_node_set F0 i _ _ nd1 Hi2).
  - split_and!; try done. exists t2. split_and!; try done. apply linked_insert; [done|]. rewrite Forall_forall in Hb2.
    intros Hj. specialize (Hb2 _ Hj). lia.
  - intros k2 nd3 T (Hf3 & Hle3 & Hag3 & t3 & Hl3 & Hr3 & Hnd3 & Hb3 & Hs3). rewrite Forall_forall in Hbc, Hb3.
    assert (∀ x, (x < k)%nat → x ≠ i → nd3 !! x = nd !! x) as Hsame.
    { intros x Hx Hxi. rewrite Hag3 by done. unfold nd2. rewrite list_lookup_insert_ne by done. by apply Hag1. }
    split_and!; [done|lia| |].
    + intros x Hx. rewrite Hsame by lia. by apply Hag.
    + exists (Node i dd c1 t3). cbn [linked root labels strip]. split_and!; try done.
      * rewrite Hag3 by lia. unfold nd2. rewrite list_lookup_insert_eq; [by rewrite Hr3|].
        by apply lookup_lt_Some in Hi2.
      * eapply linked_ext; [|exact Hc1]. intros x Hx. specialize (Hbc x Hx). apply Hsame; [lia|by intros ->].
      * apply NoDup_cons. split; [rewrite elem_of_app; intros [Hx|Hx]; [done|specialize (Hb3 i Hx); lia]|].
        apply NoDup_app. split_and!; [done| |done]. intros x Hx Hx'. specialize (Hbc x Hx). specialize (Hb3 x Hx'). lia.
      * apply Forall_cons. split; [lia|]. apply Forall_app. split; apply Forall_forall; intros x Hx;
          [specialize (Hbc x Hx)|specialize (Hb3 x Hx)]; lia.
      * by rewrite Hs1, Hs3.
Qed.
Lemma parses_args_cons a args : parses a → parses_args args → parses_args (SCons a args).
Proof.
  intros (_ & _ & _ & Hpa) Hargs d F t nd0 nd k lo i dd c ls Hd HF HL Hk Hy Ha.
  cbn [more node_count_args] in *. rewrite toks_args_cons in *. cbn [length app] in *. rewrite length_app in *.
  rewrite <- app_assoc in Ha. destruct F as [|F]; [lia|].
  destruct (take_token L r F0 t nd _ _ Ha) as (t1 & E1 & H1). apply past_ahead in H1.
  destruct (more_head args ls) as (x & xs & Hx & Hsx). rewrite Hx in H1.
  destruct (Hpa d ltac:(lia) t1 nd k x xs ltac:(apply Hy) ltac:(lia) ltac:(lia) H1 Hsx) as (F' & t2 & nd2 & j & E2 & _ & H2 & Hy2).
  destruct (link_sibling_ok t2 lo nd0 nd k _ i dd c j _ nd2 Hy Hy2) as (nd3 & E3 & Hy3 & Hcomp).
  destruct (tree_shape a) as (da & ca & Hta). rewrite Hta in Hy3. rewrite <- Hx in H2.
  destruct (Hargs d F t2 nd3 nd3 (k + node_count a)%nat k j da ca ls) as (t4 & nd4 & E4 & H4 & Hy4); [lia..|done|done|].
  exists t4, nd4. split_and!; [|done|].
  - cbn [param_loop]. rewrite (bind_ok _ _ _ _ _ E1). cbn [kind]. rewrite decide_True by done.
    rewrite (bind_ok _ _ _ _ _ E2). by rewrite (bind_ok _ _ _ _ _ E3).
  - cbn [node_trees]. rewrite Hta, Nat.add_assoc. by apply Hcomp.
Qed.

Lemma call_params_ok args : match args with SNil => True | SCons a rest => parses a ∧ parses_args rest end →
  ∀ d t nd k ls, (2 * length (toks_args args) + 2 ≤ d)%nat → (length (toks_args args) ≤ L)%nat →
    fresh k nd → (k + node_count_args args ≤ 16)%nat → ahead t (toks_args args ++ LOp token_right_paren :: ls) →
    ∃ t' nd' o, call_params (proc_assign_expr d) (st t nd) = Ok (st t' nd') o ∧ ahead t' ls ∧
      yields k nd nd' (k + node_count_args args) o (trees_of args).
Proof.
  intros Hargs d t nd k ls Hd HL Hf Hk Ha. unfold call_params. destruct args as [|a args].
  - destruct (take_token L r F0 t nd _ _ Ha) as (t1 & E1 & H1). exists t1, nd, None.
    rewrite (bind_ok _ _ _ _ _ E1), decide_True by done. split_and!; [done|by eapply past_ahead|].
    cbn [node_count_args node_trees]. rewrite Nat.add_0_r. by apply yields_none.
  - destruct Hargs as [(_ & _ & _ & Hpa) Hargs]. rewrite toks_args_cons in *. rewrite length_app in *.
    rewrite <- app_assoc in Ha. destruct (head_begins a) as (y & ys & Hy & Hb). rewrite Hy in Ha. cbn [app] in Ha.
    destruct (take_token L r F0 t nd _ _ Ha) as (t1 & E1 & H1).
    destruct (give_back L r F0 t1 nd _ _ H1) as (t2 & E2 & H2 & _). rewrite app_comm_cons, <- Hy in H2.
    destruct (more_head args ls) as (x & xs & Hx & Hsx). rewrite Hx in H2. cbn [node_count_args] in Hk.
    destruct (Hpa d ltac:(lia) t2 nd k x xs Hf ltac:(lia) ltac:(lia) H2 Hsx) as (F' & t3 & nd3 & i & E3 & _ & H3 & Hy3).
    destruct (tree_shape a) as (da & ca & Hta). rewrite Hta in Hy3. rewrite <- Hx in H3.
    destruct (Hargs d (S (S L)) t3 nd nd3 (k + node_count a)%nat k i da ca ls) as (t4 & nd4 & E4 & H4 & Hy4); [lia..|done|done|].
    destruct (match_token_ok L r F0 t4 nd4 _ ls token_right_paren H4 eq_refl) as (t5 & E5 & H5).
    exists t5, nd4, (Some i). split_and!; [|by eapply past_ahead|].
    + rewrite (bind_ok _ _ _ _ _ E1), decide_False by (intros Ht; by rewrite Ht in Hb).
      rewrite (bind_ok _ _ _ _ _ E2). unfold proc_param_list. rewrite bind_assoc.
      rewrite (bind_ok _ _ _ _ _ E3). rewrite bind_assoc.
      rewrite (bind_ok _ _ _ _ _ (char_fuel_ok L r F0 t3 nd3 _ H3)). rewrite bind_assoc.
      rewrite (bind_ok _ _ _ _ _ E4). erewrite bind_ok by done. by rewrite (bind_ok _ _ _ _ _ E5).
    + cbn [node_trees node_count_args]. by rewrite Hta, Nat.add_assoc.
Qed.
Lemma parses_call f args : well_formed (SCall f args) = true → parses f →
  match args with SNil => True | SCons a rest => parses a ∧ parses_args rest end → parses (SCall f args).
Proof.
  intros Hw Hpf Hargs. apply lift_postfix; [simpl; lia|done|]. cbn [well_formed] in Hw.
  apply andb_true_iff in Hw as [Hw _]. apply andb_true_iff in Hw as [Hlf _]. apply Nat.leb_le in Hlf.
  intros d Hd t nd k l ls Hf Hk Hlen Ha _. cbn [toks node_count] in *. rewrite !length_app in *. cbn [length] in *.
  rewrite length_app in *. cbn [length] in *. rewrite <- app_assoc in Ha. cbn [app] in Ha. rewrite <- app_assoc in Ha. cbn [app] in Ha.
  destruct Hpf as (Hpf & _).
  destruct (Hpf d ltac:(lia) Hlf t nd k _ _ Hf ltac:(lia) ltac:(lia) Ha eq_refl) as (F & t1 & nd1 & i & E1 & HF & Ha1 & Hy1).
  destruct F as [|F]; [lia|]. destruct (take_token L r F0 t1 nd1 _ _ Ha1) as (t2 & E2 & H2). apply past_ahead in H2.
  destruct (node_count_pos f) as [_ Hlf1].
  destruct (call_params_ok args Hargs d t2 nd1 (k + node_count f)%nat (l :: ls)) as (t3 & nd3 & o & E3 & H3 & Hy3);
    [lia|lia|apply Hy1|lia|done|].
  destruct (tree_shape f) as (df & cf & Htf). rewrite Htf in Hy1.
  destruct (make_sys_node_ok r F0 t3 k nd nd1 nd3 _ _ FINSH_NODE_SYS_FUNC i df cf o _ Hy1 Hy3) as (nd4 & E4 & Hy4); [lia|done|].
  eexists F, t3, nd4, _. split_and!; [|lia|done|].
  - rewrite E1. cbn [postfix_loop]. rewrite (bind_ok _ _ _ _ _ E2). cbn [kind].
    rewrite (bind_ok _ _ _ _ _ E3). by rewrite (bind_ok _ _ _ _ _ E4).
  - cbn [node_tree]. rewrite Htf, Nat.add_succ_r, Nat.add_assoc. exact Hy4.
Qed.

Lemma parses_all :
  (∀ e, well_formed e = true → known (symbol_of F0) e = true → parses e) ∧
  (∀ args, well_formed_args args = true → known_args (symbol_of F0) args = true →
    parses_args args ∧ match args with SNil => True | SCons a rest => parses a ∧ parses_args rest end).
Proof.
  apply sexp_sexps_ind; cbn [known known_args].
  - intros c _ _. apply parses_char.
  - intros n _ _. apply parses_int.
  - intros n _ _. apply parses_long.
  - intros _ _. apply parses_null.
  - intros name _ Hk. by apply parses_id.
  - intros op a IHa b IHb Hw Hk. apply parses_bin; [done|..]; cbn [well_formed] in Hw; rewrite ?andb_true_iff in *; naive_solver.
  - intros u a IHa Hw Hk. apply parses_un; [done|]. cbn [well_formed] in Hw; rewrite ?andb_true_iff in *; naive_solver.
  - intros up a IHa Hw Hk. apply parses_post; [done|]. cbn [well_formed] in Hw; rewrite ?andb_true_iff in *; naive_solver.
  - intros a IHa b IHb Hw Hk. apply parses_assign; [done|..]; cbn [well_formed] in Hw; rewrite ?andb_true_iff in *; naive_solver.
  - intros f IHf args IHargs Hw Hk. cbn [well_formed] in Hw. apply parses_call; [done|..]; rewrite ?andb_true_iff in *; naive_solver.
  - intros _ _. split; [apply parses_args_nil|done].
  - intros a IHa args IHargs Hw Hk. cbn [well_formed_args] in Hw. rewrite !andb_true_iff in *.
    destruct Hw as [Hwa Hw], Hk as [Hka Hk]. destruct (IHargs Hw Hk) as [Hp _].
    split; [apply parses_args_cons|split]; auto.
Qed.
End grammar.

(** ** A line of statements *)

(** Statements are written as a list of expressions. *)
Fixpoint statement_toks (es : sexps) : list lexeme :=
  match es with
  | SNil => []
  | SCons e es => toks e ++ LOp token_semicolon :: statement_toks es
  end.

Section program.
Context `{!FinshLayout}.
Context (L : nat) (F0 : finsh).
Notation tree_of := (node_tree (symbol_of F0)).
Notation trees_of := (node_trees (symbol_of F0)).

Lemma statement_ok r e t nd k ls : well_formed e = true → known (symbol_of F0) e = true →
  fresh k nd → (k + node_count e ≤ 16)%nat → (length (toks e) ≤ L)%nat →
  ahead L t (toks e ++ LOp token_semicolon :: ls) → ∃ t' nd' i,
  proc_expr_statement (st r F0 t nd) = Ok (st r F0 t' nd') (Some i) ∧ ahead L t' ls ∧
  yields k nd nd' (k + node_count e) (Some i) (tree_of e Leaf).
Proof.
  intros Hw Hkn Hf Hk Hlen Ha. destruct (proj1 (parses_all L r F0) e Hw Hkn) as (_ & _ & _ & Hp).
  destruct (head_begins e) as (x & xs & Hx & Hb). rewrite Hx in Ha. cbn [app] in Ha.
  destruct (take_token L r F0 t nd _ _ Ha) as (t1 & E1 & H1).
  destruct (give_back L r F0 t1 nd _ _ H1) as (t2 & E2 & H2 & _). rewrite app_comm_cons, <- Hx in H2.
  destruct (Hp (2 * S (S L))%nat ltac:(lia) t2 nd k _ ls Hf Hk Hlen H2 eq_refl) as (F & t3 & nd3 & i & E3 & _ & H3 & Hy).
  destruct (match_token_ok L r F0 t3 nd3 _ ls token_semicolon H3 eq_refl) as (t4 & E4 & H4).
  exists t4, nd3, i. split_and!; [|by eapply past_ahead|done].
  unfold proc_expr_statement. rewrite (bind_ok _ _ _ _ _ E1), decide_False by (intros Ht; by rewrite Ht in Hb).
  rewrite (bind_ok _ _ _ _ _ E2). unfold proc_expr, depth_fuel. rewrite !bind_assoc.
  rewrite (bind_ok _ _ _ _ _ (char_fuel_ok L r F0 t2 nd _ H2)). erewrite bind_ok by done.
  rewrite (bind_ok _ _ _ _ _ E3). by rewrite (bind_ok _ _ _ _ _ E4).
Qed.

Lemma begins_item t : begins t = true → is_base_type t || bool_decide (t = token_unsigned) = false ∧
  t ≠ token_eof ∧ t ≠ token_bad.
Proof. by destruct t. Qed.
Lemma loop_turn F x node s : begins x = true → parser_loop (S F) x node s =
  (node ← parse_item x node;
   s ← get;
   match fp_root s with
   | None => mret ()
   | Some _ => token ← finsh_token_token; parser_loop F token node
   end) s.
Proof. by destruct x. Qed.

(** From the first token of the next statement, the last node being [i]. *)
Lemma parser_loop_ok r0 es : ∀ F t nd0 nd k lo i dd c x xs, well_formed_args es = true →
  known_args (symbol_of F0) es = true → (length (statement_toks es) ≤ F)%nat → (length (statement_toks es) ≤ L)%nat →
  (k + node_count_args es ≤ 16)%nat → yields lo nd0 nd k (Some i) (Node tt dd c Leaf) →
  statement_toks es ++ [LOp token_eof] = x :: xs → past L t x xs → ∃ t' nd',
  parser_loop F (kind x) (Some i) (st (Some r0) F0 t nd) = Ok (st (Some r0) F0 t' nd') tt ∧
  yields lo nd0 nd' (k + node_count_args es) (Some i) (Node tt dd c (trees_of es)).
Proof.
  induction es as [|e es IH]; intros F t nd0 nd k lo i dd c x xs Hw Hkn HF HL Hk Hy Hx Hp.
  - injection Hx as <- <-. exists t, nd. split; [by destruct F|]. cbn [node_count_args node_trees]. by rewrite Nat.add_0_r.
  - cbn [well_formed_args known_args node_count_args statement_toks] in *. rewrite length_app in *. cbn [length] in *.
    apply andb_true_iff in Hw as [Hwe Hw]. apply andb_true_iff in Hkn as [Hke Hkn].
    destruct (head_begins e) as (y & ys & Hye & Hb). rewrite Hye in Hx. injection Hx as <- <-.
    destruct (begins_item _ Hb) as (Hd & _ & _). destruct F as [|F]; [lia|].
    destruct (give_back L (Some r0) F0 t nd _ _ Hp) as (t1 & E1 & H1 & _).
    rewrite app_comm_cons, app_comm_cons, <- Hye, <- app_assoc in H1. cbn [app] in H1.
    destruct (statement_ok (Some r0) e t1 nd k _ Hwe Hke ltac:(apply Hy) ltac:(lia) ltac:(lia) H1) as (t2 & nd2 & j & E2 & H2 & Hy2).
    destruct (link_sibling_ok (Some r0) F0 t2 lo nd0 nd k _ i dd c j _ nd2 Hy Hy2) as (nd3 & E3 & Hy3 & Hcomp).
    destruct (tree_shape F0 e) as (da & ca & Hta). rewrite Hta in Hy3.
    destruct (statement_toks es ++ [LOp token_eof]) as [|z zs] eqn:Hz; [by destruct (statement_toks es)|].
    destruct (take_token L (Some r0) F0 t2 nd3 _ _ H2) as (t3 & E4 & H3).
    destruct (IH F t3 nd3 nd3 (k + node_count e)%nat k j da ca z zs) as (t4 & nd4 & E5 & Hy4); try done; [lia..|].
    exists t4, nd4. split.
    + rewrite loop_turn by done. unfold parse_item. rewrite bind_assoc, (bind_ok _ _ _ _ _ E1), bind_assoc, get_bind.
      rewrite Hd. cbn [fp_root FinshParse.st]. rewrite bind_assoc, (bind_ok _ _ _ _ _ E2), bind_assoc, (bind_ok _ _ _ _ _ E3).
      erewrite bind_ok by done. rewrite get_bind. cbn [fp_root FinshParse.st]. by rewrite (bind_ok _ _ _ _ _ E4).
    + cbn [node_trees]. rewrite Hta, Nat.add_assoc. by apply Hcomp.
Qed.

Lemma finsh_parser_run_ok line e es t0 nd : well_formed_args (SCons e es) = true →
  known_args (symbol_of F0) (SCons e es) = true → fresh 0 nd → (node_count_args (SCons e es) ≤ 16)%nat →
  reads L (mk_token false false 0 token_none 0 no_string line) (statement_toks (SCons e es) ++ [LOp token_eof]) →
  (length (statement_toks (SCons e es)) ≤ L)%nat → ∃ t' nd' i,
  finsh_parser_run line (st None F0 t0 nd) = Ok (st (Some i) F0 t' nd') tt ∧
  yields 0 nd nd' (node_count_args (SCons e es)) (Some i) (trees_of (SCons e es)).
Proof.
  intros Hw Hkn Hf Hk Hr HL. cbn [well_formed_args known_args node_count_args statement_toks] in *.
  rewrite length_app in *. cbn [length] in *. rewrite <- app_assoc in Hr. cbn [app] in Hr.
  apply andb_true_iff in Hw as [Hwe Hw]. apply andb_true_iff in Hkn as [Hke Hkn].
  set (t := mk_token false false 0 token_none 0 no_string line) in *.
  assert (ahead L t (toks e ++ LOp token_semicolon :: statement_toks es ++ [LOp token_eof])) as Ha by (left; done).
  destruct (head_begins e) as (y & ys & Hye & Hb). rewrite Hye in Ha. cbn [app] in Ha.
  destruct (take_token L None F0 t nd _ _ Ha) as (t1 & E1 & H1).
  destruct (give_back L None F0 t1 nd _ _ H1) as (t2 & E2 & H2 & _). rewrite app_comm_cons, <- Hye in H2.
  destruct (begins_item _ Hb) as (Hd & _ & _).
  destruct (statement_ok None e t2 nd 0 _ Hwe Hke Hf ltac:(lia) ltac:(lia) H2) as (t3 & nd3 & i & E3 & H3 & Hy3).
  destruct (statement_toks es ++ [LOp token_eof]) as [|z zs] eqn:Hz; [by destruct (statement_toks es)|].
  destruct (take_token L (Some i) F0 t3 nd3 _ _ H3) as (t4 & E4 & H4).
  destruct (tree_shape F0 e) as (da & ca & Hta). rewrite Hta in Hy3.
  destruct (parser_loop_ok i es (S L) t4 nd nd3 (node_count e) 0%nat i da ca z zs) as (t5 & nd5 & E5 & Hy5); try done; try lia.
  exists t5, nd5, i. split.
  - unfold finsh_parser_run. erewrite bind_ok by done. fold t. change (mk_fparser t None (set_nodes nd F0)) with (st None F0 t nd).
    rewrite (bind_ok _ _ _ _ _ E1). rewrite (bind_ok _ _ _ _ _ (char_fuel_ok L None F0 t1 nd _ (past_ahead _ _ _ _ H1))).
    rewrite loop_turn by done. unfold parse_item. rewrite bind_assoc, (bind_ok _ _ _ _ _ E2), bind_assoc, get_bind.
    rewrite Hd. cbn [fp_root FinshParse.st]. rewrite bind_assoc, (bind_ok _ _ _ _ _ E3).
    erewrite bind_ok by done. rewrite get_bind. cbn [fp_root].
    change (mk_fparser (fp_token (st None F0 t3 nd3)) (Some i) (fp_finsh (st None F0 t3 nd3))) with (st (Some i) F0 t3 nd3).
    by rewrite (bind_ok _ _ _ _ _ E4).
  - cbn [node_trees]. rewrite Hta. exact Hy5.
Qed.
End program.
