(* ===== verification/FinshLex.v ===== *)
(** * The tokens read from a line are the tokens its text spells

    A text is tokens with blanks between them, where two that would read as one
    are kept apart. [token_run] reads them one after the other. *)

From Stdlib Require Import ZArith Lia.
From stdpp Require Import base list.
From S2P Require Import RTThread.
From S2P Require Import Prelude.
From S2P Require Import Bytes.
From S2P Require Import KPrintf.
From S2P Require Import KPrintfSpec.
From S2P Require Import FinshVm.
From S2P Require Import FinshVmSpec.
From S2P Require Import Finsh.
From S2P Require Import FinshToken.
From S2P Require Import FinshParse.

(** ** Spelling *)

Definition spell_op (t : token_type) : list Z :=
  match t with
  | token_left_paren => [40] | token_right_paren => [41] | token_comma => [44]
  | token_semicolon => [59] | token_and => [38] | token_mul => [42] | token_add => [43]
  | token_inc => [43; 43] | token_sub => [45] | token_dec => [45; 45] | token_div => [47]
  | token_mod => [37] | token_shl => [60; 60] | token_shr => [62; 62] | token_or => [124]
  | token_bitwise => [126] | token_xor => [94] | token_assign => [61]
  | token_value_null => [78; 85; 76; 76]
  | _ => []
  end.
Definition decimal (n : Z) : list Z := numeral 10 small_digits n.
Definition spell (l : lexeme) : list Z :=
  match l with
  | LOp t => spell_op t
  | LChar c => [39; c; 39]
  | LInt n => decimal n
  | LLong n => decimal n ++ [108]
  | LId name => name
  end.
(** The tokens that have a spelling of this form. *)
Definition is_name (s : list Z) : bool :=
  forallb (λ c, negb (is_separator c)) s &&
  match s with [] => false | c :: _ => negb (is_digit c) end && (zlen s <=? FINSH_NAME_MAX).
Definition spellable (l : lexeme) : bool :=
  match l with
  | LOp t => negb (bool_decide (spell_op t = []))
  | LChar c => (0 <? c) && (c <? 256) && negb (c =? 10) && negb (c =? 92)
  | LInt n => (0 <=? n) && (n <? 2 ^ 31)
  | LLong n => (0 <? n) && (n <? 2 ^ 31)
  | LId name => is_name name && negb (bool_decide (name ∈ fst <$> finsh_name_table))
  end.
(** What may follow a token. *)
Definition separates (l : lexeme) (c : Z) : bool :=
  match l with
  | LOp token_add => negb (c =? 43)
  | LOp token_sub => negb (c =? 45)
  | LOp token_div => negb (c =? 47)
  | LOp token_value_null | LId _ => is_separator c
  | LInt n => negb (is_digit c) && negb ((c =? 108) || (c =? 76)) &&
      negb ((n =? 0) && ((c =? 120) || (c =? 88) || (c =? 98) || (c =? 66)))
  | _ => true
  end.
Definition is_blank (c : Z) : bool := (c =? 32) || (c =? 9) || (c =? 13).

(** A layout: the blanks before each token and the token. *)
Fixpoint text_of (lay : list (list Z * lexeme)) (last : list Z) : list Z :=
  match lay with
  | [] => last
  | (bs, l) :: lay => bs ++ spell l ++ text_of lay last
  end.
Definition followed (l : lexeme) (rest : list Z) : bool :=
  match rest with
  | [] => match l with LOp token_semicolon => true | _ => false end
  | c :: _ => separates l c
  end.
Fixpoint well_spaced (lay : list (list Z * lexeme)) (last : list Z) : bool :=
  match lay with
  | [] => forallb is_blank last
  | (bs, l) :: lay =>
      forallb is_blank bs && spellable l && followed l (text_of lay last) && well_spaced lay last
  end.

(** ** Steps on a line *)

Definition does {A} (m : ST fparser A) (t t' : finsh_token) (a : A) : Prop :=
  ∀ r f, m (mk_fparser t r f) = Ok (mk_fparser t' r f) a.
Lemma does_bind {A B} (m : ST fparser A) (f : A → ST fparser B) t t1 t2 a b :
  does m t t1 a → does (f a) t1 t2 b → does (m ≫= f) t t2 b.
Proof. intros Hm Hf r s. rewrite (bind_ok _ _ _ _ _ (Hm r s)). apply Hf. Qed.

Section line.
Context (line : list Z) (Hline : Forall (λ c, c ≠ 10) line).

Definition T (pos : Z) (cur : token_type) (v : Z) (str : list Z) : finsh_token :=
  mk_token false false pos cur v str line.
Definition at_text (pos : Z) (txt : list Z) : Prop :=
  0 ≤ pos ≤ zlen line ∧ drop (Z.to_nat pos) line = txt.

Lemma at_text_app pos a b : at_text pos (a ++ b) → at_text (pos + zlen a) b.
Proof.
  intros [Hp Hd]. assert (zlen a + zlen b = zlen line - pos) as Hl.
  { rewrite <- zlen_app, <- Hd. unfold zlen in *. rewrite length_drop. lia. }
  pose proof (zlen_nonneg a). pose proof (zlen_nonneg b). split; [lia|].
  replace (Z.to_nat (pos + zlen a)) with (Z.to_nat pos + length a)%nat by (unfold zlen; lia).
  rewrite <- drop_drop, Hd. by rewrite drop_app_length.
Qed.
Lemma at_text_cons pos c txt : at_text pos (c :: txt) → at_text (pos + 1) txt.
Proof. exact (at_text_app pos [c] txt). Qed.
Lemma at_text_here pos c txt : at_text pos (c :: txt) → byte line pos = c ∧ pos < zlen line ∧ c ≠ 10.
Proof.
  intros [Hp Hd]. assert (line !! Z.to_nat pos = Some c) as Hc by (rewrite <- (Nat.add_0_r (Z.to_nat pos)), <- lookup_drop, Hd; done).
  split_and!.
  - unfold byte. rewrite nth_lookup. by rewrite Hc.
  - apply lookup_lt_Some in Hc. unfold zlen. lia.
  - rewrite Forall_forall in Hline. apply Hline. by eapply list_elem_of_lookup_2.
Qed.
Lemma next_ok pos c txt cur v str : at_text pos (c :: txt) →
  does token_next_char (T pos cur v str) (T (pos + 1) cur v str) c.
Proof.
  intros (Hb & Hlt & Hn)%at_text_here r f. unfold token_next_char. rewrite get_bind. cbn [fp_token T tk_eof tk_position tk_line].
  rewrite Hb. destruct (Z.eqb_spec pos (zlen line)); [lia|]. destruct (Z.eqb_spec c 10); [done|]. simpl.
  by erewrite bind_ok by done.
Qed.
Lemma next_end pos cur v str : at_text pos [] →
  does token_next_char (T pos cur v str) (mk_token true false 0 cur v str line) 0.
Proof.
  intros [Hp Hd] r f. unfold token_next_char. rewrite get_bind. cbn [fp_token T tk_eof tk_position tk_line].
  assert (pos = zlen line) as ->.
  { apply (f_equal length) in Hd. rewrite length_drop in Hd. simpl in Hd. unfold zlen in *. lia. }
  rewrite Z.eqb_refl. simpl. by erewrite bind_ok by done.
Qed.
Lemma prev_ok pos cur v str : 0 ≤ pos → does token_prev_char (T (pos + 1) cur v str) (T pos cur v str) tt.
Proof.
  intros Hp r f. unfold token_prev_char. rewrite get_bind. cbn [fp_token T tk_eof tk_position].
  destruct (Z.eqb_spec (pos + 1) 0); [lia|]. unfold upd_token, on_token, modify, T. simpl.
  unfold set_tk_position. simpl. do 3 f_equal. lia.
Qed.
Lemma upd_ok g t : does (upd_token g) t (g t) tt.
Proof. done. Qed.
Lemma fuel_ok pos cur v str : does char_fuel (T pos cur v str) (T pos cur v str) (S (S (length line))).
Proof. done. Qed.
Lemma eof_ok t : does is_eof t t (tk_eof t).
Proof. done. Qed.
Lemma string_ok l pos cur v str : zlen l < FINSH_STRING_MAX → does (set_string l) (T pos cur v str) (T pos cur v (over (l ++ [0]) str)) tt.
Proof. intros Hl. unfold set_string. by rewrite (proj2 (Z.ltb_lt _ _)). Qed.

(** ** Blanks *)

Lemma blanks_ok bs : ∀ fuel pos c txt cur v str, forallb is_blank bs = true → is_blank c = false →
  at_text pos (bs ++ c :: txt) → (length bs < fuel)%nat →
  does (trim_loop fuel) (T pos cur v str) (T (pos + zlen bs + 1) cur v str) tt.
Proof.
  induction bs as [|b bs IH]; intros [|fuel] pos c txt cur v str Hbs Hc Ha Hf; simpl in Hf; try lia; cbn [trim_loop].
  - eapply does_bind; [by eapply next_ok|]. fold (is_blank c). rewrite Hc.
    change (zlen (@nil Z)) with 0. by rewrite Z.add_0_r.
  - cbn [forallb app] in *. apply andb_true_iff in Hbs as [Hb Hbs].
    eapply does_bind; [by eapply next_ok|]. fold (is_blank b). rewrite Hb. apply at_text_cons in Ha.
    rewrite zlen_cons. replace (pos + (1 + zlen bs) + 1) with (pos + 1 + zlen bs + 1) by lia.
    eapply IH; [done|done|done|lia].
Qed.
Lemma at_text_length pos txt : at_text pos txt → (length txt ≤ length line)%nat.
Proof. intros [_ <-]. rewrite length_drop. lia. Qed.
Lemma trim_ok bs pos c txt cur v str : forallb is_blank bs = true → is_blank c = false →
  at_text pos (bs ++ c :: txt) → does token_trim_space (T pos cur v str) (T (pos + zlen bs) cur v str) tt.
Proof.
  intros Hbs Hc Ha. pose proof (at_text_length _ _ Ha) as Hlen. rewrite length_app in Hlen. cbn [length] in Hlen.
  eapply does_bind; [apply fuel_ok|]. eapply does_bind; [eapply blanks_ok; [done|done|done|lia]|].
  apply prev_ok. destruct Ha as [Hp _]. pose proof (zlen_nonneg bs). lia.
Qed.
Lemma blanks_end bs : ∀ fuel pos cur v str, forallb is_blank bs = true → at_text pos bs → (length bs < fuel)%nat →
  does (trim_loop fuel) (T pos cur v str) (mk_token true false 0 cur v str line) tt.
Proof.
  induction bs as [|b bs IH]; intros [|fuel] pos cur v str Hbs Ha Hf; simpl in Hf; try lia; cbn [trim_loop].
  - eapply does_bind; [by apply next_end|done].
  - cbn [forallb] in *. apply andb_true_iff in Hbs as [Hb Hbs].
    eapply does_bind; [by eapply next_ok|]. fold (is_blank b). rewrite Hb. apply at_text_cons in Ha.
    eapply IH; [done|done|lia].
Qed.

(** ** Names *)

Definition in_name (c : Z) : bool := negb (is_separator c).
Lemma name_chars s : ∀ fuel pos c d txt p cur v str, in_name c = true → forallb in_name s = true → is_separator d = true →
  at_text pos (s ++ d :: txt) → (length s < fuel)%nat →
  does (name_loop fuel c p) (T pos cur v str) (T (pos + zlen s + 1) cur v str) (p ++ c :: s).
Proof.
  induction s as [|c' s IH]; intros [|fuel] pos c d txt p cur v str Hc Hs Hd Ha Hf; simpl in Hf; try lia;
    cbn [name_loop]; (eapply does_bind; [apply eof_ok|]); cbn [tk_eof T]; unfold in_name in Hc; rewrite Hc; cbn [negb andb].
  - eapply does_bind; [by eapply next_ok|]. change (zlen (@nil Z)) with 0. rewrite Z.add_0_r.
    destruct fuel; cbn [name_loop]; (eapply does_bind; [apply eof_ok|]); rewrite Hd; done.
  - cbn [forallb app] in *. apply andb_true_iff in Hs as [Hc' Hs]. eapply does_bind; [by eapply next_ok|].
    apply at_text_cons in Ha. rewrite zlen_cons. replace (pos + (1 + zlen s) + 1) with (pos + 1 + zlen s + 1) by lia.
    replace (p ++ c :: c' :: s) with ((p ++ [c]) ++ c' :: s) by (by rewrite <- app_assoc).
    eapply IH; [done|done|done|done|lia].
Qed.
Lemma digit_in_name c : is_digit c = true → is_separator c = false.
Proof. unfold is_separator. intros ->. by rewrite orb_true_r. Qed.
Lemma get_string_name c s d txt pos cur v str : forallb in_name (c :: s) = true → is_digit c = false →
  is_separator d = true → zlen (c :: s) < FINSH_STRING_MAX → at_text pos ((c :: s) ++ d :: txt) →
  does token_get_string (T pos cur v str) (T (pos + zlen (c :: s)) cur v (over ((c :: s) ++ [0]) (over [0] str))) 0.
Proof.
  intros Hs Hdig Hd Hlen Ha. pose proof (at_text_length _ _ Ha) as Hll. cbn [app length] in Hll. rewrite length_app in Hll.
  cbn [forallb] in Hs. apply andb_true_iff in Hs as [Hc Hs]. assert (0 ≤ pos) by apply Ha.
  eapply does_bind; [by eapply next_ok|]. eapply does_bind; [apply eof_ok|]. cbn [tk_eof T].
  eapply does_bind; [by apply string_ok|]. rewrite Hdig. eapply does_bind; [apply fuel_ok|]. apply at_text_cons in Ha.
  eapply does_bind; [eapply (name_chars s); [done|done|done|done|lia]|].
  eapply does_bind; [apply upd_ok|]. change (set_tk_eof false (T ?a ?b ?c ?d)) with (T a b c d).
  eapply does_bind; [apply prev_ok; pose proof (zlen_nonneg s); lia|]. cbn [app].
  eapply does_bind; [by apply string_ok|]. rewrite zlen_cons. replace (pos + (1 + zlen s)) with (pos + 1 + zlen s) by lia. done.
Qed.
Lemma get_string_none c txt pos cur v str : is_digit c = true ∨ is_separator c = true → at_text pos (c :: txt) →
  ∃ a, does token_get_string (T pos cur v str) (T pos cur v (over [0] str)) a.
Proof.
  intros Hc Ha. assert (0 ≤ pos) by apply Ha. destruct (is_digit c) eqn:Hdig.
  - exists (-1). eapply does_bind; [by eapply next_ok|]. eapply does_bind; [apply eof_ok|]. cbn [tk_eof T].
    eapply does_bind; [by apply string_ok|]. rewrite Hdig. eapply does_bind; [by apply prev_ok|]. done.
  - destruct Hc as [|Hc]; [done|]. exists 0. eapply does_bind; [by eapply next_ok|]. eapply does_bind; [apply eof_ok|].
    cbn [tk_eof T]. eapply does_bind; [by apply string_ok|]. rewrite Hdig. eapply does_bind; [apply fuel_ok|].
    eapply does_bind; [cbn [name_loop]; (eapply does_bind; [apply eof_ok|]); rewrite Hc; done|].
    eapply does_bind; [apply upd_ok|]. change (set_tk_eof false (T ?a ?b ?c ?d)) with (T a b c d).
    eapply does_bind; [by apply prev_ok|]. eapply does_bind; [by apply string_ok|]. done.
Qed.

(** ** Numbers *)

Lemma numeral_head k n : 0 < n < 10 ^ Z.of_nat k →
  ∃ c s, numeral_from k 10 small_digits n = c :: s ∧ 49 ≤ c ≤ 57.
Proof.
  revert n. induction k as [|k IH]; intros n Hn; [simpl in Hn; lia|]. cbn [numeral_from].
  destruct (Z.eqb_spec n 0) as [->|]; [lia|]. rewrite Nat2Z.inj_succ, Z.pow_succ_r in Hn by lia.
  destruct (Z.eqb_spec (n / 10) 0) as [Hz|Hz].
  - assert (numeral_from k 10 small_digits (n / 10) = []) as -> by (rewrite Hz; by destruct k).
    exists (byte small_digits (n mod 10)), []. split; [done|]. rewrite decimal_digit.
    pose proof (Z.div_mod n 10). pose proof (Z.mod_pos_bound n 10). lia.
  - destruct (IH (n / 10)) as (c & s & -> & Hc).
    { pose proof (Z.div_pos n 10). split; [lia|]. apply Z.div_lt_upper_bound; lia. }
    by eexists c, _.
Qed.
Lemma decimal_spec n : 0 < n < 2 ^ 31 → ∃ c s, decimal n = c :: s ∧ 49 ≤ c ≤ 57 ∧
  Forall (λ c, 48 ≤ c ≤ 57) (decimal n) ∧ decimal_number (decimal n) = n ∧ 1 ≤ zlen (decimal n) ≤ 10.
Proof.
  intros Hn. destruct (decimal_numeral n ltac:(lia)) as [Hv Hf]. unfold decimal.
  assert (∃ c s, numeral 10 small_digits n = c :: s ∧ 49 ≤ c ≤ 57) as (c & s & Hcs & Hc).
  { unfold numeral. destruct (Z.eqb_spec n 0); [lia|]. apply numeral_head. split; [lia|].
    apply Z.lt_trans with (2 ^ 31); [lia|by vm_compute]. }
  exists c, s. split_and!; try done; try (apply zlen_decimal; lia); try lia. unfold decimal_number.
  assert (∀ l a, Forall (λ c, 48 ≤ c ≤ 57) l → 0 ≤ a → decimal_value a l < 2 ^ 31 →
    a ≤ decimal_value a l ∧ foldl (λ value ch, s32 (value * 10 + (ch - 48))) a l = decimal_value a l) as Hl.
  { clear. intros l. induction l as [|c l IH]; intros a Hf Ha Hv; [done|]. inversion_clear Hf as [|?? Hc Hf'].
    cbn [decimal_value foldl] in *. unfold digit_value in *.
    destruct (IH (a * 10 + (c - 48)) Hf' ltac:(lia) Hv) as [Hle Heq]. rewrite s32_small by lia. split; [lia|done]. }
  destruct (Hl _ 0 Hf ltac:(lia) ltac:(lia)) as [_ ->]. done.
Qed.
Lemma is_digit_iff c : is_digit c = true ↔ 48 ≤ c ≤ 57.
Proof. unfold is_digit. rewrite andb_true_iff, !Z.leb_le. done. Qed.
Lemma digits_ok s : ∀ fuel pos c d txt p cur v str, is_digit c = true → Forall (λ c, 48 ≤ c ≤ 57) s → is_digit d = false →
  at_text pos (s ++ d :: txt) → (length s < fuel)%nat →
  does (digits_loop fuel is_digit c p) (T pos cur v str) (T (pos + zlen s + 1) cur v str) (d, p ++ c :: s).
Proof.
  induction s as [|c' s IH]; intros [|fuel] pos c d txt p cur v str Hc Hs Hd Ha Hf; simpl in Hf; try lia;
    cbn [digits_loop]; rewrite Hc.
  - eapply does_bind; [by eapply next_ok|]. change (zlen (@nil Z)) with 0. rewrite Z.add_0_r.
    destruct fuel; cbn [digits_loop]; by rewrite Hd.
  - inversion_clear Hs as [|?? Hc' Hs']. cbn [app] in *. eapply does_bind; [by eapply next_ok|].
    apply at_text_cons in Ha. rewrite zlen_cons. replace (pos + (1 + zlen s) + 1) with (pos + 1 + zlen s + 1) by lia.
    replace (p ++ c :: c' :: s) with ((p ++ [c]) ++ c' :: s) in * by (by rewrite <- app_assoc).
    eapply IH; [by apply is_digit_iff|done|done|done|lia].
Qed.
Lemma number_zero d txt pos cur v str : separates (LInt 0) d = true → at_text pos (48 :: d :: txt) →
  does token_proc_number (T pos cur v str) (T (pos + 1) token_value_int (u32 0) str) tt.
Proof.
  intros Hsep Ha. assert (0 ≤ pos) by apply Ha. eapply does_bind; [by eapply next_ok|]. eapply does_bind; [apply fuel_ok|].
  apply at_text_cons in Ha. cbn [Z.eqb]. eapply does_bind; [by eapply next_ok|].
  cbn [separates] in Hsep. apply andb_true_iff in Hsep as [Hs1 Hs2]. apply andb_true_iff in Hs1 as [Hd _].
  apply negb_true_iff in Hd, Hs2. cbn [Z.eqb andb] in Hs2. apply orb_false_iff in Hs2 as [Hs2 ->].
  apply orb_false_iff in Hs2 as [Hs2 ->]. rewrite Hs2. cbn [orb].
  assert ((48 <=? d) && (d <=? 55) = false) as ->.
  { destruct ((48 <=? d) && (d <=? 55)) eqn:Hb; [|done]. apply andb_true_iff in Hb as [?%Z.leb_le ?%Z.leb_le].
    assert (is_digit d = true) as Hd' by (apply is_digit_iff; lia). congruence. }
  eapply does_bind; [apply prev_ok; lia|]. apply upd_ok.
Qed.
(** A number of digits, an [l] after it or not. *)
Lemma number_ok n d txt pos cur v str : 0 < n < 2 ^ 31 → is_digit d = false → at_text pos (decimal n ++ d :: txt) →
  does token_proc_number (T pos cur v str)
    (if (d =? 108) || (d =? 76) then T (pos + zlen (decimal n) + 1) token_value_long (u32 n) str
     else T (pos + zlen (decimal n)) token_value_int (u32 n) str) tt.
Proof.
  intros Hn Hd Ha. destruct (decimal_spec n Hn) as (c & s & Hcs & Hc & Hf & Hv & Hlen). rewrite Hcs in *. cbn [app] in Ha.
  pose proof (at_text_length _ _ Ha) as Hll. cbn [length] in Hll. rewrite length_app in Hll. assert (0 ≤ pos) by apply Ha.
  eapply does_bind; [by eapply next_ok|]. eapply does_bind; [apply fuel_ok|]. apply at_text_cons in Ha.
  destruct (Z.eqb_spec c 48); [lia|]. inversion_clear Hf as [|?? _ Hf'].
  eapply does_bind; [eapply (digits_ok s); [apply is_digit_iff; lia|done|done|done|lia]|].
  cbn [app]. eapply does_bind; [apply upd_ok|]. rewrite Hv. rewrite zlen_cons. unfold number_suffix.
  replace (pos + (1 + zlen s)) with (pos + 1 + zlen s) by lia. pose proof (zlen_nonneg s).
  destruct ((d =? 108) || (d =? 76)); [apply upd_ok|]. apply (prev_ok (pos + 1 + zlen s) token_value_int). lia.
Qed.

(** ** One token *)

Lemma does_get {B} (f : fparser → ST fparser B) t t' b :
  (∀ r s, f (mk_fparser t r s) (mk_fparser t r s) = Ok (mk_fparser t' r s) b) → does (get ≫= f) t t' b.
Proof. intros Hf r s. rewrite get_bind. apply Hf. Qed.
Lemma blank_class c : is_blank c = true → is_separator c = true ∧ is_digit c = false.
Proof.
  unfold is_blank. rewrite !orb_true_iff, !Z.eqb_eq. by intros [[-> | ->] | ->].
Qed.
Lemma name_over s old : forallb in_name s = true → up_to_end (over (s ++ [0]) old) = s.
Proof.
  unfold over. rewrite <- app_assoc. generalize (drop (length (s ++ [0])) old) as rest. cbn [app]. intros rest.
  induction s as [|c s IH]; intros Hs; [done|]. cbn [forallb] in Hs. apply andb_true_iff in Hs as [Hc Hs].
  specialize (IH Hs). unfold up_to_end in *. cbn [app list_find].
  destruct (decide (c = 0)) as [->|]; [done|].
  destruct (list_find (λ x, x = 0) (s ++ 0 :: rest)) as [[i x]|]; cbn; by rewrite IH.
Qed.
Definition word_token (name : list Z) : token_type :=
  match list_find (λ e, fst e = name) finsh_name_table with Some (_, (_, type)) => type | None => token_identifier end.
Lemma run_word bs c s d txt pos cur v str : forallb is_blank bs = true → forallb in_name (c :: s) = true →
  is_digit c = false → is_separator d = true → zlen (c :: s) < FINSH_STRING_MAX →
  at_text pos (bs ++ (c :: s) ++ d :: txt) →
  does token_run (T pos cur v str) (T (pos + zlen bs + zlen (c :: s)) (word_token (c :: s)) v (over ((c :: s) ++ [0]) (over [0] str))) tt.
Proof.
  intros Hbs Hs Hdig Hd Hlen Ha. assert (is_blank c = false) as Hc.
  { destruct (is_blank c) eqn:Hb; [|done]. apply blank_class in Hb as [Hb _]. cbn [forallb] in Hs.
    unfold in_name in Hs. by rewrite Hb in Hs. }
  eapply does_bind; [by eapply trim_ok|]. apply at_text_app in Ha.
  eapply does_bind; [by eapply get_string_name|]. eapply does_bind; [apply eof_ok|]. cbn [tk_eof T].
  apply does_get. intros r f. cbn [fp_token tk_string T]. rewrite name_over by done. rewrite bool_decide_eq_false_2 by done. cbn [negb].
  unfold token_match_name, word_token. destruct (list_find _ _) as [[j [nm k]]|]; by erewrite bind_ok by done.
Qed.
Lemma run_symbol bs c txt pos cur v str t' : forallb is_blank bs = true → is_digit c || is_separator c = true →
  is_blank c = false → at_text pos (bs ++ c :: txt) → does (token_operator c) (T (pos + zlen bs + 1) cur v (over [0] str)) t' tt →
  does token_run (T pos cur v str) t' tt.
Proof.
  intros Hbs Hc Hb Ha Hop. eapply does_bind; [by eapply trim_ok|]. apply at_text_app in Ha.
  destruct (get_string_none c txt _ cur v str ltac:(by apply orb_true_iff) Ha) as [a Hg].
  eapply does_bind; [exact Hg|]. eapply does_bind; [apply eof_ok|]. cbn [tk_eof T].
  apply does_get. intros r f. cbn [fp_token tk_string T]. cbn [bool_decide negb].
  rewrite bool_decide_eq_true_2 by done. cbn [negb].
  rewrite (bind_ok _ _ _ _ _ (next_ok _ _ _ _ _ _ Ha r f)). apply Hop.
Qed.
Lemma pair_both pos c txt both alone cur v str : at_text pos (c :: txt) →
  does (pair_token c both alone) (T pos cur v str) (T (pos + 1) both v str) tt.
Proof. intros Ha. eapply does_bind; [by eapply next_ok|]. rewrite Z.eqb_refl. apply upd_ok. Qed.
Lemma pair_alone pos c d txt both alone cur v str : at_text pos (d :: txt) → d ≠ c →
  does (pair_token c both alone) (T pos cur v str) (T pos alone v str) tt.
Proof.
  intros Ha Hd. eapply does_bind; [by eapply next_ok|]. rewrite (proj2 (Z.eqb_neq _ _)) by done.
  eapply does_bind; [apply prev_ok; apply Ha|]. apply upd_ok.
Qed.
Lemma lex_end bs pos cur v str : forallb is_blank bs = true → at_text pos bs →
  does token_run (T pos cur v str) (mk_token true false 0 token_eof v str line) tt.
Proof.
  intros Hbs Ha. pose proof (at_text_length _ _ Ha). set (e := mk_token true false 0 cur v str line).
  assert (does token_trim_space (T pos cur v str) e tt) as Htrim.
  { eapply does_bind; [apply fuel_ok|]. eapply does_bind; [eapply blanks_end; [done|done|lia]|]. by intros r f. }
  assert (does token_get_string e e (-1)) as Hget by (by intros r f).
  eapply does_bind; [exact Htrim|]. eapply does_bind; [exact Hget|]. eapply does_bind; [apply eof_ok|].
  by intros r f.
Qed.

(** The symbols. *)
Lemma lex_op bs k rest pos cur v str : forallb is_blank bs = true → spellable (LOp k) = true → k ≠ token_value_null →
  followed (LOp k) rest = true → at_text pos (bs ++ spell_op k ++ rest) →
  does token_run (T pos cur v str) (T (pos + zlen bs + zlen (spell_op k)) k v (over [0] str)) tt.
Proof.
  intros Hbs Hsp Hnull Hfol Ha. cbn [spellable] in Hsp. apply negb_true_iff in Hsp. apply bool_decide_eq_false in Hsp.
  pose proof (at_text_app _ _ _ Ha) as Ha1.
  assert (∀ c d, at_text (pos + zlen bs) (c :: d) → at_text (pos + zlen bs + 1) d) as Hstep by (intros c d; apply at_text_cons).
  destruct k; try done; cbn [spell_op app] in Ha, Ha1; cbn [spell_op];
    (eapply run_symbol; [done| |  |exact Ha|]; [done|done|]);
    change (zlen [?a]) with 1; try done;
    try (apply Hstep in Ha1; destruct rest as [|d rest]; [done|];
         eapply pair_alone; [exact Ha1|]; simpl in Hfol; by apply negb_true_iff, Z.eqb_neq in Hfol).
  all: apply Hstep in Ha1; change (zlen [?a; ?b]) with 2; replace (pos + zlen bs + 2) with (pos + zlen bs + 1 + 1) by lia;
    by eapply pair_both.
Qed.
Lemma run_char bs c rest pos cur v str : forallb is_blank bs = true → spellable (LChar c) = true →
  at_text pos (bs ++ [39; c; 39] ++ rest) →
  does token_run (T pos cur v str) (T (pos + zlen bs + 3) token_value_char (put_in BYTE v c) (over [0] str)) tt.
Proof.
  intros Hbs Hsp Ha. pose proof (at_text_app _ _ _ Ha) as Ha1. cbn [app] in Ha1. apply at_text_cons in Ha1.
  eapply run_symbol; [done| | |exact Ha|]; [done|done|]. cbn [spellable] in Hsp. rewrite !andb_true_iff in Hsp.
  destruct Hsp as [_ Hn]. apply negb_true_iff in Hn.
  assert (does token_proc_char (T (pos + zlen bs + 1) cur v (over [0] str)) (T (pos + zlen bs + 3) cur v (over [0] str)) c) as Hp.
  { eapply does_bind; [by eapply next_ok|]. rewrite Hn. eapply does_bind; [done|]. apply at_text_cons in Ha1.
    eapply does_bind; [by eapply next_ok|]. cbn. replace (pos + zlen bs + 1 + 1 + 1) with (pos + zlen bs + 3) by lia. done. }
  eapply does_bind; [exact Hp|]. eapply does_bind; [apply upd_ok|]. apply upd_ok.
Qed.
Lemma digit_not_blank c : 48 ≤ c ≤ 57 → is_digit c || is_separator c = true ∧ is_blank c = false.
Proof.
  intros Hc. rewrite (proj2 (is_digit_iff c) Hc). split; [done|]. destruct (is_blank c) eqn:Hb; [|done].
  apply blank_class in Hb as [_ Hb]. apply is_digit_iff in Hc. congruence.
Qed.
Lemma operator_digit c pos cur v str t' : 48 ≤ c ≤ 57 → 0 ≤ pos → does token_proc_number (T pos cur v str) t' tt →
  does (token_operator c) (T (pos + 1) cur v str) t' tt.
Proof.
  intros Hc Hp Hn. unfold token_operator.
  repeat (rewrite (proj2 (Z.eqb_neq c _)) by lia). rewrite (proj2 (is_digit_iff c) Hc).
  eapply does_bind; [by apply prev_ok|]. exact Hn.
Qed.
Lemma run_int bs n d rest pos cur v str : forallb is_blank bs = true → spellable (LInt n) = true →
  separates (LInt n) d = true → at_text pos (bs ++ decimal n ++ d :: rest) →
  does token_run (T pos cur v str) (T (pos + zlen bs + zlen (decimal n)) token_value_int (u32 n) (over [0] str)) tt.
Proof.
  intros Hbs Hsp Hsep Ha. pose proof (at_text_app _ _ _ Ha) as Ha1. assert (0 ≤ pos + zlen bs) by apply Ha1.
  cbn [spellable] in Hsp. apply andb_true_iff in Hsp as [H0 Hlt]. apply Z.leb_le in H0. apply Z.ltb_lt in Hlt.
  destruct (Z.eq_dec n 0) as [->|Hn0].
  - change (decimal 0) with [48] in *. cbn [app] in *. eapply run_symbol; [done| | |exact Ha|]; [done|done|].
    apply operator_digit; [lia|done|]. change (zlen [48]) with 1. by eapply number_zero.
  - destruct (decimal_spec n ltac:(lia)) as (c & s & Hcs & Hc & _).
    destruct (digit_not_blank c ltac:(lia)) as [Hd Hb].
    assert (at_text pos (bs ++ c :: (s ++ d :: rest))) as Ha2 by (rewrite Hcs in Ha; exact Ha).
    eapply run_symbol; [done| | |exact Ha2|]; [done|done|]. apply operator_digit; [lia|done|].
    cbn [separates] in Hsep. apply andb_true_iff in Hsep as [Hsep _]. apply andb_true_iff in Hsep as [Hd1 Hl].
    apply negb_true_iff in Hd1, Hl.
    pose proof (number_ok n d rest _ cur v (over [0] str) ltac:(lia) Hd1 Ha1) as Hnum. by rewrite Hl in Hnum.
Qed.
Lemma run_long bs n rest pos cur v str : forallb is_blank bs = true → spellable (LLong n) = true →
  at_text pos (bs ++ (decimal n ++ [108]) ++ rest) →
  does token_run (T pos cur v str) (T (pos + zlen bs + zlen (decimal n ++ [108])) token_value_long (u32 n) (over [0] str)) tt.
Proof.
  intros Hbs Hsp Ha. rewrite <- app_assoc in Ha. cbn [app] in Ha. pose proof (at_text_app _ _ _ Ha) as Ha1.
  assert (0 ≤ pos + zlen bs) by apply Ha1.
  cbn [spellable] in Hsp. apply andb_true_iff in Hsp as [H0 Hlt]. apply Z.ltb_lt in H0, Hlt.
  destruct (decimal_spec n ltac:(lia)) as (c & s & Hcs & Hc & _). destruct (digit_not_blank c ltac:(lia)) as [Hd Hb].
  assert (at_text pos (bs ++ c :: (s ++ 108 :: rest))) as Ha2 by (rewrite Hcs in Ha; exact Ha).
  eapply run_symbol; [done| | |exact Ha2|]; [done|done|]. apply operator_digit; [lia|done|].
  rewrite zlen_app. change (zlen [108]) with 1.
  replace (pos + zlen bs + (zlen (decimal n) + 1)) with (pos + zlen bs + zlen (decimal n) + 1) by lia.
  exact (number_ok n 108 rest _ cur v (over [0] str) ltac:(lia) eq_refl Ha1).
Qed.

Lemma run_lexeme bs l rest pos cur v str : forallb is_blank bs = true → spellable l = true → followed l rest = true →
  at_text pos (bs ++ spell l ++ rest) → ∃ v' str',
  does token_run (T pos cur v str) (T (pos + zlen bs + zlen (spell l)) (kind l) v' str') tt ∧
  shows (T (pos + zlen bs + zlen (spell l)) (kind l) v' str') l.
Proof.
  intros Hbs Hsp Hfol Ha. destruct l as [k|c|n|n|name]; cbn [spell kind] in *.
  - destruct (decide (k = token_value_null)) as [->|Hk].
    + destruct rest as [|d rest]; [done|]. exists v, (over (spell_op token_value_null ++ [0]) (over [0] str)). split; [|done].
      exact (run_word bs 78 [85; 76; 76] d rest pos cur v str Hbs eq_refl eq_refl Hfol eq_refl Ha).
    + exists v, (over [0] str). split; [by eapply lex_op|done].
  - exists (put_in BYTE v c), (over [0] str). split; [|split; [done|apply (put_mod BYTE)]]. by eapply run_char.
  - destruct rest as [|d rest]; [done|]. exists (u32 n), (over [0] str). split; [by eapply run_int|done].
  - exists (u32 n), (over [0] str). split; [by eapply run_long|done].
  - destruct rest as [|d rest]; [done|]. cbn [spellable followed separates] in *.
    apply andb_true_iff in Hsp as [Hn Ht]. apply andb_true_iff in Hn as [Hn Hlen]. apply andb_true_iff in Hn as [Hs Hd].
    destruct name as [|c s]; [done|]. apply negb_true_iff in Hd. apply Z.leb_le in Hlen.
    apply negb_true_iff, bool_decide_eq_false in Ht. exists v, (over ((c :: s) ++ [0]) (over [0] str)). split.
    + assert (word_token (c :: s) = token_identifier) as Hw.
      { unfold word_token. destruct (list_find _ _) as [[j [nm k]]|] eqn:Hf; [|done].
        apply list_find_Some in Hf as (Hj & Heq & _). simpl in Heq. subst nm. apply list_elem_of_lookup_2 in Hj.
        exfalso. apply Ht. apply list_elem_of_fmap. by exists (c :: s, k). }
      rewrite <- Hw. apply (run_word bs c s d rest); try done. unfold FINSH_NAME_MAX, FINSH_STRING_MAX in *. lia.
    + split; [done|]. cbn [tk_string T]. rewrite name_over by done. apply take_ge. unfold zlen, FINSH_NAME_MAX in *. lia.
Qed.

Lemma reads_layout lay last : ∀ pos cur v str, well_spaced lay last = true → at_text pos (text_of lay last) →
  reads (length line) (T pos cur v str) (lay.*2 ++ [LOp token_eof]).
Proof.
  induction lay as [|[bs l] lay IH]; intros pos cur v str Hw Ha; cbn [text_of well_spaced fmap list_fmap app snd] in *.
  - split; [done|]. eexists. split; [by eapply lex_end|]. done.
  - apply andb_true_iff in Hw as [Hw Hrest]. apply andb_true_iff in Hw as [Hw Hfol]. apply andb_true_iff in Hw as [Hbs Hsp].
    destruct (run_lexeme bs l _ pos cur v str Hbs Hsp Hfol Ha) as (v' & str' & Hrun & Hs).
    split; [done|]. eexists. split; [exact Hrun|]. split; [exact Hs|]. split; [done|]. apply IH; [done|].
    apply at_text_app in Ha. by apply at_text_app in Ha.
Qed.
End line.

(** The text of a layout has no line feed and is at least as long as its tokens. *)
Lemma decimal_chars n : 0 ≤ n < 2 ^ 31 → Forall (λ c, c ≠ 10) (decimal n) ∧ (1 ≤ length (decimal n))%nat.
Proof.
  intros Hn. destruct (Z.eq_dec n 0) as [->|].
  - split; [by repeat constructor|]. simpl. lia.
  - destruct (decimal_spec n ltac:(lia)) as (c & s & Hcs & _ & Hf & _). split; [|rewrite Hcs; simpl; lia].
    eapply Forall_impl; [exact Hf|]. simpl. lia.
Qed.
Lemma spell_chars l : spellable l = true → Forall (λ c, c ≠ 10) (spell l) ∧ (1 ≤ length (spell l))%nat.
Proof.
  destruct l as [k|c|n|n|name]; cbn [spellable spell]; intros Hsp.
  - apply negb_true_iff, bool_decide_eq_false in Hsp. split; [|destruct (spell_op k); [done|simpl; lia]].
    destruct k; repeat constructor; done.
  - rewrite !andb_true_iff, !negb_true_iff, !Z.eqb_neq in Hsp. split; [repeat constructor; lia|simpl; lia].
  - rewrite andb_true_iff, Z.leb_le, Z.ltb_lt in Hsp. apply decimal_chars. lia.
  - rewrite andb_true_iff, !Z.ltb_lt in Hsp. destruct (decimal_chars n ltac:(lia)) as [Hc Hl]. rewrite length_app.
    split; [|lia]. apply Forall_app. split; [done|]. by repeat constructor.
  - apply andb_true_iff in Hsp as [Hn _]. apply andb_true_iff in Hn as [Hn _]. apply andb_true_iff in Hn as [Hs Hd].
    split; [|destruct name; [done|simpl; lia]]. apply Forall_forall. intros c Hc ->.
    rewrite forallb_forall in Hs. apply list_elem_of_In, Hs in Hc. done.
Qed.
Lemma blanks_chars bs : forallb is_blank bs = true → Forall (λ c, c ≠ 10) bs.
Proof.
  intros Hbs. apply Forall_forall. intros c Hc ->. rewrite forallb_forall in Hbs. by apply list_elem_of_In, Hbs in Hc.
Qed.
Lemma text_chars lay last : well_spaced lay last = true →
  Forall (λ c, c ≠ 10) (text_of lay last) ∧ (length lay ≤ length (text_of lay last))%nat.
Proof.
  induction lay as [|[bs l] lay IH]; cbn [text_of well_spaced]; intros Hw; [split; [by apply blanks_chars|simpl; lia]|].
  apply andb_true_iff in Hw as [Hw Hrest]. apply andb_true_iff in Hw as [Hw _]. apply andb_true_iff in Hw as [Hbs Hsp].
  destruct (IH Hrest) as [Hf Hl]. destruct (spell_chars l Hsp) as [Hs Hsl]. rewrite !length_app. cbn [length].
  split; [|lia]. rewrite !Forall_app. split_and!; [by apply blanks_chars|done|done].
Qed.
(** Reading a text from its start. *)
Lemma reads_text lay last : well_spaced lay last = true → let line := text_of lay last in
  reads (length line) (mk_token false false 0 token_none 0 no_string line) (lay.*2 ++ [LOp token_eof]) ∧
  (length lay ≤ length line)%nat.
Proof.
  intros Hw line. destruct (text_chars lay last Hw) as [Hf Hl]. split; [|done].
  apply (reads_layout line Hf lay last 0 token_none 0 no_string Hw). split; [|done]. pose proof (zlen_nonneg line). lia.
Qed.
