(* ===== verification/FinshShell.v ===== *)
(** * The state of the shell, and its listing commands ([shell.h], [cmd.c])

    [struct finsh_shell] with the parser in it, the mode of [msh.c], and the
    calls on [rt_kprintf] made so far, format and arguments. The line buffer is
    a memory of its own; a pointer into it is an index. *)

From Stdlib Require Import String ZArith Lia.
From stdpp Require Import base list.
From S2P Require Import RTThread.
From S2P Require Import Prelude.
From S2P Require Import Bytes.
From S2P Require Import KMemory.
From S2P Require Import KString.
From S2P Require Import KPrintf.
From S2P Require Import FinshVm.
From S2P Require Import Finsh.
From S2P Require Import FinshToken.
From S2P Require Import FinshParser.

Definition FINSH_CMD_SIZE : Z := 80.
Definition FINSH_HISTORY_LINES : Z := 5.
Definition FINSH_ARG_MAX : Z := 10.

Inductive input_stat : Set := WAIT_NORMAL | WAIT_SPEC_KEY | WAIT_FUNC_KEY.
#[export] Instance input_stat_eq_dec : EqDecision input_stat.
Proof. solve_decision. Defined.

Record finsh_shell : Type := mk_shell {
  sh_stat : input_stat;
  echo_mode : bool;
  prompt_mode : bool;
  current_history : Z;
  history_count : Z;
  cmd_history : list (list Z);
  sh_parser : fparser;
  sh_line : list Z;
  line_position : Z;
  line_curpos : Z;
  msh_state : bool;
  finsh_prompt_custom : option (list Z);
  sh_out : list (list Z * list arg) }.
Definition set_sh_stat (v : input_stat) (s : finsh_shell) : finsh_shell :=
  mk_shell v (echo_mode s) (prompt_mode s) (current_history s) (history_count s) (cmd_history s)
    (sh_parser s) (sh_line s) (line_position s) (line_curpos s) (msh_state s) (finsh_prompt_custom s) (sh_out s).
Definition set_history (v : Z) (s : finsh_shell) : finsh_shell :=
  mk_shell (sh_stat s) (echo_mode s) (prompt_mode s) v (history_count s) (cmd_history s)
    (sh_parser s) (sh_line s) (line_position s) (line_curpos s) (msh_state s) (finsh_prompt_custom s) (sh_out s).
Definition set_history_count (v : Z) (s : finsh_shell) : finsh_shell :=
  mk_shell (sh_stat s) (echo_mode s) (prompt_mode s) (current_history s) v (cmd_history s)
    (sh_parser s) (sh_line s) (line_position s) (line_curpos s) (msh_state s) (finsh_prompt_custom s) (sh_out s).
Definition set_cmd_history (v : list (list Z)) (s : finsh_shell) : finsh_shell :=
  mk_shell (sh_stat s) (echo_mode s) (prompt_mode s) (current_history s) (history_count s) v
    (sh_parser s) (sh_line s) (line_position s) (line_curpos s) (msh_state s) (finsh_prompt_custom s) (sh_out s).
Definition set_sh_parser (v : fparser) (s : finsh_shell) : finsh_shell :=
  mk_shell (sh_stat s) (echo_mode s) (prompt_mode s) (current_history s) (history_count s) (cmd_history s)
    v (sh_line s) (line_position s) (line_curpos s) (msh_state s) (finsh_prompt_custom s) (sh_out s).
Definition set_sh_line (v : list Z) (s : finsh_shell) : finsh_shell :=
  mk_shell (sh_stat s) (echo_mode s) (prompt_mode s) (current_history s) (history_count s) (cmd_history s)
    (sh_parser s) v (line_position s) (line_curpos s) (msh_state s) (finsh_prompt_custom s) (sh_out s).
Definition set_positions (position curpos : Z) (s : finsh_shell) : finsh_shell :=
  mk_shell (sh_stat s) (echo_mode s) (prompt_mode s) (current_history s) (history_count s) (cmd_history s)
    (sh_parser s) (sh_line s) position curpos (msh_state s) (finsh_prompt_custom s) (sh_out s).
Definition set_msh_state (v : bool) (s : finsh_shell) : finsh_shell :=
  mk_shell (sh_stat s) (echo_mode s) (prompt_mode s) (current_history s) (history_count s) (cmd_history s)
    (sh_parser s) (sh_line s) (line_position s) (line_curpos s) v (finsh_prompt_custom s) (sh_out s).
Definition set_sh_out (v : list (list Z * list arg)) (s : finsh_shell) : finsh_shell :=
  mk_shell (sh_stat s) (echo_mode s) (prompt_mode s) (current_history s) (history_count s) (cmd_history s)
    (sh_parser s) (sh_line s) (line_position s) (line_curpos s) (msh_state s) (finsh_prompt_custom s) v.
Definition set_echo_mode (v : bool) (s : finsh_shell) : finsh_shell :=
  mk_shell (sh_stat s) v (prompt_mode s) (current_history s) (history_count s) (cmd_history s)
    (sh_parser s) (sh_line s) (line_position s) (line_curpos s) (msh_state s) (finsh_prompt_custom s) (sh_out s).
Definition set_prompt_mode (v : bool) (s : finsh_shell) : finsh_shell :=
  mk_shell (sh_stat s) (echo_mode s) v (current_history s) (history_count s) (cmd_history s)
    (sh_parser s) (sh_line s) (line_position s) (line_curpos s) (msh_state s) (finsh_prompt_custom s) (sh_out s).
Definition set_prompt_custom (v : option (list Z)) (s : finsh_shell) : finsh_shell :=
  mk_shell (sh_stat s) (echo_mode s) (prompt_mode s) (current_history s) (history_count s) (cmd_history s)
    (sh_parser s) (sh_line s) (line_position s) (line_curpos s) (msh_state s) v (sh_out s).

Notation H := (ST finsh_shell) (only parsing).

(** ** Output and the line *)

Definition kprintf (fmt : list Z) (args : list arg) : H unit :=
  modify (λ s, set_sh_out (sh_out s ++ [(fmt, args)]) s).
Definition print (fmt : string) (args : list arg) : H unit := kprintf (chars fmt) args.
Definition print_line (fmt : string) (args : list arg) : H unit := kprintf (chars fmt ++ [10]) args.
Definition AText (l : list Z) : arg := AStr (Some l).

Definition on_line {A} (m : ST (list Z) A) : H A := λ s,
  match m (sh_line s) with Ok l a => Ok (set_sh_line l s) a | Err e => Err e end.
Definition line_char (i : Z) : H Z := on_line (load8 i).
Definition put_char (i c : Z) : H unit := on_line (store8 i c).
(** The string that starts at [i]. *)
Definition string_at (i : Z) : H (list Z) :=
  n ← on_line (rt_strlen i);
  s ← get;
  mret (slice (sh_line s) i n).
Definition line_fuel : H nat := gets (λ s, S (S (length (sh_line s)))).

Definition on_parser {A} (m : ST fparser A) : H A := λ s,
  match m (sh_parser s) with Ok p a => Ok (set_sh_parser p s) a | Err e => Err e end.
Definition symbols : H finsh := gets (λ s, fp_finsh (sh_parser s)).

(** ** [cmd.c] *)

Fixpoint for_each {A} (l : list A) (f : A → H unit) : H unit :=
  match l with [] => mret () | x :: l => f x;; for_each l f end.

Definition hello : H Z := print_line "Hello RT-Thread!" [];; mret 0.

Definition underscores (n : nat) : list Z := replicate n 95.
Definition print_described (name desc : list Z) : H unit :=
  print_line "%-16s -- %s" [AText name; AText desc].
Definition list_symbols : H Z :=
  f ← symbols;
  print_line "--Function List:" [];;
  for_each (syscall_table f) (λ c,
    if strn_eq 2 (sc_name c) (underscores 2) then mret () else print_described (sc_name c) (sc_desc c));;
  for_each (global_syscall_list f) (λ c, print_line "[l] %s" [AText (sc_name c)]);;
  print_line "--Variable List:" [];;
  for_each (sysvar_table f) (λ v, print_described (sv_name v) (sv_desc v));;
  for_each (global_sysvar_list f) (λ v, print_line "[l] %s" [AText (sv_name v)]);;
  mret 0.

(** [str_is_prefix(prefix, str) == 0] *)
Fixpoint str_is_prefix (prefix str : list Z) : bool :=
  match prefix, str with
  | [], _ => true
  | c :: prefix, d :: str => (c =? d) && str_is_prefix prefix str
  | _ :: _, [] => false
  end.
Fixpoint str_common (str1 str2 : list Z) : Z :=
  match str1, str2 with
  | c :: str1, d :: str2 => if c =? d then 1 + str_common str1 str2 else 0
  | _, _ => 0
  end.

(** What the completion has found: how many names in the group, the first name
    of all and the length they have in common. *)
Record candidates : Type := mk_candidates { cd_count : Z; cd_name : option (list Z); cd_length : Z }.
(** A name that matches; [heading] is printed before the first of its group. *)
Definition list_match (heading : string) (prefix name : list Z) (show : H unit) (c : candidates) : H candidates :=
  if str_is_prefix prefix name then
    c ← (if cd_count c =? 0 then
           print_line heading [];;
           mret (if negb (bool_decide (prefix = [])) && bool_decide (cd_name c = None)
                 then mk_candidates (cd_count c) (Some name) (zlen name) else c)
         else mret c);
    c ← mret (mk_candidates (cd_count c + 1) (cd_name c) (cd_length c));
    c ← (match cd_name c with
         | Some first =>
             mret (if bool_decide (prefix = []) then c
                   else let length := str_common first name in
                        mk_candidates (cd_count c) (cd_name c) (Z.min length (cd_length c)))
         | None => if bool_decide (prefix = []) then mret c else fail FNull
         end);
    show;;
    mret c
  else mret c.
Fixpoint list_matches {A} (heading : string) (prefix : list Z) (skip : A → bool) (name : A → list Z)
    (show : A → H unit) (l : list A) (c : candidates) : H candidates :=
  match l with
  | [] => mret c
  | x :: l =>
      c ← (if skip x then mret c else list_match heading prefix (name x) (show x) c);
      list_matches heading prefix skip name show l c
  end.
(** [rt_strncpy] of the common part over the prefix, at the start of the line. *)
Definition complete (c : candidates) : H unit :=
  match cd_name c with
  | Some name => on_line (store_bytes 0 (take (Z.to_nat (cd_length c)) name))
  | None => mret ()
  end.
Definition no_skip {A} (x : A) : bool := false.
Definition list_prefix : H unit :=
  prefix ← string_at 0;
  f ← symbols;
  c ← list_matches "--function:" prefix (λ c, str_is_prefix (underscores 2) (sc_name c)) sc_name
        (λ c, print_described (sc_name c) (sc_desc c)) (syscall_table f) (mk_candidates 0 None 0);
  c ← list_matches "--function:" prefix no_skip sc_name
        (λ c, print_line "[l] %s" [AText (sc_name c)]) (global_syscall_list f) c;
  c ← mret (mk_candidates 0 (cd_name c) (cd_length c));
  c ← list_matches "--variable:" prefix no_skip sv_name
        (λ v, print_described (sv_name v) (sv_desc v)) (sysvar_table f) c;
  c ← list_matches "--variable:" prefix no_skip sv_name
        (λ v, print_line "[v] %s" [AText (sv_name v)]) (global_sysvar_list f) c;
  complete c.
