(* ===== verification/Msh.v ===== *)
(** * The command mode of the shell ([msh.c])

    A command is the line, split in place into words; what the functions of the
    commands do is a parameter. Configured: no file system, no modules. *)

From Stdlib Require Import String ZArith Lia.
From stdpp Require Import base list.
From S2P Require Import RTThread.
From S2P Require Import Prelude.
From S2P Require Import Bytes.
From S2P Require Import KMemory.
From S2P Require Import KString.
From S2P Require Import KPrintf.
From S2P Require Import FinshVm.
From S2P Require Import Finsh.
From S2P Require Import FinshToken.
From S2P Require Import FinshParser.
From S2P Require Import FinshShell.

(** The function at an address, given the strings its arguments point to. *)
Class Commands := run_command : Z → list (list Z) → ST finsh_shell Z.

Definition msh_is_used : H bool := gets msh_state.
Definition msh_exit : H Z := modify (set_msh_state false);; mret 0.
Definition msh_enter : H Z := modify (set_msh_state true);; mret 0.

Definition cmd_prefix : list Z := chars "__cmd_".
Definition is_command (c : finsh_syscall) : bool := strn_eq 6 (sc_name c) cmd_prefix.
Definition command_name (c : finsh_syscall) : list Z := drop 6 (sc_name c).
Definition msh_help : H Z :=
  print_line "RT-Thread shell commands:" [];;
  f ← symbols;
  for_each (syscall_table f) (λ c,
    if is_command c then print_line "%-16s - %s" [AText (command_name c); AText (sc_desc c)] else mret ());;
  kprintf [10] [];;
  mret 0.

(** ** Splitting

    [ptr] is [cmd + position] throughout; a position is given back. *)

Definition is_space (c : Z) : bool := (c =? 32) || (c =? 9).
Fixpoint strip_loop (fuel : nat) (cmd length position : Z) : H Z :=
  c ← line_char (cmd + position);
  if is_space c && (position <? length) then
    match fuel with
    | O => fail FHang
    | S fuel =>
        put_char (cmd + position) 0;;
        strip_loop fuel cmd length (position + 1)
    end
  else mret position.
Fixpoint skip_string (fuel : nat) (cmd length position : Z) : H Z :=
  c ← line_char (cmd + position);
  if negb (c =? 34) && (position <? length) then
    match fuel with
    | O => fail FHang
    | S fuel =>
        position ← (if c =? 92 then
                      d ← line_char (cmd + position + 1);
                      mret (if d =? 34 then position + 1 else position)
                    else mret position);
        skip_string fuel cmd length (position + 1)
    end
  else mret position.
Fixpoint skip_word (fuel : nat) (cmd length position : Z) : H Z :=
  c ← line_char (cmd + position);
  if negb (is_space c) && (position <? length) then
    match fuel with O => fail FHang | S fuel => skip_word fuel cmd length (position + 1) end
  else mret position.
Definition print_args (argv : list Z) : H unit :=
  print_line "Too many args ! We only Use:" [];;
  for_each argv (λ a, l ← string_at a; print "%s " [AText l]);;
  kprintf [10] [].
Fixpoint split_loop (fuel : nat) (cmd length position : Z) (argv : list Z) : H (list Z) :=
  if position <? length then
    match fuel with
    | O => fail FHang
    | S fuel =>
        n ← line_fuel;
        position ← strip_loop n cmd length position;
        if FINSH_ARG_MAX <=? zlen argv then print_args argv;; mret argv
        else if length <=? position then mret argv
        else
          c ← line_char (cmd + position);
          if c =? 34 then
            let argv := argv ++ [cmd + position + 1] in
            position ← skip_string n cmd length (position + 1);
            if length <=? position then mret argv
            else
              put_char (cmd + position) 0;;
              split_loop fuel cmd length (position + 1) argv
          else
            let argv := argv ++ [cmd + position] in
            position ← skip_word n cmd length position;
            if length <=? position then mret argv
            else split_loop fuel cmd length position argv
    end
  else mret argv.
Definition msh_split (cmd length : Z) : H (list Z) :=
  n ← line_fuel;
  split_loop n cmd length 0 [].

(** ** Commands *)

(** [strncmp] of the [size] characters at [cmd] with the rest of a name, and the
    character of the name after them, which has to be in it. *)
Fixpoint find_command (cmd : list Z) (size : Z) (l : list finsh_syscall) : H (option Z) :=
  match l with
  | [] => mret None
  | c :: l =>
      if is_command c && strn_eq size (command_name c) cmd then
        if zlen (command_name c) =? size then mret (Some (sc_func c))
        else if zlen (command_name c) <? size then fail FBounds
        else find_command cmd size l
      else find_command cmd size l
  end.
Definition msh_get_cmd (cmd size : Z) : H (option Z) :=
  s ← get;
  f ← symbols;
  find_command (up_to_end (slice (sh_line s) cmd size)) size (syscall_table f).

Section msh.
Context `{!Commands}.

(** The strings the arguments point to, when the command starts. *)
Fixpoint read_args (argv : list Z) : H (list (list Z)) :=
  match argv with
  | [] => mret []
  | a :: argv => l ← string_at a; ls ← read_args argv; mret (l :: ls)
  end.
(** What the command gives, or nothing where [-RT_ERROR] is returned. *)
Definition _msh_exec_cmd (cmd length : Z) : H (option Z) :=
  n ← line_fuel;
  cmd0_size ← skip_word n cmd length 0;
  if cmd0_size =? 0 then mret None
  else
    cmd_func ← msh_get_cmd cmd cmd0_size;
    match cmd_func with
    | None => mret None
    | Some func =>
        argv ← msh_split cmd length;
        if zlen argv =? 0 then mret None
        else
          args ← read_args argv;
          r ← run_command func args;
          mret (Some r)
    end.

Fixpoint trim_command (fuel : nat) (cmd length : Z) : H (Z * Z) :=
  c ← line_char cmd;
  if is_space c then
    match fuel with O => fail FHang | S fuel => trim_command fuel (cmd + 1) (u32 (length - 1)) end
  else mret (cmd, length).
Fixpoint first_space (fuel : nat) (tcmd : Z) : H Z :=
  c ← line_char tcmd;
  if negb (c =? 32) && negb (c =? 0) then
    match fuel with O => fail FHang | S fuel => first_space fuel (tcmd + 1) end
  else mret tcmd.
Definition msh_exec (cmd length : Z) : H Z :=
  n ← line_fuel;
  '(cmd, length) ← trim_command n cmd length;
  if length =? 0 then mret 0
  else
    r ← _msh_exec_cmd cmd length;
    match r with
    | Some cmd_ret => mret cmd_ret
    | None =>
        tcmd ← first_space n cmd;
        put_char tcmd 0;;
        l ← string_at cmd;
        print_line "%s: command not found." [AText l];;
        mret (-1)
    end.
End msh.

(** ** Completion *)

Fixpoint complete_commands (prefix : list Z) (l : list finsh_syscall) (c : candidates) : H candidates :=
  match l with
  | [] => mret c
  | x :: l =>
      let name := command_name x in
      if is_command x && strn_eq (zlen prefix) prefix name then
        let c := if cd_length c =? 0 then mk_candidates 0 (Some name) (zlen name) else c in
        let length := str_common (default [] (cd_name c)) name in
        print_line "%s" [AText name];;
        complete_commands prefix l
          (mk_candidates 0 (cd_name c) (if length <? cd_length c then length else cd_length c))
      else complete_commands prefix l c
  end.
(** On the string at the start of the line. *)
Definition msh_auto_complete : H unit :=
  c ← line_char 0;
  if c =? 0 then msh_help;; mret ()
  else
    prefix ← string_at 0;
    f ← symbols;
    c ← complete_commands prefix (syscall_table f) (mk_candidates 0 None 0);
    complete c.
