(* ===== verification/Shell.v ===== *)
(** * The line editor of the shell ([shell.c])

    [finsh_thread_char] is one turn of the loop of [finsh_thread_entry], on the
    character read. Positions are 16 bits wide. Configured: history, [msh], the
    expression shell; no authentication. *)

From Stdlib Require Import String ZArith Lia.
From stdpp Require Import base list.
From S2P Require Import RTThread.
From S2P Require Import Prelude.
From S2P Require Import Bytes.
From S2P Require Import KMemory.
From S2P Require Import KString.
From S2P Require Import KPrintf.
From S2P Require Import Device.
From S2P Require Import FinshVm.
From S2P Require Import Finsh.
From S2P Require Import FinshCompile.
From S2P Require Import FinshToken.
From S2P Require Import FinshParser.
From S2P Require Import FinshShell.
From S2P Require Import Msh.

(** ** Prompt and modes *)

(** [None] for the prompt is [RT_NULL]; [allocated] is whether [rt_malloc] gives
    the copy a block. *)
Definition finsh_set_prompt (prompt : option (list Z)) (allocated : bool) : H unit :=
  modify (set_prompt_custom None);;
  match prompt with
  | Some l => if allocated then modify (set_prompt_custom (Some l)) else mret ()
  | None => mret ()
  end.
(** [strncpy] to the static array of [RT_CONSOLEBUF_SIZE + 1] bytes, whose last
    stays zero. *)
Definition finsh_get_prompt : H (list Z) :=
  s ← get;
  if negb (prompt_mode s) then mret []
  else
    match finsh_prompt_custom s with
    | Some l => mret (take (Z.to_nat RT_CONSOLEBUF_SIZE) l)
    | None => mret (chars (if msh_state s then "msh >" else "finsh >"))
    end.
Definition finsh_set_prompt_mode (mode : Z) : H unit := modify (set_prompt_mode (flag_on mode 1)).
Definition finsh_get_prompt_mode : H bool := gets prompt_mode.
Definition finsh_set_echo (echo : Z) : H unit := modify (set_echo_mode (flag_on echo 1)).
Definition finsh_get_echo : H bool := gets echo_mode.

Section shell.
Context `{!FinshLayout, !Syscalls, !Commands}.

(** ** Running a line of the expression shell *)

(** The value of the line: as a character too where it is a printable one. *)
Definition result_report (v : Z) : list Z * list arg :=
  let ch := u8 v in
  if (32 <? ch) && (ch <? 126)
  then ([9] ++ chars "'%c', %d, 0x%08x" ++ [10], [AInt ch; AInt (u32 v); AInt (u32 v)])
  else ([9] ++ chars "%d, 0x%08x" ++ [10], [AInt (u32 v); AInt (u32 v)]).
Definition print_result : H unit :=
  v ← on_parser (on_finsh (on_vm finsh_stack_bottom));
  kprintf (fst (result_report v)) (snd (result_report v)).
Definition shell_errno : H finsh_error := on_parser (on_finsh finsh_errno).
Definition finsh_run_line (line : list Z) : H unit :=
  s ← get;
  (if echo_mode s then kprintf [10] [] else mret ());;
  on_parser (finsh_parser_run line);;
  e ← shell_errno;
  (if decide (e = FINSH_ERROR_OK) then
     p ← gets sh_parser;
     on_parser (on_finsh (finsh_compiler_run (fp_root p)))
   else print_line "%s" [AText (finsh_error_string e)]);;
  e ← shell_errno;
  (if decide (e = FINSH_ERROR_OK) then
     on_parser (on_finsh (on_vm finsh_vm_run));;
     print_result
   else mret ());;
  on_parser finsh_flush.

Definition shell_auto_complete : H unit :=
  kprintf [10] [];;
  m ← msh_is_used;
  (if (m : bool) then msh_auto_complete else list_prefix);;
  prompt ← finsh_get_prompt;
  prefix ← string_at 0;
  print "%s%s" [AText prompt; AText prefix].

(** ** History *)

Definition shell_handle_history : H unit :=
  kprintf [27; 91; 50; 75; 13] [];;
  prompt ← finsh_get_prompt;
  line ← string_at 0;
  print "%s%s" [AText prompt; AText line].

(** A row of the history with the line in it. *)
Definition history_row (line : list Z) (position : Z) : H (list Z) :=
  if position <=? FINSH_CMD_SIZE
  then mret (take (Z.to_nat position) line ++ replicate (Z.to_nat (FINSH_CMD_SIZE - position)) 0)
  else fail FBounds.
Definition history_at (i : Z) : H (list Z) :=
  s ← get; from_option_or FBounds (cmd_history s !! Z.to_nat i).
Definition shell_push_history : H unit :=
  s ← get;
  let line := take (Z.to_nat FINSH_CMD_SIZE) (sh_line s) in
  (if line_position s =? 0 then mret ()
   else if FINSH_HISTORY_LINES <=? history_count s then
     last ← history_at (FINSH_HISTORY_LINES - 1);
     if bool_decide (last = line) then mret ()
     else
       row ← history_row (sh_line s) (line_position s);
       modify (set_cmd_history (drop 1 (cmd_history s) ++ [row]));;
       modify (set_history_count FINSH_HISTORY_LINES)
   else
     same ← (if history_count s =? 0 then mret false
             else last ← history_at (history_count s - 1); mret (bool_decide (last = line)));
     if (same : bool) then mret ()
     else
       modify (set_history (history_count s));;
       row ← history_row (sh_line s) (line_position s);
       modify (set_cmd_history (<[Z.to_nat (history_count s) := row]> (cmd_history s)));;
       modify (set_history_count (u16 (history_count s + 1))));;
  s ← get;
  modify (set_history (history_count s)).

(** ** Keys *)

Definition strlen_line : H Z := on_line (rt_strlen 0).
(** The command of the history, with the cursor at its end. *)
Definition recall (index : Z) : H unit :=
  modify (set_history index);;
  row ← history_at index;
  on_line (store_bytes 0 row);;
  n ← strlen_line;
  modify (set_positions (u16 n) (u16 n));;
  shell_handle_history.
Definition key_up : H unit :=
  s ← get;
  if 0 <? current_history s then recall (current_history s - 1)
  else modify (set_history 0).
Definition key_down : H unit :=
  s ← get;
  if current_history s <? history_count s - 1 then recall (current_history s + 1)
  else if negb (history_count s =? 0) then recall (history_count s - 1)
  else mret ().
Definition backspace_char : H unit := kprintf [8] [].
Fixpoint backspaces (n : nat) : H unit :=
  match n with O => mret () | S n => backspace_char;; backspaces n end.
Definition key_left : H unit :=
  s ← get;
  if negb (line_curpos s =? 0) then
    backspace_char;;
    modify (set_positions (line_position s) (line_curpos s - 1))
  else mret ().
Definition key_right : H unit :=
  s ← get;
  if line_curpos s <? line_position s then
    c ← line_char (line_curpos s);
    print "%c" [AInt c];;
    modify (set_positions (line_position s) (u16 (line_curpos s + 1)))
  else mret ().
(** The escape sequences; [true] where the loop goes on with the next character. *)
Definition special_key (ch : Z) : H bool :=
  s ← get;
  if ch =? 27 then modify (set_sh_stat WAIT_SPEC_KEY);; mret true
  else
    match sh_stat s with
    | WAIT_SPEC_KEY =>
        if ch =? 91 then modify (set_sh_stat WAIT_FUNC_KEY);; mret true
        else modify (set_sh_stat WAIT_NORMAL);; mret false
    | WAIT_FUNC_KEY =>
        modify (set_sh_stat WAIT_NORMAL);;
        if ch =? 65 then key_up;; mret true
        else if ch =? 66 then key_down;; mret true
        else if ch =? 68 then key_left;; mret true
        else if ch =? 67 then key_right;; mret true
        else mret false
    | WAIT_NORMAL => mret false
    end.

Definition key_tab : H unit :=
  s ← get;
  backspaces (Z.to_nat (line_curpos s));;
  shell_auto_complete;;
  n ← strlen_line;
  modify (set_positions (u16 n) (u16 n)).
Definition key_backspace : H unit :=
  s ← get;
  if line_curpos s =? 0 then mret ()
  else
    let position := u16 (line_position s - 1) in
    let curpos := line_curpos s - 1 in
    modify (set_positions position curpos);;
    if curpos <? position then
      on_line (rt_memmove curpos (curpos + 1) (position - curpos));;
      put_char position 0;;
      l ← string_at curpos;
      kprintf ([8] ++ chars "%s  " ++ [8]) [AText l];;
      backspaces (Z.to_nat (position - curpos + 1))
    else
      kprintf [8; 32; 8] [];;
      put_char position 0.
Definition key_enter : H unit :=
  shell_push_history;;
  m ← msh_is_used;
  s ← get;
  (if (m : bool) then
     (if echo_mode s then kprintf [10] [] else mret ());;
     msh_exec 0 (line_position s);;
     mret ()
   else
     put_char (line_position s) 59;;
     if negb (line_position s =? 0) then
       line ← string_at 0;
       finsh_run_line line
     else if echo_mode s then kprintf [10] [] else mret ());;
  prompt ← finsh_get_prompt;
  kprintf prompt [];;
  modify (set_sh_line (replicate (Z.to_nat (FINSH_CMD_SIZE + 1)) 0));;
  modify (set_positions 0 0).
Definition key_normal (ch : Z) : H unit :=
  s ← get;
  let position := if FINSH_CMD_SIZE <=? line_position s then 0 else line_position s in
  let curpos := line_curpos s in
  modify (set_positions position curpos);;
  (if curpos <? position then
     on_line (rt_memmove (curpos + 1) curpos (position - curpos));;
     put_char curpos ch;;
     (if echo_mode s then l ← string_at curpos; print "%s" [AText l] else mret ());;
     backspaces (Z.to_nat (position - curpos))
   else
     put_char position ch;;
     if echo_mode s then print "%c" [AInt ch] else mret ());;
  let position := u16 (position + 1) in
  let curpos := u16 (curpos + 1) in
  if FINSH_CMD_SIZE <=? position then modify (set_positions 0 0)
  else modify (set_positions position curpos).

(** ** The thread *)

Definition finsh_thread_char (ch : Z) : H unit :=
  handled ← special_key ch;
  if (handled : bool) then mret ()
  else if (ch =? 0) || (ch =? 255) then mret ()
  else if ch =? 9 then key_tab
  else if (ch =? 127) || (ch =? 8) then key_backspace
  else if (ch =? 13) || (ch =? 10) then key_enter
  else key_normal ch.
(** What precedes the loop, the device apart. *)
Definition finsh_thread_start : H unit :=
  modify (set_echo_mode true);;
  on_parser finsh_init;;
  prompt ← finsh_get_prompt;
  kprintf prompt [].
Fixpoint finsh_thread_chars (chs : list Z) : H unit :=
  match chs with [] => mret () | ch :: chs => finsh_thread_char ch;; finsh_thread_chars chs end.
End shell.
