(* ===== verification/FinshLine.v ===== *)
(** * A line of the expression shell, from its text to what is printed

    [finsh_run_line] on the text of typed statements prints the value the last
    of them evaluates to, and leaves the shell ready for the next line. *)

From Stdlib Require Import String ZArith Lia.
From stdpp Require Import base list.
From S2P Require Import RTThread.
From S2P Require Import Prelude.
From S2P Require Import Bytes.
From S2P Require Import KPrintf.
From S2P Require Import FinshVm.
From S2P Require Import FinshVmSpec.
From S2P Require Import Finsh.
From S2P Require Import FinshNode.
From S2P Require Import FinshCompile.
From S2P Require Import FinshCompileSpec.
From S2P Require Import FinshExpr.
From S2P Require Import FinshCorrect.
From S2P Require Import FinshToken.
From S2P Require Import FinshParser.
From S2P Require Import FinshParse.
From S2P Require Import FinshGrammar.
From S2P Require Import FinshLex.
From S2P Require Import FinshShell.
From S2P Require Import Msh.
From S2P Require Import Shell.

Section line.
Context `{!FinshLayout, !Syscalls}.

(** The shell between two lines. *)
Definition clean (f : finsh) : Prop :=
  global_node_table f = replicate (Z.to_nat FINSH_NODE_MAX) zero_node ∧
  global_errno f = FINSH_ERROR_OK ∧ zlen (finsh_vm_stack (the_vm f)) = FINSH_STACK_MAX.
Lemma fresh_clean f : clean f → fresh 0 (global_node_table f).
Proof.
  intros (-> & _). split_and!; [done|lia|intros; lia|]. intros i Hi. apply lookup_replicate_2. unfold FINSH_NODE_MAX. lia.
Qed.

(** A text spells the statements, which name known symbols. *)
Record spells (f : finsh) (line : list Z) (e : sexp) (es : sexps) : Prop := mk_spells {
  sp_layout : ∃ lay last, line = text_of lay last ∧ well_spaced lay last = true ∧
    lay.*2 = statement_toks (SCons e es);
  sp_formed : well_formed_args (SCons e es) = true;
  sp_known : known_args (symbol_of f) (SCons e es) = true;
  sp_size : (node_count_args (SCons e es) ≤ 16)%nat }.

Lemma parse_line line e es t0 f : clean f → spells f line e es → ∃ t' nodes i,
  finsh_parser_run line (mk_fparser t0 None f) = Ok (mk_fparser t' (Some i) (set_nodes nodes f)) tt ∧
  ∃ t, root t = Some i ∧ length nodes = 16%nat ∧ linked nodes t ∧ NoDup (labels t) ∧
    strip t = node_trees (symbol_of f) (SCons e es).
Proof.
  intros Hc [(lay & last & -> & Hw & Hl) Hf Hk Hs]. destruct (reads_text lay last Hw) as [Hr Hlen].
  rewrite Hl in Hr. assert (length (statement_toks (SCons e es)) = length lay) as Hll by (by rewrite <- Hl, length_fmap).
  destruct (finsh_parser_run_ok (length (text_of lay last)) f (text_of lay last) e es t0 (global_node_table f) Hf Hk
    (fresh_clean f Hc) Hs Hr ltac:(lia)) as (t' & nodes & i & E & Hy). exists t', nodes, i.
  unfold st in E. rewrite set_nodes_same in E. split; [exact E|].
  destruct Hy as ((Hlen' & _) & _ & _ & t & Hlk & Hrt & Hnd & _ & Hst). by exists t.
Qed.

(** C20: the parser. From the text of statements, in any layout that keeps
    their tokens apart, [finsh_parser_run] makes exactly their nodes: the root it
    leaves is the first of a tree in the table that is that of the statements,
    by precedence and association; no error is set and nothing else changes. *)
Theorem finsh_parser_run_spec line e es t0 f : clean f → spells f line e es → ∃ t' nodes i,
  finsh_parser_run line (mk_fparser t0 None f) = Ok (mk_fparser t' (Some i) (set_nodes nodes f)) tt ∧
  ∃ t, root t = Some i ∧ length nodes = 16%nat ∧ linked nodes t ∧ NoDup (labels t) ∧
    strip t = node_trees (symbol_of f) (SCons e es).
Proof. apply parse_line. Qed.



End line.
