(* ===== verification/ShellSpec.v ===== *)
(** * The line editor keeps a text and a cursor in it

    A key that inserts, deletes or moves does to the line buffer what it does to
    the texts before and after the cursor. *)

From Stdlib Require Import String ZArith Lia.
From stdpp Require Import base list.
From S2P Require Import RTThread.
From S2P Require Import Prelude.
From S2P Require Import Bytes.
From S2P Require Import KMemory.
From S2P Require Import KString.
From S2P Require Import KPrintf.
From S2P Require Import FinshVm.
From S2P Require Import Finsh.
From S2P Require Import FinshToken.
From S2P Require Import FinshParser.
From S2P Require Import FinshShell.
From S2P Require Import Msh.
From S2P Require Import Shell.

(** ** The abstract editor *)

Inductive key : Set := KInsert (c : Z) | KBackspace | KDelete | KLeft | KRight.
Definition key_bytes (k : key) : list Z :=
  match k with
  | KInsert c => [c]
  | KBackspace => [8]
  | KDelete => [127]
  | KLeft => [27; 91; 68]
  | KRight => [27; 91; 67]
  end.
(** A character that is no control key of the editor. *)
Definition insertable (c : Z) : bool :=
  (0 <? c) && (c <? 255) && negb ((c =? 8) || (c =? 9) || (c =? 10) || (c =? 13) || (c =? 27) || (c =? 127)).
(** The text before the cursor, last character first, and the text after it. *)
Definition edit (k : key) (lr : list Z * list Z) : list Z * list Z :=
  let '(l, r) := lr in
  match k with
  | KInsert c => (c :: l, r)
  | KBackspace | KDelete => (tail l, r)
  | KLeft => match l with [] => (l, r) | c :: l => (l, c :: r) end
  | KRight => match r with [] => (l, r) | c :: r => (c :: l, r) end
  end.
Definition text_length (lr : list Z * list Z) : Z := zlen (fst lr) + zlen (snd lr).
Definition text_at (lr : list Z * list Z) : list Z := rev (fst lr) ++ snd lr.
(** Keys that never fill the line. *)
Fixpoint keys_fit (ks : list key) (lr : list Z * list Z) : bool :=
  match ks with
  | [] => true
  | k :: ks =>
      match k with KInsert c => insertable c | _ => true end &&
      (text_length (edit k lr) <? FINSH_CMD_SIZE) && keys_fit ks (edit k lr)
  end.
Definition edits (ks : list key) (lr : list Z * list Z) : list Z * list Z := foldl (λ lr k, edit k lr) lr ks.

(** ** States of the editor *)

Definition line_of (t : list Z) : list Z := t ++ replicate (81 - length t) 0.
Definition char_ok (c : Z) : Prop := 0 < c < 256.
Definition text_ok (lr : list Z * list Z) : Prop :=
  text_length lr < FINSH_CMD_SIZE ∧ Forall char_ok (text_at lr).

Section editor.
Context `{!FinshLayout, !Syscalls, !Commands}.
Context (base : finsh_shell).
Definition E (stat : input_stat) (line : list Z) (pos cur : Z) (out : list (list Z * list arg)) : finsh_shell :=
  mk_shell stat (echo_mode base) (prompt_mode base) (current_history base) (history_count base) (cmd_history base)
    (sh_parser base) line pos cur (msh_state base) (finsh_prompt_custom base) out.
Definition ed (lr : list Z * list Z) (out : list (list Z * list arg)) : finsh_shell :=
  E WAIT_NORMAL (line_of (text_at lr)) (text_length lr) (zlen (fst lr)) out.

(** [m] goes from one state to the other, whatever has been printed. *)
Definition goes {A} (m : ST finsh_shell A) (st st' : list (list Z * list arg) → finsh_shell) (a : A) : Prop :=
  ∀ out, ∃ out', m (st out) = Ok (st' out') a.
Lemma goes_bind {A B} (m : ST finsh_shell A) (f : A → ST finsh_shell B) st st1 st2 a b :
  goes m st st1 a → goes (f a) st1 st2 b → goes (m ≫= f) st st2 b.
Proof.
  intros Hm Hf out. destruct (Hm out) as [o1 E1]. destruct (Hf o1) as [o2 E2]. exists o2.
  by rewrite (bind_ok _ _ _ _ _ E1).
Qed.
Lemma goes_ret {A} (a : A) st : goes (mret a) st st a.
Proof. intros out. by exists out. Qed.
(** What is read of the state is not what has been printed. *)
Lemma goes_get {B} (f : finsh_shell → ST finsh_shell B) g st st' b :
  (∀ out, f (st out) = g) → goes g st st' b → goes (get ≫= f) st st' b.
Proof. intros Hf Hg out. rewrite get_bind, Hf. apply Hg. Qed.
Lemma goes_print fmt args stat line pos cur : goes (kprintf fmt args) (E stat line pos cur) (E stat line pos cur) tt.
Proof. intros out. by eexists. Qed.
Lemma goes_backspaces n stat line pos cur : goes (backspaces n) (E stat line pos cur) (E stat line pos cur) tt.
Proof. induction n as [|n IH]; [apply goes_ret|]. eapply goes_bind; [apply goes_print|exact IH]. Qed.
(** [m] prints nothing. *)
Definition silent {A} (m : ST finsh_shell A) (st st' : list (list Z * list arg) → finsh_shell) (a : A) : Prop :=
  ∀ out, m (st out) = Ok (st' out) a.
Lemma goes_silent {A} (m : ST finsh_shell A) st st' a : silent m st st' a → goes m st st' a.
Proof. intros Hm out. exists out. apply Hm. Qed.
Lemma silent_bind {A B} (m : ST finsh_shell A) (f : A → ST finsh_shell B) st st1 st2 a b :
  silent m st st1 a → silent (f a) st1 st2 b → silent (m ≫= f) st st2 b.
Proof. intros Hm Hf out. rewrite (bind_ok _ _ _ _ _ (Hm out)). apply Hf. Qed.
Lemma silent_ret {A} (a : A) st : silent (mret a) st st a.
Proof. done. Qed.
Lemma silent_line {A} (m : ST (list Z) A) stat line line' pos cur a : m line = Ok line' a →
  silent (on_line m) (E stat line pos cur) (E stat line' pos cur) a.
Proof. intros Hm out. unfold on_line. cbn [sh_line E]. by rewrite Hm. Qed.
Lemma goes_line {A} (m : ST (list Z) A) stat line line' pos cur a : m line = Ok line' a →
  goes (on_line m) (E stat line pos cur) (E stat line' pos cur) a.
Proof. intros Hm. by apply goes_silent, silent_line. Qed.
Lemma goes_positions p c stat line pos cur : goes (modify (set_positions p c)) (E stat line pos cur) (E stat line p c) tt.
Proof. by apply goes_silent. Qed.
Lemma goes_stat v stat line pos cur : goes (modify (set_sh_stat v)) (E stat line pos cur) (E v line pos cur) tt.
Proof. by apply goes_silent. Qed.
Lemma silent_put i c stat pre x post pos cur : i = zlen pre → 0 ≤ c < 256 →
  silent (put_char i c) (E stat (pre ++ x :: post) pos cur) (E stat (pre ++ c :: post) pos cur) tt.
Proof.
  intros -> Hc. apply silent_line. unfold store8. pose proof (zlen_nonneg pre). pose proof (zlen_nonneg post).
  change (zlen [u8 c]) with 1 in *. rewrite store_bytes_ok; [|lia|change (zlen [u8 c]) with 1; rewrite zlen_app, zlen_cons; lia].
  f_equal. unfold splice. change (zlen [u8 c]) with 1. unfold u8. rewrite Z.mod_small by lia.
  unfold zlen. rewrite Nat2Z.id, take_app_length. f_equal. cbn [app]. f_equal.
  rewrite cons_middle, app_assoc. apply drop_app_length'. rewrite length_app. simpl. lia.
Qed.
Lemma silent_char i stat pre x post pos cur : i = zlen pre →
  silent (line_char i) (E stat (pre ++ x :: post) pos cur) (E stat (pre ++ x :: post) pos cur) x.
Proof.
  intros ->. apply silent_line. pose proof (zlen_nonneg pre). pose proof (zlen_nonneg post).
  rewrite load8_ok; [|rewrite zlen_app, zlen_cons; lia]. f_equal. unfold byte, zlen. rewrite Nat2Z.id.
  rewrite app_nth2 by lia. by rewrite Nat.sub_diag.
Qed.
Lemma cstr_at pre w post : Forall char_ok w → cstr (pre ++ w ++ 0 :: post) (zlen pre) w.
Proof.
  revert pre. induction w as [|c w IH]; intros pre Hw; pose proof (zlen_nonneg pre); pose proof (zlen_nonneg post).
  - apply cstr_nil; cbn [app].
    + rewrite zlen_app, zlen_cons. lia.
    + unfold byte, zlen. rewrite Nat2Z.id, app_nth2 by lia. by rewrite Nat.sub_diag.
  - inversion_clear Hw as [|?? Hc Hw']. apply cstr_cons; cbn [app].
    + rewrite zlen_app, zlen_cons. pose proof (zlen_nonneg (w ++ 0 :: post)). lia.
    + unfold byte, zlen. rewrite Nat2Z.id, app_nth2 by lia. by rewrite Nat.sub_diag.
    + unfold char_ok in Hc. lia.
    + rewrite cons_middle, app_assoc. specialize (IH (pre ++ [c]) Hw'). by rewrite zlen_app in IH.
Qed.
Lemma silent_string i stat pre w post pos cur : i = zlen pre → Forall char_ok w →
  silent (string_at i) (E stat (pre ++ w ++ 0 :: post) pos cur) (E stat (pre ++ w ++ 0 :: post) pos cur) w.
Proof.
  intros -> Hw. eapply silent_bind; [apply silent_line; by apply rt_strlen_ok, cstr_at|].
  intros out. unfold mret, ST_ret. rewrite get_bind. f_equal. cbn [sh_line E]. unfold slice, zlen. rewrite !Nat2Z.id.
  by rewrite drop_app_length, take_app_length.
Qed.

(** ** The line buffer *)

Definition rest_of (t : list Z) : list Z := replicate (80 - length t) 0.
Lemma line_of_rest t : (length t < 81)%nat → line_of t = t ++ 0 :: rest_of t.
Proof.
  intros Ht. unfold line_of, rest_of. replace (81 - length t)%nat with (S (80 - length t)) by lia. done.
Qed.
Lemma line_of_snoc t c : (length t < 80)%nat → line_of (t ++ [c]) = t ++ c :: rest_of t.
Proof.
  intros Ht. unfold line_of, rest_of. rewrite <- app_assoc. cbn [app]. rewrite length_app. cbn [length].
  do 3 f_equal. lia.
Qed.
Lemma bytes_ok t z : Forall char_ok t → Forall is_byte (t ++ replicate z 0).
Proof.
  intros Ht. apply Forall_app. split.
  - eapply Forall_impl; [exact Ht|]. unfold char_ok, is_byte. lia.
  - apply Forall_replicate. by unfold is_byte.
Qed.
Lemma splice_at {A} (p q bs z : list A) : length q = length bs → splice (p ++ q ++ z) (zlen p) bs = p ++ bs ++ z.
Proof.
  intros Hl. unfold splice, zlen. rewrite Nat2Z.id, take_app_length. do 2 f_equal.
  rewrite app_assoc. apply drop_app_length'. rewrite length_app. lia.
Qed.
Lemma slice_at {A} (p q z : list A) : slice (p ++ q ++ z) (zlen p) (zlen q) = q.
Proof. unfold slice, zlen. by rewrite !Nat2Z.id, drop_app_length, take_app_length. Qed.
Lemma move_right p h r x z : Forall is_byte (p ++ (h :: r) ++ x :: z) →
  rt_memmove (zlen p + 1) (zlen p) (zlen (h :: r)) (p ++ (h :: r) ++ x :: z) = Ok (p ++ h :: (h :: r) ++ z) (zlen p + 1).
Proof.
  intros Hb. pose proof (zlen_nonneg p). pose proof (zlen_nonneg r). pose proof (zlen_nonneg z).
  rewrite rt_memmove_ok; [|done|lia|lia|rewrite zlen_cons; lia|rewrite !zlen_app, !zlen_cons; lia..].
  f_equal. rewrite slice_at. replace (zlen p + 1) with (zlen (p ++ [h])) by (by rewrite zlen_app).
  replace (p ++ (h :: r) ++ x :: z) with ((p ++ [h]) ++ (r ++ [x]) ++ z) by (by rewrite <- !app_assoc).
  rewrite splice_at by (rewrite length_app; simpl; lia). by rewrite <- app_assoc.
Qed.
Lemma move_left p c r z : Forall is_byte (p ++ c :: r ++ z) → ∃ x,
  rt_memmove (zlen p) (zlen p + 1) (zlen r) (p ++ c :: r ++ z) = Ok (p ++ r ++ x :: z) (zlen p).
Proof.
  intros Hb. pose proof (zlen_nonneg p). pose proof (zlen_nonneg r). pose proof (zlen_nonneg z).
  rewrite rt_memmove_ok; [|done|lia|lia|lia|rewrite !zlen_app, !zlen_cons, ?zlen_app; lia..].
  replace (slice (p ++ c :: r ++ z) (zlen p + 1) (zlen r)) with r.
  2:{ replace (zlen p + 1) with (zlen (p ++ [c])) by (by rewrite zlen_app).
      rewrite cons_middle, app_assoc, app_assoc. rewrite <- (app_assoc (p ++ [c])). by rewrite slice_at. }
  destruct (exists_last (l := c :: r)) as (q & x & Hq); [done|]. exists x. f_equal.
  replace (p ++ c :: r ++ z) with (p ++ (q ++ [x]) ++ z) by (by rewrite <- Hq).
  rewrite <- app_assoc. cbn [app]. apply splice_at. apply (f_equal length) in Hq. rewrite length_app in Hq. simpl in Hq. lia.
Qed.

(** ** The keys *)

Lemma text_length_at lr : text_length lr = zlen (text_at lr).
Proof. destruct lr as [l r]. unfold text_length, text_at. simpl. rewrite zlen_app. unfold zlen. by rewrite length_rev. Qed.
Lemma insert_ok c lr : insertable c = true → text_ok lr → text_length (edit (KInsert c) lr) < FINSH_CMD_SIZE →
  goes (key_normal c) (ed lr) (ed (edit (KInsert c) lr)) tt.
Proof.
  destruct lr as [l r]. intros Hc [Hlen Htxt] Hfit. unfold text_length, FINSH_CMD_SIZE in *. cbn [edit fst snd] in *.
  rewrite zlen_cons in Hfit. unfold insertable in Hc. rewrite !andb_true_iff, !Z.ltb_lt in Hc.
  pose proof (zlen_nonneg l). pose proof (zlen_nonneg r).
  set (pos := zlen l + zlen r) in *. unfold key_normal, ed. rewrite !text_length_at. unfold text_at in *. cbn [fst snd] in *.
  eapply goes_get; [intros out; cbn [line_position line_curpos E echo_mode]; reflexivity|].
  rewrite zlen_app, zlen_rev. fold pos.
  assert ((FINSH_CMD_SIZE <=? pos) = false) as -> by (apply Z.leb_gt; unfold FINSH_CMD_SIZE; lia).
  assert (length (rev l ++ r) < 80)%nat as Hll.
  { rewrite length_app, length_rev. unfold zlen in *. lia. }
  assert (u16 (pos + 1) = pos + 1 ∧ u16 (zlen l + 1) = zlen l + 1) as [Hu1 Hu2].
  { unfold u16. rewrite !Z.mod_small; lia. }
  assert ((FINSH_CMD_SIZE <=? pos + 1) = false) as Hu3 by (apply Z.leb_gt; unfold FINSH_CMD_SIZE; lia).
  eapply goes_bind; [apply goes_positions|].
  assert (zlen (rev (c :: l) ++ r) = pos + 1) as -> by (rewrite zlen_app, zlen_rev, zlen_cons; lia).
  rewrite zlen_cons. destruct r as [|h r].
  - rewrite (proj2 (Z.ltb_ge _ _)) by (change (zlen (@nil Z)) with 0 in pos; lia). rewrite !app_nil_r in *. eapply goes_bind.
    + rewrite line_of_rest by lia. eapply goes_bind; [apply goes_silent, silent_put; [rewrite zlen_rev; unfold pos; change (zlen (@nil Z)) with 0; lia|lia]|].
      rewrite <- line_of_snoc by done. change (rev l ++ [c]) with (rev (c :: l)).
      instantiate (1 := tt). destruct (echo_mode base); [apply goes_print|apply goes_ret].
    + rewrite Hu1, Hu2, Hu3. replace (1 + zlen l) with (zlen l + 1) by lia. apply goes_positions.
  - rewrite (proj2 (Z.ltb_lt _ _)) by (unfold pos; rewrite zlen_cons; pose proof (zlen_nonneg r); lia).
    eapply goes_bind.
    + rewrite line_of_rest by lia. rewrite <- app_assoc. eapply goes_bind.
      { apply goes_line. replace (pos - zlen l) with (zlen (h :: r)) by lia. rewrite <- (zlen_rev l). apply move_right.
        rewrite app_assoc. apply (bytes_ok _ (S (80 - length (rev l ++ h :: r)))). exact Htxt. }
      eapply goes_bind; [apply goes_silent, silent_put; [by rewrite zlen_rev|lia]|].
      assert (rev l ++ c :: (h :: r) ++ rest_of (rev l ++ h :: r) = line_of (rev (c :: l) ++ h :: r)) as ->.
      { unfold line_of, rest_of. cbn [rev]. rewrite <- !app_assoc. cbn [app]. rewrite !length_app. cbn [length].
        do 5 f_equal. lia. }
      eapply goes_bind; [|apply goes_backspaces].
      destruct (echo_mode base); [|apply goes_ret]. eapply goes_bind; [|apply goes_print].
      rewrite line_of_rest by (rewrite length_app in *; cbn [rev length] in *; rewrite length_app; simpl; lia).
      replace (rev (c :: l) ++ h :: r) with (rev l ++ c :: h :: r) by (cbn [rev]; by rewrite <- app_assoc).
      rewrite <- app_assoc. apply goes_silent, silent_string; [by rewrite zlen_rev|]. apply Forall_app in Htxt as [_ Htxt].
      constructor; [unfold char_ok; lia|done].
    + rewrite Hu1, Hu2, Hu3. replace (1 + zlen l) with (zlen l + 1) by lia. apply goes_positions.
Qed.

Lemma backspace_ok lr : text_ok lr → goes key_backspace (ed lr) (ed (edit KBackspace lr)) tt.
Proof.
  destruct lr as [l r]. intros [Hlen Htxt]. unfold text_length, FINSH_CMD_SIZE in *. cbn [edit fst snd] in *.
  unfold key_backspace, ed. rewrite !text_length_at. unfold text_at in *. cbn [fst snd] in *.
  eapply goes_get; [intros out; cbn [line_position line_curpos E]; reflexivity|].
  destruct l as [|c l]; [apply goes_ret|]. cbn [tail]. rewrite !zlen_app, !zlen_rev. rewrite zlen_cons in *.
  pose proof (zlen_nonneg l). pose proof (zlen_nonneg r).
  destruct (Z.eqb_spec (1 + zlen l) 0); [lia|].
  assert (u16 (1 + zlen l + zlen r - 1) = zlen l + zlen r) as ->.
  { unfold u16. rewrite Z.mod_small; lia. }
  replace (1 + zlen l - 1) with (zlen l) by lia. cbn [rev] in *. rewrite <- !app_assoc in *. cbn [app] in *.
  assert (length (rev l ++ c :: r) < 81)%nat as Hll.
  { rewrite length_app, length_rev. cbn [length]. unfold zlen in *. lia. }
  eapply goes_bind; [apply goes_positions|]. destruct r as [|h r].
  - change (zlen (@nil Z)) with 0 in *. rewrite Z.add_0_r. rewrite (proj2 (Z.ltb_ge _ _)) by lia. rewrite app_nil_r.
    eapply goes_bind; [apply goes_print|]. rewrite line_of_rest by done. rewrite <- app_assoc. cbn [app].
    assert (line_of (rev l) = rev l ++ 0 :: 0 :: rest_of (rev l ++ [c])) as ->.
    { unfold line_of, rest_of. rewrite length_app in *. cbn [length] in *.
      replace (81 - length (rev l))%nat with (S (S (80 - (length (rev l) + 1)))) by lia. done. }
    apply goes_silent, silent_put; [by rewrite zlen_rev|lia].
  - rewrite (proj2 (Z.ltb_lt _ _)) by (rewrite zlen_cons; pose proof (zlen_nonneg r); lia).
    rewrite line_of_rest by done. rewrite <- app_assoc. cbn [app].
    destruct (move_left (rev l) c (h :: r) (0 :: rest_of (rev l ++ c :: h :: r))) as [x Hx].
    { rewrite app_comm_cons, app_assoc. apply (bytes_ok _ (S (80 - length (rev l ++ c :: h :: r)))). exact Htxt. }
    rewrite zlen_rev in Hx. eapply goes_bind.
    { apply goes_line. replace (zlen l + zlen (h :: r) - zlen l) with (zlen (h :: r)) by lia. exact Hx. }
    assert (Forall char_ok (h :: r)) as Hok by (apply Forall_app in Htxt as [_ Htxt]; by inversion Htxt).
    eapply goes_bind.
    { rewrite app_assoc. apply goes_silent, silent_put; [by rewrite zlen_app, zlen_rev|lia]. }
    assert (line_of (rev l ++ h :: r) = (rev l ++ h :: r) ++ 0 :: 0 :: rest_of (rev l ++ c :: h :: r)) as ->.
    { unfold line_of, rest_of. rewrite !length_app in *. cbn [length] in *. f_equal.
      replace (81 - (length (rev l) + S (length r)))%nat with (S (S (80 - (length (rev l) + S (S (length r)))))) by lia. done. }
    eapply goes_bind; [rewrite <- app_assoc; apply goes_silent, silent_string; [by rewrite zlen_rev|exact Hok]|].
    eapply goes_bind; [apply goes_print|]. rewrite <- app_assoc. apply goes_backspaces.
Qed.
Lemma left_ok lr : goes key_left (ed lr) (ed (edit KLeft lr)) tt.
Proof.
  destruct lr as [l r]. cbn [edit]. unfold key_left, ed.
  eapply goes_get; [intros out; cbn [line_position line_curpos E]; reflexivity|]. cbn [fst snd].
  destruct l as [|c l]; [apply goes_ret|]. cbn [fst snd]. rewrite zlen_cons. pose proof (zlen_nonneg l).
  destruct (Z.eqb_spec (1 + zlen l) 0); [lia|]. eapply goes_bind; [apply goes_print|].
  replace (1 + zlen l - 1) with (zlen l) by lia. rewrite !text_length_at. unfold text_at. cbn [fst snd rev].
  rewrite <- app_assoc. apply goes_positions.
Qed.
Lemma right_ok lr : text_ok lr → goes key_right (ed lr) (ed (edit KRight lr)) tt.
Proof.
  destruct lr as [l r]. intros [Hlen _]. cbn [edit]. unfold key_right, ed. pose proof (zlen_nonneg l).
  eapply goes_get; [intros out; cbn [line_position line_curpos E]; reflexivity|]. cbn [fst snd].
  unfold text_length, FINSH_CMD_SIZE in Hlen. unfold text_length at 1. cbn [fst snd] in *. destruct r as [|c r].
  - change (zlen (@nil Z)) with 0. rewrite (proj2 (Z.ltb_ge _ _)) by lia. apply goes_ret.
  - rewrite zlen_cons in *. pose proof (zlen_nonneg r). rewrite (proj2 (Z.ltb_lt _ _)) by lia.
    assert (u16 (zlen l + 1) = zlen l + 1) as Hu by (unfold u16; rewrite Z.mod_small; lia).
    eapply goes_bind.
    + unfold line_of, text_at. cbn [fst snd]. rewrite <- app_assoc. cbn [app]. apply goes_silent, silent_char. by rewrite zlen_rev.
    + eapply goes_bind; [apply goes_print|]. rewrite Hu. cbn [fst]. rewrite zlen_cons.
      replace (1 + zlen l) with (zlen l + 1) by lia. rewrite !text_length_at.
      assert (text_at (c :: l, r) = text_at (l, c :: r)) as -> by (unfold text_at; cbn [fst snd rev]; by rewrite <- app_assoc).
      replace (rev l ++ c :: r ++ replicate (81 - length (rev l ++ c :: r)) 0) with (line_of (text_at (l, c :: r)))
        by (unfold line_of, text_at; cbn [fst snd]; by rewrite <- app_assoc).
      apply goes_positions.
Qed.

Lemma edit_ok k lr : text_ok lr → text_length (edit k lr) < FINSH_CMD_SIZE →
  match k with KInsert c => insertable c | _ => true end = true → text_ok (edit k lr).
Proof.
  intros [Hlen Htxt] Hfit Hk. split; [done|]. destruct lr as [l r], k as [c| | | |]; cbn [edit].
  - unfold text_at in *. cbn [fst snd rev] in *. rewrite <- app_assoc. apply Forall_app in Htxt as [Hl Hr].
    apply Forall_app. split; [done|]. constructor; [|done]. unfold insertable in Hk. unfold char_ok.
    rewrite !andb_true_iff, !Z.ltb_lt in Hk. lia.
  - destruct l as [|c l]; [done|]. unfold text_at in *. cbn [fst snd rev tail] in *. rewrite <- app_assoc in Htxt.
    apply Forall_app in Htxt as [Hl Hr]. apply Forall_app. split; [done|]. by inversion Hr.
  - destruct l as [|c l]; [done|]. unfold text_at in *. cbn [fst snd rev tail] in *. rewrite <- app_assoc in Htxt.
    apply Forall_app in Htxt as [Hl Hr]. apply Forall_app. split; [done|]. by inversion Hr.
  - destruct l as [|c l]; [done|]. unfold text_at in *. cbn [fst snd rev] in *. by rewrite <- app_assoc in Htxt.
  - destruct r as [|c r]; [done|]. unfold text_at in *. cbn [fst snd rev] in *. by rewrite <- app_assoc.
Qed.
Lemma key_ok k lr : text_ok lr → text_length (edit k lr) < FINSH_CMD_SIZE →
  match k with KInsert c => insertable c | _ => true end = true →
  goes (finsh_thread_chars (key_bytes k)) (ed lr) (ed (edit k lr)) tt.
Proof.
  intros Hok Hfit Hk.
  assert (∀ ch m, ch ≠ 27 → goes (if (ch =? 0) || (ch =? 255) then mret () else if ch =? 9 then key_tab
    else if (ch =? 127) || (ch =? 8) then key_backspace else if (ch =? 13) || (ch =? 10) then key_enter else key_normal ch)
    (ed lr) m tt → goes (finsh_thread_chars [ch]) (ed lr) m tt) as Hone.
  { intros ch m Hch Hm. eapply goes_bind; [|apply goes_ret].
    assert (goes (special_key ch) (ed lr) (ed lr) false) as Hs.
    { eapply goes_get; [intros out; rewrite (proj2 (Z.eqb_neq _ _)) by done; cbn [sh_stat ed E]; reflexivity|].
      apply goes_ret. }
    eapply goes_bind; [exact Hs|exact Hm]. }
  assert (∀ ch m st', ch ≠ 27 → ch ≠ 65 → ch ≠ 66 → (ch = 68 ∧ m = key_left ∨ ch = 67 ∧ m = key_right) →
    goes m (ed lr) st' tt → goes (finsh_thread_chars [27; 91; ch]) (ed lr) st' tt) as Hesc.
  { intros ch m st' H1' H2' H3' Hm Hg.
    set (est stat := E stat (line_of (text_at lr)) (text_length lr) (zlen (fst lr))).
    assert (goes (special_key 27) (ed lr) (est WAIT_SPEC_KEY) true) as S1.
    { eapply goes_get; [intros out; cbn [Z.eqb Pos.eqb]; reflexivity|]. eapply goes_bind; [apply goes_stat|apply goes_ret]. }
    assert (goes (special_key 91) (est WAIT_SPEC_KEY) (est WAIT_FUNC_KEY) true) as S2.
    { eapply goes_get; [intros out; cbn [Z.eqb Pos.eqb sh_stat E est]; reflexivity|].
      eapply goes_bind; [apply goes_stat|apply goes_ret]. }
    assert (goes (special_key ch) (est WAIT_FUNC_KEY) st' true) as S3.
    { eapply goes_get; [intros out; cbn [sh_stat E est]; reflexivity|].
      rewrite (proj2 (Z.eqb_neq ch 27)) by done. eapply goes_bind; [apply goes_stat|].
      rewrite (proj2 (Z.eqb_neq ch 65)), (proj2 (Z.eqb_neq ch 66)) by done.
      destruct Hm as [[-> ->]|[-> ->]]; (eapply goes_bind; [exact Hg|apply goes_ret]). }
    cbn [finsh_thread_chars]. eapply goes_bind; [eapply goes_bind; [exact S1|apply goes_ret]|].
    eapply goes_bind; [eapply goes_bind; [exact S2|apply goes_ret]|].
    eapply goes_bind; [eapply goes_bind; [exact S3|apply goes_ret]|]. apply goes_ret. }
  destruct k as [c| | | |]; cbn [key_bytes].
  - assert (c ≠ 27) as Hc.
    { intros ->. done. }
    apply Hone; [done|]. pose proof Hk as Hk'. unfold insertable in Hk. rewrite !andb_true_iff, negb_true_iff, !Z.ltb_lt in Hk.
    destruct Hk as [Hr Hn]. rewrite !orb_false_iff in Hn.
    rewrite (proj2 (Z.eqb_neq c 0)), (proj2 (Z.eqb_neq c 255)) by lia. cbn [orb].
    destruct Hn as [[[[[-> ->] ->] ->] _] ->]. cbn [orb]. by apply insert_ok.
  - apply Hone; [done|]. by apply backspace_ok.
  - apply Hone; [done|]. by apply backspace_ok.
  - apply (Hesc 68 key_left); auto. apply left_ok.
  - apply (Hesc 67 key_right); auto. by apply right_ok.
Qed.
Lemma chars_app a b st st1 st2 : goes (finsh_thread_chars a) st st1 tt → goes (finsh_thread_chars b) st1 st2 tt →
  goes (finsh_thread_chars (a ++ b)) st st2 tt.
Proof.
  revert st. induction a as [|c a IH]; intros st Ha Hb.
  - intros out. destruct (Ha out) as [o1 E1]. injection E1 as E1. destruct (Hb o1) as [o2 E2]. exists o2.
    cbn [app]. by rewrite <- E1 in E2.
  - intros out. destruct (Ha out) as [o1 E1]. cbn [finsh_thread_chars app] in *. unfold mbind, ST_bind in *.
    destruct (finsh_thread_char c (st out)) as [s' []|]; [|done].
    destruct (IH (λ _, s') ltac:(intros o; exists o1; exact E1) Hb o1) as [o2 E2]. by exists o2.
Qed.
Lemma keys_ok ks : ∀ lr, text_ok lr → keys_fit ks lr = true →
  goes (finsh_thread_chars (ks ≫= key_bytes)) (ed lr) (ed (edits ks lr)) tt ∧ text_ok (edits ks lr).
Proof.
  induction ks as [|k ks IH]; intros lr Hok Hfit; cbn [keys_fit] in *; [split; [apply goes_ret|done]|].
  apply andb_true_iff in Hfit as [Hfit Hrest]. apply andb_true_iff in Hfit as [Hk Hfit]. apply Z.ltb_lt in Hfit.
  pose proof (edit_ok k lr Hok Hfit Hk) as Hok'. destruct (IH _ Hok' Hrest) as [Hg Hend].
  split; [|exact Hend]. cbn [mbind list_bind]. eapply chars_app; [by apply key_ok|exact Hg].
Qed.
End editor.

(** ** The editor refines its specification *)

Section refinement.
Context `{!FinshLayout, !Syscalls, !Commands}.

(** The shell is reading a line, with this text around the cursor. *)
Definition editing (s : finsh_shell) (lr : list Z * list Z) : Prop :=
  sh_stat s = WAIT_NORMAL ∧ sh_line s = line_of (text_at lr) ∧ line_position s = text_length lr ∧
  line_curpos s = zlen (fst lr) ∧ text_ok lr.
(** Only what is typed and printed differs. *)
Definition same_shell (s s' : finsh_shell) : Prop :=
  echo_mode s' = echo_mode s ∧ prompt_mode s' = prompt_mode s ∧ current_history s' = current_history s ∧
  history_count s' = history_count s ∧ cmd_history s' = cmd_history s ∧ sh_parser s' = sh_parser s ∧
  msh_state s' = msh_state s ∧ finsh_prompt_custom s' = finsh_prompt_custom s.
Lemma editing_ed s lr : editing s lr → s = ed s lr (sh_out s).
Proof. intros (H1' & H2' & H3' & H4' & _). destruct s. unfold ed, E. simpl in *. congruence. Qed.

(** C23: the line editor. Whatever characters and keys are typed (printable
    characters, backspace, delete, the left and the right arrow), as long as the
    line does not fill up, the buffer holds the text before the cursor, the text
    after it and zeros, as the keys make of them on two lists; nothing else of
    the shell changes but what is echoed. *)
Theorem line_editor_refines s lr ks : editing s lr → keys_fit ks lr = true → ∃ s',
  finsh_thread_chars (ks ≫= key_bytes) s = Ok s' tt ∧ editing s' (edits ks lr) ∧ same_shell s s'.
Proof.
  intros He Hfit. pose proof (editing_ed s lr He) as Hs. destruct He as (_ & _ & _ & _ & Hok).
  destruct (keys_ok s ks lr Hok Hfit) as [Hg Hend]. destruct (Hg (sh_out s)) as [out E1].
  exists (ed s (edits ks lr) out). rewrite Hs at 1. split_and!; [exact E1|done..].
Qed.
End refinement.
