(* ===== verification/MshSpec.v ===== *)
(** * Commands: the words of the line, and which function gets them

    A command line is written as its arguments, plain or in quotes, with blanks
    between them. [msh_split] finds them in place; [msh_exec] gives their
    strings to the function of the first one. *)

From Stdlib Require Import String ZArith Lia.
From stdpp Require Import base list.
From S2P Require Import RTThread.
From S2P Require Import Prelude.
From S2P Require Import Bytes.
From S2P Require Import KMemory.
From S2P Require Import KString.
From S2P Require Import KPrintf.
From S2P Require Import FinshVm.
From S2P Require Import Finsh.
From S2P Require Import FinshToken.
From S2P Require Import FinshParser.
From S2P Require Import FinshShell.
From S2P Require Import Msh.
From S2P Require Import Shell.
From S2P Require Import ShellSpec.

(** ** Arguments as they are written *)

Record piece : Set := mk_piece { pc_blanks : list Z; pc_quoted : bool; pc_arg : list Z }.
Definition quote : Z := 34.
Definition piece_text (p : piece) : list Z :=
  if pc_quoted p then quote :: pc_arg p ++ [quote] else pc_arg p.
Fixpoint args_text (ps : list piece) (last : list Z) : list Z :=
  match ps with
  | [] => last
  | p :: ps => pc_blanks p ++ piece_text p ++ args_text ps last
  end.
(** The text once it is split: zeros for blanks and closing quotes. *)
Definition zeros (l : list Z) : list Z := replicate (length l) 0.
Fixpoint split_text (ps : list piece) (last : list Z) : list Z :=
  match ps with
  | [] => zeros last
  | p :: ps =>
      zeros (pc_blanks p) ++ (if pc_quoted p then quote :: pc_arg p ++ [0] else pc_arg p) ++ split_text ps last
  end.
Fixpoint arg_offsets (off : Z) (ps : list piece) : list Z :=
  match ps with
  | [] => []
  | p :: ps =>
      let start := off + zlen (pc_blanks p) in
      (if pc_quoted p then start + 1 else start) :: arg_offsets (start + zlen (piece_text p)) ps
  end.

Definition arg_char (c : Z) : bool := (0 <? c) && (c <? 256).
Definition piece_ok (p : piece) : bool :=
  forallb is_space (pc_blanks p) && forallb arg_char (pc_arg p) &&
  if pc_quoted p then forallb (λ c, negb ((c =? quote) || (c =? 92))) (pc_arg p)
  else forallb (λ c, negb (is_space c)) (pc_arg p) &&
    match pc_arg p with [] => false | c :: _ => negb (c =? quote) end.
(** A plain argument ends at a blank or at the end. *)
Fixpoint pieces_ok (ps : list piece) (last : list Z) : bool :=
  match ps with
  | [] => forallb is_space last
  | p :: ps =>
      piece_ok p && pieces_ok ps last &&
      match ps with [] => true | p' :: _ => pc_quoted p || negb (bool_decide (pc_blanks p' = [])) end
  end.
(** Ten arguments at most; more text after ten is taken for one too many. *)
Definition args_fit (ps : list piece) (last : list Z) : bool :=
  zlen ps + (if bool_decide (last = []) then 0 else 1) <=? FINSH_ARG_MAX.

Section msh.
Context (base : finsh_shell) (stat : input_stat) (pos cur : Z).
Notation E line := (E base stat line pos cur).

Lemma fuel_silent line : silent line_fuel (E line) (E line) (S (S (length line))).
Proof. done. Qed.
Lemma zlen_zeros l : zlen (zeros l) = zlen l.
Proof. unfold zlen, zeros. by rewrite length_replicate. Qed.
Lemma strip_ok bs : ∀ fuel pre x post cmd length position, forallb is_space bs = true →
  (is_space x = false ∨ length ≤ position + zlen bs) → position + zlen bs ≤ length → zlen pre = cmd + position →
  (List.length bs ≤ fuel)%nat →
  silent (strip_loop fuel cmd length position) (E (pre ++ bs ++ x :: post)) (E (pre ++ zeros bs ++ x :: post))
    (position + zlen bs).
Proof.
  induction bs as [|b bs IH]; intros fuel pre x post cmd length position Hbs Hx Hle Hpre Hf.
  - change (zlen (@nil Z)) with 0 in *. destruct fuel; cbn [strip_loop app zeros];
      (eapply silent_bind; [by apply silent_char|]);
      (assert (is_space x && (position <? length) = false) as -> by
         (destruct Hx as [-> | Hx]; [done|]; rewrite (proj2 (Z.ltb_ge _ _)) by lia; apply andb_false_r));
      rewrite Z.add_0_r; apply silent_ret.
  - cbn [forallb] in Hbs. apply andb_true_iff in Hbs as [Hb Hbs]. rewrite zlen_cons in *. pose proof (zlen_nonneg bs).
    destruct fuel as [|fuel]; [simpl in Hf; lia|]. cbn [strip_loop app].
    eapply silent_bind; [by apply silent_char|]. rewrite Hb, (proj2 (Z.ltb_lt _ _)) by lia. cbn [andb].
    eapply silent_bind; [apply silent_put; [done|lia]|].
    replace (position + (1 + zlen bs)) with (position + 1 + zlen bs) by lia.
    specialize (IH fuel (pre ++ [0]) x post cmd length (position + 1) Hbs).
    rewrite <- !app_assoc in IH. apply IH; [destruct Hx; [by left|right; lia]|lia| |simpl in Hf; lia].
    rewrite zlen_app. change (zlen [0]) with 1. lia.
Qed.
Lemma skip_word_ok w : ∀ fuel pre x post cmd length position, forallb (λ c, negb (is_space c)) w = true →
  (is_space x = true ∨ length ≤ position + zlen w) → position + zlen w ≤ length → zlen pre = cmd + position →
  (List.length w ≤ fuel)%nat →
  silent (skip_word fuel cmd length position) (E (pre ++ w ++ x :: post)) (E (pre ++ w ++ x :: post)) (position + zlen w).
Proof.
  induction w as [|b w IH]; intros fuel pre x post cmd length position Hw Hx Hle Hpre Hf.
  - change (zlen (@nil Z)) with 0 in *. destruct fuel; cbn [skip_word app];
      (eapply silent_bind; [by apply silent_char|]);
      (assert (negb (is_space x) && (position <? length) = false) as -> by
         (destruct Hx as [-> | Hx]; [done|]; rewrite (proj2 (Z.ltb_ge _ _)) by lia; apply andb_false_r));
      rewrite Z.add_0_r; apply silent_ret.
  - cbn [forallb] in Hw. apply andb_true_iff in Hw as [Hb Hw]. rewrite zlen_cons in *. pose proof (zlen_nonneg w).
    destruct fuel as [|fuel]; [simpl in Hf; lia|]. cbn [skip_word app].
    eapply silent_bind; [by apply silent_char|]. rewrite Hb, (proj2 (Z.ltb_lt _ _)) by lia. cbn [andb].
    replace (position + (1 + zlen w)) with (position + 1 + zlen w) by lia.
    specialize (IH fuel (pre ++ [b]) x post cmd length (position + 1) Hw).
    rewrite <- !app_assoc in IH. apply IH; [destruct Hx; [by left|right; lia]|lia| |simpl in Hf; lia].
    rewrite zlen_app. change (zlen [b]) with 1. lia.
Qed.
Lemma skip_string_ok w : ∀ fuel pre post cmd length position,
  forallb (λ c, negb ((c =? quote) || (c =? 92))) w = true → position + zlen w < length → zlen pre = cmd + position →
  (List.length w ≤ fuel)%nat →
  silent (skip_string fuel cmd length position) (E (pre ++ w ++ quote :: post)) (E (pre ++ w ++ quote :: post))
    (position + zlen w).
Proof.
  induction w as [|b w IH]; intros fuel pre post cmd length position Hw Hle Hpre Hf.
  - change (zlen (@nil Z)) with 0 in *. destruct fuel; cbn [skip_string app];
      (eapply silent_bind; [by apply silent_char|]); cbn; rewrite Z.add_0_r; apply silent_ret.
  - cbn [forallb] in Hw. apply andb_true_iff in Hw as [Hb Hw]. rewrite zlen_cons in *. pose proof (zlen_nonneg w).
    apply negb_true_iff, orb_false_iff in Hb as [Hb Hb'].
    destruct fuel as [|fuel]; [simpl in Hf; lia|]. cbn [skip_string app].
    eapply silent_bind; [by apply silent_char|]. unfold quote in Hb. rewrite Hb, (proj2 (Z.ltb_lt _ _)) by lia. cbn [andb negb].
    rewrite Hb'. eapply silent_bind; [apply silent_ret|].
    replace (position + (1 + zlen w)) with (position + 1 + zlen w) by lia.
    specialize (IH fuel (pre ++ [b]) post cmd length (position + 1) Hw).
    rewrite <- !app_assoc in IH. apply IH; [lia| |simpl in Hf; lia].
    rewrite zlen_app. change (zlen [b]) with 1. lia.
Qed.

(** ** Splitting *)

Lemma plain_head p : piece_ok p = true → pc_quoted p = false →
  ∃ c w, pc_arg p = c :: w ∧ is_space c = false ∧ (c =? 34) = false ∧ forallb (λ c, negb (is_space c)) (c :: w) = true.
Proof.
  unfold piece_ok. intros Hp Hq. rewrite Hq in Hp. rewrite !andb_true_iff in Hp. destruct Hp as [_ [Hw Hc]].
  destruct (pc_arg p) as [|c w]; [done|]. exists c, w. apply negb_true_iff in Hc. split_and!; try done.
  cbn [forallb] in Hw. by apply andb_true_iff in Hw as [Hw%negb_true_iff _].
Qed.
Lemma piece_head p : piece_ok p = true → ∃ x w, piece_text p = x :: w ∧ is_space x = false ∧ (x =? 34) = pc_quoted p.
Proof.
  intros Hp. unfold piece_text. destruct (pc_quoted p) eqn:Hq; [by do 2 eexists|].
  destruct (plain_head p Hp Hq) as (c & w & -> & Hs & Hc & _). by exists c, w.
Qed.
(** After a plain argument there is a blank, or the text ends. *)
Lemma after_plain p ps last : pieces_ok (p :: ps) last = true → pc_quoted p = false →
  args_text ps last = [] ∧ ps = [] ∧ last = [] ∨ ∃ x rest, args_text ps last = x :: rest ∧ is_space x = true.
Proof.
  cbn [pieces_ok]. intros Hok Hq. rewrite !andb_true_iff in Hok. destruct Hok as [[_ Hps] Hnext]. rewrite Hq in Hnext.
  destruct ps as [|p' ps]; cbn [args_text pieces_ok] in *.
  - destruct last as [|x l]; [by left|]. right. exists x, l. split; [done|]. cbn [forallb] in Hps. by apply andb_true_iff in Hps as [? _].
  - right. cbn [orb] in Hnext. apply negb_true_iff, bool_decide_eq_false in Hnext. rewrite !andb_true_iff in Hps.
    destruct Hps as [[Hp _] _]. unfold piece_ok in Hp. rewrite !andb_true_iff in Hp. destruct Hp as [[Hb _] _].
    destruct (pc_blanks p') as [|x bs]; [done|]. eexists x, _. split; [done|]. cbn [forallb] in Hb. by apply andb_true_iff in Hb as [? _].
Qed.
Lemma split_ok ps : ∀ last fuel pre tail cmd length position argv, pieces_ok ps last = true →
  zlen argv + zlen ps + (if bool_decide (last = []) then 0 else 1) ≤ FINSH_ARG_MAX →
  zlen pre = cmd + position → length = position + zlen (args_text ps last) → (List.length ps < fuel)%nat →
  silent (split_loop fuel cmd length position argv) (E (pre ++ args_text ps last ++ 0 :: tail))
    (E (pre ++ split_text ps last ++ 0 :: tail)) (argv ++ arg_offsets (zlen pre) ps).
Proof.
  induction ps as [|p ps IH]; intros last [|fuel] pre tail cmd length position argv Hok Hmax Hpre Hlen Hf;
    cbn [List.length] in Hf; try lia; cbn [args_text split_text arg_offsets split_loop] in *.
  - rewrite app_nil_r. destruct last as [|c last].
    + change (zlen (@nil Z)) with 0 in Hlen. rewrite (proj2 (Z.ltb_ge _ _)) by lia. apply silent_ret.
    + rewrite bool_decide_eq_false_2 in Hmax by done. change (zlen (@nil piece)) with 0 in Hmax.
      pose proof (zlen_nonneg last). pose proof (zlen_cons c last). rewrite (proj2 (Z.ltb_lt _ _)) by lia.
      eapply silent_bind; [apply fuel_silent|]. eapply silent_bind.
      { apply strip_ok; [done|right; lia|lia|done|rewrite !length_app; lia]. }
      rewrite (proj2 (Z.leb_gt _ _)) by lia. rewrite (proj2 (Z.leb_le length _)) by lia. apply silent_ret.
  - pose proof Hok as Hok0. cbn [pieces_ok] in Hok. rewrite !andb_true_iff in Hok. destruct Hok as [[Hp Hps] _].
    destruct (piece_head p Hp) as (x & w & Hx & Hsp & Hq). set (rest := args_text ps last) in *.
    rewrite zlen_cons in Hmax. rewrite !zlen_app in Hlen. rewrite Hx in Hlen. rewrite zlen_cons in Hlen.
    pose proof (zlen_nonneg (pc_blanks p)). pose proof (zlen_nonneg w). pose proof (zlen_nonneg rest). pose proof (zlen_nonneg ps).
    rewrite (proj2 (Z.ltb_lt _ _)) by lia. eapply silent_bind; [apply fuel_silent|].
    set (n := S (S (List.length _))).
    assert (List.length (pc_blanks p) ≤ n ∧ S (List.length w) ≤ n)%nat as [Hn1 Hn2].
    { apply (f_equal List.length) in Hx. simpl in Hx. unfold n. rewrite !length_app. lia. }
    clearbody n. assert (forallb is_space (pc_blanks p) = true) as Hbs.
    { unfold piece_ok in Hp. rewrite !andb_true_iff in Hp. apply Hp. }
    set (post := rest ++ 0 :: tail).
    assert (pre ++ (pc_blanks p ++ piece_text p ++ rest) ++ 0 :: tail = pre ++ pc_blanks p ++ x :: w ++ post) as ->.
    { rewrite Hx. unfold post. by rewrite <- !app_assoc. }
    eapply silent_bind; [apply strip_ok; [done|by left|lia|done|done]|].
    rewrite (proj2 (Z.leb_gt FINSH_ARG_MAX _)) by (destruct (bool_decide _); lia).
    rewrite (proj2 (Z.leb_gt length _)) by lia.
    set (pre1 := pre ++ zeros (pc_blanks p)).
    assert (zlen pre1 = cmd + (position + zlen (pc_blanks p))) as Hpre1 by (unfold pre1; rewrite zlen_app, zlen_zeros; lia).
    replace (pre ++ zeros (pc_blanks p) ++ x :: w ++ post) with (pre1 ++ x :: w ++ post) by (unfold pre1; by rewrite <- app_assoc).
    eapply silent_bind; [by apply silent_char|]. rewrite Hq. unfold piece_text in Hx.
    assert (zlen (piece_text p) = 1 + zlen w) as Hpt.
    { unfold piece_text. rewrite Hx. apply zlen_cons. }
    destruct (pc_quoted p) eqn:Hqt.
    + injection Hx as <- <-. unfold piece_ok in Hp. rewrite Hqt in Hp. rewrite !andb_true_iff in Hp. destruct Hp as [_ Harg].
      rewrite zlen_app in *. change (zlen [quote]) with 1 in *. pose proof (zlen_nonneg (pc_arg p)).
      set (pre2 := pre1 ++ [quote]). set (pre3 := pre2 ++ pc_arg p ++ [0]).
      assert (zlen pre2 = zlen pre1 + 1) as Hpre2 by (unfold pre2; by rewrite zlen_app).
      assert (zlen pre3 = zlen pre2 + zlen (pc_arg p) + 1) as Hpre3
        by (unfold pre3; rewrite !zlen_app; change (zlen [0]) with 1; lia).
      replace (pre1 ++ quote :: (pc_arg p ++ [quote]) ++ post) with (pre2 ++ pc_arg p ++ quote :: post)
        by (unfold pre2; by rewrite <- !app_assoc).
      eapply silent_bind.
      { apply skip_string_ok; [done|lia|lia|rewrite length_app in Hn2; lia]. }
      rewrite (proj2 (Z.leb_gt length _)) by lia.
      replace (pre2 ++ pc_arg p ++ quote :: post) with ((pre2 ++ pc_arg p) ++ quote :: post) by (by rewrite <- app_assoc).
      eapply silent_bind; [apply silent_put; [rewrite zlen_app; lia|lia]|].
      replace ((pre2 ++ pc_arg p) ++ 0 :: post) with (pre3 ++ rest ++ 0 :: tail) by (unfold pre3, post; by rewrite <- !app_assoc).
      replace (pre ++ (zeros (pc_blanks p) ++ (quote :: pc_arg p ++ [0]) ++ split_text ps last) ++ 0 :: tail)
        with (pre3 ++ split_text ps last ++ 0 :: tail)
        by (unfold pre3, pre2, pre1; rewrite <- !app_assoc; cbn [app]; by rewrite <- !app_assoc).
      replace (argv ++ zlen pre + zlen (pc_blanks p) + 1 :: arg_offsets (zlen pre + zlen (pc_blanks p) + zlen (piece_text p)) ps)
        with ((argv ++ [cmd + (position + zlen (pc_blanks p)) + 1]) ++ arg_offsets (zlen pre3) ps).
      2:{ rewrite <- app_assoc. cbn [app]. f_equal. f_equal; [lia|]. f_equal. lia. }
      apply IH; [done| |lia| |lia]; rewrite ?zlen_app; change (zlen [?a]) with 1; unfold rest in *; try lia.
    + destruct (plain_head p Hp Hqt) as (c & v & Hcv & _ & _ & Hw). rewrite Hcv in Hx. injection Hx as -> ->.
      set (pre2 := pre1 ++ pc_arg p). assert (zlen pre2 = zlen pre1 + 1 + zlen w) as Hpre2.
      { unfold pre2. rewrite zlen_app, Hcv, zlen_cons. lia. }
      replace (argv ++ zlen pre + zlen (pc_blanks p) :: arg_offsets (zlen pre + zlen (pc_blanks p) + zlen (piece_text p)) ps)
        with ((argv ++ [cmd + (position + zlen (pc_blanks p))]) ++ arg_offsets (zlen pre2) ps).
      2:{ rewrite <- app_assoc. cbn [app]. f_equal. f_equal; [lia|]. f_equal. lia. }
      replace (pre ++ (zeros (pc_blanks p) ++ pc_arg p ++ split_text ps last) ++ 0 :: tail)
        with (pre2 ++ split_text ps last ++ 0 :: tail) by (unfold pre2, pre1; by rewrite <- !app_assoc).
      replace (pre1 ++ x :: w ++ post) with (pre1 ++ (x :: w) ++ post) by done.
      assert (∀ y z, post = y :: z → (is_space y = true ∨ length ≤ position + zlen (pc_blanks p) + zlen (x :: w)) →
        silent (skip_word n cmd length (position + zlen (pc_blanks p)))
          (E (pre1 ++ (x :: w) ++ post)) (E (pre1 ++ (x :: w) ++ post)) (position + zlen (pc_blanks p) + zlen (x :: w))) as Hskip.
      { intros y z Hpost Hy. rewrite Hpost. apply skip_word_ok; [done|done|rewrite zlen_cons; lia|done|done]. }
      rewrite zlen_cons in Hskip. rewrite <- Hcv in Hskip |- *.
      destruct (after_plain p ps last Hok0 Hqt) as [(Hr & -> & ->)|(y & z & Hr & Hy)]; fold rest in Hr.
      * rewrite Hr in *. change (zlen (@nil Z)) with 0 in *. unfold post in *. cbn [app] in *.
        eapply silent_bind; [eapply Hskip; [done|right; lia]|]. rewrite (proj2 (Z.leb_le length _)) by lia.
        unfold pre2. cbn [split_text zeros arg_offsets]. rewrite app_nil_r. cbn. rewrite <- app_assoc. apply silent_ret.
      * rewrite Hr in *. unfold post in *. cbn [app] in *. rewrite zlen_cons in *. pose proof (zlen_nonneg z).
        eapply silent_bind; [eapply Hskip; [rewrite Hr; reflexivity|by left]|]. rewrite (proj2 (Z.leb_gt length _)) by lia.
        replace (pre1 ++ pc_arg p ++ rest ++ 0 :: tail) with (pre2 ++ rest ++ 0 :: tail)
          by (unfold pre2; by rewrite <- app_assoc).
        apply IH; [done| |lia| |lia]; rewrite ?zlen_app; change (zlen [?a]) with 1; fold rest; rewrite ?Hr, ?zlen_cons; lia.
Qed.

(** The strings of the arguments, once the line is split. *)
Lemma after_split ps last p : pieces_ok (p :: ps) last = true → pc_quoted p = false → ∀ tail,
  ∃ z, split_text ps last ++ 0 :: tail = 0 :: z.
Proof.
  intros Hok Hq tail. cbn [pieces_ok] in Hok. rewrite !andb_true_iff in Hok. destruct Hok as [_ Hn].
  destruct ps as [|p' ps]; cbn [split_text].
  - destruct last; by eexists.
  - rewrite Hq in Hn. cbn [orb] in Hn. apply negb_true_iff, bool_decide_eq_false in Hn.
    destruct (pc_blanks p'); [done|]. by eexists.
Qed.
Lemma arg_chars p : piece_ok p = true → Forall char_ok (pc_arg p).
Proof.
  unfold piece_ok. rewrite !andb_true_iff. intros [[_ Hc] _]. apply Forall_forall. intros c Hin.
  rewrite forallb_forall in Hc. apply list_elem_of_In, Hc in Hin. unfold arg_char in Hin.
  rewrite andb_true_iff, !Z.ltb_lt in Hin. exact Hin.
Qed.
Lemma read_args_ok ps : ∀ last pre tail, pieces_ok ps last = true →
  silent (read_args (arg_offsets (zlen pre) ps)) (E (pre ++ split_text ps last ++ 0 :: tail))
    (E (pre ++ split_text ps last ++ 0 :: tail)) (pc_arg <$> ps).
Proof.
  induction ps as [|p ps IH]; intros last pre tail Hok; [apply silent_ret|].
  pose proof Hok as Hok0. cbn [pieces_ok] in Hok. rewrite !andb_true_iff in Hok. destruct Hok as [[Hp Hps] _].
  pose proof (arg_chars p Hp) as Hc. cbn [arg_offsets read_args split_text fmap list_fmap].
  set (q := if pc_quoted p then quote :: pc_arg p ++ [0] else pc_arg p).
  assert (zlen (zeros (pc_blanks p) ++ q) = zlen (pc_blanks p) + zlen (piece_text p)) as Hz.
  { unfold q, piece_text. destruct (pc_quoted p); rewrite zlen_app, zlen_zeros; [|done].
    rewrite !zlen_cons, !zlen_app. change (zlen [0]) with 1. by change (zlen [quote]) with 1. }
  apply (silent_bind _ _ _ (E (pre ++ (zeros (pc_blanks p) ++ q ++ split_text ps last) ++ 0 :: tail)) _ (pc_arg p));
    [|eapply silent_bind; [|apply silent_ret]].
  - unfold q. destruct (pc_quoted p) eqn:Hq.
    + replace (pre ++ (zeros (pc_blanks p) ++ (quote :: pc_arg p ++ [0]) ++ split_text ps last) ++ 0 :: tail)
        with ((pre ++ zeros (pc_blanks p) ++ [quote]) ++ pc_arg p ++ 0 :: split_text ps last ++ 0 :: tail)
        by (rewrite <- !app_assoc; cbn [app]; by rewrite <- !app_assoc).
      apply silent_string; [|done]. rewrite !zlen_app, zlen_zeros. change (zlen [quote]) with 1. lia.
    + destruct (after_split ps last p Hok0 Hq tail) as [z Hz'].
      replace (pre ++ (zeros (pc_blanks p) ++ pc_arg p ++ split_text ps last) ++ 0 :: tail)
        with ((pre ++ zeros (pc_blanks p)) ++ pc_arg p ++ split_text ps last ++ 0 :: tail) by (by rewrite <- !app_assoc).
      rewrite Hz'. assert (zlen pre + zlen (pc_blanks p) = zlen (pre ++ zeros (pc_blanks p))) as Hoff
        by (rewrite zlen_app, zlen_zeros; lia).
      exact (silent_string base _ stat (pre ++ zeros (pc_blanks p)) (pc_arg p) z pos cur Hoff Hc).
  - replace (pre ++ (zeros (pc_blanks p) ++ q ++ split_text ps last) ++ 0 :: tail)
      with ((pre ++ zeros (pc_blanks p) ++ q) ++ split_text ps last ++ 0 :: tail) by (by rewrite <- !app_assoc).
    replace (zlen pre + zlen (pc_blanks p) + zlen (piece_text p)) with (zlen (pre ++ zeros (pc_blanks p) ++ q))
      by (rewrite zlen_app, Hz; lia).
    by apply IH.
Qed.

(** ** Executing *)

Lemma trim_command_ok lead : ∀ fuel pre x post length, forallb is_space lead = true → is_space x = false →
  zlen lead ≤ length < 2 ^ 32 → (List.length lead ≤ fuel)%nat →
  silent (trim_command fuel (zlen pre) length) (E (pre ++ lead ++ x :: post)) (E (pre ++ lead ++ x :: post))
    (zlen pre + zlen lead, length - zlen lead).
Proof.
  induction lead as [|b lead IH]; intros fuel pre x post length Hl Hx Hle Hf.
  - change (zlen (@nil Z)) with 0. destruct fuel; cbn [trim_command app];
      (eapply silent_bind; [by apply silent_char|]); rewrite Hx, Z.add_0_r, Z.sub_0_r; apply silent_ret.
  - cbn [forallb] in Hl. apply andb_true_iff in Hl as [Hb Hl]. rewrite zlen_cons in *. pose proof (zlen_nonneg lead).
    destruct fuel as [|fuel]; [simpl in Hf; lia|]. cbn [trim_command app].
    eapply silent_bind; [by apply silent_char|]. rewrite Hb, u32_small by lia.
    specialize (IH fuel (pre ++ [b]) x post (length - 1) Hl Hx ltac:(lia)). rewrite <- app_assoc in IH.
    rewrite zlen_app in IH. change (zlen [b]) with 1 in IH.
    replace (zlen pre + (1 + zlen lead)) with (zlen pre + 1 + zlen lead) by lia.
    replace (length - (1 + zlen lead)) with (length - 1 - zlen lead) by lia. apply IH. simpl in Hf. lia.
Qed.
End msh.

Fixpoint before_space (l : list Z) : list Z :=
  match l with [] => [] | c :: l => if c =? 32 then [] else c :: before_space l end.
Definition command_of (table : list finsh_syscall) (name : list Z) : option Z :=
  (λ ic, sc_func (snd ic)) <$> list_find (λ c, is_command c = true ∧ command_name c = name) table.
Lemma find_command_ok name l s : find_command name (zlen name) l s = Ok s (command_of l name).
Proof.
  unfold command_of. induction l as [|c l IH]; [done|]. cbn [find_command list_find].
  destruct (decide (is_command c = true ∧ command_name c = name)) as [[Hc Hn]|Hno].
  - rewrite Hc, Hn. unfold strn_eq. rewrite bool_decide_eq_true_2 by done. cbn [andb]. by rewrite Z.eqb_refl.
  - assert (∀ A B (x : option (nat * A)) (f : A → B),
      (λ ic, f (snd ic)) <$> (prod_map S id <$> x) = (λ ic, f (snd ic)) <$> x) as Hmap by (by intros A B [[]|]).
    rewrite Hmap. destruct (is_command c); [|exact IH]. cbn [andb]. unfold strn_eq.
    destruct (bool_decide_reflect (take (Z.to_nat (zlen name)) (command_name c) = take (Z.to_nat (zlen name)) name)) as [He|];
      [|exact IH].
    rewrite (take_ge name) in He by (unfold zlen; lia).
    destruct (Z.eqb_spec (zlen (command_name c)) (zlen name)) as [Hz|Hz].
    + exfalso. apply Hno. split; [done|]. rewrite take_ge in He; [done|]. unfold zlen in *. lia.
    + destruct (Z.ltb_spec (zlen (command_name c)) (zlen name)); [|exact IH].
      apply (f_equal List.length) in He. rewrite length_take in He. unfold zlen in *. lia.
Qed.
Lemma up_to_end_id l : Forall char_ok l → up_to_end l = l.
Proof.
  intros Hl. unfold up_to_end. destruct (list_find (λ x, x = 0) l) as [[i x]|] eqn:Hf; [|done].
  apply list_find_Some in Hf as (Hi & -> & _). rewrite Forall_lookup in Hl. apply Hl in Hi. unfold char_ok in Hi. lia.
Qed.

Lemma args_chars ps last : pieces_ok ps last = true → Forall char_ok (args_text ps last).
Proof.
  assert (∀ l, forallb is_space l = true → Forall char_ok l) as Hblank.
  { intros l Hl. apply Forall_forall. intros c Hc. rewrite forallb_forall in Hl. apply list_elem_of_In, Hl in Hc.
    unfold is_space in Hc. rewrite orb_true_iff, !Z.eqb_eq in Hc. unfold char_ok. lia. }
  induction ps as [|p ps IH]; cbn [args_text pieces_ok]; [apply Hblank|]. rewrite !andb_true_iff. intros [[Hp Hps] _].
  apply Forall_app. split; [|apply Forall_app; split; [|by apply IH]].
  - apply Hblank. unfold piece_ok in Hp. rewrite !andb_true_iff in Hp. apply Hp.
  - pose proof (arg_chars p Hp). unfold piece_text. destruct (pc_quoted p); [|done].
    constructor; [unfold char_ok, quote; lia|]. apply Forall_app. split; [done|].
    constructor; [unfold char_ok, quote; lia|done].
Qed.
Lemma args_text_long ps last : pieces_ok ps last = true → (length ps ≤ length (args_text ps last))%nat.
Proof.
  induction ps as [|p ps IH]; cbn [args_text pieces_ok length]; [lia|]. rewrite !andb_true_iff. intros [[Hp Hps] _].
  destruct (piece_head p Hp) as (x & w & -> & _). rewrite !length_app. simpl. specialize (IH Hps). lia.
Qed.
Lemma before_space_split w z : ∃ x, w ++ 0 :: z = before_space w ++ x :: drop (S (length (before_space w))) (w ++ 0 :: z) ∧
  (x = 32 ∨ x = 0).
Proof.
  induction w as [|c w (x & IH & Hx)]; cbn [before_space app]; [exists 0; split; [done|by right]|].
  destruct (Z.eqb_spec c 32) as [->|]; [exists 32; split; [done|by left]|]. exists x. cbn [length app drop].
  split; [|done]. by rewrite <- IH.
Qed.
Lemma before_space_plain w : Forall (λ c, c ≠ 32) (before_space w).
Proof. induction w as [|c w IH]; cbn; [done|]. destruct (Z.eqb_spec c 32); by constructor. Qed.
Lemma before_space_chars w : Forall char_ok w → Forall char_ok (before_space w).
Proof. induction 1 as [|c w Hc Hw IH]; cbn; [done|]. destruct (c =? 32); by constructor. Qed.
Lemma first_space_ok base stat pos cur v : ∀ fuel pre x post, Forall char_ok v → Forall (λ c, c ≠ 32) v → x = 32 ∨ x = 0 →
  (length v ≤ fuel)%nat →
  silent (first_space fuel (zlen pre)) (E base stat (pre ++ v ++ x :: post) pos cur)
    (E base stat (pre ++ v ++ x :: post) pos cur) (zlen pre + zlen v).
Proof.
  induction v as [|c v IH]; intros fuel pre x post Hv Hs Hx Hf.
  - change (zlen (@nil Z)) with 0. destruct fuel; cbn [first_space app]; (eapply silent_bind; [by apply silent_char|]);
      rewrite Z.add_0_r; destruct Hx as [-> | ->]; apply silent_ret.
  - inversion_clear Hv as [|?? Hc Hv']. inversion_clear Hs as [|?? Hc' Hs'].
    destruct fuel as [|fuel]; [simpl in Hf; lia|]. cbn [first_space app]. eapply silent_bind; [by apply silent_char|].
    unfold char_ok in Hc. destruct (Z.eqb_spec c 32); [done|]. destruct (Z.eqb_spec c 0); [lia|]. cbn [negb andb].
    specialize (IH fuel (pre ++ [c]) x post Hv' Hs' Hx). rewrite <- app_assoc, zlen_app in IH. change (zlen [c]) with 1 in IH.
    rewrite zlen_cons. replace (zlen pre + (1 + zlen v)) with (zlen pre + 1 + zlen v) by lia. apply IH. simpl in Hf. lia.
Qed.

(** ** Executing a line *)

Section exec.
Context `{!Commands}.
Context (lead : list Z) (p : piece) (ps : list piece) (last tail : list Z) (s : finsh_shell).
Definition command_line : list Z := lead ++ args_text (p :: ps) last ++ 0 :: tail.
Definition lines_up : Prop :=
  forallb is_space lead = true ∧ pc_blanks p = [] ∧ pc_quoted p = false ∧ pieces_ok (p :: ps) last = true ∧
  args_fit (p :: ps) last = true ∧ sh_line s = command_line.
Definition the_command : option Z := command_of (syscall_table (fp_finsh (sh_parser s))) (pc_arg p).
Definition not_found : ST finsh_shell Z :=
  let typed := before_space (args_text (p :: ps) last) in
  modify (set_sh_line (lead ++ typed ++ 0 :: drop (S (length typed)) (args_text (p :: ps) last ++ 0 :: tail)));;
  print_line "%s: command not found." [AText typed];;
  mret (-1).
Notation At line := (E s (sh_stat s) line (line_position s) (line_curpos s)).

Lemma at_line l : set_sh_line l s = At l (sh_out s).
Proof. done. Qed.
Lemma at_command_line : lines_up → s = At command_line (sh_out s).
Proof. intros (_ & _ & _ & _ & _ & <-). by destruct s. Qed.
Lemma first_word_ok : lines_up →
  silent (skip_word (S (S (length command_line))) (zlen lead) (zlen (args_text (p :: ps) last)) 0)
    (At command_line) (At command_line) (zlen (pc_arg p)) ∧
  ∃ x rest, command_line = lead ++ pc_arg p ++ x :: rest.
Proof.
  intros (_ & Hb & Hq & Hok & _ & _). pose proof Hok as Hok0. cbn [pieces_ok] in Hok. rewrite !andb_true_iff in Hok.
  destruct Hok as [[Hp _] _]. destruct (plain_head p Hp Hq) as (c & w & Hcw & _ & _ & Hw).
  pose proof (zlen_nonneg (pc_arg p)).
  assert (∃ x rest, args_text ps last ++ 0 :: tail = x :: rest ∧
    (is_space x = true ∨ zlen (args_text (p :: ps) last) ≤ 0 + zlen (pc_arg p))) as (x & rest & Hr & Hx).
  { destruct (after_plain p ps last Hok0 Hq) as [(Ht & _ & _)|(x & z & Ht & Hx)].
    - exists 0, tail. rewrite Ht. split; [done|right]. cbn [args_text]. rewrite Hb, Ht. unfold piece_text. rewrite Hq.
      cbn [app]. rewrite app_nil_r. lia.
    - exists x, (z ++ 0 :: tail). rewrite Ht. split; [done|by left]. }
  assert (command_line = lead ++ pc_arg p ++ x :: rest) as Hcl.
  { unfold command_line. cbn [args_text]. rewrite Hb. unfold piece_text. rewrite Hq. cbn [app].
    by rewrite <- (app_assoc (pc_arg p)), Hr. }
  split; [|by exists x, rest]. rewrite Hcl at 2 3. replace (zlen (pc_arg p)) with (0 + zlen (pc_arg p)) by lia.
  apply skip_word_ok; [by rewrite Hcw|done| |lia|rewrite Hcl, !length_app; lia].
  cbn [args_text]. rewrite Hb. unfold piece_text. rewrite Hq. cbn [app]. rewrite zlen_app.
  pose proof (zlen_nonneg (args_text ps last)). lia.
Qed.
Lemma get_command_ok : lines_up →
  silent (msh_get_cmd (zlen lead) (zlen (pc_arg p))) (At command_line) (At command_line) the_command.
Proof.
  intros Hup. destruct (first_word_ok Hup) as [_ (x & rest & Hcl)]. destruct Hup as (_ & _ & _ & Hok & _ & _).
  cbn [pieces_ok] in Hok. rewrite !andb_true_iff in Hok. destruct Hok as [[Hp _] _].
  intros out. unfold msh_get_cmd, symbols, gets. rewrite get_bind. unfold mbind, ST_bind. cbn [E sh_line sh_parser].
  rewrite Hcl. unfold slice, zlen at 1 2. rewrite !Nat2Z.id, drop_app_length, take_app_length.
  rewrite up_to_end_id by (by apply arg_chars). apply find_command_ok.
Qed.
Lemma split_line_ok : lines_up →
  silent (msh_split (zlen lead) (zlen (args_text (p :: ps) last))) (At command_line)
    (At (lead ++ split_text (p :: ps) last ++ 0 :: tail)) (arg_offsets (zlen lead) (p :: ps)).
Proof.
  intros (_ & _ & _ & Hok & Hfit & _). unfold msh_split. eapply silent_bind; [apply fuel_silent|]. unfold command_line.
  apply (split_ok s _ _ _ (p :: ps) last _ lead tail _ _ 0 []); [done| |lia|lia|].
  - unfold args_fit in Hfit. apply Z.leb_le in Hfit. change (zlen (@nil Z)) with 0. lia.
  - pose proof (args_text_long _ _ Hok). rewrite !length_app. lia.
Qed.
Lemma exec_cmd_none : lines_up → the_command = None →
  silent (_msh_exec_cmd (zlen lead) (zlen (args_text (p :: ps) last))) (At command_line) (At command_line) None.
Proof.
  intros Hup Hnone. eapply silent_bind; [apply fuel_silent|].
  eapply silent_bind; [by apply first_word_ok|]. pose proof Hup as (_ & _ & Hq & Hok & _).
  cbn [pieces_ok] in Hok. rewrite !andb_true_iff in Hok. destruct Hok as [[Hp _] _].
  destruct (plain_head p Hp Hq) as (c & w & Hcw & _). rewrite (proj2 (Z.eqb_neq _ 0)) by
    (rewrite Hcw, zlen_cons; pose proof (zlen_nonneg w); lia).
  eapply silent_bind; [by apply get_command_ok|]. rewrite Hnone. apply silent_ret.
Qed.
Lemma exec_cmd_some func : lines_up → the_command = Some func → ∀ out,
  _msh_exec_cmd (zlen lead) (zlen (args_text (p :: ps) last)) (At command_line out) =
  (r ← run_command func (pc_arg <$> p :: ps); mret (Some r))
    (At (lead ++ split_text (p :: ps) last ++ 0 :: tail) out).
Proof.
  intros Hup Hsome out. unfold _msh_exec_cmd. rewrite (bind_ok _ _ _ _ _ (fuel_silent _ _ _ _ _ out)).
  rewrite (bind_ok _ _ _ _ _ (proj1 (first_word_ok Hup) out)). pose proof Hup as (_ & _ & Hq & Hok & _).
  pose proof Hok as Hok0. cbn [pieces_ok] in Hok. rewrite !andb_true_iff in Hok. destruct Hok as [[Hp _] _].
  destruct (plain_head p Hp Hq) as (c & w & Hcw & _). rewrite (proj2 (Z.eqb_neq _ 0)) by
    (rewrite Hcw, zlen_cons; pose proof (zlen_nonneg w); lia).
  rewrite (bind_ok _ _ _ _ _ (get_command_ok Hup out)), Hsome.
  rewrite (bind_ok _ _ _ _ _ (split_line_ok Hup out)).
  rewrite (proj2 (Z.eqb_neq (zlen (arg_offsets _ _)) 0)) by
    (cbn [arg_offsets]; rewrite zlen_cons; pose proof (zlen_nonneg (arg_offsets (zlen lead + zlen (pc_blanks p) + zlen (piece_text p)) ps)); lia).
  by rewrite (bind_ok _ _ _ _ _ (read_args_ok _ _ _ _ (p :: ps) last lead tail Hok0 out)).
Qed.
Lemma not_found_ok : lines_up →
  (tcmd ← first_space (S (S (length command_line))) (zlen lead);
   put_char tcmd 0;;
   l ← string_at (zlen lead);
   print_line "%s: command not found." [AText l];;
   mret (-1)) s = not_found s.
Proof.
  intros Hup. pose proof Hup as (_ & _ & _ & Hok & _ & _). pose proof (at_command_line Hup) as Hs.
  set (w := args_text (p :: ps) last) in *. set (typed := before_space w).
  pose proof (before_space_chars w (args_chars _ _ Hok)) as Hc. fold typed in Hc.
  destruct (before_space_split w tail) as (x & Hw & Hx). fold typed in Hw.
  assert (command_line = lead ++ typed ++ x :: drop (S (length typed)) (w ++ 0 :: tail)) as Hcl.
  { unfold command_line. fold w. by rewrite <- Hw. }
  assert (length typed ≤ S (S (length command_line)))%nat as Hfuel by (rewrite Hcl, !length_app; lia).
  pose proof (first_space_ok s (sh_stat s) (line_position s) (line_curpos s) typed _ lead x
    (drop (S (length typed)) (w ++ 0 :: tail)) Hc (before_space_plain w) Hx Hfuel (sh_out s)) as Hfirst.
  rewrite <- Hcl, <- Hs in Hfirst. rewrite (bind_ok _ _ _ _ _ Hfirst).
  pose proof (silent_put s (zlen lead + zlen typed) 0 (sh_stat s) (lead ++ typed) x (drop (S (length typed)) (w ++ 0 :: tail))
    (line_position s) (line_curpos s) ltac:(by rewrite zlen_app) ltac:(lia) (sh_out s)) as Hput.
  rewrite <- !app_assoc, <- Hcl, <- Hs in Hput. rewrite (bind_ok _ _ _ _ _ Hput).
  rewrite (bind_ok _ _ _ _ _ (silent_string s _ (sh_stat s) lead typed _ _ _ eq_refl Hc (sh_out s))). done.
Qed.

(** C24: what [msh_exec] does with a line of arguments, after blanks, the first
    argument a plain one. When the name is that of a command, its function is
    run on exactly the strings the arguments spell - quotes taken off, ten at
    most - with the line split in place; otherwise "command not found" is
    printed with the text up to the first space and the result is -1. *)
Theorem msh_exec_spec :
  lines_up → zlen (lead ++ args_text (p :: ps) last) < 2 ^ 32 →
  msh_exec 0 (zlen (lead ++ args_text (p :: ps) last)) s =
    match the_command with
    | Some func => run_command func (pc_arg <$> p :: ps) (set_sh_line (lead ++ split_text (p :: ps) last ++ 0 :: tail) s)
    | None => not_found s
    end.
Proof.
  intros Hup Hlt. pose proof (at_command_line Hup) as Hs. pose proof Hup as (Hlead & Hb & Hq & Hok & _ & Hline).
  cbn [pieces_ok] in Hok. rewrite !andb_true_iff in Hok. destruct Hok as [[Hp _] _].
  destruct (piece_head p Hp) as (x & w & Hx & Hsp & _). set (text := args_text (p :: ps) last) in *.
  assert (∃ z, text ++ 0 :: tail = x :: z) as [z Hz].
  { unfold text. cbn [args_text]. rewrite Hb, Hx. cbn [app]. by eexists. }
  rewrite zlen_app in *. pose proof (zlen_nonneg lead).
  assert (0 < zlen text) as Hpos.
  { unfold text. cbn [args_text]. rewrite Hb, Hx. cbn [app]. rewrite zlen_cons. pose proof (zlen_nonneg (w ++ args_text ps last)). lia. }
  unfold msh_exec, line_fuel, gets. unfold mbind at 1, ST_bind at 1. rewrite Hline.
  assert (trim_command (S (S (length command_line))) 0 (zlen lead + zlen text) s = Ok s (zlen lead, zlen text)) as Htrim.
  { pose proof (trim_command_ok s (sh_stat s) (line_position s) (line_curpos s) lead (S (S (length command_line))) [] x z
      (zlen lead + zlen text) Hlead Hsp ltac:(lia) ltac:(unfold command_line; rewrite length_app; lia) (sh_out s)) as Ht.
    change (zlen (@nil Z)) with 0 in Ht. cbn [app] in Ht. rewrite <- Hz in Ht. change (lead ++ text ++ 0 :: tail) with command_line in Ht. rewrite <- Hs in Ht.
    rewrite Ht. f_equal. f_equal; lia. }
  rewrite (bind_ok _ _ _ _ _ Htrim). rewrite (proj2 (Z.eqb_neq (zlen text) 0)) by lia.
  destruct the_command as [func|] eqn:Hcmd.
  - rewrite Hs at 1. unfold mbind at 1, ST_bind at 1. unfold text. rewrite (exec_cmd_some _ Hup Hcmd). rewrite <- at_line.
    unfold mbind, ST_bind. by destruct (run_command _ _ _).
  - rewrite Hs at 1. rewrite (bind_ok _ _ _ _ _ (exec_cmd_none Hup Hcmd (sh_out s))). rewrite <- Hs. by apply not_found_ok.
Qed.
End exec.
