(* ===== verification/Boot.v ===== *)
(** * System start-up ([components.c]), and a concrete system

    [example_system] is the state reached by running the start-up code and then
    the calls an application makes; the examples and witnesses of the other
    files use it. *)

From Stdlib Require Import ZArith Lia.
From stdpp Require Import base gmap list fin_maps.
From S2P Require Import RTThread.
From S2P Require Import Prelude.
From S2P Require Import ListModel.
From S2P Require Import Kernel.
From S2P Require Import Kservice.
From S2P Require Import Scheduler.
From S2P Require Import Object.
From S2P Require Import TimerCore.
From S2P Require Import ThreadCore.
From S2P Require Import Timer.
From S2P Require Import Invariant.
From S2P Require Import Thread.
From S2P Require Import Idle.
From S2P Require Import IpcList.
From S2P Require Import Semaphore.
From S2P Require Import Mutex.
From S2P Require Import Event.
From S2P Require Import Mailbox.
From S2P Require Import MessageQueue.

Definition RT_MAIN_THREAD_STACK_SIZE : Z := 2048.
Definition RT_MAIN_THREAD_PRIORITY : Z := 10.

(** [mem] and [stack] are the addresses the two allocations of
    [rt_thread_create] return, [main_entry] the address of [main_thread_entry]. *)
Definition rt_application_init (mem stack main_entry : ptr) : K unit :=
  tid ← rt_thread_create mem stack [109; 97; 105; 110] (* main *) main_entry RT_NULL
          RT_MAIN_THREAD_STACK_SIZE RT_MAIN_THREAD_PRIORITY 20;
  rt_assert (negb (tid =? RT_NULL));;
  rt_thread_startup tid;;
  mret ().

(** [rtthread_startup], without the board initialisation and the banner it
    prints: those drive the hardware. *)
Definition rtthread_startup (mem stack main_entry timer_entry timer_stack
    idle_entry idle_stack : ptr) : K unit :=
  rt_hw_interrupt_disable;;
  rt_system_timer_init;;
  rt_system_scheduler_init;;
  rt_application_init mem stack main_entry;;
  rt_system_timer_thread_init timer_entry timer_stack;;
  rt_thread_idle_init idle_entry idle_stack;;
  rt_system_scheduler_start.

(** ** A concrete system *)

(** The globals as the loader leaves them: zero, except for the addresses of
    the static objects. *)
Definition reset_state (idle timer_thread : ptr) : kstate :=
  mk_kstate 0 0 0 0 0 0 0 0 0 0 ∅ ∅ ∅ ∅ ∅ ∅ RT_SOFT_TIMER_IDLE 0 ∅ ∅ ∅ ∅ ∅ 0
    idle timer_thread [0; 0; 0; 0].

Definition ok_state {A} (m : K A) (s : kstate) : kstate :=
  match m s with Ok s' _ => s' | Err _ => s end.

Definition IDLE : ptr := 1000.
Definition TIMER : ptr := 2000.
Definition MAIN : ptr := 3000.
Definition WORKER : ptr := 4000.
Definition HELPER : ptr := 5000.
Definition SEM : ptr := 6000.
Definition MUTEX : ptr := 6100.
Definition EVENT : ptr := 6200.
Definition MBOX : ptr := 6300.
Definition MQUEUE : ptr := 6400.

Definition boot : K unit := rtthread_startup MAIN 20000 100 101 30000 102 40000.

Definition boot_state : kstate := ok_state boot (reset_state IDLE TIMER).

(** [main] starts once the timer thread, which has nothing to do, waits; it
    initialises one object of each kind and two threads of priority 8, above its
    own, and starts the first, which preempts it and starts the second. *)
Definition main_setup : K unit :=
  rt_thread_timer_turn;;
  PendSV_Handler;;
  rt_sem_init SEM [115] 1 RT_IPC_FLAG_FIFO;;
  rt_mutex_init MUTEX [109] RT_IPC_FLAG_PRIO;;
  rt_event_init EVENT [101] RT_IPC_FLAG_FIFO;;
  rt_mb_init MBOX [98] [0; 0] 2 RT_IPC_FLAG_FIFO;;
  rt_mq_init MQUEUE [113] 50000
    {[ 50000 := [0; 0; 0; 0]; 50008 := [0; 0; 0; 0] ]} 4 16 RT_IPC_FLAG_FIFO;;
  rt_thread_init WORKER [119] 103 0 60000 512 8 5;;
  rt_thread_init HELPER [104] 104 0 70000 512 8 5;;
  rt_thread_startup WORKER;;
  rt_thread_startup HELPER;;
  mret ().

Definition example_system : kstate := ok_state main_setup boot_state.

Definition returns {S A} (r : res S A) : bool := match r with Ok _ _ => true | Err _ => false end.

(** The start-up code and the set-up run without fault. *)
Example boot_ok : returns (boot (reset_state IDLE TIMER)) = true.
Proof. vm_compute. reflexivity. Qed.
Example main_setup_ok : returns (main_setup boot_state) = true.
Proof. vm_compute. reflexivity. Qed.

(** ** Deciding the preconditions of the calls on a concrete state *)

Definition th_at (s : kstate) (t : ptr) : rt_thread := default zero_thread (k_threads s !! t).
Definition obj_at (s : kstate) (o : ptr) : rt_object := default zero_object (k_objects s !! o).

Definition running_check (s : kstate) : bool :=
  wf_check s && (k_lock_nest s =? 0) && stat_is (k_threads s) (k_current s) RT_THREAD_READY.
Definition caller_check (s : kstate) (t : ptr) : bool :=
  running_check s && (k_current s =? t) && (k_interrupt_nest s =? 0) && negb (t =? k_idle s).
Definition valid_check (s : kstate) (o class : Z) : bool :=
  obj_is (k_objects s) o (λ x, class_of x =? class) && negb (o =? 0).

Lemma running_check_sound s : running_check s = true → running s.
Proof.
  unfold running_check. rewrite !andb_true_iff. intros [[H1 H2%Z.eqb_eq] H3%stat_is_spec].
  split; [by apply wf_check_sound|]. split; done.
Qed.
Lemma caller_check_sound s t : caller_check s t = true → caller s t (th_at s t).
Proof.
  unfold caller_check. rewrite !andb_true_iff, negb_true_iff.
  intros [[[Hr%running_check_sound <-%Z.eqb_eq] ?%Z.eqb_eq] ?%Z.eqb_neq].
  pose proof Hr as (_ & _ & th & Ht & Hs). unfold th_at. rewrite Ht. by split.
Qed.
Lemma valid_check_sound s o class :
  valid_check s o class = true → valid s o class (obj_at s o).
Proof.
  unfold valid_check, obj_is, valid, obj_at. rewrite andb_true_iff, negb_true_iff.
  destruct (k_objects s !! o) as [x|]; [|intros [? _]; done].
  by intros [?%Z.eqb_eq ?%Z.eqb_neq].
Qed.

(** In the example system [WORKER] runs; [MAIN] and [HELPER] are ready. *)
Example example_caller : caller_check example_system WORKER = true.
Proof. vm_compute. reflexivity. Qed.
