(* ===== verification/Examples.v ===== *)
(** * The properties of the kernel applied to an example system, and to a memory pool of three blocks in it *)

From Stdlib Require Import ZArith Lia Sorted.
From stdpp Require Import base gmap list fin_maps.
From S2P Require Import RTThread.
From S2P Require Import Prelude.
From S2P Require Import Bytes.
From S2P Require Import Ringbuffer.
From S2P Require Import ListModel.
From S2P Require Import Kernel.
From S2P Require Import Kservice.
From S2P Require Import Scheduler.
From S2P Require Import Object.
From S2P Require Import TimerCore.
From S2P Require Import ThreadCore.
From S2P Require Import Timer.
From S2P Require Import Invariant.
From S2P Require Import Preemption.
From S2P Require Import Registry.
From S2P Require Import Deadlines.
From S2P Require Import Thread.
From S2P Require Import Idle.
From S2P Require Import IpcList.
From S2P Require Import ThreadSpec.
From S2P Require Import Tick.
From S2P Require Import Semaphore.
From S2P Require Import System.
From S2P Require Import Mutex.
From S2P Require Import Event.
From S2P Require Import Mailbox.
From S2P Require Import Chains.
From S2P Require Import MessageQueue.
From S2P Require Import Mempool.
From S2P Require Import MempoolSpec.
From S2P Require Import Boot.

(** Deciding the order of the timer list on a concrete state. *)
Fixpoint sorted_check {A} (le : A → A → bool) (l : list A) : bool :=
  match l with [] => true | x :: l' => forallb (le x) l' && sorted_check le l' end.
Lemma sorted_check_sound {A} (R : A → A → Prop) (le : A → A → bool) l :
  (∀ a b, le a b = true → R a b) → sorted_check le l = true → StronglySorted R l.
Proof.
  intros HR. induction l as [|x l IH]; simpl; [constructor|].
  intros [Hx Hl]%andb_true_iff. constructor; [auto|].
  rewrite List.forallb_forall in Hx. apply List.Forall_forall. auto.
Qed.

Definition hard_check (lo : Z) (s : kstate) : bool :=
  let rem := remaining (k_timers s) (k_tick s) in
  let l := Store.nodes (k_tmlists s) THard in
  forallb (λ T, (lo <=? rem T) && (rem T <? RT_TICK_MAX / 2)) l &&
  sorted_check (λ a b, rem a <=? rem b) l.
Lemma hard_check_sound lo s : hard_check lo s = true → hard_order lo s.
Proof.
  intros [Hr Hs]%andb_true_iff. split.
  - intros T HT. rewrite List.forallb_forall in Hr. apply list_elem_of_In in HT.
    apply Hr, andb_true_iff in HT as [?%Z.leb_le ?%Z.ltb_lt]. done.
  - eapply sorted_check_sound; [|exact Hs]. intros a b. apply Z.leb_le.
Qed.

Definition waits_check (s : kstate) (l : list ptr) : bool :=
  forallb (λ T, tm_is (k_timers s) T (λ m, is_thread_timeout (tm_timeout_func m))) l.
Lemma waits_check_spec s l T tm :
  waits_check s l = true → T ∈ l → k_timers s !! T = Some tm →
  tm_timeout_func tm = TF_thread_timeout.
Proof.
  unfold waits_check. rewrite List.forallb_forall. intros Hl HT%list_elem_of_In Htm.
  specialize (Hl T HT). unfold tm_is in Hl. rewrite Htm in Hl. by destruct (tm_timeout_func tm).
Qed.
Lemma waits_check_sound s l : waits_check s l = true → due_are_waits s l.
Proof. intros H T tm HT Htm _. by eapply waits_check_spec. Qed.
Lemma only_waits_check_sound s :
  waits_check s (Store.nodes (k_tmlists s) THard) = true → only_waits s.
Proof. intros H T tm HT Htm. by eapply waits_check_spec. Qed.

(** Deciding a precondition of a call on the example system. *)
Ltac by_check :=
  lazymatch goal with
  | |- hard_order _ _ => apply hard_check_sound; vm_compute; reflexivity
  | |- due_are_waits _ _ => apply waits_check_sound; vm_compute; reflexivity
  | |- wf _ => apply wf_check_sound; vm_compute; reflexivity
  | |- running _ => apply running_check_sound; vm_compute; reflexivity
  | |- caller _ _ _ => apply caller_check_sound; vm_compute; reflexivity
  | |- valid _ _ _ _ => apply valid_check_sound; vm_compute; reflexivity
  | |- ipc_flag _ => first [left; vm_compute; reflexivity | right; vm_compute; reflexivity]
  | |- time_ok _ => vm_compute; reflexivity
  | |- _ = _ => vm_compute; reflexivity
  end.

Lemma rt_schedule_elects_highest_witness :
  ∃ s', rt_schedule example_system = Ok s' tt ∧ running s'.
Proof.
  destruct (rt_schedule_elects_highest example_system) as (s' & p & to & l & th & H1 & H2 & _);
    [by_check|by_check|]. exists s'. exact (conj H1 H2).
Defined.

Lemma pending_switch_is_consistent_witness :
  ∃ s', rt_schedule example_system = Ok s' tt ∧ switch_inv MAIN s'.
Proof.
  destruct (pending_switch_is_consistent example_system MAIN) as (s' & H1 & H2 & _);
    [by_check|right; split; [by_check|split; by_check]|]. exists s'. exact (conj H1 H2).
Defined.

Lemma critical_sections_nest_witness :
  ∃ s1, enter_n 3 example_system = Ok s1 tt ∧ exit_n 3 s1 = Ok (schedule example_system) tt.
Proof.
  destruct (critical_sections_nest example_system 3) as (s1 & H1 & _ & H3);
    [by_check|vm_compute; split; [discriminate|reflexivity]|]. exists s1. exact (conj H1 H3).
Defined.

(** Applications of this example register no callback. *)
#[local] Instance no_callbacks : External := λ _ _, mret ().

(** ** Semaphores *)

(** [WORKER] has taken the only unit and waits for another. *)
Definition sem_contended : kstate :=
  ok_state (rt_sem_take SEM (-1);; rt_sem_take SEM 10) example_system.

Lemma rt_sem_take_refines_witness :
  ∃ s' out, rt_sem_take SEM 10 example_system = Ok s' out ∧
    sem_view s' SEM = Some (mk_asem 0 []).
Proof.
  destruct (rt_sem_take_refines example_system WORKER (th_at example_system WORKER) SEM
    (obj_at example_system SEM) (mk_asem 1 []) 10) as (s' & out & H1 & _ & H2 & _);
    [by_check|by_check|by_check|by_check|by_check| |].
  - split; [vm_compute; split; discriminate|done].
  - exists s', out. exact (conj H1 H2).
Defined.

Lemma rt_sem_release_refines_witness :
  ∃ s' e, rt_sem_release SEM sem_contended = Ok s' e ∧
    sem_view s' SEM = Some (mk_asem 0 []).
Proof.
  destruct (rt_sem_release_refines sem_contended SEM (obj_at sem_contended SEM)
    (mk_asem 0 [WORKER])) as (s' & e & H1 & _ & H2 & _); [by_check|by_check|by_check| |].
  - split; [vm_compute; split; discriminate|done].
  - exists s', e. exact (conj H1 H2).
Defined.

Lemma rt_sem_reset_spec_witness :
  ∃ s', rt_sem_control SEM RT_IPC_CMD_RESET 3 sem_contended = Ok s' RT_EOK ∧
    woken_all sem_contended (HSuspend SEM) s'.
Proof.
  destruct (rt_sem_reset_spec sem_contended SEM (obj_at sem_contended SEM) 3)
    as (s' & H1 & H2 & _); [by_check|by_check|]. exists s'. exact (conj H1 H2).
Defined.

(** ** Calls and ticks in any order *)

Definition sems_check (s : kstate) : bool :=
  forallb (λ '(sem, v),
    valid_check s sem RT_Object_Class_Semaphore &&
    ((obj_flag (obj_at s sem) =? RT_IPC_FLAG_FIFO) || (obj_flag (obj_at s sem) =? RT_IPC_FLAG_PRIO)) &&
    ((0 <=? v) && (v <=? RT_SEM_VALUE_MAX)) &&
    ((v <=? 0) || Store.isempty (HSuspend sem) (k_tlists s))) (map_to_list (k_sems s)).
Lemma sems_check_sound s : sems_check s = true → sems_ok s.
Proof.
  unfold sems_check. rewrite List.forallb_forall. intros H sem v Hv.
  specialize (H (sem, v) (proj1 (list_elem_of_In _ _) (proj2 (elem_of_map_to_list _ _ _) Hv))).
  cbn -[valid_check] in H. rewrite !andb_true_iff, !orb_true_iff in H.
  destruct H as [[[Hx%valid_check_sound Hf] [H0%Z.leb_le H1%Z.leb_le]] Hq].
  split; [exists (obj_at s sem); split; [done|]|split; [done|]].
  - destruct Hf as [?%Z.eqb_eq|?%Z.eqb_eq]; [by left|by right].
  - cbn. intros Hpos. destruct Hq as [?%Z.leb_le|Hq]; [lia|]. unfold Store.isempty in Hq.
    by destruct (Store.nodes _ _).
Qed.

Definition may_check (s : kstate) (c : call) : bool :=
  match c with
  | CTake sem time => negb (k_current s =? k_idle s) && bool_decide (is_Some (k_sems s !! sem)) &&
      (time <? RT_TICK_MAX / 2)
  | CRelease sem => bool_decide (is_Some (k_sems s !! sem))
  | CYield | CTick => true
  | CSleep tick => negb (k_current s =? k_idle s) && (0 <=? tick) && (tick <? RT_TICK_MAX / 2)
  end.
Lemma may_check_sound s c : may_check s c = true → may_call s c.
Proof.
  destruct c; cbn [may_check may_call]; try done.
  - rewrite !andb_true_iff, negb_true_iff. intros [[?%Z.eqb_neq ?%bool_decide_eq_true] ?%Z.ltb_lt]. done.
  - apply bool_decide_eq_true.
  - rewrite !andb_true_iff, negb_true_iff. intros [[?%Z.eqb_neq ?%Z.leb_le] ?%Z.ltb_lt]. done.
Qed.

(** Running calls one after the other, and whether all of them may be made and return. *)
Fixpoint after (cs : list call) (s : kstate) : kstate :=
  match cs with [] => s | c :: cs' => after cs' (ok_state (exec c) s) end.
Fixpoint run_check (cs : list call) (s : kstate) : bool :=
  match cs with
  | [] => true
  | c :: cs' => may_check s c && returns (exec c s) && run_check cs' (ok_state (exec c) s)
  end.
Lemma run_check_sound cs s : run_check cs s = true → run s cs (after cs s).
Proof.
  revert s. induction cs as [|c cs IH]; intros s; cbn [run_check after]; [constructor|].
  rewrite !andb_true_iff. intros [[Hm%may_check_sound Hr] H%IH]. eapply run_cons; [|exact H].
  split; [done|]. unfold ok_state. by destruct (exec c s) as [? []|].
Qed.

(** [WORKER] takes the unit, then waits for another; [HELPER] sleeps; ticks
    pass; [MAIN] releases twice. *)
Definition some_calls : list call :=
  [CTake SEM (-1); CTake SEM 10; CTick; CYield; CSleep 2; CTick; CRelease SEM; CTick; CTick].

Lemma system_safe_witness :
  ∃ s', run example_system some_calls s' ∧ sys s'.
Proof.
  exists (after some_calls example_system).
  assert (Hr : run example_system some_calls (after some_calls example_system)).
  { apply run_check_sound. vm_compute. reflexivity. }
  split; [exact Hr|].
  apply (system_safe example_system some_calls); [|exact Hr].
  split; [by_check|by_check|split; [by_check|apply only_waits_check_sound; by_check]|
    apply sems_check_sound; by_check].
Defined.

(** ** Mutexes *)

(** [WORKER] holds the mutex and waits for the semaphore; [HELPER] runs. *)
Definition mutex_taken : kstate :=
  ok_state (rt_mutex_take MUTEX (-1);; rt_sem_take SEM (-1);; rt_sem_take SEM (-1)) example_system.
(** Then [HELPER] waits for the mutex and [MAIN] wakes [WORKER]. *)
Definition mutex_contended : kstate :=
  ok_state (rt_mutex_take MUTEX (-1);; rt_sem_release SEM) mutex_taken.
Definition mutex_at (s : kstate) (m : ptr) : rt_mutex := default freed (k_mutexes s !! m).

Lemma rt_mutex_take_acquires_witness :
  ∃ s', rt_mutex_take MUTEX 5 example_system = Ok s' (Done RT_EOK) ∧
    mutex_view s' MUTEX = Some (Held WORKER 1 8).
Proof.
  destruct (rt_mutex_take_acquires example_system WORKER (th_at example_system WORKER) MUTEX
    (obj_at example_system MUTEX) (mutex_at example_system MUTEX) 5)
    as (s' & m' & H1 & _ & _ & _ & H2); [by_check|by_check|by_check|by_check| |by_check|].
  - split; [by_check|left; vm_compute; done].
  - exists s'. exact (conj H1 H2).
Defined.

Lemma rt_mutex_take_inherits_witness :
  ∃ s', rt_mutex_take MUTEX (-1) mutex_taken = Ok s' (Wait HELPER) ∧ running s'.
Proof.
  destruct (rt_mutex_take_inherits mutex_taken HELPER (th_at mutex_taken HELPER) MUTEX
    (obj_at mutex_taken MUTEX) (mutex_at mutex_taken MUTEX) (-1))
    as (s' & H1 & H2 & _); [by_check|by_check|by_check|by_check|done| | |by vm_compute|by vm_compute|].
  - split; [by_check|right; vm_compute; repeat split; done].
  - intros _. exists (th_at mutex_taken WORKER). split; [by_check|right; by_check].
  - exists s'. exact (conj H1 H2).
Defined.

Lemma rt_mutex_release_hands_over_witness :
  ∃ s', rt_mutex_release MUTEX mutex_contended = Ok s' RT_EOK ∧ wf s'.
Proof.
  destruct (rt_mutex_release_hands_over mutex_contended WORKER (th_at mutex_contended WORKER)
    MUTEX (obj_at mutex_contended MUTEX) (mutex_at mutex_contended MUTEX))
    as (s' & m' & H1 & H2 & _); [by_check|by_check| |by_check|by_check|].
  - split; [by_check|right; vm_compute; repeat split; done].
  - exists s'. exact (conj H1 H2).
Defined.

Lemma mutex_recursion_roundtrip_witness :
  ∃ s1 s2, mutex_takes MUTEX 0 200 example_system = Ok s1 tt ∧
    mutex_releases MUTEX 200 s1 = Ok s2 tt.
Proof.
  destruct (mutex_recursion_roundtrip example_system WORKER (th_at example_system WORKER) MUTEX
    (obj_at example_system MUTEX) 0 200) as (s1 & s2 & H1 & _ & H2 & _);
    [by_check|by_check|by_check|by_check|by_check|by_check|vm_compute; split; discriminate|].
  exists s1, s2. exact (conj H1 H2).
Defined.

(** ** Deadlines *)

Definition USER_TIMER : ptr := 6500.
(** [WORKER] waits 10 ticks for the semaphore; an application timer of 4 ticks
    is ready to start. *)
Definition timer_pending : kstate :=
  ok_state (rt_timer_init USER_TIMER [117] (TF_user 1) 0 4 RT_TIMER_FLAG_ONE_SHOT) sem_contended.
Lemma rt_timer_start_keeps_order_witness :
  ∃ s', rt_timer_start USER_TIMER timer_pending = Ok s' RT_EOK ∧ hard_order 0 s'.
Proof.
  destruct (rt_timer_start_keeps_order timer_pending USER_TIMER (obj_at timer_pending USER_TIMER)
    (default zero_timer (k_timers timer_pending !! USER_TIMER))) as (s' & H1 & H2 & _);
    [by_check|by_check|by_check|by_check|by vm_compute|by_check|by_check|
     vm_compute; split; [discriminate|reflexivity]|].
  exists s'. exact (conj H1 H2).
Defined.

(** Application timers: one of [period] ticks, periodic, and a one-shot one of 12. *)
Definition ONE_SHOT_TIMER : ptr := 6600.
Definition with_timers (period : Z) : kstate :=
  ok_state (rt_timer_init USER_TIMER [117] (TF_user 1) 0 period RT_TIMER_FLAG_PERIODIC;;
            rt_timer_init ONE_SHOT_TIMER [118] (TF_user 2) 0 12 RT_TIMER_FLAG_ONE_SHOT;;
            rt_timer_start USER_TIMER;; rt_timer_start ONE_SHOT_TIMER) sem_contended.
(** The tick counter reaches the deadlines of [WORKER] and of the periodic timer. *)
Definition timers_due : kstate := set_k_tick 10 (with_timers 10).

Lemma no_callbacks_law f p : callback_law f p.
Proof. intros s Hwf. exists s. split; [done|]. by split. Qed.
Definition periods_check (s : kstate) : bool := forallb (λ T, tm_is (k_timers s) T (λ m, 0 <? tm_init_tick m)) (hard s).
Lemma periods_check_sound s : periods_check s = true → due_ok s.
Proof.
  unfold periods_check. rewrite List.forallb_forall. intros Hl T o tm f HT%list_elem_of_In _ _ Htm _.
  split; [apply no_callbacks_law|]. intros _. specialize (Hl T HT). unfold tm_is in Hl. rewrite Htm in Hl. by apply Z.ltb_lt.
Qed.

(** The wait ends, the periodic timer goes behind the one that is not due yet. *)
Lemma rt_timer_check_expires_witness :
  hard timers_due = [thread_timer WORKER; USER_TIMER; ONE_SHOT_TIMER] ∧
  ∃ s', rt_timer_check 3 timers_due = Ok s' tt ∧ hard_order 1 s' ∧
    (thread_timer WORKER ∉ hard s') ∧ (USER_TIMER ∈ hard s') ∧
    k_timers s' !! USER_TIMER = (restarted 10 <$> k_timers timers_due !! USER_TIMER).
Proof.
  assert (hard timers_due = [thread_timer WORKER; USER_TIMER; ONE_SHOT_TIMER]) as Eh by (vm_compute; reflexivity).
  split; [exact Eh|].
  destruct (rt_timer_check_expires timers_due 3) as (s' & H1 & H2 & _);
    [by_check|by_check|apply periods_check_sound; vm_compute; reflexivity|vm_compute; lia|].
  exists s'. split; [exact H1|]. split; [apply H2|].
  assert (due timers_due (thread_timer WORKER) ∧ due timers_due USER_TIMER) as [Hw Hu] by (vm_compute; split; discriminate).
  split; [|split].
  - rewrite (sw_member _ _ H2). intros [_ H]. specialize (H Hw). vm_compute in H. discriminate.
  - rewrite (sw_member _ _ H2). rewrite Eh. split; [right; left|]. intros _. vm_compute. reflexivity.
  - rewrite (sw_timer _ _ H2 USER_TIMER); [|rewrite Eh; right; left|exact Hu].
    assert (restarts timers_due USER_TIMER = true) as -> by (vm_compute; reflexivity). reflexivity.
Defined.
(** A period of 0 is accepted, and the check takes the timer for due again and
    again. *)
Example zero_period_never_ends : rt_timer_check 40 (with_timers 0) = Err FHang.
Proof. vm_compute. reflexivity. Qed.

(** ** Threads *)

Lemma rt_thread_yield_round_robin_witness :
  ∃ s', rt_thread_yield example_system = Ok s' RT_EOK ∧ k_current s' = HELPER.
Proof.
  destruct (rt_thread_yield_round_robin example_system WORKER 8 [HELPER])
    as (s' & H1 & _ & _ & H2 & _); [by_check|by_check| |by_check|].
  - pose proof (wf_highest example_system) as H.
    assert (E : highest_ready example_system = 8) by (vm_compute; reflexivity).
    rewrite E in H. apply H. by_check.
  - exists s'. exact (conj H1 H2).
Defined.

Lemma rt_thread_sleep_spec_witness :
  ∃ s', rt_thread_sleep 5 example_system = Ok s' (Wait WORKER) ∧ running s'.
Proof.
  destruct (rt_thread_sleep_spec example_system WORKER (th_at example_system WORKER) 5)
    as (s' & H1 & H2 & _); [by_check|lia|vm_compute; reflexivity|by_check|].
  exists s'. exact (conj H1 H2).
Defined.

(** ** Events *)

Definition event_check (s : kstate) (event v : Z) : bool :=
  bool_decide (k_events s !! event = Some v) &&
  forallb (λ t, bool_decide (event_satisfied (info (k_threads s) t) (want (k_threads s) t) v = Some false))
    (Store.nodes (k_tlists s) (HSuspend event)).
Lemma event_check_sound s event v : event_check s event v = true → event_ok s event v.
Proof.
  intros [He%bool_decide_eq_true Hw]%andb_true_iff. split; [done|]. intros t Ht.
  rewrite List.forallb_forall in Hw. apply list_elem_of_In, Hw, bool_decide_eq_true in Ht. done.
Qed.

(** [WORKER] waits for both bits 1 and 2, [HELPER] for either of them, to be
    cleared on receipt. *)
Definition event_waited : kstate :=
  ok_state (rt_event_recv EVENT 3 RT_EVENT_FLAG_AND (-1);;
            rt_event_recv EVENT 3 (Z.lor RT_EVENT_FLAG_OR RT_EVENT_FLAG_CLEAR) 20) example_system.

Lemma rt_event_send_serves_witness :
  ∃ s', rt_event_send EVENT 2 event_waited = Ok s' RT_EOK ∧ event_ok s' EVENT 0 ∧
    Store.nodes (k_tlists s') (HSuspend EVENT) = [WORKER].
Proof.
  destruct (rt_event_send_serves event_waited EVENT (obj_at event_waited EVENT) 0 2)
    as (s' & H1 & _ & H2 & H3 & _); [by_check|by_check|apply event_check_sound; by_check|done|].
  exists s'. split; [exact H1|]. split; [exact H2|exact H3].
Defined.

Lemma rt_event_recv_spec_witness :
  ∃ s', rt_event_recv EVENT 3 RT_EVENT_FLAG_OR 20 example_system = Ok s' (Wait WORKER) ∧
    event_ok s' EVENT 0.
Proof.
  destruct (rt_event_recv_spec example_system WORKER (th_at example_system WORKER) EVENT
    (obj_at example_system EVENT) 0 3 RT_EVENT_FLAG_OR 20) as (s' & out & H1 & _ & H2 & -> & _);
    [by_check|by_check|by_check|by_check|apply event_check_sound; by_check|done|by eexists|].
  exists s'. exact (conj H1 H2).
Defined.

(** ** The tick *)

Lemma rt_tick_increase_spec_witness :
  ∃ s', rt_tick_increase 5 sem_contended = Ok s' tt ∧ running s'.
Proof.
  destruct (rt_tick_increase_spec sem_contended HELPER (th_at sem_contended HELPER) 5)
    as (s' & H1 & H2 & _); [by_check|by_check|by_check|by_check|by_check|vm_compute; lia|].
  exists s'. exact (conj H1 H2).
Defined.

Lemma timed_wait_ends_on_time_witness :
  ∃ s', ticks 10 5 sem_contended = Ok s' tt ∧ running s'.
Proof.
  destruct (timed_wait_ends_on_time 5 sem_contended WORKER (th_at sem_contended WORKER) 10)
    as [_ (s' & H1 & H2 & _)]; [split|split; [|split; [|split]]|lia|].
  - by_check.
  - by_check.
  - apply only_waits_check_sound. by_check.
  - vm_compute; lia.
  - by_check.
  - by_check.
  - assert (E : Store.nodes (k_tmlists sem_contended) THard = [thread_timer WORKER])
      by (vm_compute; reflexivity).
    rewrite E. by left.
  - by_check.
  - exists s'. exact (conj H1 H2).
Defined.

(** ** Mailboxes *)

Definition mailbox_at (s : kstate) (mb : ptr) : rt_mailbox :=
  default (mk_mailbox [] 0 0 0 0) (k_mailboxes s !! mb).
(** One mail is in the box of two. *)
Definition mail_waiting : kstate := ok_state (rt_mb_send_wait MBOX 77 0) example_system.

Lemma rt_mb_send_refines_witness :
  ∃ s' out, rt_mb_send_wait MBOX 78 5 mail_waiting = Ok s' out ∧ running s' ∧ out = Done RT_EOK.
Proof.
  destruct (rt_mb_send_refines mail_waiting WORKER (th_at mail_waiting WORKER) MBOX
    (obj_at mail_waiting MBOX) (mailbox_at mail_waiting MBOX) 78 5) as (s' & out & H1 & H2 & H3);
    [by_check|by_check|by_check|by_check|by_check|split; vm_compute; repeat split; done || discriminate|].
  assert (E : (Z.of_nat (length (mb_contents (mailbox_at mail_waiting MBOX))) <?
    mb_size (mailbox_at mail_waiting MBOX)) = true) by (vm_compute; reflexivity).
  rewrite E in H3. exists s', out. exact (conj H1 (conj H2 (proj1 H3))).
Defined.

Lemma rt_mb_recv_refines_witness :
  ∃ s' out, rt_mb_recv MBOX 0 mail_waiting = Ok s' out ∧ running s' ∧
    out = Done (RT_EOK, Some 77).
Proof.
  destruct (rt_mb_recv_refines mail_waiting WORKER (th_at mail_waiting WORKER) MBOX
    (obj_at mail_waiting MBOX) (mailbox_at mail_waiting MBOX) 0) as (s' & out & H1 & H2 & H3);
    [by_check|by_check|by_check|by_check|by_check|split; vm_compute; repeat split; done || discriminate|].
  assert (E : mb_contents (mailbox_at mail_waiting MBOX) = [77]) by (vm_compute; reflexivity).
  rewrite E in H3. exists s', out. exact (conj H1 (conj H2 (proj1 H3))).
Defined.

(** ** Message queues *)

Fixpoint chain_check (next : gmap ptr ptr) (p : ptr) (l : list ptr) : bool :=
  match l with
  | [] => p =? RT_NULL
  | x :: l' => (p =? x) && negb (x =? RT_NULL) &&
      match next !! x with Some y => chain_check next y l' | None => false end
  end.
Lemma chain_check_sound next p l : chain_check next p l = true → chain next p l.
Proof.
  revert p. induction l as [|x l IH]; intros p; simpl; [by intros ?%Z.eqb_eq|].
  rewrite !andb_true_iff, negb_true_iff. intros [[?%Z.eqb_eq ?%Z.eqb_neq] Hy].
  destruct (next !! x) as [y|]; [|done]. split; [done|]. split; [done|]. eauto.
Qed.

Definition mq_check (m : rt_messagequeue) (q f : list ptr) : bool :=
  chain_check (mq_next m) (mq_head m) q && chain_check (mq_next m) (mq_free m) f &&
  bool_decide (NoDup (q ++ f)) && (mq_tail m =? last_or_null q) &&
  (mq_entry m =? Z.of_nat (length q)) && (Z.of_nat (length (q ++ f)) =? mq_max_msgs m) &&
  ((0 <=? mq_max_msgs m) && (mq_max_msgs m <? 65536)) &&
  forallb (λ x, match mq_data m !! x with
                | Some d => Z.of_nat (length d) =? mq_msg_size m | None => false end) (q ++ f).
Lemma mq_check_sound m q f : mq_check m q f = true → mq_rep m q f.
Proof.
  unfold mq_check. rewrite !andb_true_iff, List.forallb_forall.
  intros [[[[[[[H1 H2] H3] H4%Z.eqb_eq] H5%Z.eqb_eq] H6%Z.eqb_eq] [H7%Z.leb_le H8%Z.ltb_lt]] H9].
  apply bool_decide_eq_true in H3. split; auto using chain_check_sound.
  intros x Hx%list_elem_of_In. specialize (H9 x Hx).
  destruct (mq_data m !! x) as [d|]; [|done]. apply Z.eqb_eq in H9. eauto.
Qed.

Definition mq_at (s : kstate) (mq : ptr) : rt_messagequeue :=
  default (mk_messagequeue 0 0 0 0 0 0 0 ∅ ∅) (k_mqs s !! mq).
(** One message of the two the pool has room for is queued. *)
Definition message_waiting : kstate :=
  ok_state (rt_mq_send MQUEUE [1; 2; 3; 4] 4) example_system.

Lemma rt_mq_send_refines_witness :
  ∃ s' out, rt_mq_send_wait MQUEUE [5; 6] 2 10 message_waiting = Ok s' out ∧ running s'.
Proof.
  destruct (rt_mq_send_refines message_waiting WORKER (th_at message_waiting WORKER) MQUEUE
    (obj_at message_waiting MQUEUE) (mq_at message_waiting MQUEUE) [50008] [50000] [5; 6] 2 10)
    as (s' & out & H1 & H2 & _);
    [by_check|by_check|by_check|by_check|by_check|apply mq_check_sound; by_check|lia|reflexivity|].
  exists s', out. exact (conj H1 H2).
Defined.

Lemma rt_mq_urgent_refines_witness :
  ∃ s' e, rt_mq_urgent MQUEUE [5; 6] 2 message_waiting = Ok s' e ∧ running s'.
Proof.
  destruct (rt_mq_urgent_refines message_waiting WORKER (th_at message_waiting WORKER) MQUEUE
    (obj_at message_waiting MQUEUE) (mq_at message_waiting MQUEUE) [50008] [50000] [5; 6] 2)
    as (s' & e & H1 & H2 & _);
    [by_check|by_check|by_check|apply mq_check_sound; by_check|lia|reflexivity|].
  exists s', e. exact (conj H1 H2).
Defined.

Lemma rt_mq_recv_refines_witness :
  ∃ s' out, rt_mq_recv MQUEUE 3 0 message_waiting = Ok s' out ∧ running s' ∧
    out = Done (RT_EOK, Some [1; 2; 3]).
Proof.
  destruct (rt_mq_recv_refines message_waiting WORKER (th_at message_waiting WORKER) MQUEUE
    (obj_at message_waiting MQUEUE) (mq_at message_waiting MQUEUE) [50008] [50000] 3 0)
    as (s' & out & H1 & H2 & H3 & _);
    [by_check|by_check|by_check|by_check|by_check|apply mq_check_sound; by_check|lia|].
  exists s', out. split; [exact H1|]. split; [exact H2|]. rewrite H3. vm_compute. reflexivity.
Defined.

Definition unused_check (s : kstate) (o : ptr) : bool :=
  match k_objects s !! o with
  | None => true
  | Some x => negb (class_of x =? RT_Object_Class_Thread) && negb (class_of x =? RT_Object_Class_Timer)
  end.
Lemma unused_check_sound s o : unused_check s o = true → not_core s o.
Proof.
  unfold unused_check. intros H x Hx. rewrite Hx, andb_true_iff, !negb_true_iff, !Z.eqb_neq in H. done.
Qed.

Lemma rt_mq_init_empty_witness :
  ∃ s' m f, rt_mq_init 6600 [113] 50100 {[ 50100 := [0; 0; 0; 0] ]} 3 15 RT_IPC_FLAG_FIFO
    example_system = Ok s' RT_EOK ∧ k_mqs s' !! 6600 = Some m ∧ mq_rep m [] f.
Proof.
  destruct (rt_mq_init_empty example_system 6600 [113] 50100 {[ 50100 := [0; 0; 0; 0] ]} 3 15
    RT_IPC_FLAG_FIFO) as (s' & m & f & H1 & H2 & H3 & _);
    [by_check|apply unused_check_sound; by_check| |done|done|by vm_compute| |].
  - apply (bool_decide_eq_true (Store.unlinked (k_containers example_system) 6600)). by_check.
  - intros i Hi. assert (i = 0) as -> by (change (15 / (u16 (RT_ALIGN 3 RT_ALIGN_SIZE) + MQ_HEADER)) with 1 in Hi; lia).
    exists [0; 0; 0; 0]. by vm_compute.
  - exists s', m, f. exact (conj H1 (conj H2 H3)).
Defined.

(** ** The registry *)

Lemma rt_object_init_registers_witness :
  rt_object_init SEM RT_Object_Class_Semaphore [115] example_system = Err FAssert ∧
  ∃ s', rt_object_init 6700 RT_Object_Class_Semaphore [115; 50] example_system = Ok s' tt ∧ running s'.
Proof.
  split.
  - apply (rt_object_init_registers example_system SEM RT_Object_Class_Semaphore [115]);
      [by_check|by_check|right; left|apply unused_check_sound; by_check|].
    + apply (bool_decide_eq_true (SEM ∈ Store.nodes (k_containers example_system) RT_Object_Class_Semaphore)).
      by_check.
  - destruct (rt_object_init_registers example_system 6700 RT_Object_Class_Semaphore [115; 50])
      as [_ (s' & H1 & H2 & _)]; [by_check|by_check|right; left|apply unused_check_sound; by_check| |].
    + apply (bool_decide_eq_true (Store.unlinked (k_containers example_system) 6700)). by_check.
    + exists s'. exact (conj H1 H2).
Defined.

(** ** The ring buffer *)

(** Nine bytes, of which eight are used. The ring wraps, is overwritten and
    read in place; then a forced put of three bytes on six that stop short of
    the end of the block empties it. *)
Lemma ringbuffer_is_bounded_queue_witness :
  ∃ rb', (rt_ringbuffer_init (replicate 9 0) 9;;
          rb_run [CPut [1; 2; 3; 4; 5; 6]; CGet 4; CPut [7; 8; 9; 10; 11]; CPutcharForce 12;
                  CPutcharForce 13; CGetchar; CPutchar 14; CPutchar 15; CPutForce [16; 17];
                  CPeak; CPeak; CDataLen; CPut [18; 19; 20; 21; 22; 23]; CPutForce [24; 25; 26];
                  CDataLen; CSpaceLen; CPut [27; 28]])
         (mk_ringbuffer [] 1 3 0 5 7) =
      Ok rb' [(6, []); (4, [1; 2; 3; 4]); (5, []); (1, []); (1, []); (1, [6]); (1, []); (0, []);
              (2, []); (8, [9; 10; 11; 12; 13; 14; 16; 17]); (0, []); (0, []); (6, []); (3, []);
              (0, []); (8, []); (2, [])]
    ∧ rb_ok rb' ∧ rb_queue rb' = (1, [27; 28]).
Proof.
  refine (ringbuffer_is_bounded_queue (replicate 9 0) 9 _ _ _ _ _); [lia|done|].
  repeat (apply Forall_cons; split; [simpl; try done; try lia|]). by apply Forall_nil.
Defined.

(** A size of three is accepted, rounded down to nothing, and the fourth
    forced character is stored past the end of the block. *)
Example small_ringbuffer_overruns rb0 :
  (rt_ringbuffer_init [0; 0; 0] 3;;
   rb_run [CGetSize; CPutcharForce 1; CPutcharForce 2; CPutcharForce 3; CPutcharForce 4]) rb0
  = Err FBounds.
Proof. by destruct rb0. Qed.

Definition rb_half : rt_ringbuffer := mk_ringbuffer [1; 2; 0; 0] 0 0 0 2 4.
Lemma rb_half_ok : rb_ok rb_half.
Proof. constructor; simpl; unfold zlen; simpl; lia. Qed.

(** Four bytes forced into a buffer of four that holds two: it comes out empty. *)
Lemma rt_ringbuffer_put_force_spec_witness :
  ∃ rb', rt_ringbuffer_put_force [7; 8; 9; 10] 4 rb_half = Ok rb' 4 ∧ rb_ok rb' ∧
    rb_contents rb' = [].
Proof.
  refine (rt_ringbuffer_put_force_spec rb_half [7; 8; 9; 10] 4 rb_half_ok _ _);
    [lia|unfold zlen; simpl; lia].
Defined.

(** ** Memory pools *)

Definition POOL : ptr := 7000.
Definition POOL_MEMORY : ptr := 80000.

(** A state, split into its parts. *)
Definition pool_state : mstate :=
  match rt_mp_init POOL [112] POOL_MEMORY 42 6 (mk_mstate example_system ∅ ∅) with
  | Ok s _ => s
  | Err _ => mk_mstate example_system ∅ ∅
  end.
Definition pool_at (s : mstate) : rt_mempool :=
  default (mk_mempool 0 0 0 0 0 0) (ms_pools s !! POOL).
Definition pool_taken : mstate :=
  match rt_mp_alloc POOL 0 pool_state with Ok s _ => s | Err _ => pool_state end.

Lemma pool_split s : s = mk_mstate (ms_kernel s) (ms_pools s) (ms_words s).
Proof. by destruct s. Qed.

Definition pool_check (W : gmap ptr ptr) (mp : ptr) (m : rt_mempool) (free used : list ptr) : bool :=
  (0 <? mp_start_address m) && (0 <? mp_stride m) &&
  ((0 <=? mp_block_total_count m) && (mp_block_total_count m <? 2 ^ 32)) &&
  bool_decide (used ++ free = mp_blocks m) &&
  (mp_block_free_count m =? Z.of_nat (length free)) && chain_check W (mp_block_list m) free &&
  forallb (λ b, bool_decide (W !! b = Some mp)) used.
Lemma pool_check_sound W mp m free used : pool_check W mp m free used = true → mp_ok W mp m free used.
Proof.
  unfold pool_check. rewrite !andb_true_iff, List.forallb_forall, bool_decide_eq_true.
  intros [[[[[[H1%Z.ltb_lt H2%Z.ltb_lt] [H3%Z.leb_le H4%Z.ltb_lt]] H5] H6%Z.eqb_eq] H7] H8].
  split; auto using chain_check_sound.
  - by rewrite <- H5, Permutation_app_comm.
  - intros b Hb%list_elem_of_In. by apply H8, bool_decide_eq_true in Hb.
Qed.

Lemma rt_mp_alloc_spec_witness :
  ∃ k' P' W', rt_mp_alloc POOL 5 pool_state = Ok (mk_mstate k' P' W') (Done (POOL_MEMORY + 4)) ∧
    running k'.
Proof.
  rewrite (pool_split pool_state).
  destruct (rt_mp_alloc_spec (ms_kernel pool_state) (ms_pools pool_state) (ms_words pool_state)
    WORKER (th_at (ms_kernel pool_state) WORKER) POOL (pool_at pool_state)
    [80000; 80012; 80024] [] 5) as (k' & P' & W' & out & H1 & H2 & -> & _);
    [by_check|done|by_check|apply pool_check_sound; by_check|by_check|].
  exists k', P', W'. exact (conj H1 H2).
Defined.

Lemma rt_mp_free_spec_witness :
  ∃ k' P' W', rt_mp_free (POOL_MEMORY + 4) pool_taken = Ok (mk_mstate k' P' W') tt ∧ wf k'.
Proof.
  rewrite (pool_split pool_taken).
  destruct (rt_mp_free_spec (ms_kernel pool_taken) (ms_pools pool_taken) (ms_words pool_taken)
    POOL (pool_at pool_taken) [80012; 80024] [POOL_MEMORY] [] POOL_MEMORY)
    as (k' & P' & W' & H1 & H2 & _);
    [by_check|by_check|apply pool_check_sound; by_check|done|].
  exists k', P', W'. exact (conj H1 H2).
Defined.

Lemma mp_alloc_free_roundtrip_witness :
  ∃ s', rt_mp_alloc POOL 0 pool_state = Ok s' (Done (80000 + WORD)) ∧
    rt_mp_free (80000 + WORD) s' = Ok pool_state tt.
Proof.
  rewrite (pool_split pool_state).
  apply (mp_alloc_free_roundtrip (ms_kernel pool_state) (ms_pools pool_state) (ms_words pool_state)
    WORKER (th_at (ms_kernel pool_state) WORKER) POOL (pool_at pool_state) 80000 [80012; 80024] [] 0);
    [by_check|done|by_check|apply pool_check_sound; by_check|by_check].
Defined.

Lemma rt_mp_init_spec_witness :
  rt_mp_init POOL [112] POOL_MEMORY 11 6 (mk_mstate example_system ∅ ∅) = Err FBounds.
Proof.
  refine (rt_mp_init_spec example_system ∅ ∅ POOL [112] POOL_MEMORY 11 6 _ _ _ _ _ _);
    [by_check| |done|done|done|done].
  apply (bool_decide_eq_true (Store.unlinked (k_containers example_system) POOL)). by_check.
Defined.
