(* ===== verification/HeapExamples.v ===== *)
(** * The allocator at work: its theorems applied to a heap of a hundred bytes *)

From Stdlib Require Import ZArith Lia.
From stdpp Require Import base gmap list fin_maps.
From S2P Require Import RTThread.
From S2P Require Import Prelude.
From S2P Require Import Bytes.
From S2P Require Import ListModel.
From S2P Require Import Kernel.
From S2P Require Import Object.
From S2P Require Import IpcList.
From S2P Require Import Semaphore.
From S2P Require Import Mem.
From S2P Require Import MemSpec.
From S2P Require Import MemSafety.
From S2P Require Import MemRealloc.
From S2P Require Import Ringbuffer.
From S2P Require Import RingbufferHeap.
From S2P Require Import KHeap.
From S2P Require Import Boot.

(** ** Deciding the invariant *)

#[global] Instance heap_mem_eq_dec : EqDecision heap_mem.
Proof. solve_decision. Defined.

Fixpoint blocks_check (b E prev : Z) (ms : gmap ptr heap_mem) (l : layout) : bool :=
  match l with
  | [] => true
  | (o, u) :: l' =>
      bool_decide (ms !! (b + o) = Some (header u (nxt E l') prev)) &&
      (o + SIZEOF_STRUCT_MEM <? nxt E l') && (o mod 4 =? 0) && blocks_check b E o ms l'
  end.
Definition end_check (b E : Z) (ms : gmap ptr heap_mem) : bool :=
  match ms !! (b + E) with
  | Some m => bool_decide (m = header true E (hm_prev m))
  | None => false
  end.
Fixpoint separated_check (l : layout) : bool :=
  match l with
  | [] => true
  | (_, u) :: l' => (u || negb (head_free l')) && separated_check l'
  end.
Definition core_check (h : heap) (l : layout) : bool :=
  (0 <? heap_ptr h) && (heap_ptr h mod 4 =? 0) &&
  (12 <=? mem_size_aligned h) && (mem_size_aligned h mod 4 =? 0) &&
  (heap_ptr h + mem_size_aligned h + 24 <=? 2 ^ 32) &&
  (heap_end h =? heap_ptr h + heap_stop h) &&
  blocks_check (heap_ptr h) (heap_stop h) 0 (heap_mems h) l &&
  end_check (heap_ptr h) (heap_stop h) (heap_mems h) &&
  (nxt (heap_stop h) l =? 0) && (lfree h =? heap_ptr h + first_free (heap_stop h) l) &&
  (zlen (heap_bytes h) =? heap_stop h + SIZEOF_STRUCT_MEM).
Definition lock_check (k : kstate) (sem : ptr) : bool :=
  valid_check k sem RT_Object_Class_Semaphore && bool_decide (k_sems k !! sem = Some 1) &&
  bool_decide (Store.nodes (k_tlists k) (HSuspend sem) = []) && (k_interrupt_nest k =? 0).
Definition hs_check (s : hstate) (l : layout) : bool :=
  core_check (hs_heap s) l && separated_check l &&
  (used_mem (hs_heap s) =? used_total (heap_stop (hs_heap s)) l) &&
  (used_mem (hs_heap s) <=? max_mem (hs_heap s)) &&
  lock_check (hs_kernel s) (heap_sem (hs_heap s)).

(** Splits a conjunction of checks into facts. *)
Ltac checks H :=
  repeat match type of H with
  | _ && _ = true => let H' := fresh in apply andb_true_iff in H as [H H']; checks H'
  | bool_decide _ = true => apply bool_decide_eq_true in H
  | (_ =? _) = true => apply Z.eqb_eq in H
  | (_ <? _) = true => apply Z.ltb_lt in H
  | (_ <=? _) = true => apply Z.leb_le in H
  end.

Lemma blocks_check_sound b E prev ms l : blocks_check b E prev ms l = true → blocks b E prev ms l.
Proof.
  revert prev. induction l as [|[o u] l IH]; intros prev; [done|]. cbn [blocks_check blocks].
  intros H. apply andb_true_iff in H as [H Hl]. checks H. auto.
Qed.
Lemma separated_check_sound l : separated_check l = true → separated l.
Proof.
  induction l as [|[o []] l IH]; cbn; [done| |].
  { intros H. split; [done|auto]. }
  intros H. apply andb_true_iff in H as [H Hl]. apply negb_true_iff in H. auto.
Qed.
Lemma hs_check_sound s l : hs_check s l = true → hs_ok s l.
Proof.
  unfold hs_check, core_check, lock_check. intros H. checks H.
  split; [split; [split|..]|split]; try done; try (by apply separated_check_sound).
  - split; [by apply blocks_check_sound|].
    match goal with H : end_check _ _ _ = true |- _ => unfold end_check in H; revert H end.
    destruct (heap_mems (hs_heap s) !! _) as [m|]; [|done].
    intros H'. apply bool_decide_eq_true in H'. exists (hm_prev m). by rewrite <- H'.
  - eexists. by apply valid_check_sound.
Qed.

(** ** A concrete heap *)

Definition HEAP_SEM : ptr := 6500.
Definition ok_hstate {A} (m : ST hstate A) (s : hstate) : hstate :=
  match m s with Ok s' _ => s' | Err _ => s end.

Definition raw_memory : hstate :=
  mk_hstate (reset_state IDLE TIMER) (mk_heap 0 0 0 HEAP_SEM 0 0 0 ∅ (replicate 124 7)).
Definition heap_fresh : hstate := ok_hstate (rt_system_heap_init 100002 100131) raw_memory.

(** Three blocks, the middle one free again: 20 bytes in use at 12, 12 free at
    44, 16 in use at 68, and 16 free at 96. *)
Definition heap_used : hstate :=
  ok_hstate (rt_malloc 20;; p ← rt_malloc 10; rt_malloc 16;; rt_free p) heap_fresh.
Definition used_layout : layout := [(0, true); (32, false); (56, true); (84, false)].

Lemma heap_used_ok :
  hs_ok (mk_hstate (hs_kernel heap_used) (hs_heap heap_used)) used_layout.
Proof. apply hs_check_sound. vm_compute. reflexivity. Qed.

Notation used_kernel := (hs_kernel heap_used) (only parsing).
Notation used_heap := (hs_heap heap_used) (only parsing).

Lemma rt_malloc_spec_witness :
  ∃ h' p, rt_malloc 9 (mk_hstate used_kernel used_heap) = Ok (mk_hstate used_kernel h') p
    ∧ heap_bytes h' = heap_bytes used_heap.
Proof.
  destruct (rt_malloc_spec used_kernel used_heap used_layout 9 heap_used_ok)
    as (h' & l' & p & E & _ & Hb & _); [lia|].
  exists h', p. exact (conj E Hb).
Defined.

Lemma rt_free_spec_witness :
  ∃ h', rt_free (heap_ptr used_heap + 12) (mk_hstate used_kernel used_heap)
      = Ok (mk_hstate used_kernel h') tt ∧
    used_mem h' = used_mem used_heap - (20 + SIZEOF_STRUCT_MEM).
Proof.
  destruct (rt_free_spec used_kernel used_heap used_layout 12 20 heap_used_ok)
    as (h' & l' & E & _ & _ & _ & Hu); [vm_compute; left|].
  exists h'. exact (conj E Hu).
Defined.

Lemma malloc_free_roundtrip_witness :
  ∃ h1 p h2, rt_malloc 9 (mk_hstate used_kernel used_heap) = Ok (mk_hstate used_kernel h1) p ∧
    rt_free p (mk_hstate used_kernel h1) = Ok (mk_hstate used_kernel h2) tt ∧
    used_mem h2 = used_mem used_heap.
Proof.
  set (s1 := ok_hstate (rt_malloc 9) (mk_hstate used_kernel used_heap)).
  exists (hs_heap s1), 100048.
  assert (rt_malloc 9 (mk_hstate used_kernel used_heap)
    = Ok (mk_hstate used_kernel (hs_heap s1)) 100048) as E by (vm_compute; reflexivity).
  destruct (malloc_free_roundtrip used_kernel used_heap used_layout 9 (hs_heap s1) 100048
    heap_used_ok ltac:(lia) E) as (h2 & E2 & _ & Hu); [discriminate|].
  exists h2. exact (conj E (conj E2 Hu)).
Defined.

Lemma rt_malloc_wraps_witness :
  rt_malloc (2 ^ 32 - 1) (mk_hstate used_kernel used_heap)
  = rt_malloc 12 (mk_hstate used_kernel used_heap).
Proof. apply (rt_malloc_wraps _ _ used_layout); [exact heap_used_ok|lia]. Defined.

Lemma rt_system_heap_init_spec_witness :
  ∃ k' h', rt_system_heap_init 100002 100131 raw_memory = Ok (mk_hstate k' h') tt ∧
    hs_ok (mk_hstate k' h') [(0, false)].
Proof.
  destruct (rt_system_heap_init_spec (hs_kernel raw_memory) (hs_heap raw_memory) 100002 100131)
    as (k' & h' & E & Hok & _); try reflexivity; try lia.
  - discriminate.
  - apply Store.unlinked_nodes. intros. apply not_elem_of_nil.
  - vm_compute. discriminate.
  - exists k', h'. exact (conj E Hok).
Defined.

Lemma heap_fresh_ok :
  hs_ok (mk_hstate (hs_kernel heap_fresh) (hs_heap heap_fresh)) [(0, false)].
Proof. apply hs_check_sound. vm_compute. reflexivity. Qed.

Lemma heap_unused_is_whole_witness : used_mem (hs_heap heap_fresh) = 0.
Proof.
  refine (proj2 (heap_unused_is_whole (hs_kernel heap_fresh) _ _ heap_fresh_ok _)). reflexivity.
Defined.

(** A block of sixteen bytes shrunk to four, and one resized to nothing. *)
Lemma rt_realloc_spec_witness :
  (∃ h' p, rt_realloc (heap_ptr used_heap + 68) 4 (mk_hstate used_kernel used_heap)
      = Ok (mk_hstate used_kernel h') p) ∧
  (∃ h' l', rt_realloc (heap_ptr used_heap + 68) 0 (mk_hstate used_kernel used_heap)
      = Ok (mk_hstate used_kernel h') RT_NULL ∧
    regions used_heap used_layout ≡ₚ (68, 16) :: regions h' l').
Proof.
  split.
  - destruct (rt_realloc_spec used_kernel used_heap used_layout 68 16 4 heap_used_ok)
      as (h' & l' & p & E & _); [vm_compute; right; left|lia|].
    exists h', p. exact E.
  - destruct (rt_realloc_spec used_kernel used_heap used_layout 68 16 0 heap_used_ok)
      as (h' & l' & p & E & _ & -> & Hperm & _); [vm_compute; right; left|lia|].
    exists h', l'. split; [exact E|exact Hperm].
Defined.

Lemma rt_calloc_spec_witness :
  ∃ h' p, rt_calloc 3 4 (mk_hstate used_kernel used_heap) = Ok (mk_hstate used_kernel h') p.
Proof.
  destruct (rt_calloc_spec used_kernel used_heap used_layout 3 4 heap_used_ok)
    as (h' & l' & p & E & _); [vm_compute; discriminate|].
  exists h', p. exact E.
Defined.

Lemma rt_ringbuffer_create_spec_witness :
  ∃ h' r, rt_ringbuffer_create 14 (mk_hstate (hs_kernel heap_fresh) (hs_heap heap_fresh))
    = Ok (mk_hstate (hs_kernel heap_fresh) h') r.
Proof.
  destruct (rt_ringbuffer_create_spec (hs_kernel heap_fresh) (hs_heap heap_fresh) [(0, false)] 14
    heap_fresh_ok) as (h' & l' & r & E & _); [lia|].
  exists h', r. exact E.
Defined.

(** Four bytes at a multiple of eight, filled, and given back. *)
Lemma rt_malloc_align_spec_witness :
  ∃ h' p, rt_malloc_align 4 (2 ^ 3) (mk_hstate used_kernel used_heap) = Ok (mk_hstate used_kernel h') p ∧
    (p = RT_NULL ∨ (p mod 8 = 0 ∧ ∃ h3, rt_free_align p (mk_hstate used_kernel
       (set_heap_bytes (splice (heap_bytes h') (p - heap_ptr used_heap) [1; 2; 3; 4]) h')) =
         Ok (mk_hstate used_kernel h3) tt)).
Proof.
  destruct (rt_malloc_align_spec used_kernel used_heap used_layout 4 3 heap_used_ok)
    as (h' & l' & p & E & _ & Hp); [lia|lia|lia|].
  exists h', p. split; [exact E|].
  destruct Hp as [[-> _]|(q & j & _ & _ & Hm & _ & _ & Hfree)]; [by left|right]. split; [exact Hm|].
  destruct (Hfree [1; 2; 3; 4] eq_refl) as (h3 & l3 & E3 & _). by exists h3.
Defined.
