(* ===== verification/JsmnExamples.v ===== *)
(** * Concrete documents: the theorems on the JSON parser applied, and odd inputs *)

From Stdlib Require Import ZArith Lia String Ascii.
From stdpp Require Import base list.
From S2P Require Import RTThread.
From S2P Require Import Prelude.
From S2P Require Import Bytes.
From S2P Require Import Jsmn.
From S2P Require Import JsmnReference.
From S2P Require Import JsmnRefine.
From S2P Require Import JsmnSpec.
From S2P Require Import JsmnTree.
From S2P Require Import JsmnUtil.
From S2P Require Import JsmnAccess.
From S2P Require Import JsmnClient.

(** A person, with blanks, a nested array and an escaped character. *)
Definition ex_members : members :=
  MCons str_age [32] [32] (VPrimitive (chars "21")) [] [32]
  (MCons str_email [] [] (VString (chars "a\nb")) [] [10]
  (MCons str_name [] [] (VArray [] (ECons (VPrimitive (chars "true")) [] [] ENil)) [] [] MNil)).
Definition ex_value : jval := VObject [] ex_members.
Definition ex_text : list Z := document [] ex_value [10].
Definition ex_junk : jsmntok_t := mk_tok JSMN_UNDEFINED 7 7 7 7.
Definition ex_pool (n : nat) : list jsmntok_t := replicate n ex_junk.

Example ex_text_parses :
  match jsmn_parse ex_text (zlen ex_text) 10 (start (ex_pool 10)) with
  | Ok s r => r = 8 ∧ tokens s = Some (vtoks 0 0 (-1) ex_value ++ ex_pool 2)
  | Err _ => False
  end.
Proof. vm_compute. done. Qed.

Lemma ex_text_in : text_in ex_text (zlen ex_text).
Proof. by apply (bool_decide_unpack (0 ≤ zlen ex_text < 2 ^ 31 - 1 ∧ zlen ex_text ≤ zlen ex_text)). Qed.
Lemma ex_pool_ok : pool_ok 10 b_empty (ex_pool 10).
Proof. by apply pool_ok_start. Qed.

Lemma jsmn_parse_refines_witness :
  ∃ r p' b', tokenize (Z.to_nat (zlen ex_text)) 10 0 (remaining ex_text (zlen ex_text) 0) b_empty = (r, p', b') ∧
    jsmn_parse ex_text (zlen ex_text) 10 (repr 0 b_empty (ex_pool 10)) =
      Ok (repr p' b' (junk_after b_empty b' (ex_pool 10))) r.
Proof.
  apply jsmn_parse_refines; [exact ex_text_in|done|by apply (bool_decide_unpack (0 ≤ 0 ≤ zlen ex_text))|apply b_empty_ok|exact ex_pool_ok].
Defined.

Lemma jsmn_parse_keeps_tokens_witness :
  ∃ r p' b', jsmn_parse ex_text (zlen ex_text) 10 (repr 0 b_empty (ex_pool 10)) =
      Ok (repr p' b' (junk_after b_empty b' (ex_pool 10))) r ∧
    0 ≤ p' ≤ zlen ex_text ∧ builder_ok p' b' ∧ tokens_le (b_toks b_empty) (b_toks b').
Proof.
  apply jsmn_parse_keeps_tokens; [exact ex_text_in|done|by apply (bool_decide_unpack (0 ≤ 0 ≤ zlen ex_text))|apply b_empty_ok|exact ex_pool_ok].
Defined.

Lemma jsmn_parse_safe_witness :
  ∃ r p' toks super, jsmn_parse ex_text (zlen ex_text) 3 (start (ex_pool 3)) =
      Ok (mk_parser p' (zlen toks) super (Some (toks ++ drop (length toks) (ex_pool 3)))) r ∧
    0 ≤ p' ≤ zlen ex_text ∧ zlen toks ≤ Z.max 0 3 ∧ -1 ≤ super < zlen toks ∧
    (∀ i t, toks !! i = Some t → token_ok p' (length toks) i t) ∧
    (r = JSMN_ERROR_NOMEM ∧ 3 ≤ zlen toks ∨ r = JSMN_ERROR_INVAL ∨ r = JSMN_ERROR_PART ∨
     r = zlen toks ∧ ∀ t, t ∈ toks → is_open t = false).
Proof. apply jsmn_parse_safe; [exact ex_text_in|done|done]. Defined.

(** Three tokens are not enough: the parser stops and is called again with ten. *)
Definition ex_stopped : jsmn_parser :=
  match jsmn_parse ex_text (zlen ex_text) 3 (start (ex_pool 3)) with Ok s _ => s | Err _ => start [] end.
Lemma jsmn_parse_resumes_witness :
  jsmn_parse ex_text (zlen ex_text) 3 (start (ex_pool 3)) = Ok ex_stopped JSMN_ERROR_NOMEM ∧
  jsmn_parse ex_text (zlen ex_text) 10 (set_tokens ((.++ ex_pool 7) <$> tokens ex_stopped) ex_stopped) =
  jsmn_parse ex_text (zlen ex_text) 10 (start (ex_pool 3 ++ ex_pool 7)).
Proof.
  assert (jsmn_parse ex_text (zlen ex_text) 3 (start (ex_pool 3)) = Ok ex_stopped JSMN_ERROR_NOMEM) as H
    by (vm_compute; reflexivity).
  split; [exact H|].
  exact (jsmn_parse_resumes ex_text (zlen ex_text) 3 10 (ex_pool 3) (ex_pool 7) ex_stopped ex_text_in
    ltac:(lia) ltac:(done) ltac:(done) H).
Defined.

Definition ex_parsed : jsmn_parser :=
  match jsmn_parse ex_text (zlen ex_text) 10 (start (ex_pool 10)) with Ok s _ => s | Err _ => start [] end.
Lemma jsmn_parse_counts_witness :
  ∃ s' n, jsmn_parse ex_text (zlen ex_text) 0 count_mode = Ok s' n ∧ n ≠ JSMN_ERROR_NOMEM ∧ (0 ≤ 8 → n = 8).
Proof.
  apply (jsmn_parse_counts ex_text (zlen ex_text) 10 0 (ex_pool 10) ex_parsed 8 ex_text_in);
    [done|done|vm_compute; reflexivity].
Defined.

Lemma jsmn_parse_document_witness :
  ∃ s, jsmn_parse ex_text (zlen ex_text) 10 (start (ex_pool 10)) = Ok s (zlen (vtoks (zlen ([] : list Z)) 0 (-1) ex_value)) ∧
    pos s = zlen ex_text ∧
    tokens s = Some (vtoks (zlen ([] : list Z)) 0 (-1) ex_value ++ drop (length (vtoks (zlen ([] : list Z)) 0 (-1) ex_value)) (ex_pool 10)).
Proof.
  apply (jsmn_parse_document ex_text (zlen ex_text) 10 (ex_pool 10) [] ex_value [10] ex_text_in);
    [vm_compute; reflexivity|vm_compute; reflexivity| |done].
  by apply (bool_decide_unpack (zlen (vtoks (zlen ([] : list Z)) 0 (-1) ex_value) ≤ 10 < 2 ^ 31)).
Defined.

(** The memory after the example was parsed, with a buffer of eight bytes. *)
Definition ex_mem : jmem :=
  mk_jmem (Some ex_text) (vtoks 0 0 (-1) ex_value ++ ex_pool 2) (Some (replicate 8 170)).
Lemma ex_mem_ok : parsed_object ex_text [] [] ex_members [10] ex_mem.
Proof.
  split; [done|by apply (bool_decide_unpack (zlen ex_text < 2 ^ 31))| |vm_compute; reflexivity|by exists (ex_pool 2)].
  apply (bool_decide_unpack (0 ≤ 0 ∧ 0 + zlen ex_text ≤ zlen ex_text ∧ slice ex_text 0 (zlen ex_text) = ex_text)).
  vm_compute. exact I.
Qed.
Lemma document_member_witness :
  ∃ item b' r,
    JSMN_GetObjectItem (Some (root_item [] [] ex_members)) (Some str_email) true ex_mem = Ok ex_mem (0, Some item) ∧
    JSMN_GetValueStringBuffered (Some item) 8 ex_mem = Ok (set_m_buf (Some b') ex_mem) r ∧
    zlen b' = 8 ∧ c_string b' = Some (chars "a\nb").
Proof.
  apply (document_member ex_text [] [] ex_members [10] ex_mem str_email (replicate 8 170) 8 ex_mem_ok);
    [by apply (bool_decide_unpack (zlen (vtoks (zlen ([] : list Z)) 0 (-1) (VObject [] ex_members)) < 2 ^ 31))
    |exact str_email_no_nul|done|done|lia].
Defined.

Definition ex_tk : list jsmntok_t := ex_pool 256.
Lemma json_deal_cmd_document_witness :
  ∃ mem, json_deal_cmd (frame [] [] ex_members [10] [1; 2]) ex_tk (replicate 64 170) =
    Ok mem (1, [EValue str_age (chars "21"); EValue str_email (chars "a\nb"); EValue str_name []]).
Proof.
  apply (json_deal_cmd_document [] [] ex_members [10] [1; 2] ex_tk (replicate 64 170));
    [vm_compute; reflexivity| |done|done|].
  - by apply (bool_decide_unpack (zlen (frame [] [] ex_members [10] [1; 2]) < 2 ^ 31 - 1)).
  - by apply (bool_decide_unpack (zlen (vtoks (zlen ([] : list Z)) 0 (-1) (VObject [] ex_members)) ≤ 256)).
Defined.

(** A frame that is no JSON text. *)
Definition ex_garbage : list Z := chars "}{]," ++ [0].
Lemma json_deal_cmd_safe_witness :
  ∃ mem r evs, json_deal_cmd ex_garbage ex_tk (replicate 64 0) = Ok mem (r, evs) ∧ (r = 1 ∨ r = -1 ∨ r = -2).
Proof.
  apply (json_deal_cmd_safe ex_garbage (chars "}{],")); [done|done|done|done|by exists []].
Defined.

(** ** Odd inputs *)

(** The text [{}:}] has one brace too many, and is accepted: a colon makes the
    object closed before it the superior token again. *)
Lemma unmatched_brace_accepted :
  match jsmn_parse (chars "{}:}") 4 10 (start (ex_pool 10)) with Ok _ r => r = 1 | Err _ => False end.
Proof. vm_compute. reflexivity. Qed.

(** Keys without values: the fetches fail, and the client prints its buffer as it
    was, here without a NUL in it. *)
Definition keys_only : list Z :=
  [123] ++ vtext (VString str_age) ++ [44] ++ vtext (VString str_email) ++ [44] ++
  vtext (VString str_name) ++ [125; 0].
Lemma json_deal_cmd_prints_uninitialised :
  json_deal_cmd keys_only ex_tk (replicate 64 170) = Err FBounds.
Proof. vm_compute. reflexivity. Qed.
