(* ===== verification/FinshExamples.v ===== *)
(** * A shell with symbols: its theorems applied, and odd lines

    A variable [a], a function that adds its parameters, and a command that
    prints how many arguments it has. *)

From Stdlib Require Import String ZArith Lia.
From stdpp Require Import base list.
From S2P Require Import RTThread.
From S2P Require Import Prelude.
From S2P Require Import Bytes.
From S2P Require Import KPrintf.
From S2P Require Import FinshVm.
From S2P Require Import FinshVmSpec.
From S2P Require Import Finsh.
From S2P Require Import FinshCompile.
From S2P Require Import FinshCompileSpec.
From S2P Require Import FinshExpr.
From S2P Require Import FinshCorrect.
From S2P Require Import FinshToken.
From S2P Require Import FinshParser.
From S2P Require Import FinshParse.
From S2P Require Import FinshLex.
From S2P Require Import FinshGrammar.
From S2P Require Import FinshShell.
From S2P Require Import Msh.
From S2P Require Import Shell.
From S2P Require Import FinshLine.
From S2P Require Import ShellSpec.
From S2P Require Import MshSpec.

#[local] Instance ex_layout : FinshLayout := { variables_at := 0; heap_at := 192 }.
#[local] Instance ex_syscalls : Syscalls := λ f args m,
  if f =? 4096 then Some (m, foldr Z.add 0 args) else None.
#[local] Instance ex_commands : Commands := λ f args,
  print_line "%d" [AInt (zlen args)];; mret f.

Definition ex_shell_table : list finsh_syscall := [
  mk_syscall 1024 (chars "sum") (chars "add the parameters") 4096;
  mk_syscall 1040 (chars "__cmd_count") (chars "count the arguments") 8192 ].
Definition ex_finsh : finsh :=
  mk_finsh (replicate 16 zero_node) ([mk_var (chars "a") finsh_type_int; mk_var (chars "c") finsh_type_char] ++ replicate 6 no_var)
    FINSH_ERROR_OK 0 192 0 [] [] ex_shell_table [] (mk_vm (replicate 64 0) 0 (replicate 128 0) 0 (replicate 320 0)).
Definition ex_shell (msh : bool) (line : list Z) (position curpos : Z) : finsh_shell :=
  mk_shell WAIT_NORMAL true true 0 0 (replicate 5 (replicate 80 0)) (mk_fparser zero_token None ex_finsh)
    line position curpos msh None [].
Definition ex_blank : list Z := replicate 81 0.

(** [a = 3; a + sum(a, 4);] *)
Definition ex_first : sexp := SAssign (SId (chars "a")) (SInt 3).
Definition ex_second : sexp :=
  SBin Add (SId (chars "a")) (SCall (SId (chars "sum")) (SCons (SId (chars "a")) (SCons (SInt 4) SNil))).
Definition ex_statements : sexps := SCons ex_second SNil.
Definition ex_spaced : list (list Z * lexeme) :=
  [([32], LId (chars "a")); ([32], LOp token_assign); ([], LInt 3); ([], LOp token_semicolon);
   ([32], LId (chars "a")); ([], LOp token_add); ([32; 32], LId (chars "sum")); ([], LOp token_left_paren);
   ([], LId (chars "a")); ([], LOp token_comma); ([32], LInt 4); ([], LOp token_right_paren); ([], LOp token_semicolon)].
Definition ex_line : list Z := text_of ex_spaced [32].
Example ex_line_text : ex_line = chars " a =3; a+  sum(a, 4); ".
Proof. reflexivity. Qed.
Definition ex_x : expr := EAssign (id_var 0) (EInt 3).

Lemma ex_clean : clean ex_finsh.
Proof. done. Qed.
Lemma ex_spells : spells ex_finsh ex_line ex_first ex_statements.
Proof. split; [by exists ex_spaced, [32]|done|done|]. apply Nat.leb_le. reflexivity. Qed.
Lemma ex_calls : calls_keep_size.
Proof. intros f args m m' r. unfold syscall_at, ex_syscalls. destruct (f =? 4096); [|done]. intros [= <- _]. done. Qed.
Lemma ex_variables : variables_in_memory (global_variable ex_finsh) (zlen (vm_memory (the_vm ex_finsh))).
Proof. split_and!; vm_compute; congruence. Qed.

(** Ten is printed, and the variable keeps its three. *)
Example ex_line_prints :
  match finsh_run_line ex_line (ex_shell false ex_blank 0 0) with
  | Ok s _ => sh_out s = [([10], []); ([9] ++ chars "%d, 0x%08x" ++ [10], [AInt 10; AInt 10])] ∧
      take 24 (vm_memory (the_vm (fp_finsh (sh_parser s)))) = replicate 20 0 ++ [3; 0; 0; 0]
  | Err _ => False
  end.
Proof. vm_compute. done. Qed.

(** ** The theorems applied *)

Lemma finsh_parser_run_spec_witness : ∃ t' nodes i,
  finsh_parser_run ex_line (mk_fparser zero_token None ex_finsh) =
    Ok (mk_fparser t' (Some i) (set_nodes nodes ex_finsh)) tt ∧
  ∃ t, root t = Some i ∧ length nodes = 16%nat ∧ linked nodes t ∧ NoDup (labels t) ∧
    strip t = node_trees (symbol_of ex_finsh) (SCons ex_first ex_statements).
Proof. apply finsh_parser_run_spec; [exact ex_clean|exact ex_spells]. Defined.


(** [a = 3;] in nodes. *)
Definition ex_nodes : list finsh_node :=
  [mk_node (id_data (id_var 0)) (Some 1%nat) None; mk_node (value_data FINSH_NODE_VALUE_INT 3) None None;
   mk_node (sys FINSH_NODE_SYS_ASSIGN) None (Some 0%nat)] ++ replicate 13 zero_node.
Definition ex_tree : tree nat :=
  Node 2%nat (sys FINSH_NODE_SYS_ASSIGN)
    (Node 0%nat (id_data (id_var 0)) Leaf (Node 1%nat (value_data FINSH_NODE_VALUE_INT 3) Leaf Leaf)) Leaf.
Lemma ex_program : program_at (set_nodes ex_nodes ex_finsh) ex_tree (ECons ex_x ENil).
Proof. split_and!; try done. by apply (bool_decide_unpack (NoDup (labels ex_tree))). Qed.

Lemma finsh_compiler_run_spec_witness :
  let s := set_nodes ex_nodes ex_finsh in
  let code := code_statements (global_variable s) (ECons ex_x ENil) in
  if zlen code <=? FINSH_TEXT_MAX
  then ∃ s', finsh_compiler_run (root ex_tree) s = Ok s' tt ∧
    text_segment (the_vm s') = code ++ replicate (Z.to_nat (FINSH_TEXT_MAX - zlen code)) 0 ∧
    finsh_compile_pc s' = zlen code ∧ global_errno s' = global_errno s ∧
    global_variable s' = global_variable s ∧ vm_memory (the_vm s') = vm_memory (the_vm s)
  else finsh_compiler_run (root ex_tree) s = Err FBounds.
Proof. apply finsh_compiler_run_spec; [exact ex_program|reflexivity]. Defined.

Lemma compile_run_spec_witness :
  let s := set_nodes ex_nodes ex_finsh in
  ∃ s1 w, finsh_compiler_run (root ex_tree) s = Ok s1 tt ∧ global_errno s1 = global_errno s ∧
    width_of_expr (global_variable s) (last_expr ex_x ENil) = Some w ∧
    match eval_statements (global_variable s) (ECons ex_x ENil) (vm_memory (the_vm s)) with
    | Ok m v => ∃ vm' x, on_vm finsh_vm_run s1 = Ok (set_vm vm' s1) tt ∧ vm_memory vm' = m ∧
        finsh_vm_stack vm' !! 0%nat = Some x ∧ x mod modulus w = v mod modulus w
    | Err f => on_vm finsh_vm_run s1 = Err f
    end.
Proof. apply compile_run_spec; [exact ex_program|reflexivity|exact ex_calls|exact ex_variables|vm_compute; congruence]. Defined.

(** Typed: [ac], left, [b], right, backspace, [d]. *)
Definition ex_keys : list key := [KInsert 97; KInsert 99; KLeft; KInsert 98; KRight; KBackspace; KInsert 100].
Example ex_keys_make : edits ex_keys ([], []) = ([100; 98; 97], []).
Proof. reflexivity. Qed.
Lemma ex_editing : editing (ex_shell false ex_blank 0 0) ([], []).
Proof. done. Qed.
Lemma line_editor_refines_witness : ∃ s',
  finsh_thread_chars (ex_keys ≫= key_bytes) (ex_shell false ex_blank 0 0) = Ok s' tt ∧
  editing s' (edits ex_keys ([], [])) ∧ same_shell (ex_shell false ex_blank 0 0) s'.
Proof. apply line_editor_refines; [exact ex_editing|reflexivity]. Defined.

(** [count ab 'x y'], the last argument in double quotes. *)
Definition ex_pieces : list piece :=
  [mk_piece [32] false (chars "ab"); mk_piece [32; 9] true (chars "x y")].
Definition ex_count : piece := mk_piece [] false (chars "count").
Definition ex_command : list Z := command_line [32] ex_count ex_pieces [32] (replicate 20 0).
Definition ex_msh (p : piece) : finsh_shell :=
  ex_shell true (command_line [32] p ex_pieces [32] (replicate 20 0)) 20 20.
Lemma ex_lines_up : lines_up [32] ex_count ex_pieces [32] (replicate 20 0) (ex_msh ex_count).
Proof. done. Qed.
Lemma msh_exec_spec_witness :
  msh_exec 0 (zlen ([32] ++ args_text (ex_count :: ex_pieces) [32])) (ex_msh ex_count) =
    match the_command ex_count (ex_msh ex_count) with
    | Some func => run_command func (pc_arg <$> ex_count :: ex_pieces)
        (set_sh_line ([32] ++ split_text (ex_count :: ex_pieces) [32] ++ 0 :: replicate 20 0) (ex_msh ex_count))
    | None => not_found [32] ex_count ex_pieces [32] (replicate 20 0) (ex_msh ex_count)
    end.
Proof. apply msh_exec_spec; [exact ex_lines_up|reflexivity]. Defined.
(** The command is found and prints that there are three arguments; another name is not found. *)
Example ex_count_found : the_command ex_count (ex_msh ex_count) = Some 8192.
Proof. reflexivity. Qed.
Example ex_other_not_found :
  let p := mk_piece [] false (chars "other") in
  match msh_exec 0 (zlen ([32] ++ args_text (p :: ex_pieces) [32])) (ex_msh p) with
  | Ok s r => r = -1 ∧ sh_out s = [(chars "%s: command not found." ++ [10], [AText (chars "other")])]
  | Err _ => False
  end.
Proof. vm_compute. done. Qed.

(** ** Odd lines *)

(** What a line prints after the line feed that is echoed. *)
Definition printed (text : string) : fault + list (list Z * list arg) :=
  match finsh_run_line (chars text) (ex_shell false ex_blank 0 0) with
  | Ok s _ => inr (drop 1 (sh_out s))
  | Err e => inl e
  end.
Definition shows_number (v : Z) : list (list Z * list arg) := [([9] ++ chars "%d, 0x%08x" ++ [10], [AInt v; AInt v])].

(** Six increments are more than the text segment holds. *)
Example text_segment_overflows : printed "a++;a++;a++;a++;a++;a++;" = inl FBounds.
Proof. vm_compute. reflexivity. Qed.
(** A declaration without a value that comes first: the rest of the line is dropped. *)
Example first_declaration_ends_line : printed "int b; b = 3; 4;" = inr (shows_number 0).
Proof. vm_compute. reflexivity. Qed.
(** A parenthesis around an expression is taken for a cast. *)
Example parentheses_do_not_group :
  printed "(a);" = inr [(chars "%s" ++ [10], [AText (finsh_error_string FINSH_ERROR_INVALID_TOKEN)])].
Proof. vm_compute. reflexivity. Qed.
(** A cast changes nothing: 300 as a [char] is 300. *)
Example cast_changes_nothing :
  printed "a = 300; (char)a;" = inr [([9] ++ chars "'%c', %d, 0x%08x" ++ [10], [AInt 44; AInt 300; AInt 300])].
Proof. vm_compute. reflexivity. Qed.
(** One stack slot, cleared once, holds both values: of the second statement, a
    character that is zero, the lowest byte is stored, and all four are printed. *)
Example earlier_value_is_printed : printed "300; c;" = inr (shows_number 256).
Proof. vm_compute. reflexivity. Qed.
(** Alone on its line the character is printed as it is. *)
Example character_is_printed : printed "c;" = inr (shows_number 0).
Proof. vm_compute. reflexivity. Qed.
(** What a call gives is not added to. *)
Example call_is_not_added : printed "sum(1) + 2;" = inr (shows_number 1).
Proof. vm_compute. reflexivity. Qed.
(** An octal character is zero. *)
Example octal_character_is_zero : printed "'\101';" = inr (shows_number 0).
Proof. vm_compute. reflexivity. Qed.
Example division_by_zero : printed "4 / a;" = inl FDivide.
Proof. vm_compute. reflexivity. Qed.

(** A full line forgets its length, not its text: after Tab has found the text
    again, one more character and two backspaces, the length is 65535 and the
    move of the rest of the line runs off its end. *)
Definition ex_full_line : list Z := replicate 80 97 ++ [9; 120; 8].
Example full_line_positions :
  match finsh_thread_chars ex_full_line (ex_shell true ex_blank 0 0) with
  | Ok s _ => line_position s = 0 ∧ line_curpos s = 80
  | Err _ => False
  end.
Proof. vm_compute. done. Qed.
Example full_line_overruns : finsh_thread_chars (ex_full_line ++ [8]) (ex_shell true ex_blank 0 0) = Err FBounds.
Proof. vm_compute. reflexivity. Qed.
