(* ===== verification/KExamples.v ===== *)
(** * The kernel services and the devices at work

    The theorems on the memory and string routines, formatted output, aligned
    blocks, devices and the console, applied to concrete inputs. *)

From Stdlib Require Import ZArith Lia.
From stdpp Require Import base gmap list fin_maps.
From S2P Require Import RTThread.
From S2P Require Import Prelude.
From S2P Require Import Bytes.
From S2P Require Import ListModel.
From S2P Require Import Kernel.
From S2P Require Import KMemory.
From S2P Require Import KString.
From S2P Require Import KPrintf.
From S2P Require Import KPrintfSpec.
From S2P Require Import Scheduler.
From S2P Require Import Object.
From S2P Require Import Device.
From S2P Require Import DeviceSpec.
From S2P Require Import Boot.
From S2P Require Import Examples.

(** ** Memory and strings *)

Definition ten : list Z := [0; 1; 2; 3; 4; 5; 6; 7; 8; 9].

(** Two places up, overlapping. *)
Lemma rt_memmove_spec_witness :
  rt_memmove 3 1 5 ten = Ok [0; 1; 2; 1; 2; 3; 4; 5; 8; 9] 3.
Proof. refine (rt_memmove_spec ten 3 1 5 _ _ _ _ _ _); [repeat constructor; done|done..]. Defined.

(** ["abcbc"] and, at 6, ["bc"]. *)
Definition two_strings : list Z := [97; 98; 99; 98; 99; 0; 98; 99; 0].
Lemma two_strings_at : cstr two_strings 0 [97; 98; 99; 98; 99] ∧ cstr two_strings 6 [98; 99].
Proof. split; repeat (apply cstr_cons; [done|done|done|]); by apply cstr_nil. Qed.
Lemma rt_strstr_spec_witness :
  rt_strstr 0 6 two_strings = Ok two_strings (Some 1) ∧ occurs_at [97; 98; 99; 98; 99] [98; 99] 1.
Proof.
  destruct two_strings_at as [Hs Ht].
  destruct (rt_strstr_spec two_strings 0 _ 6 _ Hs Ht) as (r & E & H); [done|].
  assert (rt_strstr 0 6 two_strings = Ok two_strings (Some 1)) as E' by (vm_compute; reflexivity).
  rewrite E' in E. injection E as <-. split; [done|]. apply (proj1 H).
Defined.

(** ** Formatted output *)

(** ["<%5d|%-4s|%04x>"] of -42, ["ab"] and 255, into ten bytes. *)
Definition sample_fmt : list Z :=
  [60; 37; 53; 100; 124; 37; 45; 52; 115; 124; 37; 48; 52; 120; 62].
Definition sample_args : list arg := [AInt (-42); AStr (Some [97; 98]); AInt 255].
Definition sample_text : list Z :=
  [60; 32; 32; 45; 52; 50; 124; 97; 98; 32; 32; 124; 48; 48; 102; 102; 62].
Lemma rt_vsnprintf_spec_witness :
  rt_vsnprintf 1 10 sample_fmt sample_args (replicate 12 7) =
    Ok ([7; 60; 32; 32; 45; 52; 50; 124; 97; 98; 0; 7]) 17.
Proof.
  refine (rt_vsnprintf_spec (replicate 12 7) 1 10 sample_fmt sample_args sample_text _ _ _ _ _ _ _ _);
    [repeat constructor; done| |vm_compute; reflexivity|done|done|done|done|done].
  repeat constructor; done.
Defined.

Lemma decimal_roundtrip_witness :
  ∃ digits, rt_snprintf 0 12 fmt_d [AInt (-305)] (replicate 12 7) =
      Ok (splice (replicate 12 7) 0 (([45] ++ digits) ++ [0])) (zlen ([45] ++ digits)) ∧
    ∀ rest, _ISDIGIT (cur rest) = false → skip_atoi 0 (digits ++ rest) = (305, rest).
Proof. apply (decimal_roundtrip (replicate 12 7) 0 12 (-305)); done. Defined.

(** ** A serial port *)

(** The line is connected or not, and the bytes that went out. As the serial
    driver does, [open] stores the flags asked for and [close] clears the
    activated flag. *)
Record uart : Type := mk_uart { ua_connected : bool; ua_sent : list Z }.
Definition deactivated (d : rt_device) : rt_device :=
  set_dev_flag (Z.land (dev_flag d) (Z.lnot RT_DEVICE_FLAG_ACTIVATED)) d.
Instance uart_driver : DeviceDriver uart := {
  drv_init _ d u := (RT_EOK, d, u);
  drv_open _ oflag d u := if ua_connected u then (RT_EOK, set_dev_open_flag (Z.land oflag 255) d, u) else (- RT_EIO, d, u);
  drv_close _ d u := (RT_EOK, deactivated d, u);
  drv_read _ _ _ d u := ((0, []), d, u);
  drv_write _ _ buf n d u := (n, d, mk_uart (ua_connected u) (ua_sent u ++ take (Z.to_nat n) buf));
  drv_control _ _ _ d u := (RT_EOK, d, u) }.

Instance uart_laws : DriverLaws (D := uart).
Proof.
  split; try (intros; by repeat split).
  intros dev oflag d v Ha. cbn. by destruct (ua_connected v).
Qed.

Definition UART : ptr := 9000.
Definition UART_NAME : list Z := [117; 97; 114; 116; 49; 0].
Definition uart_device : rt_device := mk_device 0 0 0 0 0 0 true true true true true true.
Definition board (v : uart) : dstate uart :=
  mk_dstate example_system {[UART := uart_device]} v RT_NULL (replicate 256 0).

Definition ok_dstate {A} (m : ST (dstate uart) A) (s : dstate uart) : dstate uart :=
  match m s with Ok s' _ => s' | Err _ => s end.

(** Registered, opened by the console and by another user, written to, closed. *)
Definition port_calls : list dev_call :=
  [CRegister UART UART_NAME 259; CConsole (Some UART_NAME); COpen UART 3; CPrintf sample_fmt sample_args;
   CPuts (Some [104; 105]); CClose UART; CClose UART; CClose UART].
Lemma devices_invariant_witness :
  devices_ok (board (mk_uart true [])) ∧
  ∃ s', run_calls port_calls (board (mk_uart true [])) = Ok s' tt ∧ devices_ok s' ∧
    ua_sent (ds_driver s') = sample_text ++ [104; 105].
Proof.
  assert (devices_ok (board (mk_uart true []))) as H0.
  { intros dev d H. simpl in H. apply lookup_singleton_Some in H as [_ <-]. by split. }
  split; [exact H0|].
  destruct (run_calls port_calls (board (mk_uart true []))) as [s' []|e] eqn:E.
  - exists s'. split; [done|]. split; [exact (devices_invariant port_calls _ s' H0 E)|].
    assert (ua_sent (ds_driver (ok_dstate (run_calls port_calls) (board (mk_uart true [])))) = sample_text ++ [104; 105])
      as H by (vm_compute; reflexivity).
    unfold ok_dstate in H. by rewrite E in H.
  - exfalso. assert (Boot.returns (run_calls port_calls (board (mk_uart true []))) = true) as H by (vm_compute; reflexivity).
    by rewrite E in H.
Defined.

(** The port after its registration. *)
Definition port_ready : dstate uart := ok_dstate (rt_device_register UART UART_NAME 259;; rt_device_init UART) (board (mk_uart true [])).
Definition device_at (s : dstate uart) : rt_device := default uart_device (ds_devices s !! UART).

Definition live_check (dev : ptr) (s : dstate uart) : bool :=
  negb (dev =? RT_NULL) &&
  match k_objects (ds_kernel s) !! dev with
  | Some x => class_of x =? RT_Object_Class_Device
  | None => false
  end.
Lemma live_check_sound dev s : live_check dev s = true → live dev s.
Proof.
  unfold live_check. intros [Hn H]%andb_true_iff. apply negb_true_iff, Z.eqb_neq in Hn. split; [done|].
  destruct (k_objects (ds_kernel s) !! dev) as [x|]; [|done]. exists x. split; [done|]. by apply Z.eqb_eq.
Qed.

(** The console on the port: a long message loses its end and sends a NUL. *)
Definition port_console : dstate uart := ok_dstate (rt_console_set_device (Some UART_NAME)) port_ready.
Definition long_text : list Z := replicate 300 120.
Lemma port_console_writable : writable (ds_console port_console) (device_at port_console) port_console.
Proof.
  assert (ds_console port_console = UART) as Hc by (vm_compute; reflexivity). rewrite Hc.
  split; [apply live_check_sound; vm_compute; reflexivity|].
  split; [|split; [vm_compute; discriminate|vm_compute; reflexivity]].
  unfold device_at. destruct (ds_devices port_console !! UART) eqn:E; [done|].
  assert (is_Some (ds_devices port_console !! UART)) as [? H] by (apply (bool_decide_unpack _); vm_compute; exact I).
  by rewrite E in H.
Qed.
Lemma rt_kprintf_spec_witness :
  ∃ s', rt_kprintf [37; 115] [AStr (Some long_text)] port_console = Ok s' tt ∧
    ds_devices s' !! UART = ds_devices port_console !! UART ∧ ua_sent (ds_driver s') = replicate 254 120 ++ [0].
Proof.
  destruct (rt_kprintf_spec [37; 115] [AStr (Some long_text)] long_text (device_at port_console) port_console)
    as (s' & H1 & _ & _ & _ & H2 & H3); [exact port_console_writable|vm_compute; reflexivity| | | |done|].
  - by repeat constructor.
  - constructor; [|done]. by apply Forall_replicate.
  - vm_compute. reflexivity.
  - exists s'. split; [exact H1|]. split; [rewrite H3; vm_compute; reflexivity|]. rewrite H2. vm_compute. reflexivity.
Defined.

Lemma ok_dstate_run {A} (m : ST (dstate uart) A) s a :
  match m s with Ok _ b => b = a | Err _ => False end → m s = Ok (ok_dstate m s) a.
Proof. unfold ok_dstate. by destruct (m s) as [s' b|]; [intros ->|]. Qed.

(** Created; registered; unregistered. *)
Definition port_registered : dstate uart := ok_dstate (rt_device_register UART UART_NAME 259) (board (mk_uart true [])).
Lemma rt_device_destroy_never_returns_witness :
  rt_device_destroy 9500 (ok_dstate (rt_device_create 9500 0) port_registered) = Err FAssert ∧
  rt_device_destroy UART port_registered = Err FAssert ∧
  rt_device_destroy UART (ok_dstate (rt_device_unregister UART) port_registered) = Err FAssert.
Proof.
  split; [|split].
  - apply (rt_device_destroy_never_returns 9500 port_registered); [done|]. left. exists 0.
    exact (ok_dstate_run (rt_device_create 9500 0) port_registered 9500 ltac:(vm_compute; reflexivity)).
  - apply (rt_device_destroy_never_returns UART (board (mk_uart true []))); [done|]. right; left. exists UART_NAME, 259.
    exact (ok_dstate_run (rt_device_register UART UART_NAME 259) (board (mk_uart true [])) RT_EOK
      ltac:(vm_compute; reflexivity)).
  - apply (rt_device_destroy_never_returns UART port_registered); [done|]. right; right.
    exact (ok_dstate_run (rt_device_unregister UART) port_registered RT_EOK ltac:(vm_compute; reflexivity)).
Defined.


